(* ===== verification/_CoqProject ===== *)
-Q . S2P

Prelude.v
L1Types.v
Toy.v
ReplayWindow.v
WireCodec.v
Connection.v
ConnectionFacts.v
ConnectionSender.v
ReliableChannel.v
ConnectionProps.v
ConnectionMail.v
Endpoint.v
ChannelWire.v
Capability.v
MessageReassembly.v
ChannelPolicy.v
ChannelMux.v
ChannelMuxFacts.v
MuxReach.v
ChannelMuxProps.v
ChannelRuns.v
L2Types.v
ToyCrypto.v
SessionControl.v
SessionKeys.v
SessionCrypto.v
Session.v
MshMessages.v
MshHandshake.v
AmpAdpCarrier.v
CarrierLane.v
CarrierLaneProps.v
MshAdpHandshake.v
MshAdpProps.v
AdpMultiaddr.v
LinkPolicy.v
ChannelSession.v
LinkWire.v
PeerLink.v
PeerLinkProps.v
NestedLink.v
AdpLink.v
LinkTable.v
DialBook.v
ChannelBridge.v
ManagedLink.v
PeerLinkManager.v
ManagerSteps.v
ToyLink.v
ManagerRuns.v
ManagerProps.v
MeshRuntime.v
RuntimeProps.v
OsUdp.v
HostResolver.v
TestNet.v
