(* ===== verification/Prelude.v ===== *)
(** * pp-cpp-amp: verification library

    pp-cpp-amp is the association mesh protocol stack of a peer-to-peer program.
    Its layers, from the wire up:

    - L1 (src/L1): datagrams over UDP.  An [Endpoint] owns a socket and tells
      datagrams apart by association id; a [Connection] is one association, with
      best-effort and reliable packets, acknowledgements, resends and a replay
      window.  A packet is authenticated by an HMAC before the session has keys,
      sealed by the session after ([IPacketProtection]).
    - L2 (src/L2): the mesh session handshake (hellos with ML-KEM keys, payloads
      signed with ML-DSA, finished messages), the keys it gives, the session that
      seals packets under them, rekeys and keeps the old receiving key for a while.
    - L3 (src/L3): channels over one session: frames, fragments, reassembly, the
      multiplexer with its budgets and queues, one session per channel, bridges
      between two channels, the capability messages of channel 0.
    - link (src/link): a [PeerLink] runs the handshake over an association, or over
      a channel of another link through a relay (a carrier, with a reliable lane of
      its own), and puts a session and a multiplexer on it.  [LinkTable] owns the
      links, [DialBook] knows the addresses.  [PeerLinkManager] dials, accepts and
      retires links; [MeshRuntime], [MeshPump] and [AmpStack] run it on a thread.

    ** Files, and what they model

    - [Prelude]: this file; results, records, bytes, lists, and what all share.
    - [L1Types] (include/amp/L1/Types.h, PacketProtection.h, DatagramIo.h),
      [ReplayWindow], [WireCodec] (with HmacBinder.cpp), [Connection], [Endpoint]:
      one file per source file, an operation per method under the method's name,
      a record per class with its fields.  [ConnectionFacts] and [ConnectionSender]
      hold the invariants of a connection, [ConnectionProps] its theorems,
      [ConnectionMail] what it hands up once it has keys, and [ReliableChannel] two
      connections facing each other over a network.
    - [L2Types], [SessionControl], [SessionKeys], [SessionCrypto] (with
      SessionAead.cpp), [Session], [MshMessages], [MshHandshake]: src/L2, likewise.
    - [ChannelWire], [Capability], [MessageReassembly], [ChannelPolicy] (with
      AmpChannelLimits.h), [ChannelMux], [ChannelSession], [ChannelBridge]: src/L3.
      [ChannelMuxFacts], [MuxReach] and [ChannelMuxProps] hold the theorems of the
      multiplexer, [ChannelRuns] those of a channel from one to another.
    - [AmpAdpCarrier], [CarrierLane] (theorems in [CarrierLaneProps]),
      [MshAdpHandshake] (theorems in [MshAdpProps]), [AdpMultiaddr] (with
      PeerId.cpp), [LinkPolicy] (Types.cpp, PeerLinkConfig.cpp,
      DualDialElector.cpp, LinkIdentity.h), [LinkWire] and [PeerLink] (PeerLink.cpp,
      in two: what the closures of a link reach, and the link; theorems in
      [PeerLinkProps]), [LinkTable], [DialBook]: src/link.  [AdpLink] composes
      two links over an association, from the channels down to the datagrams, and
      [NestedLink] two links over a carrier.
    - [ManagedLink] (LinkEvents.h and what PeerLinkManager.h asks of a link) and
      [PeerLinkManager]: the manager, an operation per method.  [ManagerSteps] says
      what each operation leaves of the links, the limits and the completions,
      [ManagerRuns] puts them in runs of any operations in any order, and
      [ManagerProps] holds the theorems of single operations.  [ToyLink] is a small
      link for their witnesses.
    - [MeshRuntime] (with MeshPump.cpp and AmpStack.cpp): the runtime, its queues,
      timers and ticks, its turns, the bursts of dials, its lane as an executor.
      [RuntimeProps]: what calls, tasks and turns keep, and their theorems.
    - [OsUdp] (OsUdpDatagramIo.cpp, as built on Linux), [HostResolver]
      (HostResolver.cpp), [TestNet] (MemoryDatagramIo.cpp, LossyDatagramIo.cpp,
      VirtualClock): the socket, the lookup of names and the network of the tests.
    - [Toy] and [ToyCrypto]: instances of the parameters, for the witnesses.

    ** Interfaces

    What one component asks of another is a class, which the other implements:
    [PacketProtection] (a connection, of the session: [Session] gives the instance
    and its laws, asked of the sessions of a run alone, those that are [sound]),
    [MuxTransport] (a multiplexer, of what is below: the links),
    [SendWire] (a handshake, of the link), [AdpConnection] and [CarrierSession] (a
    link, of the connection or the channel session below), [TableLink] (the table,
    of a link), [ManagedLink] (the manager, of a link: what it reads of one, what it
    does to one and the calls that may end its establishment; [ManagedLinkLaws] is
    what it relies on), [DialEndpoint] (the manager, of the socket it dials from).
    [OsUdp] and [TestNet] implement [DatagramIo].
    What is outside of the repository is a class as well: the calls of the system
    ([Kernel]), the random generator ([Rng]), the
    cryptographic libraries ([Sodium] and the classes of [L2Types]), the socket
    ([DatagramIo]), the conversions of IPv6 addresses ([Inet6]), the peer id of a
    key ([PeerIds]), the hashes; the laws relied on are classes of their own
    ([SodiumLaws] and so on), asked for by the theorems that need them, with
    instances in [Toy], [ToyCrypto] or the file itself.

    ** How code is rendered

    - A method takes the object and gives it back changed; [r <| f := v |>] is the
      assignment.  [Roe] is the code's result type, with its message.
    - Integers are of [Z], with [u8], [u16], [u32] and [u64] where the code's width
      wraps around; times are of [Z] and do not overflow (64 bits of milliseconds
      or nanoseconds), and are arguments of what reads a clock.
    - Callbacks, and datagrams handed to a socket, are events of a log, in order; a
      handler is its identity.  What a callback does to the object that calls it is
      a later operation.  Where the code goes on after a callback in a way that
      depends on it, the two halves are separate operations.
    - Objects held by several others are locations of a heap ([Endpoint]'s
      associations, the sessions of [ChannelBridge]) or the state behind an
      interface that is passed in and taken back ([LinkWire]).
    - Randomness is an argument.  Where an ideal property of cryptography is used
      (a tag that verifies was made with the key, distinct keys) it is a named
      hypothesis of the theorem.
    - The order a hash table is walked in is a parameter ([walk]).
    - Loops with no structural argument take fuel, which is the measure they go
      down on, so that it is never used up: the queue of a multiplexer or session,
      the packets held by a connection, the bytes left to parse, the candidates a
      dial has left ([dial_fuel]; [dial_terminates] proves it enough).  The batches
      of deferred tasks of a turn are as many as the application makes them:
      [turn_ends] proves a bound when no task defers itself again without end.
      [read_digits] and the other loops over strings are structural.

    ** What the theorems show

    - Delivery: [reliable_delivery_prefix] and
      [nothing_lost_silently] for two connections over a network that loses,
      repeats, reorders and forges; [link_delivers_in_order] for a channel of two
      links over such an association; [channel_delivers_in_order] for a channel of
      two multiplexers over any transport; [lane_delivers_in_order] and [lane_progress] for the lane of a
      carrier; [nested_reliable_in_order] for two links over one;
      [reassembles_any_order] and [msh_chunks_reassemble] for fragments;
      [bridge_copies] for a bridge.
    - Authentication: [handshake_agrees] and [carrier_handshake_agrees] for the
      handshake in memory and over a bad carrier, [dialed_peer_authenticated] for
      the peer a link was dialed to, [accept_needs_handshake] for an endpoint,
      [sessions_follow_rekey], [packet_nonce_injective] (nonces, and the labels the
      keys are derived under) and [rekey_exchange] for the keys after.
    - Replay and isolation: [accept_never_twice], [accept_refines_set],
      [replayed_packet_moves_nothing] (a packet taken once is stale after any run),
      [preupgrade_packet_harmless], [datagram_isolated].
    - Encodings: a round trip for every message, byte for byte, and
      [multiaddr_roundtrip] for addresses.
    - Bounds: [preauth_retransmits_bounded], [negotiation_bounded],
      [reassembly_bounded], [mux_bounded], [backoff_doubles].
    - Links and addresses: [link_table_sound], [stale_handle_stays_dead],
      [dual_dial_agrees], [dial_book_sound], [ingest_never_repoints].
    - The manager, over any run of its operations: [completions_exactly_once] (each
      callback handed to it, for an association, a nested link, a channel to open or
      to wait for, or a peer to verify, is waiting, posted or called, and once),
      [link_limits_hold], [tick_ends_handshakes], [manager_table_refines]; of single
      operations: [dial_terminates], [finish_dial_outcome], [drop_link_now],
      [election_leaves_one].
    - The runtime, over any calls from any threads, tasks and turns:
      [runtime_refines_world] (the manager in it is run as [ManagerRuns] runs one,
      all it posts in the order posted, each once), [burst_told_once],
      [timers_fire_once] (and each that is due, in the turn), [turn_ends].
    - The system: [sockets_never_leak], [sockaddr_roundtrip] and [udp_answers] for the
      socket, [lookups_answered_once] and [resolve_first_usable] for names,
      [network_keeps] and [lossy_keeps] for the network of the tests.

    Several theorems state what the code does where it does not do what it means
    to ([reflected_ack_taken], [closed_record_stays], [rekey_exchange],
    [late_hello_breaks_handshake], the carrier links of [dual_dial_agrees],
    [second_adp_session_kept], [stranded_loser], the dial that [drop_link_now]
    leaves open).

    ** Not modelled

    - WallClock reads the clock of the system, and Windows and macOS have branches
      of their own in OsUdpDatagramIo.cpp and HostResolver.cpp.
    - Locks and threads: a method of the manager, of the runtime or of the stack
      holds the lock from its first line to its last, and is one operation. *)

From stdpp Require Export base numbers list strings gmap fin_sets.
From Stdlib Require Export ZArith Lia.

#[global] Open Scope Z_scope.

(** ** Notation scope of the development *)

Declare Scope amp_scope.
Delimit Scope amp_scope with amp.
#[global] Open Scope amp_scope.

(** ** Record update

    [r <| f := v |>] is the C++ assignment [r.f = v]: the record [r] with field
    [f] replaced.  A record type takes part by giving its eta-expanded
    constructor as a [Fields] instance; the instance of [SetField] for one
    projection is found by abstracting that projection in it. *)

Class Fields (R : Type) := fields_eta : R -> R.
Class SetField {R T : Type} (proj : R -> T) := set_field : (T -> T) -> R -> R.
Arguments set_field {R T} proj {_} _ _.

#[export] Hint Extern 0 (@SetField ?R ?T ?proj) =>
  (let eta := constr:(_ : Fields R) in
   let body := eval hnf in eta in
   let abstracted := eval pattern proj in body in
   lazymatch abstracted with
   | ?f _ => exact (fun (upd : T -> T) (r : R) => f (fun x : R => upd (proj x)) r)
   end) : typeclass_instances.

#[warnings="-postfix-notation-not-level-1"]
Notation "r <| f := v |>" := (set_field f (fun _ => v) r)
  (at level 12, left associativity, f constr, v at level 200) : amp_scope.
#[warnings="-postfix-notation-not-level-1"]
Notation "r <| f ::= g |>" := (set_field f g r)
  (at level 12, left associativity, f constr, g at level 200) : amp_scope.

(** ** Results

    [ResultOrError<T, E>]: a value or an error of the layer's error type.
    [pp::Error] is a code and a message. *)

Inductive Result (E A : Type) : Type :=
  | Ok (a : A)
  | Fail (e : E).
Arguments Ok {E A} a.
Arguments Fail {E A} e.

Record Error := MkError { error_code : Z; error_message : string }.

(** [Error(message)]: code 0. *)
Definition Err_ (message : string) : Error := MkError 0 message.

Abbreviation Roe := (Result Error).

#[export] Instance result_ret {E} : MRet (Result E) := fun _ a => Ok a.
#[export] Instance result_bind {E} : MBind (Result E) :=
  fun _ _ f r => match r with Ok a => f a | Fail e => Fail e end.

(** [static_cast<bool>(result)]. *)
Definition ok {E A} (r : Result E A) : bool :=
  match r with Ok _ => true | Fail _ => false end.

Lemma Ok_inj {E A} (a b : A) : @Ok E A a = Ok b -> a = b.
Proof. congruence. Qed.

(** ** Machine integers

    Unsigned integers of a width are [Z] reduced modulo [2^w]; a value of
    type [uint8_t], [uint16_t], ... is one in range.  [int32_t] values read
    from an unsigned one are sign-adjusted. *)

Definition u8 (z : Z) : Z := z mod 2 ^ 8.
Definition u16 (z : Z) : Z := z mod 2 ^ 16.
Definition u32 (z : Z) : Z := z mod 2 ^ 32.
Definition u64 (z : Z) : Z := z mod 2 ^ 64.

Definition is_u8 (z : Z) : Prop := 0 <= z < 2 ^ 8.
Definition is_u16 (z : Z) : Prop := 0 <= z < 2 ^ 16.
Definition is_u32 (z : Z) : Prop := 0 <= z < 2 ^ 32.
Definition is_u64 (z : Z) : Prop := 0 <= z < 2 ^ 64.

(** [static_cast<int32_t>] of a [uint32_t]. *)
Definition i32_of_u32 (z : Z) : Z := if z <? 2 ^ 31 then z else z - 2 ^ 32.

Lemma u8_range z : is_u8 (u8 z).
Proof. apply Z.mod_pos_bound. lia. Qed.
Lemma u16_range z : is_u16 (u16 z).
Proof. apply Z.mod_pos_bound. lia. Qed.
Lemma u32_range z : is_u32 (u32 z).
Proof. apply Z.mod_pos_bound. lia. Qed.
Lemma u64_range z : is_u64 (u64 z).
Proof. apply Z.mod_pos_bound. lia. Qed.
Lemma u8_id z : is_u8 z -> u8 z = z.
Proof. intros H. by apply Z.mod_small. Qed.
Lemma u16_id z : is_u16 z -> u16 z = z.
Proof. intros H. by apply Z.mod_small. Qed.
Lemma u32_id z : is_u32 z -> u32 z = z.
Proof. intros H. by apply Z.mod_small. Qed.
Lemma u64_id z : is_u64 z -> u64 z = z.
Proof. intros H. by apply Z.mod_small. Qed.

Create HintDb amp.
#[export] Hint Resolve u8_range u16_range u32_range u64_range : amp.

(** ** Byte strings

    [std::vector<uint8_t>] and [std::span<const uint8_t>] are lists of [Z];
    [bytes_ok] says every element is a byte.  [size] is [size()]; [at_ l n]
    is [l[n]], which the code reads only after a length check. *)

Abbreviation bytes := (list Z).

Definition bytes_ok (l : bytes) : Prop := Forall is_u8 l.
Definition size {A} (l : list A) : Z := Z.of_nat (length l).
Definition at_ (l : bytes) (n : nat) : Z := nth n l 0.

Lemma size_nonneg {A} (l : list A) : 0 <= size l.
Proof. unfold size. lia. Qed.
Lemma size_nil {A} : size (@nil A) = 0.
Proof. done. Qed.
Lemma size_cons {A} (x : A) l : size (x :: l) = 1 + size l.
Proof. unfold size. rewrite length_cons. lia. Qed.
Lemma size_app {A} (l k : list A) : size (l ++ k) = size l + size k.
Proof. unfold size. rewrite length_app. lia. Qed.

Create Rewrite HintDb size.
#[export] Hint Rewrite @size_nil @size_cons @size_app : size.
#[export] Hint Rewrite @length_nil @length_cons @length_app @length_take @length_drop
  @length_replicate : size.

Lemma bytes_ok_nil : bytes_ok [].
Proof. constructor. Qed.
Lemma bytes_ok_cons b l : is_u8 b -> bytes_ok l -> bytes_ok (b :: l).
Proof. by constructor. Qed.
Lemma bytes_ok_app l k : bytes_ok l -> bytes_ok k -> bytes_ok (l ++ k).
Proof. intros. by apply Forall_app_2. Qed.
Lemma bytes_ok_take n l : bytes_ok l -> bytes_ok (take n l).
Proof. intros. by apply Forall_take. Qed.
Lemma bytes_ok_drop n l : bytes_ok l -> bytes_ok (drop n l).
Proof. intros. by apply Forall_drop. Qed.
Lemma at_range l n : bytes_ok l -> is_u8 (at_ l n).
Proof.
  intros Hl. unfold at_. destruct (nth_in_or_default n l 0) as [Hin | ->].
  - apply (proj1 (Forall_forall is_u8 l) Hl). by apply list_elem_of_In.
  - unfold is_u8. lia.
Qed.

Definition bytes_okb (l : bytes) : bool := forallb (fun b => (0 <=? b) && (b <? 256)) l.
Lemma bytes_okb_ok l : bytes_okb l = true -> bytes_ok l.
Proof.
  unfold bytes_okb, bytes_ok. rewrite forallb_forall, Forall_forall. intros Hb x Hx.
  apply list_elem_of_In in Hx. specialize (Hb x Hx). unfold is_u8. lia.
Qed.

Lemma Forall_bytes_okb (ls : list bytes) : forallb bytes_okb ls = true -> Forall bytes_ok ls.
Proof.
  rewrite forallb_forall. intros Hb. apply Forall_forall. intros l Hl%list_elem_of_In. by apply bytes_okb_ok, Hb.
Qed.

#[export] Hint Resolve bytes_ok_nil bytes_ok_cons bytes_ok_app bytes_ok_take
  bytes_ok_drop at_range : amp.

(** *** Little-endian integers *)

Fixpoint le_bytes (n : nat) (v : Z) : bytes :=
  match n with
  | O => []
  | S n' => u8 v :: le_bytes n' (Z.shiftr v 8)
  end.

Fixpoint le_value (l : bytes) : Z :=
  match l with
  | [] => 0
  | b :: t => Z.lor b (Z.shiftl (le_value t) 8)
  end.

Lemma le_bytes_length n v : length (le_bytes n v) = n.
Proof. revert v. induction n; intros; simpl; auto. Qed.

Lemma le_bytes_ok n v : bytes_ok (le_bytes n v).
Proof. revert v. induction n; intros; simpl; auto with amp. Qed.

#[export] Hint Resolve le_bytes_ok : amp.
#[export] Hint Rewrite le_bytes_length : size.

Lemma lor_byte_shift b v : is_u8 b -> Z.lor b (Z.shiftl v 8) = b + 2 ^ 8 * v.
Proof.
  unfold is_u8. intros Hb. rewrite Z.shiftl_mul_pow2, Z.mul_comm by lia.
  rewrite <- Z.add_lor_land.
  enough (Z.land b (2 ^ 8 * v) = 0) as ->; [lia|].
  apply Z.bits_inj'. intros i Hi. rewrite Z.land_spec, Z.bits_0.
  destruct (Z.lt_ge_cases i 8) as [Hlt | Hge].
  - rewrite Z.mul_comm, Z.mul_pow2_bits_low by lia. apply andb_false_r.
  - rewrite (Z.bits_above_log2 b i); [done| lia |].
    destruct (Z.eq_dec b 0) as [-> |]; [simpl; lia|].
    apply Z.log2_lt_pow2; [lia|].
    apply Z.lt_le_trans with (2 ^ 8); [lia|]. apply Z.pow_le_mono_r; lia.
Qed.

Lemma le_value_bytes n v : le_value (le_bytes n v) = v mod 2 ^ (8 * Z.of_nat n).
Proof.
  revert v. induction n as [|n IH]; intros v; simpl le_bytes; simpl le_value.
  - by rewrite Z.mul_0_r, Z.mod_1_r.
  - rewrite lor_byte_shift by apply u8_range. rewrite IH, Z.shiftr_div_pow2 by lia.
    replace (8 * Z.of_nat (S n)) with (8 + 8 * Z.of_nat n) by lia.
    rewrite Z.pow_add_r by lia. unfold u8.
    rewrite (Z.rem_mul_r v (2 ^ 8) (2 ^ (8 * Z.of_nat n))); lia.
Qed.

Lemma le_value_range l : bytes_ok l -> 0 <= le_value l < 2 ^ (8 * size l).
Proof.
  induction 1 as [|b t Hb Ht IH]; simpl; [done|].
  rewrite lor_byte_shift by done. rewrite size_cons.
  replace (8 * (1 + size t)) with (8 + 8 * size t) by lia.
  rewrite Z.pow_add_r by (pose proof (size_nonneg t); lia).
  unfold is_u8 in Hb. nia.
Qed.

Lemma le_bytes_value l : bytes_ok l -> le_bytes (length l) (le_value l) = l.
Proof.
  induction 1 as [|b t Hb Ht IH]; simpl; [done|].
  rewrite lor_byte_shift by done. unfold is_u8 in Hb. f_equal.
  - unfold u8. rewrite (Z.mul_comm (2 ^ 8)), Z.mod_add by lia.
    by apply Z.mod_small.
  - rewrite Z.shiftr_div_pow2 by lia.
    rewrite (Z.mul_comm (2 ^ 8)), Z.div_add by lia.
    rewrite (Z.div_small b) by lia. exact IH.
Qed.

Lemma le_bytes_inj n v w :
  0 <= v < 2 ^ (8 * Z.of_nat n) -> 0 <= w < 2 ^ (8 * Z.of_nat n) ->
  le_bytes n v = le_bytes n w -> v = w.
Proof.
  intros Hv Hw Heq. apply (f_equal le_value) in Heq.
  by rewrite !le_value_bytes, !Z.mod_small in Heq by done.
Qed.

(** The shapes the code writes and reads them in. *)

Lemma push_u16_le v : [u8 v; u8 (Z.shiftr v 8)] = le_bytes 2 v.
Proof. done. Qed.
Lemma push_u32_le v :
  [u8 v; u8 (Z.shiftr v 8); u8 (Z.shiftr v 16); u8 (Z.shiftr v 24)] = le_bytes 4 v.
Proof. simpl. by rewrite !Z.shiftr_shiftr by lia. Qed.
Lemma or_u16_le a b : Z.lor a (Z.shiftl b 8) = le_value [a; b].
Proof. simpl. by rewrite Z.lor_0_r. Qed.
Lemma or_u32_le a b c d :
  Z.lor (Z.lor (Z.lor a (Z.shiftl b 8)) (Z.shiftl c 16)) (Z.shiftl d 24)
  = le_value [a; b; c; d].
Proof.
  simpl. rewrite Z.lor_0_r, !Z.shiftl_lor, !Z.shiftl_shiftl by lia.
  by rewrite !Z.lor_assoc.
Qed.

(** *** Reading a prefix *)

Lemma at_app_l l k n : (n < length l)%nat -> at_ (l ++ k) n = at_ l n.
Proof. intros. unfold at_. by rewrite app_nth1. Qed.
Lemma at_app_r l k n : at_ (l ++ k) (length l + n) = at_ k n.
Proof. unfold at_. rewrite app_nth2 by lia. f_equal. lia. Qed.

Lemma take_split_4 (l : bytes) :
  (4 <= length l)%nat -> [at_ l 0; at_ l 1; at_ l 2; at_ l 3] = take 4 l.
Proof. destruct l as [|a [|b [|c [|d l]]]]; simpl; intros; try lia; done. Qed.
Lemma take_split_2 (l : bytes) : (2 <= length l)%nat -> [at_ l 0; at_ l 1] = take 2 l.
Proof. destruct l as [|a [|b l]]; simpl; intros; try lia; done. Qed.

(** ** Tactics *)

(** Case analysis on the scrutinee of a [match] or [if] of the goal, or of a
    hypothesis, keeping the equation. *)
Ltac case_match_goal :=
  match goal with
  | |- context [match ?x with _ => _ end] =>
      lazymatch x with context [match _ with _ => _ end] => fail | _ => idtac end;
      destruct x eqn:?
  end.
Ltac case_match_hyp :=
  match goal with
  | H : context [match ?x with _ => _ end] |- _ =>
      lazymatch x with context [match _ with _ => _ end] => fail | _ => idtac end;
      destruct x eqn:?
  end.

(** Boolean comparisons of [Z] in the context as propositions. *)
Ltac zbool :=
  repeat match goal with
  | H : (_ =? _) = true |- _ => apply Z.eqb_eq in H
  | H : (_ =? _) = false |- _ => apply Z.eqb_neq in H
  | H : (_ <? _) = true |- _ => apply Z.ltb_lt in H
  | H : (_ <? _) = false |- _ => apply Z.ltb_ge in H
  | H : (_ <=? _) = true |- _ => apply Z.leb_le in H
  | H : (_ <=? _) = false |- _ => apply Z.leb_gt in H
  | H : (_ >? _) = _ |- _ => rewrite Z.gtb_ltb in H
  | H : (_ >=? _) = _ |- _ => rewrite Z.geb_leb in H
  | H : negb _ = true |- _ => apply negb_true_iff in H
  | H : negb _ = false |- _ => apply negb_false_iff in H
  | H : (_ && _)%bool = true |- _ => apply andb_true_iff in H as [? ?]
  | H : (_ || _)%bool = false |- _ => apply orb_false_iff in H as [? ?]
  end.

(** A transitive step whose first half is at hand. *)
Tactic Notation "via" uconstr(trans) "with" constr(first) := eapply trans; [exact first|].
