(* ===== verification/L1Types.v ===== *)
(** * L1 data model (include/amp/L1/Types.h, PacketProtection.h, Connection.h)

    Constants of the ADP wire, its enumerations, association ids, portable IP
    endpoints with the code's own equality and hash, packets and messages, the
    transport tuning, and the interface [PacketProtection] that L1 asks of the
    session's keys ([IPacketProtection]). *)

From S2P Require Import Prelude.

(** ** Constants *)

Definition kWireVersion : Z := 2.
Definition kVersionNegotiationNibble : Z := 15.
Definition kVersionNegotiationEchoBytes : nat := 16.
Definition kVersionNegotiationPerSecond : Z := 16.
Definition kAssocIdBytes : nat := 8.
Definition kHmacBytes : nat := 16.
Definition kKeyBytes : nat := 32.
Definition kHeaderBytes : nat := 1 + kAssocIdBytes + 4 + 4.
Definition kSealedHeaderBytes : nat := 1 + kAssocIdBytes + 4.
Definition kMaxDatagramBytes : Z := 1232.
Definition kMaxPayload : Z :=
  u16 (kMaxDatagramBytes - Z.of_nat kHeaderBytes - Z.of_nat kHmacBytes).
Definition kPacketTagBytes : nat := 16.
Definition kMaxSealedPayload : Z :=
  kMaxDatagramBytes - Z.of_nat kSealedHeaderBytes - Z.of_nat kPacketTagBytes.

Definition kDefaultSkewMs : Z := 60000.
Definition kDefaultReliableWindow : Z := 128.
Definition kDefaultReplayWindow : Z := kDefaultReliableWindow.
Definition kDefaultRtxIntervalMs : Z := 50.
Definition kDefaultMaxRtx : Z := 20.
Definition kRtoGranularityMs : Z := 10.
Definition kMaxRtoMs : Z := 2000.
Definition kPreAuthMaxRtx : Z := 2.
Definition kPreAuthDialMaxRtx : Z := 6.
Definition kAliveTimeoutMs : Z := 5000.
Definition kKeepalivePayloadBytes : Z := 5.
Definition kKeepaliveFlagEchoRequest : Z := 1.
Definition kKeepaliveLivenessNumerator : Z := 5.
Definition kKeepaliveLivenessDenominator : Z := 2.
Definition kMaxPeerKeepaliveIntervalMs : Z := 600000.
Definition kDefaultPumpBudget : nat := 256.

(** ** Enumerations *)

Inductive QosClass := BestEffort | Reliable.
#[export] Instance QosClass_eq_dec : EqDecision QosClass.
Proof. solve_decision. Defined.

Inductive PacketType :=
  | DataBestEffort | DataReliable | Ack | Close | Keepalive | PlainBestEffort | PlainReliable.
#[export] Instance PacketType_eq_dec : EqDecision PacketType.
Proof. solve_decision. Defined.

Definition PacketType_to_Z (type : PacketType) : Z :=
  match type with
  | DataBestEffort => 0 | DataReliable => 1 | Ack => 2 | Close => 3 | Keepalive => 4
  | PlainBestEffort => 5 | PlainReliable => 6
  end.

(** [static_cast<PacketType>] of a byte at most [kMaxPacketType]. *)
Definition PacketType_of_Z (v : Z) : PacketType :=
  if v =? 0 then DataBestEffort else if v =? 1 then DataReliable else if v =? 2 then Ack
  else if v =? 3 then Close else if v =? 4 then Keepalive
  else if v =? 5 then PlainBestEffort else PlainReliable.

Definition kMaxPacketType : Z := PacketType_to_Z PlainReliable.

Definition IsSealed (type : PacketType) : bool :=
  bool_decide (type = DataBestEffort) || bool_decide (type = DataReliable).
Definition IsReliableData (type : PacketType) : bool :=
  bool_decide (type = DataReliable) || bool_decide (type = PlainReliable).
Definition IsBestEffortData (type : PacketType) : bool :=
  bool_decide (type = DataBestEffort) || bool_decide (type = PlainBestEffort).

Inductive PacketSpace := SpaceBestEffort | SpaceReliable | CarrierBestEffort | CarrierReliable.
#[export] Instance PacketSpace_eq_dec : EqDecision PacketSpace.
Proof. solve_decision. Defined.

Definition PacketSpace_to_Z (space : PacketSpace) : Z :=
  match space with
  | SpaceBestEffort => 0 | SpaceReliable => 1 | CarrierBestEffort => 2 | CarrierReliable => 3
  end.

Lemma PacketType_of_to t : PacketType_of_Z (PacketType_to_Z t) = t.
Proof. by destruct t. Qed.
Lemma PacketType_to_of v : 0 <= v <= kMaxPacketType -> PacketType_to_Z (PacketType_of_Z v) = v.
Proof.
  change kMaxPacketType with 6. intros Hv.
  assert (v = 0 \/ v = 1 \/ v = 2 \/ v = 3 \/ v = 4 \/ v = 5 \/ v = 6) as H by lia.
  by destruct H as [-> | [-> | [-> | [-> | [-> | [-> | ->]]]]]].
Qed.
Lemma PacketType_to_Z_range t : 0 <= PacketType_to_Z t <= 6.
Proof. destruct t; simpl; lia. Qed.

(** ** Association ids and keys

    [std::array<uint8_t, N>] is a byte list of length [N]. *)

Abbreviation AssocId := bytes.
Abbreviation PeerKey := bytes.

Definition zeros (n : nat) : bytes := replicate n 0.
Definition AssocId_zero : AssocId := zeros kAssocIdBytes.
Definition AssocId_ok (id : AssocId) : Prop := length id = kAssocIdBytes /\ bytes_ok id.

(** ** IP endpoints *)

Inductive Family := V4 | V6.
#[export] Instance Family_eq_dec : EqDecision Family.
Proof. solve_decision. Defined.

Record IpEndpoint := MkIpEndpoint {
  family : Family;
  addr : bytes;
  port : Z;
  scope_id : Z;
}.
#[export] Instance IpEndpoint_eq_dec : EqDecision IpEndpoint.
Proof. solve_decision. Defined.

Definition IpEndpoint_default : IpEndpoint := MkIpEndpoint V4 (zeros 16) 0 0.

Definition IpEndpoint_V4 (a b c d port : Z) : IpEndpoint :=
  MkIpEndpoint V4 ([a; b; c; d] ++ zeros 12) port 0.
Definition IpEndpoint_V6 (addr : bytes) (port scope : Z) : IpEndpoint :=
  MkIpEndpoint V6 addr port scope.

Definition addr_bytes (f : Family) : nat := match f with V4 => 4 | V6 => 16 end.

(** [IpEndpoint::operator==]: coarser than equality of the records — an IPv4
    endpoint is compared by its first four address bytes, and its scope id is
    not compared. *)
Definition endpoint_eqb (a b : IpEndpoint) : bool :=
  if negb (bool_decide (family a = family b)) || negb (port a =? port b) then false
  else if bool_decide (family a = V6) && negb (scope_id a =? scope_id b) then false
  else bool_decide (take (addr_bytes (family a)) (addr a)
                    = take (addr_bytes (family a)) (addr b)).

(** [IpEndpointHash], [size_t] of 64 bits. *)
Definition hash_byte (h b : Z) : Z := u64 (Z.lxor h b * 16777619).
Definition IpEndpointHash (e : IpEndpoint) : Z :=
  let h := u64 (port e * 1315423911) in
  let h := Z.lxor h (scope_id e) in
  let h := u64 (h * 16777619) in
  fold_left hash_byte (take (addr_bytes (family e)) (addr e)) h.

(** [AssocIdHash]: FNV-1a. *)
Definition AssocIdHash (id : AssocId) : Z :=
  fold_left (fun h b => u64 (Z.lxor h b * 1099511628211)) id 14695981039346656037.

(** ** Packets and messages *)

Record WirePacket := MkWirePacket {
  version : Z;
  type : PacketType;
  assoc : AssocId;
  seq : Z;
  timestamp_ms : Z;
  payload : bytes;
}.

Record SealedHeader := MkSealedHeader {
  sh_type : PacketType;
  sh_assoc : AssocId;
  sh_number : Z;
}.

Record Message := MkMessage {
  m_assoc : AssocId;
  m_seq : Z;
  m_qos : QosClass;
  m_sealed : bool;
  m_payload : bytes;
}.

(** A packet the field types of the code can hold. *)
Definition WirePacket_ok (pkt : WirePacket) : Prop :=
  AssocId_ok (assoc pkt) /\ is_u32 (seq pkt) /\ is_u32 (timestamp_ms pkt)
  /\ bytes_ok (payload pkt).

(** ** Transport tuning *)

Record AdpTuning := MkAdpTuning {
  tn_reliable_window : Z;
  tn_replay_window : Z;
  tn_rtx_interval_ms : Z;
  tn_max_rtx : Z;
  tn_skew_ms : Z;
  tn_alive_timeout_ms : Z;
}.
Definition AdpTuning_default : AdpTuning :=
  MkAdpTuning kDefaultReliableWindow kDefaultReplayWindow kDefaultRtxIntervalMs
    kDefaultMaxRtx kDefaultSkewMs kAliveTimeoutMs.

Record OpenParams := MkOpenParams {
  key : PeerKey;
  id : AssocId;
  mint_id : bool;
  peer : IpEndpoint;
  skew_ms : Z;
  replay_window : Z;
  reliable_window : Z;
  rtx_interval_ms : Z;
  max_rtx : Z;
  alive_timeout_ms : Z;
  reduce_rtx_until_authenticated : bool;
  dialer_backoff : bool;
}.
#[export] Instance OpenParams_fields : Fields OpenParams := fun p =>
  MkOpenParams (key p) (id p) (mint_id p) (peer p) (skew_ms p) (replay_window p)
    (reliable_window p) (rtx_interval_ms p) (max_rtx p) (alive_timeout_ms p)
    (reduce_rtx_until_authenticated p) (dialer_backoff p).

(** [OpenParams p;] with its default member initializers. *)
Definition OpenParams_default : OpenParams :=
  MkOpenParams (zeros kKeyBytes) AssocId_zero true IpEndpoint_default kDefaultSkewMs
    kDefaultReplayWindow kDefaultReliableWindow kDefaultRtxIntervalMs kDefaultMaxRtx
    kAliveTimeoutMs false false.

Definition ApplyTuning (tuning : AdpTuning) (p : OpenParams) : OpenParams :=
  p <| reliable_window := tn_reliable_window tuning |>
    <| replay_window := tn_replay_window tuning |>
    <| rtx_interval_ms := tn_rtx_interval_ms tuning |>
    <| max_rtx := tn_max_rtx tuning |>
    <| skew_ms := tn_skew_ms tuning |>
    <| alive_timeout_ms := tn_alive_timeout_ms tuning |>.

(** Parameters a connection can be opened with: windows and retransmit
    budgets that [ValidatePeerLinkConfig] lets through. *)
Record OpenParams_ok (p : OpenParams) : Prop := {
  ok_reliable_window : 0 < reliable_window p < 2 ^ 32;
  ok_replay_window : 0 <= replay_window p < 2 ^ 32;
  ok_rtx_interval : 0 < rtx_interval_ms p;
  ok_max_rtx : 0 < max_rtx p;
}.

(** ** Packet protection

    [IPacketProtection], the session seen from L1.  [SealPacket] appends to an
    output buffer in the code; here it returns what it appends. *)

Class PacketProtection (P : Type) := {
  SealPacket : P -> PacketSpace -> Z -> bytes -> bytes -> Roe bytes;
  OpenPacket : P -> PacketSpace -> Z -> bytes -> bytes -> Z -> Roe bytes;
}.

(** The law L1 relies on between the two ends of an association: opening what
    the other end sealed under the same space, number and header gives its
    plaintext back, or fails (another key, or a rekey too old); it never gives
    other bytes.  [sound] are the protections a run has: the law is asked of no
    others.  What opens of bytes is bytes. *)
Class Sound (P : Type) := sound : P -> Prop.
Class PacketProtectionLaws (P : Type) `{PacketProtection P} `{Sound P} := {
  open_sealed : forall (p q : P) space number header plain sealed now opened,
    sound p -> sound q ->
    SealPacket p space number header plain = Ok sealed ->
    OpenPacket q space number header sealed now = Ok opened ->
    opened = plain;
  seal_length : forall (p : P) space number header plain sealed,
    SealPacket p space number header plain = Ok sealed ->
    length sealed = (length plain + kPacketTagBytes)%nat;
  open_bytes : forall (q : P) space number header sealed now opened,
    OpenPacket q space number header sealed now = Ok opened -> bytes_ok sealed -> bytes_ok opened;
}.

(** The cryptographic library (libsodium): code outside the repository, a
    parameter of the model. *)
Class Sodium := {
  crypto_auth_hmacsha256 : bytes -> bytes -> bytes;   (* key, message *)
}.
Class SodiumLaws `{Sodium} := {
  hmac_length : forall k m, length (crypto_auth_hmacsha256 k m) = 32%nat;
  hmac_bytes : forall k m, bytes_ok (crypto_auth_hmacsha256 k m);
}.

(** ** Datagram io

    [DatagramIo] (include/amp/L1/DatagramIo.h): the socket as an interface. *)

(** [DatagramIo]: the socket; [Io] is its state. *)
Class DatagramIo (Io : Type) := {
  SendTo : Io -> IpEndpoint -> bytes -> Io * Roe unit;
  RecvFrom : Io -> Io * Roe (option (IpEndpoint * bytes));
}.

Definition kDatagramSendUnreachable : Z := 1.
Definition IsUnreachableSendError (error : Error) : bool :=
  error_code error =? kDatagramSendUnreachable.
