(* ===== verification/Toy.v ===== *)
(** * Concrete parameters

    Small instances of the code outside the repository, on which the theorems
    are evaluated: they show that the laws asked of it can hold together. *)

From S2P Require Import Prelude L1Types.

(** A stand-in for the HMAC: 32 bytes depending on the key and the message. *)
Definition toy_hmac (k m : bytes) : bytes :=
  replicate 32 (u8 (fold_left Z.add k 0 + fold_left Z.add m 0)).
Definition toy_sodium : Sodium := {| crypto_auth_hmacsha256 := toy_hmac |}.
Lemma toy_sodium_laws : @SodiumLaws toy_sodium.
Proof.
  split; intros; simpl; unfold toy_hmac.
  - done.
  - apply Forall_replicate. apply u8_range.
Qed.

(** A stand-in for the session: a tag of 16 bytes of the key. *)
Definition toy_seal (k : Z) (plain : bytes) : bytes := plain ++ replicate kPacketTagBytes (u8 k).
Definition toy_protection : PacketProtection Z := {|
  SealPacket := fun k _ _ _ plain => Ok (toy_seal k plain);
  OpenPacket := fun k _ _ _ sealed _ =>
    let plain := take (length sealed - kPacketTagBytes) sealed in
    if decide (sealed = toy_seal k plain) then Ok plain else Fail (Err_ "msh: bad tag");
|}.
Definition toy_sound : Sound Z := fun _ => True.
Lemma toy_protection_laws : @PacketProtectionLaws Z toy_protection toy_sound.
Proof.
  split; simpl.
  - intros p q sp n h plain sealed now opened _ _ [= <-]. case_decide; [|done]. intros [= <-].
    unfold toy_seal. rewrite length_app, length_replicate.
    by rewrite take_app_length' by lia.
  - intros p sp n h plain sealed [= <-]. unfold toy_seal. by rewrite length_app, length_replicate.
  - intros q sp n h sealed now opened. case_decide; [|done]. intros [= <-]. by apply Forall_take.
Qed.

(** A socket that sends everything and receives what it is given. *)
Abbreviation ToyIo := (list (IpEndpoint * bytes)).
Definition toy_io : DatagramIo ToyIo := {|
  SendTo := fun io _ _ => (io, Ok tt);
  RecvFrom := fun io => match io with
                        | [] => ([], Ok None)
                        | d :: rest => (rest, Ok (Some d))
                        end;
|}.
