(* ===== verification/ReplayWindow.v ===== *)
(** * Replay window (src/L1/ReplayWindow.cpp)

    Freshness of a packet number.  [last_contiguous_] and the set [pending_]
    stand for the numbers taken so far; with [slide_on_gap_] (best effort) a
    number past the window moves it forward instead of being refused. *)

From S2P Require Import Prelude.

Record ReplayWindow := MkReplayWindow {
  window_size_ : Z;
  slide_on_gap_ : bool;
  last_contiguous_ : Z;
  pending_ : gset Z;
}.
#[export] Instance ReplayWindow_fields : Fields ReplayWindow := fun w =>
  MkReplayWindow (window_size_ w) (slide_on_gap_ w) (last_contiguous_ w) (pending_ w).

Definition ReplayWindow_new (window_size : Z) (slide_on_gap : bool) : ReplayWindow :=
  MkReplayWindow window_size slide_on_gap 0 ∅.

Inductive Verdict := Fresh | Duplicate | TooFar.
#[export] Instance Verdict_eq_dec : EqDecision Verdict.
Proof. solve_decision. Defined.

Definition Classify (w : ReplayWindow) (seq : Z) : Verdict :=
  if (seq =? 0) || (seq <=? last_contiguous_ w) || bool_decide (seq ∈ pending_ w)
  then Duplicate
  else if (u64 (last_contiguous_ w + window_size_ w) <? seq) && negb (slide_on_gap_ w)
  then TooFar
  else Fresh.

(** [while (pending_.erase(last_contiguous_ + 1) > 0) ++last_contiguous_;] with
    the number of iterations bounded by [fuel]; [Accept] gives it the size of
    the set, and each iteration removes an element. *)
Fixpoint absorb (fuel : nat) (w : ReplayWindow) : ReplayWindow :=
  match fuel with
  | O => w
  | S fuel' =>
      let next := u64 (last_contiguous_ w + 1) in
      if decide (next ∈ pending_ w)
      then absorb fuel' (w <| pending_ := pending_ w ∖ {[next]} |> <| last_contiguous_ := next |>)
      else w
  end.

Definition Accept (w : ReplayWindow) (seq : Z) : ReplayWindow * bool :=
  if seq =? 0 then (w, false)
  else if seq <=? last_contiguous_ w then (w, false)
  else if seq =? u64 (last_contiguous_ w + 1) then
    (absorb (Datatypes.S (stdpp.base.size (pending_ w))) (w <| last_contiguous_ := seq |>), true)
  else if u64 (last_contiguous_ w + window_size_ w) <? seq then
    if negb (slide_on_gap_ w) then (w, false)
    else (w <| last_contiguous_ := u64 (seq - 1) |> <| pending_ := ∅ |>
            <| last_contiguous_ := seq |>, true)
  else if decide (seq ∈ pending_ w) then (w, false)
  else (w <| pending_ ::= fun p => {[seq]} ∪ p |>, true).

(** Numbers a run of datagrams presents, in order; the numbers accepted. *)
Fixpoint accept_all (w : ReplayWindow) (seqs : list Z) : ReplayWindow * list Z :=
  match seqs with
  | [] => (w, [])
  | s :: rest =>
      let '(w1, b) := Accept w s in
      let '(w2, accepted) := accept_all w1 rest in
      (w2, if b then s :: accepted else accepted)
  end.

(** ** Invariant

    Everything pending lies past the first hole and inside the window; nothing
    is near the end of [uint64_t] (numbers are [uint32_t] on the wire). *)

Definition number_ok (w : ReplayWindow) (s : Z) : Prop :=
  0 <= s /\ s + window_size_ w + 1 < 2 ^ 64.

Record window_ok (w : ReplayWindow) : Prop := {
  ok_size : 1 <= window_size_ w;
  ok_last : number_ok w (last_contiguous_ w);
  ok_pending : forall x, x ∈ pending_ w ->
    last_contiguous_ w + 1 < x <= last_contiguous_ w + window_size_ w /\ number_ok w x;
}.

(** A number already taken. *)
Definition seen (w : ReplayWindow) (s : Z) : Prop :=
  1 <= s <= last_contiguous_ w \/ s ∈ pending_ w.

Lemma window_new_ok size slide :
  1 <= size -> size + 1 < 2 ^ 64 -> window_ok (ReplayWindow_new size slide).
Proof.
  intros. split; unfold number_ok; simpl; try lia. intros x Hx. set_solver.
Qed.

Lemma seen_new size slide s : ~ seen (ReplayWindow_new size slide) s.
Proof. unfold seen. simpl. intros [?|?]; [lia|set_solver]. Qed.

(** What [absorb] needs: the hole may have just been filled. *)
Record absorb_pre (w : ReplayWindow) : Prop := {
  pre_size : 1 <= window_size_ w;
  pre_last : number_ok w (last_contiguous_ w);
  pre_last_pos : 0 <= last_contiguous_ w;
  pre_pending : forall x, x ∈ pending_ w ->
    last_contiguous_ w < x <= last_contiguous_ w + window_size_ w /\ number_ok w x;
}.

Lemma absorb_spec fuel w :
  absorb_pre w -> (base.size (pending_ w) < fuel)%nat ->
  window_ok (absorb fuel w)
  /\ (forall x, seen (absorb fuel w) x <-> seen w x)
  /\ window_size_ (absorb fuel w) = window_size_ w
  /\ slide_on_gap_ (absorb fuel w) = slide_on_gap_ w
  /\ last_contiguous_ w <= last_contiguous_ (absorb fuel w).
Proof.
  revert w. induction fuel as [|fuel IH]; intros w Hpre Hfuel; [lia|].
  destruct Hpre as [Hsz Hl Hp0 Hpend]. unfold number_ok in *.
  simpl. rewrite (u64_id (last_contiguous_ w + 1)) by (unfold is_u64; lia).
  case_decide as Hin.
  - edestruct (IH (w <| pending_ := pending_ w ∖ {[last_contiguous_ w + 1]} |>
                     <| last_contiguous_ := last_contiguous_ w + 1 |>))
      as (Hok & Hseen & Hs1 & Hs2 & Hle).
    + destruct (Hpend _ Hin). split; unfold number_ok; simpl; try lia.
      intros x [Hx Hne]%elem_of_difference. destruct (Hpend _ Hx).
      rewrite elem_of_singleton in Hne. lia.
    + simpl. rewrite size_difference by (by apply singleton_subseteq_l). rewrite size_singleton.
      assert (base.size (pending_ w) <> 0)%nat; [|lia].
      intros Hz%size_empty_inv. by apply Hz in Hin; apply not_elem_of_empty in Hin.
    + split; [done|]. split; [|simpl in *; repeat split; auto; lia].
      intros x. rewrite Hseen. unfold seen. simpl.
      rewrite elem_of_difference, elem_of_singleton.
      destruct (decide (x = last_contiguous_ w + 1)) as [->|].
      * split; [auto|]. left. lia.
      * split; intros [?|?]; try tauto; left; lia.
  - split; [|done]. split; unfold number_ok; try done; try lia.
    intros x Hx. destruct (Hpend _ Hx). split; [|lia].
    assert (x <> last_contiguous_ w + 1) by (intros ->; done). lia.
Qed.

(** ** One step *)

Record accept_post (w : ReplayWindow) (s : Z) (w' : ReplayWindow) (b : bool) : Prop := {
  post_ok : window_ok w';
  post_size : window_size_ w' = window_size_ w;
  post_slide : slide_on_gap_ w' = slide_on_gap_ w;
  post_fresh : b = true <-> Classify w s = Fresh;
  post_new : b = true -> ~ seen w s /\ seen w' s;
  post_kept : forall x, seen w x -> seen w' x;
  post_same : b = false -> w' = w;
  post_strict : slide_on_gap_ w = false -> forall x, seen w' x -> seen w x \/ (b = true /\ x = s);
  post_mono : last_contiguous_ w <= last_contiguous_ w';
}.

Lemma classify_duplicate w s :
  window_ok w -> 0 <= s -> (Classify w s = Duplicate <-> s = 0 \/ seen w s).
Proof.
  intros Hok Hs. unfold Classify, seen. destruct Hok as [_ Hl Hp]. unfold number_ok in *.
  destruct (Z.eqb_spec s 0); simpl; [tauto|].
  destruct (Z.leb_spec s (last_contiguous_ w)); simpl.
  { split; [intros _; right; left; lia | done]. }
  case_bool_decide; simpl; [tauto|].
  destruct (_ && _); split; try done; intros [?|[?|?]]; try done; lia.
Qed.

Lemma accept_spec w s w' b :
  window_ok w -> number_ok w s -> Accept w s = (w', b) -> accept_post w s w' b.
Proof.
  intros Hok Hn Hacc. pose proof Hok as [Hsz Hl Hp]. unfold number_ok in *.
  unfold Accept in Hacc.
  destruct (Z.eqb_spec s 0) as [->|Hs0].
  { injection Hacc as <- <-. split; try done; auto; lia. }
  destruct (Z.leb_spec s (last_contiguous_ w)) as [Hle|Hlt].
  { injection Hacc as <- <-. split; try done; auto; try lia.
    unfold Classify. rewrite (proj2 (Z.leb_le _ _) Hle), orb_true_r. done. }
  rewrite (u64_id (last_contiguous_ w + 1)) in Hacc by (unfold is_u64; lia).
  rewrite (u64_id (last_contiguous_ w + window_size_ w)) in Hacc by (unfold is_u64; lia).
  assert (Hcl : Classify w s =
    if bool_decide (s ∈ pending_ w) then Duplicate
    else if (last_contiguous_ w + window_size_ w <? s) && negb (slide_on_gap_ w)
         then TooFar else Fresh).
  { unfold Classify. rewrite (proj2 (Z.eqb_neq _ _) Hs0), (proj2 (Z.leb_gt _ _) Hlt).
    rewrite (u64_id (last_contiguous_ w + window_size_ w)) by (unfold is_u64; lia). done. }
  destruct (Z.eqb_spec s (last_contiguous_ w + 1)) as [Hnext|Hnext].
  { injection Hacc as <- <-. subst s.
    assert (Hnp : last_contiguous_ w + 1 ∉ pending_ w)
      by (intros Hin; destruct (Hp _ Hin); lia).
    destruct (absorb_spec (S (base.size (pending_ w)))
                (w <| last_contiguous_ := last_contiguous_ w + 1 |>))
      as (Hok' & Hseen & Hs1 & Hs2 & Hmono).
    { split; unfold number_ok; simpl; try lia. intros x Hx. destruct (Hp _ Hx). lia. }
    { simpl. lia. }
    simpl in *. split; auto; try done; try lia.
    - rewrite Hcl, bool_decide_false by done.
      destruct (Z.ltb_spec (last_contiguous_ w + window_size_ w) (last_contiguous_ w + 1));
        simpl; [lia|done].
    - intros _. rewrite Hseen. unfold seen. simpl. split; [|left; lia].
      intros [?|?]; [lia|done].
    - intros x Hx. apply Hseen. unfold seen in *. simpl. destruct Hx; [left; lia|auto].
    - intros _ x. rewrite Hseen. unfold seen. simpl. intros [?|?]; [|auto].
      destruct (decide (x = last_contiguous_ w + 1)); [auto|]. left; left; lia. }
  destruct (Z.ltb_spec (last_contiguous_ w + window_size_ w) s) as [Hfar|Hnear].
  { destruct (slide_on_gap_ w) eqn:Hslide; simpl in Hacc.
    - injection Hacc as <- <-.
      assert (Hnp : s ∉ pending_ w) by (intros Hin; destruct (Hp _ Hin); lia).
      split; simpl; auto; try done; try lia.
      + by rewrite Hcl, bool_decide_false, andb_false_r by done.
      + intros _. unfold seen. simpl. split; [|left; lia]. intros [?|?]; [lia|done].
      + intros x [?|Hx]; unfold seen; simpl; [left; lia|].
        destruct (Hp _ Hx). left; lia.
      + by rewrite Hslide.
    - injection Hacc as <- <-.
      assert (Hnp : s ∉ pending_ w) by (intros Hin; destruct (Hp _ Hin); lia).
      split; auto; try done; try lia. by rewrite Hcl, bool_decide_false by done. }
  case_decide as Hin; injection Hacc as <- <-.
  - split; auto; try done; try lia. by rewrite Hcl, bool_decide_true.
  - split; simpl; auto; try done; try lia.
    + split; unfold number_ok; simpl; try lia.
      intros x [->%elem_of_singleton|Hx]%elem_of_union; [lia|auto].
    + by rewrite Hcl, bool_decide_false.
    + intros _. unfold seen. simpl. split; [|right; by apply elem_of_union_l, elem_of_singleton]. intros [?|?]; [lia|done].
    + intros x [?|?]; unfold seen; simpl; [auto|right; by apply elem_of_union_r].
    + intros _ x [?|[->%elem_of_singleton|Hx]%elem_of_union]; unfold seen; auto.
Qed.

(** ** Runs *)

Lemma accept_all_spec seqs w w' accepted :
  window_ok w -> Forall (number_ok w) seqs -> accept_all w seqs = (w', accepted) ->
  window_ok w' /\ NoDup accepted /\ Forall (fun s => ~ seen w s /\ seen w' s) accepted
  /\ (forall x, seen w x -> seen w' x)
  /\ (slide_on_gap_ w = false -> forall x, seen w' x -> seen w x \/ x ∈ accepted)
  /\ window_size_ w' = window_size_ w /\ slide_on_gap_ w' = slide_on_gap_ w.
Proof.
  revert w w' accepted. induction seqs as [|s seqs IH]; intros w w' accepted Hok Hn Hrun.
  { injection Hrun as <- <-. split; [done|]. split; [constructor|]. split; [constructor|]. auto. }
  apply Forall_cons in Hn as [Hs Hn]. simpl in Hrun.
  destruct (Accept w s) as [w1 b] eqn:Hacc.
  destruct (accept_all w1 seqs) as [w2 acc] eqn:Hrest. injection Hrun as <- <-.
  destruct (accept_spec _ _ _ _ Hok Hs Hacc) as [Hok1 Hsz Hsl _ Hnew Hkept _ Hstrict _].
  destruct (IH w1 w2 acc) as (Hok2 & Hnd & Hall & Hkept2 & Hstrict2 & Hsz2 & Hsl2); auto.
  { eapply Forall_impl; [exact Hn|]. unfold number_ok. intros x. by rewrite Hsz. }
  assert (Hacc2 : Forall (fun s => ~ seen w s /\ seen w2 s) acc)
    by (eapply Forall_impl; [exact Hall|]; naive_solver).
  split; [done|]. split.
  { destruct b; [|done]. constructor; [|done]. intros Hin.
    destruct (proj1 (Forall_forall _ _) Hall s Hin) as [Hns _].
    apply Hns. by apply Hnew. }
  split.
  { destruct b; [|done]. constructor; [|done]. destruct (Hnew eq_refl). auto. }
  split; [auto|]. split; [|split; congruence].
  intros Hslide x Hx. destruct (Hstrict2 ltac:(congruence) x Hx) as [Hx1|Hx1].
  - destruct (Hstrict Hslide x Hx1) as [?|[-> ->]]; [auto|]. right. by left.
  - right. destruct b; [by right|done].
Qed.

(** ** Properties *)

(** C15: replay protection.  Over any run of packet numbers, in either mode
    (the strict reliable window or the sliding best-effort one), no number is
    accepted twice, nor is one that was taken before the run. *)
Theorem accept_never_twice (w : ReplayWindow) (seqs : list Z) :
  window_ok w -> Forall (number_ok w) seqs ->
  NoDup (accept_all w seqs).2 /\ Forall (fun s => ~ seen w s) (accept_all w seqs).2.
Proof.
  intros Hok Hn. destruct (accept_all w seqs) as [w' acc] eqn:Hrun.
  destruct (accept_all_spec _ _ _ _ Hok Hn Hrun) as (_ & Hnd & Hall & _).
  split; [done|]. eapply Forall_impl; [exact Hall|]. naive_solver.
Qed.

Definition window_example : ReplayWindow := ReplayWindow_new 4 true.
Definition numbers_example : list Z := [1; 3; 3; 2; 9; 8; 9; 10].

Theorem accept_never_twice_witness :
  (accept_all window_example numbers_example).2 = [1; 3; 2; 9; 10]
  /\ NoDup (accept_all window_example numbers_example).2
  /\ Forall (fun s => ~ seen window_example s) (accept_all window_example numbers_example).2.
Proof.
  split; [reflexivity|]. apply (accept_never_twice window_example numbers_example).
  - apply window_new_ok; lia.
  - repeat constructor; simpl; lia.
Defined.

(** Reference window: the set of the numbers accepted so far, and nothing
    else.  Its contiguous prefix ends where the first number is missing. *)
Definition contiguous_prefix (A : gset Z) (n : Z) : Prop :=
  0 <= n /\ (forall i, 1 <= i <= n -> i ∈ A) /\ n + 1 ∉ A.

Definition refines (w : ReplayWindow) (A : gset Z) : Prop :=
  forall x, x ∈ A <-> seen w x.

Lemma refines_prefix w A : window_ok w -> refines w A -> contiguous_prefix A (last_contiguous_ w).
Proof.
  intros [_ Hl Hp] HA. unfold number_ok in Hl. split; [lia|]. split.
  - intros i Hi. apply HA. by left.
  - rewrite (HA _). intros [?|Hin]; [lia|]. destruct (Hp _ Hin). lia.
Qed.

Lemma contiguous_prefix_unique A n m : contiguous_prefix A n -> contiguous_prefix A m -> n = m.
Proof.
  intros (Hn0 & Hn & Hn1) (Hm0 & Hm & Hm1).
  destruct (Z.lt_trichotomy n m) as [?|[?|?]]; [|done|].
  - destruct Hn1. apply Hm. lia.
  - destruct Hm1. apply Hn. lia.
Qed.

(** Refinement of the strict (reliable) window.  [Accept] implements the
    reference that remembers the whole set [A] of accepted numbers: a number is
    taken exactly when it is not 0, not in [A] and within [window_size_] of
    the end of [A]'s contiguous prefix, and then it joins [A]; so a finite
    [pending_] loses nothing. *)
Theorem accept_refines_set (w : ReplayWindow) (A : gset Z) (s n : Z) :
  window_ok w -> slide_on_gap_ w = false -> refines w A -> contiguous_prefix A n ->
  number_ok w s ->
  let '(w', b) := Accept w s in
  (b = true <-> s <> 0 /\ s ∉ A /\ s <= n + window_size_ w)
  /\ refines w' (if b then {[s]} ∪ A else A).
Proof.
  intros Hok Hslide HA Hn Hs. destruct (Accept w s) as [w' b] eqn:Hacc.
  destruct (accept_spec _ _ _ _ Hok Hs Hacc) as [_ _ _ Hfresh Hnew Hkept Hsame Hstrict _].
  assert (n = last_contiguous_ w) as ->
    by (eapply contiguous_prefix_unique; [done|by apply refines_prefix]).
  pose proof Hok as [Hsz Hl Hp]. unfold number_ok in *. split.
  - rewrite Hfresh. rewrite (HA s). pose proof (classify_duplicate w s Hok) as Hdup.
    unfold Classify in *. rewrite Hslide in *. simpl in *. rewrite !andb_true_r in *.
    rewrite (u64_id (last_contiguous_ w + window_size_ w)) in * by (unfold is_u64; lia).
    destruct ((s =? 0) || _ || _); [naive_solver lia|].
    destruct (Z.ltb_spec (last_contiguous_ w + window_size_ w) s);
      split; try done; naive_solver lia.
  - intros x. destruct b.
    + rewrite elem_of_union, elem_of_singleton, (HA x). split.
      * intros [->|?]; [apply Hnew; done|auto].
      * intros Hx. destruct (Hstrict Hslide x Hx) as [?|[_ ->]]; auto.
    + rewrite Hsame by done. apply HA.
Qed.

Theorem accept_refines_set_witness :
  let '(w', b) := Accept (ReplayWindow_new 4 false) 3 in
  (b = true <-> 3 <> 0 /\ 3 ∉ (∅ : gset Z) /\ 3 <= 0 + 4)
  /\ refines w' (if b then {[3]} ∪ ∅ else ∅).
Proof.
  apply (accept_refines_set (ReplayWindow_new 4 false) ∅ 3 0).
  - apply window_new_ok; lia.
  - reflexivity.
  - intros x. split; [intros Hx; by apply not_elem_of_empty in Hx|intros Hx; by apply seen_new in Hx].
  - split; [lia|]. split; [lia|apply not_elem_of_empty].
  - unfold number_ok. simpl. lia.
Defined.

(** [last_contiguous_] and [pending_] are determined by the numbers seen. *)
Lemma window_pending_iff w x : window_ok w -> (x ∈ pending_ w <-> seen w x /\ last_contiguous_ w < x).
Proof.
  intros [_ Hl Hp]. unfold seen. split; [|naive_solver lia].
  intros Hx. destruct (Hp _ Hx). split; [by right|lia].
Qed.

Lemma window_last_unique w m :
  window_ok w -> 1 <= m -> (forall x, 1 <= x < m -> seen w x) -> ~ seen w m ->
  last_contiguous_ w = m - 1.
Proof.
  intros Hok Hm Hall Hnot. destruct (ok_last _ Hok) as [Hl0 _].
  destruct (Z.lt_trichotomy (last_contiguous_ w) (m - 1)) as [Hlt|[?|Hgt]]; [|done|].
  - destruct (Hall (last_contiguous_ w + 1) ltac:(lia)) as [?|Hin]; [lia|].
    destruct (ok_pending _ Hok _ Hin). lia.
  - destruct Hnot. left. lia.
Qed.

(** The memory of a window is bounded by its size. *)
Lemma pending_bound w : window_ok w -> Z.of_nat (base.size (pending_ w)) < window_size_ w.
Proof.
  intros [Hsz Hl Hp].
  assert (pending_ w ⊆ list_to_set (seqZ (last_contiguous_ w + 2) (window_size_ w - 1))) as Hsub.
  { intros x Hx. apply elem_of_list_to_set, elem_of_seqZ. destruct (Hp _ Hx). lia. }
  apply subseteq_size in Hsub. rewrite size_list_to_set in Hsub by apply NoDup_seqZ.
  rewrite length_seqZ in Hsub. lia.
Qed.

Lemma accept_ok w s : window_ok w -> number_ok w s -> window_ok (Accept w s).1.
Proof.
  intros Hok Hs. destruct (Accept w s) as [w' b] eqn:E.
  by destruct (accept_spec _ _ _ _ Hok Hs E).
Qed.
#[export] Hint Resolve accept_ok window_new_ok : amp.
