(* ===== verification/WireCodec.v ===== *)
(** * ADP wire codec and HMAC (src/L1/WireCodec.cpp, src/L1/HmacBinder.cpp)

    Encoding and decoding of HMAC packets, of the clear header of sealed
    packets and of version negotiation, byte for byte, and the truncated HMAC
    that ends an HMAC packet.  The section takes the cryptographic library as a
    parameter. *)

From S2P Require Import Prelude L1Types Toy.

(** ** Codec *)

Definition WriteU32Le (out : bytes) (v : Z) : bytes :=
  out ++ [u8 (Z.land v 255); u8 (Z.land (Z.shiftr v 8) 255);
          u8 (Z.land (Z.shiftr v 16) 255); u8 (Z.land (Z.shiftr v 24) 255)].

Definition ReadU32Le (p : bytes) : Z :=
  Z.lor (Z.lor (Z.lor (at_ p 0) (Z.shiftl (at_ p 1) 8)) (Z.shiftl (at_ p 2) 16))
        (Z.shiftl (at_ p 3) 24).

Definition VersionAndType (t : PacketType) : Z :=
  u8 (Z.lor (Z.shiftl kWireVersion 4) (PacketType_to_Z t)).

Definition Encode (pkt : WirePacket) : Roe bytes :=
  if negb (version pkt =? kWireVersion) then Fail (Err_ "adp: bad version")
  else if IsSealed (type pkt) then Fail (Err_ "adp: a sealed packet has no plain encoding")
  else if kMaxPayload <? size (payload pkt) then Fail (Err_ "adp: payload too large")
  else
    let out := [VersionAndType (type pkt)] in
    let out := out ++ assoc pkt in
    let out := WriteU32Le out (seq pkt) in
    let out := WriteU32Le out (timestamp_ms pkt) in
    Ok (out ++ payload pkt).

(** [EncodeVersionNegotiation]: a zeroed buffer of its final size, then the
    marker, the echo, the count and the versions written into it. *)
Definition write_at (out : bytes) (offset : nat) (src : bytes) : bytes :=
  take offset out ++ src ++ drop (offset + length src) out.

Definition EncodeVersionNegotiation (received versions : bytes) : bytes :=
  let out := zeros (1 + kVersionNegotiationEchoBytes + 1 + length versions) in
  let out := write_at out 0 [u8 (Z.shiftl kVersionNegotiationNibble 4)] in
  let out := write_at out 1
               (take (Nat.min (length received) kVersionNegotiationEchoBytes) received) in
  let out := write_at out (1 + kVersionNegotiationEchoBytes) [u8 (size versions)] in
  write_at out (2 + kVersionNegotiationEchoBytes) versions.

Record VersionNegotiation := MkVersionNegotiation {
  echo : bytes;
  versions : bytes;
}.

Definition kFixed : nat := 1 + kVersionNegotiationEchoBytes + 1.

Definition DecodeVersionNegotiation (datagram : bytes) : Roe VersionNegotiation :=
  if (size datagram <? Z.of_nat kFixed)
     || negb (Z.shiftr (at_ datagram 0) 4 =? kVersionNegotiationNibble)
  then Fail (Err_ "adp: not a version negotiation")
  else
    let count := at_ datagram (kFixed - 1) in
    if (count =? 0) || negb (size datagram =? Z.of_nat kFixed + count)
    then Fail (Err_ "adp: bad version negotiation")
    else Ok (MkVersionNegotiation (take kVersionNegotiationEchoBytes (drop 1 datagram))
               (drop kFixed datagram)).

Definition PeekType (datagram : bytes) : Roe PacketType :=
  match datagram with
  | [] => Fail (Err_ "adp: empty datagram")
  | b0 :: _ =>
      if negb (Z.shiftr b0 4 =? kWireVersion) then Fail (Err_ "adp: unknown version")
      else
        let t := Z.land b0 15 in
        if kMaxPacketType <? t then Fail (Err_ "adp: bad packet type")
        else Ok (PacketType_of_Z t)
  end.

Definition PeekAssoc (datagram : bytes) : AssocId :=
  if Z.of_nat (1 + kAssocIdBytes) <=? size datagram
  then take kAssocIdBytes (drop 1 datagram)
  else AssocId_zero.

Definition Decode (datagram : bytes) : Roe WirePacket :=
  if size datagram <? Z.of_nat (kHeaderBytes + kHmacBytes)
  then Fail (Err_ "adp: truncated datagram")
  else match PeekType datagram with
  | Fail e => Fail e
  | Ok t =>
      if IsSealed t then Fail (Err_ "adp: a sealed packet has no plain decoding")
      else if kMaxDatagramBytes <? size datagram then Fail (Err_ "adp: datagram too large")
      else Ok (MkWirePacket kWireVersion t (PeekAssoc datagram)
                 (ReadU32Le (drop (1 + kAssocIdBytes) datagram))
                 (ReadU32Le (drop (1 + kAssocIdBytes + 4) datagram))
                 (drop kHeaderBytes (take (length datagram - kHmacBytes) datagram)))
  end.

Definition EncodeSealedHeader (header : SealedHeader) : bytes :=
  [VersionAndType (sh_type header)] ++ sh_assoc header
  ++ [u8 (sh_number header); u8 (Z.shiftr (sh_number header) 8);
      u8 (Z.shiftr (sh_number header) 16); u8 (Z.shiftr (sh_number header) 24)].

Definition DecodeSealedHeader (datagram : bytes) : Roe SealedHeader :=
  if size datagram <? Z.of_nat (kSealedHeaderBytes + kPacketTagBytes)
  then Fail (Err_ "adp: truncated sealed datagram")
  else if kMaxDatagramBytes <? size datagram then Fail (Err_ "adp: datagram too large")
  else match PeekType datagram with
  | Fail e => Fail e
  | Ok t =>
      if negb (IsSealed t) then Fail (Err_ "adp: not a sealed packet")
      else Ok (MkSealedHeader t (PeekAssoc datagram) (ReadU32Le (drop (1 + kAssocIdBytes) datagram)))
  end.

Definition MacInput (datagram : bytes) : bytes :=
  if size datagram <? Z.of_nat kHmacBytes then []
  else take (length datagram - kHmacBytes) datagram.

(** ** HMAC binder *)

Section HmacBinder.
Context `{Sodium}.

Definition ComputeTag (key : PeerKey) (mac_input : bytes) : bytes :=
  take kHmacBytes (crypto_auth_hmacsha256 key mac_input).

(** Both [Seal] overloads: the tag appended (a copy, or in place). *)
Definition Seal (key : PeerKey) (header_and_payload : bytes) : Roe bytes :=
  Ok (header_and_payload ++ ComputeTag key header_and_payload).

(** [sodium_memcmp] is a comparison whose time does not depend on the data. *)
Definition Verify (key : PeerKey) (datagram : bytes) : Roe unit :=
  if size datagram <? Z.of_nat kHmacBytes then Fail (Err_ "adp: no hmac")
  else
    let mac_input := take (length datagram - kHmacBytes) datagram in
    let expected := ComputeTag key mac_input in
    let got := drop (length mac_input) datagram in
    if bool_decide (expected = take kHmacBytes got) then Ok tt
    else Fail (Err_ "adp: hmac mismatch").
End HmacBinder.

(** ** Lemmas *)

Lemma land_255_u8 v : u8 (Z.land v 255) = u8 v.
Proof.
  change 255 with (Z.ones 8). rewrite Z.land_ones by lia. unfold u8.
  by rewrite Z.mod_mod by lia.
Qed.

Lemma WriteU32Le_le out v : WriteU32Le out v = out ++ le_bytes 4 v.
Proof. unfold WriteU32Le. by rewrite !land_255_u8, push_u32_le. Qed.

Lemma ReadU32Le_le l : (4 <= length l)%nat -> ReadU32Le l = le_value (take 4 l).
Proof. intros Hl. unfold ReadU32Le. by rewrite or_u32_le, take_split_4. Qed.

Lemma ReadU32Le_app v rest : is_u32 v -> ReadU32Le (le_bytes 4 v ++ rest) = v.
Proof.
  intros Hv. rewrite ReadU32Le_le by (autorewrite with size; lia).
  rewrite take_app_length' by (by autorewrite with size).
  rewrite le_value_bytes. by apply Z.mod_small.
Qed.

Lemma ReadU32Le_range l : bytes_ok l -> (4 <= length l)%nat -> is_u32 (ReadU32Le l).
Proof.
  intros Hok Hl. rewrite ReadU32Le_le by done. unfold is_u32.
  pose proof (le_value_range (take 4 l) (bytes_ok_take 4 l Hok)) as Hr.
  unfold size in Hr. rewrite length_take, Nat.min_l in Hr by lia. exact Hr.
Qed.

Lemma le_bytes_ReadU32Le l : bytes_ok l -> (4 <= length l)%nat ->
  le_bytes 4 (ReadU32Le l) = take 4 l.
Proof.
  intros Hok Hl. rewrite ReadU32Le_le by done.
  rewrite <- (le_bytes_value (take 4 l)) at 2 by auto with amp.
  by rewrite length_take, Nat.min_l by lia.
Qed.

Lemma VersionAndType_split t :
  Z.shiftr (VersionAndType t) 4 = kWireVersion /\ Z.land (VersionAndType t) 15 = PacketType_to_Z t.
Proof. by destruct t. Qed.

Lemma VersionAndType_u8 t : is_u8 (VersionAndType t).
Proof. apply u8_range. Qed.

Lemma PeekType_VersionAndType t rest : PeekType (VersionAndType t :: rest) = Ok t.
Proof. by destruct t. Qed.

(** The first byte of a datagram whose type is read: it is the one the encoder
    writes. *)
Lemma PeekType_inv b rest t :
  is_u8 b -> PeekType (b :: rest) = Ok t -> b = VersionAndType t.
Proof.
  unfold is_u8, PeekType. intros Hb. case_match_goal; [done|]. case_match_goal; [done|].
  intros [= <-]. zbool. change kMaxPacketType with 6 in *. change kWireVersion with 2 in *.
  change 15 with (Z.ones 4) in *. rewrite Z.land_ones in * by lia.
  rewrite Z.shiftr_div_pow2 in * by lia.
  assert (b = 32 \/ b = 33 \/ b = 34 \/ b = 35 \/ b = 36 \/ b = 37 \/ b = 38) as Hc.
  { pose proof (Z.div_mod b (2 ^ 4)). pose proof (Z.mod_pos_bound b (2 ^ 4)). lia. }
  by destruct Hc as [-> | [-> | [-> | [-> | [-> | [-> | ->]]]]]].
Qed.

Lemma PeekAssoc_app b id rest : length id = kAssocIdBytes -> PeekAssoc (b :: id ++ rest) = id.
Proof.
  intros Hid. unfold PeekAssoc, size. autorewrite with size. rewrite Hid.
  rewrite (proj2 (Z.leb_le _ _)) by (unfold kAssocIdBytes; lia).
  simpl drop. rewrite drop_0. by apply take_app_length'.
Qed.

(** *** Layouts *)

Definition hmac_layout (t : PacketType) (id : AssocId) (s ts : Z) (p : bytes) : bytes :=
  VersionAndType t :: id ++ le_bytes 4 s ++ le_bytes 4 ts ++ p.

Definition sealed_layout (t : PacketType) (id : AssocId) (n : Z) : bytes :=
  VersionAndType t :: id ++ le_bytes 4 n.

Lemma Encode_layout pkt out :
  Encode pkt = Ok out ->
  version pkt = kWireVersion /\ IsSealed (type pkt) = false /\ size (payload pkt) <= kMaxPayload
  /\ out = hmac_layout (type pkt) (assoc pkt) (seq pkt) (timestamp_ms pkt) (payload pkt).
Proof.
  unfold Encode, hmac_layout. cbv zeta. rewrite !WriteU32Le_le, <- !app_assoc.
  repeat case_match_goal; try done. zbool. intros [= <-]. auto.
Qed.

Lemma Encode_ok pkt :
  version pkt = kWireVersion -> IsSealed (type pkt) = false -> size (payload pkt) <= kMaxPayload ->
  Encode pkt = Ok (hmac_layout (type pkt) (assoc pkt) (seq pkt) (timestamp_ms pkt) (payload pkt)).
Proof.
  intros Hv Hs Hp. unfold Encode, hmac_layout. rewrite Hv, Hs, Z.eqb_refl. cbn [negb].
  rewrite (proj2 (Z.ltb_ge _ _) Hp). cbv zeta. rewrite !WriteU32Le_le. by rewrite <- !app_assoc.
Qed.

Lemma EncodeSealedHeader_layout h :
  EncodeSealedHeader h = sealed_layout (sh_type h) (sh_assoc h) (sh_number h).
Proof. unfold EncodeSealedHeader, sealed_layout. by rewrite push_u32_le. Qed.

Lemma drop_header_number (b : Z) (id rest : bytes) :
  length id = kAssocIdBytes -> drop (1 + kAssocIdBytes) (b :: id ++ rest) = rest.
Proof. intros Hid. simpl. rewrite drop_app_length' by done. done. Qed.

Lemma Decode_layout t id s ts p tag :
  IsSealed t = false -> length id = kAssocIdBytes -> is_u32 s -> is_u32 ts ->
  size p <= kMaxPayload -> length tag = kHmacBytes ->
  Decode (hmac_layout t id s ts p ++ tag) = Ok (MkWirePacket kWireVersion t id s ts p).
Proof.
  intros Ht Hid Hs Hts Hp Htag. unfold Decode, hmac_layout.
  change kMaxPayload with 1199 in Hp. unfold size in *.
  assert (Hlen : length ((VersionAndType t :: id ++ le_bytes 4 s ++ le_bytes 4 ts ++ p) ++ tag)
                 = (33 + length p)%nat).
  { simpl. autorewrite with size. rewrite Hid, Htag. unfold kAssocIdBytes, kHmacBytes. lia. }
  rewrite Hlen, (proj2 (Z.ltb_ge _ _)) by (unfold kHeaderBytes, kHmacBytes, kAssocIdBytes; lia).
  rewrite <- app_comm_cons, PeekType_VersionAndType, Ht.
  rewrite (proj2 (Z.ltb_ge _ _)) by (unfold kMaxDatagramBytes; lia).
  rewrite <- !app_assoc, PeekAssoc_app, drop_header_number by done.
  rewrite ReadU32Le_app by done.
  rewrite <- drop_drop, drop_header_number by done.
  rewrite drop_app_length' by (by autorewrite with size). rewrite ReadU32Le_app by done.
  do 2 f_equal.
  replace (VersionAndType t :: id ++ le_bytes 4 s ++ le_bytes 4 ts ++ p ++ tag)
    with ((VersionAndType t :: id ++ le_bytes 4 s ++ le_bytes 4 ts) ++ p ++ tag)
    by (by rewrite <- app_comm_cons, <- !app_assoc).
  assert (Hh : length (VersionAndType t :: id ++ le_bytes 4 s ++ le_bytes 4 ts) = kHeaderBytes).
  { simpl. autorewrite with size. by rewrite Hid. }
  rewrite app_assoc, take_app_length'.
  - by rewrite drop_app_length'.
  - rewrite length_app, Hh. unfold kHeaderBytes, kHmacBytes, kAssocIdBytes. lia.
Qed.

(** A datagram split at the end of its header, the header byte by byte. *)
Lemma split_header (d : bytes) :
  (17 <= length d)%nat -> exists b i0 i1 i2 i3 i4 i5 i6 i7 s0 s1 s2 s3 t0 t1 t2 t3 r,
    d = [b; i0; i1; i2; i3; i4; i5; i6; i7; s0; s1; s2; s3; t0; t1; t2; t3] ++ r.
Proof.
  intros Hl. do 17 (destruct d as [|? d]; [simpl in Hl; lia|]). by repeat eexists.
Qed.

Lemma Decode_inv d pkt :
  bytes_ok d -> Decode d = Ok pkt ->
  version pkt = kWireVersion /\ IsSealed (type pkt) = false /\ WirePacket_ok pkt
  /\ size (payload pkt) <= kMaxPayload
  /\ exists tag, length tag = kHmacBytes
     /\ d = hmac_layout (type pkt) (assoc pkt) (seq pkt) (timestamp_ms pkt) (payload pkt) ++ tag.
Proof.
  intros Hok. unfold Decode. case_match_goal; [done|]. case_match_goal; [|done].
  case_match_goal; [done|]. case_match_goal; [done|]. intros [= <-]. zbool. unfold size in *.
  destruct (split_header d) as
    (b & i0 & i1 & i2 & i3 & i4 & i5 & i6 & i7 & s0 & s1 & s2 & s3 & t0 & t1 & t2 & t3 & r & ->);
    [unfold kHeaderBytes, kHmacBytes, kAssocIdBytes in *; lia|].
  pose (s := [s0; s1; s2; s3]). pose (t := [t0; t1; t2; t3]).
  pose (id := [i0; i1; i2; i3; i4; i5; i6; i7]).
  assert (Hb : is_u8 b /\ bytes_ok id /\ bytes_ok s /\ bytes_ok t /\ bytes_ok r).
  { unfold bytes_ok in *. subst id s t. decompose_Forall_hyps.
    split_and!; try done; repeat (apply Forall_cons_2; [done|]); done. }
  destruct Hb as (Hb & Hid & Hs & Ht & Hr).
  assert (Hs4 : ReadU32Le (s ++ t ++ r) = le_value s) by (by rewrite ReadU32Le_le by (simpl; lia)).
  assert (Ht4 : ReadU32Le (t ++ r) = le_value t) by (by rewrite ReadU32Le_le by (simpl; lia)).
  pose proof (le_value_range s Hs) as Hsr. pose proof (le_value_range t Ht) as Htr.
  pose (k := (length r - 16)%nat).
  assert (Hlr : (16 <= length r)%nat)
    by (rewrite length_app in *; unfold kHeaderBytes, kHmacBytes, kAssocIdBytes in *; simpl in *; lia).
  assert (Hpay : drop kHeaderBytes (take (length
      ([b; i0; i1; i2; i3; i4; i5; i6; i7; s0; s1; s2; s3; t0; t1; t2; t3] ++ r) - kHmacBytes)
      ([b; i0; i1; i2; i3; i4; i5; i6; i7; s0; s1; s2; s3; t0; t1; t2; t3] ++ r)) = take k r).
  { rewrite length_app. simpl length at 1. unfold kHmacBytes.
    replace (17 + length r - 16)%nat with (17 + k)%nat by lia.
    rewrite take_app_ge by (simpl; lia).
    rewrite drop_app_length' by done. f_equal. simpl length. lia. }
  rewrite Hpay. unfold PeekAssoc. rewrite (proj2 (Z.leb_le _ _)) by
    (unfold size; rewrite length_app; unfold kAssocIdBytes; simpl length; lia).
  cbn [drop app kAssocIdBytes Nat.add take version type assoc seq timestamp_ms payload].
  fold id. change (s0 :: s1 :: s2 :: s3 :: t0 :: t1 :: t2 :: t3 :: r) with (s ++ t ++ r).
  change (t0 :: t1 :: t2 :: t3 :: r) with (t ++ r).
  rewrite Hs4, Ht4. split; [done|]. split; [done|]. split.
  { split; [done|]. split; [exact Hsr|]. split; [exact Htr|]. by apply bytes_ok_take. }
  split.
  { unfold size. rewrite length_take. change kMaxPayload with 1199.
    rewrite length_app in *. unfold kMaxDatagramBytes in *. simpl length in *. lia. }
  exists (drop k r). split; [rewrite length_drop; unfold kHmacBytes; lia|].
  unfold hmac_layout. change 4%nat with (length s) at 1. change 4%nat with (length t) at 1.
  rewrite !le_bytes_value by done. rewrite <- app_comm_cons, <- !app_assoc, take_drop.
  f_equal. by eapply PeekType_inv.
Qed.

Lemma MacInput_app body tag : length tag = kHmacBytes -> MacInput (body ++ tag) = body.
Proof.
  intros Ht. unfold MacInput, size. rewrite length_app, Ht.
  rewrite (proj2 (Z.ltb_ge _ _)) by lia. apply take_app_length'. lia.
Qed.

Lemma DecodeSealedHeader_layout t id n body :
  IsSealed t = true -> AssocId_ok id -> is_u32 n ->
  Z.of_nat kPacketTagBytes <= size body <= kMaxDatagramBytes - Z.of_nat kSealedHeaderBytes ->
  DecodeSealedHeader (sealed_layout t id n ++ body) = Ok (MkSealedHeader t id n).
Proof.
  intros Ht [Hid _] Hn Hb. unfold DecodeSealedHeader, sealed_layout. unfold size in *.
  assert (Hlen : length ((VersionAndType t :: id ++ le_bytes 4 n) ++ body) = (13 + length body)%nat).
  { simpl. autorewrite with size. rewrite Hid. unfold kAssocIdBytes. lia. }
  unfold kSealedHeaderBytes, kPacketTagBytes, kAssocIdBytes, kMaxDatagramBytes in *.
  rewrite Hlen, (proj2 (Z.ltb_ge _ _)), (proj2 (Z.ltb_ge _ _)) by lia.
  rewrite <- app_comm_cons, PeekType_VersionAndType, Ht, <- app_assoc. cbn [negb].
  rewrite PeekAssoc_app by done. change 9%nat with (1 + kAssocIdBytes)%nat.
  rewrite drop_header_number by done. by rewrite ReadU32Le_app.
Qed.

Lemma DecodeSealedHeader_inv d h :
  bytes_ok d -> DecodeSealedHeader d = Ok h ->
  IsSealed (sh_type h) = true /\ AssocId_ok (sh_assoc h) /\ is_u32 (sh_number h)
  /\ take kSealedHeaderBytes d = EncodeSealedHeader h.
Proof.
  intros Hok. unfold DecodeSealedHeader. case_match_goal; [done|]. case_match_goal; [done|].
  case_match_goal; [|done]. case_match_goal; [done|]. intros [= <-]. zbool.
  unfold size, kSealedHeaderBytes, kPacketTagBytes, kAssocIdBytes in *.
  destruct (split_header d) as
    (b & i0 & i1 & i2 & i3 & i4 & i5 & i6 & i7 & s0 & s1 & s2 & s3 & t0 & t1 & t2 & t3 & r & ->);
    [lia|].
  pose (s := [s0; s1; s2; s3]). pose (id := [i0; i1; i2; i3; i4; i5; i6; i7]).
  assert (Hb : is_u8 b /\ bytes_ok id /\ bytes_ok s).
  { unfold bytes_ok in *. subst id s. decompose_Forall_hyps.
    split_and!; try done; repeat (apply Forall_cons_2; [done|]); apply Forall_nil_2. }
  destruct Hb as (Hb & Hid & Hs). pose proof (le_value_range s Hs) as Hsr.
  unfold PeekAssoc. rewrite (proj2 (Z.leb_le _ _)) by
    (unfold size; rewrite length_app; unfold kAssocIdBytes; simpl length; lia).
  cbn [drop app kAssocIdBytes Nat.add take sh_type sh_assoc sh_number] in *.
  rewrite ReadU32Le_le by (simpl; lia). cbn [take]. fold s id.
  split; [done|]. split; [done|]. split; [exact Hsr|].
  rewrite EncodeSealedHeader_layout. unfold sealed_layout. cbn [sh_type sh_assoc sh_number].
  change 4%nat with (length s). rewrite le_bytes_value by done.
  by rewrite (PeekType_inv b _ _ Hb Heqr).
Qed.

Lemma write_at_app (a b c src : bytes) :
  length b = length src -> write_at (a ++ b ++ c) (length a) src = a ++ src ++ c.
Proof.
  intros Hl. unfold write_at. rewrite take_app_length. do 2 f_equal.
  rewrite app_assoc. apply drop_app_length'. rewrite length_app. lia.
Qed.

Lemma EncodeVersionNegotiation_layout received versions :
  EncodeVersionNegotiation received versions
  = [240] ++ (take kVersionNegotiationEchoBytes received
       ++ zeros (kVersionNegotiationEchoBytes - length received))
    ++ [u8 (size versions)] ++ versions.
Proof.
  unfold EncodeVersionNegotiation.
  set (n := Nat.min (length received) kVersionNegotiationEchoBytes).
  assert (Htake : take n received = take kVersionNegotiationEchoBytes received).
  { subst n. destruct (Nat.le_ge_cases (length received) kVersionNegotiationEchoBytes).
    - rewrite Nat.min_l by done. by rewrite !take_ge by lia.
    - by rewrite Nat.min_r by done. }
  assert (Hn : length (take n received) = n) by (rewrite length_take; lia).
  assert (Hz : forall a b, zeros (a + b) = zeros a ++ zeros b)
    by (intros; unfold zeros; apply replicate_add).
  replace (1 + kVersionNegotiationEchoBytes + 1 + length versions)%nat
    with (1 + (n + (kVersionNegotiationEchoBytes - n) + (1 + length versions)))%nat
    by (unfold kVersionNegotiationEchoBytes in *; lia).
  replace (kVersionNegotiationEchoBytes - length received)%nat
    with (kVersionNegotiationEchoBytes - n)%nat by (unfold kVersionNegotiationEchoBytes in *; lia).
  rewrite !Hz, <- Htake. set (m := (kVersionNegotiationEchoBytes - n)%nat).
  set (zv := zeros (length versions)). cbv zeta.
  assert (Hzl : forall k, length (zeros k) = k) by (intros; apply length_replicate).
  assert (E1 : write_at (zeros 1 ++ (zeros n ++ zeros m) ++ zeros 1 ++ zv) 0
                 [u8 (Z.shiftl kVersionNegotiationNibble 4)]
               = [240] ++ zeros n ++ (zeros m ++ [0] ++ zv)).
  { rewrite <- (app_assoc (zeros n)). exact (write_at_app [] (zeros 1) _ [240] eq_refl). }
  rewrite E1, (write_at_app [240] (zeros n)) by (by rewrite Hn, Hzl).
  assert (E2 : [240] ++ take n received ++ zeros m ++ [0] ++ zv
               = ([240] ++ take n received ++ zeros m) ++ [0] ++ zv)
    by (by rewrite <- !app_assoc).
  assert (He : length ([240] ++ take n received ++ zeros m)
               = (1 + kVersionNegotiationEchoBytes)%nat).
  { rewrite !length_app, Hn, Hzl. simpl length. lia. }
  rewrite E2, <- He, (write_at_app _ [0]) by done. rewrite app_assoc.
  replace (2 + kVersionNegotiationEchoBytes)%nat
    with (length (([240] ++ take n received ++ zeros m) ++ [u8 (size versions)]))
    by (rewrite length_app, He; simpl length; lia).
  rewrite <- (app_nil_r zv), (write_at_app _ zv []) by (by apply Hzl).
  by rewrite app_nil_r, <- !app_assoc.
Qed.

(** ** Properties *)

Section Properties.
Context `{SodiumLaws}.

Lemma ComputeTag_length key m : length (ComputeTag key m) = kHmacBytes.
Proof. unfold ComputeTag. rewrite length_take, hmac_length. done. Qed.

Lemma Verify_Seal key body : Verify key (body ++ ComputeTag key body) = Ok tt.
Proof.
  unfold Verify, size. rewrite length_app, ComputeTag_length.
  rewrite (proj2 (Z.ltb_ge _ _)) by lia.
  rewrite take_app_length' by lia. rewrite drop_app_length.
  rewrite take_ge by (by rewrite ComputeTag_length). by rewrite bool_decide_true.
Qed.

Lemma Verify_inv key d :
  Verify key d = Ok tt -> exists body, d = body ++ ComputeTag key body.
Proof.
  unfold Verify. case_match_goal; [done|]. zbool. unfold size in *.
  case_bool_decide as Htag; [|done]. intros _.
  exists (take (length d - kHmacBytes) d). rewrite Htag, length_take, Nat.min_l by lia.
  rewrite (take_ge (drop _ d)); [by rewrite take_drop|]. rewrite length_drop. lia.
Qed.

Lemma packet_encodes (key : PeerKey) (pkt : WirePacket) :
  version pkt = kWireVersion -> IsSealed (type pkt) = false ->
  size (payload pkt) <= kMaxPayload -> WirePacket_ok pkt ->
  exists body d, Encode pkt = Ok body /\ Seal key body = Ok d
    /\ size d <= kMaxDatagramBytes /\ Verify key d = Ok tt /\ Decode d = Ok pkt.
Proof.
  intros Hv Ht Hp (Hid & Hs & Hts & _). eexists _, _.
  split; [by apply Encode_ok|]. split; [reflexivity|].
  split; [|split; [apply Verify_Seal|]].
  - unfold hmac_layout. autorewrite with size. unfold size in *. rewrite ComputeTag_length.
    autorewrite with size. destruct Hid as [-> _]. unfold kAssocIdBytes, kHmacBytes.
    change kMaxPayload with 1199 in Hp. change kMaxDatagramBytes with 1232. lia.
  - rewrite Decode_layout; [|try done..|apply ComputeTag_length]; [|apply Hid].
    destruct pkt as [v]. simpl in *. by subst v.
Qed.
Lemma packet_decodes (key : PeerKey) (d1 d2 : bytes) (pkt : WirePacket) :
  bytes_ok d1 -> Decode d1 = Ok pkt ->
  Encode pkt = Ok (MacInput d1) /\ WirePacket_ok pkt
  /\ (bytes_ok d2 -> Decode d2 = Ok pkt ->
      Verify key d1 = Ok tt -> Verify key d2 = Ok tt -> d1 = d2).
Proof.
  intros Hok1 Hd1.
  destruct (Decode_inv _ _ Hok1 Hd1) as (Hv & Hs & Hok & Hp & tag1 & Ht1 & E1).
  split; [by rewrite E1, MacInput_app, Encode_ok|]. split; [done|].
  intros Hok2 Hd2 Hv1 Hv2.
  destruct (Decode_inv _ _ Hok2 Hd2) as (_ & _ & _ & _ & tag2 & Ht2 & E2).
  apply Verify_inv in Hv1 as [b1 Hb1]. apply Verify_inv in Hv2 as [b2 Hb2].
  rewrite E1 in Hb1. rewrite E2 in Hb2.
  apply app_inj_2 in Hb1 as [<- ->]; [|by rewrite ComputeTag_length].
  apply app_inj_2 in Hb2 as [<- ->]; [|by rewrite ComputeTag_length].
  congruence.
Qed.

(** C32: handshake and control packets round-trip, exactly.  Every packet the
    field types can hold, unsealed and at most [kMaxPayload] long, is encoded and
    tagged into a datagram of at most [kMaxDatagramBytes] whose HMAC verifies
    under the same key and which decodes to exactly that packet.  And a datagram
    that decodes has the packet's own encoding as the bytes the HMAC covers, with
    the packet's fields in range; so two datagrams that verify under one key and
    decode to the same packet are the same datagram. *)
Theorem hmac_packet_roundtrip (key : PeerKey) (pkt : WirePacket) :
  (version pkt = kWireVersion -> IsSealed (type pkt) = false ->
   size (payload pkt) <= kMaxPayload -> WirePacket_ok pkt ->
   exists body d, Encode pkt = Ok body /\ Seal key body = Ok d
     /\ size d <= kMaxDatagramBytes /\ Verify key d = Ok tt /\ Decode d = Ok pkt)
  /\ (forall d1 d2, bytes_ok d1 -> Decode d1 = Ok pkt ->
      Encode pkt = Ok (MacInput d1) /\ WirePacket_ok pkt
      /\ (bytes_ok d2 -> Decode d2 = Ok pkt -> Verify key d1 = Ok tt -> Verify key d2 = Ok tt -> d1 = d2)).
Proof. split; [apply packet_encodes|intros d1 d2; apply packet_decodes]. Qed.
End Properties.

(** Round trip of a sealed packet's clear header, in both directions: the
    header encoded before any body that fits decodes to itself, and a datagram
    whose header decodes begins with exactly that header's encoding (so the
    associated data the receiver checks is what the sender sealed under). *)
Theorem sealed_header_roundtrip (h : SealedHeader) (body d : bytes) :
  (IsSealed (sh_type h) = true -> AssocId_ok (sh_assoc h) -> is_u32 (sh_number h) ->
   Z.of_nat kPacketTagBytes <= size body <= kMaxDatagramBytes - Z.of_nat kSealedHeaderBytes ->
   DecodeSealedHeader (EncodeSealedHeader h ++ body) = Ok h)
  /\ (bytes_ok d -> DecodeSealedHeader d = Ok h ->
      d = EncodeSealedHeader h ++ drop kSealedHeaderBytes d).
Proof.
  split.
  - intros. destruct h as [t id n]. rewrite EncodeSealedHeader_layout.
    by apply DecodeSealedHeader_layout.
  - intros Hok Hd. destruct (DecodeSealedHeader_inv _ _ Hok Hd) as (_ & _ & _ & <-).
    by rewrite take_drop.
Qed.

(** Version negotiation.  The reply to a datagram decodes to the first 16
    bytes of that datagram (zero padded) and the versions listed, is 18 bytes
    plus one per version, and is never taken for a packet of this wire version. *)
Theorem version_negotiation_roundtrip (received versions : bytes) :
  0 < size versions < 256 ->
  DecodeVersionNegotiation (EncodeVersionNegotiation received versions)
    = Ok (MkVersionNegotiation
            (take kVersionNegotiationEchoBytes (received ++ zeros kVersionNegotiationEchoBytes))
            versions)
  /\ size (EncodeVersionNegotiation received versions) = 18 + size versions
  /\ PeekType (EncodeVersionNegotiation received versions) = Fail (Err_ "adp: unknown version").
Proof.
  intros Hv. rewrite EncodeVersionNegotiation_layout.
  set (e := take kVersionNegotiationEchoBytes received ++ _).
  assert (He : length e = kVersionNegotiationEchoBytes).
  { subst e. unfold zeros. rewrite length_app, length_take, length_replicate. lia. }
  assert (Hpad : take kVersionNegotiationEchoBytes (received ++ zeros kVersionNegotiationEchoBytes) = e).
  { subst e. rewrite take_app. f_equal. unfold zeros. rewrite take_replicate. f_equal.
    unfold kVersionNegotiationEchoBytes. lia. }
  assert (Hsz : size ([240] ++ e ++ [u8 (size versions)] ++ versions) = 18 + size versions).
  { autorewrite with size. unfold size at 1. rewrite He. unfold kVersionNegotiationEchoBytes. lia. }
  split; [|split; [done|reflexivity]].
  unfold DecodeVersionNegotiation. change (Z.of_nat kFixed) with 18.
  rewrite Hsz, (proj2 (Z.ltb_ge _ _)) by lia.
  assert (Hc : at_ ([240] ++ e ++ [u8 (size versions)] ++ versions) (kFixed - 1) = size versions).
  { rewrite app_assoc. replace (kFixed - 1)%nat with (length ([240%Z] ++ e) + 0)%nat
      by (rewrite length_app, He; done).
    rewrite at_app_r. unfold at_. simpl. apply u8_id. unfold is_u8. lia. }
  rewrite Hc, (proj2 (Z.eqb_neq (size versions) 0)) by lia.
  rewrite Hpad. change (negb (Z.shiftr (at_ _ 0) 4 =? _)) with false. cbn [negb orb].
  change (Z.of_nat kFixed) with 18. rewrite Z.eqb_refl. cbn [negb].
  do 2 f_equal.
  - simpl. by apply take_app_length'.
  - change kFixed with (1 + kVersionNegotiationEchoBytes + 1)%nat. rewrite !app_assoc.
    apply drop_app_length'. rewrite !length_app, He. done.
Qed.

(** *** Concrete instances *)

#[local] Existing Instance toy_sodium.
#[local] Existing Instance toy_sodium_laws.

Definition packet_example : WirePacket :=
  MkWirePacket kWireVersion Keepalive [1; 2; 3; 4; 5; 6; 7; 8] 0 4294967295 [0; 0; 78; 32; 1].
Definition key_example : PeerKey := replicate 32 7.
Definition datagram_example : bytes :=
  [36; 1; 2; 3; 4; 5; 6; 7; 8; 0; 0; 0; 0; 255; 255; 255; 255; 0; 0; 78; 32; 1]
  ++ replicate 16 239.

Lemma AssocId_example_ok : AssocId_ok [1; 2; 3; 4; 5; 6; 7; 8].
Proof. split; [done|]. by repeat constructor. Qed.

Theorem hmac_packet_roundtrip_witness :
  (exists body d, Encode packet_example = Ok body /\ Seal key_example body = Ok d
     /\ size d <= kMaxDatagramBytes /\ Verify key_example d = Ok tt /\ Decode d = Ok packet_example)
  /\ Encode packet_example = Ok (MacInput datagram_example).
Proof.
  split.
  - apply (hmac_packet_roundtrip key_example packet_example); [reflexivity..|by vm_compute|].
    split; [apply AssocId_example_ok|]. split; [by vm_compute|]. split; [by vm_compute|].
    by repeat constructor.
  - apply (hmac_packet_roundtrip key_example packet_example) with (d2 := []); [by repeat constructor|reflexivity].
Defined.

Theorem version_negotiation_roundtrip_witness :
  DecodeVersionNegotiation (EncodeVersionNegotiation [16; 1; 2; 3] [2])
    = Ok (MkVersionNegotiation
            (take kVersionNegotiationEchoBytes ([16; 1; 2; 3] ++ zeros kVersionNegotiationEchoBytes))
            [2])
  /\ size (EncodeVersionNegotiation [16; 1; 2; 3] [2]) = 18 + size [2]
  /\ PeekType (EncodeVersionNegotiation [16; 1; 2; 3] [2]) = Fail (Err_ "adp: unknown version").
Proof. apply (version_negotiation_roundtrip [16; 1; 2; 3] [2]). by vm_compute. Defined.

Definition sealed_header_example : SealedHeader :=
  MkSealedHeader DataReliable [1; 2; 3; 4; 5; 6; 7; 8] 258.
Definition sealed_datagram_example : bytes :=
  [33; 1; 2; 3; 4; 5; 6; 7; 8; 2; 1; 0; 0] ++ replicate 20 9.

Theorem sealed_header_roundtrip_witness :
  DecodeSealedHeader (EncodeSealedHeader sealed_header_example ++ replicate 20 9)
    = Ok sealed_header_example
  /\ sealed_datagram_example
     = EncodeSealedHeader sealed_header_example ++ drop kSealedHeaderBytes sealed_datagram_example.
Proof.
  destruct (sealed_header_roundtrip sealed_header_example (replicate 20 9) sealed_datagram_example)
    as [H1 H2].
  split.
  - apply H1; [reflexivity|apply AssocId_example_ok|by vm_compute|by vm_compute].
  - apply H2; [|reflexivity]. by repeat constructor.
Defined.
