(* ===== verification/Connection.v ===== *)
(** * One association (src/L1/Connection.cpp, include/amp/L1/Connection.h)

    The state of a [Connection] with the source's fields, and its operations.
    [endpoint_] stands for the part of the [Endpoint] a connection reaches
    through its pointer: the datagram io, the clock's reading, the counters and
    the ids to unregister; [log_] records the calls that leave the connection,
    in order: datagrams handed to the io and invocations of the handlers.  A
    handler that calls back into the connection does so as a later operation. *)

From S2P Require Import Prelude L1Types ReplayWindow WireCodec.

(** ** The endpoint as a connection sees it *)

Record EndpointStats := MkEndpointStats {
  tx_datagrams : Z;
  tx_bytes : Z;
  rx_datagrams : Z;
  rx_bytes : Z;
  rx_rejected : Z;
  reliable_sent : Z;
  retransmits : Z;
  reliable_lost : Z;
  rtt_samples : Z;
  rtt_sum_ms : Z;
}.
#[export] Instance EndpointStats_fields : Fields EndpointStats := fun s =>
  MkEndpointStats (tx_datagrams s) (tx_bytes s) (rx_datagrams s) (rx_bytes s) (rx_rejected s)
    (reliable_sent s) (retransmits s) (reliable_lost s) (rtt_samples s) (rtt_sum_ms s).
Definition EndpointStats_zero : EndpointStats := MkEndpointStats 0 0 0 0 0 0 0 0 0 0.

(** What leaves the layer: a datagram handed to the socket, a call of
    [on_message_], of [on_path_change_], of [rtt_observer_]. *)
Inductive Event :=
  | EvSendTo (peer : IpEndpoint) (datagram : bytes)
  | EvMessage (m : Message)
  | EvPathChange (from to : IpEndpoint)
  | EvRtt (rtt_ms : Z).

Record Host (Io : Type) := MkHost {
  io_ : Io;
  clock_ : Z;
  host_stats : EndpointStats;
  rtt_observer_ : bool;
  unregistered : list AssocId;
  log_ : list Event;
}.
Arguments MkHost {Io}.
Arguments io_ {Io}.
Arguments clock_ {Io}.
Arguments host_stats {Io}.
Arguments rtt_observer_ {Io}.
Arguments unregistered {Io}.
Arguments log_ {Io}.
#[export] Instance Host_fields {Io} : Fields (Host Io) := fun h =>
  MkHost (io_ h) (clock_ h) (host_stats h) (rtt_observer_ h) (unregistered h) (log_ h).

Definition emit {Io} (e : Event) (h : Host Io) : Host Io := h <| log_ ::= fun l => l ++ [e] |>.

(** A relaxed [fetch_add] on a [uint64_t] counter. *)
Definition fetch_add (n v : Z) : Z := u64 (v + n).

Section HostOperations.
Context {Io : Type} `{DatagramIo Io}.

(** [Endpoint::SendRaw]. *)
Definition SendRaw (h : Host Io) (peer : IpEndpoint) (datagram : bytes) : Host Io * Roe unit :=
  let '(io, sent) := SendTo (io_ h) peer datagram in
  let h := emit (EvSendTo peer datagram) (h <| io_ := io |>) in
  match sent with
  | Ok _ => (h <| host_stats ::= fun s => s <| tx_datagrams ::= fetch_add 1 |>
                                            <| tx_bytes ::= fetch_add (size datagram) |> |>, sent)
  | Fail _ => (h, sent)
  end.

Definition NoteReliableSent (h : Host Io) : Host Io :=
  h <| host_stats ::= fun s => s <| reliable_sent ::= fetch_add 1 |> |>.
Definition NoteRetransmit (h : Host Io) : Host Io :=
  h <| host_stats ::= fun s => s <| retransmits ::= fetch_add 1 |> |>.
Definition NoteReliableLost (h : Host Io) : Host Io :=
  h <| host_stats ::= fun s => s <| reliable_lost ::= fetch_add 1 |> |>.
Definition NoteRejected (h : Host Io) : Host Io :=
  h <| host_stats ::= fun s => s <| rx_rejected ::= fetch_add 1 |> |>.
(** [Endpoint::NoteRttSample]. *)
Definition Host_NoteRttSample (h : Host Io) (rtt_ms : Z) : Host Io :=
  let sample := if rtt_ms <? 0 then 0 else rtt_ms in
  let h := h <| host_stats ::= fun s => s <| rtt_samples ::= fetch_add 1 |>
                                          <| rtt_sum_ms ::= fetch_add sample |> |> in
  if rtt_observer_ h then emit (EvRtt sample) h else h.
Definition Unregister (h : Host Io) (id : AssocId) : Host Io :=
  h <| unregistered ::= fun l => l ++ [id] |>.
End HostOperations.

(** ** State *)

Inductive Err := ErrClosed | PayloadTooLarge | SeqWrap | WindowFull | WireError | Unreachable.
#[export] Instance Err_eq_dec : EqDecision Err.
Proof. solve_decision. Defined.

(** [Connection::Failure], [Failure::Of]. *)
Record Failure := Of { fcode : Err; fmessage : string }.
Abbreviation CRoe := (Result Failure).

Record ConnectionStats := MkConnectionStats {
  st_reliable_sent : Z;
  st_retransmits : Z;
  st_reliable_lost : Z;
  st_rtt_samples : Z;
  st_rtt_sum_ms : Z;
  srtt_ms : Z;
  rttvar_ms : Z;
}.
#[export] Instance ConnectionStats_fields : Fields ConnectionStats := fun s =>
  MkConnectionStats (st_reliable_sent s) (st_retransmits s) (st_reliable_lost s)
    (st_rtt_samples s) (st_rtt_sum_ms s) (srtt_ms s) (rttvar_ms s).
Definition ConnectionStats_zero : ConnectionStats := MkConnectionStats 0 0 0 0 0 (-1) (-1).

Record Outstanding := MkOutstanding {
  o_type : PacketType;
  before_upgrade : bool;
  o_seq : Z;
  o_payload : bytes;
  next_rtx_ms : Z;
  attempts : Z;
  base_backoff : Z;
  first_sent_ms : Z;
}.
#[export] Instance Outstanding_fields : Fields Outstanding := fun o =>
  MkOutstanding (o_type o) (before_upgrade o) (o_seq o) (o_payload o) (next_rtx_ms o)
    (attempts o) (base_backoff o) (first_sent_ms o).

Record HeldReliable := MkHeld { hr_sealed : bool; hr_payload : bytes }.

Record Connection (P Io : Type) := MkConnection {
  endpoint_ : Host Io;
  id_ : AssocId;
  binder_ : PeerKey;
  protection_ : option P;
  pre_upgrade_key_ : option PeerKey;
  peer_ : IpEndpoint;
  params_ : OpenParams;
  closed_ : bool;
  peer_closed_ : bool;
  peer_unreachable_ : bool;
  peer_version_mismatch_ : bool;
  peer_wire_versions_ : bytes;
  authenticated_max_rtx_ : Z;
  rto_backoff_ : Z;
  authenticated_ : bool;
  tx_seq_be_ : Z;
  tx_seq_rel_ : Z;
  rx_be_ : ReplayWindow;
  rx_rel_ : ReplayWindow;
  rx_rel_next_deliver_ : Z;
  rx_rel_hold_ : gmap Z HeldReliable;
  on_message_ : bool;
  on_path_change_ : bool;
  last_auth_rx_ms_ : Z;
  max_auth_rx_ts_ : Z;
  have_auth_rx_ts_ : bool;
  local_keepalive_interval_ms_ : Z;
  peer_keepalive_interval_ms_ : Z;
  outstanding_ : list Outstanding;
  stats_ : ConnectionStats;
}.
Arguments MkConnection {P Io}.
Arguments endpoint_ {P Io}.
Arguments id_ {P Io}.
Arguments binder_ {P Io}.
Arguments protection_ {P Io}.
Arguments pre_upgrade_key_ {P Io}.
Arguments peer_ {P Io}.
Arguments params_ {P Io}.
Arguments closed_ {P Io}.
Arguments peer_closed_ {P Io}.
Arguments peer_unreachable_ {P Io}.
Arguments peer_version_mismatch_ {P Io}.
Arguments peer_wire_versions_ {P Io}.
Arguments authenticated_max_rtx_ {P Io}.
Arguments rto_backoff_ {P Io}.
Arguments authenticated_ {P Io}.
Arguments tx_seq_be_ {P Io}.
Arguments tx_seq_rel_ {P Io}.
Arguments rx_be_ {P Io}.
Arguments rx_rel_ {P Io}.
Arguments rx_rel_next_deliver_ {P Io}.
Arguments rx_rel_hold_ {P Io}.
Arguments on_message_ {P Io}.
Arguments on_path_change_ {P Io}.
Arguments last_auth_rx_ms_ {P Io}.
Arguments max_auth_rx_ts_ {P Io}.
Arguments have_auth_rx_ts_ {P Io}.
Arguments local_keepalive_interval_ms_ {P Io}.
Arguments peer_keepalive_interval_ms_ {P Io}.
Arguments outstanding_ {P Io}.
Arguments stats_ {P Io}.
#[export] Instance Connection_fields {P Io} : Fields (Connection P Io) := fun c =>
  MkConnection (endpoint_ c) (id_ c) (binder_ c) (protection_ c) (pre_upgrade_key_ c)
    (peer_ c) (params_ c) (closed_ c) (peer_closed_ c) (peer_unreachable_ c)
    (peer_version_mismatch_ c) (peer_wire_versions_ c) (authenticated_max_rtx_ c)
    (rto_backoff_ c) (authenticated_ c) (tx_seq_be_ c) (tx_seq_rel_ c) (rx_be_ c)
    (rx_rel_ c) (rx_rel_next_deliver_ c) (rx_rel_hold_ c) (on_message_ c)
    (on_path_change_ c) (last_auth_rx_ms_ c) (max_auth_rx_ts_ c)
    (have_auth_rx_ts_ c) (local_keepalive_interval_ms_ c)
    (peer_keepalive_interval_ms_ c) (outstanding_ c) (stats_ c).

(** ** Operations *)

Section Connection.
Context {P Io : Type} `{PacketProtection P} `{DatagramIo Io} `{Sodium}.
Abbreviation Conn := (Connection P Io).

Definition SpaceOf (type : PacketType) : PacketSpace :=
  if decide (type = DataReliable) then SpaceReliable else SpaceBestEffort.

(** The constructor. *)
Definition Connection_new (endpoint : Host Io) (params : OpenParams) : Conn :=
  let reduced := params <| max_rtx := Z.min (max_rtx params)
                             (if dialer_backoff params then kPreAuthDialMaxRtx
                              else kPreAuthMaxRtx) |> in
  MkConnection endpoint (id params) (key params) None None (peer params)
    (if reduce_rtx_until_authenticated params then reduced else params)
    false false false false []
    (max_rtx params) 0
    (negb (reduce_rtx_until_authenticated params))
    0 0
    (ReplayWindow_new (replay_window params) true)
    (ReplayWindow_new (Z.max (replay_window params) (reliable_window params)) false)
    1 ∅ false false 0 0 false 0 0 [] ConnectionStats_zero.

(** [Connection::Open]; [random] is what [randombytes_buf] returns. *)
Definition OpenConnection (endpoint : Host Io) (params : OpenParams) (random : AssocId) : CRoe Conn :=
  let params :=
    if mint_id params && forallb (fun b => b =? 0) (id params)
    then params <| id := random |> else params in
  Ok (Connection_new endpoint params).

Definition Sealing (c : Conn) : bool :=
  match protection_ c with Some _ => true | None => false end.

Definition ReliableCreditsRemaining (c : Conn) : Z :=
  if reliable_window (params_ c) <=? size (outstanding_ c) then 0
  else reliable_window (params_ c) - size (outstanding_ c).

(** *** Timers *)

Definition clamp (v lo hi : Z) : Z := if v <? lo then lo else if hi <? v then hi else v.

Definition RtoMs (c : Conn) : Z :=
  if srtt_ms (stats_ c) <? 0 then rtx_interval_ms (params_ c)
  else
    let rto := srtt_ms (stats_ c) + Z.max kRtoGranularityMs (4 * rttvar_ms (stats_ c)) in
    clamp rto (rtx_interval_ms (params_ c)) (Z.max kMaxRtoMs (rtx_interval_ms (params_ c))).

Definition RetransmitIntervalMs (c : Conn) (doublings : Z) : Z :=
  if authenticated_ c then
    let doublings := Z.min doublings 8 in
    Z.min (Z.shiftl (RtoMs c) doublings) (Z.max kMaxRtoMs (rtx_interval_ms (params_ c)))
  else if negb (dialer_backoff (params_ c)) then rtx_interval_ms (params_ c)
  else Z.shiftl (rtx_interval_ms (params_ c)) (Z.min doublings 16).

Definition LivenessWindowMs (c : Conn) : Z :=
  let cadence := Z.max (local_keepalive_interval_ms_ c) (peer_keepalive_interval_ms_ c) in
  Z.max (alive_timeout_ms (params_ c))
    (Z.quot (cadence * kKeepaliveLivenessNumerator) kKeepaliveLivenessDenominator).

Definition LooksAlive (c : Conn) (now_ms : Z) : bool :=
  if closed_ c || (last_auth_rx_ms_ c =? 0) then false
  else now_ms - last_auth_rx_ms_ c <=? LivenessWindowMs c.

Definition TruncTs (now_ms : Z) : Z := u32 (Z.land (u64 now_ms) 4294967295).

Definition AcceptSkew (c : Conn) (ts now_ms : Z) : bool :=
  let delta := i32_of_u32 (u32 (TruncTs now_ms - ts)) in
  (delta <=? skew_ms (params_ c)) && (- skew_ms (params_ c) <=? delta).

(** *** Path *)

Definition SetPeerEndpoint (c : Conn) (to : IpEndpoint) : Conn :=
  if endpoint_eqb (peer_ c) to then c
  else
    let from := peer_ c in
    let c := c <| peer_ := to |> in
    if on_path_change_ c then c <| endpoint_ ::= emit (EvPathChange from to) |> else c.

Definition MaybeLearnPath (c : Conn) (from : IpEndpoint) : Conn :=
  let unspecified :=
    forallb (fun b => b =? 0) (take (addr_bytes (family (peer_ c))) (addr (peer_ c))) in
  if unspecified then SetPeerEndpoint c from
  else if negb (endpoint_eqb from (peer_ c)) then SetPeerEndpoint c from
  else c.

(** *** Keys *)

Definition SetProtection (c : Conn) (protection : option P) : Conn :=
  c <| protection_ := protection |>.

Definition UpgradeBinder (c : Conn) (new_key : PeerKey) : Conn :=
  let c := match pre_upgrade_key_ c with
           | None => c <| pre_upgrade_key_ := Some (binder_ c) |>
           | Some _ => c
           end in
  c <| binder_ := new_key |>
    <| params_ ::= fun p => p <| max_rtx := authenticated_max_rtx_ c |> |>
    <| authenticated_ := true |>.

(** *** Sending *)

Definition SealDatagram (c : Conn) (type : PacketType) (seq : Z) (payload : bytes) : CRoe bytes :=
  match protection_ c with
  | None => Fail (Of WireError "adp: no session keys to seal with")
  | Some p =>
      let header := EncodeSealedHeader (MkSealedHeader type (id_ c) seq) in
      match SealPacket p (SpaceOf type) seq header payload with
      | Fail e => Fail (Of WireError (error_message e))
      | Ok sealed => Ok (header ++ sealed)
      end
  end.

(** The datagram [SendPacket] makes, sealed or with an HMAC. *)
Definition PacketDatagram (c : Conn) (type : PacketType) (seq : Z) (payload : bytes) (now_ms : Z)
    (with_key : option PeerKey) : CRoe bytes :=
  if IsSealed type then SealDatagram c type seq payload
  else
    match Encode (MkWirePacket kWireVersion type (id_ c) seq (TruncTs now_ms) payload) with
    | Fail e => Fail (Of WireError (error_message e))
    | Ok encoded =>
        match Seal (default (binder_ c) with_key) encoded with
        | Fail e => Fail (Of WireError (error_message e))
        | Ok maced => Ok maced
        end
    end.

Definition SendPacket (c : Conn) (type : PacketType) (seq : Z) (payload : bytes) (now_ms : Z)
    (with_key : option PeerKey) : Conn * CRoe unit :=
  match PacketDatagram c type seq payload now_ms with_key with
  | Fail e => (c, Fail e)
  | Ok datagram =>
      let '(host, sent) := SendRaw (endpoint_ c) (peer_ c) datagram in
      let c := c <| endpoint_ := host |> in
      match sent with
      | Ok _ => (c, Ok tt)
      | Fail e =>
          if IsUnreachableSendError e
          then (c <| peer_unreachable_ := true |>, Fail (Of Unreachable (error_message e)))
          else (c, Fail (Of WireError (error_message e)))
      end
  end.

Definition SendPacketAsFailure (c : Conn) (type : PacketType) (seq : Z) (payload : bytes)
    (now_ms : Z) : Conn * CRoe unit :=
  let '(c, sent) := SendPacket c type seq payload now_ms None in
  match sent with
  | Fail e => (c, Fail (Of WireError (fmessage e)))
  | Ok _ => (c, Ok tt)
  end.

Definition SendReliable (c : Conn) (payload : bytes) (now : Z) : Conn * CRoe unit :=
  if reliable_window (params_ c) <=? size (outstanding_ c)
  then (c, Fail (Of WindowFull "adp: reliable window full"))
  else if tx_seq_rel_ c =? 4294967295 then (c, Fail (Of SeqWrap "adp: seq wrap"))
  else
    let c := c <| tx_seq_rel_ ::= fun s => u32 (s + 1) |> in
    let backoff := if authenticated_ c then rto_backoff_ c else 0 in
    let o := MkOutstanding (if Sealing c then DataReliable else PlainReliable)
               (bool_decide (pre_upgrade_key_ c = None)) (tx_seq_rel_ c) payload
               (now + RetransmitIntervalMs c backoff) 0 backoff now in
    let c := c <| outstanding_ ::= fun l => l ++ [o] |>
               <| endpoint_ ::= NoteReliableSent |>
               <| stats_ ::= fun s => s <| st_reliable_sent ::= fetch_add 1 |> |> in
    let '(c, sent) := SendPacket c (o_type o) (tx_seq_rel_ c) payload now None in
    match sent with
    | Fail e => if peer_unreachable_ c then (c, Fail e) else (c, Ok tt)
    | Ok _ => (c, Ok tt)
    end.

Definition Send (c : Conn) (qos : QosClass) (payload : bytes) : Conn * CRoe unit :=
  if closed_ c then (c, Fail (Of ErrClosed "adp: send on closed connection"))
  else if (if Sealing c then kMaxSealedPayload else kMaxPayload) <? size payload
  then (c, Fail (Of PayloadTooLarge "adp: payload too large"))
  else
    let now := clock_ (endpoint_ c) in
    match qos with
    | BestEffort =>
        if tx_seq_be_ c =? 4294967295 then (c, Fail (Of SeqWrap "adp: seq wrap"))
        else
          let c := c <| tx_seq_be_ ::= fun s => u32 (s + 1) |> in
          SendPacketAsFailure c (if Sealing c then DataBestEffort else PlainBestEffort)
            (tx_seq_be_ c) payload now
    | Reliable => SendReliable c payload now
    end.

(** *** Closing *)

Definition CloseConnection (c : Conn) : Conn :=
  if closed_ c then c
  else
    let now := clock_ (endpoint_ c) in
    let '(c, _) := SendPacket c L1Types.Close 0 [] now None in
    let c := c <| closed_ := true |> in
    c <| endpoint_ ::= fun h => Unregister h (id_ c) |>.

Definition Abandon (c : Conn) : Conn :=
  if closed_ c then c
  else
    let c := c <| closed_ := true |> in
    c <| endpoint_ ::= fun h => Unregister h (id_ c) |>.

(** *** Keepalives *)

Definition SendKeepalivePacket (c : Conn) (now_ms interval_ms flags : Z) : Conn * CRoe unit :=
  if closed_ c then (c, Fail (Of ErrClosed "adp: keepalive on closed connection"))
  else if port (peer_ c) =? 0
  then (c, Fail (Of WireError "adp: keepalive without peer endpoint"))
  else
    let payload := [u8 (Z.shiftr interval_ms 24); u8 (Z.shiftr interval_ms 16);
                    u8 (Z.shiftr interval_ms 8); u8 interval_ms; flags] in
    SendPacket c Keepalive 0 payload now_ms None.

Definition SendKeepalive (c : Conn) (now_ms interval_ms : Z) : Conn * CRoe unit :=
  SendKeepalivePacket (c <| local_keepalive_interval_ms_ := interval_ms |>) now_ms interval_ms
    kKeepaliveFlagEchoRequest.

Definition StopKeepalive (c : Conn) (now_ms : Z) : Conn * CRoe unit :=
  if local_keepalive_interval_ms_ c =? 0 then (c, Ok tt)
  else SendKeepalivePacket (c <| local_keepalive_interval_ms_ := 0 |>) now_ms 0 0.

Definition SendProbe (c : Conn) (now_ms : Z) : Conn * CRoe unit :=
  SendKeepalivePacket c now_ms (local_keepalive_interval_ms_ c) kKeepaliveFlagEchoRequest.

Definition HandleKeepalive (c : Conn) (pkt : WirePacket) (now_ms : Z) : Conn :=
  if size (payload pkt) <? kKeepalivePayloadBytes then c
  else
    let p := payload pkt in
    let announced :=
      Z.lor (Z.lor (Z.lor (Z.shiftl (at_ p 0) 24) (Z.shiftl (at_ p 1) 16)) (Z.shiftl (at_ p 2) 8))
        (at_ p 3) in
    let c := c <| peer_keepalive_interval_ms_ := Z.min announced kMaxPeerKeepaliveIntervalMs |> in
    if negb (Z.land (at_ p 4) kKeepaliveFlagEchoRequest =? 0)
    then (SendKeepalivePacket c now_ms (local_keepalive_interval_ms_ c) 0).1
    else c.

(** *** Round trips and retransmission *)

Definition NoteRttSample (c : Conn) (rtt_ms : Z) : Conn :=
  let c := c <| endpoint_ ::= fun h => Host_NoteRttSample h rtt_ms |> in
  let sample := if rtt_ms <? 0 then 0 else rtt_ms in
  let c := c <| stats_ ::= fun s => s <| st_rtt_samples ::= fetch_add 1 |> |>
             <| rto_backoff_ := 0 |>
             <| stats_ ::= fun s => s <| st_rtt_sum_ms ::= fetch_add sample |> |> in
  if srtt_ms (stats_ c) <? 0 then
    c <| stats_ ::= fun s => s <| srtt_ms := sample |> <| rttvar_ms := Z.quot sample 2 |> |>
  else
    let error := if srtt_ms (stats_ c) <? sample then sample - srtt_ms (stats_ c)
                 else srtt_ms (stats_ c) - sample in
    c <| stats_ ::= fun s =>
           s <| rttvar_ms := rttvar_ms s + Z.quot (error - rttvar_ms s) 4 |>
             <| srtt_ms := srtt_ms s + Z.quot (sample - srtt_ms s) 8 |> |>.

(** The key a resend goes under. *)
Definition ResendKey (c : Conn) (o : Outstanding) : option PeerKey :=
  if before_upgrade o && negb (IsSealed (o_type o)) then pre_upgrade_key_ c else None.

(** One packet of the first loop of [Tick]; the packet and the connection. *)
Definition RetransmitOne (c : Conn) (o : Outstanding) (now_ms : Z) : Conn * Outstanding :=
  if now_ms <? next_rtx_ms o then (c, o)
  else if max_rtx (params_ c) <=? attempts o then (c, o)
  else
    let o := o <| attempts ::= Z.succ |> in
    let doublings := base_backoff o + attempts o in
    let c := if authenticated_ c
             then c <| rto_backoff_ ::= fun b => Z.max b (Z.min doublings 8) |> else c in
    let o := o <| next_rtx_ms := now_ms + RetransmitIntervalMs c doublings |> in
    let c := c <| endpoint_ ::= NoteRetransmit |>
               <| stats_ ::= fun s => s <| st_retransmits ::= fetch_add 1 |> |> in
    let '(c, _) := SendPacket c (o_type o) (o_seq o) (o_payload o) now_ms (ResendKey c o) in
    (c, o).

Fixpoint RetransmitAll (c : Conn) (os : list Outstanding) (now_ms : Z) : Conn * list Outstanding :=
  match os with
  | [] => (c, [])
  | o :: rest =>
      let '(c, o) := RetransmitOne c o now_ms in
      let '(c, rest) := RetransmitAll c rest now_ms in
      (c, o :: rest)
  end.

(** The second loop: packets given up leave from the front. *)
Definition GivenUp (c : Conn) (o : Outstanding) (now_ms : Z) : bool :=
  (max_rtx (params_ c) <=? attempts o) && (next_rtx_ms o <=? now_ms).

Fixpoint DropFailed (c : Conn) (os : list Outstanding) (now_ms : Z) : Conn :=
  match os with
  | o :: rest =>
      if GivenUp c o now_ms then
        let c := c <| endpoint_ ::= NoteReliableLost |>
                   <| stats_ ::= fun s => s <| st_reliable_lost ::= fetch_add 1 |> |>
                   <| outstanding_ := rest |> in
        DropFailed c rest now_ms
      else c
  | [] => c
  end.

Definition Tick (c : Conn) (now_ms : Z) : Conn :=
  if closed_ c then c
  else
    let '(c, os) := RetransmitAll c (outstanding_ c) now_ms in
    let c := c <| outstanding_ := os |> in
    DropFailed c os now_ms.

(** *** Receiving *)

(** [DeliverReliableInOrder]: each iteration takes a held packet, so the size
    of the hold bounds them. *)
Fixpoint DeliverLoop (fuel : nat) (c : Conn) : Conn :=
  match fuel with
  | O => c
  | S fuel =>
      match rx_rel_hold_ c !! rx_rel_next_deliver_ c with
      | None => c
      | Some held =>
          let m := MkMessage (id_ c) (rx_rel_next_deliver_ c) Reliable (hr_sealed held)
                     (hr_payload held) in
          let c := c <| rx_rel_hold_ ::= delete (rx_rel_next_deliver_ c) |> in
          let c := c <| rx_rel_next_deliver_ ::= fun n => u32 (n + 1) |> in
          DeliverLoop fuel (c <| endpoint_ ::= emit (EvMessage m) |>)
      end
  end.

Definition DeliverReliableInOrder (c : Conn) : Conn :=
  if negb (on_message_ c) then c
  else DeliverLoop (S (base.size (rx_rel_hold_ c))) c.

Definition OpenDatagram (c : Conn) (datagram : bytes) (now_ms : Z) : CRoe WirePacket :=
  match protection_ c with
  | None => Fail (Of WireError "adp: sealed packet before session keys")
  | Some p =>
      match DecodeSealedHeader datagram with
      | Fail e => Fail (Of WireError (error_message e))
      | Ok header =>
          match OpenPacket p (SpaceOf (sh_type header)) (sh_number header)
                  (take kSealedHeaderBytes datagram) (drop kSealedHeaderBytes datagram) now_ms with
          | Fail e => Fail (Of WireError (error_message e))
          | Ok opened =>
              Ok (MkWirePacket kWireVersion (sh_type header) (sh_assoc header) (sh_number header)
                    0 opened)
          end
      end
  end.

(** Plain data once the session has keys: refused, a duplicate of the
    handshake's packets acknowledged. *)
Definition RefusePlainAfterKeys (c : Conn) (pkt : WirePacket) : Conn * bool :=
  if negb (Sealing c) || IsSealed (type pkt) then (c, false)
  else match type pkt with
  | PlainBestEffort => (c, true)
  | PlainReliable =>
      if decide (Classify (rx_rel_ c) (seq pkt) = Duplicate)
      then ((SendPacket c Ack (seq pkt) [] (clock_ (endpoint_ c)) None).1, true)
      else (c, true)
  | _ => (c, false)
  end.

Definition HandlePreUpgradeKeyPacket (c : Conn) (pkt : WirePacket) (now_ms : Z) : Conn :=
  if negb (AcceptSkew c (timestamp_ms pkt) now_ms) then c
  else match type pkt with
  | Ack =>
      c <| outstanding_ ::= filter (fun o => ~ (before_upgrade o = true /\ o_seq o = seq pkt)) |>
  | PlainReliable =>
      if decide (Classify (rx_rel_ c) (seq pkt) = Duplicate)
      then (SendPacket c Ack (seq pkt) [] now_ms (pre_upgrade_key_ c)).1
      else c
  | _ => c
  end.

(** The first switch of [HandleAuthenticated]: [(c, fresh, fresh_data,
    ack_reliable)]. *)
Definition NewerTimestamp (c : Conn) (pkt : WirePacket) : bool :=
  negb (have_auth_rx_ts_ c) || (0 <? i32_of_u32 (u32 (timestamp_ms pkt - max_auth_rx_ts_ c))).

(** The inner switch: record only a packet that is kept. *)
Definition ClassifyReliable (c : Conn) (seq : Z) : Conn * (bool * bool * bool) :=
  match Classify (rx_rel_ c) seq with
  | Duplicate => (c, (false, false, true))
  | TooFar => (c, (false, false, false))
  | Fresh =>
      let room := negb (on_message_ c)
                  || (Z.of_nat (base.size (rx_rel_hold_ c)) <? reliable_window (params_ c))
                  || (seq =? rx_rel_next_deliver_ c) in
      if room then
        let '(w, fresh) := Accept (rx_rel_ c) seq in
        (c <| rx_rel_ := w |>, (fresh, fresh, fresh))
      else (c, (false, false, false))
  end.

Definition ClassifyPacket (c : Conn) (pkt : WirePacket) : Conn * (bool * bool * bool) :=
  match type pkt with
  | DataBestEffort | PlainBestEffort =>
      let '(w, fresh) := Accept (rx_be_ c) (seq pkt) in
      (c <| rx_be_ := w |>, (fresh, fresh, false))
  | DataReliable | PlainReliable => ClassifyReliable c (seq pkt)
  | _ => (c, (NewerTimestamp c pkt, false, false))
  end.

Definition NoteTimestamp (c : Conn) (pkt : WirePacket) : Conn :=
  if negb (IsSealed (type pkt)) && NewerTimestamp c pkt
  then c <| max_auth_rx_ts_ := timestamp_ms pkt |> <| have_auth_rx_ts_ := true |>
  else c.

Definition NoteFresh (c : Conn) (from : IpEndpoint) (fresh : bool) (now_ms : Z) : Conn :=
  if fresh then MaybeLearnPath (c <| last_auth_rx_ms_ := now_ms |>) from else c.

(** The second switch, by packet kind. *)
Definition HandleAck (c : Conn) (pkt : WirePacket) (now_ms : Z) : Conn :=
  let c := match list_find (fun o => o_seq o = seq pkt /\ attempts o = 0) (outstanding_ c) with
           | Some (_, o) => NoteRttSample c (now_ms - first_sent_ms o)
           | None => c
           end in
  c <| outstanding_ ::= filter (fun o => o_seq o <> seq pkt) |>.

Definition HandleClose (c : Conn) : Conn :=
  if negb (authenticated_ c) && negb (dialer_backoff (params_ c)) then c
  else
    let c := c <| peer_closed_ := true |> <| closed_ := true |> in
    c <| endpoint_ ::= fun h => Unregister h (id_ c) |>.

Definition HandleBestEffort (c : Conn) (pkt : WirePacket) (fresh_data : bool) : Conn :=
  if negb fresh_data then c
  else if on_message_ c
  then c <| endpoint_ ::= emit (EvMessage (MkMessage (id_ c) (seq pkt) BestEffort
                                             (IsSealed (type pkt)) (payload pkt))) |>
  else c.

Definition HandleReliable (c : Conn) (pkt : WirePacket) (fresh_data ack_reliable : bool)
    (now_ms : Z) : Conn :=
  let c := if ack_reliable then (SendPacket c Ack (seq pkt) [] now_ms None).1 else c in
  if negb fresh_data then c
  else if on_message_ c
  then DeliverReliableInOrder
         (c <| rx_rel_hold_ ::= insert (seq pkt) (MkHeld (IsSealed (type pkt)) (payload pkt)) |>)
  else c.

Definition HandleAuthenticated (c : Conn) (pkt : WirePacket) (from : IpEndpoint) (now_ms : Z) : Conn :=
  if negb (IsSealed (type pkt)) && negb (AcceptSkew c (timestamp_ms pkt) now_ms) then c
  else
    let '(c, refused) := RefusePlainAfterKeys c pkt in
    if (refused : bool) then c
    else
      let '(c, (fresh, fresh_data, ack_reliable)) := ClassifyPacket c pkt in
      let c := NoteTimestamp c pkt in
      let c := NoteFresh c from fresh now_ms in
      match type pkt with
      | Ack => HandleAck c pkt now_ms
      | L1Types.Close => HandleClose c
      | Keepalive => if negb (authenticated_ c) then c else HandleKeepalive c pkt now_ms
      | DataBestEffort | PlainBestEffort => HandleBestEffort c pkt fresh_data
      | DataReliable | PlainReliable => HandleReliable c pkt fresh_data ack_reliable now_ms
      end.

Definition Rejected (c : Conn) : Conn := c <| endpoint_ ::= NoteRejected |>.

Definition HandleDatagram (c : Conn) (from : IpEndpoint) (datagram : bytes) (now_ms : Z) : Conn :=
  match PeekType datagram with
  | Fail _ => Rejected c
  | Ok t =>
      if IsSealed t then
        match OpenDatagram c datagram now_ms with
        | Fail _ => Rejected c
        | Ok opened => HandleAuthenticated c opened from now_ms
        end
      else if negb (ok (Verify (binder_ c) datagram)) then
        match pre_upgrade_key_ c with
        | Some k =>
            if ok (Verify k datagram) then
              match Decode datagram with
              | Ok decoded => HandlePreUpgradeKeyPacket c decoded now_ms
              | Fail _ => Rejected c
              end
            else Rejected c
        | None => Rejected c
        end
      else match Decode datagram with
      | Fail _ => Rejected c
      | Ok decoded => HandleAuthenticated c decoded from now_ms
      end
  end.

Definition HandleVersionNegotiation (c : Conn) (versions : bytes) : Conn :=
  if authenticated_ c || negb (dialer_backoff (params_ c)) || closed_ c then c
  else
    let c := c <| peer_version_mismatch_ := true |> <| peer_wire_versions_ := versions |>
               <| closed_ := true |> in
    c <| endpoint_ ::= fun h => Unregister h (id_ c) |>.
End Connection.
