(* ===== verification/ConnectionFacts.v ===== *)
(** * Facts about one association

    Frames of the operations of [Connection.v], the provenance of the datagrams
    it hands to the socket, the receiver's and the sender's invariants, and the
    properties of a single association over any run of operations. *)

From S2P Require Import Prelude L1Types ReplayWindow WireCodec Connection.

(** ** Reading the log *)

Definition sent_datagrams (l : list Event) : list bytes :=
  omap (fun e => match e with EvSendTo _ d => Some d | _ => None end) l.

(** Reliable messages given to the handler, with their packet numbers. *)
Definition delivered (l : list Event) : list (Z * bytes) :=
  omap (fun e => match e with
                 | EvMessage m => if decide (m_qos m = Reliable) then Some (m_seq m, m_payload m)
                                  else None
                 | _ => None
                 end) l.

Lemma sent_datagrams_app l k : sent_datagrams (l ++ k) = sent_datagrams l ++ sent_datagrams k.
Proof. apply omap_app. Qed.
Lemma delivered_app l k : delivered (l ++ k) = delivered l ++ delivered k.
Proof. apply omap_app. Qed.

(** Where nothing is asked of the protections. *)
Definition any_sound {P} : Sound P := fun _ => True.

Section Facts.
Context {P Io : Type} `{PacketProtection P} `{Sound P} `{DatagramIo Io} `{Sodium}.
Abbreviation Conn := (Connection P Io).

Definition sent_log (c : Conn) : list bytes := sent_datagrams (log_ (endpoint_ c)).
Definition delivered_log (c : Conn) : list (Z * bytes) := delivered (log_ (endpoint_ c)).

(** ** Frames

    What an operation of the sending side cannot touch: everything the
    receiving side keeps, and what it delivered. *)

Definition rx_view (c : Conn) :=
  (rx_rel_ c, rx_rel_next_deliver_ c, rx_rel_hold_ c, on_message_ c,
   reliable_window (params_ c), delivered_log c).
Definition tx_view (c : Conn) :=
  (tx_seq_rel_ c, outstanding_ c, st_reliable_lost (stats_ c), reliable_window (params_ c)).
Definition path_view (c : Conn) := (peer_ c, last_auth_rx_ms_ c).
Definition id_view (c : Conn) := (id_ c, protection_ c).

(** An id of the right length, and a protection of the run. *)
Definition keyed (c : Conn) : Prop :=
  length (id_ c) = kAssocIdBytes /\ forall p, protection_ c = Some p -> sound p.
Lemma keyed_view c c' : id_view c' = id_view c -> keyed c -> keyed c'.
Proof. unfold keyed. by intros [= -> ->]. Qed.

(** A datagram of a packet of this type, number and payload, made by some
    state of an association [keyed] as this says. *)
Definition origin (t : PacketType) (s : Z) (p : bytes) (d : bytes) : Prop :=
  exists (c : Conn) (now : Z) (k : option PeerKey),
    keyed c /\ PacketDatagram c t s p now k = Ok d.

(** The datagrams [c'] sent since [c] are packets of the given kind. *)
Definition sends (Q : PacketType -> Z -> bytes -> Prop) (c c' : Conn) : Prop :=
  exists new, sent_log c' = sent_log c ++ new
    /\ Forall (fun d => exists t s p, origin t s p d /\ Q t s p) new.

Lemma sends_refl Q c c' : sent_log c' = sent_log c -> sends Q c c'.
Proof. intros Heq. exists []. by rewrite app_nil_r. Qed.
Lemma sends_trans Q c1 c2 c3 : sends Q c1 c2 -> sends Q c2 c3 -> sends Q c1 c3.
Proof.
  intros (n1 & H1' & F1) (n2 & H2' & F2). exists (n1 ++ n2).
  rewrite H2', H1', app_assoc. split; [done|]. by apply Forall_app_2.
Qed.
Lemma sends_mono (Q R : PacketType -> Z -> bytes -> Prop) c c' :
  (forall t s p, Q t s p -> R t s p) -> sends Q c c' -> sends R c c'.
Proof.
  intros Hi (n & Hn & HF). exists n. split; [done|]. eapply Forall_impl; [exact HF|]. naive_solver.
Qed.

Lemma SendPacket_spec (c : Conn) t s p now k :
  exists u h, (SendPacket c t s p now k).1 = c <| peer_unreachable_ := u |> <| endpoint_ := h |>
    /\ clock_ h = clock_ (endpoint_ c) /\ unregistered h = unregistered (endpoint_ c)
    /\ ((h = endpoint_ c /\ forall d, PacketDatagram c t s p now k <> Ok d)
        \/ exists d, PacketDatagram c t s p now k = Ok d
            /\ log_ h = log_ (endpoint_ c) ++ [EvSendTo (peer_ c) d]).
Proof.
  unfold SendPacket. destruct (PacketDatagram c t s p now k) as [d|e] eqn:Hd.
  - unfold SendRaw. destruct (SendTo _ _ _) as [io [v|er]];
      [|destruct (IsUnreachableSendError er)]; simpl.
    1: exists (peer_unreachable_ c). 2: exists true. 3: exists (peer_unreachable_ c).
    all: eexists; split; [by destruct c|]; simpl; split; [done|]; split; [done|];
      right; exists d; auto.
  - exists (peer_unreachable_ c), (endpoint_ c). split; [by destruct c|]. simpl. naive_solver.
Qed.

Lemma SendPacket_views (c : Conn) t s p now k :
  let c' := (SendPacket c t s p now k).1 in
  rx_view c' = rx_view c /\ tx_view c' = tx_view c /\ path_view c' = path_view c
  /\ id_view c' = id_view c /\ rx_be_ c' = rx_be_ c.
Proof.
  destruct (SendPacket_spec c t s p now k) as (u & h & Heq & _ & _ & Hlog). cbv zeta.
  rewrite Heq. unfold rx_view, tx_view, path_view, delivered_log. simpl.
  destruct Hlog as [[-> _]|(d & _ & ->)]; [done|]. by rewrite delivered_app, app_nil_r.
Qed.

Lemma SendPacket_sends (c : Conn) t s p now k :
  keyed c ->
  sends (fun t' s' p' => t' = t /\ s' = s /\ p' = p) c (SendPacket c t s p now k).1.
Proof.
  intros Hid. destruct (SendPacket_spec c t s p now k) as (u & h & Heq & _ & _ & Hlog).
  rewrite Heq. destruct Hlog as [[-> _]|(d & Hd & Hl)]; [by apply sends_refl|].
  exists [d]. unfold sent_log. simpl. rewrite Hl, sent_datagrams_app. split; [done|].
  repeat constructor. exists t, s, p. split; [|done]. by exists c, now, k.
Qed.

(** ** Receiver

    [good i p]: [p] is the payload numbered [i].  With a handler set, what the
    replay window has taken is exactly what was delivered or is held, and
    delivery has reached the first hole. *)
Record rx_inv (good : Z -> bytes -> Prop) (c : Conn) : Prop := {
  rxi_handler : on_message_ c = true;
  rxi_window : window_ok (rx_rel_ c);
  rxi_strict : slide_on_gap_ (rx_rel_ c) = false;
  rxi_size : window_size_ (rx_rel_ c) < 2 ^ 32;
  rxi_u32 : forall x, seen (rx_rel_ c) x -> x < 2 ^ 32;
  rxi_next : rx_rel_next_deliver_ c = u32 (last_contiguous_ (rx_rel_ c) + 1);
  rxi_dom : dom (rx_rel_hold_ c) = pending_ (rx_rel_ c);
  rxi_order : (delivered_log c).*1 = seqZ 1 (last_contiguous_ (rx_rel_ c));
  rxi_delivered : Forall (fun '(i, p) => good i p) (delivered_log c);
  rxi_held : map_Forall (fun i h => good i (hr_payload h)) (rx_rel_hold_ c);
  rxi_room : Z.of_nat (base.size (rx_rel_hold_ c)) <= reliable_window (params_ c);
}.

Lemma rx_inv_view good c c' : rx_view c' = rx_view c -> rx_inv good c -> rx_inv good c'.
Proof.
  unfold rx_view. intros [= Hrel Hnext Hhold Hmsg Hwin Hlog] [].
  split; rewrite ?Hrel, ?Hnext, ?Hhold, ?Hmsg, ?Hwin, ?Hlog; done.
Qed.

Lemma rx_inv_last good c : rx_inv good c ->
  0 <= last_contiguous_ (rx_rel_ c) < 2 ^ 32.
Proof.
  intros Hi. destruct (ok_last _ (rxi_window _ _ Hi)) as [? _]. split; [done|].
  destruct (decide (last_contiguous_ (rx_rel_ c) = 0)) as [->|]; [done|].
  apply (rxi_u32 _ _ Hi). left. lia.
Qed.

(** One run of the delivery loop from number [n] (unwrapped): it stops at the
    first number not held, having taken out and delivered all before it. *)
Lemma DeliverLoop_spec fuel (c : Conn) n :
  rx_rel_next_deliver_ c = u32 n -> 1 <= n <= 2 ^ 32 ->
  (forall x, x ∈ dom (rx_rel_hold_ c) -> n <= x < 2 ^ 32) ->
  (base.size (rx_rel_hold_ c) < fuel)%nat ->
  exists m e hold', DeliverLoop fuel c
      = c <| rx_rel_hold_ := hold' |> <| rx_rel_next_deliver_ := u32 m |> <| endpoint_ := e |>
    /\ n <= m <= 2 ^ 32 /\ m ∉ dom hold'
    /\ (forall x, hold' !! x = if decide (n <= x < m) then None else rx_rel_hold_ c !! x)
    /\ (forall x, n <= x < m -> x ∈ dom (rx_rel_hold_ c))
    /\ exists new, log_ e = log_ (endpoint_ c) ++ new /\ sent_datagrams new = []
       /\ (delivered new).*1 = seqZ n (m - n)
       /\ Forall (fun '(i, p) => exists b, rx_rel_hold_ c !! i = Some (MkHeld b p)) (delivered new).
Proof.
  revert c n. induction fuel as [|fuel IH]; intros c n Hnext Hn Hdom Hfuel; [lia|].
  simpl. rewrite Hnext.
  destruct (rx_rel_hold_ c !! u32 n) as [held|] eqn:Hheld.
  - assert (Hin : u32 n ∈ dom (rx_rel_hold_ c)) by (apply elem_of_dom; eauto).
    assert (Hlt : n < 2 ^ 32).
    { destruct (decide (n = 2 ^ 32)) as [->|]; [|lia].
      destruct (Hdom _ Hin) as [Hle _]. unfold u32 in Hle. rewrite Z.mod_same in Hle; lia. }
    rewrite (u32_id n) in * by (unfold is_u32; lia).
    set (c1 := c <| rx_rel_hold_ ::= delete n |> <| rx_rel_next_deliver_ ::= fun x => u32 (x + 1) |>
                 <| endpoint_ ::= emit (EvMessage (MkMessage (id_ c) n Reliable (hr_sealed held)
                                                     (hr_payload held))) |>).
    edestruct (IH c1 (n + 1)) as (m & e & hold' & Heq & Hm & Hnm & Hlook & Hall & new & Hlog & Hs & Hseq & HF).
    + subst c1. simpl. rewrite Hnext. done.
    + lia.
    + subst c1. simpl. intros x. rewrite dom_delete, elem_of_difference, elem_of_singleton.
      intros [Hx Hne]. specialize (Hdom _ Hx). lia.
    + subst c1. simpl. rewrite map_size_delete, Hheld.
      assert (base.size (rx_rel_hold_ c) <> 0)%nat; [|lia].
      intros Hz%map_size_empty_inv. by rewrite Hz, lookup_empty in Hheld.
    + exists m, e, hold'.
      split; [subst c1; simpl in *; rewrite Heq; reflexivity|]. split; [lia|]. split; [done|].
      split; [|split].
      * intros x. rewrite Hlook. subst c1. simpl. repeat case_decide; try lia; try done.
        -- assert (x = n) as -> by lia. by rewrite lookup_delete_eq.
        -- rewrite lookup_delete_ne by lia. done.
      * intros x Hx. destruct (decide (x = n)) as [->|]; [done|].
        assert (Hx' : x ∈ dom (rx_rel_hold_ c1)) by (apply Hall; lia).
        subst c1. simpl in Hx'. rewrite dom_delete in Hx'. by apply elem_of_difference in Hx' as [? _].
      * eexists (_ :: new). split; [rewrite Hlog; subst c1; simpl; by rewrite <- app_assoc|].
        split; [exact Hs|].
        change (delivered (_ :: new)) with ((n, hr_payload held) :: delivered new). split.
        -- rewrite fmap_cons, Hseq. rewrite (seqZ_cons n (m - n)) by lia. f_equal; f_equal; lia.
        -- constructor; [exists (hr_sealed held); by rewrite Hheld; destruct held|].
           eapply Forall_impl; [exact HF|]. intros [i p] [b Hb]. exists b. subst c1. simpl in Hb.
           by apply lookup_delete_Some in Hb as [_ ?].
  - exists n, (endpoint_ c), (rx_rel_hold_ c). split; [by rewrite <- Hnext; destruct c|].
    split; [lia|]. split.
    { destruct (decide (n = 2 ^ 32)) as [->|].
      - intros Hin. specialize (Hdom _ Hin). lia.
      - rewrite u32_id in Hheld by (unfold is_u32; lia). by apply not_elem_of_dom. }
    split; [intros x; case_decide; [lia|done]|]. split; [lia|].
    exists []. rewrite app_nil_r, Z.sub_diag. by split_and!.
Qed.

(** The state between the replay window taking a number and the packet joining
    the hold. *)
Definition rx_mid (good : Z -> bytes -> Prop) (s : Z) (c : Conn) : Prop :=
  exists c0, rx_inv good c0 /\ Classify (rx_rel_ c0) s = Fresh
    /\ (Z.of_nat (base.size (rx_rel_hold_ c0)) < reliable_window (params_ c0)
        \/ s = rx_rel_next_deliver_ c0)
    /\ rx_view c = rx_view (c0 <| rx_rel_ := (Accept (rx_rel_ c0) s).1 |>).

Lemma rx_inv_number good c s : rx_inv good c -> is_u32 s -> number_ok (rx_rel_ c) s.
Proof.
  intros Hi Hs. unfold number_ok, is_u32 in *. pose proof (rxi_size _ _ Hi). lia.
Qed.

(** What the delivery loop leaves behind agrees with the window that took [s]:
    both are determined by the set of numbers kept. *)
Lemma deliver_window (w w' : ReplayWindow) (hold hold' : gmap Z HeldReliable) s h m :
  window_ok w -> window_ok w' -> dom hold = pending_ w -> last_contiguous_ w < s ->
  (forall x, seen w' x <-> seen w x \/ x = s) ->
  last_contiguous_ w + 1 <= m ->
  m ∉ dom hold' ->
  (forall x, hold' !! x = if decide (last_contiguous_ w + 1 <= x < m) then None
                          else <[s := h]> hold !! x) ->
  (forall x, last_contiguous_ w + 1 <= x < m -> x ∈ dom (<[s := h]> hold)) ->
  last_contiguous_ w' = m - 1 /\ dom hold' = pending_ w' /\ (s < m -> hold' ⊆ hold).
Proof.
  intros Hok Hok' Hdom Hs Hseen Hm Hnot Hlook Hall.
  set (L := last_contiguous_ w) in *. destruct (ok_last _ Hok) as [HL0 _]. fold L in HL0.
  assert (Hin1 : forall x, x ∈ dom (<[s := h]> hold) <-> x = s \/ x ∈ pending_ w).
  { intros x. rewrite dom_insert, Hdom, elem_of_union, elem_of_singleton. done. }
  assert (Hlast : last_contiguous_ w' = m - 1).
  { apply window_last_unique; [done|lia| |].
    - intros x Hx. apply Hseen. destruct (decide (x <= L)); [by left; left; fold L; lia|].
      destruct (proj1 (Hin1 x) (Hall x ltac:(lia))) as [->|?]; [by right|by left; right].
    - intros [Hm'|Hm']%Hseen.
      + destruct Hm' as [Hle|Hp]; [fold L in Hle; lia|].
        apply Hnot, elem_of_dom. rewrite Hlook. rewrite decide_False by lia.
        apply elem_of_dom, Hin1. by right.
      + subst m. apply Hnot, elem_of_dom. rewrite Hlook, decide_False by lia.
        by rewrite lookup_insert_eq. }
  split; [done|]. split.
  - apply set_eq. intros x. rewrite (window_pending_iff _ _ Hok'), Hlast, Hseen, elem_of_dom, Hlook.
    case_decide as Hx.
    + split; [by intros []|]. intros [_ ?]. lia.
    + rewrite <- elem_of_dom, Hin1, (window_pending_iff _ _ Hok). fold L. naive_solver lia.
  - intros Hsm. apply map_subseteq_spec. intros x v. rewrite Hlook. case_decide; [done|].
    rewrite lookup_insert_ne by lia. done.
Qed.

(** The hold never outgrows the reliable window. *)
Lemma deliver_room (hold hold' : gmap Z HeldReliable) s h m L next window :
  (forall x, hold' !! x = if decide (L + 1 <= x < m) then None else <[s := h]> hold !! x) ->
  (s < m -> hold' ⊆ hold) -> m ∉ dom hold' ->
  Z.of_nat (base.size hold) <= window ->
  L < s < 2 ^ 32 -> 0 <= L -> L + 1 <= m -> next = u32 (L + 1) ->
  Z.of_nat (base.size hold) < window \/ s = next ->
  Z.of_nat (base.size hold') <= window.
Proof.
  intros Hlook Hsub Hnm Hle Hs HL Hm Hnext Hroom.
  destruct (decide (s < m)) as [Hsm|Hsm].
  { pose proof (map_subseteq_size _ _ (Hsub Hsm)). lia. }
  destruct Hroom as [Hlt|Heq].
  - assert (Hsub1 : hold' ⊆ <[s := h]> hold).
    { apply map_subseteq_spec. intros x v. rewrite Hlook. by case_decide. }
    apply map_subseteq_size in Hsub1. rewrite map_size_insert in Hsub1.
    destruct (hold !! s); unfold Datatypes.id in Hsub1; lia.
  - rewrite Hnext in Heq. rewrite u32_id in Heq by (unfold is_u32; lia). subst next.
    assert (m = s) as -> by lia. destruct Hnm. apply elem_of_dom.
    rewrite Hlook, decide_False by lia. by rewrite lookup_insert_eq.
Qed.

(** Delivery from the state with the packet in the hold. *)
Lemma deliver_held good s b p (c0 c : Conn) :
  rx_inv good c0 -> is_u32 s -> good s p -> Classify (rx_rel_ c0) s = Fresh ->
  (Z.of_nat (base.size (rx_rel_hold_ c0)) < reliable_window (params_ c0)
   \/ s = rx_rel_next_deliver_ c0) ->
  rx_view c = rx_view (c0 <| rx_rel_ := (Accept (rx_rel_ c0) s).1 |>) ->
  let c' := DeliverReliableInOrder (c <| rx_rel_hold_ ::= insert s (MkHeld b p) |>) in
  rx_inv good c' /\ rx_rel_ c' = rx_rel_ c /\ seen (rx_rel_ c) s
  /\ tx_view c' = tx_view c /\ path_view c' = path_view c /\ sent_log c' = sent_log c
  /\ id_view c' = id_view c /\ rx_be_ c' = rx_be_ c.
Proof.
  intros Hi Hs Hgood Hfresh Hroom Hview. cbv zeta.
  unfold rx_view in Hview. simpl in Hview.
  injection Hview as Hrel Hnext Hhold Hmsg Hwin Hlog.
  destruct (Accept (rx_rel_ c0) s) as [w' fr] eqn:Hacc. simpl in Hrel.
  pose proof (rx_inv_last _ _ Hi) as HL.
  destruct (accept_spec _ _ _ _ (rxi_window _ _ Hi) (rx_inv_number _ _ _ Hi Hs) Hacc)
    as [Hok' Hsz Hsl Hfr Hnew Hkept _ Hstrict _].
  assert (fr = true) as -> by (by apply Hfr). clear Hfr.
  destruct (Hnew eq_refl) as [Hns Hss]. specialize (Hstrict (rxi_strict _ _ Hi)).
  assert (Hseen : forall x, seen w' x <-> seen (rx_rel_ c0) x \/ x = s)
    by (intros x; split; [naive_solver|intros [?| ->]; auto]).
  assert (HsL : last_contiguous_ (rx_rel_ c0) < s).
  { destruct (Z.lt_ge_cases (last_contiguous_ (rx_rel_ c0)) s) as [?|Hge]; [done|].
    destruct (decide (s = 0)) as [->|]; [by unfold Classify in Hfresh|].
    destruct Hns. left. unfold is_u32 in *. lia. }
  set (c1 := c <| rx_rel_hold_ ::= insert s (MkHeld b p) |>).
  assert (Hon : on_message_ c1 = true) by (subst c1; simpl; by rewrite Hmsg, (rxi_handler _ _ Hi)).
  unfold DeliverReliableInOrder. rewrite Hon. cbn [negb].
  edestruct (DeliverLoop_spec (S (base.size (rx_rel_hold_ c1))) c1
               (last_contiguous_ (rx_rel_ c0) + 1))
    as (m & e & hold' & Heq & Hm & Hnm & Hlook & Hall & new & Hlog' & Hs' & Hseq & HF).
  { subst c1. simpl. by rewrite Hnext, (rxi_next _ _ Hi). }
  { lia. }
  { subst c1. simpl. intros x. rewrite Hhold, dom_insert, elem_of_union, elem_of_singleton, (rxi_dom _ _ Hi).
    intros [->|Hx]; [unfold is_u32 in Hs; lia|].
    destruct (ok_pending _ (rxi_window _ _ Hi) _ Hx) as [? _].
    pose proof (rxi_u32 _ _ Hi x (or_intror Hx)). lia. }
  { lia. }
  rewrite Heq. subst c1. simpl in Hlook, Hall, HF, Hlog'. rewrite Hhold in Hlook, Hall, HF.
  destruct (deliver_window (rx_rel_ c0) w' (rx_rel_hold_ c0) hold' s (MkHeld b p) m)
    as (Hlast & Hdom' & Hsub); auto; try lia; [apply (rxi_window _ _ Hi)|apply (rxi_dom _ _ Hi)|].
  unfold tx_view, path_view, id_view, sent_log. simpl.
  split; [|rewrite Hlog', sent_datagrams_app, Hs', app_nil_r, Hrel; by split_and!].
  assert (Hgood1 : forall i h, <[s := MkHeld b p]> (rx_rel_hold_ c0) !! i = Some h ->
            good i (hr_payload h)).
  { intros i h [[<- <-]|[_ Hh]]%lookup_insert_Some; [done|]. apply (rxi_held _ _ Hi _ _ Hh). }
  assert (Hdel : delivered (log_ e) = delivered_log c0 ++ delivered new).
  { rewrite Hlog', delivered_app. f_equal. exact Hlog. }
  split; simpl.
  - by rewrite Hmsg, (rxi_handler _ _ Hi).
  - by rewrite Hrel.
  - by rewrite Hrel, Hsl, (rxi_strict _ _ Hi).
  - rewrite Hrel, Hsz. apply (rxi_size _ _ Hi).
  - rewrite Hrel. intros x [Hx| ->]%Hseen; [by apply (rxi_u32 _ _ Hi)|unfold is_u32 in Hs; lia].
  - rewrite Hrel, Hlast. f_equal. lia.
  - by rewrite Hrel, Hdom'.
  - change (delivered_log _) with (delivered (log_ e)).
    rewrite Hdel, fmap_app, (rxi_order _ _ Hi), Hseq, Hrel, Hlast.
    replace (m - 1) with (last_contiguous_ (rx_rel_ c0) + (m - 1 - last_contiguous_ (rx_rel_ c0))) by lia.
    rewrite seqZ_app by lia. f_equal. f_equal; lia.
  - change (delivered_log _) with (delivered (log_ e)).
    rewrite Hdel. apply Forall_app_2; [apply (rxi_delivered _ _ Hi)|].
    eapply Forall_impl; [exact HF|]. intros [i q] [b' Hb']. apply (Hgood1 _ _ Hb').
  - intros i h. rewrite Hlook. case_decide; [done|]. apply Hgood1.
  - rewrite Hwin. unfold is_u32 in Hs.
    apply (deliver_room _ _ _ _ _ _ _ _ Hlook Hsub Hnm (rxi_room _ _ Hi)
             ltac:(lia) ltac:(lia) ltac:(lia) (rxi_next _ _ Hi) Hroom).
Qed.

(** ** Operations that leave the receiver alone *)

Record frame (Q : PacketType -> Z -> bytes -> Prop) (c c' : Conn) : Prop := {
  fr_rx : rx_view c' = rx_view c;
  fr_id : id_view c' = id_view c;
  fr_sends : sends Q c c';
}.

Lemma frame_trans Q c1 c2 c3 : frame Q c1 c2 -> frame Q c2 c3 -> frame Q c1 c3.
Proof.
  intros [? ? ?] [? ? ?]. split; [congruence..|]. by eapply sends_trans.
Qed.
Lemma frame_same Q (c c' : Conn) :
  rx_view c' = rx_view c -> id_view c' = id_view c -> sent_log c' = sent_log c -> frame Q c c'.
Proof. intros. split; auto. by apply sends_refl. Qed.
Lemma frame_refl Q (c : Conn) : frame Q c c.
Proof. by apply frame_same. Qed.
Lemma frame_mono (Q R : PacketType -> Z -> bytes -> Prop) c c' :
  (forall t s p, Q t s p -> R t s p) -> frame Q c c' -> frame R c c'.
Proof. intros Hi [? ? ?]. split; auto. by eapply sends_mono. Qed.

Lemma SendPacket_frame (Q : PacketType -> Z -> bytes -> Prop) (c : Conn) t s p now k :
  keyed c -> Q t s p -> frame Q c (SendPacket c t s p now k).1.
Proof.
  intros Hid HQ. destruct (SendPacket_views c t s p now k) as (? & _ & _ & ? & _). split; auto.
  eapply sends_mono; [|by apply SendPacket_sends]. by intros ??? (-> & -> & ->).
Qed.

(** Packets of no data; an acknowledgement only of a number the window [w] has
    (0 is the number of no data packet). *)
Definition IsData (t : PacketType) : bool := IsReliableData t || IsBestEffortData t.
Definition control (w : ReplayWindow) (t : PacketType) (s : Z) (_ : bytes) : Prop :=
  is_u32 s /\ IsData t = false /\ (t = Ack -> s = 0 \/ seen w s).

Lemma control_zero w t p : IsData t = false -> control w t 0 p.
Proof. intros Ht. split; [done|]. split; [done|]. intros _. by left. Qed.

Lemma control_duplicate w s p : window_ok w -> is_u32 s -> Classify w s = Duplicate -> control w Ack s p.
Proof.
  intros Hok Hs Hd. split; [done|]. split; [done|]. intros _.
  apply (classify_duplicate _ _ Hok); [unfold is_u32 in Hs; lia|done].
Qed.

Lemma SetPeerEndpoint_frame Q (c : Conn) e :
  frame Q c (SetPeerEndpoint c e) /\ tx_view (SetPeerEndpoint c e) = tx_view c.
Proof.
  unfold SetPeerEndpoint. destruct (endpoint_eqb _ _); [by split; [apply frame_refl|]|]. simpl.
  destruct (on_path_change_ c); (split; [apply frame_same|]); try done.
  - unfold rx_view, delivered_log. simpl. by rewrite delivered_app, app_nil_r.
  - unfold sent_log. simpl. by rewrite sent_datagrams_app, app_nil_r.
Qed.

Lemma MaybeLearnPath_frame Q (c : Conn) e :
  frame Q c (MaybeLearnPath c e) /\ tx_view (MaybeLearnPath c e) = tx_view c.
Proof.
  unfold MaybeLearnPath. destruct (forallb _ _); [apply SetPeerEndpoint_frame|].
  destruct (negb _); [apply SetPeerEndpoint_frame|]. split; [apply frame_refl|done].
Qed.

Lemma NoteFresh_frame Q (c : Conn) from fresh now :
  frame Q c (NoteFresh c from fresh now) /\ tx_view (NoteFresh c from fresh now) = tx_view c.
Proof.
  unfold NoteFresh. destruct fresh; [|by split; [apply frame_refl|]].
  destruct (MaybeLearnPath_frame Q (c <| last_auth_rx_ms_ := now |>) from) as [Hf Ht]. split.
  - eapply frame_trans; [|exact Hf]. by apply frame_same.
  - by rewrite Ht.
Qed.

Lemma NoteTimestamp_frame Q (c : Conn) pkt :
  frame Q c (NoteTimestamp c pkt) /\ tx_view (NoteTimestamp c pkt) = tx_view c.
Proof.
  unfold NoteTimestamp. destruct (_ && _); (split; [by apply frame_same|done]).
Qed.

Lemma SendKeepalivePacket_frame w (c : Conn) now i f :
  keyed c ->
  frame (control w) c (SendKeepalivePacket c now i f).1
  /\ tx_view (SendKeepalivePacket c now i f).1 = tx_view c.
Proof.
  intros Hid. unfold SendKeepalivePacket. destruct (closed_ c); [by split; [apply frame_refl|]|].
  destruct (_ =? _); [by split; [apply frame_refl|]|]. split; [|apply SendPacket_views].
  apply SendPacket_frame; [done|]. by apply control_zero.
Qed.

Lemma HandleKeepalive_frame w (c : Conn) pkt now :
  keyed c ->
  frame (control w) c (HandleKeepalive c pkt now) /\ tx_view (HandleKeepalive c pkt now) = tx_view c.
Proof.
  intros Hid. unfold HandleKeepalive. destruct (_ <? _); [by split; [apply frame_refl|]|]. cbv zeta.
  set (c1 := c <| peer_keepalive_interval_ms_ := _ |>).
  assert (H1' : frame (control w) c c1) by (by apply frame_same).
  destruct (negb _); [|done].
  destruct (SendKeepalivePacket_frame w c1 now (local_keepalive_interval_ms_ c1) 0) as [Hf Ht]; [done|].
  split; [by eapply frame_trans|by rewrite Ht].
Qed.

Lemma HandleClose_frame Q (c : Conn) :
  frame Q c (HandleClose c) /\ tx_view (HandleClose c) = tx_view c.
Proof. unfold HandleClose. destruct (_ && _); (split; [by apply frame_same|done]). Qed.

Lemma HandleBestEffort_frame Q (c : Conn) pkt f :
  frame Q c (HandleBestEffort c pkt f) /\ tx_view (HandleBestEffort c pkt f) = tx_view c.
Proof.
  unfold HandleBestEffort. destruct (negb f); [by split; [apply frame_refl|]|].
  destruct (on_message_ c) eqn:Hm; [|by split; [apply frame_refl|]]. split; [apply frame_same|]; try done.
  - unfold rx_view, delivered_log. simpl. by rewrite delivered_app, app_nil_r.
  - unfold sent_log. simpl. by rewrite sent_datagrams_app, app_nil_r.
Qed.

Lemma NoteRttSample_frame Q (c : Conn) rtt :
  frame Q c (NoteRttSample c rtt) /\ tx_view (NoteRttSample c rtt) = tx_view c.
Proof.
  unfold NoteRttSample, Host_NoteRttSample.
  assert (forall c1 : Conn, rx_view c1 = rx_view c /\ id_view c1 = id_view c
            /\ sent_log c1 = sent_log c /\ tx_view c1 = tx_view c ->
          frame Q c c1 /\ tx_view c1 = tx_view c) as Hx
    by (intros c1 (?&?&?&?); split; [by apply frame_same|done]).
  apply Hx. cbv zeta. unfold rx_view, sent_log, delivered_log, tx_view, id_view. simpl.
  destruct (srtt_ms (stats_ c) <? 0); simpl; destruct (rtt_observer_ (endpoint_ c)); simpl;
    rewrite ?delivered_app, ?sent_datagrams_app, ?app_nil_r; by split_and!.
Qed.

Lemma RefusePlainAfterKeys_frame good (c : Conn) pkt :
  rx_inv good c -> is_u32 (seq pkt) -> keyed c ->
  let c' := (RefusePlainAfterKeys c pkt).1 in
  frame (control (rx_rel_ c)) c c'
  /\ tx_view c' = tx_view c.
Proof.
  intros Hi Hs Hid. cbv zeta. unfold RefusePlainAfterKeys.
  destruct (_ || _); [by split; [apply frame_refl|]|].
  destruct (type pkt); try (by split; [apply frame_refl|]).
  case_decide as Hdup; [|by split; [apply frame_refl|]]. simpl.
  split; [|apply SendPacket_views]. apply SendPacket_frame; [done|].
  apply control_duplicate; [apply (rxi_window _ _ Hi)|done..].
Qed.

(** ** Receiving *)

(** Packets leave [outstanding_] only if [A] holds of their number. *)
Record tx_acked (A : Z -> Prop) (c c' : Conn) : Prop := {
  ta_seq : tx_seq_rel_ c' = tx_seq_rel_ c;
  ta_lost : st_reliable_lost (stats_ c') = st_reliable_lost (stats_ c);
  ta_window : reliable_window (params_ c') = reliable_window (params_ c);
  ta_sublist : outstanding_ c' `sublist_of` outstanding_ c;
  ta_kept : forall o, o ∈ outstanding_ c -> o ∈ outstanding_ c' \/ A (o_seq o);
}.

Lemma tx_acked_same A (c c' : Conn) : tx_view c' = tx_view c -> tx_acked A c c'.
Proof. intros [= Hs Ho Hl Hw]. split; rewrite ?Ho; auto. Qed.

Lemma tx_acked_trans A (c1 c2 c3 : Conn) : tx_acked A c1 c2 -> tx_acked A c2 c3 -> tx_acked A c1 c3.
Proof.
  intros [? ? ? ? Hk1] [? ? ? ? Hk2]. split; try congruence; [by etrans|].
  intros o Ho. destruct (Hk1 o Ho) as [Ho2|?]; [|by right]. by apply Hk2.
Qed.

(** What handling one received packet does. *)
Record receive_post (good : Z -> bytes -> Prop) (A : Z -> Prop) (c c' : Conn) : Prop := {
  rp_rx : rx_inv good c';
  rp_seen : forall x, seen (rx_rel_ c) x -> seen (rx_rel_ c') x;
  rp_id : id_view c' = id_view c;
  rp_sends : sends (control (rx_rel_ c')) c c';
  rp_tx : tx_acked A c c';
}.

Lemma frame_receive good A (c c' : Conn) :
  rx_inv good c -> frame (control (rx_rel_ c)) c c' -> tx_acked A c c' -> receive_post good A c c'.
Proof.
  intros Hi [Hrx Hid Hs] Ht. pose proof Hrx as [= Hrel _ _ _ _ _].
  split; auto; [by eapply rx_inv_view|by rewrite Hrel|by rewrite Hrel].
Qed.

Lemma HandleAck_frame (c : Conn) pkt now :
  frame (control (rx_rel_ c)) c (HandleAck c pkt now)
  /\ tx_acked (fun s => s = seq pkt) c (HandleAck c pkt now).
Proof.
  unfold HandleAck. set (c1 := match list_find _ _ with Some _ => _ | None => _ end).
  assert (H1' : frame (control (rx_rel_ c)) c c1 /\ tx_view c1 = tx_view c).
  { subst c1. destruct (list_find _ _) as [[i o]|]; [apply NoteRttSample_frame|].
    by split; [apply frame_refl|]. }
  destruct H1' as [Hf Ht]. split.
  - eapply frame_trans; [exact Hf|]. by apply frame_same.
  - injection Ht as Hs Ho Hl Hw. split; simpl; rewrite ?Ho; auto.
    + apply sublist_filter.
    + intros o Hin. destruct (decide (o_seq o = seq pkt)); [by right|].
      left. by apply list_elem_of_filter.
Qed.

Lemma HandlePreUpgradeKeyPacket_post good (c : Conn) pkt now :
  rx_inv good c -> is_u32 (seq pkt) -> keyed c ->
  receive_post good (fun s => type pkt = Ack /\ s = seq pkt) c (HandlePreUpgradeKeyPacket c pkt now).
Proof.
  intros Hi Hs Hid. unfold HandlePreUpgradeKeyPacket.
  assert (Hr : receive_post good (fun s => type pkt = Ack /\ s = seq pkt) c c)
    by (apply frame_receive; [done|apply frame_refl|by apply tx_acked_same]).
  destruct (negb _); [done|]. destruct (type pkt) eqn:Ht; try done.
  - apply frame_receive; [done|by apply frame_same|]. split; simpl; auto.
    + apply sublist_filter.
    + intros o Ho. destruct (decide (before_upgrade o = true /\ o_seq o = seq pkt)) as [[_ ?]|];
        [by right|]. left. by apply list_elem_of_filter.
  - case_decide as Hdup; [|done]. destruct (SendPacket_views c Ack (seq pkt) [] now (pre_upgrade_key_ c))
      as (_ & Htx & _). apply frame_receive; [done| |by apply tx_acked_same].
    apply SendPacket_frame; [done|]. apply control_duplicate; [apply (rxi_window _ _ Hi)|done..].
Qed.

(** Handling of reliable data: [c1] is the state once the window classified
    it. *)
Lemma HandleReliable_kept good (c0 c : Conn) pkt now :
  rx_inv good c0 -> is_u32 (seq pkt) -> good (seq pkt) (payload pkt) ->
  keyed c -> id_view c = id_view c0 -> tx_view c = tx_view c0 ->
  sent_log c = sent_log c0 ->
  Classify (rx_rel_ c0) (seq pkt) = Fresh ->
  (Z.of_nat (base.size (rx_rel_hold_ c0)) < reliable_window (params_ c0)
   \/ seq pkt = rx_rel_next_deliver_ c0) ->
  rx_view c = rx_view (c0 <| rx_rel_ := (Accept (rx_rel_ c0) (seq pkt)).1 |>) ->
  receive_post good (fun _ => False) c0 (HandleReliable c pkt true true now)
  /\ seen (rx_rel_ (HandleReliable c pkt true true now)) (seq pkt).
Proof.
  intros Hi Hs Hgood Hid Hidv Htx0 Hsl0 Hfresh Hroom Hview. unfold HandleReliable. cbn [negb].
  destruct (SendPacket_views c Ack (seq pkt) [] now None) as (Hrx1 & Htx1 & _ & Hid1 & _).
  pose proof (SendPacket_sends c Ack (seq pkt) [] now None Hid) as Hsends.
  set (c1 := (SendPacket c Ack (seq pkt) [] now None).1) in *.
  rewrite Hview in Hrx1. pose proof Hrx1 as [= Hrel1 _ _ Hmsg1 _ _]. simpl in Hmsg1.
  rewrite Hmsg1, (rxi_handler _ _ Hi).
  destruct (deliver_held good (seq pkt) (IsSealed (type pkt)) (payload pkt) c0 c1)
    as (Hi' & Hrel' & Hseen & Htx & _ & Hsl & Hid' & _); auto.
  split; [|by rewrite Hrel'].
  split; auto.
  - rewrite Hrel', Hrel1. simpl. intros x Hx.
    destruct (Accept (rx_rel_ c0) (seq pkt)) as [w' b] eqn:Hacc.
    eapply (post_kept _ _ _ _ (accept_spec _ _ _ _ (rxi_window _ _ Hi)
              (rx_inv_number _ _ _ Hi Hs) Hacc) x Hx).
  - by rewrite Hid', Hid1.
  - destruct Hsends as (new & Hnew & HF). exists new.
    rewrite Hsl, Hnew, Hsl0. split; [done|]. eapply Forall_impl; [exact HF|].
    intros d (t & s & p & Ho & -> & -> & ->). exists Ack, (seq pkt), []. split; [done|].
    split; [done|]. split; [done|]. intros _. right. by rewrite Hrel'.
  - apply tx_acked_same. by rewrite Htx, Htx1.
Qed.

Lemma HandleReliable_duplicate good (c : Conn) pkt ack now :
  rx_inv good c -> is_u32 (seq pkt) -> keyed c ->
  (ack = true -> Classify (rx_rel_ c) (seq pkt) = Duplicate) ->
  receive_post good (fun _ => False) c (HandleReliable c pkt false ack now).
Proof.
  intros Hi Hs Hid Hdup. unfold HandleReliable. cbn [negb]. destruct ack.
  - destruct (SendPacket_views c Ack (seq pkt) [] now None) as (_ & Htx & _).
    apply frame_receive; [done| |by apply tx_acked_same]. apply SendPacket_frame; [done|].
    apply control_duplicate; [apply (rxi_window _ _ Hi)|done|auto].
  - apply frame_receive; [done|apply frame_refl|by apply tx_acked_same].
Qed.

Lemma RefusePlainAfterKeys_false (c c' : Conn) pkt :
  RefusePlainAfterKeys c pkt = (c', false) -> c' = c.
Proof.
  unfold RefusePlainAfterKeys. destruct (_ || _); [by intros [= <-]|].
  destruct (type pkt); try (by intros [= <-]). by case_decide.
Qed.

(** The window's verdict on reliable data, as the rest of the handler uses it. *)
Inductive classified (c : Conn) (pkt : WirePacket) : Conn -> bool * bool * bool -> Prop :=
  | classified_fresh :
      Classify (rx_rel_ c) (seq pkt) = Fresh ->
      (on_message_ c = true -> Z.of_nat (base.size (rx_rel_hold_ c)) < reliable_window (params_ c)
       \/ seq pkt = rx_rel_next_deliver_ c) ->
      classified c pkt (c <| rx_rel_ := (Accept (rx_rel_ c) (seq pkt)).1 |>) (true, true, true)
  | classified_duplicate :
      Classify (rx_rel_ c) (seq pkt) = Duplicate -> classified c pkt c (false, false, true)
  | classified_dropped : classified c pkt c (false, false, false).

Lemma ClassifyPacket_reliable (c : Conn) pkt :
  window_ok (rx_rel_ c) -> number_ok (rx_rel_ c) (seq pkt) -> IsReliableData (type pkt) = true ->
  classified c pkt (ClassifyPacket c pkt).1 (ClassifyPacket c pkt).2.
Proof.
  intros Hok Hn Ht. assert (ClassifyPacket c pkt = ClassifyReliable c (seq pkt)) as ->
    by (unfold ClassifyPacket; by destruct (type pkt)).
  unfold ClassifyReliable. destruct (Classify _ _) eqn:Hc; [|by constructor|constructor].
  cbv zeta. destruct (_ || _) eqn:Hroom; [|constructor].
  destruct (Accept (rx_rel_ c) (seq pkt)) as [w b] eqn:Hacc.
  assert (b = true) as -> by (apply (post_fresh _ _ _ _ (accept_spec _ _ _ _ Hok Hn Hacc)); done).
  change w with ((w, true).1). rewrite <- Hacc. constructor; [done|].
  intros Hm. rewrite Hm in Hroom. simpl in Hroom.
  apply orb_true_iff in Hroom as [?|?]; [left|right]; lia.
Qed.

Lemma ClassifyPacket_other (c : Conn) pkt :
  IsReliableData (type pkt) = false ->
  rx_view (ClassifyPacket c pkt).1 = rx_view c /\ tx_view (ClassifyPacket c pkt).1 = tx_view c
  /\ id_view (ClassifyPacket c pkt).1 = id_view c
  /\ sent_log (ClassifyPacket c pkt).1 = sent_log c.
Proof.
  unfold ClassifyPacket. destruct (type pkt); simpl; try done; intros _;
    destruct (Accept _ _); done.
Qed.

Lemma receive_post_pre good A (c c2 c' : Conn) :
  rx_view c2 = rx_view c -> id_view c2 = id_view c -> sent_log c2 = sent_log c ->
  tx_view c2 = tx_view c -> receive_post good A c2 c' -> receive_post good A c c'.
Proof.
  intros [= Hrel _ _ _ _ _] Hid Hsl Htx [Hrx Hseen Hid' Hs Ht]. split; auto.
  - by rewrite <- Hrel.
  - congruence.
  - eapply sends_trans; [by apply sends_refl|exact Hs].
  - eapply tx_acked_trans; [by apply tx_acked_same|exact Ht].
Qed.

Lemma frame_none (c c' : Conn) :
  frame (fun _ _ _ => False) c c' -> sent_log c' = sent_log c.
Proof.
  intros [_ _ (new & Hnew & HF)]. destruct new as [|d new]; [by rewrite app_nil_r in Hnew|].
  apply Forall_cons in HF as [(?&?&?&_&[]) _].
Qed.

Lemma NoteFresh_views (c : Conn) pkt from fr now :
  let c' := NoteFresh (NoteTimestamp c pkt) from fr now in
  rx_view c' = rx_view c /\ id_view c' = id_view c /\ sent_log c' = sent_log c
  /\ tx_view c' = tx_view c.
Proof.
  cbv zeta. destruct (NoteTimestamp_frame (fun _ _ _ => False) c pkt) as [Hf1 Ht1].
  destruct (NoteFresh_frame (fun _ _ _ => False) (NoteTimestamp c pkt) from fr now) as [Hf2 Ht2].
  pose proof (frame_trans _ _ _ _ Hf1 Hf2) as Hf. pose proof (frame_none _ _ Hf).
  destruct Hf. split_and!; try done. congruence.
Qed.

Lemma classified_post good (c c1 : Conn) pkt from fr fd ak now :
  rx_inv good c -> is_u32 (seq pkt) -> good (seq pkt) (payload pkt) ->
  keyed c ->
  classified c pkt c1 (fr, fd, ak) ->
  receive_post good (fun _ => False) c
    (HandleReliable (NoteFresh (NoteTimestamp c1 pkt) from fr now) pkt fd ak now).
Proof.
  intros Hi Hs Hg Hid Hcl.
  destruct (NoteFresh_views c1 pkt from fr now) as (Hrx & Hidv & Hsl & Htx).
  set (c2 := NoteFresh (NoteTimestamp c1 pkt) from fr now) in *.
  inversion Hcl as [Hfresh Hroom|Hdup|]; subst.
  - eapply HandleReliable_kept; eauto.
    + by apply (keyed_view _ _ Hidv).
    + by apply Hroom, (rxi_handler _ _ Hi).
  - eapply receive_post_pre; [done..|]. pose proof Hrx as [= Hrel _ _ _ _ _].
    apply HandleReliable_duplicate; [by eapply rx_inv_view|done| |by rewrite Hrel].
    by apply (keyed_view _ _ Hidv).
  - eapply receive_post_pre; [done..|].
    apply HandleReliable_duplicate; [by eapply rx_inv_view|done| |done].
    by apply (keyed_view _ _ Hidv).
Qed.

Lemma receive_post_mono good (A B : Z -> Prop) (c c' : Conn) :
  (forall s, A s -> B s) -> receive_post good A c c' -> receive_post good B c c'.
Proof.
  intros Hi [? ? ? ? [? ? ? ? Hk]]. split; auto. split; auto.
  intros o Ho. destruct (Hk o Ho); auto.
Qed.

(** Handling of an authenticated packet, by kind. *)
Lemma HandleAuthenticated_post good (c : Conn) pkt from now :
  rx_inv good c -> is_u32 (seq pkt) ->
  (IsReliableData (type pkt) = true -> good (seq pkt) (payload pkt)) ->
  keyed c ->
  receive_post good (fun s => type pkt = Ack /\ s = seq pkt) c (HandleAuthenticated c pkt from now).
Proof.
  intros Hi Hs Hg Hid. unfold HandleAuthenticated.
  assert (Hr : receive_post good (fun s => type pkt = Ack /\ s = seq pkt) c c)
    by (apply frame_receive; [done|apply frame_refl|by apply tx_acked_same]).
  destruct (_ && _); [done|].
  destruct (RefusePlainAfterKeys c pkt) as [c1 refused] eqn:Href.
  destruct refused.
  { destruct (RefusePlainAfterKeys_frame good c pkt Hi Hs Hid) as [Hf Ht]. rewrite Href in Hf, Ht.
    apply frame_receive; [done|exact Hf|by apply tx_acked_same]. }
  apply RefusePlainAfterKeys_false in Href as ->. clear Hr.
  destruct (ClassifyPacket c pkt) as [c1 [[fr fd] ak]] eqn:Hclass.
  destruct (IsReliableData (type pkt)) eqn:Hrel.
  { pose proof (ClassifyPacket_reliable c pkt (rxi_window _ _ Hi) (rx_inv_number _ _ _ Hi Hs) Hrel)
      as Hcl. rewrite Hclass in Hcl. simpl in Hcl.
    assert (Hpost : receive_post good (fun s => type pkt = Ack /\ s = seq pkt) c
       (HandleReliable (NoteFresh (NoteTimestamp c1 pkt) from fr now) pkt fd ak now)).
    { eapply receive_post_mono; [|eapply classified_post; eauto]. done. }
    destruct (type pkt); done. }
  destruct (ClassifyPacket_other c pkt Hrel) as (Hrx1 & Htx1 & Hid1 & Hsl1).
  rewrite Hclass in Hrx1, Htx1, Hid1, Hsl1. simpl in Hrx1, Htx1, Hid1, Hsl1.
  destruct (NoteFresh_views c1 pkt from fr now) as (Hrx2 & Hid2 & Hsl2 & Htx2).
  set (c2 := NoteFresh (NoteTimestamp c1 pkt) from fr now) in *.
  assert (Hi2 : rx_inv good c2) by (eapply rx_inv_view; [|exact Hi]; congruence).
  assert (Hidc2 : keyed c2)
    by (apply (keyed_view _ _ Hid2), (keyed_view _ _ Hid1); done).
  apply (receive_post_pre _ _ c c2); [congruence..|].
  assert (Hdone : forall c3, frame (control (rx_rel_ c2)) c2 c3 -> tx_view c3 = tx_view c2 ->
            receive_post good (fun s => type pkt = Ack /\ s = seq pkt) c2 c3)
    by (intros; apply frame_receive; [done..|by apply tx_acked_same]).
  destruct (type pkt) eqn:Ht; try done.
  - destruct (HandleBestEffort_frame (control (rx_rel_ c2)) c2 pkt fd). by apply Hdone.
  - destruct (HandleAck_frame c2 pkt now) as [Hf Htx]. apply frame_receive; [done..|].
    destruct Htx as [? ? ? ? Hk]. split; auto. intros o Ho. destruct (Hk o Ho); auto.
  - destruct (HandleClose_frame (control (rx_rel_ c2)) c2). by apply Hdone.
  - destruct (authenticated_ c2); simpl.
    + destruct (HandleKeepalive_frame (rx_rel_ c2) c2 pkt now Hidc2). by apply Hdone.
    + apply Hdone; [apply frame_refl|done].
  - destruct (HandleBestEffort_frame (control (rx_rel_ c2)) c2 pkt fd). by apply Hdone.
Qed.

(** The packet a datagram turns into, and whether under the current key (or a
    session key) or only the pre-upgrade one. *)
Definition Extract (c : Conn) (d : bytes) (now : Z) : option (bool * WirePacket) :=
  match PeekType d with
  | Fail _ => None
  | Ok t =>
      if IsSealed t then
        match OpenDatagram c d now with Ok pkt => Some (true, pkt) | Fail _ => None end
      else if ok (Verify (binder_ c) d) then
        match Decode d with Ok pkt => Some (true, pkt) | Fail _ => None end
      else match pre_upgrade_key_ c with
      | Some k => if ok (Verify k d)
                  then match Decode d with Ok pkt => Some (false, pkt) | Fail _ => None end
                  else None
      | None => None
      end
  end.

Lemma HandleDatagram_extract (c : Conn) from d now :
  HandleDatagram c from d now
  = match Extract c d now with
    | Some (true, pkt) => HandleAuthenticated c pkt from now
    | Some (false, pkt) => HandlePreUpgradeKeyPacket c pkt now
    | None => Rejected c
    end.
Proof.
  unfold HandleDatagram, Extract. repeat (case_match_goal; simpl); done.
Qed.

Lemma Extract_decoded (c : Conn) d now b pkt :
  Extract c d now = Some (b, pkt) ->
  PeekType d = Ok (type pkt)
  /\ (if IsSealed (type pkt) then b = true /\ OpenDatagram c d now = Ok pkt else Decode d = Ok pkt).
Proof.
  unfold Extract. destruct (PeekType d) as [t|] eqn:Ht; [|done].
  assert (Hdec : forall q, Decode d = Ok q -> type q = t /\ IsSealed t = false).
  { intros q. unfold Decode. rewrite Ht. repeat case_match_goal; try done. by intros [= <-]. }
  destruct (IsSealed t) eqn:Hs.
  - destruct (OpenDatagram c d now) as [q|] eqn:Ho; [|done]. intros [= <- <-].
    assert (type q = t) as ->; [|by rewrite Hs].
    unfold OpenDatagram, DecodeSealedHeader in Ho. rewrite Ht in Ho.
    repeat (case_match_hyp; try done). by simplify_eq/=.
  - assert (Hres : forall b0, match Decode d with Ok q => Some (b0, q) | Fail _ => None end
        = Some (b, pkt) -> @Ok Error _ t = Ok (type pkt) /\
          (if IsSealed (type pkt) then b = true /\ OpenDatagram c d now = Ok pkt
           else Decode d = Ok pkt)).
    { intros b0. destruct (Decode d) as [q|] eqn:Hd; [|done]. intros [= -> ->].
      destruct (Hdec _ eq_refl) as [-> _]. by rewrite Hs. }
    destruct (ok _); [apply Hres|]. destruct (pre_upgrade_key_ c); [|done].
    destruct (ok _); [apply Hres|done].
Qed.

Lemma Extract_seq (c : Conn) d now b pkt :
  bytes_ok d -> Extract c d now = Some (b, pkt) -> is_u32 (seq pkt).
Proof.
  intros Hok HE. apply Extract_decoded in HE as [Ht HE]. destruct (IsSealed (type pkt)).
  - destruct HE as [_ HE]. unfold OpenDatagram in HE. destruct (protection_ c); [|done].
    destruct (DecodeSealedHeader d) as [h|] eqn:Hh; [|done].
    destruct (OpenPacket _ _ _ _ _ _); [|done]. injection HE as <-. simpl.
    by destruct (DecodeSealedHeader_inv _ _ Hok Hh) as (_ & _ & ? & _).
  - by destruct (Decode_inv _ _ Hok HE) as (_ & _ & (_ & ? & _) & _).
Qed.
End Facts.

(** ** Provenance: what a datagram of the other end turns into *)

Section Provenance.
Context {P Io : Type} `{PacketProtectionLaws P} `{DatagramIo Io} `{SodiumLaws}.
Abbreviation Conn := (Connection P Io).

Lemma sealed_header_read t id n body h :
  length id = kAssocIdBytes -> is_u32 n ->
  DecodeSealedHeader (sealed_layout t id n ++ body) = Ok h -> h = MkSealedHeader t id n.
Proof.
  intros Hid Hn. unfold DecodeSealedHeader, sealed_layout.
  rewrite <- app_comm_cons, PeekType_VersionAndType.
  repeat (case_match_goal; try done). intros [= <-].
  rewrite <- app_assoc, PeekAssoc_app, drop_app_length' by done.
  change ([u8 n; _; _; _]) with (le_bytes 4 n). by rewrite ReadU32Le_app.
Qed.

Lemma sealed_layout_length t id n :
  length id = kAssocIdBytes -> length (sealed_layout t id n) = kSealedHeaderBytes.
Proof. intros Hid. unfold sealed_layout. simpl. autorewrite with size. by rewrite Hid. Qed.

Lemma plain_origin_read (c : Conn) t s p now k d pkt :
  IsSealed t = false -> length (id_ c) = kAssocIdBytes -> is_u32 s ->
  PacketDatagram c t s p now k = Ok d ->
  PeekType d = Ok t /\ (Decode d = Ok pkt -> type pkt = t /\ seq pkt = s /\ payload pkt = p).
Proof.
  intros Hsl Hid Hs. unfold PacketDatagram. rewrite Hsl.
  destruct (Encode _) as [body|] eqn:Henc; [|done]. unfold Seal. intros [= <-].
  destruct (Encode_layout _ _ Henc) as (_ & _ & Hp & ->).
  cbn [type assoc seq timestamp_ms payload] in *.
  split; [apply (PeekType_VersionAndType t)|].
  rewrite Decode_layout; [by intros [= <-]|done|done|done| |done|apply ComputeTag_length].
  unfold TruncTs. apply u32_range.
Qed.

Lemma sealed_origin_read (c c' : Conn) t s p now now' k d pkt :
  IsSealed t = true -> keyed c -> keyed c' -> is_u32 s ->
  PacketDatagram c t s p now k = Ok d ->
  PeekType d = Ok t
  /\ (OpenDatagram c' d now' = Ok pkt -> type pkt = t /\ seq pkt = s /\ payload pkt = p).
Proof.
  intros Hsl [Hid Hpr] [_ Hpr'] Hs. unfold PacketDatagram. rewrite Hsl. unfold SealDatagram.
  destruct (protection_ c) as [pr|]; [|done]. rewrite EncodeSealedHeader_layout.
  cbn [sh_type sh_assoc sh_number].
  destruct (SealPacket _ _ _ _ _) as [sealed|] eqn:Hseal; [|done]. intros Hd.
  assert (d = sealed_layout t (id_ c) s ++ sealed) as -> by congruence. clear Hd.
  split; [apply (PeekType_VersionAndType t)|].
  unfold OpenDatagram. destruct (protection_ c') as [q|]; [|done].
  destruct (DecodeSealedHeader _) as [h|] eqn:Hh; [|done].
  apply sealed_header_read in Hh as ->; [|done|done]. cbn [sh_type sh_assoc sh_number].
  rewrite take_app_length', drop_app_length' by (by rewrite sealed_layout_length).
  destruct (OpenPacket _ _ _ _ _ _) as [opened|] eqn:Hopen; [|done]. intros [= <-]. simpl.
  split_and!; [done..|]. by apply (open_sealed pr q _ _ _ _ _ _ _ (Hpr _ eq_refl) (Hpr' _ eq_refl) Hseal Hopen).
Qed.

Lemma Extract_bytes (c : Conn) d now b pkt :
  bytes_ok d -> Extract c d now = Some (b, pkt) -> bytes_ok (payload pkt).
Proof.
  intros Hok HE. apply Extract_decoded in HE as [Ht HE]. destruct (IsSealed (type pkt)).
  - destruct HE as [_ HE]. unfold OpenDatagram in HE. destruct (protection_ c) as [q|]; [|done].
    destruct (DecodeSealedHeader d) as [h|]; [|done].
    destruct (OpenPacket _ _ _ _ _ _) as [opened|] eqn:Ho; [|done]. injection HE as <-. simpl.
    eapply open_bytes; [exact Ho|]. by apply Forall_drop.
  - destruct (Decode_inv _ _ Hok HE) as (_ & _ & (_ & _ & _ & Hp) & _). exact Hp.
Qed.

(** Whatever key or session the receiver has, a packet it takes out of a
    datagram is the packet its sender put in. *)
Lemma origin_extract (c : Conn) t s p d now b pkt :
  keyed c -> origin (P := P) (Io := Io) t s p d -> is_u32 s -> Extract c d now = Some (b, pkt) ->
  type pkt = t /\ seq pkt = s /\ payload pkt = p.
Proof.
  intros Hc (c0 & now0 & k & Hid & Hd) Hs HE. apply Extract_decoded in HE as [Ht HE].
  destruct (IsSealed t) eqn:Hsl.
  - destruct (sealed_origin_read c0 c t s p now0 now k d pkt Hsl Hid Hc Hs Hd) as [Ht' Hread].
    rewrite Ht in Ht'. injection Ht' as Htt. rewrite Htt, Hsl in HE.
    apply Hread, HE.
  - destruct (plain_origin_read c0 t s p now0 k d pkt Hsl (proj1 Hid) Hs Hd) as [Ht' Hread].
    rewrite Ht in Ht'. injection Ht' as Htt. rewrite Htt, Hsl in HE. by apply Hread.
Qed.
End Provenance.
