(* ===== verification/ConnectionSender.v ===== *)
(** * Facts about the sending side of an association

    The invariant of [outstanding_], what [Send] and [Tick] do to it and what
    they put on the wire, and the timers. *)

From S2P Require Import Prelude L1Types ReplayWindow WireCodec Connection ConnectionFacts.
From Stdlib Require Import Sorting.Sorted.

Section Sender.
Context {P Io : Type} `{PacketProtection P} `{Sound P} `{DatagramIo Io} `{Sodium}.
Abbreviation Conn := (Connection P Io).

(** ** Invariant

    [sent] is the list of payloads [Send] took for reliable delivery, the
    first numbered 1. *)
Definition sent_payload (sent : list bytes) (s : Z) (p : bytes) : Prop :=
  1 <= s /\ sent !! Z.to_nat (s - 1) = Some p.

Definition outstanding_ok (sent : list bytes) (o : Outstanding) : Prop :=
  IsReliableData (o_type o) = true /\ sent_payload sent (o_seq o) (o_payload o).

Record tx_inv (sent : list bytes) (c : Conn) : Prop := {
  txi_seq : tx_seq_rel_ c = size sent;
  txi_u32 : tx_seq_rel_ c < 2 ^ 32;
  txi_ok : Forall (outstanding_ok sent) (outstanding_ c);
  txi_sorted : StronglySorted Z.lt (o_seq <$> outstanding_ c);
  txi_window : size (outstanding_ c) <= reliable_window (params_ c);
  txi_lost : 0 <= st_reliable_lost (stats_ c)
             /\ st_reliable_lost (stats_ c) + size (outstanding_ c) <= tx_seq_rel_ c;
}.

Lemma sent_payload_app sent p s q : sent_payload sent s q -> sent_payload (sent ++ [p]) s q.
Proof. intros [? Hl]. split; [done|]. by apply lookup_app_l_Some. Qed.

Lemma sent_payload_range sent s p : sent_payload sent s p -> 1 <= s <= size sent.
Proof. intros [? Hl%lookup_lt_Some]. unfold size. lia. Qed.

Lemma sent_payload_new sent p : sent_payload (sent ++ [p]) (size sent + 1) p.
Proof.
  unfold size. split; [lia|].
  replace (Z.to_nat (Z.of_nat (length sent) + 1 - 1)) with (length sent) by lia.
  by rewrite list_lookup_middle.
Qed.

Lemma sent_payload_fun sent s p q : sent_payload sent s p -> sent_payload sent s q -> p = q.
Proof. intros [_ ?] [_ ?]. congruence. Qed.

Lemma tx_inv_view sent (c c' : Conn) : tx_view c' = tx_view c -> tx_inv sent c -> tx_inv sent c'.
Proof. intros [= Hs Ho Hl Hw] []. split; rewrite ?Hs, ?Ho, ?Hw, ?Hl; done. Qed.

Lemma Forall_sublist {A} (Q : A -> Prop) (l k : list A) : l `sublist_of` k -> Forall Q k -> Forall Q l.
Proof.
  induction 1; rewrite ?Forall_cons; naive_solver.
Qed.

Lemma sublist_map {A B} (f : A -> B) (l k : list A) :
  l `sublist_of` k -> (f <$> l) `sublist_of` (f <$> k).
Proof. induction 1; simpl; by constructor. Qed.

Lemma StronglySorted_sublist (l k : list Z) :
  l `sublist_of` k -> StronglySorted Z.lt k -> StronglySorted Z.lt l.
Proof.
  induction 1 as [|x l k Hs IH|x l k Hs IH]; [done| |].
  - intros [Hk HF]%StronglySorted_inv. constructor; [auto|]. by eapply Forall_sublist.
  - intros [Hk _]%StronglySorted_inv. auto.
Qed.

Lemma tx_inv_acked sent A (c c' : Conn) : tx_acked A c c' -> tx_inv sent c -> tx_inv sent c'.
Proof.
  intros [Hs Hl Hw Hsub _] [? ? ? Hsort ? ?]. split; rewrite ?Hs, ?Hw, ?Hl; try done.
  - by eapply Forall_sublist.
  - eapply StronglySorted_sublist; [by apply sublist_map|done].
  - apply sublist_length in Hsub. unfold size in *. lia.
  - apply sublist_length in Hsub. unfold size in *. lia.
Qed.

Lemma StronglySorted_snoc (l : list Z) x :
  StronglySorted Z.lt l -> Forall (fun y => y < x) l -> StronglySorted Z.lt (l ++ [x]).
Proof.
  induction 1 as [|y l Hl IH HF]; intros Hx; simpl; [by repeat constructor|].
  apply Forall_cons in Hx as [? ?]. constructor; [auto|]. apply Forall_app_2; [done|by constructor].
Qed.

(** ** Sending *)

(** Reliable data of a payload in [sent]. *)
Definition data_of (sent : list bytes) (t : PacketType) (s : Z) (p : bytes) : Prop :=
  IsReliableData t = true /\ sent_payload sent s p.

Lemma SendReliable_post sent (c : Conn) p now :
  tx_inv sent c -> keyed c ->
  let c' := (SendReliable c p now).1 in
  (c' = c /\ exists e, (SendReliable c p now).2 = Fail e)
  \/ (tx_seq_rel_ c' = tx_seq_rel_ c + 1 /\ tx_inv (sent ++ [p]) c'
      /\ st_reliable_lost (stats_ c') = st_reliable_lost (stats_ c)
      /\ reliable_window (params_ c') = reliable_window (params_ c)
      /\ (exists o, outstanding_ c' = outstanding_ c ++ [o] /\ o_seq o = tx_seq_rel_ c + 1
           /\ attempts o = 0)
      /\ frame (data_of (sent ++ [p])) c c').
Proof.
  intros Hi Hid. cbv zeta. unfold SendReliable.
  destruct (reliable_window (params_ c) <=? size (outstanding_ c)) eqn:Hwin; [by left; eauto|].
  destruct (tx_seq_rel_ c =? 4294967295) eqn:Hwrap; [by left; eauto|]. right. zbool. cbv zeta.
  set (o := MkOutstanding _ _ _ _ _ _ _ _).
  set (c1 := _ <| stats_ ::= _ |>).
  assert (Hseq1 : tx_seq_rel_ c1 = tx_seq_rel_ c + 1).
  { subst c1. simpl. apply u32_id. unfold is_u32.
    pose proof (txi_u32 _ _ Hi). pose proof (txi_seq _ _ Hi). unfold size in *. lia. }
  assert (Ho : o_seq o = tx_seq_rel_ c + 1) by exact Hseq1.
  assert (Hout1 : outstanding_ c1 = outstanding_ c ++ [o]) by done.
  assert (Hlost1 : 0 <= st_reliable_lost (stats_ c)
            /\ st_reliable_lost (stats_ c) + size (outstanding_ c1) <= tx_seq_rel_ c1).
  { rewrite Hseq1, Hout1, size_app. change (size [o]) with 1. pose proof (txi_lost _ _ Hi). lia. }
  assert (Hok : outstanding_ok (sent ++ [p]) o).
  { split; [subst o; simpl; by destruct (Sealing _)|].
    change (sent_payload (sent ++ [p]) (o_seq o) p). rewrite Ho, (txi_seq _ _ Hi).
    apply sent_payload_new. }
  assert (Hi1 : tx_inv (sent ++ [p]) c1).
  { split.
    - rewrite Hseq1, (txi_seq _ _ Hi), size_app. unfold size. simpl. lia.
    - pose proof (txi_u32 _ _ Hi). lia.
    - rewrite Hout1. apply Forall_app_2; [|by constructor].
      eapply Forall_impl; [apply (txi_ok _ _ Hi)|]. intros o' [? ?]. split; [done|].
      by apply sent_payload_app.
    - rewrite Hout1, fmap_app. apply StronglySorted_snoc; [apply (txi_sorted _ _ Hi)|].
      rewrite Forall_fmap. eapply Forall_impl; [apply (txi_ok _ _ Hi)|]. intros o' [_ Hp].
      apply sent_payload_range in Hp. change (o_seq o' < o_seq o). rewrite Ho, (txi_seq _ _ Hi). lia.
    - rewrite Hout1, size_app. unfold c1. simpl. rewrite size_cons, size_nil. lia.
    - exact Hlost1. }
  destruct (SendPacket_views c1 (o_type o) (tx_seq_rel_ c1) p now None) as (_ & Htx & _).
  assert (Hf : frame (data_of (sent ++ [p])) c (SendPacket c1 (o_type o) (tx_seq_rel_ c1) p now None).1).
  { eapply frame_trans; [by apply (frame_same _ c c1)|]. apply SendPacket_frame; [done|].
    rewrite Hseq1, <- Ho. exact Hok. }
  destruct (SendPacket c1 _ _ _ _ _) as [c2 r]. simpl in Htx, Hf.
  assert (Hv2 : tx_seq_rel_ c2 = tx_seq_rel_ c1 /\ outstanding_ c2 = outstanding_ c1
    /\ st_reliable_lost (stats_ c2) = st_reliable_lost (stats_ c1)
    /\ reliable_window (params_ c2) = reliable_window (params_ c1)) by (by injection Htx).
  destruct Hv2 as (Hs2 & Ho2 & Hl2 & Hw2).
  assert (Hres : (match r with
    | Fail e => if peer_unreachable_ c2 then (c2, @Fail Failure unit e) else (c2, Ok tt)
    | Ok _ => (c2, Ok tt) end).1 = c2) by (repeat case_match_goal; done).
  rewrite Hres. split_and!; [by rewrite Hs2|by eapply tx_inv_view|done|done| |done].
  exists o. by rewrite Ho2, Hout1.
Qed.

(** ** Retransmission *)

(** A packet in flight before and after a tick. *)
Record same_packet (o o' : Outstanding) : Prop := {
  sp_type : o_type o' = o_type o;
  sp_before : before_upgrade o' = before_upgrade o;
  sp_seq : o_seq o' = o_seq o;
  sp_payload : o_payload o' = o_payload o;
  sp_backoff : base_backoff o' = base_backoff o;
  sp_first : first_sent_ms o' = first_sent_ms o;
}.

Lemma same_packet_refl o : same_packet o o.
Proof. done. Qed.

(** What the timers read. *)
Definition timer_view (c : Conn) :=
  (authenticated_ c, params_ c, srtt_ms (stats_ c), rttvar_ms (stats_ c)).

Lemma RetransmitIntervalMs_view (c c' : Conn) d :
  timer_view c' = timer_view c -> RetransmitIntervalMs c' d = RetransmitIntervalMs c d.
Proof. intros [= Ha Hp Hs Hr]. unfold RetransmitIntervalMs, RtoMs. by rewrite Ha, Hp, Hs, Hr. Qed.

Lemma SendPacket_timer (c : Conn) t s p now k :
  timer_view (SendPacket c t s p now k).1 = timer_view c.
Proof. by destruct (SendPacket_spec c t s p now k) as (u & h & -> & _). Qed.

(** One packet: left alone, or resent. *)
Definition resent (c : Conn) (o : Outstanding) (now : Z) : bool :=
  (next_rtx_ms o <=? now) && (attempts o <? max_rtx (params_ c)).

Lemma RetransmitOne_post Q (c : Conn) o now :
  keyed c -> Q (o_type o) (o_seq o) (o_payload o) ->
  let '(c', o') := RetransmitOne c o now in
  frame Q c c' /\ tx_view c' = tx_view c /\ timer_view c' = timer_view c /\ same_packet o o'
  /\ st_reliable_sent (stats_ c') = st_reliable_sent (stats_ c)
  /\ (if resent c o now
      then attempts o' = attempts o + 1
           /\ next_rtx_ms o' = now + RetransmitIntervalMs c (base_backoff o + attempts o + 1)
           /\ st_retransmits (stats_ c') = u64 (st_retransmits (stats_ c) + 1)
      else c' = c /\ o' = o).
Proof.
  intros Hid HQ. unfold RetransmitOne, resent.
  destruct (now <? next_rtx_ms o) eqn:Hnow.
  { zbool. rewrite (proj2 (Z.leb_gt (next_rtx_ms o) now)) by lia. split_and!; try done; apply frame_refl. }
  zbool. rewrite (proj2 (Z.leb_le (next_rtx_ms o) now)) by lia. simpl andb.
  destruct (max_rtx (params_ c) <=? attempts o) eqn:Hmax.
  { zbool. rewrite (proj2 (Z.ltb_ge (attempts o) _)) by lia. split_and!; try done; apply frame_refl. }
  zbool. rewrite (proj2 (Z.ltb_lt (attempts o) _)) by lia. cbv zeta.
  set (c1 := if authenticated_ c then _ else c).
  set (c2 := c1 <| endpoint_ ::= NoteRetransmit |> <| stats_ ::= _ |>).
  assert (Hc2 : frame Q c c2 /\ tx_view c2 = tx_view c /\ timer_view c2 = timer_view c
    /\ timer_view c1 = timer_view c /\ keyed c2
    /\ st_retransmits (stats_ c2) = u64 (st_retransmits (stats_ c) + 1)
    /\ st_reliable_sent (stats_ c2) = st_reliable_sent (stats_ c)).
  { subst c2 c1. destruct (authenticated_ c); split_and!; try done; by apply frame_same. }
  destruct Hc2 as (Hf & Htx & Htm & Htm1 & Hid2 & Hst & Hsent). clearbody c2.
  set (o1 := o <| attempts ::= Z.succ |>).
  set (o2 := o1 <| next_rtx_ms := _ |>).
  destruct (SendPacket_views c2 (o_type o2) (o_seq o2) (o_payload o2) now (ResendKey c2 o2))
    as (_ & Htx3 & _).
  pose proof (SendPacket_timer c2 (o_type o2) (o_seq o2) (o_payload o2) now (ResendKey c2 o2)) as Htm3.
  assert (Hf3 : frame Q c2 (SendPacket c2 (o_type o2) (o_seq o2) (o_payload o2) now
                              (ResendKey c2 o2)).1) by (by apply SendPacket_frame).
  assert (Hst3 : stats_ (SendPacket c2 (o_type o2) (o_seq o2) (o_payload o2) now
                           (ResendKey c2 o2)).1 = stats_ c2)
    by (by destruct (SendPacket_spec c2 (o_type o2) (o_seq o2) (o_payload o2) now
                       (ResendKey c2 o2)) as (u & h & -> & _)).
  destruct (SendPacket c2 _ _ _ _ _) as [c3 r]. simpl in Htx3, Htm3, Hf3, Hst3.
  split_and!; try done; try congruence.
  - by eapply frame_trans.
  - subst o2 o1. simpl. rewrite (RetransmitIntervalMs_view c c1) by done. do 2 f_equal. lia.
Qed.

Lemma RetransmitAll_post Q (c : Conn) os now :
  keyed c ->
  Forall (fun o => Q (o_type o) (o_seq o) (o_payload o)) os ->
  let '(c', os') := RetransmitAll c os now in
  frame Q c c' /\ tx_view c' = tx_view c /\ timer_view c' = timer_view c /\ Forall2 same_packet os os'.
Proof.
  revert c. induction os as [|o os IH]; intros c Hid HQ; simpl.
  { split_and!; try done; apply frame_refl. }
  apply Forall_cons in HQ as [HQ1 HQ].
  pose proof (RetransmitOne_post Q c o now Hid HQ1) as Hone.
  destruct (RetransmitOne c o now) as [c1 o1]. destruct Hone as (Hf1 & Htx1 & Htm1 & Hsp & _).
  assert (Hid1 : keyed c1) by (by apply (keyed_view _ _ (fr_id _ _ _ Hf1))).
  specialize (IH c1 Hid1 HQ). destruct (RetransmitAll c1 os now) as [c2 os2].
  destruct IH as (Hf2 & Htx2 & Htm2 & Hall).
  split_and!; [by eapply frame_trans|congruence|congruence|by constructor].
Qed.

Lemma DropFailed_post Q (c : Conn) os now :
  outstanding_ c = os ->
  let c' := DropFailed c os now in
  frame Q c c' /\ timer_view c' = timer_view c /\ tx_seq_rel_ c' = tx_seq_rel_ c
  /\ exists k, outstanding_ c' = drop k os /\ (k <= length os)%nat
     /\ (0 <= st_reliable_lost (stats_ c) -> st_reliable_lost (stats_ c) + Z.of_nat k < 2 ^ 64 ->
         st_reliable_lost (stats_ c') = st_reliable_lost (stats_ c) + Z.of_nat k).
Proof.
  revert c. induction os as [|o os IH]; intros c Hos; cbv zeta; simpl.
  { split_and!; try done; [apply frame_refl|]. exists O. simpl. split_and!; [done|lia|lia]. }
  destruct (GivenUp c o now).
  - set (c1 := c <| endpoint_ ::= NoteReliableLost |>
                 <| stats_ ::= fun s => s <| st_reliable_lost ::= fetch_add 1 |> |>
                 <| outstanding_ := os |>).
    destruct (IH c1) as (Hf & Htm & Hs & k & Hk & Hle & Hlost); [done|].
    split_and!; [|done|done|].
    + eapply frame_trans; [|exact Hf]. by apply frame_same.
    + exists (S k). split_and!; [exact Hk|simpl; lia|]. intros H0l Hl.
      assert (Hl1 : st_reliable_lost (stats_ c1) = st_reliable_lost (stats_ c) + 1).
      { subst c1. simpl. apply u64_id. unfold is_u64. lia. }
      rewrite Hlost; lia.
  - split_and!; try done; [apply frame_refl|]. exists O. simpl. split_and!; [done|lia|lia].
Qed.

Lemma same_packets_refl os : Forall2 same_packet os os.
Proof. induction os; by constructor. Qed.

Lemma same_packets_seqs os os' : Forall2 same_packet os os' -> o_seq <$> os' = o_seq <$> os.
Proof.
  induction 1 as [|o o' os os' [] _ IH]; [done|]. rewrite !fmap_cons. congruence.
Qed.

Lemma same_packets_ok sent os os' :
  Forall2 same_packet os os' -> Forall (outstanding_ok sent) os -> Forall (outstanding_ok sent) os'.
Proof.
  induction 1 as [|o o' os os' [Ht _ Hs Hp _ _] _ IH]; [done|].
  rewrite !Forall_cons. unfold outstanding_ok in *. rewrite Ht, Hs, Hp. naive_solver.
Qed.

Lemma Tick_post sent (c : Conn) now :
  tx_inv sent c -> keyed c ->
  let c' := Tick c now in
  tx_inv sent c' /\ frame (data_of sent) c c' /\ timer_view c' = timer_view c
  /\ exists os' k, Forall2 same_packet (outstanding_ c) os'
     /\ outstanding_ c' = drop k os' /\ (k <= length os')%nat
     /\ st_reliable_lost (stats_ c') = st_reliable_lost (stats_ c) + Z.of_nat k.
Proof.
  intros Hi Hid. cbv zeta. unfold Tick. destruct (closed_ c).
  { split_and!; try done; [apply frame_refl|]. exists (outstanding_ c), O.
    split_and!; [|done|lia|lia]. apply same_packets_refl. }
  pose proof (RetransmitAll_post (data_of sent) c (outstanding_ c) now Hid (txi_ok _ _ Hi)) as Hall.
  destruct (RetransmitAll c (outstanding_ c) now) as [c1 os'].
  destruct Hall as (Hf1 & Htx1 & Htm1 & Hsame).
  set (c2 := c1 <| outstanding_ := os' |>).
  destruct (DropFailed_post (data_of sent) c2 os' now eq_refl) as (Hf & Htm & Hs & k & Hk & Hle & Hlost).
  pose proof Htx1 as [= Hs1 Ho1 Hl1 Hw1].
  assert (Hlost' : st_reliable_lost (stats_ (DropFailed c2 os' now))
                   = st_reliable_lost (stats_ c) + Z.of_nat k).
  { destruct (txi_lost _ _ Hi) as [H0l Hsum]. pose proof (txi_u32 _ _ Hi).
    apply Forall2_length in Hsame. unfold size in Hsum.
    change (stats_ c2) with (stats_ c1) in Hlost. rewrite Hl1 in Hlost. apply Hlost; lia. }
  assert (Hseq' : tx_seq_rel_ (DropFailed c2 os' now) = tx_seq_rel_ c) by (rewrite Hs; exact Hs1).
  assert (Htm' : timer_view (DropFailed c2 os' now) = timer_view c) by (rewrite Htm; exact Htm1).
  split_and!; [| |done|by exists os', k].
  - pose proof Htm' as [= _ Hparams _ _].
    assert (Hlen : length os' = length (outstanding_ c)) by (by apply Forall2_length in Hsame).
    split; rewrite ?Hseq', ?Hk, ?Hlost', ?Hparams.
    + apply (txi_seq _ _ Hi).
    + apply (txi_u32 _ _ Hi).
    + apply Forall_drop. eapply same_packets_ok; [done|apply (txi_ok _ _ Hi)].
    + eapply StronglySorted_sublist; [apply sublist_map, sublist_drop|].
      rewrite (same_packets_seqs _ _ Hsame). apply (txi_sorted _ _ Hi).
    + pose proof (txi_window _ _ Hi). unfold size in *. rewrite length_drop. lia.
    + pose proof (txi_lost _ _ Hi). unfold size in *. rewrite length_drop. lia.
  - eapply frame_trans; [exact Hf1|]. eapply frame_trans; [|exact Hf]. by apply frame_same.
Qed.
End Sender.
