(* ===== verification/ReliableChannel.v ===== *)
(** * Two associations facing each other

    The operations of a [Connection] as one step relation, and a system of two
    connections over a network that may lose, duplicate, reorder and delay the
    datagrams each end sent, and inject others that no key authenticates.
    Reliable delivery is stated and proved of that system. *)

From S2P Require Import Prelude L1Types ReplayWindow WireCodec Toy Connection ConnectionFacts ConnectionSender.
From Stdlib Require Import Sorting.Sorted.

(** ** Operations of one end *)

(** A call of the class's interface; [OpClock] and [OpIo] are the world's own
    steps (time passes, the socket's state changes). *)
Inductive op (P Io : Type) :=
  | OpSend (qos : QosClass) (payload : bytes)
  | OpClose
  | OpAbandon
  | OpUpgradeBinder (k : PeerKey)
  | OpSetProtection (p : option P)
  | OpSetPeerEndpoint (e : IpEndpoint)
  | OpOnPathChange (set : bool)
  | OpSendKeepalive (now interval : Z)
  | OpStopKeepalive (now : Z)
  | OpSendProbe (now : Z)
  | OpTick (now : Z)
  | OpDatagram (from : IpEndpoint) (d : bytes) (now : Z)
  | OpVersionNegotiation (versions : bytes)
  | OpClock (now : Z)
  | OpIo (io : Io).
Arguments OpSend {P Io}.
Arguments OpClose {P Io}.
Arguments OpAbandon {P Io}.
Arguments OpUpgradeBinder {P Io}.
Arguments OpSetProtection {P Io}.
Arguments OpSetPeerEndpoint {P Io}.
Arguments OpOnPathChange {P Io}.
Arguments OpSendKeepalive {P Io}.
Arguments OpStopKeepalive {P Io}.
Arguments OpSendProbe {P Io}.
Arguments OpTick {P Io}.
Arguments OpDatagram {P Io}.
Arguments OpVersionNegotiation {P Io}.
Arguments OpClock {P Io}.
Arguments OpIo {P Io}.

Section Channel.
Context {P Io : Type} `{PacketProtectionLaws P} `{DatagramIo Io} `{SodiumLaws}.
Abbreviation Conn := (Connection P Io).

Definition run_op (c : Conn) (o : op P Io) : Conn :=
  match o with
  | OpSend qos p => (Send c qos p).1
  | OpClose => CloseConnection c
  | OpAbandon => Abandon c
  | OpUpgradeBinder k => UpgradeBinder c k
  | OpSetProtection p => SetProtection c p
  | OpSetPeerEndpoint e => SetPeerEndpoint c e
  | OpOnPathChange set => c <| on_path_change_ := set |>
  | OpSendKeepalive now i => (SendKeepalive c now i).1
  | OpStopKeepalive now => (StopKeepalive c now).1
  | OpSendProbe now => (SendProbe c now).1
  | OpTick now => Tick c now
  | OpDatagram from d now => HandleDatagram c from d now
  | OpVersionNegotiation vs => HandleVersionNegotiation c vs
  | OpClock now => c <| endpoint_ ::= fun h => h <| clock_ := now |> |>
  | OpIo io => c <| endpoint_ ::= fun h => h <| io_ := io |> |>
  end.

(** Operations that neither take data, nor resend, nor receive, nor change keys. *)
Definition plain_op (o : op P Io) : Prop :=
  match o with
  | OpSend _ _ | OpTick _ | OpDatagram _ _ _ | OpSetProtection _ => False
  | _ => True
  end.

(** A packet of best-effort data. *)
Definition be_data (be : bytes -> Prop) (t : PacketType) (s : Z) (p : bytes) : Prop :=
  is_u32 s /\ IsReliableData t = false /\ t <> Ack /\ be p.

Lemma Send_best_effort_frame (be : bytes -> Prop) (c : Conn) p :
  keyed c -> be p ->
  frame (be_data be) c (Send c BestEffort p).1 /\ tx_view (Send c BestEffort p).1 = tx_view c.
Proof.
  intros Hid Hp. unfold Send. destruct (closed_ c); [by split; [apply frame_refl|]|].
  destruct (_ <? _); [by split; [apply frame_refl|]|]. cbv zeta.
  destruct (_ =? _); [by split; [apply frame_refl|]|].
  unfold SendPacketAsFailure. set (c1 := c <| tx_seq_be_ ::= _ |>).
  set (t := if Sealing c1 then _ else _).
  assert (Hf : frame (be_data be) c (SendPacket c1 t (tx_seq_be_ c1) p (clock_ (endpoint_ c)) None).1).
  { eapply frame_trans; [by apply (frame_same _ c c1)|]. apply SendPacket_frame; [done|].
    split; [subst c1; apply u32_range|]. subst t. by destruct (Sealing c1). }
  destruct (SendPacket_views c1 t (tx_seq_be_ c1) p (clock_ (endpoint_ c)) None) as (_ & Htx & _).
  destruct (SendPacket c1 _ _ _ _ _) as [c2 [[]|e]]; simpl in *; by split.
Qed.

Lemma plain_op_frame w (c : Conn) o :
  keyed c -> plain_op o ->
  frame (control w) c (run_op c o) /\ tx_view (run_op c o) = tx_view c.
Proof.
  intros Hid Hp.
  assert (Hka : forall c1 now i f, frame (control w) c c1 -> tx_view c1 = tx_view c ->
     frame (control w) c (SendKeepalivePacket c1 now i f).1
     /\ tx_view (SendKeepalivePacket c1 now i f).1 = tx_view c).
  { intros c1 now i f Hf Ht. destruct (SendKeepalivePacket_frame w c1 now i f) as [Hf' Ht'].
    - by apply (keyed_view _ _ (fr_id _ _ _ Hf)).
    - split; [by eapply frame_trans|congruence]. }
  destruct o as [q p| | |k|p|e|set|now i|now|now|now|from d now|vs|now|io]; simpl in *; try done.
  - unfold CloseConnection. destruct (closed_ c); [by split; [apply frame_refl|]|]. cbv zeta.
    destruct (SendPacket_views c L1Types.Close 0 [] (clock_ (endpoint_ c)) None) as (_ & Htx & _).
    pose proof (SendPacket_frame (control w) c L1Types.Close 0 [] (clock_ (endpoint_ c)) None Hid
                  (control_zero w L1Types.Close [] eq_refl)) as Hf.
    destruct (SendPacket c _ _ _ _ _) as [c1 r]. simpl in *.
    split; [|done]. eapply frame_trans; [exact Hf|]. by apply frame_same.
  - unfold Abandon. destruct (closed_ c); (split; [by apply frame_same|done]).
  - unfold UpgradeBinder. destruct (pre_upgrade_key_ c); (split; [by apply frame_same|done]).
  - apply SetPeerEndpoint_frame.
  - by split; [apply frame_same|].
  - apply Hka; [by apply frame_same|done].
  - unfold StopKeepalive. destruct (_ =? 0); [by split; [apply frame_refl|]|].
    apply Hka; [by apply frame_same|done].
  - apply Hka; [apply frame_refl|done].
  - unfold HandleVersionNegotiation. destruct (_ || _); (split; [by apply frame_same|done]).
  - by split; [apply frame_same|].
  - by split; [apply frame_same|].
Qed.

(** ** The system

    [sent_a] is the list of payloads [a]'s [Send] took for reliable delivery,
    [best_a] that of those given to it as best effort.
    The network is the two logs: every datagram an end handed to its socket
    stays deliverable, any number of times and in any order; one that was not
    sent by the other end may arrive too, if nothing authenticates it.  The
    protections set are those of the run. *)

Record Sys := MkSys {
  side_a : Conn;
  side_b : Conn;
  sent_a : list bytes;
  sent_b : list bytes;
  best_a : list bytes;
  best_b : list bytes;
}.

Definition allowed (me other : Conn) (o : op P Io) : Prop :=
  match o with
  | OpDatagram _ d now => bytes_ok d /\ (Extract me d now <> None -> d ∈ sent_log other)
  | OpSetProtection (Some p) => sound p
  | _ => True
  end.

(** [Send] took the payload when it took a sequence number for it. *)
Definition note_sent (c : Conn) (o : op P Io) (sent : list bytes) : list bytes :=
  match o with
  | OpSend Reliable p =>
      if tx_seq_rel_ (run_op c o) =? tx_seq_rel_ c then sent else sent ++ [p]
  | _ => sent
  end.

Definition note_best (o : op P Io) (best : list bytes) : list bytes :=
  match o with
  | OpSend BestEffort p => best ++ [p]
  | _ => best
  end.

Inductive sys_step : Sys -> Sys -> Prop :=
  | step_a s o :
      allowed (side_a s) (side_b s) o ->
      sys_step s (MkSys (run_op (side_a s) o) (side_b s) (note_sent (side_a s) o (sent_a s)) (sent_b s)
                    (note_best o (best_a s)) (best_b s))
  | step_b s o :
      allowed (side_b s) (side_a s) o ->
      sys_step s (MkSys (side_a s) (run_op (side_b s) o) (sent_a s) (note_sent (side_b s) o (sent_b s))
                    (best_a s) (note_best o (best_b s))).

(** A new connection with its message handler set. *)
Definition fresh_side (c : Conn) : Prop :=
  exists h params, log_ h = [] /\ OpenParams_ok params /\ length (id params) = kAssocIdBytes
    /\ c = Connection_new h params <| on_message_ := true |>.

Inductive reachable : Sys -> Prop :=
  | reach_init ca cb : fresh_side ca -> fresh_side cb -> reachable (MkSys ca cb [] [] [] [])
  | reach_step s s' : reachable s -> sys_step s s' -> reachable s'.

(** ** Invariant *)

(** What it is given: payloads of [sent] at their numbers, which are bytes. *)
Definition received (sent : list bytes) (s : Z) (p : bytes) : Prop := sent_payload sent s p /\ bytes_ok p.

(** What an end says: reliable data of [sent], control, best-effort data of [be]. *)
Definition said (be : bytes -> Prop) (sent : list bytes) (w : ReplayWindow) (t : PacketType) (s : Z) (p : bytes) : Prop :=
  data_of sent t s p \/ control w t s p \/ be_data be t s p.

(** [x]'s own state: [peer_sent] is what the other end sent to it, [be] holds of
    the best-effort payloads [x] sends. *)
Record side_inv (be : bytes -> Prop) (x : Conn) (sent peer_sent : list bytes) : Prop := {
  si_id : keyed x;
  si_tx : tx_inv sent x;
  si_rx : rx_inv (received peer_sent) x;
  si_wire : Forall (fun d => exists t s p, origin (P := P) (Io := Io) t s p d /\ said be sent (rx_rel_ x) t s p) (sent_log x);
}.

(** From [x] to [y]: a packet [x] gave up neither lies outstanding nor lost is
    kept at [y]. *)
Definition acked_inv (x y : Conn) (sent : list bytes) : Prop :=
  st_reliable_lost (stats_ x) = 0 -> forall s, 1 <= s <= size sent ->
  s ∈ (o_seq <$> outstanding_ x) \/ seen (rx_rel_ y) s.

Record sys_inv (s : Sys) : Prop := {
  inv_a : side_inv (fun p => p ∈ best_a s) (side_a s) (sent_a s) (sent_b s);
  inv_b : side_inv (fun p => p ∈ best_b s) (side_b s) (sent_b s) (sent_a s);
  inv_ab : acked_inv (side_a s) (side_b s) (sent_a s);
  inv_ba : acked_inv (side_b s) (side_a s) (sent_b s);
}.

Lemma rx_inv_mono (good good' : Z -> bytes -> Prop) (c : Conn) :
  (forall i p, good i p -> good' i p) -> rx_inv good c -> rx_inv good' c.
Proof.
  intros Hi [? ? ? ? ? ? ? ? ? Hheld ?]. split; auto.
  - eapply Forall_impl; [done|]. intros [i p]. apply Hi.
  - intros i h Hh. by apply Hi, (Hheld i h).
Qed.

Lemma data_of_app sent p t s q : data_of sent t s q -> data_of (sent ++ [p]) t s q.
Proof. intros [? ?]. split; [done|by apply sent_payload_app]. Qed.

Lemma control_mono (w w' : ReplayWindow) t s p :
  (forall x, seen w x -> seen w' x) -> control w t s p -> control w' t s p.
Proof. intros Hw (Hs & Ht & Ha). split; [done|]. split; [done|]. intros E. destruct (Ha E); auto. Qed.

Lemma said_mono be sent sent' (w w' : ReplayWindow) t s p :
  (forall t s p, data_of sent t s p -> data_of sent' t s p) -> (forall n, seen w n -> seen w' n) ->
  said be sent w t s p -> said be sent' w' t s p.
Proof. intros Hs Hw [?|[?|?]]; [left; by apply Hs|right; left; by eapply control_mono|by right; right]. Qed.

Lemma said_reliable be sent w t s p : said be sent w t s p -> IsReliableData t = true -> sent_payload sent s p.
Proof.
  intros [[_ ?]|[(_ & Hf & _)|(_ & Hf & _)]] Ht; [done| |congruence].
  unfold IsData in Hf. by rewrite Ht in Hf.
Qed.

(** Datagrams of [x] stay explained when its state moves on. *)
Lemma wire_step be (x x' : Conn) sent sent' Q :
  Forall (fun d => exists t s p, origin (P := P) (Io := Io) t s p d /\ said be sent (rx_rel_ x) t s p) (sent_log x) ->
  sends Q x x' ->
  (forall t s p, data_of sent t s p -> data_of sent' t s p) ->
  (forall n, seen (rx_rel_ x) n -> seen (rx_rel_ x') n) ->
  (forall t s p, Q t s p -> said be sent' (rx_rel_ x') t s p) ->
  Forall (fun d => exists t s p, origin (P := P) (Io := Io) t s p d /\ said be sent' (rx_rel_ x') t s p) (sent_log x').
Proof.
  intros Hw (new & -> & HF) Hsent Hseen HQ. apply Forall_app_2.
  - eapply Forall_impl; [exact Hw|]. intros d (t & s & p & Ho & Hd). exists t, s, p. split; [done|]. by eapply said_mono.
  - eapply Forall_impl; [exact HF|]. intros d (t & s & p & Ho & Hq). exists t, s, p. auto.
Qed.

(** What one step of [x] guarantees, to itself and to the other end. *)
Record step_ok be (x y x' : Conn) (sent sent' peer_sent : list bytes) : Prop := {
  so_inv : side_inv be x' sent' peer_sent;
  so_seen : forall n, seen (rx_rel_ x) n -> seen (rx_rel_ x') n;
  so_sent : sent `prefix_of` sent';
  so_acked : acked_inv x y sent -> acked_inv x' y sent';
}.

Lemma frame_step be (Q : PacketType -> Z -> bytes -> Prop) (x y x' : Conn) sent peer_sent :
  side_inv be x sent peer_sent -> frame Q x x' ->
  (forall t s p, Q t s p -> said be sent (rx_rel_ x) t s p) ->
  tx_inv sent x' -> (acked_inv x y sent -> acked_inv x' y sent) ->
  step_ok be x y x' sent sent peer_sent.
Proof.
  intros [Hid Htx Hrx Hw] [Hrxv Hidv Hs] HQ Htx' Hack. pose proof Hrxv as [= Hrel _ _ _ _ _].
  split; [|by rewrite Hrel|done|done]. split.
  - by apply (keyed_view _ _ Hidv).
  - done.
  - by eapply rx_inv_view.
  - eapply wire_step; eauto; rewrite Hrel; auto.
Qed.

Lemma plain_step be (x y : Conn) sent peer_sent o :
  side_inv be x sent peer_sent -> plain_op o -> step_ok be x y (run_op x o) sent sent peer_sent.
Proof.
  intros Hi Hp. destruct (plain_op_frame (rx_rel_ x) x o (si_id _ _ _ _ Hi) Hp) as [Hf Ht].
  eapply (frame_step be); [done|exact Hf|by right; left| |].
  - eapply tx_inv_view; [done|apply (si_tx _ _ _ _ Hi)].
  - injection Ht as _ Ho Hl _. unfold acked_inv. by rewrite Ho, Hl.
Qed.

Lemma protect_step be (x y : Conn) sent peer_sent p :
  side_inv be x sent peer_sent -> (forall q, p = Some q -> sound q) ->
  step_ok be x y (SetProtection x p) sent sent peer_sent.
Proof. intros [[Hid _] Htx Hrx Hw] Hp. split; [|done..]. split; [by split|by apply (tx_inv_view sent x)|by apply (rx_inv_view _ x)|done]. Qed.

Lemma best_effort_step be (x y : Conn) sent peer_sent p :
  side_inv be x sent peer_sent -> be p -> step_ok be x y (run_op x (OpSend BestEffort p)) sent sent peer_sent.
Proof.
  intros Hi Hp. destruct (Send_best_effort_frame be x p (si_id _ _ _ _ Hi) Hp) as [Hf Ht].
  eapply (frame_step be); [done|exact Hf|by right; right| |].
  - eapply tx_inv_view; [done|apply (si_tx _ _ _ _ Hi)].
  - injection Ht as _ Ho Hl _. unfold acked_inv, run_op. by rewrite Ho, Hl.
Qed.

Lemma tick_step be (x y : Conn) sent peer_sent now :
  side_inv be x sent peer_sent -> step_ok be x y (Tick x now) sent sent peer_sent.
Proof.
  intros Hi.
  destruct (Tick_post sent x now (si_tx _ _ _ _ Hi) (si_id _ _ _ _ Hi))
    as (Htx & Hf & _ & os & k & Hsame & Hout & Hk & Hlost).
  eapply (frame_step be); [done|exact Hf|by left|done|].
  intros Ha Hz s Hs. pose proof (txi_lost _ _ (si_tx _ _ _ _ Hi)).
  assert (k = O) as -> by lia. destruct (Ha ltac:(lia) s Hs) as [Hin|?]; [left|by right].
  rewrite Hout, drop_0. by rewrite (same_packets_seqs _ _ Hsame).
Qed.

Lemma send_step be (x y : Conn) sent peer_sent p :
  side_inv be x sent peer_sent ->
  step_ok be x y (run_op x (OpSend Reliable p)) sent (note_sent x (OpSend Reliable p) sent) peer_sent.
Proof.
  intros Hi. unfold note_sent, run_op, Send.
  assert (Hsame : step_ok be x y x sent sent peer_sent).
  { apply (frame_step be (fun _ _ _ => False)); [done|apply frame_refl|done|apply (si_tx _ _ _ _ Hi)|done]. }
  destruct (closed_ x); [by rewrite Z.eqb_refl|].
  destruct (_ <? size p); [by rewrite Z.eqb_refl|]. cbv zeta.
  pose proof (SendReliable_post sent x p (clock_ (endpoint_ x)) (si_tx _ _ _ _ Hi) (si_id _ _ _ _ Hi))
    as [[-> _]|(Hseq & Htx & Hlost & _ & (o & Hout & Ho & _) & Hf)].
  { by rewrite Z.eqb_refl. }
  rewrite (proj2 (Z.eqb_neq _ _)) by lia.
  set (x' := (SendReliable x p (clock_ (endpoint_ x))).1) in *.
  destruct Hf as [Hrxv Hidv Hs]. pose proof Hrxv as [= Hrel _ _ _ _ _].
  split; [|by rewrite Hrel|by apply prefix_app_r|].
  - split; [apply (keyed_view _ _ Hidv), Hi|done| |].
    + eapply rx_inv_view; [done|apply (si_rx _ _ _ _ Hi)].
    + eapply wire_step; [apply (si_wire _ _ _ _ Hi)|exact Hs|apply data_of_app|by rewrite Hrel|by left].
  - intros Ha Hz s Hs'. rewrite Hout, fmap_app, elem_of_app. rewrite Hlost in Hz.
    rewrite size_app in Hs'. unfold size at 2 in Hs'. simpl in Hs'.
    destruct (decide (s = size sent + 1)) as [->|].
    + left. right. rewrite <- (txi_seq _ _ (si_tx _ _ _ _ Hi)), <- Ho. simpl. by left.
    + destruct (Ha Hz s ltac:(lia)); auto.
Qed.

(** A packet taken out of a datagram of the other end is one it sent. *)
Lemma received_packet be (x y : Conn) sent_y peer d now b pkt :
  keyed x -> side_inv be y sent_y peer -> d ∈ sent_log y -> Extract x d now = Some (b, pkt) ->
  said be sent_y (rx_rel_ y) (type pkt) (seq pkt) (payload pkt).
Proof.
  intros Hx Hy Hd HE.
  destruct (proj1 (Forall_forall _ _) (si_wire _ _ _ _ Hy) d Hd) as (t & s & p & Ho & Hkind).
  assert (Hs : is_u32 s).
  { destruct Hkind as [[_ Hp]|[[Hs _]|[Hs _]]]; [|done..]. apply sent_payload_range in Hp.
    pose proof (txi_u32 _ _ (si_tx _ _ _ _ Hy)). rewrite (txi_seq _ _ (si_tx _ _ _ _ Hy)) in *.
    unfold is_u32. lia. }
  destruct (origin_extract x t s p d now b pkt Hx Ho Hs HE) as (-> & -> & ->). done.
Qed.

Lemma datagram_step be be' (x y : Conn) sent_x sent_y from d now :
  side_inv be x sent_x sent_y -> side_inv be' y sent_y sent_x -> allowed x y (OpDatagram from d now) ->
  step_ok be x y (HandleDatagram x from d now) sent_x sent_x sent_y.
Proof.
  intros Hx Hy [Hd Hun]. rewrite HandleDatagram_extract.
  destruct (Extract x d now) as [[b pkt]|] eqn:HE.
  2: { apply (frame_step be (fun _ _ _ => False));
         [done|by apply frame_same|done|apply (tx_inv_view sent_x x); [done|apply (si_tx _ _ _ _ Hx)]|done]. }
  pose proof (received_packet be' x y sent_y sent_x d now b pkt (si_id _ _ _ _ Hx) Hy (Hun ltac:(done)) HE) as Hkind.
  pose proof (Extract_seq _ _ _ _ _ Hd HE) as Hs32.
  assert (Hgood : IsReliableData (type pkt) = true -> received sent_y (seq pkt) (payload pkt))
    by (intros Hr; split; [by apply (said_reliable _ _ _ _ _ _ Hkind)|by apply (Extract_bytes _ _ _ _ _ Hd HE)]).
  assert (Hpost : receive_post (received sent_y) (fun s => type pkt = Ack /\ s = seq pkt) x
    (if b then HandleAuthenticated x pkt from now else HandlePreUpgradeKeyPacket x pkt now)).
  { destruct b; [apply HandleAuthenticated_post|apply HandlePreUpgradeKeyPacket_post]; try done;
      first [apply (si_rx _ _ _ _ Hx)|apply (si_id _ _ _ _ Hx)]. }
  set (x' := if b then _ else _) in *. clearbody x'.
  destruct Hpost as [Hrx Hseen Hid Hsends Htx]. split; [|done|done|].
  - split; [apply (keyed_view _ _ Hid), Hx| |done|].
    + eapply tx_inv_acked; [done|apply (si_tx _ _ _ _ Hx)].
    + eapply wire_step; [apply (si_wire _ _ _ _ Hx)|exact Hsends|done|done|by right; left].
  - intros Ha Hz s Hs. destruct Htx as [_ Hl _ _ Hkept]. rewrite Hl in Hz.
    destruct (Ha Hz s Hs) as [(o & -> & Ho)%list_elem_of_fmap|?]; [|by right].
    destruct (Hkept o Ho) as [?|[Hack Hseq]]; [left; apply list_elem_of_fmap; eauto|right].
    destruct Hkind as [[Hr _]|[(_ & _ & Hk)|(_ & _ & Hk & _)]]; [by rewrite Hack in Hr| |done].
    rewrite Hseq in *. destruct (Hk Hack) as [Hz0|?]; [lia|done].
Qed.

Lemma one_step be be' (x y : Conn) sent_x sent_y o :
  side_inv be x sent_x sent_y -> side_inv be' y sent_y sent_x -> allowed x y o ->
  (forall p, o = OpSend BestEffort p -> be p) ->
  step_ok be x y (run_op x o) sent_x (note_sent x o sent_x) sent_y.
Proof.
  intros Hx Hy Hun Hbe. destruct o as [[] p| | |k|p|e|set|now i|now|now|now|from d now|vs|now|io];
    try (by apply plain_step).
  - apply best_effort_step; auto.
  - by apply send_step.
  - apply protect_step; [done|]. by intros q ->.
  - by apply tick_step.
  - by apply (datagram_step be be').
Qed.

Lemma side_inv_be (be be' : bytes -> Prop) (x : Conn) sent peer :
  (forall p, be p -> be' p) -> side_inv be x sent peer -> side_inv be' x sent peer.
Proof.
  intros Hi [Hid Htx Hrx Hw]. split; auto. eapply Forall_impl; [exact Hw|].
  intros d (t & s & p & Ho & Hd). exists t, s, p. split; [done|].
  destruct Hd as [?|[?|(? & ? & ? & ?)]]; [by left|by right; left|right; right]. split_and!; auto.
Qed.

Lemma note_best_in o l p : p ∈ l -> p ∈ note_best o l.
Proof. intros Hp. destruct o as [[] q| | | | | | | | | | | | | |]; simpl; try done. apply elem_of_app. by left. Qed.
Lemma note_best_new o l p : o = OpSend BestEffort p -> p ∈ note_best o l.
Proof. intros ->. simpl. apply elem_of_app. right. by left. Qed.

Lemma side_inv_peer be (y : Conn) sent peer peer' :
  peer `prefix_of` peer' -> side_inv be y sent peer -> side_inv be y sent peer'.
Proof.
  intros [k ->] [Hid Htx Hrx Hw]. split; auto. eapply rx_inv_mono; [|exact Hrx].
  intros i p [[? Hl] Hb]. split; [split; [done|by apply lookup_app_l_Some]|done].
Qed.

Lemma acked_inv_seen (x y y' : Conn) sent :
  (forall n, seen (rx_rel_ y) n -> seen (rx_rel_ y') n) -> acked_inv x y sent -> acked_inv x y' sent.
Proof. intros Hs Ha Hz s Hr. destruct (Ha Hz s Hr); auto. Qed.

Lemma sys_step_inv s s' : sys_inv s -> sys_step s s' -> sys_inv s'.
Proof.
  intros [Ha Hb Hab Hba] Hstep. inversion Hstep as [s0 o Hun|s0 o Hun]; subst; simpl.
  - apply (side_inv_be _ (fun p => p ∈ note_best o (best_a s))) in Ha; [|intros p; apply note_best_in].
    destruct (one_step _ _ _ _ _ _ o Ha Hb Hun (fun p => note_best_new o _ p)) as [Hi Hseen Hpre Hack]. split; simpl; auto.
    + by eapply side_inv_peer.
    + by eapply acked_inv_seen.
  - apply (side_inv_be _ (fun p => p ∈ note_best o (best_b s))) in Hb; [|intros p; apply note_best_in].
    destruct (one_step _ _ _ _ _ _ o Hb Ha Hun (fun p => note_best_new o _ p)) as [Hi Hseen Hpre Hack]. split; simpl; auto.
    + by eapply side_inv_peer.
    + by eapply acked_inv_seen.
Qed.

Lemma fresh_side_inv be c : fresh_side c -> side_inv be c [] [].
Proof.
  intros (h & params & Hlog & Hok & Hid & ->). destruct Hok.
  split; [by split| | |].
  - split; simpl; try done; try lia; try constructor; unfold size; simpl; destruct (reduce_rtx_until_authenticated params); simpl; lia.
  - split; simpl; try done.
    + apply window_new_ok; lia.
    + lia.
    + by intros x Hx%seen_new.
    + unfold delivered_log. simpl. by rewrite Hlog.
    + unfold delivered_log. simpl. by rewrite Hlog.
    + rewrite map_size_empty. destruct (reduce_rtx_until_authenticated params); simpl; lia.
  - unfold sent_log. simpl. rewrite Hlog. constructor.
Qed.

Lemma reachable_inv s : reachable s -> sys_inv s.
Proof.
  induction 1 as [ca cb Hca Hcb|s s' _ IH Hs]; [|by eapply sys_step_inv].
  split; simpl; try (by apply fresh_side_inv); intros _ n; unfold size; simpl; lia.
Qed.

(** ** Reliable delivery *)

(** Delivered payloads are the first ones sent. *)
Lemma delivered_prefix sent (l : list (Z * bytes)) n :
  0 <= n -> l.*1 = seqZ 1 n -> Forall (fun '(i, p) => sent_payload sent i p) l ->
  l.*2 = take (length l) sent /\ Z.of_nat (length l) = n.
Proof.
  intros Hn Hseq HF.
  assert (Hlen : Z.of_nat (length l) = n).
  { rewrite <- (length_fmap fst), Hseq, length_seqZ. lia. }
  split; [|done]. apply list_eq. intros i. rewrite list_lookup_fmap.
  destruct (l !! i) as [[j p]|] eqn:Hl; simpl.
  - pose proof (lookup_lt_Some _ _ _ Hl) as Hi.
    pose proof (proj1 (Forall_lookup _ _) HF i _ Hl) as [_ Hp].
    assert (Hj : l.*1 !! i = Some j) by (by rewrite list_lookup_fmap, Hl).
    rewrite Hseq in Hj. apply lookup_seqZ in Hj as [-> _].
    replace (Z.to_nat (1 + Z.of_nat i - 1)) with i in Hp by lia.
    by rewrite lookup_take_lt.
  - apply lookup_ge_None in Hl. by rewrite lookup_take_ge.
Qed.

Lemma side_delivered be (y : Conn) sent peer_sent :
  side_inv be y sent peer_sent ->
  (delivered_log y).*2 = take (length (delivered_log y)) peer_sent
  /\ Z.of_nat (length (delivered_log y)) = last_contiguous_ (rx_rel_ y).
Proof.
  intros [_ _ Hrx _]. pose proof (rx_inv_last _ _ Hrx).
  apply delivered_prefix; [lia|apply (rxi_order _ _ Hrx)|].
  eapply Forall_impl; [apply (rxi_delivered _ _ Hrx)|]. by intros [i p] [Hp _].
Qed.

(** C1: reliable delivery, end to end.  In every reachable state of two
    connections over a network that loses, duplicates, reorders, delays and
    injects, what each end's handler has been given as reliable messages is
    exactly a prefix of what the other end's [Send] took, in order, each once,
    numbered 1, 2, 3, ...; whatever was closed, upgraded, rekeyed or resent in
    between. *)
Theorem reliable_delivery_prefix (s : Sys) :
  reachable s ->
  (delivered_log (side_b s)).*2 `prefix_of` sent_a s
  /\ (delivered_log (side_a s)).*2 `prefix_of` sent_b s
  /\ (delivered_log (side_b s)).*1 = seqZ 1 (size (delivered_log (side_b s)))
  /\ (delivered_log (side_a s)).*1 = seqZ 1 (size (delivered_log (side_a s))).
Proof.
  intros [Ha Hb _ _]%reachable_inv.
  destruct (side_delivered _ _ _ _ Ha) as [Hpa Hna], (side_delivered _ _ _ _ Hb) as [Hpb Hnb].
  unfold size. rewrite Hna, Hnb.
  split_and!; [rewrite Hpb|rewrite Hpa| |]; try apply prefix_take.
  - apply (rxi_order _ _ (si_rx _ _ _ _ Hb)).
  - apply (rxi_order _ _ (si_rx _ _ _ _ Ha)).
Qed.

(** While the sender has given no packet up
    ([reliable_lost] is 0), every payload its [Send] took is still outstanding
    (and will be resent), or has been delivered at the other end, or is held
    there with exactly its payload until the packets before it arrive. *)
Lemma sent_is_kept (s : Sys) (n : Z) :
  reachable s -> st_reliable_lost (stats_ (side_a s)) = 0 -> 1 <= n <= size (sent_a s) ->
  n ∈ (o_seq <$> outstanding_ (side_a s))
  \/ n <= size (delivered_log (side_b s))
  \/ exists h, rx_rel_hold_ (side_b s) !! n = Some h
      /\ sent_payload (sent_a s) n (hr_payload h).
Proof.
  intros [Ha Hb Hab _]%reachable_inv Hl Hn.
  destruct (Hab Hl n Hn) as [?|[[_ Hle]|Hp]]; [by left|right; left|right; right].
  - destruct (side_delivered _ _ _ _ Hb) as [_ Hlen]. unfold size. lia.
  - rewrite <- (rxi_dom _ _ (si_rx _ _ _ _ Hb)) in Hp. apply elem_of_dom in Hp as [h Hh].
    exists h. split; [done|]. apply (rxi_held _ _ (si_rx _ _ _ _ Hb) n h Hh).
Qed.

(** A drained sender has delivered everything.  Once nothing is outstanding
    and nothing was given up, the other end's handler has been given exactly
    the payloads sent, in order. *)
Lemma drained_delivered (s : Sys) :
  reachable s -> st_reliable_lost (stats_ (side_a s)) = 0 -> outstanding_ (side_a s) = [] ->
  (delivered_log (side_b s)).*2 = sent_a s /\ rx_rel_hold_ (side_b s) = ∅.
Proof.
  intros [Ha Hb Hab _]%reachable_inv Hl Hout.
  destruct (side_delivered _ _ _ _ Hb) as [Hpre Hlen].
  pose proof (si_rx _ _ _ _ Hb) as Hrx. pose proof (rx_inv_last _ _ Hrx) as HL.
  assert (Hkept : forall x, 1 <= x <= size (sent_a s) -> seen (rx_rel_ (side_b s)) x).
  { intros x Hx. destruct (Hab Hl x Hx) as [Hin|?]; [|done]. rewrite Hout in Hin. by apply not_elem_of_nil in Hin. }
  set (L := last_contiguous_ (rx_rel_ (side_b s))) in *.
  assert (HsL : size (sent_a s) <= L).
  { destruct (Z.le_gt_cases (size (sent_a s)) L) as [?|Hgt]; [done|].
    destruct (Hkept (L + 1) ltac:(lia)) as [Hc|Hc]; [fold L in Hc; lia|].
    destruct (ok_pending _ (rxi_window _ _ Hrx) _ Hc) as [Hc' _]. fold L in Hc'. lia. }
  split.
  - rewrite Hpre. apply take_ge. unfold size in HsL. lia.
  - apply map_eq. intros x. rewrite lookup_empty.
    destruct (rx_rel_hold_ (side_b s) !! x) as [h|] eqn:Hh; [|done].
    pose proof (sent_payload_range _ _ _ (proj1 (rxi_held _ _ Hrx x h Hh))).
    assert (Hp : x ∈ pending_ (rx_rel_ (side_b s)))
      by (rewrite <- (rxi_dom _ _ Hrx); apply elem_of_dom; eauto).
    destruct (ok_pending _ (rxi_window _ _ Hrx) _ Hp) as [Hp' _]. fold L in Hp'. lia.
Qed.

(** C6: nothing is lost silently.  While the sender has given no packet up
    ([reliable_lost] is 0), every payload its [Send] took is still outstanding
    (and will be resent), or has been delivered at the other end, or is held
    there with exactly its payload until the packets before it arrive.  So once
    nothing is outstanding the other end's handler has been given exactly the
    payloads sent, in order, and holds nothing back. *)
Theorem nothing_lost_silently (s : Sys) :
  reachable s -> st_reliable_lost (stats_ (side_a s)) = 0 ->
  (forall n, 1 <= n <= size (sent_a s) ->
     n ∈ (o_seq <$> outstanding_ (side_a s))
     \/ n <= size (delivered_log (side_b s))
     \/ exists h, rx_rel_hold_ (side_b s) !! n = Some h /\ sent_payload (sent_a s) n (hr_payload h))
  /\ (outstanding_ (side_a s) = [] ->
        (delivered_log (side_b s)).*2 = sent_a s /\ rx_rel_hold_ (side_b s) = ∅).
Proof. intros Hr Hl. split; [intros n; by apply sent_is_kept|by apply drained_delivered]. Qed.

(** Windows bound memory.  At each end, packets in flight never exceed the
    reliable window and are numbered in increasing order without repetition,
    and the packets held out of order never exceed it either, whatever arrives. *)
Theorem windows_bound_memory (s : Sys) :
  reachable s ->
  size (outstanding_ (side_a s)) <= reliable_window (params_ (side_a s))
  /\ StronglySorted Z.lt (o_seq <$> outstanding_ (side_a s))
  /\ Forall (fun o => sent_payload (sent_a s) (o_seq o) (o_payload o)) (outstanding_ (side_a s))
  /\ size (map_to_list (rx_rel_hold_ (side_b s))) <= reliable_window (params_ (side_b s)).
Proof.
  intros [Ha Hb _ _]%reachable_inv. destruct (si_tx _ _ _ _ Ha).
  split_and!; [done|done| |].
  - eapply Forall_impl; [done|]. by intros o [_ ?].
  - pose proof (rxi_room _ _ (si_rx _ _ _ _ Hb)). unfold size. by rewrite length_map_to_list.
Qed.

(** ** Scenarios

    A script of steps, evaluated: calls of one end's interface, or delivery to
    it of the [i]-th datagram of the other end's log. *)
Inductive script_op :=
  | Local (o : op P Io)
  | Deliver (i : nat) (from : IpEndpoint) (now : Z).

Definition script_step (me other : Conn) (so : script_op) : option (op P Io) :=
  match so with
  | Local (OpDatagram _ _ _) => None
  | Local o => Some o
  | Deliver i from now =>
      match sent_log other !! i with
      | Some d => if bytes_okb d then Some (OpDatagram from d now) else None
      | None => None
      end
  end.

Fixpoint run_script (s : Sys) (l : list (bool * script_op)) : option Sys :=
  match l with
  | [] => Some s
  | (true, so) :: rest =>
      match script_step (side_a s) (side_b s) so with
      | Some o => run_script (MkSys (run_op (side_a s) o) (side_b s)
                                (note_sent (side_a s) o (sent_a s)) (sent_b s)
                                (note_best o (best_a s)) (best_b s)) rest
      | None => None
      end
  | (false, so) :: rest =>
      match script_step (side_b s) (side_a s) so with
      | Some o => run_script (MkSys (side_a s) (run_op (side_b s) o) (sent_a s)
                                (note_sent (side_b s) o (sent_b s)) (best_a s) (note_best o (best_b s))) rest
      | None => None
      end
  end.

Lemma script_step_allowed (me other : Conn) so o :
  (forall p : P, sound p) -> script_step me other so = Some o -> allowed me other o.
Proof.
  intros Hsound. destruct so as [o'|i from now]; simpl.
  - destruct o' as [| | | |[p|]| | | | | | | | | |]; intros [= <-]; simpl; auto.
  - destruct (sent_log other !! i) as [d|] eqn:Hd; [|done].
    destruct (bytes_okb d) eqn:Hb; [|done]. intros [= <-]. split; [by apply bytes_okb_ok|].
    intros _. by eapply list_elem_of_lookup_2.
Qed.

Lemma run_script_reachable l s s' : (forall p : P, sound p) -> reachable s -> run_script s l = Some s' -> reachable s'.
Proof.
  intros Hsound. revert s. induction l as [|[[] so] l IH]; intros s Hs; simpl; [by intros [= <-]| |];
    (destruct (script_step _ _ so) as [o|] eqn:Ho; [|done]); intros Hrun; eapply IH; try exact Hrun;
    (eapply reach_step; [exact Hs|]); constructor; by eapply script_step_allowed.
Qed.
End Channel.

(** *** Two payloads, the second arriving first, one resent *)

Section Witness.
#[local] Existing Instance toy_sodium.
#[local] Existing Instance toy_sodium_laws.
#[local] Existing Instance toy_protection.
#[local] Existing Instance toy_sound.
#[local] Existing Instance toy_protection_laws.
#[local] Existing Instance toy_io.

Definition toy_host : Host (list (IpEndpoint * bytes)) := MkHost [] 1000 EndpointStats_zero false [] [].
Definition toy_params (peer_port : Z) : OpenParams :=
  OpenParams_default <| key := replicate 32 7 |> <| id := [1; 2; 3; 4; 5; 6; 7; 8] |>
    <| mint_id := false |> <| peer := IpEndpoint_V4 127 0 0 1 peer_port |>.
Definition toy_conn (peer_port : Z) : Connection Z (list (IpEndpoint * bytes)) :=
  Connection_new toy_host (toy_params peer_port) <| on_message_ := true |>.

Lemma toy_conn_fresh port : fresh_side (toy_conn port).
Proof.
  exists toy_host, (toy_params port). split; [done|]. split; [|done]. by split.
Qed.

Definition toy_script : list (bool * script_op (P := Z) (Io := ToyIo)) :=
  let a := IpEndpoint_V4 127 0 0 1 10 in
  let b := IpEndpoint_V4 127 0 0 1 20 in
  [ (true, Local (OpSend Reliable [11; 12]));
    (true, Local (OpSetProtection (Some 5))); (false, Local (OpSetProtection (Some 5)));
    (true, Local (OpSend Reliable [21]));
    (false, Deliver 1 a 1000);      (* the second, held *)
    (true, Deliver 0 b 1001);       (* its ack *)
    (false, Local (OpSetProtection None));
    (true, Local (OpTick 1060));    (* the first again *)
    (false, Deliver 2 a 1061); (false, Deliver 0 a 1062); (false, Local (OpSetProtection (Some 5)));
    (true, Deliver 1 b 1070) ].

Definition toy_sys : option (Sys (P := Z) (Io := ToyIo)) := run_script (MkSys (toy_conn 20) (toy_conn 10) [] [] [] []) toy_script.
Definition toy_final : Sys (P := Z) (Io := ToyIo) := default (MkSys (toy_conn 20) (toy_conn 10) [] [] [] []) toy_sys.

Lemma toy_final_reachable : reachable toy_final.
Proof.
  apply (run_script_reachable toy_script (MkSys (toy_conn 20) (toy_conn 10) [] [] [] [])); [done| |].
  - apply reach_init; apply toy_conn_fresh.
  - vm_compute. reflexivity.
Qed.

Example toy_final_delivered : delivered_log (side_b toy_final) = [(1, [11; 12]); (2, [21])].
Proof. vm_compute. reflexivity. Qed.
Example toy_final_sent : sent_a toy_final = [[11; 12]; [21]] /\ outstanding_ (side_a toy_final) = [].
Proof. vm_compute. done. Qed.

Theorem reliable_delivery_prefix_witness :
  (delivered_log (side_b toy_final)).*2 `prefix_of` sent_a toy_final
  /\ (delivered_log (side_a toy_final)).*2 `prefix_of` sent_b toy_final
  /\ (delivered_log (side_b toy_final)).*1 = seqZ 1 (size (delivered_log (side_b toy_final)))
  /\ (delivered_log (side_a toy_final)).*1 = seqZ 1 (size (delivered_log (side_a toy_final))).
Proof. apply (reliable_delivery_prefix toy_final). apply toy_final_reachable. Defined.

Theorem nothing_lost_silently_witness :
  (2 ∈ (o_seq <$> outstanding_ (side_a toy_final))
   \/ 2 <= size (delivered_log (side_b toy_final))
   \/ exists h, rx_rel_hold_ (side_b toy_final) !! 2 = Some h
       /\ sent_payload (sent_a toy_final) 2 (hr_payload h))
  /\ (delivered_log (side_b toy_final)).*2 = sent_a toy_final.
Proof.
  destruct (nothing_lost_silently toy_final) as [Hkept Hall]; [apply toy_final_reachable|by vm_compute|].
  split; [apply Hkept; by vm_compute|apply Hall; by vm_compute].
Defined.

Theorem windows_bound_memory_witness :
  size (outstanding_ (side_a toy_final)) <= reliable_window (params_ (side_a toy_final))
  /\ StronglySorted Z.lt (o_seq <$> outstanding_ (side_a toy_final))
  /\ Forall (fun o => sent_payload (sent_a toy_final) (o_seq o) (o_payload o))
       (outstanding_ (side_a toy_final))
  /\ size (map_to_list (rx_rel_hold_ (side_b toy_final)))
     <= reliable_window (params_ (side_b toy_final)).
Proof. apply (windows_bound_memory toy_final). apply toy_final_reachable. Defined.
End Witness.
