(* ===== verification/ConnectionProps.v ===== *)
(** * Properties of one association

    Timers, retransmission budgets, replay, authentication and liveness: the
    guards of [Connection.cpp] stated over single operations and over any run
    of them. *)

From S2P Require Import Prelude L1Types Toy ReplayWindow WireCodec Connection ConnectionFacts ConnectionSender ReliableChannel.

Section Props.
Context {P Io : Type} `{PacketProtection P} `{DatagramIo Io} `{Sodium}.
#[local] Existing Instance any_sound.
Abbreviation Conn := (Connection P Io).

(** ** Invariants of the receiving side, by the fields it writes *)

(** A predicate that survives each assignment receiving a datagram can make. *)
Record receive_closed (I : Conn -> Prop) : Prop := {
  rc_net c u h : I c -> I (c <| peer_unreachable_ := u |> <| endpoint_ := h |>);
  rc_windows c w1 w2 hold next :
    I c -> I (c <| rx_be_ := w1 |> <| rx_rel_ := w2 |> <| rx_rel_hold_ := hold |>
                <| rx_rel_next_deliver_ := next |>);
  rc_fresh c t ts have p :
    I c -> I (c <| last_auth_rx_ms_ := t |> <| max_auth_rx_ts_ := ts |> <| have_auth_rx_ts_ := have |>
                <| peer_ := p |>);
  rc_keepalive c v : v <= kMaxPeerKeepaliveIntervalMs ->
    I c -> I (c <| peer_keepalive_interval_ms_ := v |>);
  rc_close c : I c -> I (c <| peer_closed_ := true |> <| closed_ := true |>);
  rc_rtt c n s sr rv :
    I c -> I (c <| rto_backoff_ := 0 |>
                <| stats_ ::= fun st => st <| st_rtt_samples := n |> <| st_rtt_sum_ms := s |>
                                           <| srtt_ms := sr |> <| rttvar_ms := rv |> |>);
  rc_ack c os : os `sublist_of` outstanding_ c -> I c -> I (c <| outstanding_ := os |>);
}.

Section Closed.
Variable I : Conn -> Prop.
Hypothesis HI : receive_closed I.

Lemma closed_host c h : I c -> I (c <| endpoint_ := h |>).
Proof. intros Hc. pose proof (rc_net I HI c (peer_unreachable_ c) h Hc) as Hn. by destruct c. Qed.

Lemma closed_SendPacket c t s p now k : I c -> I (SendPacket c t s p now k).1.
Proof.
  intros Hc. destruct (SendPacket_spec c t s p now k) as (u & h & -> & _). by apply (rc_net I HI).
Qed.

Lemma closed_DeliverLoop fuel c : I c -> I (DeliverLoop fuel c).
Proof.
  revert c. induction fuel as [|fuel IH]; intros c Hc; simpl; [done|].
  destruct (_ !! _); [|done]. apply IH, closed_host.
  pose proof (rc_windows I HI c (rx_be_ c) (rx_rel_ c)
    (delete (rx_rel_next_deliver_ c) (rx_rel_hold_ c)) (u32 (rx_rel_next_deliver_ c + 1)) Hc) as Hw.
  by destruct c.
Qed.

Lemma closed_SetPeerEndpoint c e : I c -> I (SetPeerEndpoint c e).
Proof.
  intros Hc. unfold SetPeerEndpoint. destruct (endpoint_eqb _ _); [done|]. cbv zeta.
  assert (Hp : I (c <| peer_ := e |>)).
  { pose proof (rc_fresh I HI c (last_auth_rx_ms_ c) (max_auth_rx_ts_ c) (have_auth_rx_ts_ c) e Hc).
    by destruct c. }
  destruct (on_path_change_ _); [by apply (closed_host _ (emit _ _))|done].
Qed.

Lemma closed_NoteFresh c from fr now : I c -> I (NoteFresh c from fr now).
Proof.
  intros Hc. unfold NoteFresh. destruct fr; [|done].
  assert (Hl : I (c <| last_auth_rx_ms_ := now |>)).
  { pose proof (rc_fresh I HI c now (max_auth_rx_ts_ c) (have_auth_rx_ts_ c) (peer_ c) Hc).
    by destruct c. }
  unfold MaybeLearnPath. destruct (forallb _ _); [by apply closed_SetPeerEndpoint|].
  destruct (negb _); [by apply closed_SetPeerEndpoint|done].
Qed.

Lemma closed_NoteTimestamp c pkt : I c -> I (NoteTimestamp c pkt).
Proof.
  intros Hc. unfold NoteTimestamp. destruct (_ && _); [|done].
  pose proof (rc_fresh I HI c (last_auth_rx_ms_ c) (timestamp_ms pkt) true (peer_ c) Hc).
  by destruct c.
Qed.

Lemma closed_Classify c pkt : I c -> I (ClassifyPacket c pkt).1.
Proof.
  intros Hc.
  assert (Hbe : forall w, I (c <| rx_be_ := w |>)).
  { intros w. pose proof (rc_windows I HI c w (rx_rel_ c) (rx_rel_hold_ c) (rx_rel_next_deliver_ c) Hc).
    by destruct c. }
  assert (Hrel : forall w, I (c <| rx_rel_ := w |>)).
  { intros w. pose proof (rc_windows I HI c (rx_be_ c) w (rx_rel_hold_ c) (rx_rel_next_deliver_ c) Hc).
    by destruct c. }
  unfold ClassifyPacket, ClassifyReliable. destruct (type pkt); simpl; try done;
    repeat (case_match_goal; simpl); auto.
Qed.

Lemma closed_Keepalive c now i f : I c -> I (SendKeepalivePacket c now i f).1.
Proof.
  intros Hc. unfold SendKeepalivePacket. destruct (closed_ c); [done|]. destruct (_ =? _); [done|].
  by apply closed_SendPacket.
Qed.

Lemma closed_NoteRttSample c rtt : I c -> I (NoteRttSample c rtt).
Proof.
  intros Hc. pose proof (closed_host c (Host_NoteRttSample (endpoint_ c) rtt) Hc) as Hh.
  set (s := if rtt <? 0 then 0 else rtt).
  pose proof (fun sr rv => rc_rtt I HI _ (fetch_add 1 (st_rtt_samples (stats_ c)))
    (fetch_add s (st_rtt_sum_ms (stats_ c))) sr rv Hh) as Hr.
  unfold NoteRttSample. cbv zeta. fold s. destruct (srtt_ms _ <? 0).
  - specialize (Hr s (Z.quot s 2)). destruct c as [? ? ? ? ? ? ? ? ? ? ? ? ? ? ? ? ? ? ? ? ? ? ? ? ? ? ? ? ? []].
    exact Hr.
  - set (e := if _ <? s then _ else _).
    specialize (Hr (srtt_ms (stats_ c) + Z.quot (s - srtt_ms (stats_ c)) 8)
                  (rttvar_ms (stats_ c) + Z.quot (e - rttvar_ms (stats_ c)) 4)).
    destruct c as [? ? ? ? ? ? ? ? ? ? ? ? ? ? ? ? ? ? ? ? ? ? ? ? ? ? ? ? ? []]. exact Hr.
Qed.

Lemma closed_HandleAck c pkt now : I c -> I (HandleAck c pkt now).
Proof.
  intros Hc. unfold HandleAck. set (c1 := match list_find _ _ with Some _ => _ | None => _ end).
  assert (Hc1 : I c1).
  { subst c1. destruct (list_find _ _) as [[i o]|]; [by apply closed_NoteRttSample|done]. }
  apply (rc_ack I HI _ (filter _ _)); [|done]. apply sublist_filter.
Qed.

Lemma closed_HandleReliable c pkt fd ak now : I c -> I (HandleReliable c pkt fd ak now).
Proof.
  intros Hc. unfold HandleReliable. set (c1 := if ak then _ else c).
  assert (Hc1 : I c1) by (subst c1; destruct ak; [by apply closed_SendPacket|done]).
  destruct (negb fd); [done|]. destruct (on_message_ c1); [|done].
  unfold DeliverReliableInOrder. destruct (negb _).
  all: try apply closed_DeliverLoop.
  all: pose proof (rc_windows I HI c1 (rx_be_ c1) (rx_rel_ c1)
         (<[seq pkt := MkHeld (IsSealed (type pkt)) (payload pkt)]> (rx_rel_hold_ c1))
         (rx_rel_next_deliver_ c1) Hc1) as Hw; by destruct c1.
Qed.

Lemma closed_HandleAuthenticated c pkt from now : I c -> I (HandleAuthenticated c pkt from now).
Proof.
  intros Hc. unfold HandleAuthenticated. destruct (_ && _); [done|].
  assert (Hr : I (RefusePlainAfterKeys c pkt).1).
  { unfold RefusePlainAfterKeys. destruct (_ || _); [done|].
    destruct (type pkt); try done. case_decide; [by apply closed_SendPacket|done]. }
  destruct (RefusePlainAfterKeys c pkt) as [c1 []]; [done|]. simpl in Hr.
  pose proof (closed_Classify c1 pkt Hr) as Hcl.
  destruct (ClassifyPacket c1 pkt) as [c2 [[fr fd] ak]]. simpl in Hcl.
  pose proof (closed_NoteFresh _ from fr now (closed_NoteTimestamp c2 pkt Hcl)) as Hn.
  set (c3 := NoteFresh _ _ _ _) in *. clearbody c3.
  assert (Hbe : I (HandleBestEffort c3 pkt fd)).
  { unfold HandleBestEffort. destruct (negb fd); [done|].
    destruct (on_message_ c3); [by apply (closed_host _ (emit _ _))|done]. }
  destruct (type pkt); try done; try (by apply closed_HandleReliable).
  - by apply closed_HandleAck.
  - unfold HandleClose. destruct (_ && _); [done|].
    apply (closed_host _ (Unregister _ _)). by apply (rc_close I HI).
  - destruct (negb _); [done|]. unfold HandleKeepalive. destruct (_ <? _); [done|]. cbv zeta.
    destruct (negb _); [apply closed_Keepalive|]; apply (rc_keepalive I HI); auto; lia.
Qed.

Lemma closed_HandleDatagram c from d now : I c -> I (HandleDatagram c from d now).
Proof.
  intros Hc. rewrite HandleDatagram_extract. destruct (Extract c d now) as [[[] pkt]|].
  - by apply closed_HandleAuthenticated.
  - unfold HandlePreUpgradeKeyPacket. destruct (negb _); [done|]. destruct (type pkt); try done.
    + apply (rc_ack I HI _ (filter _ _)); [|done]. apply sublist_filter.
    + case_decide; [by apply closed_SendPacket|done].
  - by apply (closed_host _ (NoteRejected _)).
Qed.
End Closed.

(** ** Retransmission budget

    Resends an association may still make for what it has in flight. *)
Definition spare (M : Z) (os : list Outstanding) : Z := foldr (fun o acc => M - attempts o + acc) 0 os.

Record budget_inv (M : Z) (c : Conn) : Prop := {
  bi_id : length (id_ c) = kAssocIdBytes;
  bi_max : max_rtx (params_ c) = M;
  bi_sent : st_reliable_sent (stats_ c) = tx_seq_rel_ c;
  bi_u32 : 0 <= tx_seq_rel_ c < 2 ^ 32;
  bi_attempts : Forall (fun o => 0 <= attempts o <= M) (outstanding_ c);
  bi_retransmits : 0 <= st_retransmits (stats_ c);
  bi_spare : st_retransmits (stats_ c) + spare M (outstanding_ c) <= M * tx_seq_rel_ c;
}.

Lemma spare_nonneg M os : Forall (fun o => 0 <= attempts o <= M) os -> 0 <= spare M os.
Proof. induction 1; simpl; lia. Qed.

Lemma spare_sublist M (os os' : list Outstanding) :
  os' `sublist_of` os -> Forall (fun o => 0 <= attempts o <= M) os -> spare M os' <= spare M os.
Proof.
  induction 1 as [|o k l _ IH|o k l _ IH]; rewrite ?Forall_cons; simpl; [lia| |]; intros [? HF];
    specialize (IH HF); lia.
Qed.

Lemma spare_app M os os' : spare M (os ++ os') = spare M os + spare M os'.
Proof. induction os; simpl; lia. Qed.

Lemma budget_closed M : receive_closed (budget_inv M).
Proof.
  split; [..|intros c os Hs []]; try (by intros * []); try (by intros * ? []).
  split; try done; simpl.
  - by eapply Forall_sublist.
  - pose proof (spare_sublist M (outstanding_ c) os Hs bi_attempts0). lia.
Qed.

(** The first loop of a tick spends the budget it uses. *)
Lemma budget_retransmit M (c : Conn) os now :
  0 <= M <= 64 -> length (id_ c) = kAssocIdBytes -> max_rtx (params_ c) = M ->
  Forall (fun o => 0 <= attempts o <= M) os -> 0 <= st_retransmits (stats_ c) ->
  st_retransmits (stats_ c) + spare M os < 2 ^ 64 ->
  let '(c', os') := RetransmitAll c os now in
  length (id_ c') = kAssocIdBytes /\ max_rtx (params_ c') = M
  /\ st_reliable_sent (stats_ c') = st_reliable_sent (stats_ c)
  /\ tx_seq_rel_ c' = tx_seq_rel_ c
  /\ Forall (fun o => 0 <= attempts o <= M) os' /\ 0 <= st_retransmits (stats_ c')
  /\ st_retransmits (stats_ c') + spare M os' = st_retransmits (stats_ c) + spare M os.
Proof.
  revert c. induction os as [|o os IH]; intros c HM Hid Hmax Hatt Hr Hb; simpl; [by split_and!|].
  apply Forall_cons in Hatt as [Ho Hatt]. simpl in Hb.
  pose proof (spare_nonneg M os Hatt) as Hsp.
  pose proof (RetransmitOne_post (fun _ _ _ => True) c o now (conj Hid (fun _ _ => Logic.I)) Logic.I) as Hone.
  destruct (RetransmitOne c o now) as [c1 o1].
  destruct Hone as (Hf & Htx & Htm & _ & Hsent & Hcase).
  assert (Hid1 : length (id_ c1) = kAssocIdBytes) by (by rewrite (f_equal fst (fr_id _ _ _ Hf) : id_ c1 = id_ c)).
  assert (Hmax1 : max_rtx (params_ c1) = M) by (injection Htm as _ -> _ _; done).
  assert (Hone : 0 <= attempts o1 <= M /\ 0 <= st_retransmits (stats_ c1)
    /\ st_retransmits (stats_ c1) - attempts o1 = st_retransmits (stats_ c) - attempts o).
  { destruct (resent c o now) eqn:Hres; [|by destruct Hcase as [-> ->]].
    unfold resent in Hres. apply andb_true_iff in Hres as [_ Hlt]. zbool.
    destruct Hcase as (-> & _ & ->). rewrite u64_id by (unfold is_u64; lia). lia. }
  destruct Hone as (Ho1 & Hr1 & Heq).
  specialize (IH c1 HM Hid1 Hmax1 Hatt Hr1 ltac:(lia)).
  destruct (RetransmitAll c1 os now) as [c2 os2].
  destruct IH as (? & ? & ? & ? & ? & ? & ?). injection Htx as Hseq _ _ _.
  split_and!; try done; try congruence; [by constructor|simpl; lia].
Qed.

Lemma DropFailed_counts (c : Conn) os now :
  st_retransmits (stats_ (DropFailed c os now)) = st_retransmits (stats_ c)
  /\ st_reliable_sent (stats_ (DropFailed c os now)) = st_reliable_sent (stats_ c)
  /\ id_ (DropFailed c os now) = id_ c.
Proof.
  revert c. induction os as [|o os IH]; intros c; simpl; [done|].
  destruct (GivenUp c o now); [|done]. by rewrite !(proj1 (IH _)), !(proj1 (proj2 (IH _))), !(proj2 (proj2 (IH _))).
Qed.

Lemma budget_tick M (c : Conn) now : 0 <= M <= 64 -> budget_inv M c -> budget_inv M (Tick c now).
Proof.
  intros HM [Hid Hmax Hsent Hu Hatt Hr Hsp]. unfold Tick. destruct (closed_ c); [by split|].
  pose proof (budget_retransmit M c (outstanding_ c) now HM Hid Hmax Hatt Hr ltac:(nia)) as Hall.
  destruct (RetransmitAll c (outstanding_ c) now) as [c1 os'].
  destruct Hall as (Hid1 & Hmax1 & Hsent1 & Hseq1 & Hatt1 & Hr1 & Hsp1).
  set (c2 := c1 <| outstanding_ := os' |>).
  destruct (DropFailed_post (fun _ _ _ => True) c2 os' now eq_refl)
    as (_ & Htm & Hs & k & Hk & _ & _).
  destruct (DropFailed_counts c2 os' now) as (Hc1 & Hc2 & Hc3).
  injection Htm as _ Hp _ _.
  pose proof (spare_sublist M os' (drop k os') (sublist_drop _ _) Hatt1).
  split; rewrite ?Hc1, ?Hc2, ?Hc3, ?Hs, ?Hk, ?Hp; simpl; try done; try congruence; try lia.
  by apply Forall_drop.
Qed.

Lemma budget_send M (c : Conn) p now :
  0 <= M <= 64 -> budget_inv M c -> budget_inv M (SendReliable c p now).1.
Proof.
  intros HM Hc. pose proof Hc as [Hid Hmax Hsent Hu Hatt Hr Hsp]. unfold SendReliable.
  destruct (_ <=? _); [done|]. destruct (_ =? _) eqn:Hwrap; [done|]. zbool. cbv zeta.
  set (o := MkOutstanding _ _ _ _ _ _ _ _). set (c1 := _ <| stats_ ::= _ |>).
  assert (Hc1 : budget_inv M c1).
  { assert (Hseq1 : tx_seq_rel_ c1 = tx_seq_rel_ c + 1)
      by (subst c1; simpl; apply u32_id; unfold is_u32; lia).
    split; rewrite ?Hseq1; try done; try lia.
    - subst c1. simpl. rewrite Hsent. apply u64_id. unfold is_u64. lia.
    - apply Forall_app_2; [exact Hatt|]. constructor; [simpl; lia|constructor].
    - subst c1. simpl. rewrite spare_app. simpl. lia. }
  pose proof (closed_SendPacket _ (budget_closed M) c1 (o_type o) (tx_seq_rel_ c1) p now None Hc1) as H2.
  destruct (SendPacket c1 _ _ _ _ _) as [c2 [|e]]; simpl in *; [done|].
  by destruct (peer_unreachable_ c2).
Qed.

(** Every operation but the upgrade stays within the budget. *)
Lemma budget_op M (c : Conn) (o : op P Io) :
  0 <= M <= 64 -> (forall k, o <> OpUpgradeBinder k) -> budget_inv M c -> budget_inv M (run_op c o).
Proof.
  intros HM Hup Hc. pose proof (budget_closed M) as HI.
  assert (Hfields : forall c1 : Conn, id_ c1 = id_ c -> params_ c1 = params_ c -> stats_ c1 = stats_ c ->
            tx_seq_rel_ c1 = tx_seq_rel_ c -> outstanding_ c1 = outstanding_ c -> budget_inv M c1).
  { intros c1 E1 E2 E3 E4 E5. destruct Hc. split; rewrite ?E1, ?E2, ?E3, ?E4, ?E5; done. }
  destruct o as [[] p| | |k|p|e|set|now i|now|now|now|from d now|vs|now|io]; simpl.
  - unfold Send. destruct (closed_ c); [done|]. destruct (_ <? _); [done|]. cbv zeta.
    destruct (_ =? _); [done|]. unfold SendPacketAsFailure. set (c1 := c <| tx_seq_be_ ::= _ |>).
    pose proof (closed_SendPacket _ HI c1 (if Sealing c1 then DataBestEffort else PlainBestEffort)
      (tx_seq_be_ c1) p (clock_ (endpoint_ c)) None (Hfields c1 eq_refl eq_refl eq_refl eq_refl eq_refl)) as H2.
    destruct (SendPacket c1 _ _ _ _ _) as [c2 []]; done.
  - unfold Send. destruct (closed_ c); [done|]. destruct (_ <? _); [done|]. by apply budget_send.
  - unfold CloseConnection. destruct (closed_ c); [done|]. cbv zeta.
    pose proof (closed_SendPacket _ HI c L1Types.Close 0 [] (clock_ (endpoint_ c)) None Hc) as H2.
    destruct (SendPacket c _ _ _ _ _) as [c1 r]. simpl in H2. destruct H2. by split.
  - unfold Abandon. destruct (closed_ c); [done|]. by apply Hfields.
  - by destruct (Hup k).
  - by apply Hfields.
  - by apply (closed_SetPeerEndpoint _ HI).
  - by apply Hfields.
  - unfold SendKeepalive. apply (closed_Keepalive _ HI). by apply Hfields.
  - unfold StopKeepalive. destruct (_ =? _); [done|]. apply (closed_Keepalive _ HI). by apply Hfields.
  - unfold SendProbe. by apply (closed_Keepalive _ HI).
  - by apply budget_tick.
  - by apply (closed_HandleDatagram _ HI).
  - unfold HandleVersionNegotiation. destruct (_ || _); [done|]. by apply Hfields.
  - by apply Hfields.
  - by apply Hfields.
Qed.

Definition run (c : Conn) (ops : list (op P Io)) : Conn := fold_left run_op ops c.

Lemma budget_run M (c : Conn) ops :
  0 <= M <= 64 -> Forall (fun o => forall k, o <> OpUpgradeBinder k) ops ->
  budget_inv M c -> budget_inv M (run c ops).
Proof.
  intros HM HF. revert c. induction HF as [|o ops Ho _ IH]; intros c Hc; [done|].
  apply IH. by apply budget_op.
Qed.

(** C17: no reflection amplification before authentication.  Of an association
    opened with [reduce_rtx_until_authenticated], whatever datagrams arrive and
    whatever its owner calls short of [UpgradeBinder], the resends of reliable
    packets are at most 2 per packet sent, 6 for a dialer's own handshake. *)
Theorem preauth_retransmits_bounded (h : Host Io) (params : OpenParams) (ops : list (op P Io)) :
  length (id params) = kAssocIdBytes -> 0 <= max_rtx params ->
  reduce_rtx_until_authenticated params = true ->
  Forall (fun o => forall k, o <> OpUpgradeBinder k) ops ->
  let c := run (Connection_new h params) ops in
  st_retransmits (stats_ c)
  <= (if dialer_backoff params then kPreAuthDialMaxRtx else kPreAuthMaxRtx)
     * st_reliable_sent (stats_ c).
Proof.
  intros Hid Hmax Hred Hops. set (K := if dialer_backoff params then _ else _). cbv zeta.
  assert (HK : 0 <= K <= 6) by (subst K; by destruct (dialer_backoff params)).
  set (M := Z.min (max_rtx params) K).
  assert (Hb : budget_inv M (run (Connection_new h params) ops)).
  { apply budget_run; [lia|done|]. unfold Connection_new. rewrite Hred.
    split; try done; simpl; try lia. }
  destruct Hb as [_ _ Hsent Hu Hatt _ Hsp]. rewrite Hsent.
  pose proof (spare_nonneg M _ Hatt). nia.
Qed.

(** ** Timers *)

Lemma RtoMs_range (c : Conn) :
  rtx_interval_ms (params_ c) <= RtoMs c <= Z.max kMaxRtoMs (rtx_interval_ms (params_ c)).
Proof.
  unfold RtoMs, clamp. repeat case_match_goal; zbool; lia.
Qed.

(** The retransmit timeout.  Authenticated: whatever the round-trip
    estimates are, the wait is never shorter than [rtx_interval_ms] nor longer
    than [kMaxRtoMs] (or [rtx_interval_ms] if that is more), and each further
    resend doubles it up to that cap (8 doublings at most).  Before: fixed for
    an accepted association, doubling without estimates for a dialer. *)
Theorem retransmit_interval_bounds (c : Conn) (d : Z) :
  0 < rtx_interval_ms (params_ c) -> 0 <= d ->
  let cap := Z.max kMaxRtoMs (rtx_interval_ms (params_ c)) in
  if authenticated_ c then
    rtx_interval_ms (params_ c) <= RetransmitIntervalMs c d <= cap
    /\ (d < 8 -> RetransmitIntervalMs c (d + 1) = Z.min (2 * RetransmitIntervalMs c d) cap)
    /\ (8 <= d -> RetransmitIntervalMs c d = RetransmitIntervalMs c 8)
  else RetransmitIntervalMs c d
       = rtx_interval_ms (params_ c) * (if dialer_backoff (params_ c) then 2 ^ Z.min d 16 else 1).
Proof.
  intros Hr Hd. cbv zeta. pose proof (RtoMs_range c) as Hrto. unfold RetransmitIntervalMs. cbv zeta.
  destruct (authenticated_ c).
  - rewrite !Z.shiftl_mul_pow2 by lia. split_and!.
    + assert (1 <= 2 ^ Z.min d 8) by (apply (Z.pow_le_mono_r 2 0); lia). nia.
    + assert (1 <= 2 ^ Z.min d 8) by (apply (Z.pow_le_mono_r 2 0); lia). nia.
    + intros Hlt. rewrite !Z.min_l with (n := d + 1) by lia. rewrite Z.min_l with (n := d) by lia.
      rewrite Z.pow_add_r by lia. assert (0 < 2 ^ d) by (apply Z.pow_pos_nonneg; lia).
      change (2 ^ 1) with 2. lia.
    + intros H8. by rewrite !Z.min_r with (m := 8) by lia.
  - destruct (dialer_backoff (params_ c)); cbn [negb]; [|lia].
    by rewrite Z.shiftl_mul_pow2 by lia.
Qed.

(** ** Round-trip estimates *)

Lemma quot_step a b d : 0 <= a -> 0 <= b -> 0 < d -> Z.min a b <= a + Z.quot (b - a) d <= Z.max a b.
Proof.
  intros Ha Hb Hd. destruct (Z.le_gt_cases a b).
  - rewrite Z.quot_div_nonneg by lia.
    assert (0 <= (b - a) / d <= b - a); [|lia].
    split; [apply Z.div_pos; lia|]. apply Z.div_le_upper_bound; nia.
  - replace (b - a) with (- (a - b)) by lia. rewrite Z.quot_opp_l, Z.quot_div_nonneg by lia.
    assert (0 <= (a - b) / d <= a - b); [|lia].
    split; [apply Z.div_pos; lia|]. apply Z.div_le_upper_bound; nia.
Qed.

(** The estimates lie in the range of the samples seen. *)
Definition estimates_in (lo hi : Z) (c : Conn) : Prop :=
  (srtt_ms (stats_ c) = -1 /\ rttvar_ms (stats_ c) = -1)
  \/ (lo <= srtt_ms (stats_ c) <= hi /\ 0 <= rttvar_ms (stats_ c) <= Z.max (hi - lo) (Z.quot hi 2)).

Lemma NoteRttSample_estimates lo hi (c : Conn) rtt :
  0 <= lo <= hi -> lo <= rtt <= hi -> estimates_in lo hi c ->
  estimates_in lo hi (NoteRttSample c rtt) /\ 0 <= srtt_ms (stats_ (NoteRttSample c rtt)).
Proof.
  intros Hlo Hrtt Hest. unfold NoteRttSample. cbv zeta.
  rewrite (proj2 (Z.ltb_ge rtt 0)) by lia. unfold estimates_in.
  destruct Hest as [[Hs Hv]|[Hs Hv]]; simpl.
  - rewrite Hs. simpl. split; [right|lia]. split; [done|].
    assert (0 <= Z.quot rtt 2 <= Z.quot hi 2); [|lia].
    split; [apply Z.quot_pos; lia|apply Z.quot_le_mono; lia].
  - rewrite (proj2 (Z.ltb_ge (srtt_ms (stats_ c)) 0)) by lia. simpl.
    set (e := if _ <? rtt then _ else _).
    assert (He : 0 <= e <= hi - lo)
      by (subst e; destruct (Z.ltb_spec (srtt_ms (stats_ c)) rtt); lia).
    pose proof (quot_step (srtt_ms (stats_ c)) rtt 8 ltac:(lia) ltac:(lia) ltac:(lia)).
    pose proof (quot_step (rttvar_ms (stats_ c)) e 4 ltac:(lia) ltac:(lia) ltac:(lia)).
    split; [right|]; lia.
Qed.

Definition rtt_samples_run (c : Conn) (samples : list Z) : Conn := fold_left NoteRttSample samples c.

(** The round-trip estimator is stable.  After any samples between [lo] and
    [hi] the smoothed round trip is between [lo] and [hi] too, and the
    variation is not negative and at most the spread of the samples (or half of
    [hi], its first value): the integer arithmetic never drifts out. *)
Theorem rtt_estimates_bounded (c : Conn) (lo hi : Z) (samples : list Z) :
  0 <= lo <= hi -> Forall (fun r => lo <= r <= hi) samples -> samples <> [] ->
  srtt_ms (stats_ c) = -1 -> rttvar_ms (stats_ c) = -1 ->
  let c' := rtt_samples_run c samples in
  lo <= srtt_ms (stats_ c') <= hi
  /\ 0 <= rttvar_ms (stats_ c') <= Z.max (hi - lo) (Z.quot hi 2).
Proof.
  intros Hlo HF Hne Hs Hv. cbv zeta.
  assert (Hrun : forall l c0, Forall (fun r => lo <= r <= hi) l -> estimates_in lo hi c0 ->
    estimates_in lo hi (rtt_samples_run c0 l)
    /\ (l <> [] \/ 0 <= srtt_ms (stats_ c0) -> 0 <= srtt_ms (stats_ (rtt_samples_run c0 l)))).
  { intros l. induction l as [|r l IH]; intros c0 Hl He; [by split; [|naive_solver]|].
    apply Forall_cons in Hl as [Hr Hl].
    destruct (NoteRttSample_estimates lo hi c0 r Hlo Hr He) as [He' H0s].
    destruct (IH _ Hl He') as [Hend Hpos]. split; [done|]. intros _. apply Hpos. by right. }
  destruct (Hrun samples c HF ltac:(by left)) as [[[Hbad _]|Hin] Hpos]; [|done].
  specialize (Hpos ltac:(by left)). lia.
Qed.

(** ** Replay *)

(** Nothing after the freshness decision writes the path or the liveness. *)
Definition path_of (c : Conn) := (peer_ c, last_auth_rx_ms_ c).

Lemma SendPacket_path (c : Conn) t s p now k : path_of (SendPacket c t s p now k).1 = path_of c.
Proof. apply SendPacket_views. Qed.

Lemma DeliverLoop_path fuel (c : Conn) : path_of (DeliverLoop fuel c) = path_of c.
Proof.
  revert c. induction fuel as [|fuel IH]; intros c; simpl; [done|].
  destruct (_ !! _); [|done]. by rewrite IH.
Qed.

Lemma SendKeepalivePacket_path (c : Conn) now i f :
  path_of (SendKeepalivePacket c now i f).1 = path_of c.
Proof.
  unfold SendKeepalivePacket. destruct (closed_ c); [done|].
  destruct (_ =? _); [done|]. apply SendPacket_path.
Qed.

Lemma HandleReliable_path (c : Conn) pkt fd ak now : path_of (HandleReliable c pkt fd ak now) = path_of c.
Proof.
  unfold HandleReliable. set (c1 := if ak then _ else c).
  assert (Hc1 : path_of c1 = path_of c) by (subst c1; destruct ak; [apply SendPacket_path|done]).
  destruct (negb fd), (on_message_ c1); try done.
  unfold DeliverReliableInOrder. destruct (negb _); [done|]. by rewrite DeliverLoop_path.
Qed.

Lemma HandleAck_path (c : Conn) pkt now : path_of (HandleAck c pkt now) = path_of c.
Proof.
  unfold HandleAck. destruct (list_find _ _) as [[i o]|]; [|done].
  unfold NoteRttSample. cbv zeta. by destruct (_ <? 0).
Qed.

Lemma HandleKeepalive_path (c : Conn) pkt now : path_of (HandleKeepalive c pkt now) = path_of c.
Proof.
  unfold HandleKeepalive. destruct (_ <? _); [done|]. cbv zeta. destruct (negb _); [|done].
  by rewrite SendKeepalivePacket_path.
Qed.

(** The rest of the handler, after the path was noted. *)
Definition Dispatch (c : Conn) (pkt : WirePacket) (fd ak : bool) (now : Z) : Conn :=
  match type pkt with
  | Ack => HandleAck c pkt now
  | L1Types.Close => HandleClose c
  | Keepalive => if negb (authenticated_ c) then c else HandleKeepalive c pkt now
  | DataBestEffort | PlainBestEffort => HandleBestEffort c pkt fd
  | DataReliable | PlainReliable => HandleReliable c pkt fd ak now
  end.

Lemma Dispatch_path (c : Conn) pkt fd ak now : path_of (Dispatch c pkt fd ak now) = path_of c.
Proof.
  unfold Dispatch, HandleClose, HandleBestEffort.
  destruct (type pkt); rewrite ?HandleReliable_path, ?HandleAck_path; try done;
    repeat (case_match_goal; try done). apply HandleKeepalive_path.
Qed.

Lemma HandleAuthenticated_dispatch (c : Conn) pkt from now :
  HandleAuthenticated c pkt from now
  = if negb (IsSealed (type pkt)) && negb (AcceptSkew c (timestamp_ms pkt) now) then c
    else if (RefusePlainAfterKeys c pkt).2 then (RefusePlainAfterKeys c pkt).1
    else let '(c1, (fr, fd, ak)) := ClassifyPacket c pkt in
         Dispatch (NoteFresh (NoteTimestamp c1 pkt) from fr now) pkt fd ak now.
Proof.
  unfold HandleAuthenticated. destruct (_ && _); [done|].
  destruct (RefusePlainAfterKeys c pkt) as [c1 []] eqn:Hr; [done|].
  apply RefusePlainAfterKeys_false in Hr as ->. done.
Qed.

Lemma Classify_path (c : Conn) pkt : path_of (NoteTimestamp (ClassifyPacket c pkt).1 pkt) = path_of c.
Proof.
  unfold NoteTimestamp, ClassifyPacket, ClassifyReliable.
  repeat (case_match_goal; simpl; try done).
Qed.

(** A packet that is not fresh moves nothing. *)
Lemma stale_moves_nothing (c : Conn) pkt from now :
  (ClassifyPacket c pkt).2.1.1 = false ->
  path_of (HandleAuthenticated c pkt from now) = path_of c.
Proof.
  intros Hst. rewrite HandleAuthenticated_dispatch. destruct (_ && _); [done|].
  destruct (RefusePlainAfterKeys c pkt).2 eqn:Hr.
  - unfold RefusePlainAfterKeys. repeat (case_match_goal; simpl; try done). apply SendPacket_path.
  - pose proof (Classify_path c pkt) as Hp.
    destruct (ClassifyPacket c pkt) as [c1 [[fr fd] ak]]. simpl in *. subst fr.
    by rewrite Dispatch_path.
Qed.

(** What decides freshness survives the rest of the handler. *)
Definition fresh_view (c : Conn) := (rx_be_ c, rx_rel_ c, max_auth_rx_ts_ c, have_auth_rx_ts_ c).

Lemma SendPacket_fresh (c : Conn) t s p now k : fresh_view (SendPacket c t s p now k).1 = fresh_view c.
Proof. by destruct (SendPacket_spec c t s p now k) as (u & h & -> & _). Qed.

Lemma DeliverLoop_fresh fuel (c : Conn) : fresh_view (DeliverLoop fuel c) = fresh_view c.
Proof.
  revert c. induction fuel as [|fuel IH]; intros c; simpl; [done|].
  destruct (_ !! _); [|done]. by rewrite IH.
Qed.

Lemma Dispatch_fresh (c : Conn) pkt fd ak now : fresh_view (Dispatch c pkt fd ak now) = fresh_view c.
Proof.
  assert (Hk : fresh_view (HandleKeepalive c pkt now) = fresh_view c).
  { unfold HandleKeepalive, SendKeepalivePacket. repeat (case_match_goal; simpl; try done).
    etrans; [apply SendPacket_fresh|done]. }
  assert (Ha : fresh_view (HandleAck c pkt now) = fresh_view c).
  { unfold HandleAck. destruct (list_find _ _) as [[i o]|]; [|done].
    unfold NoteRttSample. cbv zeta. by destruct (_ <? 0). }
  assert (Hr : fresh_view (HandleReliable c pkt fd ak now) = fresh_view c).
  { unfold HandleReliable, DeliverReliableInOrder. set (c1 := if ak then _ else c).
    assert (Hc1 : fresh_view c1 = fresh_view c) by (subst c1; destruct ak; [apply SendPacket_fresh|done]).
    destruct (negb fd), (on_message_ c1); try done. destruct (negb _); [done|].
    by rewrite DeliverLoop_fresh. }
  unfold Dispatch, HandleClose, HandleBestEffort.
  destruct (type pkt); try done; repeat (case_match_goal; try done).
Qed.

Lemma NoteFresh_fresh (c : Conn) from fr now : fresh_view (NoteFresh c from fr now) = fresh_view c.
Proof.
  unfold NoteFresh, MaybeLearnPath, SetPeerEndpoint. destruct fr; [|done]. cbv zeta.
  repeat (case_match_goal; try done).
Qed.

Lemma i32_zero z : i32_of_u32 (u32 (z - z)) = 0.
Proof. by rewrite Z.sub_diag. Qed.

(** Both windows can tell a number they have from one they have not. *)
Record windows_ok (c : Conn) : Prop := {
  wo_be : window_ok (rx_be_ c);
  wo_rel : window_ok (rx_rel_ c);
}.

Definition packet_number_ok (c : Conn) (s : Z) : Prop :=
  number_ok (rx_be_ c) s /\ number_ok (rx_rel_ c) s.

Lemma accept_again w s :
  window_ok w -> number_ok w s -> (Accept (Accept w s).1 s).2 = false.
Proof.
  intros Hok Hn. destruct (Accept w s) as [w1 b1] eqn:H1'. simpl.
  destruct (accept_spec _ _ _ _ Hok Hn H1') as [Hok1 Hsz _ _ Hnew _ Hsame _ _].
  destruct (Accept w1 s) as [w2 b2] eqn:H2'. simpl. destruct b2; [|done].
  assert (Hn1 : number_ok w1 s) by (unfold number_ok in *; by rewrite Hsz).
  destruct (accept_spec _ _ _ _ Hok1 Hn1 H2') as [_ _ _ _ Hnew2 _ _ _ _].
  destruct b1; [by destruct (proj1 (Hnew2 eq_refl)); apply Hnew|].
  rewrite (Hsame eq_refl) in H2'. congruence.
Qed.

(** After a packet was handled, it is no longer fresh. *)
Lemma reliable_is_stale (c : Conn) pkt from now c1 fr fd ak :
  window_ok (rx_rel_ c) -> number_ok (rx_rel_ c) (seq pkt) -> IsReliableData (type pkt) = true ->
  ClassifyPacket c pkt = (c1, (fr, fd, ak)) ->
  (ClassifyPacket (Dispatch (NoteFresh (NoteTimestamp c1 pkt) from fr now) pkt fd ak now) pkt).2.1.1
  = false.
Proof.
  intros Hrel Hnr Hr Hc.
  assert (Hcr : forall c0 : Conn, ClassifyPacket c0 pkt = ClassifyReliable c0 (seq pkt))
    by (intros; unfold ClassifyPacket; by destruct (type pkt)).
  pose proof (ClassifyPacket_reliable c pkt Hrel Hnr Hr) as Hcl. rewrite Hc in Hcl. simpl in Hcl.
  rewrite Hcr in *. set (c2 := Dispatch _ _ _ _ _).
  assert (Hv : rx_rel_ c2 = rx_rel_ c1).
  { assert (Hv : fresh_view c2 = fresh_view (NoteTimestamp c1 pkt))
      by (subst c2; by rewrite Dispatch_fresh, NoteFresh_fresh).
    injection Hv as _ -> _ _. unfold NoteTimestamp. by destruct (_ && _). }
  inversion Hcl as [Hfr _ E|Hdup E|E]; subst c1 fr fd ak.
  - unfold ClassifyReliable. rewrite Hv. simpl.
    destruct (Accept (rx_rel_ c) (seq pkt)) as [w b] eqn:Hacc. simpl.
    destruct (accept_spec _ _ _ _ Hrel Hnr Hacc) as [Hok1 _ _ Hf Hnew _ _ _ _].
    destruct (Hnew (proj2 Hf Hfr)) as [_ Hseen].
    assert (Hdup : Classify w (seq pkt) = Duplicate)
      by (apply (classify_duplicate _ _ Hok1); [apply Hnr|by right]).
    by rewrite Hdup.
  - unfold ClassifyReliable. by rewrite Hv, Hdup.
  - assert (E2 : c2 = NoteTimestamp c pkt) by (subst c2; unfold Dispatch; by destruct (type pkt)).
    assert (Hflags : (ClassifyReliable c2 (seq pkt)).2 = (ClassifyReliable c (seq pkt)).2).
    { rewrite E2. unfold NoteTimestamp. destruct (_ && _); [|done].
      unfold ClassifyReliable. simpl. repeat (case_match_goal; simpl; try done). }
    by rewrite Hflags, Hc.
Qed.

Lemma handled_is_stale (c : Conn) pkt from now :
  windows_ok c -> packet_number_ok c (seq pkt) ->
  IsSealed (type pkt) = true \/ AcceptSkew c (timestamp_ms pkt) now = true ->
  (RefusePlainAfterKeys c pkt).2 = false ->
  (ClassifyPacket (HandleAuthenticated c pkt from now) pkt).2.1.1 = false.
Proof.
  intros [Hbe Hrel] [Hnb Hnr] Hskew Href. rewrite HandleAuthenticated_dispatch, Href.
  assert (Hcond : negb (IsSealed (type pkt)) && negb (AcceptSkew c (timestamp_ms pkt) now) = false)
    by (destruct Hskew as [->| ->]; [done|by rewrite andb_false_r]).
  rewrite Hcond. destruct (ClassifyPacket c pkt) as [c1 [[fr fd] ak]] eqn:Hc.
  destruct (IsReliableData (type pkt)) eqn:Hr; [by apply reliable_is_stale with c|].
  set (c2 := Dispatch _ _ _ _ _).
  assert (Hv : fresh_view c2 = fresh_view (NoteTimestamp c1 pkt))
    by (subst c2; by rewrite Dispatch_fresh, NoteFresh_fresh).
  injection Hv as Hvb _ Hvm Hvh.
  destruct (IsBestEffortData (type pkt)) eqn:Hb.
  - assert (Hc1 : rx_be_ c1 = (Accept (rx_be_ c) (seq pkt)).1).
    { unfold ClassifyPacket in Hc. destruct (Accept (rx_be_ c) (seq pkt)) as [w b].
      destruct (type pkt); try done; by injection Hc as <- _ _ _. }
    assert (Hw : rx_be_ c2 = (Accept (rx_be_ c) (seq pkt)).1).
    { rewrite Hvb, <- Hc1. unfold NoteTimestamp. by case_match_goal. }
    unfold ClassifyPacket. rewrite Hw. pose proof (accept_again _ _ Hbe Hnb) as Hag.
    destruct (Accept (Accept _ _).1 (seq pkt)) as [w2 b2]. simpl in Hag. subst b2.
    by destruct (type pkt).
  - assert (Hn : NewerTimestamp c2 pkt = false).
    { unfold NewerTimestamp. rewrite Hvm, Hvh. unfold NoteTimestamp.
      destruct (negb (IsSealed (type pkt)) && NewerTimestamp c1 pkt) eqn:Hnew; simpl.
      - by rewrite i32_zero.
      - destruct (type pkt); try done; simpl in Hnew; exact Hnew. }
    unfold ClassifyPacket. by destruct (type pkt).
Qed.

(** *** What arrived, over any run

    All that decides freshness: the windows, the newest timestamp, and the skew
    a timestamp is allowed. *)

Definition arrival_view (c : Conn) := (fresh_view c, skew_ms (params_ c)).

Lemma SendPacket_arrival (c : Conn) t s p now k : arrival_view (SendPacket c t s p now k).1 = arrival_view c.
Proof. by destruct (SendPacket_spec c t s p now k) as (u & h & -> & _). Qed.
Lemma Keepalive_arrival (c : Conn) now i f : arrival_view (SendKeepalivePacket c now i f).1 = arrival_view c.
Proof. unfold SendKeepalivePacket. repeat (case_match_goal; simpl; try done). apply SendPacket_arrival. Qed.
Lemma SetPeerEndpoint_arrival (c : Conn) e : arrival_view (SetPeerEndpoint c e) = arrival_view c.
Proof. unfold SetPeerEndpoint. cbv zeta. by repeat (case_match_goal; try done). Qed.
Lemma NoteFresh_arrival (c : Conn) from fr now : arrival_view (NoteFresh c from fr now) = arrival_view c.
Proof.
  unfold NoteFresh, MaybeLearnPath. destruct fr; [|done]. cbv zeta.
  repeat (case_match_goal; try done); by rewrite SetPeerEndpoint_arrival.
Qed.
Lemma DeliverLoop_arrival fuel (c : Conn) : arrival_view (DeliverLoop fuel c) = arrival_view c.
Proof.
  revert c. induction fuel as [|fuel IH]; intros c; simpl; [done|]. destruct (_ !! _); [|done]. by rewrite IH.
Qed.
Lemma Dispatch_arrival (c : Conn) pkt fd ak now : arrival_view (Dispatch c pkt fd ak now) = arrival_view c.
Proof.
  assert (Hr : arrival_view (HandleReliable c pkt fd ak now) = arrival_view c).
  { unfold HandleReliable, DeliverReliableInOrder. set (c1 := if ak then _ else c).
    assert (Hc1 : arrival_view c1 = arrival_view c) by (subst c1; destruct ak; [apply SendPacket_arrival|done]).
    destruct (negb fd), (on_message_ c1); try done. destruct (negb _); [done|]. by rewrite DeliverLoop_arrival. }
  assert (Ha : arrival_view (HandleAck c pkt now) = arrival_view c).
  { unfold HandleAck. destruct (list_find _ _) as [[i o]|]; [|done]. unfold NoteRttSample. cbv zeta. by destruct (_ <? 0). }
  assert (Hk : arrival_view (HandleKeepalive c pkt now) = arrival_view c).
  { unfold HandleKeepalive. repeat (case_match_goal; simpl; try done). by rewrite Keepalive_arrival. }
  unfold Dispatch, HandleClose, HandleBestEffort. destruct (type pkt); try done; repeat (case_match_goal; try done).
Qed.

(** The operations that receive nothing leave it. *)
Lemma RetransmitOne_arrival (c : Conn) o now : arrival_view (RetransmitOne c o now).1 = arrival_view c.
Proof.
  unfold RetransmitOne. destruct (_ <? _); [done|]. destruct (_ <=? _); [done|]. cbv zeta.
  set (c1 := if authenticated_ c then _ else c). assert (E1 : arrival_view c1 = arrival_view c) by (subst c1; by destruct (authenticated_ c)).
  set (o1 := _ <| next_rtx_ms := _ |>). set (c2 := _ <| stats_ ::= _ |>). change (arrival_view c1) with (arrival_view c2) in E1.
  rewrite <- E1. pose proof (SendPacket_arrival c2 (o_type o1) (o_seq o1) (o_payload o1) now (ResendKey c2 o1)) as E2.
  by destruct (SendPacket c2 _ _ _ _ _) as [c3 r].
Qed.
Lemma RetransmitAll_arrival (c : Conn) os now : arrival_view (RetransmitAll c os now).1 = arrival_view c.
Proof.
  revert c. induction os as [|o os IH]; intros c; simpl; [done|]. pose proof (RetransmitOne_arrival c o now) as E1.
  destruct (RetransmitOne c o now) as [c1 o1]. specialize (IH c1). destruct (RetransmitAll c1 os now) as [c2 os2]. simpl in *. congruence.
Qed.
Lemma DropFailed_arrival (c : Conn) os now : arrival_view (DropFailed c os now) = arrival_view c.
Proof. revert c. induction os as [|o os IH]; intros c; simpl; [done|]. destruct (GivenUp c o now); [|done]. by rewrite IH. Qed.
Lemma Send_arrival (c : Conn) qos p : arrival_view (Send c qos p).1 = arrival_view c.
Proof.
  unfold Send. destruct (closed_ c); [done|]. destruct (_ <? _); [done|]. destruct qos; cbv zeta.
  - destruct (_ =? _); [done|]. unfold SendPacketAsFailure. set (c1 := c <| tx_seq_be_ ::= _ |>).
    change (arrival_view c) with (arrival_view c1).
    pose proof (SendPacket_arrival c1 (if Sealing c1 then DataBestEffort else PlainBestEffort) (tx_seq_be_ c1) p (clock_ (endpoint_ c)) None) as E1.
    by destruct (SendPacket c1 _ _ _ _ _) as [c2 []].
  - unfold SendReliable. destruct (_ <=? _); [done|]. destruct (_ =? _); [done|]. cbv zeta. set (o := MkOutstanding _ _ _ _ _ _ _ _). set (c1 := _ <| stats_ ::= _ |>).
    change (arrival_view c) with (arrival_view c1). pose proof (SendPacket_arrival c1 (o_type o) (tx_seq_rel_ c1) p (clock_ (endpoint_ c)) None) as E1.
    destruct (SendPacket c1 _ _ _ _ _) as [c2 [|e]]; [done|]. by destruct (peer_unreachable_ c2).
Qed.
Definition receives (o : op P Io) : bool := match o with OpDatagram _ _ _ => true | _ => false end.
Lemma quiet_op_arrival (c : Conn) (o : op P Io) : receives o = false -> arrival_view (run_op c o) = arrival_view c.
Proof.
  destruct o as [qos p| | |k|p|e|set|now i|now|now|now|from d now|vs|now|io]; intros Ho; try done; simpl.
  - apply Send_arrival.
  - unfold CloseConnection. destruct (closed_ c); [done|]. cbv zeta.
    pose proof (SendPacket_arrival c L1Types.Close 0 [] (clock_ (endpoint_ c)) None) as E1. by destruct (SendPacket c _ _ _ _ _) as [c1 r].
  - unfold Abandon. by destruct (closed_ c).
  - unfold UpgradeBinder. cbv zeta. by destruct (pre_upgrade_key_ c).
  - apply SetPeerEndpoint_arrival.
  - unfold SendKeepalive. by rewrite Keepalive_arrival.
  - unfold StopKeepalive. destruct (_ =? _); [done|]. by rewrite Keepalive_arrival.
  - apply Keepalive_arrival.
  - unfold Tick. destruct (closed_ c); [done|]. pose proof (RetransmitAll_arrival c (outstanding_ c) now) as E1.
    destruct (RetransmitAll c (outstanding_ c) now) as [c1 os]. by rewrite DropFailed_arrival.
  - unfold HandleVersionNegotiation. by destruct (_ || _).
Qed.
(** A datagram leaves it too, or is a packet that was classified. *)
Lemma authenticated_arrival (c : Conn) pkt from now : arrival_view (HandleAuthenticated c pkt from now) = arrival_view c
  \/ (IsSealed (type pkt) = true \/ AcceptSkew c (timestamp_ms pkt) now = true)
     /\ arrival_view (HandleAuthenticated c pkt from now) = arrival_view (NoteTimestamp (ClassifyPacket c pkt).1 pkt).
Proof.
  rewrite HandleAuthenticated_dispatch. destruct (IsSealed (type pkt)), (AcceptSkew c (timestamp_ms pkt) now); cbn [negb andb]; try (by left);
    (destruct (RefusePlainAfterKeys c pkt).2 eqn:Hr;
     [left; unfold RefusePlainAfterKeys; repeat (case_match_goal; simpl; try done); apply SendPacket_arrival|right]);
    (split; [auto|]); destruct (ClassifyPacket c pkt) as [c1 [[fr fd] ak]]; by rewrite Dispatch_arrival, NoteFresh_arrival.
Qed.
Lemma datagram_arrival (c : Conn) from d now : arrival_view (HandleDatagram c from d now) = arrival_view c
  \/ exists pkt, (bytes_ok d -> is_u32 (seq pkt)) /\ (IsSealed (type pkt) = true \/ AcceptSkew c (timestamp_ms pkt) now = true)
     /\ arrival_view (HandleDatagram c from d now) = arrival_view (NoteTimestamp (ClassifyPacket c pkt).1 pkt).
Proof.
  rewrite HandleDatagram_extract. destruct (Extract c d now) as [[[] pkt]|] eqn:He; [| |by left].
  - destruct (authenticated_arrival c pkt from now) as [|[Hs Hv]]; [by left|right]. exists pkt. split_and!; [|done|done].
    intros Hd. by apply (Extract_seq c d now true).
  - left. unfold HandlePreUpgradeKeyPacket. repeat (case_match_goal; simpl; try done). apply SendPacket_arrival.
Qed.

(** What both windows have of a run: they stay sound, and forget nothing. *)
Record keeps_seen (w w' : ReplayWindow) : Prop := {
  ks_ok : window_ok w';
  ks_size : window_size_ w' = window_size_ w;
  ks_seen x : seen w x -> seen w' x;
}.
Lemma keeps_seen_refl w : window_ok w -> keeps_seen w w.
Proof. by split. Qed.
Lemma keeps_seen_trans w1 w2 w3 : keeps_seen w1 w2 -> keeps_seen w2 w3 -> keeps_seen w1 w3.
Proof. intros [O1 S1 K1] [O2 S2 K2]. split; [done|congruence|auto]. Qed.
Lemma accept_keeps_seen w s : window_ok w -> number_ok w s -> keeps_seen w (Accept w s).1.
Proof. intros Hok Hn. destruct (Accept w s) as [w1 b] eqn:Ha. destruct (accept_spec _ _ _ _ Hok Hn Ha) as [O1 S1 _ _ _ K1 _ _ _]. by split. Qed.
Lemma u32_number_ok w s : window_size_ w < 2 ^ 32 -> is_u32 s -> number_ok w s.
Proof. unfold number_ok, is_u32. lia. Qed.
Definition small_windows (c : Conn) : Prop := window_size_ (rx_be_ c) < 2 ^ 32 /\ window_size_ (rx_rel_ c) < 2 ^ 32.
Definition keeps_numbers (c c' : Conn) : Prop := keeps_seen (rx_be_ c) (rx_be_ c') /\ keeps_seen (rx_rel_ c) (rx_rel_ c').

Lemma classify_keeps (c : Conn) pkt : windows_ok c -> packet_number_ok c (seq pkt) -> keeps_numbers c (NoteTimestamp (ClassifyPacket c pkt).1 pkt).
Proof.
  intros [Hb Hr] [Nb Nr]. assert (Hn : forall c1 : Conn, keeps_numbers c c1 -> keeps_numbers c (NoteTimestamp c1 pkt)) by (intros c1 Hk; unfold NoteTimestamp; by destruct (_ && _)).
  apply Hn. clear Hn. assert (Hc : keeps_numbers c c) by (split; by apply keeps_seen_refl). unfold ClassifyPacket, ClassifyReliable.
  pose proof (accept_keeps_seen _ _ Hb Nb) as Kb. pose proof (accept_keeps_seen _ _ Hr Nr) as Kr.
  destruct (Accept (rx_be_ c) (seq pkt)) as [w1 b1], (Accept (rx_rel_ c) (seq pkt)) as [w2 b2].
  destruct (type pkt); cbn [fst]; try done; try (split; [done|by apply keeps_seen_refl]).
  all: destruct (Classify _ _); cbn [fst]; try done; destruct (_ || _); cbn [fst]; try done; (split; [by apply keeps_seen_refl|done]).
Qed.
Definition datagrams_ok (o : op P Io) : Prop := match o with OpDatagram _ d _ => bytes_ok d | _ => True end.
Lemma op_keeps (c : Conn) (o : op P Io) : windows_ok c -> small_windows c -> datagrams_ok o -> keeps_numbers c (run_op c o).
Proof.
  intros Hw Hs Ho. assert (Hsame : forall c' : Conn, arrival_view c' = arrival_view c -> keeps_numbers c c').
  { intros c' [= Eb Er _ _ _]. split; [rewrite Eb|rewrite Er]; apply keeps_seen_refl; apply Hw. }
  destruct (receives o) eqn:Hr; [|by apply Hsame, quiet_op_arrival]. destruct o as [| | | | | | | | | | |from d now| | |]; try done. cbn [run_op].
  destruct (datagram_arrival c from d now) as [Hv|(pkt & Hseq & _ & Hv)]; [by apply Hsame|].
  assert (Hk : keeps_numbers c (NoteTimestamp (ClassifyPacket c pkt).1 pkt)).
  { apply classify_keeps; [done|]. split; apply u32_number_ok; try apply Hs; by apply Hseq. }
  injection Hv as Eb Er _ _ _. destruct Hk as [Kb Kr]. split; [by rewrite Eb|by rewrite Er].
Qed.
Lemma run_keeps (c : Conn) ops : windows_ok c -> small_windows c -> Forall datagrams_ok ops -> keeps_numbers c (run c ops).
Proof.
  intros Hw Hs Hops. revert c Hw Hs. induction Hops as [|o ops Ho _ IH]; intros c Hw Hs; [split; apply keeps_seen_refl; apply Hw|].
  cbn [run fold_left]. destruct (op_keeps c o Hw Hs Ho) as [Kb Kr].
  destruct (IH (run_op c o)) as [Kb' Kr'].
  - split; [apply Kb|apply Kr].
  - split; [rewrite (ks_size _ _ Kb)|rewrite (ks_size _ _ Kr)]; apply Hs.
  - split; by eapply keeps_seen_trans.
Qed.

(** *** The newest timestamp, unwrapped

    A timestamp within the skew is that of a moment near the clock; the newest
    one noted only moves forward while the arrivals span less than half the
    32-bit range. *)

Lemma TruncTs_mod now : TruncTs now = now mod 2 ^ 32.
Proof.
  unfold TruncTs, u32, u64. change 4294967295 with (Z.ones 32). rewrite Z.land_ones by lia.
  rewrite Z.mod_mod by lia. apply Z.mod_mod_divide. by exists (2 ^ 32).
Qed.
Lemma skew_unwrap (c : Conn) ts now : AcceptSkew c ts now = true ->
  exists t, u32 t = u32 ts /\ now - skew_ms (params_ c) <= t <= now + skew_ms (params_ c).
Proof.
  unfold AcceptSkew. cbv zeta. rewrite andb_true_iff, !Z.leb_le, TruncTs_mod. set (d := i32_of_u32 _).
  intros Hd. exists (now - d). split; [|lia]. subst d. unfold i32_of_u32, u32. case_match; Z.div_mod_to_equations; lia.
Qed.
Lemma newer_unwrap t t' m ts : u32 t = u32 m -> u32 t' = u32 ts -> - 2 ^ 31 < t' - t < 2 ^ 31 ->
  (0 <? i32_of_u32 (u32 (ts - m))) = (t <? t').
Proof.
  intros Hm Ht Hd. apply eq_iff_eq_true. rewrite !Z.ltb_lt. unfold i32_of_u32, u32 in *.
  replace ((ts - m) mod 2 ^ 32) with ((t' - t) mod 2 ^ 32) by (rewrite (Zminus_mod t'), (Zminus_mod ts); congruence).
  case_match eqn:Hc; rewrite ?Z.ltb_lt, ?Z.ltb_ge in Hc; Z.div_mod_to_equations; lia.
Qed.

(** The newest timestamp is that of a moment in the range. *)
Definition stamped (c : Conn) (lo hi : Z) : Prop :=
  have_auth_rx_ts_ c = true /\ exists t, lo <= t <= hi /\ u32 t = u32 (max_auth_rx_ts_ c).
(** The arrivals lie in the range of the clock. *)
Definition arrives_within (lo hi : Z) (o : op P Io) : Prop :=
  match o with OpDatagram _ _ now => lo <= now <= hi | _ => True end.

Lemma Classify_stamps (c : Conn) pkt : max_auth_rx_ts_ (ClassifyPacket c pkt).1 = max_auth_rx_ts_ c
  /\ have_auth_rx_ts_ (ClassifyPacket c pkt).1 = have_auth_rx_ts_ c.
Proof. unfold ClassifyPacket, ClassifyReliable. by repeat (case_match_goal; cbn [fst]; try done). Qed.
Lemma note_stamped (c : Conn) pkt now t0 lo hi :
  IsSealed (type pkt) = true \/ AcceptSkew c (timestamp_ms pkt) now = true ->
  lo <= now <= hi -> hi - lo + 2 * skew_ms (params_ c) < 2 ^ 31 -> lo - skew_ms (params_ c) <= t0 ->
  stamped c t0 (hi + skew_ms (params_ c)) -> stamped (NoteTimestamp (ClassifyPacket c pkt).1 pkt) t0 (hi + skew_ms (params_ c)).
Proof.
  intros Hs Hn Hspan Ht0 [Hh (t & Ht & Hm)]. destruct (Classify_stamps c pkt) as [Em Eh]. unfold NoteTimestamp, NewerTimestamp.
  rewrite Em, Eh, Hh. destruct (IsSealed (type pkt)); cbn [negb andb orb]; [by split; [rewrite Eh|exists t; rewrite Em]|].
  destruct Hs as [|Hs]; [done|]. destruct (skew_unwrap _ _ _ Hs) as (t' & Hu & Hr).
  rewrite (newer_unwrap t t') by (done || lia). destruct (Z.ltb_spec t t').
  - split; [done|]. exists t'. split; [lia|done].
  - split; [by rewrite Eh|]. exists t. by rewrite Em.
Qed.
Lemma run_stamped (c : Conn) ops t0 lo hi : Forall (arrives_within lo hi) ops ->
  hi - lo + 2 * skew_ms (params_ c) < 2 ^ 31 -> lo - skew_ms (params_ c) <= t0 ->
  stamped c t0 (hi + skew_ms (params_ c)) -> stamped (run c ops) t0 (hi + skew_ms (params_ c)).
Proof.
  intros Hops. revert c. induction Hops as [|o ops Ho _ IH]; intros c Hspan Ht0 Hst; [done|]. cbn [run fold_left].
  assert (Hnext : skew_ms (params_ (run_op c o)) = skew_ms (params_ c) /\ stamped (run_op c o) t0 (hi + skew_ms (params_ c))).
  { destruct (receives o) eqn:Hr.
    - destruct o as [qos p| | |k|p|e|set|now i|now|now|now|from d now|vs|now|io]; try done. cbn [run_op]. destruct (datagram_arrival c from d now) as [[= _ _ Em Eh Es]|(pkt & _ & Hs & [= _ _ Em Eh Es])].
      + split; [done|]. unfold stamped. by rewrite Em, Eh.
      + split; [rewrite Es; unfold NoteTimestamp, ClassifyPacket, ClassifyReliable; by repeat (case_match_goal; cbn [fst]; try done)|].
        unfold stamped. rewrite Em, Eh. by apply note_stamped with now lo.
    - pose proof (quiet_op_arrival c o Hr) as [= _ _ Em Eh Es]. split; [done|]. unfold stamped. by rewrite Em, Eh. }
  destruct Hnext as [Es Hst']. specialize (IH (run_op c o)). rewrite Es in IH. by apply IH.
Qed.

(** *** A packet taken stays taken *)

(** Whether a packet passes the skew check, and whether it is kept as new. *)
Definition in_time (c : Conn) (pkt : WirePacket) (now : Z) : Prop :=
  IsSealed (type pkt) = true \/ AcceptSkew c (timestamp_ms pkt) now = true.
Definition taken (c : Conn) (pkt : WirePacket) : Prop :=
  (RefusePlainAfterKeys c pkt).2 = false /\ (ClassifyPacket c pkt).2.1.1 = true.
Definition carries_data (pkt : WirePacket) : bool := IsReliableData (type pkt) || IsBestEffortData (type pkt).
Definition data_seen (c : Conn) (pkt : WirePacket) : Prop :=
  seen (if IsReliableData (type pkt) then rx_rel_ c else rx_be_ c) (seq pkt).

Lemma kept_arrival (c : Conn) pkt from now : in_time c pkt now -> (RefusePlainAfterKeys c pkt).2 = false ->
  arrival_view (HandleAuthenticated c pkt from now) = arrival_view (NoteTimestamp (ClassifyPacket c pkt).1 pkt).
Proof.
  intros Hs Hr. rewrite HandleAuthenticated_dispatch, Hr.
  replace (_ && _) with false by (destruct Hs as [->| ->]; by rewrite ?andb_false_r).
  destruct (ClassifyPacket c pkt) as [c1 [[fr fd] ak]]. by rewrite Dispatch_arrival, NoteFresh_arrival.
Qed.
Lemma NoteTimestamp_seen (c : Conn) pkt p : data_seen (NoteTimestamp c pkt) p <-> data_seen c p.
Proof. unfold NoteTimestamp. by destruct (_ && _). Qed.
Lemma taken_seen (c : Conn) pkt : windows_ok c -> packet_number_ok c (seq pkt) -> carries_data pkt = true ->
  (ClassifyPacket c pkt).2.1.1 = true -> data_seen (ClassifyPacket c pkt).1 pkt.
Proof.
  intros [Hb Hr] [Nb Nr] Hd. unfold data_seen, carries_data, ClassifyPacket, ClassifyReliable in *.
  destruct (Accept (rx_be_ c) (seq pkt)) as [w1 b1] eqn:E1, (Accept (rx_rel_ c) (seq pkt)) as [w2 b2] eqn:E2.
  pose proof (post_new _ _ _ _ (accept_spec _ _ _ _ Hb Nb E1)) as K1. pose proof (post_new _ _ _ _ (accept_spec _ _ _ _ Hr Nr E2)) as K2.
  destruct (type pkt); try done; simpl; try (intros Hf; by apply K1).
  all: destruct (Classify _ _); simpl; try done; destruct (negb _ || _ || _); simpl; try done; intros Hf; by apply K2.
Qed.
Lemma seen_stale (c : Conn) pkt : windows_ok c -> packet_number_ok c (seq pkt) -> carries_data pkt = true ->
  data_seen c pkt -> (ClassifyPacket c pkt).2.1.1 = false.
Proof.
  intros [Hb Hr] [Nb Nr] Hd. unfold data_seen, carries_data, ClassifyPacket, ClassifyReliable in *.
  destruct (Accept (rx_be_ c) (seq pkt)) as [w1 b1] eqn:E1.
  pose proof (post_new _ _ _ _ (accept_spec _ _ _ _ Hb Nb E1)) as K1.
  assert (K2 : seen (rx_rel_ c) (seq pkt) -> Classify (rx_rel_ c) (seq pkt) = Duplicate)
    by (intros; apply classify_duplicate; [done|apply Nr|by right]).
  destruct (type pkt); try done; simpl; intros Hs; try (by rewrite (K2 Hs)).
  all: destruct b1; [exfalso; by apply (proj1 (K1 eq_refl))|done].
Qed.

(** A packet taken is stale after any run: data always, a control packet while
    the arrivals span less than half the range of the timestamp. *)
Lemma taken_stays_stale (c : Conn) pkt from now ops :
  windows_ok c -> small_windows c -> is_u32 (seq pkt) -> in_time c pkt now -> taken c pkt -> Forall datagrams_ok ops ->
  carries_data pkt = true
  \/ (exists lo hi, lo <= now <= hi /\ hi - lo + 2 * skew_ms (params_ c) < 2 ^ 31 /\ Forall (arrives_within lo hi) ops) ->
  (ClassifyPacket (run (HandleAuthenticated c pkt from now) ops) pkt).2.1.1 = false.
Proof.
  intros Hw Hs Hn Ht [Hr Hf] Hops Hkind. assert (Hpn : packet_number_ok c (seq pkt)) by (split; apply u32_number_ok; try apply Hs; done).
  pose proof (kept_arrival c pkt from now Ht Hr) as Hv. set (c1 := HandleAuthenticated _ _ _ _) in *.
  destruct (carries_data pkt) eqn:Hd.
  - destruct (classify_keeps c pkt Hw Hpn) as [Kb Kr]. injection Hv as Eb Er _ _ _. rewrite <- Eb in Kb. rewrite <- Er in Kr.
    assert (Hseen : data_seen c1 pkt) by (unfold data_seen; rewrite Eb, Er; apply NoteTimestamp_seen, taken_seen; done).
    destruct (run_keeps c1 ops) as [Kb' Kr']; [split; [apply Kb|apply Kr]| |done|].
    { split; [rewrite (ks_size _ _ Kb)|rewrite (ks_size _ _ Kr)]; apply Hs. }
    apply seen_stale; [split; [apply Kb'|apply Kr']| |done|].
    + split; apply u32_number_ok; rewrite ?(ks_size _ _ Kb'), ?(ks_size _ _ Kr'), ?(ks_size _ _ Kb), ?(ks_size _ _ Kr); try apply Hs; done.
    + unfold data_seen in *. destruct (IsReliableData _); [by apply Kr'|by apply Kb'].
  - destruct Hkind as [|(lo & hi & Hnow & Hspan & Hin)]; [done|].
    assert (Hc : forall c0 : Conn, ClassifyPacket c0 pkt = (c0, (NewerTimestamp c0 pkt, false, false)))
      by (intros; unfold ClassifyPacket, carries_data in *; by destruct (type pkt)).
    rewrite Hc in Hf |- *. cbn [fst snd] in Hf |- *. rewrite Hc in Hv. cbn [fst] in Hv.
    assert (Hns : IsSealed (type pkt) = false) by (unfold carries_data in Hd; by destruct (type pkt)).
    destruct Ht as [|Ht]; [congruence|]. destruct (skew_unwrap _ _ _ Ht) as (t & Hu & Hb).
    unfold NoteTimestamp in Hv. rewrite Hns, Hf in Hv. cbn [negb andb] in Hv. injection Hv as _ _ Em Eh Es. cbn in Em, Eh, Es.
    assert (Hst : stamped (run c1 ops) t (hi + skew_ms (params_ c))).
    { rewrite <- Es. apply run_stamped with lo; rewrite ?Es; [done|lia|lia|]. split; [done|]. exists t. rewrite Em. split; [lia|done]. }
    destruct Hst as [Hh (t' & Hb' & Hu')]. unfold NewerTimestamp. rewrite Hh. cbn [negb orb].
    rewrite (newer_unwrap t' t) by (done || lia). lia.
Qed.

(** Plain data refused because the session has keys is refused again. *)
Lemma refused_again (c : Conn) pkt from from' now now' : (RefusePlainAfterKeys c pkt).2 = true ->
  let c1 := HandleAuthenticated c pkt from now in path_of (HandleAuthenticated c1 pkt from' now') = path_of c1.
Proof.
  intros Hr. cbv zeta. set (c1 := HandleAuthenticated c pkt from now).
  assert (Hc1 : protection_ c1 = protection_ c).
  { subst c1. rewrite HandleAuthenticated_dispatch, Hr. destruct (_ && _); [done|].
    unfold RefusePlainAfterKeys. repeat (case_match_goal; simpl; try done).
    by destruct (SendPacket_spec c Ack (seq pkt) [] (clock_ (endpoint_ c)) None) as (u & h & -> & _). }
  assert (Hr1 : (RefusePlainAfterKeys c1 pkt).2 = true).
  { revert Hr. unfold RefusePlainAfterKeys, Sealing. rewrite Hc1.
    destruct (_ || _); [done|]. destruct (type pkt); try done.
    all: repeat (case_decide; try done). }
  rewrite HandleAuthenticated_dispatch, Hr1. destruct (_ && _); [done|].
  unfold RefusePlainAfterKeys. repeat (case_match_goal; simpl; try done). apply SendPacket_path.
Qed.
(** A packet taken refreshes the liveness. *)
Lemma taken_refreshes (c : Conn) pkt from now : in_time c pkt now -> taken c pkt ->
  last_auth_rx_ms_ (HandleAuthenticated c pkt from now) = now.
Proof.
  intros Hs [Hr Hf]. rewrite HandleAuthenticated_dispatch, Hr.
  replace (_ && _) with false by (destruct Hs as [->| ->]; by rewrite ?andb_false_r).
  destruct (ClassifyPacket c pkt) as [c1 [[fr fd] ak]]. cbn in Hf. subst fr.
  set (c2 := NoteFresh _ _ _ _). pose proof (Dispatch_path c2 pkt fd ak now) as [= _ ->]. subst c2.
  unfold NoteFresh, MaybeLearnPath, SetPeerEndpoint. cbv zeta. by repeat (case_match_goal; try done).
Qed.

(** C16: replay protects the path and the liveness.  A packet that passes the
    skew check (a plain or control packet must, a sealed one need not) is
    handled; handled again at once, from whatever address and at whatever time,
    it leaves the peer's address and the liveness as the first handling left
    them, taken or not.  If it was taken as new, which refreshes the liveness, it
    still moves neither after any run of the connection's operations in between,
    other datagrams included: for data always, its number being remembered; for
    an acknowledgement, close or keepalive, which only its timestamp tells from a
    new one, while the arrivals from its first on span, with twice the skew
    allowed, less than 2^31 ms.  (A packet that was not taken the first time, for
    lack of room or of time, is no replay, and may be taken later.) *)
Theorem replayed_packet_moves_nothing (c : Conn) (pkt : WirePacket) (from from' : IpEndpoint)
    (now now' : Z) :
  windows_ok c -> packet_number_ok c (seq pkt) -> in_time c pkt now ->
  let c1 := HandleAuthenticated c pkt from now in
  (let c2 := HandleAuthenticated c1 pkt from' now' in
   peer_ c2 = peer_ c1 /\ last_auth_rx_ms_ c2 = last_auth_rx_ms_ c1)
  /\ (taken c pkt -> last_auth_rx_ms_ c1 = now)
  /\ (forall ops, taken c pkt -> small_windows c -> is_u32 (seq pkt) -> Forall datagrams_ok ops ->
      carries_data pkt = true
      \/ (exists lo hi, lo <= now <= hi /\ hi - lo + 2 * skew_ms (params_ c) < 2 ^ 31
            /\ Forall (arrives_within lo hi) ops) ->
      let c2 := run c1 ops in
      let c3 := HandleAuthenticated c2 pkt from' now' in
      peer_ c3 = peer_ c2 /\ last_auth_rx_ms_ c3 = last_auth_rx_ms_ c2).
Proof.
  intros Hok Hn Hskew. cbv zeta. set (c1 := HandleAuthenticated c pkt from now).
  assert (Hpath : forall c2 : Conn, path_of (HandleAuthenticated c2 pkt from' now') = path_of c2 ->
    peer_ (HandleAuthenticated c2 pkt from' now') = peer_ c2
    /\ last_auth_rx_ms_ (HandleAuthenticated c2 pkt from' now') = last_auth_rx_ms_ c2)
    by (intros c2 [= -> ->]; done).
  split; [|split].
  - apply Hpath. destruct (RefusePlainAfterKeys c pkt).2 eqn:Hr; [by apply refused_again|].
    apply stale_moves_nothing. by apply handled_is_stale.
  - by apply taken_refreshes.
  - intros ops Ht Hs Hu Hops Hkind. apply Hpath, stale_moves_nothing. by apply taken_stays_stale.
Qed.

(** ** Before and after the session has keys *)

(** The binder key is public before [UpgradeBinder]: what it authenticates
    cannot close an accepted association nor speak for its keepalives. *)

Definition control_view (c : Conn) :=
  (authenticated_ c, params_ c, closed_ c, peer_closed_ c, peer_keepalive_interval_ms_ c,
   unregistered (endpoint_ c)).

Lemma SetPeerEndpoint_control (c : Conn) e : control_view (SetPeerEndpoint c e) = control_view c.
Proof. unfold SetPeerEndpoint. destruct (endpoint_eqb _ _); [done|]. simpl. by destruct (on_path_change_ c). Qed.

Lemma Noted_control (c : Conn) pkt from fr now :
  control_view (NoteFresh (NoteTimestamp c pkt) from fr now) = control_view c.
Proof.
  assert (Ht : control_view (NoteTimestamp c pkt) = control_view c)
    by (unfold NoteTimestamp; by case_match_goal).
  rewrite <- Ht. generalize (NoteTimestamp c pkt) as c1. intros c1.
  unfold NoteFresh, MaybeLearnPath. destruct fr; [|done].
  case_match_goal; [by rewrite SetPeerEndpoint_control|].
  case_match_goal; [by rewrite SetPeerEndpoint_control|done].
Qed.

(** How a control packet is handled. *)
Lemma HandleAuthenticated_control (c : Conn) pkt from now :
  IsReliableData (type pkt) = false -> IsBestEffortData (type pkt) = false ->
  HandleAuthenticated c pkt from now = c
  \/ HandleAuthenticated c pkt from now
    = Dispatch (NoteFresh (NoteTimestamp c pkt) from (NewerTimestamp c pkt) now) pkt false false now.
Proof.
  intros Hr Hb. rewrite HandleAuthenticated_dispatch. destruct (_ && _); [by left|right].
  assert (E1 : RefusePlainAfterKeys c pkt = (c, false)).
  { unfold RefusePlainAfterKeys. destruct (_ || _); [done|]. by destruct (type pkt). }
  assert (E2 : ClassifyPacket c pkt = (c, (NewerTimestamp c pkt, false, false)))
    by (unfold ClassifyPacket; by destruct (type pkt)).
  by rewrite E1, E2.
Qed.

(** Pre-authentication hardening.  Before [UpgradeBinder] a Close does not
    close an accepted association and a Keepalive changes no interval, sends no
    echo and delivers nothing; a dialer takes a Close as a refusal.  Version
    negotiation ends only a dialer's association that is not authenticated, and
    otherwise changes nothing at all. *)
Theorem preauth_control_ignored (c : Conn) (pkt : WirePacket) (from : IpEndpoint) (now : Z)
    (versions : bytes) :
  let c' := HandleAuthenticated c pkt from now in
  (authenticated_ c = false -> type pkt = L1Types.Close -> dialer_backoff (params_ c) = false ->
     closed_ c' = closed_ c /\ peer_closed_ c' = peer_closed_ c
     /\ unregistered (endpoint_ c') = unregistered (endpoint_ c))
  /\ (authenticated_ c = false -> type pkt = Keepalive ->
     peer_keepalive_interval_ms_ c' = peer_keepalive_interval_ms_ c /\ sent_log c' = sent_log c
     /\ delivered_log c' = delivered_log c)
  /\ (authenticated_ c = true \/ dialer_backoff (params_ c) = false \/ closed_ c = true ->
     HandleVersionNegotiation c versions = c).
Proof.
  cbv zeta. split_and!.
  - intros Ha Ht Hd.
    destruct (HandleAuthenticated_control c pkt from now) as [->| ->]; try done; [by rewrite Ht..|].
    pose proof (Noted_control c pkt from (NewerTimestamp c pkt) now) as Hv.
    set (c1 := NoteFresh _ _ _ _) in *. injection Hv as Hv1 Hv2 Hv3 Hv4 _ Hv6.
    unfold Dispatch, HandleClose. rewrite Ht, Hv1, Hv2, Ha, Hd. simpl. by split_and!.
  - intros Ha Ht.
    destruct (HandleAuthenticated_control c pkt from now) as [->| ->]; try done; [by rewrite Ht..|].
    pose proof (Noted_control c pkt from (NewerTimestamp c pkt) now) as Hv.
    destruct (NoteFresh_views c pkt from (NewerTimestamp c pkt) now) as (Hrx & _ & Hsl & _).
    set (c1 := NoteFresh _ _ _ _) in *. injection Hv as Hv1 _ _ _ Hv5 _.
    unfold Dispatch. rewrite Ht, Hv1, Ha. simpl. split_and!; [done|done|by injection Hrx].
  - intros Hor. unfold HandleVersionNegotiation.
    destruct (authenticated_ c), (dialer_backoff (params_ c)), (closed_ c); naive_solver.
Qed.

(** The public pre-session key settles the handshake's own packets and
    nothing else.  Handling a packet that only the pre-upgrade key
    authenticates delivers nothing, leaves both replay windows, the hold, the
    path, the liveness, the keys and the closed state as they were, and removes
    from flight only packets that were sent before the upgrade. *)
Theorem preupgrade_packet_harmless (c : Conn) (pkt : WirePacket) (now : Z) :
  let c' := HandlePreUpgradeKeyPacket c pkt now in
  rx_view c' = rx_view c /\ rx_be_ c' = rx_be_ c /\ path_of c' = path_of c
  /\ closed_ c' = closed_ c /\ binder_ c' = binder_ c /\ authenticated_ c' = authenticated_ c
  /\ outstanding_ c' `sublist_of` outstanding_ c
  /\ (forall o, o ∈ outstanding_ c -> before_upgrade o = false -> o ∈ outstanding_ c').
Proof.
  cbv zeta. unfold HandlePreUpgradeKeyPacket. destruct (negb _); [by split_and!|].
  destruct (type pkt); try (by split_and!).
  - split_and!; try done; simpl; [apply sublist_filter|].
    intros o Ho Hb. apply list_elem_of_filter. split; [|done]. intros [? _]. congruence.
  - case_decide; [|by split_and!].
    destruct (SendPacket_views c Ack (seq pkt) [] now (pre_upgrade_key_ c)) as (Hrx & Htx & Hp & _ & Hbe).
    destruct (SendPacket_spec c Ack (seq pkt) [] now (pre_upgrade_key_ c)) as (u & h & Heq & _).
    simpl. injection Htx as _ Ho _ _. rewrite Ho. split_and!; try done; by rewrite Heq.
Qed.

(** No plain data once the session has keys.  Plain data, even under a
    valid HMAC, is then never delivered nor recorded: windows, hold, delivered
    messages, path and liveness stay, and at most an acknowledgement of a
    number already taken goes out. *)
Theorem plain_refused_after_keys (c : Conn) (pkt : WirePacket) (from : IpEndpoint) (now : Z) :
  Sealing c = true -> (type pkt = PlainReliable \/ type pkt = PlainBestEffort) ->
  let c' := HandleAuthenticated c pkt from now in
  rx_view c' = rx_view c /\ rx_be_ c' = rx_be_ c /\ path_of c' = path_of c
  /\ tx_view c' = tx_view c
  /\ (sent_log c' = sent_log c \/ Classify (rx_rel_ c) (seq pkt) = Duplicate).
Proof.
  intros Hs Ht. cbv zeta. rewrite HandleAuthenticated_dispatch. destruct (_ && _); [by split_and!; auto|].
  unfold RefusePlainAfterKeys. rewrite Hs.
  destruct Ht as [Ht|Ht]; rewrite Ht; simpl; [|by split_and!; auto].
  case_decide as Hd; simpl; [|by split_and!; auto].
  destruct (SendPacket_views c Ack (seq pkt) [] (clock_ (endpoint_ c)) None) as (? & ? & ? & _ & ?).
  split_and!; auto.
Qed.

(** ** Liveness *)

Definition peer_cadence_ok (c : Conn) : Prop :=
  peer_keepalive_interval_ms_ c <= kMaxPeerKeepaliveIntervalMs /\ 0 <= local_keepalive_interval_ms_ c.

Lemma cadence_closed : receive_closed peer_cadence_ok.
Proof. split; try done. by intros c v Hv [_ ?]. Qed.

(** A silent peer cannot look alive for long.  Whatever keepalive interval a
    peer announces (up to 2^32-1 ms), after handling any datagram the liveness
    window is at most the configured one or 5/2 of the larger of our own cadence
    and 10 minutes; a connection that looks alive is not closed and has had an
    authenticated fresh packet within that time. *)
Theorem liveness_window_capped (c : Conn) (from : IpEndpoint) (d : bytes) (now t : Z) :
  peer_cadence_ok c ->
  let c' := HandleDatagram c from d now in
  let cap := Z.max (alive_timeout_ms (params_ c'))
               (Z.quot (Z.max (local_keepalive_interval_ms_ c') 600000 * 5) 2) in
  LivenessWindowMs c' <= cap
  /\ (LooksAlive c' t = true ->
      closed_ c' = false /\ last_auth_rx_ms_ c' <> 0 /\ t - last_auth_rx_ms_ c' <= cap).
Proof.
  intros Hp. cbv zeta.
  pose proof (closed_HandleDatagram _ cadence_closed c from d now Hp) as [Hc' Hl'].
  set (c' := HandleDatagram c from d now) in *. clearbody c'.
  assert (Hw : LivenessWindowMs c' <=
    Z.max (alive_timeout_ms (params_ c'))
      (Z.quot (Z.max (local_keepalive_interval_ms_ c') 600000 * 5) 2)).
  { unfold LivenessWindowMs. cbv zeta. unfold kMaxPeerKeepaliveIntervalMs in *.
    assert (Z.quot (Z.max (local_keepalive_interval_ms_ c') (peer_keepalive_interval_ms_ c')
              * kKeepaliveLivenessNumerator) kKeepaliveLivenessDenominator
      <= Z.quot (Z.max (local_keepalive_interval_ms_ c') 600000 * 5) 2); [|lia].
    apply Z.quot_le_mono; [done|]. unfold kKeepaliveLivenessNumerator. lia. }
  split; [done|]. intros Ha. unfold LooksAlive in Ha.
  destruct (closed_ c'); [done|]. simpl in Ha. destruct (_ =? 0) eqn:Hz; [done|]. zbool.
  split_and!; [done|done|lia].
Qed.

(** ** Delivery is immediate *)

Lemma DeliverLoop_grows fuel (c : Conn) :
  exists rest, delivered_log (DeliverLoop fuel c) = delivered_log c ++ rest.
Proof.
  revert c. induction fuel as [|fuel IH]; intros c; simpl; [exists []; by rewrite app_nil_r|].
  destruct (_ !! _); [|exists []; by rewrite app_nil_r].
  edestruct IH as [rest Hr]. eexists. rewrite Hr. unfold delivered_log. simpl.
  by rewrite delivered_app, <- app_assoc.
Qed.

Lemma next_number_fresh good (c : Conn) s :
  rx_inv good c -> is_u32 s -> s = last_contiguous_ (rx_rel_ c) + 1 -> Classify (rx_rel_ c) s = Fresh.
Proof.
  intros Hi Hs Hnext. pose proof (rx_inv_number _ _ _ Hi Hs) as Hn.
  pose proof (rxi_window _ _ Hi) as Hw. destruct (ok_last _ Hw) as [HL _].
  destruct (Classify (rx_rel_ c) s) eqn:Hc; [done| |].
  - apply (classify_duplicate _ _ Hw) in Hc; [|lia].
    destruct Hc as [?|[?|Hp]]; [lia|lia|]. destruct (ok_pending _ Hw _ Hp). lia.
  - unfold Classify in Hc. destruct (_ || _); [done|].
    destruct (u64 _ <? _) eqn:Hfar; [|done]. unfold number_ok in Hn.
    pose proof (ok_size _ Hw). rewrite u64_id in Hfar by (unfold is_u64; lia). zbool. lia.
Qed.

Lemma next_number_classified good (c : Conn) pkt :
  rx_inv good c -> type pkt = DataReliable -> is_u32 (seq pkt) ->
  seq pkt = last_contiguous_ (rx_rel_ c) + 1 ->
  ClassifyPacket c pkt = (c <| rx_rel_ := (Accept (rx_rel_ c) (seq pkt)).1 |>, (true, true, true)).
Proof.
  intros Hi Ht Hs Hnext. pose proof (next_number_fresh _ _ _ Hi Hs Hnext) as Hfresh.
  unfold ClassifyPacket, ClassifyReliable. rewrite Ht, Hfresh. cbv zeta.
  assert (Heq : seq pkt =? rx_rel_next_deliver_ c = true)
    by (rewrite (rxi_next _ _ Hi), <- Hnext, u32_id by done; apply Z.eqb_refl).
  rewrite Heq, orb_true_r. destruct (Accept _ _) as [w b] eqn:Hacc.
  destruct (accept_spec _ _ _ _ (rxi_window _ _ Hi) (rx_inv_number _ _ _ Hi Hs) Hacc)
    as [_ _ _ Hf _ _ _ _ _].
  by rewrite (proj2 Hf Hfresh).
Qed.

(** The next expected packet is delivered at once.  A sealed reliable packet
    numbered one past the delivered ones is given to the handler by the very
    call that receives it, even when the hold is full, followed by the packets
    held behind it; it is the next message delivered. *)
Theorem next_expected_delivered (c : Conn) (pkt : WirePacket) (from : IpEndpoint) (now : Z) :
  rx_inv (fun _ _ => True) c -> length (id_ c) = kAssocIdBytes ->
  type pkt = DataReliable -> is_u32 (seq pkt) ->
  seq pkt = last_contiguous_ (rx_rel_ c) + 1 ->
  exists rest, delivered_log (HandleAuthenticated c pkt from now)
    = delivered_log c ++ (seq pkt, payload pkt) :: rest.
Proof.
  intros Hi Hid Ht Hs Hnext. rewrite HandleAuthenticated_dispatch. rewrite Ht. simpl.
  assert (Href : RefusePlainAfterKeys c pkt = (c, false))
    by (unfold RefusePlainAfterKeys; rewrite Ht; by rewrite orb_true_r).
  rewrite Href. simpl. rewrite (next_number_classified _ _ _ Hi Ht Hs Hnext).
  set (c1 := c <| rx_rel_ := _ |>). unfold Dispatch, HandleReliable. rewrite Ht. cbn [negb].
  destruct (NoteFresh_views c1 pkt from true now) as (Hrx2 & Hid2 & _ & _).
  set (c2 := NoteFresh _ _ _ _) in *.
  destruct (SendPacket_views c2 Ack (seq pkt) [] now None) as (Hrx3 & _).
  set (c3 := (SendPacket c2 Ack (seq pkt) [] now None).1) in *.
  assert (Hrx : rx_view c3 = rx_view c1) by congruence. clearbody c3. clear Hrx2 Hrx3.
  injection Hrx as Hrel Hnx Hhold Hmsg _ Hlog. rewrite Hmsg. subst c1. simpl in *.
  rewrite (rxi_handler _ _ Hi). unfold DeliverReliableInOrder. simpl. rewrite Hmsg, (rxi_handler _ _ Hi).
  cbn [negb]. rewrite Hnx, (rxi_next _ _ Hi), <- Hnext, u32_id, lookup_insert_eq by done.
  set (c4 := _ <| endpoint_ ::= _ |>).
  destruct (DeliverLoop_grows (base.size (<[seq pkt := MkHeld (IsSealed DataReliable) (payload pkt)]>
                                 (rx_rel_hold_ c3))) c4) as [rest Hr].
  exists rest. rewrite Hr. subst c4. unfold delivered_log at 1. simpl.
  rewrite delivered_app, <- app_assoc. simpl. f_equal. exact Hlog.
Qed.

(** ** Sending *)

(** What [Send] does, on every branch.  It fails with nothing changed on a
    closed connection, for a payload over the limit (the sealed limit once
    there are keys), with no reliable credit left, and when the sequence numbers
    are spent; otherwise reliable data takes one credit and the next number, is
    kept for resending with its payload, and fails only if the send found no
    route. *)
Theorem send_outcome (c : Conn) (p : bytes) :
  0 <= tx_seq_rel_ c < 2 ^ 32 ->
  let limit := if Sealing c then kMaxSealedPayload else kMaxPayload in
  (forall qos, closed_ c = true ->
     Send c qos p = (c, Fail (Of ErrClosed "adp: send on closed connection")))
  /\ (forall qos, closed_ c = false -> limit < size p ->
     Send c qos p = (c, Fail (Of PayloadTooLarge "adp: payload too large")))
  /\ (closed_ c = false -> size p <= limit -> ReliableCreditsRemaining c <= 0 ->
     Send c Reliable p = (c, Fail (Of WindowFull "adp: reliable window full")))
  /\ (closed_ c = false -> size p <= limit -> 0 < ReliableCreditsRemaining c ->
     tx_seq_rel_ c = 4294967295 -> Send c Reliable p = (c, Fail (Of SeqWrap "adp: seq wrap")))
  /\ (closed_ c = false -> size p <= limit -> 0 < ReliableCreditsRemaining c ->
     tx_seq_rel_ c <> 4294967295 ->
     let '(c', r) := Send c Reliable p in
     ReliableCreditsRemaining c' = ReliableCreditsRemaining c - 1
     /\ tx_seq_rel_ c' = tx_seq_rel_ c + 1
     /\ (exists o, outstanding_ c' = outstanding_ c ++ [o] /\ o_seq o = tx_seq_rel_ c + 1
          /\ o_payload o = p /\ attempts o = 0)
     /\ (r = Ok tt \/ peer_unreachable_ c' = true)).
Proof.
  intros Hseq. cbv zeta. unfold Send, SendReliable, ReliableCreditsRemaining.
  split_and!; [by intros qos ->|by intros qos -> ->%Z.ltb_lt| | |].
  - intros -> Hp Hc. rewrite (proj2 (Z.ltb_ge _ _) Hp).
    destruct (_ <=? size (outstanding_ c)) eqn:E; [done|]. zbool. lia.
  - intros -> Hp Hc Hmax. rewrite (proj2 (Z.ltb_ge _ _) Hp).
    destruct (_ <=? size (outstanding_ c)) eqn:E; [done|]. by rewrite Hmax.
  - intros -> Hp Hc Hmax. rewrite (proj2 (Z.ltb_ge _ _) Hp).
    destruct (_ <=? size (outstanding_ c)) eqn:E; [done|].
    rewrite (proj2 (Z.eqb_neq _ _) Hmax). zbool. cbv zeta.
    set (o := MkOutstanding _ _ _ _ _ _ _ _). set (c1 := _ <| stats_ ::= _ |>).
    destruct (SendPacket_views c1 (o_type o) (tx_seq_rel_ c1) p (clock_ (endpoint_ c)) None)
      as (_ & Htx & _).
    assert (Hs1 : tx_seq_rel_ c1 = tx_seq_rel_ c + 1)
      by (subst c1; simpl; apply u32_id; unfold is_u32; lia).
    destruct (SendPacket c1 _ _ _ _ _) as [c2 r2].
    assert (Hv : tx_seq_rel_ c2 = tx_seq_rel_ c1 /\ outstanding_ c2 = outstanding_ c ++ [o]
                 /\ reliable_window (params_ c2) = reliable_window (params_ c))
      by (by injection Htx).
    destruct Hv as (Hs2 & Ho2 & Hw2).
    assert (Hpost : forall r, r = Ok tt \/ peer_unreachable_ c2 = true ->
      (if reliable_window (params_ c2) <=? size (outstanding_ c2) then 0
       else reliable_window (params_ c2) - size (outstanding_ c2))
      = reliable_window (params_ c) - size (outstanding_ c) - 1
      /\ tx_seq_rel_ c2 = tx_seq_rel_ c + 1
      /\ (exists o', outstanding_ c2 = outstanding_ c ++ [o'] /\ o_seq o' = tx_seq_rel_ c + 1
          /\ o_payload o' = p /\ attempts o' = 0)
      /\ (r = @Ok Failure unit tt \/ peer_unreachable_ c2 = true)).
    { intros r Hr. rewrite Ho2, Hw2, size_app. change (size [o]) with 1. split_and!.
      - destruct (_ <=? _) eqn:E2; zbool; lia.
      - by rewrite Hs2.
      - exists o. by split_and!.
      - done. }
    destruct r2 as [|e]; [by apply Hpost; left|].
    destruct (peer_unreachable_ c2) eqn:Hu; rewrite ?Hu; apply Hpost; auto.
Qed.
(** ** Two behaviours to know of *)

(** Fresh reliable data with no handler set: acknowledged and not kept. *)
Lemma fresh_reliable_no_handler (c : Conn) (pkt : WirePacket) (from : IpEndpoint) (now : Z) (d : bytes) :
  window_ok (rx_rel_ c) -> number_ok (rx_rel_ c) (seq pkt) -> on_message_ c = false ->
  IsReliableData (type pkt) = true ->
  (IsSealed (type pkt) = true \/ AcceptSkew c (timestamp_ms pkt) now = true /\ Sealing c = false) ->
  Classify (rx_rel_ c) (seq pkt) = Fresh ->
  (forall c' : Conn, id_ c' = id_ c -> binder_ c' = binder_ c ->
     PacketDatagram c' Ack (seq pkt) [] now None = Ok d) ->
  let c' := HandleAuthenticated c pkt from now in
  d ∈ sent_log c' /\ Classify (rx_rel_ c') (seq pkt) = Duplicate
  /\ rx_rel_hold_ c' = rx_rel_hold_ c /\ rx_rel_next_deliver_ c' = rx_rel_next_deliver_ c
  /\ delivered_log c' = delivered_log c.
Proof.
  intros Hw Hn Hm Ht Hopen Hfresh Hack. cbv zeta. rewrite HandleAuthenticated_dispatch.
  assert (Hcond : negb (IsSealed (type pkt)) && negb (AcceptSkew c (timestamp_ms pkt) now) = false)
    by (destruct Hopen as [->|[-> _]]; [done|by rewrite andb_false_r]).
  rewrite Hcond.
  assert (Href : RefusePlainAfterKeys c pkt = (c, false))
    by (unfold RefusePlainAfterKeys; destruct Hopen as [->|[_ ->]]; [by rewrite orb_true_r|done]).
  assert (Hcl : ClassifyPacket c pkt
                = (c <| rx_rel_ := (Accept (rx_rel_ c) (seq pkt)).1 |>, (true, true, true))).
  { assert (ClassifyPacket c pkt = ClassifyReliable c (seq pkt)) as ->
      by (unfold ClassifyPacket; by destruct (type pkt)).
    unfold ClassifyReliable. rewrite Hfresh, Hm. simpl.
    destruct (Accept _ _) as [w b] eqn:Hacc.
    destruct (accept_spec _ _ _ _ Hw Hn Hacc) as [_ _ _ Hf _ _ _ _ _]. by rewrite (proj2 Hf Hfresh). }
  rewrite Href. simpl. rewrite Hcl. set (c1 := c <| rx_rel_ := _ |>).
  destruct (NoteFresh_views c1 pkt from true now) as (Hrx2 & Hid2 & _ & _).
  assert (Hb2 : binder_ (NoteFresh (NoteTimestamp c1 pkt) from true now) = binder_ c).
  { unfold NoteFresh, NoteTimestamp, MaybeLearnPath, SetPeerEndpoint.
    repeat (case_match_goal; try done). }
  set (c2 := NoteFresh _ _ _ _) in *. assert (Hdisp : Dispatch c2 pkt true true now = HandleReliable c2 pkt true true now)
    by (unfold Dispatch; by destruct (type pkt)).
  rewrite Hdisp. unfold HandleReliable. cbn [negb].
  destruct (SendPacket_views c2 Ack (seq pkt) [] now None) as (Hrx3 & _).
  destruct (SendPacket_spec c2 Ack (seq pkt) [] now None) as (u & h & Heq & _ & _ & Hlog).
  set (c3 := (SendPacket c2 Ack (seq pkt) [] now None).1) in *.
  assert (Hrx : rx_view c3 = rx_view c1) by congruence.
  pose proof (f_equal fst Hid2 : id_ c2 = id_ c) as Hid3.
  injection Hrx as Hrel Hnx Hhold Hmsg _ Hdl. rewrite Hmsg. subst c1. simpl in Hrel, Hnx, Hhold, Hdl |- *.
  rewrite Hm. split_and!; [|rewrite Hrel|done|done|exact Hdl].
  - destruct Hlog as [[_ Hno]|(d' & Hd' & Hl)]; [by destruct (Hno d); apply Hack|].
    rewrite (Hack c2 Hid3 Hb2) in Hd'. injection Hd' as <-.
    rewrite Heq. unfold sent_log. simpl. rewrite Hl, sent_datagrams_app. apply elem_of_app. right. by left.
  - destruct (Accept (rx_rel_ c) (seq pkt)) as [w b] eqn:Hacc. simpl.
    destruct (accept_spec _ _ _ _ Hw Hn Hacc) as [Hok1 _ _ Hf Hnew _ _ _ _].
    apply (classify_duplicate _ _ Hok1); [apply Hn|right]. by apply Hnew, Hf.
Qed.

(** A reliable packet that arrives while no handler is set is acknowledged,
    so its sender never resends it, but not kept: it is in the replay window,
    not in the hold, and every later copy is a duplicate; delivery stays at its
    number for good. *)
Theorem no_handler_acks_and_drops (c : Conn) (pkt : WirePacket) (from : IpEndpoint) (now : Z) (d : bytes) :
  window_ok (rx_rel_ c) -> number_ok (rx_rel_ c) (seq pkt) -> on_message_ c = false ->
  type pkt = DataReliable -> Classify (rx_rel_ c) (seq pkt) = Fresh ->
  (forall c' : Conn, id_ c' = id_ c -> binder_ c' = binder_ c ->
     PacketDatagram c' Ack (seq pkt) [] now None = Ok d) ->
  let c' := HandleAuthenticated c pkt from now in
  d ∈ sent_log c' /\ Classify (rx_rel_ c') (seq pkt) = Duplicate
  /\ rx_rel_hold_ c' = rx_rel_hold_ c /\ rx_rel_next_deliver_ c' = rx_rel_next_deliver_ c
  /\ delivered_log c' = delivered_log c.
Proof.
  intros Hw Hn Hm Ht Hfresh Hack.
  apply (fresh_reliable_no_handler c pkt from now d); rewrite ?Ht; auto.
Qed.
End Props.

Section Reflection.
Context {P Io : Type} `{PacketProtection P} `{DatagramIo Io} `{SodiumLaws}.
#[local] Existing Instance any_sound.
Abbreviation Conn := (Connection P Io).

(** The HMAC names no direction.  An acknowledgement this end itself sent,
    reflected to it by the network, is taken as the peer's: it authenticates
    under the shared key and removes this end's own packet of that number from
    flight, though the peer never had it. *)
Theorem reflected_ack_taken (c : Conn) (s sent_ms now : Z) (from : IpEndpoint) (d : bytes) :
  length (id_ c) = kAssocIdBytes -> is_u32 s ->
  AcceptSkew c (TruncTs sent_ms) now = true ->
  PacketDatagram c Ack s [] sent_ms None = Ok d ->
  outstanding_ (HandleDatagram c from d now) = filter (fun o => o_seq o <> s) (outstanding_ c).
Proof.
  intros Hid Hs Hskew Hd. unfold PacketDatagram in Hd. change (IsSealed Ack) with false in Hd.
  cbv iota in Hd. rewrite Encode_ok in Hd by done. unfold Seal in Hd.
  cbn [type assoc seq timestamp_ms payload default] in Hd.
  assert (Hts : is_u32 (TruncTs sent_ms)) by (unfold TruncTs; apply u32_range).
  set (body := hmac_layout _ _ _ _ _) in Hd.
  assert (d = body ++ ComputeTag (binder_ c) body) as -> by congruence. clear Hd.
  assert (Hdec : Decode (body ++ ComputeTag (binder_ c) body)
                 = Ok (MkWirePacket kWireVersion Ack (id_ c) s (TruncTs sent_ms) []))
    by (apply Decode_layout; try done; apply ComputeTag_length).
  unfold HandleDatagram. change (PeekType (body ++ _)) with (@Ok Error _ Ack).
  change (IsSealed Ack) with false. cbv iota.
  rewrite Verify_Seal, Hdec. cbn [ok negb]. cbv iota. set (pkt := MkWirePacket _ _ _ _ _ _).
  rewrite HandleAuthenticated_dispatch. change (timestamp_ms pkt) with (TruncTs sent_ms).
  rewrite Hskew, andb_false_r.
  assert (E1 : RefusePlainAfterKeys c pkt = (c, false))
    by (unfold RefusePlainAfterKeys; by destruct (_ || _)).
  rewrite E1. change (ClassifyPacket c pkt) with (c, (NewerTimestamp c pkt, false, false)).
  simpl. change (Dispatch ?x pkt false false now) with (HandleAck x pkt now).
  destruct (NoteFresh_views c pkt from (NewerTimestamp c pkt) now) as (_ & _ & _ & Htx).
  injection Htx as _ Ho _ _. unfold HandleAck. simpl. f_equal.
  destruct (list_find _ _) as [[i o]|]; [|exact Ho].
  unfold NoteRttSample. cbv zeta. by destruct (_ <? 0).
Qed.
End Reflection.

(** ** Concrete instances *)

Section Witness.
#[local] Existing Instance any_sound.
#[local] Existing Instance toy_sodium.
#[local] Existing Instance toy_sodium_laws.
#[local] Existing Instance toy_protection.
#[local] Existing Instance toy_io.

Abbreviation ToyConn := (Connection Z ToyIo).

Definition preauth_params : OpenParams :=
  toy_params 20 <| reduce_rtx_until_authenticated := true |>.
Definition preauth_ops : list (op Z ToyIo) :=
  [OpSend Reliable [1]; OpTick 1060; OpTick 1120; OpTick 1180; OpTick 1240].

Theorem preauth_retransmits_bounded_witness :
  let c := run (Connection_new toy_host preauth_params) preauth_ops in
  st_retransmits (stats_ c) = 2
  /\ st_retransmits (stats_ c)
     <= (if dialer_backoff preauth_params then kPreAuthDialMaxRtx else kPreAuthMaxRtx)
        * st_reliable_sent (stats_ c).
Proof.
  split; [by vm_compute|].
  apply (preauth_retransmits_bounded toy_host preauth_params preauth_ops); [done|by vm_compute|done|].
  by repeat constructor.
Defined.

Theorem retransmit_interval_bounds_witness :
  let c : ToyConn := toy_conn 20 in
  let cap := Z.max kMaxRtoMs (rtx_interval_ms (params_ c)) in
  if authenticated_ c then
    rtx_interval_ms (params_ c) <= RetransmitIntervalMs c 3 <= cap
    /\ (3 < 8 -> RetransmitIntervalMs c (3 + 1) = Z.min (2 * RetransmitIntervalMs c 3) cap)
    /\ (8 <= 3 -> RetransmitIntervalMs c 3 = RetransmitIntervalMs c 8)
  else RetransmitIntervalMs c 3
       = rtx_interval_ms (params_ c) * (if dialer_backoff (params_ c) then 2 ^ Z.min 3 16 else 1).
Proof. apply (retransmit_interval_bounds (toy_conn 20) 3); by vm_compute. Defined.

Theorem rtt_estimates_bounded_witness :
  let c' := rtt_samples_run (toy_conn 20) [200; 180; 240; 210] in
  180 <= srtt_ms (stats_ c') <= 240
  /\ 0 <= rttvar_ms (stats_ c') <= Z.max (240 - 180) (Z.quot 240 2).
Proof.
  apply (rtt_estimates_bounded (toy_conn 20) 180 240 [200; 180; 240; 210]); try done.
  repeat constructor; lia.
Defined.

Definition sealed_pkt (n : Z) : WirePacket :=
  MkWirePacket kWireVersion DataReliable [1; 2; 3; 4; 5; 6; 7; 8] n 0 [9; 9].
Definition keyed_conn : ToyConn := SetProtection (toy_conn 20) (Some 5).

Lemma keyed_windows_ok : windows_ok keyed_conn.
Proof. split; apply window_new_ok; by vm_compute. Qed.

Theorem replayed_packet_moves_nothing_witness :
  let c1 := HandleAuthenticated keyed_conn (sealed_pkt 2) (IpEndpoint_V4 10 0 0 1 7) 1500 in
  let c2 := run c1 [OpSend BestEffort [7]; OpDatagram (IpEndpoint_V4 10 0 0 66 7) [1; 2] 1540; OpTick 1550] in
  let c3 := HandleAuthenticated c2 (sealed_pkt 2) (IpEndpoint_V4 10 0 0 66 7) 1600 in
  (peer_ c1 = IpEndpoint_V4 10 0 0 1 7 /\ last_auth_rx_ms_ c1 = 1500)
  /\ peer_ c3 = peer_ c2 /\ last_auth_rx_ms_ c3 = last_auth_rx_ms_ c2.
Proof.
  split; [by vm_compute|].
  apply (replayed_packet_moves_nothing keyed_conn (sealed_pkt 2) (IpEndpoint_V4 10 0 0 1 7)
           (IpEndpoint_V4 10 0 0 66 7) 1500 1600).
  - apply keyed_windows_ok.
  - by vm_compute.
  - by left.
  - by vm_compute.
  - by vm_compute.
  - by vm_compute.
  - by repeat constructor.
  - by left.
Defined.

Theorem plain_refused_after_keys_witness :
  let pkt := MkWirePacket kWireVersion PlainReliable [1; 2; 3; 4; 5; 6; 7; 8] 1 1000 [9] in
  let c' := HandleAuthenticated keyed_conn pkt (IpEndpoint_V4 10 0 0 1 7) 1000 in
  rx_view c' = rx_view keyed_conn /\ rx_be_ c' = rx_be_ keyed_conn /\ path_of c' = path_of keyed_conn
  /\ tx_view c' = tx_view keyed_conn
  /\ (sent_log c' = sent_log keyed_conn \/ Classify (rx_rel_ keyed_conn) (seq pkt) = Duplicate).
Proof.
  apply (plain_refused_after_keys keyed_conn
           (MkWirePacket kWireVersion PlainReliable [1; 2; 3; 4; 5; 6; 7; 8] 1 1000 [9])
           (IpEndpoint_V4 10 0 0 1 7) 1000); [done|by left].
Defined.

Definition keepalive_pkt : WirePacket :=
  MkWirePacket kWireVersion Keepalive [1; 2; 3; 4; 5; 6; 7; 8] 0 1000 [255; 255; 255; 255; 0].
Definition keepalive_datagram : bytes :=
  match PacketDatagram (toy_conn 20) Keepalive 0 (payload keepalive_pkt) 1000 None with
  | Ok d => d
  | Fail _ => []
  end.

Theorem liveness_window_capped_witness :
  let c' := HandleDatagram (toy_conn 20) (IpEndpoint_V4 10 0 0 1 7) keepalive_datagram 1000 in
  let cap := Z.max (alive_timeout_ms (params_ c'))
               (Z.quot (Z.max (local_keepalive_interval_ms_ c') 600000 * 5) 2) in
  LivenessWindowMs c' = 1500000
  /\ LivenessWindowMs c' <= cap
  /\ (LooksAlive c' 5000 = true ->
      closed_ c' = false /\ last_auth_rx_ms_ c' <> 0 /\ 5000 - last_auth_rx_ms_ c' <= cap).
Proof.
  split; [by vm_compute|].
  apply (liveness_window_capped (toy_conn 20) (IpEndpoint_V4 10 0 0 1 7) keepalive_datagram 1000 5000).
  by vm_compute.
Defined.

Lemma keyed_rx_inv : rx_inv (fun _ _ => True) keyed_conn.
Proof.
  destruct (fresh_side_inv (fun _ => True) (toy_conn 20) (toy_conn_fresh 20)) as [_ _ Hrx _].
  eapply rx_inv_view; [|eapply rx_inv_mono; [|exact Hrx]]; done.
Qed.

Theorem next_expected_delivered_witness :
  exists rest, delivered_log (HandleAuthenticated keyed_conn (sealed_pkt 1) (IpEndpoint_V4 10 0 0 1 7) 1500)
    = delivered_log keyed_conn ++ (1, [9; 9]) :: rest.
Proof.
  apply (next_expected_delivered keyed_conn (sealed_pkt 1) (IpEndpoint_V4 10 0 0 1 7) 1500); try done.
  apply keyed_rx_inv.
Defined.

Theorem send_outcome_witness :
  let c : ToyConn := keyed_conn in
  let '(c', r) := Send c Reliable [7; 7] in
  ReliableCreditsRemaining c' = ReliableCreditsRemaining c - 1
  /\ tx_seq_rel_ c' = tx_seq_rel_ c + 1
  /\ (exists o, outstanding_ c' = outstanding_ c ++ [o] /\ o_seq o = tx_seq_rel_ c + 1
       /\ o_payload o = [7; 7] /\ attempts o = 0)
  /\ (r = Ok tt \/ peer_unreachable_ c' = true).
Proof. apply (send_outcome keyed_conn [7; 7]); by vm_compute. Defined.

Definition handlerless_conn : ToyConn := keyed_conn <| on_message_ := false |>.
Definition ack1_datagram : bytes :=
  match PacketDatagram handlerless_conn Ack 1 [] 1500 None with Ok d => d | Fail _ => [] end.

Theorem no_handler_acks_and_drops_witness :
  let c' := HandleAuthenticated handlerless_conn (sealed_pkt 1) (IpEndpoint_V4 10 0 0 1 7) 1500 in
  ack1_datagram ∈ sent_log c' /\ Classify (rx_rel_ c') 1 = Duplicate
  /\ rx_rel_hold_ c' = rx_rel_hold_ handlerless_conn
  /\ rx_rel_next_deliver_ c' = rx_rel_next_deliver_ handlerless_conn
  /\ delivered_log c' = delivered_log handlerless_conn.
Proof.
  apply (no_handler_acks_and_drops handlerless_conn (sealed_pkt 1) (IpEndpoint_V4 10 0 0 1 7) 1500
           ack1_datagram).
  - apply window_new_ok; by vm_compute.
  - by vm_compute.
  - done.
  - done.
  - by vm_compute.
  - intros c' Hid Hb. unfold PacketDatagram, ack1_datagram. by rewrite Hid, Hb.
Defined.

Definition sender_conn : ToyConn := run_op (toy_conn 20) (OpSend Reliable [5]).

Theorem reflected_ack_taken_witness :
  let d := match PacketDatagram sender_conn Ack 1 [] 1500 None with Ok d => d | Fail _ => [] end in
  o_seq <$> outstanding_ sender_conn = [1]
  /\ outstanding_ (HandleDatagram sender_conn (IpEndpoint_V4 10 0 0 66 7) d 1600)
     = filter (fun o => o_seq o <> 1) (outstanding_ sender_conn)
  /\ filter (fun o => o_seq o <> 1) (outstanding_ sender_conn) = [].
Proof.
  split; [by vm_compute|]. split; [|by vm_compute].
  apply (reflected_ack_taken sender_conn 1 1500 1600); by vm_compute.
Defined.
End Witness.
