(* ===== verification/ConnectionMail.v ===== *)
(** * What an association hands up, and when it stops taking

    The messages a datagram brings the handler once the session has keys, and the
    states a connection sends nothing more from: closed, or out of numbers.  For
    the link that is the handler ([AdpLink]). *)

From S2P Require Import Prelude L1Types ReplayWindow WireCodec Connection ConnectionFacts ConnectionSender ReliableChannel ConnectionProps.

(** ** Messages *)

Section Mail.
Context {P Io : Type} `{PacketProtection P} `{DatagramIo Io} `{Sodium}.
Abbreviation Conn := (Connection P Io).

Definition message_of (e : Event) : option Message := match e with EvMessage m => Some m | _ => None end.
Definition messages (c : Conn) : list Message := omap message_of (log_ (endpoint_ c)).

(** What decides what is handed up, and what was. *)
Definition mail (c : Conn) := (messages c, rx_rel_hold_ c, protection_ c).

Lemma SendPacket_mail (c : Conn) t s p now k : mail (SendPacket c t s p now k).1 = mail c.
Proof.
  destruct (SendPacket_spec c t s p now k) as (u & h & -> & _ & _ & Hlog). unfold mail, messages. cbn.
  destruct Hlog as [[-> _]|(d & _ & ->)]; [done|]. by rewrite omap_app, app_nil_r.
Qed.
Lemma SendKeepalivePacket_mail (c : Conn) now i f : mail (SendKeepalivePacket c now i f).1 = mail c.
Proof. unfold SendKeepalivePacket. destruct (closed_ c); [done|]. destruct (_ =? _); [done|]. apply SendPacket_mail. Qed.
Lemma HandleKeepalive_mail (c : Conn) pkt now : mail (HandleKeepalive c pkt now) = mail c.
Proof.
  unfold HandleKeepalive. destruct (_ <? _); [done|]. cbv zeta. destruct (negb _); [|done]. by rewrite SendKeepalivePacket_mail.
Qed.
Lemma HandleAck_mail (c : Conn) pkt now : mail (HandleAck c pkt now) = mail c.
Proof.
  unfold HandleAck. destruct (list_find _ _) as [[i o]|]; [|done]. set (rtt := now - first_sent_ms o).
  assert (Hh : omap message_of (log_ (Host_NoteRttSample (endpoint_ c) rtt)) = messages c).
  { unfold Host_NoteRttSample. cbn. destruct (rtt_observer_ (endpoint_ c)); [|done]. cbn. by rewrite omap_app, app_nil_r. }
  unfold NoteRttSample. destruct (_ <? 0); unfold mail; rewrite <- Hh; reflexivity.
Qed.
Lemma SetPeerEndpoint_mail (c : Conn) e : mail (SetPeerEndpoint c e) = mail c.
Proof.
  unfold SetPeerEndpoint. destruct (endpoint_eqb _ _); [done|]. cbn. destruct (on_path_change_ c); [|done].
  unfold mail, messages. cbn. by rewrite omap_app, app_nil_r.
Qed.
Lemma NoteFresh_mail (c : Conn) pkt from fr now : mail (NoteFresh (NoteTimestamp c pkt) from fr now) = mail c.
Proof.
  assert (Ht : mail (NoteTimestamp c pkt) = mail c) by (unfold NoteTimestamp; by destruct (_ && _)).
  unfold NoteFresh, MaybeLearnPath. destruct fr; [|done].
  destruct (forallb _ _); [by rewrite SetPeerEndpoint_mail|]. destruct (negb _); [by rewrite SetPeerEndpoint_mail|done].
Qed.
Lemma ClassifyPacket_mail (c : Conn) pkt : mail (ClassifyPacket c pkt).1 = mail c.
Proof. unfold ClassifyPacket, ClassifyReliable. repeat (case_match_goal; simpl; try done). Qed.

(** Nothing unsealed is held back. *)
Definition sealed_hold (c : Conn) : Prop := map_Forall (fun _ h => hr_sealed h = true) (rx_rel_hold_ c).

(** Handed up: reliable packets that were sealed, or one best effort packet. *)
Definition in_order (new : list Message) : Prop := Forall (fun m => m_sealed m = true /\ m_qos m = Reliable) new.
Definition hands (single : Message -> Prop) (c c' : Conn) : Prop :=
  protection_ c' = protection_ c /\ sealed_hold c'
  /\ exists new, messages c' = messages c ++ new /\ (in_order new \/ exists m, new = [m] /\ single m).

Lemma hands_mail single c c' : mail c' = mail c -> sealed_hold c -> hands single c c'.
Proof.
  intros [= Hm Hh Hp] Hs. split; [done|]. unfold sealed_hold. rewrite Hh. split; [done|]. exists [].
  rewrite app_nil_r. split; [done|]. left. constructor.
Qed.
Lemma hands_from single c c1 c' : mail c1 = mail c -> hands single c1 c' -> hands single c c'.
Proof. intros [= Hm _ Hp] (Hp' & Hs & new & Hn & Hcase). split; [congruence|]. split; [done|]. exists new. by rewrite Hn, Hm. Qed.

Lemma DeliverLoop_hands single fuel : forall c : Conn, sealed_hold c -> hands single c (DeliverLoop fuel c).
Proof.
  intros c Hs. enough (sealed_hold (DeliverLoop fuel c) /\ protection_ (DeliverLoop fuel c) = protection_ c
    /\ exists new, messages (DeliverLoop fuel c) = messages c ++ new /\ in_order new) as (? & ? & new & ? & ?).
  { split_and!; [done|done|]. exists new. auto. }
  revert c Hs. induction fuel as [|fuel IH]; intros c Hs; simpl.
  { split_and!; [done|done|]. exists []. rewrite app_nil_r. split; [done|constructor]. }
  destruct (rx_rel_hold_ c !! rx_rel_next_deliver_ c) as [held|] eqn:Hheld.
  2: { split_and!; [done|done|]. exists []. rewrite app_nil_r. split; [done|constructor]. }
  set (c1 := c <| rx_rel_hold_ ::= _ |> <| rx_rel_next_deliver_ ::= _ |> <| endpoint_ ::= _ |>).
  destruct (IH c1) as (Hs' & Hp' & new & Hn & Hall).
  { intros i h. cbn. intros [_ Hi]%lookup_delete_Some. by apply (Hs i). }
  split_and!; [done|by rewrite Hp'|]. eexists (_ :: new). split.
  - rewrite Hn. unfold messages at 1. cbn. rewrite omap_app, <- app_assoc. reflexivity.
  - constructor; [|done]. split; [by apply (Hs _ _ Hheld)|done].
Qed.

Lemma HandleReliable_hands single (c : Conn) pkt fd ak now : IsSealed (type pkt) = true -> sealed_hold c ->
  hands single c (HandleReliable c pkt fd ak now).
Proof.
  intros Ht Hs. unfold HandleReliable. set (c1 := if ak then _ else c).
  assert (Hc1 : mail c1 = mail c) by (subst c1; destruct ak; [apply SendPacket_mail|done]).
  assert (Hs1 : sealed_hold c1) by (unfold sealed_hold; injection Hc1 as _ -> _; done).
  destruct (negb fd); [by apply hands_mail|]. destruct (on_message_ c1) eqn:Hm; [|by apply hands_mail].
  set (c2 := c1 <| rx_rel_hold_ ::= _ |>).
  assert (Hs2 : sealed_hold c2) by (intros i h; cbn; intros [[_ <-]|[_ Hi]]%lookup_insert_Some; [done|by apply (Hs1 i)]).
  assert (Hh : hands single c2 (DeliverReliableInOrder c2)).
  { unfold DeliverReliableInOrder. destruct (negb _); [by apply hands_mail|by apply DeliverLoop_hands]. }
  apply (hands_from _ _ c1 _ Hc1). exact Hh.
Qed.

(** A datagram, once there are keys. *)
Lemma HandleDatagram_hands (c : Conn) from d now : Sealing c = true -> sealed_hold c ->
  hands (fun m => m_sealed m = true /\ m_qos m = BestEffort
    /\ exists b pkt, Extract c d now = Some (b, pkt) /\ type pkt = DataBestEffort /\ m_payload m = payload pkt)
    c (HandleDatagram c from d now).
Proof.
  intros Hk Hs. rewrite HandleDatagram_extract. set (single := fun m : Message => _). destruct (Extract c d now) as [[[] pkt]|] eqn:HE.
  3: by apply hands_mail.
  2: { apply hands_mail; [|done]. unfold HandlePreUpgradeKeyPacket. destruct (negb _); [done|].
       destruct (type pkt); try done. case_decide; [apply SendPacket_mail|done]. }
  rewrite HandleAuthenticated_dispatch. destruct (_ && _); [by apply hands_mail|].
  destruct (RefusePlainAfterKeys c pkt).2 eqn:Href.
  { apply hands_mail; [|done]. unfold RefusePlainAfterKeys. repeat (case_match_goal; simpl; try done). apply SendPacket_mail. }
  pose proof (ClassifyPacket_mail c pkt) as Hc1. destruct (ClassifyPacket c pkt) as [c1 [[fr fd] ak]]. cbn [fst] in Hc1.
  pose proof (NoteFresh_mail c1 pkt from fr now) as Hc2. set (c2 := NoteFresh _ _ _ _) in *. clearbody c2. rewrite Hc1 in Hc2.
  assert (Hs2 : sealed_hold c2) by (unfold sealed_hold; injection Hc2 as _ -> _; done).
  unfold RefusePlainAfterKeys in Href. rewrite Hk in Href. cbn [negb orb] in Href.
  assert (Hmail : forall c3, mail c3 = mail c2 -> hands single c c3) by (intros; apply hands_mail; [congruence|done]).
  unfold Dispatch. destruct (type pkt) eqn:Ht; cbn [IsSealed] in Href; try done.
  - apply (hands_from _ _ c2 _ Hc2). unfold HandleBestEffort. destruct (negb fd); [by apply hands_mail|].
    destruct (on_message_ c2); [|by apply hands_mail]. split; [done|]. split; [done|].
    eexists [_]. split; [unfold messages at 1; cbn; by rewrite omap_app|]. right. eexists. split; [reflexivity|].
    rewrite Ht. split_and!; [done|done|]. exists true, pkt. by rewrite ?HE.
  - apply (hands_from _ _ c2 _ Hc2). apply HandleReliable_hands; [by rewrite Ht|done].
  - apply Hmail, HandleAck_mail.
  - apply Hmail. unfold HandleClose. by destruct (_ && _).
  - apply Hmail. destruct (negb _); [done|apply HandleKeepalive_mail].
  - by case_decide.
Qed.

(** The reliable messages are the log of deliveries. *)
Definition numbered (m : Message) : option (Z * bytes) :=
  if decide (m_qos m = Reliable) then Some (m_seq m, m_payload m) else None.
Lemma delivered_messages (c : Conn) : delivered_log c = omap numbered (messages c).
Proof.
  unfold delivered_log, messages. induction (log_ (endpoint_ c)) as [|e l IH]; [done|].
  change (e :: l) with ([e] ++ l). rewrite delivered_app, !omap_app, IH. f_equal. by destruct e.
Qed.
End Mail.

(** ** States nothing more is sent from *)

Section Final.
Context {P Io : Type} `{PacketProtectionLaws P} `{DatagramIo Io} `{SodiumLaws}.
Abbreviation Conn := (Connection P Io).

Definition final (c : Conn) : Prop := closed_ c = true \/ tx_seq_rel_ c = 4294967295.

(** An operation that takes no datagram and no keys. *)
Definition local_op (o : op P Io) : Prop := match o with OpDatagram _ _ _ | OpSetProtection _ => False | _ => True end.

Lemma local_op_views sent (c : Conn) o : keyed c -> tx_inv sent c -> local_op o ->
  rx_view (run_op c o) = rx_view c /\ id_view (run_op c o) = id_view c.
Proof.
  intros Hk Ht Ho.
  assert (Hcase : plain_op o \/ (exists q p, o = OpSend q p) \/ exists now, o = OpTick now) by (destruct o; eauto; by left).
  destruct Hcase as [Hp|[(q & p & ->)|(now & ->)]].
  - destruct (plain_op_frame (rx_rel_ c) c o Hk Hp) as [[Hr Hi _] _]. done.
  - destruct q; [|simpl; unfold Send; destruct (closed_ c); [done|]; destruct (_ <? size p); [done|]; cbv zeta;
      destruct (SendReliable_post sent c p (clock_ (endpoint_ c)) Ht Hk) as [[-> _]|(_ & _ & _ & _ & _ & [Hr Hi _])]; done].
    destruct (Send_best_effort_frame (fun _ => True) c p Hk Logic.I) as [[Hr Hi _] _]. done.
  - destruct (Tick_post sent c now Ht Hk) as (_ & [Hr Hi _] & _). done.
Qed.

(** Closed stays closed. *)
Lemma closed_receive : receive_closed (fun c : Conn => closed_ c = true).
Proof. by split. Qed.
Lemma closed_op (c : Conn) o : closed_ c = true -> closed_ (run_op c o) = true.
Proof.
  intros Hc.
  assert (Hka : forall c1 now i f, closed_ c1 = true -> closed_ (SendKeepalivePacket c1 now i f).1 = true).
  { intros c1 now i f Hc1. unfold SendKeepalivePacket. by rewrite Hc1. }
  destruct o; simpl; try done; try (by apply Hka).
  - unfold Send. by rewrite Hc.
  - unfold CloseConnection. by rewrite Hc.
  - unfold Abandon. by rewrite Hc.
  - unfold UpgradeBinder. by destruct (pre_upgrade_key_ c).
  - unfold SetPeerEndpoint. destruct (endpoint_eqb _ _); [done|]. by destruct (on_path_change_ _).
  - unfold StopKeepalive. destruct (_ =? 0); [done|]. by apply Hka.
  - unfold Tick. by rewrite Hc.
  - by apply (closed_HandleDatagram _ closed_receive).
  - unfold HandleVersionNegotiation. rewrite Hc, orb_true_r. done.
Qed.
End Final.
