(* ===== verification/Endpoint.v ===== *)
(** * The endpoint (src/L1/Endpoint.cpp, include/amp/L1/Endpoint.h)

    Demultiplexing of datagrams to associations, acceptance of new ones,
    version negotiation with its rate limit, and the pump and tick loops.

    Associations are shared objects: [conns_] maps an id to a location of
    [heap], so that a connection taken out of [conns_] by its own [Unregister]
    is still the object its owner (and the rest of the handler) works on.  A
    call of a connection runs with [host] plugged into its [endpoint_] field and
    gives it back. *)

From S2P Require Import Prelude L1Types Toy ReplayWindow WireCodec Connection ConnectionFacts ConnectionSender ReliableChannel ConnectionProps.
From Stdlib Require Import Sorting.Sorted.

Record Endpoint (P Io : Type) := MkEndpoint {
  host : Host Io;
  heap : gmap nat (Connection P Io);
  next_loc : nat;
  conns_ : gmap AssocId nat;
  accept_key_ : option PeerKey;
  accept_enabled_ : bool;
  accept_handler_ : option (Connection P Io -> Connection P Io);
  max_accepted_conns_ : Z;
  negotiation_window_ms_ : Z;
  negotiation_sent_in_window_ : Z;
  tuning_ : AdpTuning;
}.
Arguments MkEndpoint {P Io}.
Arguments host {P Io}.
Arguments heap {P Io}.
Arguments next_loc {P Io}.
Arguments conns_ {P Io}.
Arguments accept_key_ {P Io}.
Arguments accept_enabled_ {P Io}.
Arguments accept_handler_ {P Io}.
Arguments max_accepted_conns_ {P Io}.
Arguments negotiation_window_ms_ {P Io}.
Arguments negotiation_sent_in_window_ {P Io}.
Arguments tuning_ {P Io}.
#[export] Instance Endpoint_fields {P Io} : Fields (Endpoint P Io) := fun e =>
  MkEndpoint (host e) (heap e) (next_loc e) (conns_ e) (accept_key_ e) (accept_enabled_ e)
    (accept_handler_ e) (max_accepted_conns_ e) (negotiation_window_ms_ e)
    (negotiation_sent_in_window_ e) (tuning_ e).

Section Endpoint.
Context {P Io : Type} `{PacketProtection P} `{DatagramIo Io} `{Sodium}.
Abbreviation Conn := (Connection P Io).
Abbreviation Ep := (Endpoint P Io).

Definition Endpoint_new (h : Host Io) : Ep :=
  MkEndpoint h ∅ O ∅ None false None 4096 0 0 AdpTuning_default.

(** The object back at [loc]; the ids it unregistered leave [conns_]. *)
Definition with_conn_result (e : Ep) (loc : nat) (c : Conn) : Ep :=
  e <| heap ::= insert loc c |>
    <| host := (endpoint_ c) <| unregistered := [] |> |>
    <| conns_ ::= fun m => foldr delete m (unregistered (endpoint_ c)) |>.

(** Run [f] on the object at [loc]. *)
Definition with_conn (e : Ep) (loc : nat) (f : Conn -> Conn) : Ep :=
  match heap e !! loc with
  | None => e
  | Some c => with_conn_result e loc (f (c <| endpoint_ := host e |>))
  end.

Definition Find (e : Ep) (id : AssocId) : option nat := conns_ e !! id.

Definition Open (e : Ep) (params : OpenParams) (random : AssocId) : Ep * Roe nat :=
  match OpenConnection (host e) params random with
  | Fail err => (e, Fail (Err_ (fmessage err)))
  | Ok conn =>
      match conns_ e !! id_ conn with
      | Some _ => (e, Fail (Err_ "adp: assoc already open"))
      | None =>
          let loc := next_loc e in
          (e <| heap ::= insert loc conn |> <| next_loc ::= S |> <| conns_ ::= insert (id_ conn) loc |>,
           Ok loc)
      end
  end.

Definition AcceptOrCreate (e : Ep) (aid : AssocId) (akey : PeerKey) (from : IpEndpoint) : Ep * Roe nat :=
  match conns_ e !! aid with
  | Some loc => (e, Ok loc)
  | None =>
      let p := ApplyTuning (tuning_ e) OpenParams_default in
      let p := p <| key := akey |> <| id := aid |> <| mint_id := false |> <| peer := from |>
                 <| reduce_rtx_until_authenticated := true |> in
      Open e p []
  end.

Definition NoteEndpointRejected (e : Ep) : Ep := e <| host ::= NoteRejected |>.

Definition ReplyVersionNegotiation (e : Ep) (from : IpEndpoint) (datagram : bytes) : Ep :=
  let reply := EncodeVersionNegotiation datagram [kWireVersion] in
  if size datagram <? size reply then e
  else
    let now := clock_ (host e) in
    let e := if 1000 <=? now - negotiation_window_ms_ e
             then e <| negotiation_window_ms_ := now |> <| negotiation_sent_in_window_ := 0 |>
             else e in
    if kVersionNegotiationPerSecond <=? negotiation_sent_in_window_ e then e
    else
      let e := e <| negotiation_sent_in_window_ ::= Z.succ |> in
      e <| host := (SendRaw (host e) from reply).1 |>.

Definition HandleForeignVersion (e : Ep) (from : IpEndpoint) (datagram : bytes) : Ep :=
  let e := NoteEndpointRejected e in
  if Z.shiftr (at_ datagram 0) 4 =? kVersionNegotiationNibble then
    match DecodeVersionNegotiation datagram with
    | Fail _ => e
    | Ok negotiation =>
        if bool_decide (kWireVersion ∈ versions negotiation) then e
        else match Find e (PeekAssoc (echo negotiation)) with
             | Some loc => with_conn e loc (fun c => HandleVersionNegotiation c (versions negotiation))
             | None => e
             end
    end
  else if accept_enabled_ e then ReplyVersionNegotiation e from datagram
  else e.

(** The skew check before creating an association. *)
Definition SkewOk (e : Ep) (ts now : Z) : bool :=
  let now_trunc := u32 (Z.land (u64 now) 4294967295) in
  let delta := i32_of_u32 (u32 (now_trunc - ts)) in
  negb ((tn_skew_ms (tuning_ e) <? delta) || (delta <? - tn_skew_ms (tuning_ e))).

Definition HandleUnknown (e : Ep) (aid : AssocId) (from : IpEndpoint) (datagram : bytes) : Ep :=
  match accept_key_ e, PeekType datagram with
  | Some akey, Ok t =>
      if negb (accept_enabled_ e) || IsSealed t then NoteEndpointRejected e
      else if negb (ok (Verify akey datagram)) then NoteEndpointRejected e
      else match Decode datagram with
      | Fail _ => NoteEndpointRejected e
      | Ok decoded =>
          let is_new := bool_decide (Find e aid = None) in
          if is_new && (max_accepted_conns_ e <=? Z.of_nat (base.size (conns_ e))) then e
          else
            let now := clock_ (host e) in
            if negb (SkewOk e (timestamp_ms decoded) now) then e
            else
              let '(e, accepted) := AcceptOrCreate e aid akey from in
              match accepted with
              | Fail _ => e
              | Ok loc =>
                  let e := match accept_handler_ e with
                           | Some handler => if is_new then with_conn e loc handler else e
                           | None => e
                           end in
                  with_conn e loc (fun c => HandleAuthenticated c decoded from now)
              end
      end
  | _, _ => NoteEndpointRejected e
  end.

Definition EndpointHandleDatagram (e : Ep) (from : IpEndpoint) (datagram : bytes) : Ep :=
  match datagram with
  | b0 :: _ =>
      if negb (Z.shiftr b0 4 =? kWireVersion) then HandleForeignVersion e from datagram
      else if (size datagram <? Z.of_nat (kSealedHeaderBytes + kPacketTagBytes))
              || (kMaxDatagramBytes <? size datagram)
      then NoteEndpointRejected e
      else
        let aid := PeekAssoc datagram in
        match Find e aid with
        | Some loc => with_conn e loc (fun c => HandleDatagram c from datagram (clock_ (host e)))
        | None => HandleUnknown e aid from datagram
        end
  | [] => NoteEndpointRejected e
  end.

Fixpoint Pump (budget : nat) (e : Ep) : Ep :=
  match budget with
  | O => e
  | S budget =>
      let '(io, got) := RecvFrom (io_ (host e)) in
      let e := e <| host ::= fun h => h <| io_ := io |> |> in
      match got with
      | Fail _ | Ok None => e
      | Ok (Some (from, datagram)) =>
          let e := e <| host ::= fun h => h <| host_stats ::= fun s =>
                     s <| rx_datagrams ::= fetch_add 1 |>
                       <| rx_bytes ::= fetch_add (size datagram) |> |> |> in
          Pump budget (EndpointHandleDatagram e from datagram)
      end
  end.

(** The snapshot of [conns_] holds the objects, so one that unregisters itself
    while another ticks is still ticked.  (The order of an [unordered_map] is
    unspecified; the model's is [map_to_list]'s.) *)
Definition EndpointTick (e : Ep) : Ep :=
  let now := clock_ (host e) in
  let snap := (map_to_list (conns_ e)).*2 in
  fold_left (fun e loc => with_conn e loc (fun c => Tick c now)) snap e.

(** ** Lemmas *)

Lemma foldr_delete_subseteq (m : gmap AssocId nat) (ids : list AssocId) : foldr delete m ids ⊆ m.
Proof. induction ids as [|i ids IH]; simpl; [done|]. etrans; [apply delete_subseteq|exact IH]. Qed.

Lemma foldr_delete_gone (m : gmap AssocId nat) (ids : list AssocId) i :
  i ∈ ids -> foldr delete m ids !! i = None.
Proof.
  induction 1 as [ids|i j ids _ IH]; simpl; [apply lookup_delete_eq|].
  by apply lookup_delete_None; right.
Qed.

Lemma with_conn_conns (e : Ep) loc f : conns_ (with_conn e loc f) ⊆ conns_ e.
Proof. unfold with_conn. destruct (heap e !! loc); [|done]. apply foldr_delete_subseteq. Qed.

Lemma with_conn_other (e : Ep) loc loc' f : loc <> loc' -> heap (with_conn e loc f) !! loc' = heap e !! loc'.
Proof.
  intros Hne. unfold with_conn. destruct (heap e !! loc); [|done]. simpl. by rewrite lookup_insert_ne.
Qed.

Definition accept_view (e : Ep) :=
  (accept_key_ e, accept_enabled_ e, max_accepted_conns_ e, tuning_ e).

Lemma Reply_conns (e : Ep) from d : conns_ (ReplyVersionNegotiation e from d) = conns_ e
  /\ heap (ReplyVersionNegotiation e from d) = heap e.
Proof. unfold ReplyVersionNegotiation. repeat (case_match_goal; simpl; try done). Qed.

Lemma Foreign_conns (e : Ep) from d : conns_ (HandleForeignVersion e from d) ⊆ conns_ e.
Proof.
  unfold HandleForeignVersion. repeat (case_match_goal; simpl; try done).
  - etrans; [apply with_conn_conns|done].
  - by rewrite (proj1 (Reply_conns _ _ _)).
Qed.

(** ** Acceptance *)

(** What a datagram must be to start an association. *)
Definition acceptable (e : Ep) (d : bytes) : Prop :=
  accept_enabled_ e = true /\ Z.of_nat (base.size (conns_ e)) < max_accepted_conns_ e
  /\ exists akey pkt, accept_key_ e = Some akey /\ Verify akey d = Ok tt /\ Decode d = Ok pkt
     /\ IsSealed (type pkt) = false /\ SkewOk e (timestamp_ms pkt) (clock_ (host e)) = true.

Lemma AcceptOrCreate_new (e : Ep) aid akey from :
  conns_ e !! aid = None ->
  AcceptOrCreate e aid akey from
  = (e <| heap ::= insert (next_loc e)
            (Connection_new (host e)
               (ApplyTuning (tuning_ e) OpenParams_default <| key := akey |> <| id := aid |>
                  <| mint_id := false |> <| peer := from |>
                  <| reduce_rtx_until_authenticated := true |>)) |>
       <| next_loc ::= S |> <| conns_ ::= insert aid (next_loc e) |>, Ok (next_loc e)).
Proof. intros Hn. unfold AcceptOrCreate, Open, OpenConnection. rewrite Hn. simpl. by rewrite Hn. Qed.

Lemma HandleUnknown_cases (e : Ep) aid from d :
  Find e aid = None ->
  (conns_ (HandleUnknown e aid from d) = conns_ e)
  \/ (acceptable e d /\ conns_ (HandleUnknown e aid from d) ⊆ <[aid := next_loc e]> (conns_ e)).
Proof.
  intros Hfind. unfold HandleUnknown.
  destruct (accept_key_ e) as [akey|] eqn:Hk; [|by left].
  destruct (PeekType d) as [t|] eqn:Ht; [|by left].
  destruct (accept_enabled_ e) eqn:Hen; [|by left]. simpl.
  destruct (IsSealed t) eqn:Hs; [by left|].
  destruct (Verify akey d) as [[]|] eqn:Hv; [|by left]. simpl.
  destruct (Decode d) as [pkt|] eqn:Hd; [|by left].
  rewrite Hfind, bool_decide_true by done. simpl.
  destruct (_ <=? _) eqn:Hmax; [by left|]. zbool.
  destruct (SkewOk _ _ _) eqn:Hsk; [|by left]. simpl. right.
  assert (Hts : type pkt = t).
  { unfold Decode in Hd. rewrite Ht in Hd. repeat (case_match_hyp; try done). by injection Hd as <-. }
  split; [split_and!; [done|done|]; exists akey, pkt; by rewrite Hts|].
  rewrite AcceptOrCreate_new by done.
  etrans; [apply with_conn_conns|].
  destruct (accept_handler_ _); [etrans; [apply with_conn_conns|]|]; done.
Qed.

(** C33: only a verified handshake packet starts an association.  If handling a
    datagram gives an id an association it did not have, accepting is enabled,
    the id is the datagram's own, its HMAC verifies under the accept key, it is
    a plain packet whose timestamp is within the skew, and the cap on
    associations was not reached; and handling never takes the number of
    associations past the larger of that cap and what it was. *)
Theorem accept_needs_handshake (e : Ep) (from : IpEndpoint) (d : bytes) :
  let e' := EndpointHandleDatagram e from d in
  (forall aid loc, conns_ e !! aid = None -> conns_ e' !! aid = Some loc ->
     aid = PeekAssoc d /\ acceptable e d)
  /\ Z.of_nat (base.size (conns_ e')) <= Z.max (Z.of_nat (base.size (conns_ e))) (max_accepted_conns_ e).
Proof.
  cbv zeta.
  assert (Hsub : forall e' : Ep, conns_ e' ⊆ conns_ e ->
    (forall aid loc, conns_ e !! aid = None -> conns_ e' !! aid = Some loc ->
       aid = PeekAssoc d /\ acceptable e d)
    /\ Z.of_nat (base.size (conns_ e'))
       <= Z.max (Z.of_nat (base.size (conns_ e))) (max_accepted_conns_ e)).
  { intros e' Hs. split.
    - intros aid loc Hn Hl. eapply lookup_weaken in Hl; [|exact Hs]. congruence.
    - apply map_subseteq_size in Hs. lia. }
  unfold EndpointHandleDatagram. destruct d as [|b0 rest]; [by apply Hsub|].
  destruct (negb (_ =? _)); [apply Hsub, Foreign_conns|].
  destruct (_ || _); [by apply Hsub|].
  destruct (Find e _) as [loc|] eqn:Hfind; [apply Hsub, with_conn_conns|].
  destruct (HandleUnknown_cases e (PeekAssoc (b0 :: rest)) from (b0 :: rest) Hfind) as [Heq|[Hacc Hs]].
  { apply Hsub. by rewrite Heq. }
  split.
  - intros aid loc Hn Hl. eapply lookup_weaken in Hl; [|exact Hs].
    apply lookup_insert_Some in Hl as [[<- _]|[_ Hl]]; [done|congruence].
  - destruct Hacc as (_ & Hcap & _). apply map_subseteq_size in Hs.
    rewrite map_size_insert_None in Hs by exact Hfind. lia.
Qed.

(** Associations are isolated.  A datagram that names a live association
    changes no other association's state, whatever its content. *)
Theorem datagram_isolated (e : Ep) (from : IpEndpoint) (d : bytes) (loc loc' : nat) :
  conns_ e !! PeekAssoc d = Some loc -> loc' <> loc ->
  (exists b rest, d = b :: rest /\ Z.shiftr b 4 = kWireVersion) ->
  heap (EndpointHandleDatagram e from d) !! loc' = heap e !! loc'.
Proof.
  intros Hl Hne (b & rest & -> & Hb). unfold EndpointHandleDatagram. rewrite Hb, Z.eqb_refl. simpl negb.
  cbv iota. destruct (_ || _); [done|]. cbv zeta. unfold Find. rewrite Hl. by apply with_conn_other.
Qed.

(** ** Version negotiation: no amplification, a bounded rate *)

Definition sent_of (e : Ep) : list bytes := sent_datagrams (log_ (host e)).

(** A run of datagrams of other versions, with the clock at each. *)
Definition reply_at (e : Ep) (call : Z * IpEndpoint * bytes) : Ep :=
  let '(now, from, d) := call in
  ReplyVersionNegotiation (e <| host ::= fun h => h <| clock_ := now |> |>) from d.
Definition reply_run (e : Ep) (calls : list (Z * IpEndpoint * bytes)) : Ep := fold_left reply_at calls e.

Definition received_bytes (calls : list (Z * IpEndpoint * bytes)) : Z :=
  foldr (fun call acc => size call.2 + acc) 0 calls.
Definition sent_bytes (l : list bytes) : Z := foldr (fun d acc => size d + acc) 0 l.

Lemma sent_bytes_app l k : sent_bytes (l ++ k) = sent_bytes l + sent_bytes k.
Proof. induction l; simpl; lia. Qed.

Lemma SendRaw_sent (h : Host Io) to d :
  log_ (SendRaw h to d).1 = log_ h ++ [EvSendTo to d] /\ clock_ (SendRaw h to d).1 = clock_ h.
Proof. unfold SendRaw. destruct (SendTo _ _ _) as [io [v|er]]; done. Qed.

(** One call: a reply or none, and the window's count. *)
Lemma reply_step (e : Ep) now from d :
  let e' := reply_at e (now, from, d) in
  0 <= negotiation_sent_in_window_ e <= 16 -> negotiation_window_ms_ e <= now ->
  exists new, sent_of e' = sent_of e ++ new /\ sent_bytes new <= size d
    /\ negotiation_window_ms_ e <= negotiation_window_ms_ e' <= now
    /\ 0 <= negotiation_sent_in_window_ e' <= 16
    /\ ((negotiation_window_ms_ e' = negotiation_window_ms_ e
         /\ negotiation_sent_in_window_ e' = negotiation_sent_in_window_ e + size new)
        \/ (negotiation_window_ms_ e + 1000 <= negotiation_window_ms_ e'
            /\ negotiation_sent_in_window_ e' = size new)).
Proof.
  cbv zeta. intros Hc Hw. unfold reply_at, ReplyVersionNegotiation. cbv zeta. simpl host.
  set (reply := EncodeVersionNegotiation d [kWireVersion]).
  destruct (size d <? size reply) eqn:Hsz; zbool.
  { exists []. rewrite app_nil_r. split_and!; try done; simpl; try lia; [apply size_nonneg|].
    left. unfold size. simpl. lia. }
  set (e1 := if 1000 <=? _ then _ else _).
  assert (He1 : sent_of e1 = sent_of e /\ host e1 = (host e) <| clock_ := now |>
    /\ ((negotiation_window_ms_ e1 = negotiation_window_ms_ e
         /\ negotiation_sent_in_window_ e1 = negotiation_sent_in_window_ e)
        \/ (negotiation_window_ms_ e + 1000 <= now /\ negotiation_window_ms_ e1 = now
            /\ negotiation_sent_in_window_ e1 = 0))).
  { subst e1. simpl. destruct (1000 <=? _) eqn:Hold; zbool; simpl; split_and!; try done; [|by left].
    right. lia. }
  destruct He1 as (Hs1 & Hh1 & Hcase). clearbody e1.
  destruct (kVersionNegotiationPerSecond <=? _) eqn:Hfull; zbool; unfold kVersionNegotiationPerSecond in *.
  - exists []. rewrite app_nil_r. unfold size at 2 3. simpl. split_and!; try lia; try done; apply size_nonneg.
  - exists [reply]. simpl.
    split; [unfold sent_of; simpl; rewrite Hh1;
            rewrite (proj1 (SendRaw_sent _ _ _)), sent_datagrams_app; done|].
    change (size [reply]) with 1. split_and!; lia.
Qed.

(** Version negotiation cannot be used to amplify or to flood.  Over any run
    of datagrams of other versions, at non-decreasing clock readings up to
    [t], the endpoint sends no more bytes of replies than it received, and at
    most 16 replies for each started second since the current window began. *)
Theorem negotiation_bounded (e : Ep) (calls : list (Z * IpEndpoint * bytes)) (t : Z) :
  0 <= negotiation_sent_in_window_ e <= 16 ->
  StronglySorted Z.le (negotiation_window_ms_ e :: calls.*1.*1 ++ [t]) ->
  exists new, sent_of (reply_run e calls) = sent_of e ++ new
    /\ sent_bytes new <= received_bytes calls
    /\ size new <= 16 * ((t - negotiation_window_ms_ e) / 1000 + 1).
Proof.
  intros Hc Hsort.
  enough (Hgen : exists new, sent_of (reply_run e calls) = sent_of e ++ new
    /\ sent_bytes new <= received_bytes calls
    /\ size new + negotiation_sent_in_window_ e
       <= 16 * ((t - negotiation_window_ms_ e) / 1000 + 1)).
  { destruct Hgen as (new & ? & ? & ?). exists new. split_and!; [done|done|lia]. }
  revert e Hc Hsort. induction calls as [|[[now from] d] calls IH]; intros e Hc Hsort; simpl in Hsort.
  - exists []. rewrite app_nil_r. apply StronglySorted_inv in Hsort as [_ HF].
    apply Forall_cons in HF as [Ht _].
    assert (0 <= (t - negotiation_window_ms_ e) / 1000) by (apply Z.div_pos; lia).
    split_and!; [done|done|unfold size; simpl; lia].
  - apply StronglySorted_inv in Hsort as [Hsort HF]. apply Forall_cons in HF as [Hnow _].
    destruct (reply_step e now from d Hc Hnow) as (new1 & Hs1 & Hb1 & Hw1 & Hc1 & Hcase).
    assert (Hsort1 : StronglySorted Z.le
      (negotiation_window_ms_ (reply_at e (now, from, d)) :: calls.*1.*1 ++ [t])).
    { apply StronglySorted_inv in Hsort as [Hs HF]. constructor; [done|].
      eapply Forall_impl; [exact HF|]. intros x Hx. cbv beta in *. etrans; [apply Hw1|exact Hx]. }
    destruct (IH _ Hc1 Hsort1) as (new2 & Hs2 & Hb2 & Hn2).
    exists (new1 ++ new2).
    change (reply_run e ((now, from, d) :: calls)) with (reply_run (reply_at e (now, from, d)) calls).
    change (received_bytes ((now, from, d) :: calls)) with (size d + received_bytes calls).
    rewrite Hs2, Hs1, app_assoc, sent_bytes_app, size_app.
    split_and!; [done|lia|]. destruct Hcase as [[-> Hcnt]|[Hw Hcnt]] in Hn2 |- *; [lia|].
    assert ((t - negotiation_window_ms_ (reply_at e (now, from, d))) / 1000 + 1
            <= (t - negotiation_window_ms_ e) / 1000); [|lia].
    rewrite <- (Z.div_add _ 1 1000) by lia. apply Z.div_le_mono; lia.
Qed.
End Endpoint.

(** ** A dropped hello *)

Section Abandoned.
Context {P Io : Type} `{PacketProtection P} `{DatagramIo Io} `{SodiumLaws}.
Abbreviation Ep := (Endpoint P Io).

(** The datagram of an acknowledgement under the accept key. *)
Definition ack_of (akey : PeerKey) (aid : AssocId) (s now : Z) : bytes :=
  let body := hmac_layout Ack aid s (TruncTs now) [] in body ++ ComputeTag akey body.

Lemma ack_of_datagram (c : Connection P Io) s now :
  PacketDatagram c Ack s [] now None = Ok (ack_of (binder_ c) (id_ c) s now).
Proof.
  unfold PacketDatagram. change (IsSealed Ack) with false. cbv iota. by rewrite Encode_ok by done.
Qed.

Definition accepted_params (e : Ep) (akey : PeerKey) (aid : AssocId) (from : IpEndpoint) : OpenParams :=
  ApplyTuning (tuning_ e) OpenParams_default <| key := akey |> <| id := aid |>
    <| mint_id := false |> <| peer := from |> <| reduce_rtx_until_authenticated := true |>.

Lemma AcceptSkew_SkewOk (e : Ep) (c : Connection P Io) ts now :
  skew_ms (params_ c) = tn_skew_ms (tuning_ e) -> SkewOk e ts now = true -> AcceptSkew c ts now = true.
Proof.
  intros Hs. unfold SkewOk, AcceptSkew, TruncTs. rewrite Hs. cbv zeta.
  set (d := i32_of_u32 _). intros Hok. lia.
Qed.

(** A hello that is dropped silently is acknowledged all the same.  When the
    accept handler abandons the new association (a full handshake backlog), the
    association is gone from the endpoint, yet the hello's datagram is answered
    with an acknowledgement of its number: the dialer takes the hello out of
    flight and never resends it. *)
Theorem abandoned_hello_acked (e : Ep) (from : IpEndpoint) (d : bytes) (akey : PeerKey) (pkt : WirePacket) :
  accept_handler_ e = Some Abandon -> accept_enabled_ e = true -> accept_key_ e = Some akey ->
  Z.of_nat (base.size (conns_ e)) < max_accepted_conns_ e ->
  conns_ e !! PeekAssoc d = None ->
  Z.of_nat kSealedHeaderBytes + 16 <= size d <= kMaxDatagramBytes ->
  Verify akey d = Ok tt -> Decode d = Ok pkt -> type pkt = PlainReliable ->
  SkewOk e (timestamp_ms pkt) (clock_ (host e)) = true ->
  1 <= seq pkt <= tn_reliable_window (tuning_ e) ->
  0 <= tn_replay_window (tuning_ e) < 2 ^ 32 -> tn_reliable_window (tuning_ e) < 2 ^ 32 ->
  let e' := EndpointHandleDatagram e from d in
  conns_ e' !! PeekAssoc d = None
  /\ ack_of akey (PeekAssoc d) (seq pkt) (clock_ (host e)) ∈ sent_of e'.
Proof.
  intros Hh Hen Hk Hcap Hnew Hsz Hv Hd Ht Hskew Hseq Hw1 Hw2. cbv zeta.
  assert (Hpeek : PeekType d = Ok PlainReliable).
  { unfold Decode in Hd. destruct (size d <? _); [done|]. destruct (PeekType d); [|done].
    destruct (IsSealed _); [done|]. destruct (_ <? _); [done|]. injection Hd as <-. by rewrite <- Ht. }
  unfold EndpointHandleDatagram. destruct d as [|b0 rest]; [done|].
  assert (Hb0 : negb (Z.shiftr b0 4 =? kWireVersion) = false).
  { unfold PeekType in Hpeek. by destruct (negb _). }
  rewrite Hb0. set (d := b0 :: rest) in *. change (Z.of_nat kSealedHeaderBytes + 16)
    with (Z.of_nat (kSealedHeaderBytes + kPacketTagBytes)) in Hsz.
  rewrite (proj2 (Z.ltb_ge _ _)) by lia. rewrite (proj2 (Z.ltb_ge kMaxDatagramBytes _)) by lia.
  cbn [orb]. cbv zeta. unfold Find at 1. rewrite Hnew. unfold HandleUnknown.
  rewrite Hk, Hpeek, Hen. change (IsSealed PlainReliable) with false. cbn [negb orb].
  rewrite Hv. cbn [ok negb]. rewrite Hd. unfold Find. rewrite Hnew, bool_decide_true by done.
  rewrite (proj2 (Z.leb_gt _ _)) by lia. cbn [andb]. rewrite Hskew. cbn [negb].
  rewrite AcceptOrCreate_new by done. fold (accepted_params e akey (PeekAssoc d) from).
  set (c0 := Connection_new (host e) (accepted_params e akey (PeekAssoc d) from)).
  set (e1 := e <| heap ::= _ |> <| next_loc ::= _ |> <| conns_ ::= _ |>).
  change (accept_handler_ e1) with (accept_handler_ e). rewrite Hh.
  set (e2 := with_conn e1 (next_loc e) Abandon).
  assert (Hl1 : heap e1 !! next_loc e = Some c0) by (apply lookup_insert_eq).
  set (c2 := Abandon (c0 <| endpoint_ := host e1 |>)).
  assert (He2 : heap e2 !! next_loc e = Some c2).
  { subst e2. unfold with_conn. rewrite Hl1. apply lookup_insert_eq. }
  assert (Hc2 : conns_ e2 !! PeekAssoc d = None).
  { subst e2. unfold with_conn. rewrite Hl1. simpl. apply foldr_delete_gone.
    apply elem_of_app. right. by left. }
  set (c3 := c2 <| endpoint_ := host e2 |>).
  assert (Hdef : with_conn e2 (next_loc e) (fun c => HandleAuthenticated c pkt from (clock_ (host e)))
    = with_conn_result e2 (next_loc e) (HandleAuthenticated c3 pkt from (clock_ (host e))))
    by (unfold with_conn; by rewrite He2).
  rewrite Hdef. split.
  { eapply lookup_weaken_None; [exact Hc2|]. apply foldr_delete_subseteq. }
  destruct (fresh_reliable_no_handler c3 pkt from (clock_ (host e))
              (ack_of akey (PeekAssoc d) (seq pkt) (clock_ (host e)))) as (Hin & _); [| | | | | | |exact Hin].
  - apply window_new_ok; simpl; lia.
  - unfold number_ok. simpl. lia.
  - done.
  - by rewrite Ht.
  - right. split; [|done]. by apply (AcceptSkew_SkewOk e).
  - unfold Classify. simpl. rewrite (proj2 (Z.eqb_neq _ _)), (proj2 (Z.leb_gt _ _)) by lia. simpl.
    rewrite u64_id by (unfold is_u64; lia). by rewrite (proj2 (Z.ltb_ge _ _)) by lia.
  - intros c' Hid Hb. rewrite ack_of_datagram, Hid, Hb. done.
Qed.
End Abandoned.

(** ** Keys of the hash maps

    [IpEndpoint] is compared by [endpoint_eqb], coarser than equality, and
    hashed by [IpEndpointHash]. *)

Definition endpoint_equiv : relation IpEndpoint := fun a b => endpoint_eqb a b = true.

Lemma endpoint_eqb_spec a b :
  endpoint_eqb a b = true <->
  family a = family b /\ port a = port b /\ (family a = V6 -> scope_id a = scope_id b)
  /\ take (addr_bytes (family a)) (addr a) = take (addr_bytes (family a)) (addr b).
Proof.
  unfold endpoint_eqb.
  destruct (decide (family a = family b)) as [Hf|Hf]; [rewrite bool_decide_true by done|
    rewrite bool_decide_false by done; simpl; naive_solver].
  destruct (Z.eqb_spec (port a) (port b)); simpl; [|naive_solver].
  destruct (decide (family a = V6)) as [H6|H6];
    [rewrite (bool_decide_true (family a = V6)) by done|rewrite (bool_decide_false (family a = V6)) by done];
    simpl; [destruct (Z.eqb_spec (scope_id a) (scope_id b)); simpl|]; rewrite ?bool_decide_eq_true; naive_solver.
Qed.

#[export] Instance endpoint_equiv_equivalence : Equivalence endpoint_equiv.
Proof.
  split; unfold endpoint_equiv; intros a; [by apply endpoint_eqb_spec| |].
  - intros b (Hf & Hp & Hs & Ha)%endpoint_eqb_spec. apply endpoint_eqb_spec. rewrite <- Hf. naive_solver.
  - intros b c (Hf & Hp & Hs & Ha)%endpoint_eqb_spec (Hf' & Hp' & Hs' & Ha')%endpoint_eqb_spec.
    apply endpoint_eqb_spec. rewrite <- Hf in *. split_and!; try congruence. naive_solver congruence.
Qed.

(** Endpoints the platform makes: no scope on an IPv4 one. *)
Definition scope_ok (e : IpEndpoint) : Prop := family e = V4 -> scope_id e = 0.

(** Where equality and hash agree.  Equality of endpoints is an equivalence,
    and endpoints that compare equal hash alike when neither carries a scope id
    on an IPv4 address; without that condition they need not: two equal IPv4
    endpoints with different scope ids hash apart, which an unordered map does
    not allow. *)
Theorem endpoint_hash_agrees :
  Equivalence endpoint_equiv
  /\ (forall a b, scope_ok a -> scope_ok b -> endpoint_equiv a b -> IpEndpointHash a = IpEndpointHash b)
  /\ (exists a b, endpoint_equiv a b /\ is_u32 (scope_id a) /\ is_u32 (scope_id b)
       /\ IpEndpointHash a <> IpEndpointHash b).
Proof.
  split; [apply endpoint_equiv_equivalence|]. split.
  - intros a b Ha Hb (Hf & Hp & Hs & Hadr)%endpoint_eqb_spec. unfold IpEndpointHash.
    assert (Hsc : scope_id a = scope_id b).
    { destruct (family a) eqn:E; [|by apply Hs]. rewrite Ha, Hb by congruence. done. }
    by rewrite <- Hf, Hp, Hsc, Hadr.
  - exists (IpEndpoint_V4 10 0 0 1 7), (MkIpEndpoint V4 ([10; 0; 0; 1] ++ zeros 12) 7 3).
    split_and!; [by vm_compute|by vm_compute|by vm_compute|]. intros Heq. vm_compute in Heq. discriminate Heq.
Qed.

(** ** Concrete instances *)

Section Witness.
#[local] Existing Instance toy_sodium.
#[local] Existing Instance toy_sodium_laws.
#[local] Existing Instance toy_protection.
#[local] Existing Instance toy_io.

Definition server : Endpoint Z ToyIo :=
  Endpoint_new toy_host <| accept_key_ := Some (replicate 32 7) |> <| accept_enabled_ := true |>
    <| accept_handler_ := Some Abandon |>.
Definition dialer : Connection Z ToyIo := run_op (toy_conn 20) (OpSend Reliable [104; 105]).
Definition hello_datagram : bytes := default [] (sent_log dialer !! O).
Definition hello_packet : WirePacket :=
  MkWirePacket kWireVersion PlainReliable [1; 2; 3; 4; 5; 6; 7; 8] 1 1000 [104; 105].

Theorem abandoned_hello_acked_witness :
  let e' := EndpointHandleDatagram server (IpEndpoint_V4 10 0 0 9 9) hello_datagram in
  let ack := ack_of (replicate 32 7) (PeekAssoc hello_datagram) 1 1000 in
  (conns_ e' !! PeekAssoc hello_datagram = None /\ ack ∈ sent_of e')
  /\ size (outstanding_ dialer) = 1
  /\ outstanding_ (HandleDatagram dialer (IpEndpoint_V4 127 0 0 1 20) ack 1001) = [].
Proof.
  split; [|by vm_compute].
  apply (abandoned_hello_acked server (IpEndpoint_V4 10 0 0 9 9) hello_datagram (replicate 32 7) hello_packet);
    by vm_compute.
Defined.

Theorem datagram_isolated_witness :
  let e := (Open (Open server (toy_params 1) []).1 (toy_params 2 <| id := [9; 9; 9; 9; 9; 9; 9; 9] |>) []).1 in
  heap (EndpointHandleDatagram e (IpEndpoint_V4 10 0 0 9 9) hello_datagram) !! 1%nat = heap e !! 1%nat.
Proof.
  apply (datagram_isolated _ (IpEndpoint_V4 10 0 0 9 9) hello_datagram 0 1); [by vm_compute|done|].
  exists 38, (tail hello_datagram). split; vm_compute; reflexivity.
Defined.

Theorem negotiation_bounded_witness :
  let calls := replicate 40 (1500, IpEndpoint_V4 10 0 0 9 9, 48 :: zeros 30) in
  exists new, sent_of (reply_run server calls) = sent_of server ++ new
    /\ sent_bytes new <= received_bytes calls
    /\ size new <= 16 * ((1500 - negotiation_window_ms_ server) / 1000 + 1).
Proof.
  apply (negotiation_bounded server (replicate 40 (1500, IpEndpoint_V4 10 0 0 9 9, 48 :: zeros 30)) 1500).
  - by vm_compute.
  - vm_compute. repeat (constructor; try done).
Defined.
End Witness.
