(* ===== verification/ChannelWire.v ===== *)
(** * Channel frames (src/L3/ChannelWire.cpp, include/amp/L3/ChannelWire.h, Types.h)

    The frames of the channel multiplexer, their encoding and decoding, byte
    for byte.  A [std::span&] that a reader advances is the value read together
    with the rest; a [std::string] is its bytes. *)

From S2P Require Import Prelude L1Types.

(** ** Constants and enumerations *)

Definition kChannelHeaderBytes : nat := 1 + 4 + 4.
Definition kChannelFragFieldsBytes : nat := 8 + 2 + 2 + 4.
Definition kCapabilityChannelId : Z := 0.
Definition kIllegalChannelId : Z := 4294967295.
Definition kDefaultFragAssemblyTimeoutMs : Z := 30000.
Definition kLossyFragAssemblyTimeoutMs : Z := 1000.

(** The enumerations have [uint8_t] as underlying type, so that a byte cast to
    one can be none of its enumerators: the last constructor. *)
Inductive ChannelFrameType :=
  | FrameOpen | FrameOpenAck | FrameData | FrameClose | FrameReset | FrameFrag | FrameOther (v : Z).
#[export] Instance ChannelFrameType_eq_dec : EqDecision ChannelFrameType.
Proof. solve_decision. Defined.

Inductive ChannelClass :=
  | Transactional | Control | Bulk | Realtime | RealtimeControl | ClassOther (v : Z).
#[export] Instance ChannelClass_eq_dec : EqDecision ChannelClass.
Proof. solve_decision. Defined.

Inductive ChannelState := ChannelClosed | ChannelOpening | ChannelOpen | ChannelClosing.
#[export] Instance ChannelState_eq_dec : EqDecision ChannelState.
Proof. solve_decision. Defined.

Definition frame_type_to_Z (t : ChannelFrameType) : Z :=
  match t with
  | FrameOpen => 0 | FrameOpenAck => 1 | FrameData => 2 | FrameClose => 3 | FrameReset => 4
  | FrameFrag => 5 | FrameOther v => v
  end.
Definition frame_type_of_Z (v : Z) : ChannelFrameType :=
  if v =? 0 then FrameOpen else if v =? 1 then FrameOpenAck else if v =? 2 then FrameData
  else if v =? 3 then FrameClose else if v =? 4 then FrameReset
  else if v =? 5 then FrameFrag else FrameOther v.

Definition class_to_Z (c : ChannelClass) : Z :=
  match c with
  | Transactional => 0 | Control => 1 | Bulk => 2 | Realtime => 3 | RealtimeControl => 4
  | ClassOther v => v
  end.
Definition class_of_Z (v : Z) : ChannelClass :=
  if v =? 0 then Transactional else if v =? 1 then Control else if v =? 2 then Bulk
  else if v =? 3 then Realtime else if v =? 4 then RealtimeControl else ClassOther v.

Definition QosForClass (cls : ChannelClass) : QosClass :=
  match cls with
  | Realtime => BestEffort
  | _ => Reliable
  end.

(** ** Frames *)

Record ChannelHeader := MkChannelHeader {
  frame_type : ChannelFrameType;
  channel_id : Z;
  channel_seq : Z;
}.

Record ChannelOpenBody := MkChannelOpenBody {
  protocol_id : bytes;
  channel_class : ChannelClass;
  flags : Z;
  max_message_bytes : Z;
}.

Record ChannelFragBody := MkChannelFragBody {
  msg_id : Z;
  frag_index : Z;
  frag_count : Z;
  total_len : Z;
  chunk : bytes;
}.

Record ChannelFrame := MkChannelFrame {
  fr_header : ChannelHeader;
  fr_payload : bytes;
  fr_open : ChannelOpenBody;
  open_ack_result : Z;
  reset_code : Z;
  fr_frag : ChannelFragBody;
}.
#[export] Instance ChannelFrame_fields : Fields ChannelFrame := fun f =>
  MkChannelFrame (fr_header f) (fr_payload f) (fr_open f) (open_ack_result f) (reset_code f) (fr_frag f).

Definition ChannelOpenBody_default : ChannelOpenBody := MkChannelOpenBody [] Control 0 0.
Definition ChannelFragBody_default : ChannelFragBody := MkChannelFragBody 0 0 0 0 [].
(** [ChannelFrame frame;] with its header filled in. *)
Definition frame_of (h : ChannelHeader) : ChannelFrame :=
  MkChannelFrame h [] ChannelOpenBody_default 0 0 ChannelFragBody_default.

(** ** Integers and strings *)

Definition AppendU32 (out : bytes) (v : Z) : bytes :=
  out ++ [u8 v; u8 (Z.shiftr v 8); u8 (Z.shiftr v 16); u8 (Z.shiftr v 24)].
Definition AppendU16 (out : bytes) (v : Z) : bytes := out ++ [u8 v; u8 (Z.shiftr v 8)].
Definition AppendU64 (out : bytes) (v : Z) : bytes :=
  fold_left (fun out i => out ++ [u8 (Z.shiftr v (8 * Z.of_nat i))]) (List.seq 0 8) out.

Definition ReadU32 (wire : bytes) : Roe (Z * bytes) :=
  if size wire <? 4 then Fail (Err_ "amp ch: truncated u32")
  else
    let v := Z.lor (Z.lor (Z.lor (at_ wire 0) (Z.shiftl (at_ wire 1) 8)) (Z.shiftl (at_ wire 2) 16))
                   (Z.shiftl (at_ wire 3) 24) in
    Ok (v, drop 4 wire).

Definition ReadU16 (wire : bytes) : Roe (Z * bytes) :=
  if size wire <? 2 then Fail (Err_ "amp ch: truncated u16")
  else Ok (Z.lor (at_ wire 0) (Z.shiftl (at_ wire 1) 8), drop 2 wire).

Definition ReadU64 (wire : bytes) : Roe (Z * bytes) :=
  if size wire <? 8 then Fail (Err_ "amp ch: truncated u64")
  else Ok (fold_left (fun v i => Z.lor v (Z.shiftl (at_ wire i) (8 * Z.of_nat i))) (List.seq 0 8) 0, drop 8 wire).

Definition ExpectEmpty (wire : bytes) : Roe unit :=
  match wire with
  | [] => Ok tt
  | _ => Fail (Err_ "amp ch: trailing bytes")
  end.

Definition EncodeLenUtf8Le (text : bytes) : Roe bytes :=
  if 4294967295 <? size text then Fail (Err_ "amp ch: string too long")
  else Ok (AppendU32 [] (u32 (size text)) ++ text).

(** The string and [consumed]. *)
Definition DecodeLenUtf8Le (wire : bytes) : Roe (bytes * nat) :=
  '(len, span) ← ReadU32 wire;
  if size span <? len then Fail (Err_ "amp ch: truncated utf8")
  else
    let out := take (Z.to_nat len) span in
    Ok (out, (length wire - length span + Z.to_nat len)%nat).

(** ** Encode and decode *)

Definition EncodeFrag (header : ChannelHeader) (msg_id frag_index frag_count total_len : Z)
    (chunk : bytes) : Roe bytes :=
  let out := [frame_type_to_Z FrameFrag] in
  let out := AppendU32 out (channel_id header) in
  let out := AppendU32 out (channel_seq header) in
  let out := AppendU64 out msg_id in
  let out := AppendU16 out frag_index in
  let out := AppendU16 out frag_count in
  let out := AppendU32 out total_len in
  Ok (out ++ chunk).

Definition EncodeFrame (frame : ChannelFrame) : Roe bytes :=
  let out := [frame_type_to_Z (frame_type (fr_header frame))] in
  let out := AppendU32 out (channel_id (fr_header frame)) in
  let out := AppendU32 out (channel_seq (fr_header frame)) in
  match frame_type (fr_header frame) with
  | FrameFrag =>
      let f := fr_frag frame in
      EncodeFrag (fr_header frame) (msg_id f) (frag_index f) (frag_count f) (total_len f) (chunk f)
  | FrameOpen =>
      proto ← EncodeLenUtf8Le (protocol_id (fr_open frame));
      let out := out ++ proto in
      let out := out ++ [class_to_Z (channel_class (fr_open frame))] in
      let out := AppendU16 out (flags (fr_open frame)) in
      Ok (AppendU32 out (max_message_bytes (fr_open frame)))
  | FrameOpenAck => Ok (out ++ [open_ack_result frame])
  | FrameData => Ok (out ++ fr_payload frame)
  | FrameClose =>
      match fr_payload frame with
      | [] => Ok out
      | p => reason ← EncodeLenUtf8Le p; Ok (out ++ reason)
      end
  | FrameReset => Ok (AppendU32 out (reset_code frame))
  | FrameOther _ => Fail (Err_ "amp ch: unknown frame type")
  end.

(** [Decode], one definition for each body. *)
Definition DecodeOpen (body : bytes) : Roe ChannelOpenBody :=
  '(proto, consumed) ← DecodeLenUtf8Le body;
  match drop consumed body with
  | [] => Fail (Err_ "amp ch: missing channel class")
  | cls :: body =>
      '(fl, body) ← ReadU16 body;
      '(max_bytes, body) ← match body with
                           | [] => Ok (0, body)
                           | _ => ReadU32 body
                           end;
      _ ← ExpectEmpty body;
      Ok (MkChannelOpenBody proto (class_of_Z cls) fl max_bytes)
  end.

Definition DecodeFrag (body : bytes) : Roe ChannelFragBody :=
  '(id, body) ← ReadU64 body;
  '(index, body) ← ReadU16 body;
  '(count, body) ← ReadU16 body;
  '(len, body) ← ReadU32 body;
  Ok (MkChannelFragBody id index count len body).

Definition DecodeClose (body : bytes) : Roe bytes :=
  match body with
  | [] => Ok []
  | _ =>
      '(reason, consumed) ← DecodeLenUtf8Le body;
      _ ← ExpectEmpty (drop consumed body);
      Ok reason
  end.

Definition DecodeFrame (wire : bytes) : Roe ChannelFrame :=
  if size wire <? Z.of_nat kChannelHeaderBytes then Fail (Err_ "amp ch: truncated header")
  else
    let u32_at n := Z.lor (Z.lor (Z.lor (at_ wire n) (Z.shiftl (at_ wire (n + 1)) 8))
                            (Z.shiftl (at_ wire (n + 2)) 16)) (Z.shiftl (at_ wire (n + 3)) 24) in
    let frame := frame_of (MkChannelHeader (frame_type_of_Z (at_ wire 0)) (u32_at 1%nat) (u32_at 5%nat)) in
    let body := drop kChannelHeaderBytes wire in
    match frame_type (fr_header frame) with
    | FrameOpen => open ← DecodeOpen body; Ok (frame <| fr_open := open |>)
    | FrameOpenAck =>
        match body with
        | [] => Fail (Err_ "amp ch: missing open ack result")
        | result :: rest => _ ← ExpectEmpty rest; Ok (frame <| open_ack_result := result |>)
        end
    | FrameData => Ok (frame <| fr_payload := body |>)
    | FrameClose => reason ← DecodeClose body; Ok (frame <| fr_payload := reason |>)
    | FrameReset =>
        '(code, rest) ← ReadU32 body;
        _ ← ExpectEmpty rest;
        Ok (frame <| reset_code := code |>)
    | FrameFrag => frag ← DecodeFrag body; Ok (frame <| fr_frag := frag |>)
    | FrameOther _ => Fail (Err_ "amp ch: unknown frame type")
    end.

(** ** Lemmas *)

(** The readers as one: [n] little-endian bytes off the front. *)
Definition le_read (n : nat) (error : Error) (wire : bytes) : Roe (Z * bytes) :=
  if (length wire <? n)%nat then Fail error else Ok (le_value (take n wire), drop n wire).

Lemma ReadU32_le wire : ReadU32 wire = le_read 4 (Err_ "amp ch: truncated u32") wire.
Proof.
  unfold ReadU32, le_read, size.
  destruct (Nat.ltb_spec (length wire) 4) as [Hl|Hl]; [by rewrite (proj2 (Z.ltb_lt _ _)) by lia|].
  rewrite (proj2 (Z.ltb_ge _ _)) by lia. by rewrite or_u32_le, take_split_4.
Qed.
Lemma ReadU16_le wire : ReadU16 wire = le_read 2 (Err_ "amp ch: truncated u16") wire.
Proof.
  unfold ReadU16, le_read, size.
  destruct (Nat.ltb_spec (length wire) 2) as [Hl|Hl]; [by rewrite (proj2 (Z.ltb_lt _ _)) by lia|].
  rewrite (proj2 (Z.ltb_ge _ _)) by lia. by rewrite or_u16_le, take_split_2.
Qed.
Lemma ReadU64_le wire : ReadU64 wire = le_read 8 (Err_ "amp ch: truncated u64") wire.
Proof.
  unfold ReadU64, le_read, size.
  destruct (Nat.ltb_spec (length wire) 8) as [Hl|Hl]; [by rewrite (proj2 (Z.ltb_lt _ _)) by lia|].
  rewrite (proj2 (Z.ltb_ge _ _)) by lia. do 3 f_equal.
  do 8 (destruct wire as [|? wire]; [simpl in Hl; lia|]). simpl.
  rewrite Z.lor_0_r, !Z.shiftl_lor, !Z.shiftl_shiftl, !Z.shiftl_0_r by lia. by rewrite !Z.lor_assoc.
Qed.
Create Rewrite HintDb le.
#[export] Hint Rewrite ReadU16_le ReadU32_le ReadU64_le : le.

Lemma le_read_app n e v rest : 0 <= v < 2 ^ (8 * Z.of_nat n) -> le_read n e (le_bytes n v ++ rest) = Ok (v, rest).
Proof.
  intros Hv. unfold le_read. rewrite (proj2 (Nat.ltb_ge _ _)) by (autorewrite with size; lia).
  rewrite take_app_length', drop_app_length' by (by autorewrite with size).
  by rewrite le_value_bytes, Z.mod_small.
Qed.

Lemma le_read_inv n e wire v rest :
  bytes_ok wire -> le_read n e wire = Ok (v, rest) ->
  0 <= v < 2 ^ (8 * Z.of_nat n) /\ wire = le_bytes n v ++ rest /\ bytes_ok rest.
Proof.
  unfold le_read. intros Hok Hr. destruct (Nat.ltb_spec (length wire) n) as [|Hl]; [done|].
  injection Hr as <- <-. pose proof (le_value_range (take n wire) (bytes_ok_take n wire Hok)) as Hv.
  pose proof (le_bytes_value (take n wire) (bytes_ok_take n wire Hok)) as Hb. unfold size in Hv.
  rewrite length_take, Nat.min_l in Hv, Hb by lia. rewrite Hb, take_drop. auto with amp.
Qed.

Lemma AppendU32_le out v : AppendU32 out v = out ++ le_bytes 4 v.
Proof. unfold AppendU32. by rewrite push_u32_le. Qed.
Lemma AppendU16_le out v : AppendU16 out v = out ++ le_bytes 2 v.
Proof. done. Qed.
Lemma AppendU64_le out v : AppendU64 out v = out ++ le_bytes 8 v.
Proof. unfold AppendU64. simpl. by rewrite Z.shiftr_0_r, <- !app_assoc, !Z.shiftr_shiftr by lia. Qed.
#[export] Hint Rewrite AppendU16_le AppendU32_le AppendU64_le : le.

(** A length-prefixed string. *)
Definition len_utf8 (text : bytes) : bytes := le_bytes 4 (size text) ++ text.

Lemma EncodeLenUtf8Le_layout text out :
  EncodeLenUtf8Le text = Ok out <-> is_u32 (size text) /\ out = len_utf8 text.
Proof.
  unfold EncodeLenUtf8Le, len_utf8, is_u32. pose proof (size_nonneg text).
  destruct (Z.ltb_spec 4294967295 (size text)) as [Hs|Hs].
  - split; [done|]. change (2 ^ 32) with 4294967296. lia.
  - rewrite AppendU32_le, u32_id by (unfold is_u32; lia). split; [intros [= <-]|intros [_ ->]; done].
    split; [lia|done].
Qed.

Lemma DecodeLenUtf8Le_app text rest :
  is_u32 (size text) -> DecodeLenUtf8Le (len_utf8 text ++ rest) = Ok (text, length (len_utf8 text)).
Proof.
  intros Hs. unfold DecodeLenUtf8Le, len_utf8. rewrite ReadU32_le, <- app_assoc, le_read_app by exact Hs. simpl.
  rewrite size_app. pose proof (size_nonneg rest). rewrite (proj2 (Z.ltb_ge _ _)) by lia.
  unfold size. rewrite Nat2Z.id, take_app_length. do 2 f_equal. autorewrite with size. simpl. lia.
Qed.

Lemma DecodeLenUtf8Le_inv wire text n :
  bytes_ok wire -> DecodeLenUtf8Le wire = Ok (text, n) ->
  is_u32 (size text) /\ wire = len_utf8 text ++ drop n wire /\ n = length (len_utf8 text)
  /\ bytes_ok text.
Proof.
  unfold DecodeLenUtf8Le, len_utf8. rewrite ReadU32_le. intros Hok Hd.
  destruct (le_read _ _ _) as [[len span]|] eqn:Hr; [|done]. simpl in Hd.
  apply le_read_inv in Hr as (Hlen & -> & Hspan); [|done].
  destruct (Z.ltb_spec (size span) len) as [|Hl]; [done|]. injection Hd as <- <-.
  assert (Hst : size (take (Z.to_nat len) span) = len).
  { unfold size in *. rewrite length_take. lia. }
  rewrite Hst. split; [done|].
  replace (S _ - _ + _)%nat with (length (le_bytes 4 len) + Z.to_nat len)%nat by (autorewrite with size; lia).
  split_and!; [| |by apply bytes_ok_take].
  - rewrite <- app_assoc, <- (take_drop (Z.to_nat len) span) at 1. do 2 f_equal.
  - autorewrite with size. unfold size in *. lia.
Qed.

Lemma frame_type_of_to_Z t : frame_type_of_Z (frame_type_to_Z t) = t <->
  match t with FrameOther v => ~ 0 <= v <= 5 | _ => True end.
Proof.
  destruct t as [| | | | | |v]; try done. unfold frame_type_of_Z. simpl.
  repeat (case_match_goal; zbool); split; intros; try done; lia.
Qed.
Lemma frame_type_to_of_Z v : frame_type_to_Z (frame_type_of_Z v) = v.
Proof. unfold frame_type_of_Z. by repeat (case_match_goal; zbool; subst). Qed.
Lemma class_of_to_Z c : (forall v, c = ClassOther v -> ~ 0 <= v <= 4) -> class_of_Z (class_to_Z c) = c.
Proof.
  destruct c as [| | | | |v]; try done. intros Hv. specialize (Hv v eq_refl). unfold class_of_Z. simpl.
  repeat (case_match_goal; zbool; try lia). done.
Qed.
Lemma class_to_of_Z v : class_to_Z (class_of_Z v) = v.
Proof. unfold class_of_Z. by repeat (case_match_goal; zbool; subst). Qed.

(** The wire of a frame: header and body. *)
Definition frame_header_bytes (h : ChannelHeader) : bytes :=
  [frame_type_to_Z (frame_type h)] ++ le_bytes 4 (channel_id h) ++ le_bytes 4 (channel_seq h).
Definition open_body (o : ChannelOpenBody) : bytes :=
  len_utf8 (protocol_id o) ++ [class_to_Z (channel_class o)] ++ le_bytes 2 (flags o)
  ++ le_bytes 4 (max_message_bytes o).
Definition frag_body (f : ChannelFragBody) : bytes :=
  le_bytes 8 (msg_id f) ++ le_bytes 2 (frag_index f) ++ le_bytes 2 (frag_count f)
  ++ le_bytes 4 (total_len f) ++ chunk f.
Definition close_body (p : bytes) : bytes := match p with [] => [] | _ => len_utf8 p end.
Definition frame_body (f : ChannelFrame) : bytes :=
  match frame_type (fr_header f) with
  | FrameOpen => open_body (fr_open f)
  | FrameOpenAck => [open_ack_result f]
  | FrameData => fr_payload f
  | FrameClose => close_body (fr_payload f)
  | FrameReset => le_bytes 4 (reset_code f)
  | FrameFrag => frag_body (fr_frag f)
  | FrameOther _ => []
  end.

(** A frame of its type: the fields its type sends hold values of their C++
    types, the others their defaults. *)
Definition header_ok (h : ChannelHeader) : Prop :=
  is_u32 (channel_id h) /\ is_u32 (channel_seq h)
  /\ match frame_type h with FrameOther _ => False | _ => True end.
Definition open_ok (o : ChannelOpenBody) : Prop :=
  bytes_ok (protocol_id o) /\ is_u32 (size (protocol_id o)) /\ is_u16 (flags o)
  /\ is_u32 (max_message_bytes o) /\ is_u8 (class_to_Z (channel_class o))
  /\ (forall v, channel_class o = ClassOther v -> ~ 0 <= v <= 4).
Definition frag_ok (f : ChannelFragBody) : Prop :=
  is_u64 (msg_id f) /\ is_u16 (frag_index f) /\ is_u16 (frag_count f) /\ is_u32 (total_len f)
  /\ bytes_ok (chunk f).
Definition frame_ok (f : ChannelFrame) : Prop :=
  header_ok (fr_header f)
  /\ match frame_type (fr_header f) with
     | FrameOpen => open_ok (fr_open f) /\ f = frame_of (fr_header f) <| fr_open := fr_open f |>
     | FrameOpenAck => is_u8 (open_ack_result f)
                       /\ f = frame_of (fr_header f) <| open_ack_result := open_ack_result f |>
     | FrameData => bytes_ok (fr_payload f) /\ f = frame_of (fr_header f) <| fr_payload := fr_payload f |>
     | FrameClose => bytes_ok (fr_payload f) /\ is_u32 (size (fr_payload f))
                     /\ f = frame_of (fr_header f) <| fr_payload := fr_payload f |>
     | FrameReset => is_u32 (reset_code f) /\ f = frame_of (fr_header f) <| reset_code := reset_code f |>
     | FrameFrag => frag_ok (fr_frag f) /\ f = frame_of (fr_header f) <| fr_frag := fr_frag f |>
     | FrameOther _ => False
     end.

Lemma EncodeFrame_layout f :
  frame_ok f -> EncodeFrame f = Ok (frame_header_bytes (fr_header f) ++ frame_body f).
Proof.
  intros [Hh Hb]. unfold EncodeFrame, frame_body, frame_header_bytes, EncodeFrag.
  autorewrite with le. rewrite <- !app_assoc.
  destruct (frame_type (fr_header f)) eqn:Ht; try done.
  - destruct Hb as [(Hp & Hs & _) _].
    rewrite (proj2 (EncodeLenUtf8Le_layout _ (len_utf8 _)) (conj Hs eq_refl)). cbn [mbind result_bind].
    unfold open_body. autorewrite with le. by rewrite <- !app_assoc.
  - destruct Hb as (_ & Hs & _). destruct (fr_payload f) as [|b p]; [done|].
    rewrite (proj2 (EncodeLenUtf8Le_layout _ (len_utf8 _)) (conj Hs eq_refl)). cbn [mbind result_bind].
    by rewrite <- !app_assoc.
Qed.

Lemma DecodeOpen_body o : open_ok o -> DecodeOpen (open_body o) = Ok o.
Proof.
  intros (_ & Hs & Hf & Hm & _ & Hc). unfold DecodeOpen, open_body.
  rewrite DecodeLenUtf8Le_app by done. cbn [mbind result_bind]. rewrite drop_app_length. cbn [app].
  rewrite ReadU16_le, le_read_app by exact Hf. cbn [mbind result_bind].
  rewrite ReadU32_le, <- (app_nil_r (le_bytes 4 _)), le_read_app by exact Hm. rewrite class_of_to_Z by done.
  by destruct o.
Qed.

(** The short spelling, without the receiver's budget, means the default. *)
Lemma DecodeOpen_short o : open_ok o -> max_message_bytes o = 0 ->
  DecodeOpen (len_utf8 (protocol_id o) ++ [class_to_Z (channel_class o)] ++ le_bytes 2 (flags o)) = Ok o.
Proof.
  intros (_ & Hs & Hf & Hm & _ & Hc) H0. unfold DecodeOpen.
  rewrite DecodeLenUtf8Le_app by done. cbn [mbind result_bind]. rewrite drop_app_length. cbn [app].
  rewrite ReadU16_le, <- (app_nil_r (le_bytes 2 _)), le_read_app by exact Hf. cbn.
  rewrite class_of_to_Z by done. destruct o; simpl in *. by subst.
Qed.

Lemma DecodeFrag_body f : frag_ok f -> DecodeFrag (frag_body f) = Ok f.
Proof.
  intros (Hm & Hi & Hc & Ht & _). unfold DecodeFrag, frag_body.
  rewrite ReadU64_le, le_read_app by exact Hm. cbn [mbind result_bind].
  rewrite ReadU16_le, le_read_app by exact Hi. cbn [mbind result_bind].
  rewrite ReadU16_le, le_read_app by exact Hc. cbn [mbind result_bind].
  rewrite ReadU32_le, le_read_app by exact Ht. cbn. by destruct f.
Qed.

Lemma DecodeClose_body p : is_u32 (size p) -> DecodeClose (close_body p) = Ok p.
Proof.
  intros Hs. destruct p as [|b p]; [done|].
  change (DecodeClose _) with ('(reason, consumed) ← DecodeLenUtf8Le (len_utf8 (b :: p));
    _ ← ExpectEmpty (drop consumed (len_utf8 (b :: p))); Ok reason).
  rewrite <- (app_nil_r (len_utf8 _)), DecodeLenUtf8Le_app by done. cbn [mbind result_bind].
  by rewrite drop_app_length.
Qed.

(** The header off the front of a frame. *)
Lemma DecodeFrame_header h body :
  is_u32 (channel_id h) -> is_u32 (channel_seq h) ->
  let wire := frame_header_bytes h ++ body in
  size wire <? Z.of_nat kChannelHeaderBytes = false /\ at_ wire 0 = frame_type_to_Z (frame_type h)
  /\ drop kChannelHeaderBytes wire = body
  /\ (let u32_at n := Z.lor (Z.lor (Z.lor (at_ wire n) (Z.shiftl (at_ wire (n + 1)) 8))
        (Z.shiftl (at_ wire (n + 2)) 16)) (Z.shiftl (at_ wire (n + 3)) 24) in
      u32_at 1%nat = channel_id h /\ u32_at 5%nat = channel_seq h).
Proof.
  intros Hi Hs. unfold frame_header_bytes. split_and!; try done.
  - apply Z.ltb_ge. change (Z.of_nat kChannelHeaderBytes) with 9. unfold size. autorewrite with size. lia.
  - cbn. rewrite or_u32_le. transitivity (le_value (le_bytes 4 (channel_id h))); [done|].
    by rewrite le_value_bytes, Z.mod_small.
  - cbn. rewrite or_u32_le. transitivity (le_value (le_bytes 4 (channel_seq h))); [done|].
    by rewrite le_value_bytes, Z.mod_small.
Qed.

Lemma DecodeFrame_of_body f :
  frame_ok f -> DecodeFrame (frame_header_bytes (fr_header f) ++ frame_body f) = Ok f.
Proof.
  intros [(Hi & Hs & Ht) Hb]. unfold DecodeFrame.
  destruct (DecodeFrame_header (fr_header f) (frame_body f) Hi Hs) as (-> & -> & -> & -> & ->).
  cbn [fr_header frame_of frame_type]. rewrite (proj2 (frame_type_of_to_Z _)) by by destruct (frame_type _).
  replace (MkChannelHeader _ _ _) with (fr_header f) by (by destruct (fr_header f)).
  unfold frame_body in *. destruct (frame_type (fr_header f)); try done.
  - destruct Hb as [Hb Hf]. rewrite DecodeOpen_body by done. cbn [mbind result_bind]. congruence.
  - by destruct Hb as [Hb ->].
  - by destruct Hb as [Hb ->].
  - destruct Hb as (Hb & Hl & Hf). rewrite DecodeClose_body by done. cbn [mbind result_bind]. congruence.
  - destruct Hb as [Hb ->]. cbn [reset_code]. rewrite ReadU32_le, <- (app_nil_r (le_bytes 4 _)).
    by rewrite le_read_app.
  - destruct Hb as [Hb Hf]. rewrite DecodeFrag_body by done. cbn [mbind result_bind]. congruence.
Qed.

(** *** What a decoded wire was *)

Lemma DecodeOpen_inv body o :
  bytes_ok body -> DecodeOpen body = Ok o ->
  open_ok o /\ (body = open_body o
                \/ max_message_bytes o = 0 /\ open_body o = body ++ le_bytes 4 0).
Proof.
  intros Hok Hd. unfold DecodeOpen in Hd.
  destruct (DecodeLenUtf8Le body) as [[proto n]|] eqn:Hp; [|done].
  apply DecodeLenUtf8Le_inv in Hp as (Hs & Hbody & _ & Hproto); [|done]. cbn [mbind result_bind] in Hd.
  assert (Hrest : bytes_ok (drop n body)) by auto with amp.
  destruct (drop n body) as [|cls rest]; [done|]. inversion Hrest as [|? ? Hcls Hrest'].
  rewrite ReadU16_le in Hd. destruct (le_read 2 _ rest) as [[fl rest2]|] eqn:H2; [|done].
  apply le_read_inv in H2 as (Hfl & -> & Hr2); [|done]. cbn [mbind result_bind] in Hd.
  assert (Hcok : forall v, class_of_Z cls = ClassOther v -> ~ 0 <= v <= 4).
  { intros v. unfold class_of_Z. repeat (case_match_goal; try done). intros [= <-]. zbool. lia. }
  destruct rest2 as [|b rest2].
  - cbn in Hd. injection Hd as <-. unfold open_ok, open_body. cbn [protocol_id channel_class flags max_message_bytes].
    rewrite class_to_of_Z. split; [by split_and!|]. right. split; [done|]. rewrite Hbody, app_nil_r.
    by rewrite <- !app_assoc.
  - rewrite ReadU32_le in Hd. destruct (le_read 4 _ _) as [[m rest3]|] eqn:H4; [|done].
    apply le_read_inv in H4 as (Hm & Heq & Hr3); [|done]. cbn [mbind result_bind] in Hd.
    destruct rest3; [|done]. injection Hd as <-. unfold open_ok, open_body.
    cbn [protocol_id channel_class flags max_message_bytes].
    rewrite class_to_of_Z. split; [by split_and!|]. left. by rewrite Hbody, Heq, app_nil_r.
Qed.

Lemma DecodeFrag_inv body f : bytes_ok body -> DecodeFrag body = Ok f -> frag_ok f /\ body = frag_body f.
Proof.
  intros Hok Hd. unfold DecodeFrag in Hd.
  rewrite ReadU64_le in Hd. destruct (le_read 8 _ _) as [[m r1]|] eqn:H1; [|done].
  apply le_read_inv in H1 as (Hm & -> & Hr1); [|done]. cbn [mbind result_bind] in Hd.
  rewrite ReadU16_le in Hd. destruct (le_read 2 _ r1) as [[i r2]|] eqn:H2; [|done].
  apply le_read_inv in H2 as (Hi & -> & Hr2); [|done]. cbn [mbind result_bind] in Hd.
  rewrite ReadU16_le in Hd. destruct (le_read 2 _ r2) as [[c r3]|] eqn:H3; [|done].
  apply le_read_inv in H3 as (Hc & -> & Hr3); [|done]. cbn [mbind result_bind] in Hd.
  rewrite ReadU32_le in Hd. destruct (le_read 4 _ r3) as [[t r4]|] eqn:H4; [|done].
  apply le_read_inv in H4 as (Ht & -> & Hr4); [|done]. injection Hd as <-. done.
Qed.

Lemma DecodeClose_inv body p : bytes_ok body -> DecodeClose body = Ok p ->
  bytes_ok p /\ is_u32 (size p) /\ (body = close_body p \/ p = [] /\ body = le_bytes 4 0).
Proof.
  intros Hok Hd. destruct body as [|b body']; [injection Hd as <-; by split_and!; auto|].
  set (body := b :: body') in *.
  change (DecodeClose body) with ('(reason, consumed) ← DecodeLenUtf8Le body;
    _ ← ExpectEmpty (drop consumed body); Ok reason) in Hd.
  destruct (DecodeLenUtf8Le body) as [[reason n]|] eqn:Hp; [|done].
  apply DecodeLenUtf8Le_inv in Hp as (Hs & Hbody & _ & Hr); [|done]. cbn [mbind result_bind] in Hd.
  destruct (drop n body); [|done]. injection Hd as <-. rewrite app_nil_r in Hbody.
  split; [done|]. split; [done|]. destruct reason as [|c reason]; [by right|by left].
Qed.

Lemma split_frame wire : bytes_ok wire -> size wire <? Z.of_nat kChannelHeaderBytes = false ->
  exists t i s body, wire = [t] ++ le_bytes 4 i ++ le_bytes 4 s ++ body
    /\ is_u8 t /\ is_u32 i /\ is_u32 s /\ bytes_ok body.
Proof.
  intros Hok Hl. destruct wire as [|t w]; [done|].
  apply Z.ltb_ge in Hl. change (Z.of_nat kChannelHeaderBytes) with 9 in Hl.
  unfold size in Hl. cbn [length] in Hl. inversion Hok as [|? ? Ht Hw]; subst.
  destruct (le_read 4 (Err_ "") w) as [[i w1]|] eqn:H1.
  2:{ unfold le_read in H1. destruct (Nat.ltb_spec (length w) 4); [lia|done]. }
  apply le_read_inv in H1 as (Hi & -> & Hw1); [|done]. rewrite length_app, le_bytes_length in Hl.
  destruct (le_read 4 (Err_ "") w1) as [[s w2]|] eqn:H2.
  2:{ unfold le_read in H2. destruct (Nat.ltb_spec (length w1) 4); [lia|done]. }
  apply le_read_inv in H2 as (Hs & -> & Hw2); [|done]. by exists t, i, s, w2.
Qed.

Lemma DecodeFrame_inv (wire : bytes) (f : ChannelFrame) :
  bytes_ok wire -> DecodeFrame wire = Ok f ->
  frame_ok f
  /\ exists wire', EncodeFrame f = Ok wire'
     /\ (wire' = wire
         \/ frame_type (fr_header f) = FrameOpen /\ max_message_bytes (fr_open f) = 0 /\ wire' = wire ++ le_bytes 4 0
         \/ frame_type (fr_header f) = FrameClose /\ fr_payload f = [] /\ wire = wire' ++ le_bytes 4 0).
Proof.
  intros Hok Hd.
  assert (Hsz : size wire <? Z.of_nat kChannelHeaderBytes = false).
  { unfold DecodeFrame in Hd. by destruct (size wire <? _). }
  destruct (split_frame wire Hok Hsz) as (t & i & s & body & -> & Ht & Hi & Hs & Hbody).
  set (h := MkChannelHeader (frame_type_of_Z t) i s).
  assert (Hw : [t] ++ le_bytes 4 i ++ le_bytes 4 s ++ body = frame_header_bytes h ++ body).
  { unfold frame_header_bytes. simpl frame_type. by rewrite frame_type_to_of_Z, <- !app_assoc. }
  rewrite Hw in *. unfold DecodeFrame in Hd.
  destruct (DecodeFrame_header h body Hi Hs) as (Hd1 & Hd2 & Hd3 & Hd4 & Hd5).
  rewrite Hd1, Hd2, Hd3, Hd4, Hd5 in Hd. cbn [fr_header frame_of frame_type h channel_id channel_seq] in Hd.
  rewrite frame_type_to_of_Z in Hd. fold h in Hd.
  enough (Hgoal : fr_header f = h /\ frame_ok f
    /\ (frame_body f = body
        \/ frame_type h = FrameOpen /\ max_message_bytes (fr_open f) = 0 /\ frame_body f = body ++ le_bytes 4 0
        \/ frame_type h = FrameClose /\ fr_payload f = [] /\ body = frame_body f ++ le_bytes 4 0)).
  { destruct Hgoal as (Hh & Hf & Hb). split; [done|]. exists (frame_header_bytes h ++ frame_body f).
    rewrite EncodeFrame_layout, Hh by done. split; [done|].
    destruct Hb as [->|[(? & ? & ->)|(? & ? & ->)]]; rewrite ?app_assoc; auto. }
  assert (Hhok : match frame_type h with FrameOther _ => False | _ => True end -> header_ok h).
  { intros Hm. by split; [|split]. }
  unfold frame_ok, frame_body. change (frame_type_of_Z t) with (frame_type h) in Hd.
  clearbody h. destruct (frame_type h) eqn:Hft; try done.
  - destruct (DecodeOpen body) as [o|] eqn:Ho; [|done]. injection Hd as <-.
    apply DecodeOpen_inv in Ho as [Hook Ho]; [|done]. cbn -[frag_body open_body close_body le_bytes]. rewrite Hft.
    split_and!; try done; [by auto|]. destruct Ho as [->|[? ->]]; auto.
  - destruct body as [|r [|? ?]]; [done| |done]. injection Hd as <-. inversion Hbody. cbn -[frag_body open_body close_body le_bytes]. rewrite Hft. auto 6.
  - injection Hd as <-. cbn -[frag_body open_body close_body le_bytes]. rewrite Hft. auto 6.
  - destruct (DecodeClose body) as [p|] eqn:Ho; [|done]. injection Hd as <-.
    apply DecodeClose_inv in Ho as (Hp & Hps & Ho); [|done]. cbn -[frag_body open_body close_body le_bytes]. rewrite Hft.
    split_and!; try done; [by auto|]. destruct Ho as [->|[-> ->]]; auto.
  - rewrite ReadU32_le in Hd. destruct (le_read 4 _ _) as [[c rest]|] eqn:H4; [|done].
    apply le_read_inv in H4 as (Hc & -> & _); [|done]. cbn in Hd. destruct rest; [|done]. injection Hd as <-.
    cbn -[frag_body open_body close_body le_bytes]. rewrite Hft. split_and!; try done; [by auto|]. by left.
  - destruct (DecodeFrag body) as [o|] eqn:Ho; [|done]. injection Hd as <-.
    apply DecodeFrag_inv in Ho as [Hook ->]; [|done]. cbn -[frag_body open_body close_body le_bytes]. rewrite Hft. auto 6.
Qed.

(** ** Theorems *)

(** C35: channel frames round-trip, and decoding is exact but for two spellings.
    Every frame whose fields hold values of their types (strings shorter than
    4 GiB, fields of other frame types left at their defaults) encodes, and the
    bytes decode to that very frame.  Bytes that decode give such a frame, and
    encoding it again gives those bytes, or them with four zero bytes more (an
    Open that left out the receiver's budget, which the sender of this code
    always writes), or with four zero bytes less (a Close with an empty reason
    written out): trailing bytes, truncated fields and unknown frame types are
    errors. *)
Theorem frame_roundtrip (f : ChannelFrame) (wire : bytes) :
  (frame_ok f -> exists wire, EncodeFrame f = Ok wire /\ DecodeFrame wire = Ok f)
  /\ (bytes_ok wire -> DecodeFrame wire = Ok f ->
      frame_ok f
      /\ exists wire', EncodeFrame f = Ok wire'
         /\ (wire' = wire
             \/ frame_type (fr_header f) = FrameOpen /\ max_message_bytes (fr_open f) = 0 /\ wire' = wire ++ le_bytes 4 0
             \/ frame_type (fr_header f) = FrameClose /\ fr_payload f = [] /\ wire = wire' ++ le_bytes 4 0)).
Proof.
  split; [|apply DecodeFrame_inv]. intros Hf. exists (frame_header_bytes (fr_header f) ++ frame_body f).
  by split; [apply EncodeFrame_layout|apply DecodeFrame_of_body].
Qed.

(** ** Witnesses *)

Definition open_example : ChannelFrame :=
  frame_of (MkChannelHeader FrameOpen 3 0)
    <| fr_open := MkChannelOpenBody [47; 112] Bulk 0 65536 |>.
Definition short_open_wire : bytes :=
  [0; 3; 0; 0; 0; 0; 0; 0; 0;  2; 0; 0; 0; 47; 112;  2;  0; 0].

Theorem frame_roundtrip_witness :
  let f := frame_of (MkChannelHeader FrameOpen 3 0) <| fr_open := MkChannelOpenBody [47; 112] Bulk 0 0 |> in
  (exists wire, EncodeFrame open_example = Ok wire /\ DecodeFrame wire = Ok open_example)
  /\ DecodeFrame short_open_wire = Ok f
  /\ exists wire', EncodeFrame f = Ok wire'
     /\ (wire' = short_open_wire
         \/ frame_type (fr_header f) = FrameOpen /\ max_message_bytes (fr_open f) = 0
            /\ wire' = short_open_wire ++ le_bytes 4 0
         \/ frame_type (fr_header f) = FrameClose /\ fr_payload f = [] /\ short_open_wire = wire' ++ le_bytes 4 0).
Proof.
  split; [|split; [reflexivity|]].
  - apply (frame_roundtrip open_example []). split; [by vm_compute|]. split; [|reflexivity].
    repeat split; try by vm_compute. apply bytes_okb_ok. reflexivity.
  - apply (frame_roundtrip _ short_open_wire); [apply bytes_okb_ok; reflexivity|reflexivity].
Defined.
