(* ===== verification/Capability.v ===== *)
(** * Capability messages (src/L3/Capability.cpp, include/amp/L3/Capability.h)

    The offer each end sends on channel 0 and the extension that follows it. *)

From S2P Require Import Prelude L1Types ChannelWire.

Record CapabilityPayload := MkCapabilityPayload {
  local_peer_id : bytes;
  listen_multiaddrs : list bytes;
  protocols : list bytes;
}.

Record CapabilityExtension := MkCapabilityExtension {
  amp_wire : Z;
  node_version : bytes;
  features : list bytes;
}.

Definition kCapabilityExtensionTag : Z := 3.

(** The loop of [AppendStringList], and the whole of it. *)
Fixpoint append_strings (out : bytes) (items : list bytes) : Roe bytes :=
  match items with
  | [] => Ok out
  | item :: items => encoded ← EncodeLenUtf8Le item; append_strings (out ++ encoded) items
  end.
Definition AppendStringList (out : bytes) (items : list bytes) : Roe bytes :=
  if 65535 <? size items then Fail (Err_ "amp cap: too many strings")
  else append_strings (out ++ [u8 (size items); u8 (Z.shiftr (size items) 8)]) items.

(** The loop of [ReadStringList]: [n] strings to go. *)
Fixpoint read_strings (n : nat) (wire : bytes) : Roe (list bytes * bytes) :=
  match n with
  | O => Ok ([], wire)
  | S n =>
      '(s, consumed) ← DecodeLenUtf8Le wire;
      '(out, wire) ← read_strings n (drop consumed wire);
      Ok (s :: out, wire)
  end.
Definition ReadStringList (wire : bytes) : Roe (list bytes * bytes) :=
  if size wire <? 2 then Fail (Err_ "amp cap: truncated string list count")
  else
    let count := Z.lor (at_ wire 0) (Z.shiftl (at_ wire 1) 8) in
    read_strings (Z.to_nat count) (drop 2 wire).

Definition EncodeCapability (payload : CapabilityPayload) : Roe bytes :=
  peer ← EncodeLenUtf8Le (local_peer_id payload);
  let out := [1] ++ peer in
  out ← AppendStringList out (listen_multiaddrs payload);
  AppendStringList out (protocols payload).

Definition DecodeCapability (wire : bytes) : Roe CapabilityPayload :=
  match wire with
  | v :: span =>
      if negb (v =? 1) then Fail (Err_ "amp cap: bad version")
      else
        '(peer, consumed) ← DecodeLenUtf8Le span;
        '(addrs, span) ← ReadStringList (drop consumed span);
        '(protos, span) ← ReadStringList span;
        match span with
        | [] => Ok (MkCapabilityPayload peer addrs protos)
        | _ => Fail (Err_ "amp cap: trailing bytes")
        end
  | [] => Fail (Err_ "amp cap: bad version")
  end.

Definition EncodeExtension (extension : CapabilityExtension) : Roe bytes :=
  version ← EncodeLenUtf8Le (node_version extension);
  AppendStringList ([kCapabilityExtensionTag; amp_wire extension] ++ version) (features extension).

Definition DecodeExtension (wire : bytes) : Roe CapabilityExtension :=
  match wire with
  | tag :: wire_version :: span =>
      if negb (tag =? kCapabilityExtensionTag) then Fail (Err_ "amp cap: not a capability extension")
      else
        '(version, consumed) ← DecodeLenUtf8Le span;
        '(feats, _) ← ReadStringList (drop consumed span);
        Ok (MkCapabilityExtension wire_version version feats)
  | _ => Fail (Err_ "amp cap: not a capability extension")
  end.

Definition IsExtension (wire : bytes) : bool :=
  match wire with
  | tag :: _ => tag =? kCapabilityExtensionTag
  | [] => false
  end.

(** ** Lemmas *)

Definition string_ok (s : bytes) : Prop := bytes_ok s /\ is_u32 (size s).
Definition strings_ok (l : list bytes) : Prop := Forall string_ok l /\ is_u16 (size l).
Definition string_list (l : list bytes) : bytes := le_bytes 2 (size l) ++ concat (map len_utf8 l).

Lemma EncodeLen_ok s : string_ok s -> EncodeLenUtf8Le s = Ok (len_utf8 s).
Proof. intros [_ Hs]. by apply EncodeLenUtf8Le_layout. Qed.

Lemma append_strings_layout out l :
  Forall string_ok l -> append_strings out l = Ok (out ++ concat (map len_utf8 l)).
Proof.
  intros Hl. revert out. induction Hl as [|s l Hs Hl IH]; intros out; simpl; [by rewrite app_nil_r|].
  rewrite EncodeLen_ok by done. simpl. by rewrite IH, <- app_assoc.
Qed.

Lemma AppendStringList_layout out l : strings_ok l -> AppendStringList out l = Ok (out ++ string_list l).
Proof.
  intros [Hl Hn]. unfold AppendStringList. rewrite (proj2 (Z.ltb_ge _ _)).
  2:{ unfold is_u16 in Hn. change (2 ^ 16) with 65536 in Hn. lia. }
  rewrite append_strings_layout by done. unfold string_list. by rewrite <- app_assoc.
Qed.

Lemma read_strings_app l rest :
  Forall string_ok l -> read_strings (length l) (concat (map len_utf8 l) ++ rest) = Ok (l, rest).
Proof.
  induction 1 as [|s l [_ Hs] Hl IH]; [done|]. cbn [length read_strings map concat]. rewrite <- app_assoc.
  rewrite DecodeLenUtf8Le_app by done. cbn [mbind result_bind]. rewrite drop_app_length, IH. done.
Qed.

Lemma ReadStringList_app l rest : strings_ok l -> ReadStringList (string_list l ++ rest) = Ok (l, rest).
Proof.
  intros [Hl Hn]. unfold ReadStringList, string_list. rewrite <- app_assoc.
  rewrite (proj2 (Z.ltb_ge _ _)) by (unfold size; autorewrite with size; lia).
  rewrite or_u16_le. change (drop 2 _) with (concat (map len_utf8 l) ++ rest).
  replace (le_value _) with (size l).
  - unfold size. rewrite Nat2Z.id. by apply read_strings_app.
  - transitivity (le_value (le_bytes 2 (size l))); [|done]. rewrite le_value_bytes. by rewrite Z.mod_small.
Qed.

Lemma read_strings_inv n wire l rest :
  bytes_ok wire -> read_strings n wire = Ok (l, rest) ->
  length l = n /\ Forall string_ok l /\ wire = concat (map len_utf8 l) ++ rest /\ bytes_ok rest.
Proof.
  revert wire l rest. induction n as [|n IH]; intros wire l rest Hok Hr; simpl in Hr.
  { injection Hr as <- <-. by split_and!. }
  destruct (DecodeLenUtf8Le wire) as [[s c]|] eqn:Hs; [|done]. simpl in Hr.
  destruct (read_strings n _) as [[l' rest']|] eqn:Hr'; [|done]. injection Hr as <- <-.
  apply DecodeLenUtf8Le_inv in Hs as (Hs & Hw & _ & Hsok); [|done].
  apply IH in Hr' as (Hn & Hl & Hd & Hrest); [|auto with amp]. simpl.
  split_and!; [by rewrite Hn|by constructor| |done]. by rewrite Hw, Hd, <- app_assoc.
Qed.

Lemma ReadStringList_inv wire l rest :
  bytes_ok wire -> ReadStringList wire = Ok (l, rest) ->
  strings_ok l /\ wire = string_list l ++ rest /\ bytes_ok rest.
Proof.
  intros Hok Hr. unfold ReadStringList in Hr. destruct (Z.ltb_spec (size wire) 2) as [|H2]; [done|].
  destruct wire as [|a [|b wire]]; [by vm_compute in H2|by vm_compute in H2|].
  inversion Hok as [|? ? Ha Hok']; subst. inversion Hok' as [|? ? Hb Hw]; subst.
  cbn [at_ nth drop] in Hr. unfold at_ in Hr. cbn [nth] in Hr. rewrite or_u16_le in Hr.
  assert (Hab : bytes_ok [a; b]) by auto with amp.
  pose proof (le_value_range _ Hab) as Hv. change (2 ^ (8 * size [a; b])) with (2 ^ 16) in Hv.
  change (drop 0 wire) with wire in Hr.
  apply read_strings_inv in Hr as (Hn & Hl & -> & Hrest); [|done].
  assert (Hsz : size l = le_value [a; b]) by (unfold size; lia).
  split; [by split; [|rewrite Hsz]|]. split; [|done]. unfold string_list. rewrite Hsz.
  rewrite <- app_assoc. change (a :: b :: ?x) with ([a; b] ++ x). f_equal.
  by rewrite <- (le_bytes_value [a; b] Hab) at 1.
Qed.

(** ** Theorems *)

Definition capability_ok (c : CapabilityPayload) : Prop :=
  string_ok (local_peer_id c) /\ strings_ok (listen_multiaddrs c) /\ strings_ok (protocols c).
Definition extension_ok (x : CapabilityExtension) : Prop :=
  is_u8 (amp_wire x) /\ string_ok (node_version x) /\ strings_ok (features x).

(** Capability offers round-trip both ways.  An offer whose strings are
    shorter than 4 GiB and whose lists hold at most 65535 strings encodes and
    decodes back to itself; and bytes that decode are exactly the encoding of
    the offer they decode to. *)
Theorem capability_roundtrip (c : CapabilityPayload) (wire : bytes) :
  (capability_ok c -> exists w, EncodeCapability c = Ok w /\ DecodeCapability w = Ok c)
  /\ (bytes_ok wire -> DecodeCapability wire = Ok c -> capability_ok c /\ EncodeCapability c = Ok wire).
Proof.
  assert (Henc : capability_ok c -> EncodeCapability c
    = Ok ([1] ++ len_utf8 (local_peer_id c) ++ string_list (listen_multiaddrs c) ++ string_list (protocols c))).
  { intros (Hp & Ha & Hpr). unfold EncodeCapability. rewrite EncodeLen_ok by done. cbn [mbind result_bind].
    rewrite AppendStringList_layout by done. cbn [mbind result_bind].
    rewrite AppendStringList_layout by done. by rewrite <- !app_assoc. }
  split.
  - intros Hc. eexists. split; [by apply Henc|]. destruct Hc as ([_ Hp] & Ha & Hpr). cbn [app DecodeCapability]. cbn [Z.eqb Pos.eqb negb].
    rewrite DecodeLenUtf8Le_app by done. cbn [mbind result_bind]. rewrite drop_app_length.
    rewrite ReadStringList_app by done. cbn [mbind result_bind].
    rewrite <- (app_nil_r (string_list (protocols c))), ReadStringList_app by done. by destruct c.
  - intros Hok Hd. destruct wire as [|v wire]; [done|]. inversion Hok as [|? ? Hv Hw]; subst.
    unfold DecodeCapability in Hd. destruct (Z.eqb_spec v 1) as [->|]; [|done]. cbn [negb] in Hd.
    destruct (DecodeLenUtf8Le wire) as [[peer n]|] eqn:Hp; [|done]. cbn [mbind result_bind] in Hd.
    apply DecodeLenUtf8Le_inv in Hp as (Hps & Hw1 & _ & Hpok); [|done].
    destruct (ReadStringList (drop n wire)) as [[addrs w1]|] eqn:Hr1; [|done]. cbn [mbind result_bind] in Hd.
    apply ReadStringList_inv in Hr1 as (Ha & Hw2 & Hok1); [|auto with amp].
    destruct (ReadStringList w1) as [[protos w2]|] eqn:Hr2; [|done]. cbn [mbind result_bind] in Hd.
    apply ReadStringList_inv in Hr2 as (Hpr & -> & _); [|done]. destruct w2; [|done]. injection Hd as <-.
    assert (Hc : capability_ok (MkCapabilityPayload peer addrs protos)) by (split; [by split|done]).
    split; [done|]. rewrite (Henc Hc). cbn [local_peer_id listen_multiaddrs protocols].
    rewrite Hw1, Hw2, app_nil_r. done.
Qed.

(** The extension can grow.  An extension round-trips, and a later version's
    extension, that appends fields, is read as the extension it begins with; no
    message is both an offer and an extension, so a peer that knows only offers
    refuses it as an unknown version instead of misreading it. *)
Theorem extension_forward_compatible (x : CapabilityExtension) (later : bytes) :
  extension_ok x ->
  exists w, EncodeExtension x = Ok w /\ DecodeExtension (w ++ later) = Ok x
    /\ IsExtension (w ++ later) = true
    /\ DecodeCapability (w ++ later) = Fail (Err_ "amp cap: bad version").
Proof.
  intros (_ & Hv & Hf).
  exists ([kCapabilityExtensionTag; amp_wire x] ++ len_utf8 (node_version x) ++ string_list (features x)).
  split_and!; try done.
  - unfold EncodeExtension. rewrite EncodeLen_ok by done. cbn [mbind result_bind].
    rewrite AppendStringList_layout by done. by rewrite <- !app_assoc.
  - unfold DecodeExtension. cbn [app]. rewrite Z.eqb_refl, <- app_assoc. cbn [negb]. rewrite DecodeLenUtf8Le_app by apply Hv. cbn [mbind result_bind].
    rewrite drop_app_length, ReadStringList_app by done. by destruct x.
Qed.

(** ** Witnesses *)

Definition offer_example : CapabilityPayload :=
  MkCapabilityPayload [112; 49] [[47; 105]; []] [[47; 99]].
Definition extension_example : CapabilityExtension := MkCapabilityExtension 2 [49; 46; 48] [[104]].

Lemma strings_okb l : forallb bytes_okb l = true -> forallb (fun s => size s <? 2 ^ 32) l = true ->
  size l < 2 ^ 16 -> strings_ok l.
Proof.
  rewrite !forallb_forall. intros Hb Hs Hn. split; [|split; [apply size_nonneg|done]].
  apply Forall_forall. intros s Hin%list_elem_of_In. split; [by apply bytes_okb_ok, Hb|].
  split; [apply size_nonneg|]. by apply Z.ltb_lt, Hs.
Qed.

Theorem capability_roundtrip_witness :
  exists w, EncodeCapability offer_example = Ok w /\ DecodeCapability w = Ok offer_example
    /\ capability_ok offer_example.
Proof.
  assert (Hok : capability_ok offer_example).
  { split; [|split]; [split; [apply bytes_okb_ok|]| |]; try apply strings_okb; by vm_compute. }
  destruct (proj1 (capability_roundtrip offer_example []) Hok) as (w & He & Hd).
  exists w. split; [exact He|split; [exact Hd|exact Hok]].
Defined.

Theorem extension_forward_compatible_witness :
  exists w, EncodeExtension extension_example = Ok w
    /\ DecodeExtension (w ++ [9; 9]) = Ok extension_example
    /\ IsExtension (w ++ [9; 9]) = true
    /\ DecodeCapability (w ++ [9; 9]) = Fail (Err_ "amp cap: bad version").
Proof.
  apply (extension_forward_compatible extension_example [9; 9]).
  split; [by vm_compute|split; [split; [apply bytes_okb_ok|]|apply strings_okb]]; by vm_compute.
Defined.
