(* ===== verification/MessageReassembly.v ===== *)
(** * Message reassembly (src/L3/MessageReassembly.cpp, include/amp/L3/MessageReassembly.h)

    Fragments put together into messages, on reliable channels and on lossy
    ones, where a partial message over the cap is dropped for a newer one. *)

From stdpp Require Import sorting.
From S2P Require Import Prelude L1Types ChannelWire.

(** ** State *)

Record Partial := MkPartial {
  p_frag_count : Z;
  p_total_len : Z;
  chunks : list bytes;
  received_bytes : Z;
  started_ms : Z;
}.
#[export] Instance Partial_fields : Fields Partial := fun p =>
  MkPartial (p_frag_count p) (p_total_len p) (chunks p) (received_bytes p) (started_ms p).

Record MessageReassembly := MkMessageReassembly {
  max_message_bytes_ : Z;
  max_partials_ : Z;
  lossy_ : bool;
  partial_ : gmap Z Partial;
}.
#[export] Instance MessageReassembly_fields : Fields MessageReassembly := fun r =>
  MkMessageReassembly (max_message_bytes_ r) (max_partials_ r) (lossy_ r) (partial_ r).

Definition MessageReassembly_new (max_message_bytes max_partials : Z) (lossy : bool) : MessageReassembly :=
  MkMessageReassembly max_message_bytes max_partials lossy ∅.

(** ** Operations *)

(** [std::map] iterates in the order of its keys. *)
#[local] Definition key_le (a b : Z * Partial) : Prop := a.1 <= b.1.
#[local] Instance key_le_dec : RelDecision key_le.
Proof. intros a b. unfold key_le. apply _. Defined.
Definition in_key_order (m : gmap Z Partial) : list (Z * Partial) := merge_sort key_le (map_to_list m).

Definition older (oldest it : Z * Partial) : Z * Partial :=
  if started_ms it.2 <? started_ms oldest.2 then it else oldest.

Definition DropOldestPartial (r : MessageReassembly) : MessageReassembly :=
  match in_key_order (partial_ r) with
  | [] => r
  | first :: rest => r <| partial_ ::= delete (fold_left older rest first).1 |>
  end.

(** [partial_.find(frag.msg_id)], or a new partial in its place. *)
Definition FindPartial (r : MessageReassembly) (frag : ChannelFragBody) (now_ms : Z)
    : Roe (MessageReassembly * Partial) :=
  match partial_ r !! msg_id frag with
  | Some p => Ok (r, p)
  | None =>
      let p := MkPartial (frag_count frag) (total_len frag)
                 (replicate (Z.to_nat (frag_count frag)) []) 0 now_ms in
      if max_partials_ r <=? Z.of_nat (base.size (partial_ r)) then
        if negb (lossy_ r) then Fail (Err_ "amp ch: too many in-flight partial messages")
        else let r := DropOldestPartial r in Ok (r <| partial_ ::= insert (msg_id frag) p |>, p)
      else Ok (r <| partial_ ::= insert (msg_id frag) p |>, p)
  end.

Definition Push (r : MessageReassembly) (frag : ChannelFragBody) (now_ms : Z)
    : MessageReassembly * Roe (option bytes) :=
  if (frag_count frag =? 0) || (frag_count frag <=? frag_index frag)
  then (r, Fail (Err_ "amp ch: bad frag indices"))
  else if max_message_bytes_ r <? total_len frag then (r, Fail (Err_ "amp ch: message too large"))
  else if total_len frag <? frag_count frag
  then (r, Fail (Err_ "amp ch: frag count exceeds message length"))
  else match FindPartial r frag now_ms with
  | Fail e => (r, Fail e)
  | Ok (r, partial) =>
      let index := Z.to_nat (frag_index frag) in
      if negb (p_frag_count partial =? frag_count frag) || negb (p_total_len partial =? total_len frag)
      then (r, Fail (Err_ "amp ch: frag metadata mismatch"))
      else if negb (bool_decide (default [] (chunks partial !! index) = [])) then (r, Ok None)
      else if p_total_len partial <? received_bytes partial + size (chunk frag)
      then (r, Fail (Err_ "amp ch: frag stream exceeds declared length"))
      else
        let partial := partial <| received_bytes ::= fun n => u32 (n + u32 (size (chunk frag))) |>
                               <| chunks ::= <[index := chunk frag]> |> in
        let r := r <| partial_ ::= insert (msg_id frag) partial |> in
        if existsb (fun c => bool_decide (c = [])) (chunks partial) then (r, Ok None)
        else
          let out := concat (chunks partial) in
          if negb (size out =? p_total_len partial)
          then (r, Fail (Err_ "amp ch: assembled length mismatch"))
          else (r <| partial_ ::= delete (msg_id frag) |>, Ok (Some out))
  end.

Definition SweepExpired (r : MessageReassembly) (now_ms timeout_ms : Z) : MessageReassembly :=
  r <| partial_ ::= filter (fun kp => ~ timeout_ms < now_ms - started_ms kp.2) |>.

(** ** The invariant *)

(** Bytes held of a partial message. *)
Definition held (p : Partial) : Z := size (concat (chunks p)).

Record partial_inv (r_max : Z) (p : Partial) : Prop := {
  pi_count : 0 < p_frag_count p <= p_total_len p;
  pi_len : p_total_len p <= r_max;
  pi_u32 : p_total_len p < 2 ^ 32;
  pi_chunks : size (chunks p) = p_frag_count p;
  pi_received : received_bytes p = held p;
  pi_held : held p <= p_total_len p;
}.

Definition reassembly_inv (r : MessageReassembly) : Prop :=
  map_Forall (fun _ p => partial_inv (max_message_bytes_ r) p) (partial_ r)
  /\ Z.of_nat (base.size (partial_ r)) <= Z.max 1 (max_partials_ r).

Lemma size_concat_insert (l : list bytes) i c old :
  l !! i = Some old -> size (concat (<[i := c]> l)) = size (concat l) - size old + size c.
Proof.
  revert i. induction l as [|x l IH]; intros [|i] Hl; try done; simpl in *; rewrite !size_app.
  - injection Hl as ->. lia.
  - rewrite (IH i) by done. lia.
Qed.

Lemma concat_replicate_nil {A} n : concat (replicate n (@nil A)) = [].
Proof. by induction n. Qed.

Lemma in_key_order_elem m kp : kp ∈ in_key_order m <-> m !! kp.1 = Some kp.2.
Proof.
  unfold in_key_order. rewrite (merge_sort_Permutation key_le (map_to_list m)). destruct kp.
  apply elem_of_map_to_list.
Qed.

Lemma fold_older_elem first rest : fold_left older rest first ∈ first :: rest.
Proof.
  revert first. induction rest as [|it rest IH]; intros first; simpl; [by left|].
  specialize (IH (older first it)). unfold older in *. destruct (_ <? _) in *; set_solver.
Qed.

Lemma fold_older_le first rest kp :
  kp ∈ first :: rest -> started_ms (fold_left older rest first).2 <= started_ms kp.2.
Proof.
  revert first kp. induction rest as [|it rest IH]; intros first kp Hin; simpl; [by apply list_elem_of_singleton in Hin as ->|].
  assert (H1 : started_ms (fold_left older rest (older first it)).2 <= started_ms (older first it).2) by (apply IH; by left).
  assert (H2 : started_ms (older first it).2 <= started_ms first.2 /\ started_ms (older first it).2 <= started_ms it.2).
  { unfold older. destruct (Z.ltb_spec (started_ms it.2) (started_ms first.2)); lia. }
  apply elem_of_cons in Hin as [->|[->|Hin]%elem_of_cons]; [lia|lia|]. apply IH. by right.
Qed.

(** What dropping the oldest partial does. *)
Lemma DropOldestPartial_spec r :
  partial_ r <> ∅ ->
  exists k p, partial_ r !! k = Some p
    /\ DropOldestPartial r = r <| partial_ ::= delete k |>
    /\ (forall k' p', partial_ r !! k' = Some p' -> started_ms p <= started_ms p').
Proof.
  intros Hne. unfold DropOldestPartial. destruct (in_key_order (partial_ r)) as [|first rest] eqn:He.
  { destruct (map_choose _ Hne) as (k & p & Hk).
    apply (in_key_order_elem _ (k, p)) in Hk. rewrite He in Hk. by apply elem_of_nil in Hk. }
  set (o := fold_left older rest first).
  exists o.1, o.2. split_and!; [|done|].
  - apply in_key_order_elem. rewrite He. apply fold_older_elem.
  - intros k' p' Hk. apply (fold_older_le first rest (k', p')). rewrite <- He. by apply in_key_order_elem.
Qed.

Lemma new_partial_inv r frag now :
  frag_ok frag -> (frag_count frag =? 0) || (frag_count frag <=? frag_index frag) = false ->
  total_len frag <= max_message_bytes_ r -> frag_count frag <= total_len frag ->
  partial_inv (max_message_bytes_ r)
    (MkPartial (frag_count frag) (total_len frag) (replicate (Z.to_nat (frag_count frag)) []) 0 now).
Proof.
  intros (_ & Hi & Hc & Ht & _) Hidx Hmax Hlen. zbool. unfold is_u16, is_u32 in *.
  split; simpl; try lia.
  - unfold size. rewrite length_replicate. lia.
  - unfold held. simpl. by rewrite concat_replicate_nil.
  - unfold held. simpl. rewrite concat_replicate_nil. change (size (@nil Z)) with 0. lia.
Qed.

Lemma FindPartial_spec r frag now r' p :
  reassembly_inv r -> frag_ok frag -> (frag_count frag =? 0) || (frag_count frag <=? frag_index frag) = false ->
  total_len frag <= max_message_bytes_ r -> frag_count frag <= total_len frag ->
  FindPartial r frag now = Ok (r', p) ->
  reassembly_inv r' /\ partial_ r' !! msg_id frag = Some p
  /\ max_message_bytes_ r' = max_message_bytes_ r /\ max_partials_ r' = max_partials_ r /\ lossy_ r' = lossy_ r
  /\ (forall k q, k <> msg_id frag -> partial_ r' !! k = Some q -> partial_ r !! k = Some q)
  /\ (lossy_ r = false -> forall k, k <> msg_id frag -> partial_ r' !! k = partial_ r !! k).
Proof.
  intros [Hinv Hsz] Hf Hidx Hmax Hlen Hfp. unfold FindPartial in Hfp.
  destruct (partial_ r !! msg_id frag) as [q|] eqn:Hq; [by injection Hfp as <- <-|].
  pose proof (new_partial_inv r frag now Hf Hidx Hmax Hlen) as Hp.
  set (new := MkPartial _ _ _ _ _) in *.
  assert (Hins : forall m, m ⊆ partial_ r -> Z.of_nat (base.size m) < Z.max 1 (max_partials_ r) ->
    m !! msg_id frag = None -> reassembly_inv (r <| partial_ := <[msg_id frag := new]> m |>)).
  { intros m Hm Hms Hmn. split; simpl.
    - apply map_Forall_insert_2; [done|]. intros k q Hk. eapply Hinv, lookup_weaken; eauto.
    - rewrite map_size_insert_None by done. lia. }
  destruct (Z.leb_spec (max_partials_ r) (Z.of_nat (base.size (partial_ r)))) as [Hfull|Hroom].
  - destruct (lossy_ r) eqn:Hlossy; [|done]. simpl in Hfp. injection Hfp as <- <-.
    destruct (decide (partial_ r = ∅)) as [He|Hne].
    + unfold DropOldestPartial, in_key_order. rewrite He, map_to_list_empty. simpl.
      split_and!; try done.
      * unfold set_field. simpl. rewrite He. apply (Hins ∅); [by apply map_empty_subseteq| |by rewrite lookup_empty].
        rewrite map_size_empty. lia.
      * by rewrite lookup_insert_eq.
      * intros k q Hk. by rewrite lookup_insert_ne, He.
    + destruct (DropOldestPartial_spec r Hne) as (k & q & Hk & -> & _). simpl. split_and!; try done.
      * apply (Hins (delete k (partial_ r))); [apply delete_subseteq| |by apply lookup_delete_None; right].
        rewrite map_size_delete, Hk by done. pose proof (map_size_empty_iff (partial_ r)). lia.
      * by rewrite lookup_insert_eq.
      * intros k' q' Hk'. rewrite lookup_insert_ne by done. intros Hl. by apply lookup_delete_Some in Hl as [_ Hl].
  - injection Hfp as <- <-. split_and!; try done.
    + apply (Hins (partial_ r)); [done|lia|done].
    + simpl. by rewrite lookup_insert_eq.
    + intros k q Hk. simpl. by rewrite lookup_insert_ne.
    + intros _ k Hk. simpl. by rewrite lookup_insert_ne.
Qed.

Lemma chunk_at r_max p (i : Z) :
  partial_inv r_max p -> 0 <= i < p_frag_count p -> exists c, chunks p !! Z.to_nat i = Some c.
Proof. intros Hp Hi. apply lookup_lt_is_Some. pose proof (pi_chunks _ _ Hp) as Hc. unfold size in Hc. lia. Qed.

(** A chunk put into its empty place. *)
Definition with_chunk (p : Partial) (i : nat) (c : bytes) : Partial :=
  p <| received_bytes ::= fun n => u32 (n + u32 (size c)) |> <| chunks ::= <[i := c]> |>.

Lemma with_chunk_inv r_max p i c :
  partial_inv r_max p -> chunks p !! i = Some [] -> received_bytes p + size c <= p_total_len p ->
  partial_inv r_max (with_chunk p i c).
Proof.
  intros Hp Hc Hfit. destruct Hp as [Hcount Hlen Hu32 Hch Hrec Hheld].
  pose proof (size_concat_insert (chunks p) i c [] Hc) as Hsz. rewrite size_nil in Hsz.
  pose proof (size_nonneg c). pose proof (size_nonneg (concat (chunks p))).
  split; simpl; unfold held in *; simpl; try done.
  - unfold size in *. by rewrite length_insert.
  - rewrite Hsz. rewrite !u32_id; unfold is_u32; try lia. rewrite u32_id; unfold is_u32; lia.
  - lia.
Qed.

(** [Push] on every branch, once its first checks pass. *)
Lemma Push_cases r frag now r' res :
  reassembly_inv r -> frag_ok frag -> Push r frag now = (r', res) ->
  reassembly_inv r' /\ max_message_bytes_ r' = max_message_bytes_ r /\ max_partials_ r' = max_partials_ r
  /\ lossy_ r' = lossy_ r
  /\ (lossy_ r = false -> forall k, k <> msg_id frag -> partial_ r' !! k = partial_ r !! k).
Proof.
  intros Hinv Hf Hp. unfold Push in Hp.
  destruct (_ || _) eqn:Hidx; [by injection Hp as <- <-|].
  destruct (Z.ltb_spec (max_message_bytes_ r) (total_len frag)) as [|Hmax]; [by injection Hp as <- <-|].
  destruct (Z.ltb_spec (total_len frag) (frag_count frag)) as [|Hlen]; [by injection Hp as <- <-|].
  destruct (FindPartial r frag now) as [[r1 p]|e] eqn:Hfp; [|by injection Hp as <- <-].
  destruct (FindPartial_spec _ _ _ _ _ Hinv Hf Hidx Hmax Hlen Hfp) as (Hinv1 & Hl & Hm & Hmp & Hls & _ & Hother).
  destruct (_ || _) eqn:Hmeta in Hp; [injection Hp as <- <-; by split_and!|].
  destruct (negb _) eqn:Hdup in Hp; [injection Hp as <- <-; by split_and!|].
  destruct (Z.ltb_spec (p_total_len p) (received_bytes p + size (chunk frag))) as [|Hfit];
    [injection Hp as <- <-; by split_and!|].
  pose proof (proj1 Hinv1 _ _ Hl) as Hpi.
  destruct (chunk_at _ p (frag_index frag) Hpi) as [c Hc].
  { zbool. destruct Hf as (_ & Hi & _). unfold is_u16 in Hi. lia. }
  rewrite Hc in Hdup. apply negb_false_iff, bool_decide_eq_true in Hdup. simpl in Hdup. subst c.
  assert (Hinv2 : reassembly_inv (r1 <| partial_ ::= insert (msg_id frag) (with_chunk p (Z.to_nat (frag_index frag)) (chunk frag)) |>)).
  { split; simpl.
    - apply map_Forall_insert_2; [by apply with_chunk_inv|apply Hinv1].
    - rewrite map_size_insert_Some by done. apply Hinv1. }
  change (p <| received_bytes ::= _ |> <| chunks ::= _ |>)
    with (with_chunk p (Z.to_nat (frag_index frag)) (chunk frag)) in Hp.
  assert (Hother2 : forall q : Partial, lossy_ r = false -> forall k, k <> msg_id frag ->
    (<[msg_id frag := q]> (partial_ r1)) !! k = partial_ r !! k).
  { intros q Hlo k Hk. rewrite lookup_insert_ne by done. by apply Hother. }
  destruct (existsb _ _) in Hp; [injection Hp as <- <-; by split_and!; [..|apply Hother2]|].
  destruct (negb _) in Hp; [injection Hp as <- <-; by split_and!; [..|apply Hother2]|].
  injection Hp as <- <-. split_and!; try done.
  - destruct Hinv2 as [H1 H2]. split; simpl.
    + simpl in H1. intros k q [_ Hk]%lookup_delete_Some. by eapply H1.
    + rewrite delete_insert_eq. rewrite map_size_delete, Hl. destruct Hinv1 as [_ Hs]. simpl. lia.
  - simpl. intros Hlo k Hk. rewrite lookup_delete_ne by done. by apply Hother2.
Qed.

(** ** Runs *)

Inductive reassembly_op :=
  | OpPush (frag : ChannelFragBody) (now_ms : Z)
  | OpSweep (now_ms timeout_ms : Z).
Definition run_reassembly (r : MessageReassembly) (o : reassembly_op) : MessageReassembly :=
  match o with
  | OpPush frag now_ms => (Push r frag now_ms).1
  | OpSweep now_ms timeout_ms => SweepExpired r now_ms timeout_ms
  end.
Definition op_ok (o : reassembly_op) : Prop :=
  match o with OpPush frag _ => frag_ok frag | OpSweep _ _ => True end.

Lemma SweepExpired_inv r now timeout : reassembly_inv r -> reassembly_inv (SweepExpired r now timeout).
Proof.
  intros [Hinv Hsz]. split; simpl.
  - intros k p [Hp _]%map_lookup_filter_Some. by eapply Hinv.
  - etrans; [|exact Hsz]. apply inj_le, map_subseteq_size, map_filter_subseteq.
Qed.

Lemma run_reassembly_inv r ops :
  reassembly_inv r -> Forall op_ok ops ->
  let r' := fold_left run_reassembly ops r in
  reassembly_inv r' /\ max_message_bytes_ r' = max_message_bytes_ r /\ max_partials_ r' = max_partials_ r.
Proof.
  intros Hinv Hops. revert r Hinv. induction Hops as [|o ops Ho Hops IH]; intros r Hinv; simpl; [done|].
  destruct o as [frag now|now timeout]; simpl in *.
  - destruct (Push r frag now) as [r1 res] eqn:Hp.
    destruct (Push_cases _ _ _ _ _ Hinv Ho Hp) as (H1 & Hm & Hk & _). simpl. rewrite <- Hm, <- Hk. by apply IH.
  - by apply (IH (SweepExpired r now timeout)), SweepExpired_inv.
Qed.

(** All the bytes a reassembler holds. *)
Definition held_bytes (r : MessageReassembly) : Z := map_fold (fun _ p acc => held p + acc) 0 (partial_ r).

Lemma map_fold_sum_le (m : gmap Z Partial) b :
  map_Forall (fun _ p => held p <= b) m ->
  map_fold (fun _ p acc => held p + acc) 0 m <= Z.of_nat (base.size m) * b.
Proof.
  revert m. refine (map_ind _ _ _); [done|].
  intros i p m Hi IH Hall. rewrite map_fold_insert_L by (done || intros; lia).
  rewrite map_size_insert_None by done.
  pose proof (Hall i p (lookup_insert_eq _ _ _)) as Hp. simpl in Hp.
  assert (map_Forall (fun _ p => held p <= b) m) as IHm by (by apply map_Forall_insert_1_2 in Hall).
  specialize (IH IHm). lia.
Qed.

(** C34: what a peer can make a channel hold is bounded.  Whatever fragments
    arrive and whenever expired ones are swept, a reassembler never has more
    partial messages than its cap (one, if the cap is zero and the channel
    lossy), each of at most [max_message_bytes] bytes and with at most as many
    places as bytes declared; so it holds at most their product. *)
Theorem reassembly_bounded (max_message_bytes max_partials : Z) (lossy : bool) (ops : list reassembly_op) :
  0 <= max_message_bytes -> Forall op_ok ops ->
  let r := fold_left run_reassembly ops (MessageReassembly_new max_message_bytes max_partials lossy) in
  Z.of_nat (base.size (partial_ r)) <= Z.max 1 max_partials
  /\ map_Forall (fun _ p => size (chunks p) <= max_message_bytes
                            /\ received_bytes p = held p /\ held p <= max_message_bytes) (partial_ r)
  /\ held_bytes r <= Z.max 1 max_partials * max_message_bytes.
Proof.
  intros Hmax Hops r.
  assert (Hnew : reassembly_inv (MessageReassembly_new max_message_bytes max_partials lossy)).
  { split; simpl; [apply map_Forall_empty|]. rewrite map_size_empty. lia. }
  destruct (run_reassembly_inv _ ops Hnew Hops) as ([Hinv Hsz] & Hm & Hk). fold r in Hinv, Hsz, Hm, Hk.
  simpl in Hm, Hk. rewrite Hm in Hinv. rewrite Hk in Hsz. split; [done|].
  assert (Hall : map_Forall (fun _ p => held p <= max_message_bytes) (partial_ r)).
  { intros k p Hp. destruct (Hinv k p Hp). lia. }
  split.
  - intros k p Hp. destruct (Hinv k p Hp). split_and!; [lia|done|lia].
  - etrans; [by apply map_fold_sum_le|]. nia.
Qed.

(** ** A message from its fragments *)

(** The [i]th fragment of the message [concat pieces]. *)
Definition fragment_of (mid : Z) (pieces : list bytes) (i : nat) : ChannelFragBody :=
  MkChannelFragBody mid (Z.of_nat i) (size pieces) (size (concat pieces)) (default [] (pieces !! i)).

Definition pieces_ok (r_max : Z) (pieces : list bytes) : Prop :=
  Forall (fun c => c <> []) pieces /\ pieces <> [] /\ size pieces < 2 ^ 16
  /\ size (concat pieces) <= r_max /\ size (concat pieces) < 2 ^ 32.

(** A partial message that holds the pieces numbered in [got]. *)
Definition masked (got : list nat) (pieces : list bytes) : list bytes :=
  imap (fun j c => if bool_decide (j ∈ got) then c else []) pieces.
Definition partial_of (pieces : list bytes) (got : list nat) (t0 : Z) : Partial :=
  MkPartial (size pieces) (size (concat pieces)) (masked got pieces) (size (concat (masked got pieces))) t0.

Lemma masked_lookup got pieces i :
  masked got pieces !! i = (fun c => if bool_decide (i ∈ got) then c else []) <$> pieces !! i.
Proof. unfold masked. by rewrite list_lookup_imap. Qed.

Lemma masked_nil pieces : masked [] pieces = replicate (length pieces) [].
Proof.
  apply list_eq. intros i. rewrite masked_lookup.
  destruct (decide (i < length pieces)%nat) as [Hi|Hi].
  - destruct (lookup_lt_is_Some_2 _ _ Hi) as [c ->]. by rewrite lookup_replicate_2.
  - by rewrite !(proj2 (lookup_ge_None _ _)) by (rewrite ?length_replicate; lia).
Qed.

Lemma masked_insert got pieces i c :
  pieces !! i = Some c -> <[i := c]> (masked got pieces) = masked (i :: got) pieces.
Proof.
  intros Hc. apply list_eq. intros j. rewrite masked_lookup. destruct (decide (i = j)) as [<-|Hne].
  - rewrite list_lookup_insert_eq; [by rewrite Hc, bool_decide_true by set_solver|].
    unfold masked. rewrite length_imap. by eapply lookup_lt_Some.
  - rewrite list_lookup_insert_ne, masked_lookup by done. destruct (pieces !! j); [|done]. simpl.
    by rewrite (bool_decide_ext (j ∈ i :: got) (j ∈ got)) by set_solver.
Qed.

Lemma masked_full got pieces : (forall j, (j < length pieces)%nat -> j ∈ got) -> masked got pieces = pieces.
Proof.
  intros Hall. apply list_eq. intros j. rewrite masked_lookup. destruct (pieces !! j) eqn:Hj; [|done]. simpl.
  by rewrite bool_decide_true by (apply Hall; by eapply lookup_lt_Some).
Qed.

Lemma masked_hole got pieces :
  Forall (fun c => c <> []) pieces ->
  existsb (fun c : bytes => bool_decide (c = [])) (masked got pieces) = true
  <-> exists j, (j < length pieces)%nat /\ j ∉ got.
Proof.
  intros Hne. rewrite existsb_exists. split.
  - intros (c & Hin & Hc). apply bool_decide_eq_true in Hc as ->.
    apply list_elem_of_In, list_elem_of_lookup in Hin as [j Hj]. rewrite masked_lookup in Hj.
    destruct (pieces !! j) as [c|] eqn:Hp; [|done]. simpl in Hj. exists j.
    split; [by eapply lookup_lt_Some|]. intros Hg. rewrite bool_decide_true in Hj by done. injection Hj as ->.
    by apply (Forall_lookup_1 _ _ _ _ Hne Hp).
  - intros (j & Hj & Hg). exists []. split; [|done]. apply list_elem_of_In, list_elem_of_lookup. exists j.
    rewrite masked_lookup. destruct (lookup_lt_is_Some_2 _ _ Hj) as [c ->]. simpl. by rewrite bool_decide_false.
Qed.

Lemma held_masked_le got pieces : size (concat (masked got pieces)) <= size (concat pieces).
Proof.
  unfold masked. generalize 0%nat as n. intros _.
  enough (H : forall n, size (concat (imap (fun j c => if bool_decide ((n + j)%nat ∈ got) then c else []) pieces))
                        <= size (concat pieces)) by exact (H 0%nat).
  induction pieces as [|c pieces IH]; intros n; [done|]. rewrite imap_cons. simpl. rewrite !size_app.
  specialize (IH (S n)).
  erewrite (imap_ext (_ ∘ S)); [|intros j x _; simpl; rewrite Nat.add_succ_r; exact eq_refl].
  simpl in IH.
  case_match_goal; [lia|]. rewrite size_nil. pose proof (size_nonneg c). lia.
Qed.

(** One own fragment pushed into a partial that holds [got]. *)
Lemma push_own r mid pieces got t0 i now :
  reassembly_inv r -> pieces_ok (max_message_bytes_ r) pieces -> (i < length pieces)%nat ->
  (partial_ r !! mid = Some (partial_of pieces got t0)
   \/ partial_ r !! mid = None /\ got = [] /\ t0 = now
      /\ Z.of_nat (base.size (partial_ r)) < max_partials_ r) ->
  exists r1, partial_ r1 = <[mid := partial_of pieces got t0]> (partial_ r)
  /\ max_message_bytes_ r1 = max_message_bytes_ r /\ max_partials_ r1 = max_partials_ r /\ lossy_ r1 = lossy_ r
  /\ Push r (fragment_of mid pieces i) now
     = if bool_decide (i ∈ got) then (r1, Ok None)
       else if existsb (fun c : bytes => bool_decide (c = [])) (masked (i :: got) pieces)
       then (r1 <| partial_ ::= insert mid (partial_of pieces (i :: got) t0) |>, Ok None)
       else (r1 <| partial_ ::= delete mid |>, Ok (Some (concat pieces))).
Proof.
  intros Hinv (Hne & Hnil & H16 & Hmax & H32) Hi Hat.
  exists (r <| partial_ ::= insert mid (partial_of pieces got t0) |>). split_and!; try done.
  assert (Hcount : size pieces <= size (concat pieces)).
  { clear -Hne. induction Hne as [|c l Hc Hl IH]; simpl; [done|]. rewrite size_app, size_cons.
    destruct c; [done|]. rewrite size_cons. pose proof (size_nonneg c). lia. }
  assert (Hfp : FindPartial r (fragment_of mid pieces i) now
    = Ok (r <| partial_ ::= insert mid (partial_of pieces got t0) |>, partial_of pieces got t0)).
  { unfold FindPartial. simpl. destruct Hat as [Hat|(Hat & -> & -> & Hroom)]; rewrite Hat.
    - do 2 f_equal. unfold set_field. simpl. rewrite insert_id by done. by destruct r.
    - rewrite (proj2 (Z.leb_gt _ _)) by done. unfold partial_of. rewrite masked_nil, concat_replicate_nil.
      unfold size. by rewrite Nat2Z.id. }
  unfold Push. simpl frag_count. simpl frag_index. simpl total_len.
  rewrite (proj2 (Z.eqb_neq (size pieces) 0)), (proj2 (Z.leb_gt (size pieces) _)) by (unfold size; lia).
  rewrite (proj2 (Z.ltb_ge (max_message_bytes_ r) _)), (proj2 (Z.ltb_ge (size (concat pieces)) _)) by lia.
  cbn [orb]. rewrite Hfp. simpl p_frag_count. simpl p_total_len. rewrite !Z.eqb_refl. cbn [negb orb].
  rewrite Nat2Z.id. destruct (lookup_lt_is_Some_2 _ _ Hi) as [c Hc].
  assert (Hch : chunk (fragment_of mid pieces i) = c) by (simpl; by rewrite Hc). rewrite Hch. simpl chunks. rewrite masked_lookup, Hc. simpl.
  pose proof (Forall_lookup_1 _ _ _ _ Hne Hc) as Hcne. simpl in Hcne.
  destruct (bool_decide_reflect (i ∈ got)) as [Hg|Hg]; [by rewrite bool_decide_false|].
  rewrite bool_decide_true by done. cbn [negb].
  assert (Hhole : masked got pieces !! i = Some []) by (by rewrite masked_lookup, Hc; simpl; rewrite bool_decide_false).
  pose proof (size_concat_insert _ i c [] Hhole) as Hsz. rewrite (masked_insert got pieces i c Hc), size_nil in Hsz.
  pose proof (held_masked_le (i :: got) pieces) as Hle.
  pose proof (size_nonneg c). pose proof (size_nonneg (concat (masked got pieces))).
  rewrite (proj2 (Z.ltb_ge (size (concat pieces)) _)) by lia.
  rewrite (masked_insert got pieces i c Hc).
  assert (Hu : u32 (size (concat (masked got pieces)) + u32 (size c)) = size (concat (masked (i :: got) pieces))).
  { rewrite (u32_id (size c)) by (unfold is_u32; lia). rewrite u32_id by (unfold is_u32; lia). lia. }
  assert (Hup : partial_of pieces got t0 <| received_bytes ::= fun n => u32 (n + u32 (size c)) |>
                  <| chunks ::= <[i := c]> |> = partial_of pieces (i :: got) t0).
  { unfold set_field, partial_of. simpl. by rewrite Hu, (masked_insert got pieces i c Hc). }
  rewrite Hup. destruct (existsb _ _) eqn:Hex.
  - done.
  - rewrite masked_full.
    + rewrite Z.eqb_refl. simpl. f_equal. unfold set_field. simpl. by rewrite insert_insert_eq, !delete_insert_eq.
    + intros j Hj. destruct (decide (j ∈ i :: got)) as [|Hnot]; [done|].
      rewrite (proj2 (masked_hole (i :: got) pieces Hne)) in Hex by eauto. done.
Qed.

(** Pushes one after the other, with their results. *)
Fixpoint push_all (r : MessageReassembly) (l : list (ChannelFragBody * Z))
    : MessageReassembly * list (Roe (option bytes)) :=
  match l with
  | [] => (r, [])
  | (frag, now_ms) :: l =>
      let '(r, res) := Push r frag now_ms in
      let '(r, rest) := push_all r l in
      (r, res :: rest)
  end.

Lemma push_all_app r l k :
  push_all r (l ++ k) = (let '(r1, res1) := push_all r l in
                         let '(r2, res2) := push_all r1 k in (r2, res1 ++ res2)).
Proof.
  revert r. induction l as [|[f now] l IH]; intros r; cbn [app push_all]; [by destruct (push_all r k)|].
  destruct (Push r f now) as [r1 res]. rewrite IH. destruct (push_all r1 l) as [r2 res2].
  by destruct (push_all r2 k).
Qed.

(** What a fragment of a run may be while the message [mid] is missing piece
    [i]: another piece of it, or a fragment of another message. *)
Definition run_frag (mid : Z) (pieces : list bytes) (i : nat) (frag : ChannelFragBody) : Prop :=
  frag_ok frag
  /\ (msg_id frag = mid -> exists j, (j < length pieces)%nat /\ j <> i /\ frag = fragment_of mid pieces j).

Definition assembling (r : MessageReassembly) (mid : Z) (pieces : list bytes) (got : list nat) (t0 : Z) : Prop :=
  reassembly_inv r /\ lossy_ r = false /\ pieces_ok (max_message_bytes_ r) pieces
  /\ partial_ r !! mid = Some (partial_of pieces got t0).

Lemma push_middle r mid pieces got t0 i frag now :
  assembling r mid pieces got t0 -> (i < length pieces)%nat -> i ∉ got -> run_frag mid pieces i frag ->
  exists got', assembling (Push r frag now).1 mid pieces got' t0 /\ i ∉ got' /\ (forall j, j ∈ got -> j ∈ got')
  /\ (msg_id frag = mid -> Z.to_nat (frag_index frag) ∈ got' /\ (Push r frag now).2 = Ok None).
Proof.
  intros (Hinv & Hlo & Hp & Hat) Hi Hig [Hf Hown].
  destruct (Push r frag now) as [r' res] eqn:Hpush. simpl.
  destruct (Push_cases _ _ _ _ _ Hinv Hf Hpush) as (Hinv' & Hm' & _ & Hlo' & Hother).
  destruct (decide (msg_id frag = mid)) as [Hmid|Hmid].
  - destruct (Hown Hmid) as (j & Hj & Hji & ->).
    destruct (push_own r mid pieces got t0 j now Hinv Hp Hj (or_introl Hat))
      as (r1 & Hp1 & Hm1 & Hk1 & Hl1 & Heq). rewrite Heq in Hpush.
    simpl frag_index. rewrite Nat2Z.id. destruct (bool_decide_reflect (j ∈ got)) as [Hg|Hg].
    + injection Hpush as <- <-. exists got. split_and!; try done; try congruence.
      split_and!; try congruence. by rewrite Hp1, lookup_insert_eq.
    + rewrite (proj2 (masked_hole (j :: got) pieces (proj1 Hp))) in Hpush by (exists i; set_solver).
      injection Hpush as <- <-. exists (j :: got). split_and!; [|set_solver|set_solver|].
      * split_and!; try done; try congruence. simpl. by rewrite lookup_insert_eq.
      * intros _. split; [set_solver|done].
  - exists got. split_and!; try done. split_and!; [done|congruence|congruence|].
    by rewrite Hother.
Qed.

Lemma push_run fs : forall r mid pieces got t0 i,
  assembling r mid pieces got t0 -> (i < length pieces)%nat -> i ∉ got ->
  Forall (fun f => run_frag mid pieces i f.1) fs ->
  exists got', assembling (push_all r fs).1 mid pieces got' t0 /\ i ∉ got' /\ (forall j, j ∈ got -> j ∈ got')
  /\ (forall f, f ∈ fs -> msg_id f.1 = mid -> Z.to_nat (frag_index f.1) ∈ got')
  /\ Forall2 (fun f res => msg_id f.1 = mid -> res = Ok None) fs (push_all r fs).2.
Proof.
  induction fs as [|[frag now] fs IH]; intros r mid pieces got t0 i Has Hi Hg Hfs; cbn [push_all].
  { exists got. split_and!; try done. intros f Hf. by apply elem_of_nil in Hf. }
  inversion Hfs as [|? ? Hf Hfs']; subst. simpl in Hf.
  destruct (push_middle r mid pieces got t0 i frag now Has Hi Hg Hf) as (got1 & Has1 & Hg1 & Hsub & Hown).
  destruct (Push r frag now) as [r1 res]. simpl in *.
  destruct (IH r1 mid pieces got1 t0 i Has1 Hi Hg1 Hfs') as (got2 & Has2 & Hg2 & Hsub2 & Hidx & Hres).
  destruct (push_all r1 fs) as [r2 rest]. simpl in *. exists got2. split_and!; try done; [by auto| |].
  - intros f [->|Hin]%elem_of_cons Hm; [apply Hsub2; by apply Hown|by apply Hidx].
  - constructor; [|done]. intros Hm. by apply Hown.
Qed.

(** C18: a message comes out of its fragments, whatever their order.  On a
    reliable channel with room for one more partial message, push the fragments
    of a message in any order, each any number of times, interleaved with any
    fragments of other messages: every push of its own before the last missing
    one gives nothing, and that one gives exactly the message and leaves nothing
    of it behind. *)
Theorem reassembles_any_order (r : MessageReassembly) (mid : Z) (pieces : list bytes) (i : nat)
    (fs : list (ChannelFragBody * Z)) (now : Z) :
  reassembly_inv r -> lossy_ r = false -> partial_ r !! mid = None ->
  Z.of_nat (base.size (partial_ r)) < max_partials_ r ->
  pieces_ok (max_message_bytes_ r) pieces -> (i < length pieces)%nat ->
  Forall (fun f => run_frag mid pieces i f.1) fs ->
  (forall f, head fs = Some f -> msg_id f.1 = mid) ->
  (forall j, (j < length pieces)%nat -> j <> i -> exists t, (fragment_of mid pieces j, t) ∈ fs) ->
  exists r' results,
    push_all r (fs ++ [(fragment_of mid pieces i, now)]) = (r', results ++ [Ok (Some (concat pieces))])
    /\ partial_ r' !! mid = None
    /\ Forall2 (fun f res => msg_id f.1 = mid -> res = Ok None) fs results.
Proof.
  intros Hinv Hlo Hnone Hroom Hp Hi Hfs Hhead Hall.
  assert (Hlast : forall r got t0, reassembly_inv r -> pieces_ok (max_message_bytes_ r) pieces -> i ∉ got ->
    (forall j, (j < length pieces)%nat -> j <> i -> j ∈ got) ->
    partial_ r !! mid = Some (partial_of pieces got t0)
      \/ partial_ r !! mid = None /\ got = [] /\ t0 = now /\ Z.of_nat (base.size (partial_ r)) < max_partials_ r ->
    exists r', Push r (fragment_of mid pieces i) now = (r', Ok (Some (concat pieces))) /\ partial_ r' !! mid = None).
  { clear -Hi. intros r got t0 Hinv Hp Hg Hall Hat.
    destruct (push_own r mid pieces got t0 i now Hinv Hp Hi Hat) as (r1 & _ & _ & _ & _ & Heq).
    rewrite bool_decide_false in Heq by done. destruct (existsb _ _) eqn:Hex.
    - apply (masked_hole _ _ (proj1 Hp)) in Hex as (j & Hj & Hnot). destruct (decide (j = i)); set_solver.
    - exists (r1 <| partial_ ::= delete mid |>). split; [exact Heq|]. simpl. by rewrite lookup_delete_eq. }
  rewrite push_all_app. destruct fs as [|[f0 now0] fs].
  { destruct (Hlast r [] now) as (r' & Hpush & Hn); try done; [set_solver|..].
    - intros j Hj Hne. destruct (Hall j Hj Hne) as [t Ht]. by apply elem_of_nil in Ht.
    - right. done.
    - exists r', []. cbn [push_all]. by rewrite Hpush. }
  pose proof (Hhead _ eq_refl) as Hf0. simpl in Hf0.
  apply Forall_cons in Hfs as [[Hf0ok Hf0own] Hfs']. simpl in Hf0own.
  destruct (Hf0own Hf0) as (j0 & Hj0 & Hj0i & ->).
  destruct (push_own r mid pieces [] now0 j0 now0 Hinv Hp Hj0) as (r1 & Hp1 & Hm1 & Hk1 & Hl1 & Heq); [by right|].
  rewrite bool_decide_false in Heq by set_solver.
  rewrite (proj2 (masked_hole [j0] pieces (proj1 Hp))) in Heq by (exists i; set_solver).
  destruct (Push_cases _ _ _ _ _ Hinv Hf0ok Heq) as (Hinv2 & Hm2 & _ & Hl2 & _).
  set (r2 := r1 <| partial_ ::= _ |>) in *. simpl in Hfs', Hall, Hlast, Hnone. simpl msg_id.
  destruct (push_run fs r2 mid pieces [j0] now0 i) as (got & (Hinv3 & _ & Hp3 & Hat3) & Hg & Hsub & Hidx & Hres);
    [|done|set_solver|done|].
  { split_and!; [done|congruence|by rewrite Hm2|]. simpl. by rewrite lookup_insert_eq. }
  cbn [push_all]. rewrite Heq. destruct (push_all r2 fs) as [r3 res3]. simpl in Hinv3, Hp3, Hat3, Hres.
  destruct (Hlast r3 got now0) as (r' & Hpush & Hn); try done.
  - intros j Hj Hne. destruct (Hall j Hj Hne) as [t Ht]. apply elem_of_cons in Ht as [Ht|Ht].
    + injection Ht as Hjj _ _. apply Nat2Z.inj in Hjj as ->. apply Hsub. set_solver.
    + specialize (Hidx _ Ht eq_refl). simpl in Hidx. by rewrite Nat2Z.id in Hidx.
  - by left.
  - exists r', (Ok None :: res3). rewrite Hpush. split_and!; [done|done|by constructor].
Qed.

(** ** Witnesses *)

Definition pieces_example : list bytes := [[1]; [2; 3]; [4]].
Definition reassembly_example : MessageReassembly := MessageReassembly_new 100 2 false.
Definition other_fragment : ChannelFragBody := MkChannelFragBody 9 1 2 5 [7].
Definition pushes_example : list (ChannelFragBody * Z) :=
  [(fragment_of 5 pieces_example 2, 0); (other_fragment, 1); (fragment_of 5 pieces_example 0, 2);
   (fragment_of 5 pieces_example 2, 3)].

Lemma new_inv m k lossy : reassembly_inv (MessageReassembly_new m k lossy).
Proof. split; simpl; [apply map_Forall_empty|]. rewrite map_size_empty. lia. Qed.

Lemma frag_okb f : forallb (fun v => 0 <=? v) [msg_id f; frag_index f; frag_count f; total_len f] = true ->
  msg_id f < 2 ^ 64 -> frag_index f < 2 ^ 16 -> frag_count f < 2 ^ 16 -> total_len f < 2 ^ 32 ->
  bytes_okb (chunk f) = true -> frag_ok f.
Proof.
  simpl. intros H Hm Hi Hc Ht Hb%bytes_okb_ok.
  unfold frag_ok, is_u64, is_u32, is_u16. split_and!; try done; lia.
Qed.

Theorem reassembly_bounded_witness :
  let r := fold_left run_reassembly [OpPush (fragment_of 5 pieces_example 2) 0; OpPush other_fragment 1;
             OpSweep 40 30] (MessageReassembly_new 100 2 false) in
  Z.of_nat (base.size (partial_ r)) <= Z.max 1 2
  /\ map_Forall (fun _ p => size (chunks p) <= 100 /\ received_bytes p = held p /\ held p <= 100) (partial_ r)
  /\ held_bytes r <= Z.max 1 2 * 100.
Proof.
  apply (reassembly_bounded 100 2 false); [lia|].
  constructor; [by apply frag_okb|]. constructor; [by apply frag_okb|]. constructor; [done|constructor].
Defined.

Theorem reassembles_any_order_witness :
  exists r' results,
    push_all reassembly_example (pushes_example ++ [(fragment_of 5 pieces_example 1, 4)])
      = (r', results ++ [Ok (Some [1; 2; 3; 4])])
    /\ partial_ r' !! 5 = None
    /\ Forall2 (fun f res => msg_id f.1 = 5 -> res = Ok None) pushes_example results.
Proof.
  apply (reassembles_any_order reassembly_example 5 pieces_example 1 pushes_example 4).
  - apply new_inv.
  - done.
  - done.
  - by vm_compute.
  - split; [by repeat constructor|]. split; [done|]. by vm_compute.
  - simpl. lia.
  - constructor; [split; [by apply frag_okb|intros _; by exists 2%nat; split; [simpl; lia|]]|].
    constructor; [split; [by apply frag_okb|done]|].
    constructor; [split; [by apply frag_okb|intros _; by exists 0%nat; split; [simpl; lia|]]|].
    constructor; [split; [by apply frag_okb|intros _; by exists 2%nat; split; [simpl; lia|]]|constructor].
  - by intros f [= <-].
  - intros j Hj Hne. simpl in Hj. assert (j = 0 \/ j = 2)%nat as [->| ->] by lia.
    + exists 2. right; right; left.
    + exists 0. left.
Defined.
