(* ===== verification/ChannelPolicy.v ===== *)
(** * Channel policies (include/amp/L3/ChannelPolicy.h, AmpChannelLimits.h)

    The budgets of a channel and the profiles the code builds. *)

From S2P Require Import Prelude L1Types ChannelWire.

Definition kMaxControlJsonFrameBytes : Z := 64 * 1024.
Definition kMaxChatStreamJsonBytes : Z := 256 * 1024.
Definition kMaxBulkFrameBytes : Z := 4 * 1024 * 1024 + 64 * 1024.
Definition kMaxCallMediaFrameBytes : Z := 128 * 1024.
Definition kMaxCallMediaOutboundFrames : Z := 64.
Definition kMaxControlOutboundFrames : Z := 1.
Definition kMaxConcurrentChannels : Z := 256.

Inductive KeepaliveTier := TierNone | TierWarm | TierHot.
#[export] Instance KeepaliveTier_eq_dec : EqDecision KeepaliveTier.
Proof. solve_decision. Defined.
Definition tier_to_Z (t : KeepaliveTier) : Z := match t with TierNone => 0 | TierWarm => 1 | TierHot => 2 end.
(** [std::max] of two tiers. *)
Definition tier_max (a b : KeepaliveTier) : KeepaliveTier := if tier_to_Z a <? tier_to_Z b then b else a.

Inductive ChannelDropPolicy := DropNever | DropOldest.

(** [on_outbound_drop], a callback, is its identity. *)
Record ChannelPolicy := MkChannelPolicy {
  cls : ChannelClass;
  drop_policy : ChannelDropPolicy;
  max_outbound_frames : Z;
  write_preferred : bool;
  read_once : bool;
  policy_max_message_bytes : Z;
  read_timeout : Z;
  on_outbound_drop : option nat;
  keepalive : KeepaliveTier;
}.
#[export] Instance ChannelPolicy_fields : Fields ChannelPolicy := fun p =>
  MkChannelPolicy (cls p) (drop_policy p) (max_outbound_frames p) (write_preferred p) (read_once p)
    (policy_max_message_bytes p) (read_timeout p) (on_outbound_drop p) (keepalive p).

Definition ChannelPolicy_default : ChannelPolicy :=
  MkChannelPolicy Control DropNever 0 false false kMaxChatStreamJsonBytes 0 None TierNone.

Definition ControlJsonChannelPolicy (timeout : Z) : ChannelPolicy :=
  ChannelPolicy_default <| cls := Control |> <| drop_policy := DropNever |>
    <| max_outbound_frames := kMaxControlOutboundFrames |> <| read_once := true |>
    <| policy_max_message_bytes := kMaxChatStreamJsonBytes |> <| read_timeout := timeout |>.
Definition CapabilityChannelPolicy : ChannelPolicy :=
  ChannelPolicy_default <| cls := Control |> <| drop_policy := DropNever |>
    <| max_outbound_frames := 1 |> <| policy_max_message_bytes := kMaxControlJsonFrameBytes |>.
Definition MakeBulkChannelPolicy : ChannelPolicy :=
  ChannelPolicy_default <| cls := Bulk |> <| drop_policy := DropNever |>
    <| max_outbound_frames := kMaxControlOutboundFrames |>
    <| policy_max_message_bytes := kMaxBulkFrameBytes |>.
Definition CallMediaChannelPolicy (timeout : Z) : ChannelPolicy :=
  ChannelPolicy_default <| cls := Realtime |> <| drop_policy := DropOldest |>
    <| max_outbound_frames := kMaxCallMediaOutboundFrames |> <| write_preferred := true |>
    <| read_once := false |> <| policy_max_message_bytes := kMaxCallMediaFrameBytes |>
    <| read_timeout := timeout |>.
