(* ===== verification/ChannelMux.v ===== *)
(** * The channel multiplexer (src/L3/ChannelMux.cpp, include/amp/L3/ChannelMux.h)

    Channels over one session: opening and refusing them, sending in frames and
    fragments under the transport's credit, receiving and reassembling, and the
    ends of channels.

    The link's transport is a state [T] with the interface [MuxTransport].  A
    handler is its identity; a call of one is an event of [mux_log], like each
    frame given to the transport, and what a handler does to the multiplexer in
    return is a later operation. *)

From S2P Require Import Prelude L1Types ChannelWire Capability MessageReassembly ChannelPolicy.

(** ** State *)

(** [TransportSend] and [TransportCredits]; [None] is no credit function. *)
Class MuxTransport (T : Type) := {
  transport_send : T -> QosClass -> bytes -> T * Roe unit;
  transport_credits : T -> option Z;
}.

Record MuxTuning := MkMuxTuning {
  max_concurrent_channels : Z;
  max_queued_bytes : Z;
  frag_assembly_timeout_ms : Z;
}.
Definition MuxTuning_default : MuxTuning :=
  MkMuxTuning kMaxConcurrentChannels (32 * 1024 * 1024) kDefaultFragAssemblyTimeoutMs.

Record ChannelRecord := MkChannelRecord {
  ch_id : Z;
  ch_protocol_id : bytes;
  policy : ChannelPolicy;
  state : ChannelState;
  tx_seq : Z;
  rx_seq : Z;
  on_data : option nat;
  on_terminal : option nat;
  reassembly : MessageReassembly;
  read_clock_ms : Z;
}.
#[export] Instance ChannelRecord_fields : Fields ChannelRecord := fun c =>
  MkChannelRecord (ch_id c) (ch_protocol_id c) (policy c) (state c) (tx_seq c) (rx_seq c) (on_data c)
    (on_terminal c) (reassembly c) (read_clock_ms c).
Definition ChannelRecord_default : ChannelRecord :=
  MkChannelRecord 0 [] ChannelPolicy_default ChannelClosed 1 1 None None
    (MessageReassembly_new (256 * 1024) 64 false) (-1).

Inductive mux_event :=
  | EvSend (qos : QosClass) (wire : bytes) (sent : bool)
  | EvData (handler : nat) (channel : Z) (payload : bytes)
  | EvTerminal (handler : nat) (channel : Z) (reason : string)
  | EvInboundOpen (handler : nat) (channel : Z) (protocol : bytes).

Record ChannelMux (T : Type) := MkChannelMux {
  transport_set : bool;
  transport : T;
  max_frame_bytes_ : Z;
  send_queues_ : gmap Z (list bytes);
  send_order_ : list Z;
  queued_bytes_ : Z;
  mux_tuning_ : MuxTuning;
  clock_now : Z;
  channels_ : gmap Z ChannelRecord;
  pending_handlers_ : gmap Z (option nat);
  pending_terminal_handlers_ : gmap Z (option nat);
  pending_open_data_ : gmap Z bytes;
  protocol_handlers_ : gmap bytes nat;
  next_dynamic_id_ : Z;
  last_send_qos_ : QosClass;
  next_frag_msg_id_ : Z;
  refuse_unhandled_opens_ : bool;
  mux_log : list mux_event;
}.
Arguments MkChannelMux {T}.
Arguments transport_set {T}.
Arguments transport {T}.
Arguments max_frame_bytes_ {T}.
Arguments send_queues_ {T}.
Arguments send_order_ {T}.
Arguments queued_bytes_ {T}.
Arguments mux_tuning_ {T}.
Arguments clock_now {T}.
Arguments channels_ {T}.
Arguments pending_handlers_ {T}.
Arguments pending_terminal_handlers_ {T}.
Arguments pending_open_data_ {T}.
Arguments protocol_handlers_ {T}.
Arguments next_dynamic_id_ {T}.
Arguments last_send_qos_ {T}.
Arguments next_frag_msg_id_ {T}.
Arguments refuse_unhandled_opens_ {T}.
Arguments mux_log {T}.
#[export] Instance ChannelMux_fields {T} : Fields (ChannelMux T) := fun m =>
  MkChannelMux (transport_set m) (transport m) (max_frame_bytes_ m) (send_queues_ m) (send_order_ m)
    (queued_bytes_ m) (mux_tuning_ m) (clock_now m) (channels_ m) (pending_handlers_ m)
    (pending_terminal_handlers_ m) (pending_open_data_ m) (protocol_handlers_ m) (next_dynamic_id_ m)
    (last_send_qos_ m) (next_frag_msg_id_ m) (refuse_unhandled_opens_ m) (mux_log m).

Definition kDirectMaxFrameBytes : Z := kMaxSealedPayload.
Definition kMinFrameBytes : Z := 64.
Definition kMaxFragmentsPerMessage : Z := 65535.
Definition kOpenAckNoHandler : Z := 1.
Definition kOpenAckTooManyChannels : Z := 2.
Definition kOpenAckBadIdParity : Z := 3.
Definition kLinkDroppedReason : string := "link-dropped".
Definition kReadTimeoutReason : string := "read-timeout".
Definition kBadMessageReason : string := "bad-message".

Definition ReassemblyFor (p : ChannelPolicy) : MessageReassembly :=
  MessageReassembly_new (policy_max_message_bytes p) 64 (bool_decide (QosForClass (cls p) = BestEffort)).

Definition LocalMaxMessageBytesCeiling (c : ChannelClass) : Z :=
  if bool_decide (c = Bulk) then kMaxBulkFrameBytes else kMaxChatStreamJsonBytes.

Section ChannelMux.
Context {T : Type} `{MuxTransport T}.
Abbreviation Mux := (ChannelMux T).

Definition ChannelMux_new (initiator : bool) (t : T) : Mux :=
  MkChannelMux false t kDirectMaxFrameBytes ∅ [] 0 MuxTuning_default 0 ∅ ∅ ∅ ∅ ∅
    (if initiator then 1 else 2) Reliable 1 false [].

Definition emit (e : mux_event) (m : Mux) : Mux := m <| mux_log ::= fun l => l ++ [e] |>.

(** ** Sending *)

Definition HasReliableCredit (m : Mux) : bool :=
  match transport_credits (transport m) with
  | None => true
  | Some n => 0 <? n
  end.

Definition Transport (m : Mux) (qos : QosClass) (wire : bytes) : Mux * Roe unit :=
  if negb (transport_set m) then (m, Fail (Err_ "amp mux: no transport"))
  else
    let m := m <| last_send_qos_ := qos |> in
    let '(t, sent) := transport_send (transport m) qos wire in
    (emit (EvSend qos wire (ok sent)) (m <| transport := t |>), sent).

(** One turn of the loop of [FlushQueued]; [channel_id] has left [send_order_]. *)
Definition FlushOne (m : Mux) (channel_id : Z) : Mux :=
  match send_queues_ m !! channel_id with
  | None | Some [] => m
  | Some (frame :: rest) =>
      let m := m <| send_queues_ ::= insert channel_id rest |> <| queued_bytes_ ::= fun n => n - size frame |> in
      let m := (Transport m Reliable frame).1 in
      match rest with
      | [] => m <| send_queues_ ::= delete channel_id |>
      | _ => m <| send_order_ ::= fun l => l ++ [channel_id] |>
      end
  end.

Fixpoint flush_loop (fuel : nat) (m : Mux) : Mux :=
  match fuel with
  | O => m
  | S fuel =>
      match send_order_ m with
      | [] => m
      | channel_id :: order =>
          if HasReliableCredit m then flush_loop fuel (FlushOne (m <| send_order_ := order |>) channel_id)
          else m
      end
  end.

Definition QueuedFrameCount (m : Mux) : nat :=
  map_fold (fun _ queue count => (length queue + count)%nat) O (send_queues_ m).

(** Every turn takes an entry of [send_order_] or a queued frame away. *)
Definition flush_fuel (m : Mux) : nat := (QueuedFrameCount m + length (send_order_ m))%nat.
Definition FlushQueued (m : Mux) : Mux := flush_loop (flush_fuel m) m.

Definition SendWire (m : Mux) (channel_id : Z) (qos : QosClass) (wire : bytes) : Mux * Roe unit :=
  if negb (bool_decide (qos = Reliable)) then Transport m qos wire
  else
    let m := FlushQueued m in
    let queue := default [] (send_queues_ m !! channel_id) in
    let channelWaiting := negb (bool_decide (queue = [])) in
    if negb channelWaiting && HasReliableCredit m then Transport m qos wire
    else if max_queued_bytes (mux_tuning_ m) <? queued_bytes_ m + size wire
    then (m, Fail (Err_ "amp mux: send queue full"))
    else
      let m := m <| queued_bytes_ ::= fun n => n + size wire |> in
      let m := if bool_decide (queue = []) then m <| send_order_ ::= fun l => l ++ [channel_id] |> else m in
      (m <| send_queues_ ::= insert channel_id (queue ++ [wire]) |>, Ok tt).

Definition SendFrame (m : Mux) (frame : ChannelFrame) (p : ChannelPolicy) : Mux * Roe unit :=
  if negb (transport_set m) then (m, Fail (Err_ "amp mux: no transport"))
  else match EncodeFrame frame with
  | Fail e => (m, Fail e)
  | Ok wire => SendWire m (channel_id (fr_header frame)) (QosForClass (cls p)) wire
  end.

Definition DropQueued (m : Mux) (channel_id : Z) : Mux :=
  match send_queues_ m !! channel_id with
  | None => m
  | Some queue =>
      m <| queued_bytes_ ::= fun n => n - foldr (fun f acc => size f + acc) 0 queue |>
        <| send_queues_ ::= delete channel_id |>
  end.

Definition update_channel (channel_id : Z) (f : ChannelRecord -> ChannelRecord) (m : Mux) : Mux :=
  m <| channels_ ::= alter f channel_id |>.

(** The fragments [i], [i + 1], ... of a message, [n] to go. *)
Fixpoint send_fragments (n : nat) (i : Z) (m : Mux) (channel_id : Z) (qos : QosClass)
    (msg_id frag_count chunk_bytes : Z) (payload : bytes) : Mux * Roe unit :=
  match n with
  | O => (m, Ok tt)
  | S n =>
      match channels_ m !! channel_id with
      | None => (m, Fail (Err_ "amp mux: channel closed while sending"))
      | Some channel =>
          let offset := i * chunk_bytes in
          let chunk_len := Z.min chunk_bytes (size payload - offset) in
          let header := MkChannelHeader FrameFrag channel_id (tx_seq channel) in
          match EncodeFrag header msg_id i frag_count (u32 (size payload))
                  (take (Z.to_nat chunk_len) (drop (Z.to_nat offset) payload)) with
          | Fail e => (m, Fail e)
          | Ok wire =>
              let '(m, sent) := SendWire m channel_id qos wire in
              match sent with
              | Fail e => (m, Fail e)
              | Ok _ =>
                  match channels_ m !! channel_id with
                  | Some channel =>
                      if bool_decide (state channel = ChannelOpen) then
                        send_fragments n (i + 1)
                          (update_channel channel_id (fun c => c <| tx_seq ::= fun s => u32 (s + 1) |>) m)
                          channel_id qos msg_id frag_count chunk_bytes payload
                      else (m, Fail (Err_ "amp mux: channel closed while sending"))
                  | None => (m, Fail (Err_ "amp mux: channel closed while sending"))
                  end
              end
          end
      end
  end.

Definition SendFragmented (m : Mux) (channel_id : Z) (channel : ChannelRecord) (payload : bytes) : Mux * Roe unit :=
  let chunk_bytes := max_frame_bytes_ m - Z.of_nat kChannelHeaderBytes - Z.of_nat kChannelFragFieldsBytes in
  let needed := (size payload + chunk_bytes - 1) `quot` chunk_bytes in
  if kMaxFragmentsPerMessage <? needed
  then (m, Fail (Err_ "amp mux: message needs more fragments than a frame counts"))
  else
    let msg_id := next_frag_msg_id_ m in
    let m := m <| next_frag_msg_id_ ::= fun n => u64 (n + 1) |> in
    let frag_count := u16 needed in
    let qos := QosForClass (cls (policy channel)) in
    if bool_decide (qos = Reliable) && (max_queued_bytes (mux_tuning_ m) <? queued_bytes_ m + size payload)
    then (m, Fail (Err_ "amp mux: send queue full"))
    else send_fragments (Z.to_nat frag_count) 0 m channel_id qos msg_id frag_count chunk_bytes payload.

Definition SendData (m : Mux) (channel_id : Z) (payload : bytes) : Mux * Roe unit :=
  match channels_ m !! channel_id with
  | None => (m, Fail (Err_ "amp mux: send on closed channel"))
  | Some channel =>
      if negb (bool_decide (state channel = ChannelOpen))
      then (m, Fail (Err_ "amp mux: send on closed channel"))
      else if policy_max_message_bytes (policy channel) <? size payload
      then (m, Fail (Err_ "amp mux: payload too large"))
      else
        let max_single := max_frame_bytes_ m - Z.of_nat kChannelHeaderBytes in
        if size payload <=? max_single then
          let frame := frame_of (MkChannelHeader FrameData channel_id (tx_seq channel))
                         <| fr_payload := payload |> in
          let '(m, sent) := SendFrame m frame (policy channel) in
          match sent with
          | Fail e => (m, Fail e)
          | Ok _ => (update_channel channel_id (fun c => c <| tx_seq ::= fun s => u32 (s + 1) |>) m, Ok tt)
          end
        else SendFragmented m channel_id channel payload
  end.

Definition SetMaxFrameBytes (m : Mux) (n : Z) : Mux * Roe unit :=
  if n <? kMinFrameBytes then (m, Fail (Err_ "amp mux: frame budget below the minimum"))
  else (m <| max_frame_bytes_ := n |>, Ok tt).

Definition ResetChannel (m : Mux) (channel_id code : Z) : Mux * Roe unit :=
  match channels_ m !! channel_id with
  | None => (m, Fail (Err_ "amp mux: reset unknown channel"))
  | Some channel =>
      let frame := frame_of (MkChannelHeader FrameReset channel_id (tx_seq channel)) <| reset_code := code |> in
      let m := update_channel channel_id (fun c => c <| tx_seq ::= fun s => u32 (s + 1) |>
                                                     <| state := ChannelClosed |>) m in
      let m := DropQueued m channel_id in
      let '(m, sent) := SendFrame m frame (policy channel) in
      (m <| channels_ ::= delete channel_id |>, sent)
  end.

Definition CloseChannel (m : Mux) (channel_id : Z) (reason : bytes) : Mux * Roe unit :=
  match channels_ m !! channel_id with
  | None => (m, Fail (Err_ "amp mux: close unknown channel"))
  | Some channel =>
      let frame := frame_of (MkChannelHeader FrameClose channel_id (tx_seq channel)) <| fr_payload := reason |> in
      let m := update_channel channel_id (fun c => c <| tx_seq ::= fun s => u32 (s + 1) |>
                                                     <| state := ChannelClosing |>) m in
      SendFrame m frame (policy channel)
  end.

(** ** Opening *)

(** Handlers set before the channel existed move into its record. *)
Definition adopt_handlers (m : Mux) (id : Z) : Mux :=
  let m := match pending_handlers_ m !! id with
           | Some h => update_channel id (fun c => c <| on_data := h |>) m <| pending_handlers_ ::= delete id |>
           | None => m
           end in
  match pending_terminal_handlers_ m !! id with
  | Some h => update_channel id (fun c => c <| on_terminal := h |>) m
                <| pending_terminal_handlers_ ::= delete id |>
  | None => m
  end.

Definition NextDynamicId (m : Mux) : Mux * Z :=
  let id := next_dynamic_id_ m in
  let m := m <| next_dynamic_id_ ::= fun n => u32 (n + 2) |> in
  if id =? kIllegalChannelId then (m <| next_dynamic_id_ ::= fun n => u32 (n + 2) |>, next_dynamic_id_ m)
  else (m, id).

Definition OpenRecord (m : Mux) (id : Z) (protocol : bytes) (p : ChannelPolicy) : Mux * Roe Z :=
  let rec := ChannelRecord_default <| ch_id := id |> <| ch_protocol_id := protocol |> <| policy := p |>
               <| state := ChannelOpening |> <| reassembly := ReassemblyFor p |> in
  let m := m <| channels_ ::= insert id rec |> in
  let m := adopt_handlers m id in
  let max_bytes := policy_max_message_bytes p in
  let body := MkChannelOpenBody protocol (cls p) 0
                (if 4294967295 <? max_bytes then 4294967295 else u32 max_bytes) in
  let frame := frame_of (MkChannelHeader FrameOpen id 0) <| fr_open := body |> in
  let '(m, sent) := SendFrame m frame p in
  match sent with
  | Fail e => (m, Fail e)
  | Ok _ => (m, Ok id)
  end.

Definition OpenOutbound (m : Mux) (protocol : bytes) (p : ChannelPolicy) (fixed_id : option Z) : Mux * Roe Z :=
  match fixed_id with
  | Some id =>
      match channels_ m !! id with
      | Some _ => (m, Fail (Err_ "amp mux: channel id in use"))
      | None => OpenRecord m id protocol p
      end
  | None =>
      let '(m, id) := NextDynamicId m in
      match channels_ m !! id with
      | Some _ => (m, Fail (Err_ "amp mux: channel id already recorded"))
      | None => OpenRecord m id protocol p
      end
  end.

Definition SetDataHandler (m : Mux) (channel_id : Z) (handler : option nat) : Mux :=
  match channels_ m !! channel_id with
  | Some _ => update_channel channel_id (fun c => c <| on_data := handler |>) m
  | None => m <| pending_handlers_ ::= insert channel_id handler |>
  end.

Definition SetTerminalHandler (m : Mux) (channel_id : Z) (handler : option nat) : Mux :=
  match channels_ m !! channel_id with
  | Some _ => update_channel channel_id (fun c => c <| on_terminal := handler |>) m
  | None => m <| pending_terminal_handlers_ ::= insert channel_id handler |>
  end.

Definition ApplyChannelPolicy (m : Mux) (channel_id : Z) (p : ChannelPolicy) : Mux * Roe unit :=
  match channels_ m !! channel_id with
  | None => (m, Fail (Err_ "amp mux: apply policy on unknown channel"))
  | Some _ =>
      let p := if kMaxBulkFrameBytes <? policy_max_message_bytes p
               then p <| policy_max_message_bytes := kMaxBulkFrameBytes |> else p in
      (update_channel channel_id (fun c => c <| policy := p |> <| reassembly := ReassemblyFor p |>
                                             <| read_clock_ms := -1 |>) m, Ok tt)
  end.

Definition SetProtocolHandler (m : Mux) (protocol : bytes) (handler : option nat) : Mux :=
  m <| protocol_handlers_ ::= partial_alter (fun _ => handler) protocol |>.
Definition ClearProtocolHandlers (m : Mux) : Mux := m <| protocol_handlers_ := ∅ |>.

(** The notices are the handlers to call, each with its channel. *)
Definition DetachAllChannels (m : Mux) : Mux * list (nat * Z * string) :=
  let m := m <| send_queues_ := ∅ |> <| send_order_ := [] |> <| queued_bytes_ := 0 |> in
  let notices := omap (fun '(id, c) => (fun h => (h, id, kLinkDroppedReason)) <$> on_terminal c)
                   (map_to_list (channels_ m)) in
  (m <| channels_ ::= fmap (fun c => c <| state := ChannelClosed |> <| on_data := None |> <| on_terminal := None |>) |>
     <| pending_handlers_ := ∅ |> <| pending_terminal_handlers_ := ∅ |> <| pending_open_data_ := ∅ |>, notices).

(** ** Receiving *)

Definition NotifyTerminal (m : Mux) (channel : ChannelRecord) (reason : string) : Mux :=
  match on_terminal channel with
  | Some handler => emit (EvTerminal handler (ch_id channel) reason) m
  | None => m
  end.

Definition DeliverPayload (m : Mux) (channel : ChannelRecord) (payload : bytes) : Mux * Roe unit :=
  match on_data channel with
  | Some handler => (emit (EvData handler (ch_id channel) payload) m, Ok tt)
  | None => (m, Ok tt)
  end.

Definition RefuseOpen (m : Mux) (frame : ChannelFrame) (result : Z) : Mux * Roe unit :=
  let refused := ChannelPolicy_default <| cls := channel_class (fr_open frame) |> in
  let nack := frame_of (MkChannelHeader FrameOpenAck (channel_id (fr_header frame)) 0)
                <| open_ack_result := result |> in
  let m := m <| pending_terminal_handlers_ ::= delete (channel_id (fr_header frame)) |> in
  SendFrame m nack refused.

(** The record of an accepted inbound Open. *)
Definition InboundRecord (frame : ChannelFrame) : ChannelRecord :=
  let p := ChannelPolicy_default <| cls := channel_class (fr_open frame) |> in
  let offered := max_message_bytes (fr_open frame) in
  let p := if 0 <? offered then
             let ceiling := LocalMaxMessageBytesCeiling (cls p) in
             p <| policy_max_message_bytes := if ceiling <? offered then ceiling else offered |>
           else p in
  ChannelRecord_default <| ch_id := channel_id (fr_header frame) |>
    <| ch_protocol_id := protocol_id (fr_open frame) |> <| policy := p |>
    <| reassembly := ReassemblyFor p |> <| state := ChannelOpen |>.

Definition BadIdParity (m : Mux) (id : Z) : bool :=
  let we_use_odd := next_dynamic_id_ m mod 2 =? 1 in
  let remote_id_is_odd := id mod 2 =? 1 in
  negb (id =? kCapabilityChannelId) && Bool.eqb remote_id_is_odd we_use_odd.

Definition Handled (m : Mux) (frame : ChannelFrame) : bool :=
  (channel_id (fr_header frame) =? kCapabilityChannelId)
  || bool_decide (is_Some (protocol_handlers_ m !! protocol_id (fr_open frame)))
  || bool_decide (is_Some (pending_handlers_ m !! channel_id (fr_header frame))).

Definition HandleOpen (m : Mux) (frame : ChannelFrame) : Mux * Roe unit :=
  let id := channel_id (fr_header frame) in
  if bool_decide (is_Some (channels_ m !! id)) then (m, Fail (Err_ "amp mux: duplicate open"))
  else if BadIdParity m id then RefuseOpen m frame kOpenAckBadIdParity
  else if max_concurrent_channels (mux_tuning_ m) <=? Z.of_nat (base.size (channels_ m))
  then RefuseOpen m frame kOpenAckTooManyChannels
  else if refuse_unhandled_opens_ m && negb (Handled m frame) then RefuseOpen m frame kOpenAckNoHandler
  else
    let rec := InboundRecord frame in
    let m := m <| channels_ ::= insert id rec |> in
    let m := adopt_handlers m id in
    let ack := frame_of (MkChannelHeader FrameOpenAck id 0) <| open_ack_result := 0 |> in
    let '(m, sent) := SendFrame m ack (policy rec) in
    match sent with
    | Fail e => (m, Fail e)
    | Ok _ =>
        match protocol_handlers_ m !! protocol_id (fr_open frame) with
        | Some handler => (emit (EvInboundOpen handler id (protocol_id (fr_open frame))) m, Ok tt)
        | None => (m, Ok tt)
        end
    end.

Definition FlushPendingOpenData (m : Mux) (channel_id : Z) : Mux :=
  match pending_open_data_ m !! channel_id with
  | None => m
  | Some payload => (SendData (m <| pending_open_data_ ::= delete channel_id |>) channel_id payload).1
  end.

Definition HandleOpenAck (m : Mux) (frame : ChannelFrame) : Mux * Roe unit :=
  let id := channel_id (fr_header frame) in
  match channels_ m !! id with
  | None => (m, Fail (Err_ "amp mux: open ack for unknown channel"))
  | Some channel =>
      if negb (open_ack_result frame =? 0) then
        let m := update_channel id (fun c => c <| state := ChannelClosed |>) m in
        let m := m <| pending_open_data_ ::= delete id |> in
        let m := NotifyTerminal m channel
                   (if open_ack_result frame =? kOpenAckNoHandler then "open rejected: no handler"
                    else "open rejected") in
        (m <| channels_ ::= delete id |>, Fail (Err_ "amp mux: open rejected"))
      else
        let m := update_channel id (fun c => c <| state := ChannelOpen |>) m in
        (FlushPendingOpenData m id, Ok tt)
  end.

(** A Close or Reset of the peer. *)
Definition EndChannel (m : Mux) (channel : ChannelRecord) (id : Z) (reason : string) : Mux * Roe unit :=
  let m := DropQueued m id in
  let m := update_channel id (fun c => c <| state := ChannelClosed |>) m in
  let m := NotifyTerminal m channel reason in
  (m <| channels_ ::= delete id |>, Ok tt).

(** The sequence check of Data and Frag: the record with [rx_seq] advanced. *)
Definition NextInSequence (channel : ChannelRecord) (header : ChannelHeader) : option ChannelRecord :=
  if bool_decide (QosForClass (cls (policy channel)) = Reliable) then
    if negb (channel_seq header =? rx_seq channel) then None
    else Some (channel <| rx_seq ::= fun s => u32 (s + 1) |>)
  else Some channel.

Definition HandleData (m : Mux) (channel : ChannelRecord) (frame : ChannelFrame) : Mux * Roe unit :=
  let id := channel_id (fr_header frame) in
  if negb (bool_decide (state channel = ChannelOpen)) then (m, Fail (Err_ "amp mux: data on closed channel"))
  else match NextInSequence channel (fr_header frame) with
  | None => (m, Fail (Err_ "amp mux: out of order seq"))
  | Some channel =>
      let channel := channel <| read_clock_ms := -1 |> in
      DeliverPayload (m <| channels_ ::= insert id channel |>) channel (fr_payload frame)
  end.

Definition HandleFrag (m : Mux) (channel : ChannelRecord) (frame : ChannelFrame) : Mux * Roe unit :=
  let id := channel_id (fr_header frame) in
  if negb (bool_decide (state channel = ChannelOpen)) then (m, Fail (Err_ "amp mux: frag on closed channel"))
  else match NextInSequence channel (fr_header frame) with
  | None => (m, Fail (Err_ "amp mux: out of order frag seq"))
  | Some channel =>
      let '(r, assembled) := Push (reassembly channel) (fr_frag frame) (clock_now m) in
      let channel := channel <| read_clock_ms := -1 |> <| reassembly := r |> in
      let m := m <| channels_ ::= insert id channel |> in
      match assembled with
      | Fail e =>
          let m := (ResetChannel m (ch_id channel) 1).1 in
          let m := match on_terminal channel with
                   | Some handler => emit (EvTerminal handler (ch_id channel) kBadMessageReason) m
                   | None => m
                   end in
          (m, Fail e)
      | Ok None => (m, Ok tt)
      | Ok (Some payload) => DeliverPayload m channel payload
      end
  end.

Definition DispatchFrame (m : Mux) (frame : ChannelFrame) : Mux * Roe unit :=
  let id := channel_id (fr_header frame) in
  match channels_ m !! id with
  | None =>
      if bool_decide (frame_type (fr_header frame) = FrameOpen) then HandleOpen m frame
      else (m, Fail (Err_ "amp mux: unknown channel"))
  | Some channel =>
      match frame_type (fr_header frame) with
      | FrameOpen => HandleOpen m frame
      | FrameOpenAck => HandleOpenAck m frame
      | FrameReset => EndChannel m channel id "peer_reset"
      | FrameClose => EndChannel m channel id "peer_close"
      | FrameData => HandleData m channel frame
      | FrameFrag => HandleFrag m channel frame
      | FrameOther _ => (m, Fail (Err_ "amp mux: unhandled frame type"))
      end
  end.

Definition OnFrameInbound (m : Mux) (wire : bytes) : Mux * Roe unit :=
  match DecodeFrame wire with
  | Fail e => (m, Fail e)
  | Ok frame => DispatchFrame m frame
  end.

(** ** Queries *)

Definition MuxState (m : Mux) (channel_id : Z) : ChannelState :=
  match channels_ m !! channel_id with Some ch => state ch | None => ChannelClosed end.
Definition MuxClass (m : Mux) (channel_id : Z) : ChannelClass :=
  match channels_ m !! channel_id with Some ch => cls (policy ch) | None => Control end.
Definition CountOpenChannels (m : Mux) (by_protocol : gmap bytes nat) : gmap bytes nat :=
  map_fold (fun _ c acc => if bool_decide (state c = ChannelOpen)
                           then partial_alter (fun n => Some (S (default O n))) (ch_protocol_id c) acc else acc)
    by_protocol (channels_ m).
Definition HasOpenChannelsBesidesCapability (m : Mux) : bool :=
  existsb (fun '(id, c) => negb (id =? kCapabilityChannelId) && bool_decide (state c = ChannelOpen))
    (map_to_list (channels_ m)).
Definition ChannelsKeepaliveTier (m : Mux) : KeepaliveTier :=
  map_fold (fun _ c tier => if bool_decide (state c = ChannelOpen) || bool_decide (state c = ChannelOpening)
                            then tier_max tier (keepalive (policy c)) else tier) TierNone (channels_ m).

(** "/pp-amp/capability/1.0.0" *)
Definition kCapabilityProtocolId : bytes :=
  [47; 112; 112; 45; 97; 109; 112; 47; 99; 97; 112; 97; 98; 105; 108; 105; 116; 121; 47; 49; 46; 48; 46; 48].

Definition SendCapabilityOffer (m : Mux) (offer : CapabilityPayload) : Mux * Roe unit :=
  match EncodeCapability offer with
  | Fail e => (m, Fail e)
  | Ok encoded =>
      let '(m, opened) := match channels_ m !! kCapabilityChannelId with
                          | Some _ => (m, Ok 0)
                          | None => OpenOutbound m kCapabilityProtocolId CapabilityChannelPolicy
                                      (Some kCapabilityChannelId)
                          end in
      match opened with
      | Fail e => (m, Fail e)
      | Ok _ =>
          match MuxState m kCapabilityChannelId with
          | ChannelOpen => SendData m kCapabilityChannelId encoded
          | ChannelOpening => (m <| pending_open_data_ ::= insert kCapabilityChannelId encoded |>, Ok tt)
          | _ => (m, Fail (Err_ "amp mux: capability channel not usable"))
          end
      end
  end.

Definition InjectFrameForTest (m : Mux) (channel_id : Z) (frame : bytes) : Mux * Roe unit :=
  if negb (transport_set m) then (m, Fail (Err_ "amp mux: no transport"))
  else match channels_ m !! channel_id with
  | Some channel =>
      if bool_decide (state channel = ChannelOpen) then Transport m (QosForClass (cls (policy channel))) frame
      else (m, Fail (Err_ "amp mux: inject on closed channel"))
  | None => (m, Fail (Err_ "amp mux: inject on closed channel"))
  end.

(** ** The clock *)

(** The scan of [ExpireIdleReaders]: the records with their clocks started, and
    the channels whose timeout ran out. *)
Definition idle_scan (now_ms : Z) (c : ChannelRecord) : ChannelRecord * bool :=
  if (read_timeout (policy c) <=? 0) || bool_decide (state c = ChannelClosed) then (c, false)
  else if read_clock_ms c <? 0 then (c <| read_clock_ms := now_ms |>, false)
  else (c, read_timeout (policy c) <=? now_ms - read_clock_ms c).

Definition ExpireReader (m : Mux) (id : Z) : Mux :=
  match channels_ m !! id with
  | None => m
  | Some channel =>
      let m := (ResetChannel m id 1).1 in
      match on_terminal channel with
      | Some handler => emit (EvTerminal handler id kReadTimeoutReason) m
      | None => m
      end
  end.

Definition ExpireIdleReaders (m : Mux) (now_ms : Z) : Mux :=
  let expired := omap (fun '(id, c) => if (idle_scan now_ms c).2 then Some id else None)
                   (map_to_list (channels_ m)) in
  let m := m <| channels_ ::= fmap (fun c => (idle_scan now_ms c).1) |> in
  fold_left ExpireReader expired m.

Definition MuxTick (m : Mux) (now_ms : Z) : Mux :=
  let sweep c := c <| reassembly ::= fun r =>
    SweepExpired r now_ms (if lossy_ r then kLossyFragAssemblyTimeoutMs
                           else frag_assembly_timeout_ms (mux_tuning_ m)) |> in
  let m := m <| channels_ ::= fmap sweep |> in
  FlushQueued (ExpireIdleReaders m now_ms).

End ChannelMux.
