(* ===== verification/ChannelMuxFacts.v ===== *)
(** * Facts about the multiplexer's send side

    The invariant of its queues; the stream of a channel — what was handed to
    the transport followed by what waits —, which flushing leaves as it is and
    sending only extends; and, for every operation, what it leaves of a channel
    it does not name. *)

From S2P Require Import Prelude L1Types ChannelWire Capability MessageReassembly ChannelPolicy ChannelMux.

(** ** Wires of a channel *)

(** The channel id in a frame's header. *)
Definition wire_channel (wire : bytes) : Z := le_value (take 4 (drop 1 wire)).

Lemma wire_channel_header t id rest : is_u32 id -> wire_channel ([t] ++ le_bytes 4 id ++ rest) = id.
Proof.
  intros Hid. unfold wire_channel. change (drop 1 _) with (le_bytes 4 id ++ rest). rewrite take_app_length' by done.
  rewrite le_value_bytes. by apply Z.mod_small.
Qed.

Lemma EncodeFrag_channel h mid i n len ch wire :
  is_u32 (channel_id h) -> EncodeFrag h mid i n len ch = Ok wire -> wire_channel wire = channel_id h.
Proof.
  intros Hid He. unfold EncodeFrag in He. autorewrite with le in He. rewrite <- !app_assoc in He.
  apply Ok_inj in He as <-. by apply (wire_channel_header _ (channel_id h)).
Qed.

Lemma EncodeFrame_channel f wire :
  is_u32 (channel_id (fr_header f)) -> EncodeFrame f = Ok wire -> wire_channel wire = channel_id (fr_header f).
Proof.
  intros Hid He. unfold EncodeFrame in He. autorewrite with le in He.
  destruct (frame_type (fr_header f)).
  - destruct (EncodeLenUtf8Le _); [|done]. cbn [mbind result_bind] in He. autorewrite with le in He.
    rewrite <- !app_assoc in He. apply Ok_inj in He as <-. by apply (wire_channel_header _ (channel_id (fr_header f))).
  - rewrite <- !app_assoc in He. apply Ok_inj in He as <-. by apply (wire_channel_header _ (channel_id (fr_header f))).
  - rewrite <- !app_assoc in He. apply Ok_inj in He as <-. by apply (wire_channel_header _ (channel_id (fr_header f))).
  - destruct (fr_payload f); [|destruct (EncodeLenUtf8Le _); [|done]; cbn [mbind result_bind] in He];
      rewrite <- ?app_assoc in He; apply Ok_inj in He as <-; by apply (wire_channel_header _ (channel_id (fr_header f))).
  - rewrite <- !app_assoc in He. apply Ok_inj in He as <-. by apply (wire_channel_header _ (channel_id (fr_header f))).
  - eapply EncodeFrag_channel; eauto.
  - done.
Qed.

(** ** The frames of a message *)

Definition frame_wire (f : ChannelFrame) : bytes := frame_header_bytes (fr_header f) ++ frame_body f.

(** A payload cut into [n] chunks of [cb] bytes, the last one shorter. *)
Definition pieces (cb n : nat) (payload : bytes) : list bytes :=
  map (fun i => take cb (drop (i * cb) payload)) (List.seq 0 n).

Definition data_frame (c s : Z) (payload : bytes) : ChannelFrame :=
  frame_of (MkChannelHeader FrameData c s) <| fr_payload := payload |>.
Definition frag_frame (c s mid : Z) (l : list bytes) (i : nat) : ChannelFrame :=
  frame_of (MkChannelHeader FrameFrag c (u32 (s + Z.of_nat i))) <| fr_frag := fragment_of mid l i |>.

(** What [SendData] puts on the wire for a message when frames hold [mfb] bytes
    and the channel's next sequence number is [s]. *)
Definition fragment_bytes (mfb : Z) : Z := mfb - 25.
Definition fragments_needed (mfb : Z) (payload : bytes) : nat :=
  Z.to_nat ((size payload + fragment_bytes mfb - 1) `quot` fragment_bytes mfb).
Definition message_frames (mfb c s mid : Z) (payload : bytes) : list ChannelFrame :=
  if size payload <=? mfb - 9 then [data_frame c s payload]
  else let n := fragments_needed mfb payload in
       map (frag_frame c s mid (pieces (Z.to_nat (fragment_bytes mfb)) n payload)) (List.seq 0 n).

Lemma pieces_length cb n payload : length (pieces cb n payload) = n.
Proof. unfold pieces. by rewrite length_map, length_seq. Qed.

Lemma pieces_lookup cb n payload i :
  (i < n)%nat -> pieces cb n payload !! i = Some (take cb (drop (i * cb) payload)).
Proof.
  intros Hi. unfold pieces. rewrite list_lookup_fmap, lookup_seq_lt by done. done.
Qed.

Lemma pieces_concat cb n payload : (length payload <= n * cb)%nat -> concat (pieces cb n payload) = payload.
Proof.
  unfold pieces. intros Hn.
  assert (Hgen : forall k, concat (map (fun i => take cb (drop (i * cb) payload)) (List.seq k n))
                           = take (n * cb) (drop (k * cb) payload)).
  { clear Hn. induction n as [|n IH]; intros k; simpl; [done|]. rewrite IH. simpl (S k * cb)%nat.
    rewrite (Nat.add_comm cb (k * cb)), <- (drop_drop payload), take_take_drop. done. }
  rewrite Hgen. simpl. by rewrite drop_0, take_ge.
Qed.

(** The quotient rounds up: the last chunk is the one with the end in it. *)
Lemma fragments_needed_spec mfb payload :
  kMinFrameBytes <= mfb -> mfb - 9 < size payload ->
  let cb := Z.to_nat (fragment_bytes mfb) in
  let n := fragments_needed mfb payload in
  (0 < cb /\ 0 < n /\ (n - 1) * cb < length payload <= n * cb)%nat.
Proof.
  unfold fragments_needed, fragment_bytes, kMinFrameBytes, size. intros Hm Hs.
  set (d := mfb - 25). assert (Hd : 0 < d) by lia.
  rewrite Z.quot_div_nonneg by lia.
  pose proof (Z.mul_div_le (Z.of_nat (length payload) + d - 1) d Hd) as H1.
  pose proof (Z.mul_succ_div_gt (Z.of_nat (length payload) + d - 1) d Hd) as H2.
  set (q := (Z.of_nat (length payload) + d - 1) / d) in *.
  assert (Hq : 0 < q) by nia. cbv zeta.
  assert (Z.of_nat (Z.to_nat q * Z.to_nat d) = q * d) by (rewrite Nat2Z.inj_mul, !Z2Nat.id by lia; done).
  assert (Z.of_nat ((Z.to_nat q - 1) * Z.to_nat d) = (q - 1) * d).
  { rewrite Nat2Z.inj_mul, Nat2Z.inj_sub, !Z2Nat.id by lia. done. }
  split_and!; try lia; nia.
Qed.

Section Facts.
Context {T : Type} `{MuxTransport T}.
Abbreviation Mux := (ChannelMux T).

(** Frames handed to the transport for a channel, each with how, and its stream. *)
Definition handed_of (c : Z) (e : mux_event) : option (QosClass * bytes) :=
  match e with
  | EvSend qos wire _ => if wire_channel wire =? c then Some (qos, wire) else None
  | _ => None
  end.
Definition handed (c : Z) (m : Mux) : list (QosClass * bytes) := omap (handed_of c) (mux_log m).
Definition queued (c : Z) (m : Mux) : list bytes := default [] (send_queues_ m !! c).
Definition reliably (wires : list bytes) : list (QosClass * bytes) := map (pair Reliable) wires.
Definition stream (c : Z) (m : Mux) : list (QosClass * bytes) := handed c m ++ reliably (queued c m).

Definition queue_bytes (q : list bytes) : Z := foldr (fun f acc => size f + acc) 0 q.
Definition queued_total (queues : gmap Z (list bytes)) : Z := map_fold (fun _ q acc => queue_bytes q + acc) 0 queues.

Record mux_inv (m : Mux) : Prop := {
  mi_transport : transport_set m = true;
  mi_queues : map_Forall (fun c q => q <> [] /\ Forall (fun w => wire_channel w = c) q /\ c ∈ send_order_ m)
                (send_queues_ m);
  mi_bytes : queued_bytes_ m = queued_total (send_queues_ m);
  mi_room : queued_bytes_ m <= Z.max 0 (max_queued_bytes (mux_tuning_ m));
  mi_channels : map_Forall (fun id ch => ch_id ch = id /\ is_u32 id) (channels_ m);
  mi_frame : kMinFrameBytes <= max_frame_bytes_ m;
  mi_next : is_u32 (next_dynamic_id_ m);
  mi_msg : is_u64 (next_frag_msg_id_ m);
}.

Definition is_send (e : mux_event) : Prop := match e with EvSend _ _ _ => True | _ => False end.

(** [m'] is [m] but for what sending changes: the transport, the queues, the
    last class of service, and sends more in the log. *)
Definition unsent_part (m : Mux) :=
  (transport_set m, max_frame_bytes_ m, mux_tuning_ m, clock_now m, channels_ m, pending_handlers_ m,
   pending_terminal_handlers_ m, pending_open_data_ m, protocol_handlers_ m, next_dynamic_id_ m,
   next_frag_msg_id_ m, refuse_unhandled_opens_ m).
Definition only_sends (m m' : Mux) : Prop :=
  unsent_part m' = unsent_part m /\ exists l, Forall is_send l /\ mux_log m' = mux_log m ++ l.

#[export] Instance only_sends_preorder : PreOrder only_sends.
Proof.
  split.
  - intros m. split; [done|]. exists []. by rewrite app_nil_r.
  - intros m1 m2 m3 [H1 (l1 & Hl1 & Hlog1)] [H2 (l2 & Hl2 & Hlog2)]. split; [congruence|].
    exists (l1 ++ l2). split; [by apply Forall_app|]. by rewrite Hlog2, Hlog1, app_assoc.
Qed.

Lemma only_sends_channels m m' : only_sends m m' -> channels_ m' = channels_ m.
Proof. intros [Hu _]. unfold unsent_part in Hu. congruence. Qed.

(** *** Queue arithmetic *)

Lemma queue_bytes_nonneg q : 0 <= queue_bytes q.
Proof. induction q as [|w q IH]; simpl; [lia|]. pose proof (size_nonneg w). lia. Qed.
Lemma queue_bytes_app q k : queue_bytes (q ++ k) = queue_bytes q + queue_bytes k.
Proof. induction q as [|w q IH]; simpl; lia. Qed.

Lemma queued_total_insert qs c q : qs !! c = None -> queued_total (<[c := q]> qs) = queue_bytes q + queued_total qs.
Proof. intros Hc. unfold queued_total. rewrite map_fold_insert_L; [done|intros; lia|done]. Qed.
Lemma queued_total_delete qs c q : qs !! c = Some q -> queued_total (delete c qs) = queued_total qs - queue_bytes q.
Proof.
  intros Hc. rewrite <- (insert_delete_id qs c q Hc) at 2. rewrite queued_total_insert by apply lookup_delete_eq. lia.
Qed.
Lemma queued_total_replace qs c q q' : qs !! c = Some q ->
  queued_total (<[c := q']> qs) = queued_total qs - queue_bytes q + queue_bytes q'.
Proof.
  intros Hc. rewrite <- insert_delete_eq. rewrite queued_total_insert by apply lookup_delete_eq.
  rewrite (queued_total_delete _ _ _ Hc). lia.
Qed.
Lemma queued_total_nonneg qs : 0 <= queued_total qs.
Proof.
  revert qs. refine (map_ind _ _ _); [done|]. intros c q qs Hc IH. rewrite queued_total_insert by done.
  pose proof (queue_bytes_nonneg q). lia.
Qed.

(** *** Handing a frame over *)

Lemma handed_emit c m e : handed c (emit e m) = handed c m ++ option_list (handed_of c e).
Proof. unfold handed, emit. simpl. rewrite omap_app. simpl. by destruct (handed_of c e). Qed.

Lemma stream_same c (m m' : Mux) : mux_log m' = mux_log m -> send_queues_ m' = send_queues_ m -> stream c m' = stream c m.
Proof. intros Hl Hq. unfold stream, handed, queued. by rewrite Hl, Hq. Qed.

(** What [Transport] does: only the transport, the log and the last class move. *)
Lemma Transport_spec m qos wire m' res :
  transport_set m = true -> Transport m qos wire = (m', res) ->
  only_sends m m' /\ send_queues_ m' = send_queues_ m /\ send_order_ m' = send_order_ m
  /\ queued_bytes_ m' = queued_bytes_ m
  /\ mux_log m' = mux_log m ++ [EvSend qos wire (ok res)].
Proof.
  intros Ht Htr. unfold Transport in Htr. rewrite Ht in Htr. simpl negb in Htr. cbv iota zeta in Htr.
  destruct (transport_send _ _ _) as [t sent]. injection Htr as <- <-.
  split_and!; try done. split; [done|]. by exists [EvSend qos wire (ok sent)]; split; [repeat constructor|].
Qed.

(** The invariant reads the queues and what sending leaves. *)
Lemma mux_inv_only_sends m m' :
  mux_inv m -> only_sends m m' ->
  map_Forall (fun c q => q <> [] /\ Forall (fun w => wire_channel w = c) q /\ c ∈ send_order_ m') (send_queues_ m') ->
  queued_bytes_ m' = queued_total (send_queues_ m') ->
  queued_bytes_ m' <= Z.max 0 (max_queued_bytes (mux_tuning_ m)) ->
  mux_inv m'.
Proof.
  intros [Ht Hq Hb Hr Hc Hf Hn Hm] [Hu _] Hq' Hb' Hr'. unfold unsent_part in Hu.
  assert (transport_set m' = transport_set m) as E1 by congruence.
  assert (mux_tuning_ m' = mux_tuning_ m) as E2 by congruence.
  assert (channels_ m' = channels_ m) as E3 by congruence.
  assert (max_frame_bytes_ m' = max_frame_bytes_ m) as E4 by congruence.
  assert (next_dynamic_id_ m' = next_dynamic_id_ m) as E5 by congruence.
  assert (next_frag_msg_id_ m' = next_frag_msg_id_ m) as E6 by congruence.
  split; rewrite ?E1, ?E2, ?E3, ?E4, ?E5, ?E6; done.
Qed.

(** *** Flushing *)

(** A frame of the queue of [cid] handed over. *)
Lemma FlushOne_frame m cid order frame rest :
  mux_inv m -> send_order_ m = cid :: order -> send_queues_ m !! cid = Some (frame :: rest) ->
  let m' := FlushOne (m <| send_order_ := order |>) cid in
  only_sends m m'
  /\ send_queues_ m' = match rest with [] => delete cid (send_queues_ m) | _ => <[cid := rest]> (send_queues_ m) end
  /\ send_order_ m' = match rest with [] => order | _ => order ++ [cid] end
  /\ queued_bytes_ m' = queued_bytes_ m - size frame
  /\ exists sent, mux_log m' = mux_log m ++ [EvSend Reliable frame sent].
Proof.
  intros Hinv Ho Hq. unfold FlushOne. simpl (send_queues_ (_ <| send_order_ := order |>)). rewrite Hq.
  cbv zeta. set (m1 := _ <| queued_bytes_ ::= _ |>).
  destruct (Transport m1 Reliable frame) as [m2 res] eqn:Htr.
  destruct (Transport_spec m1 _ _ _ _ (mi_transport _ Hinv) Htr) as ([Hu Hl] & Hq2 & Ho2 & Hb2 & Hlog).
  simpl in Hq2, Ho2, Hb2, Hlog. cbn [fst].
  destruct rest as [|r rest].
  - split_and!; [split; [exact Hu|exact Hl]| |exact Ho2|exact Hb2|by eauto].
    simpl. rewrite Hq2. by rewrite delete_insert_eq.
  - split_and!; [split; [exact Hu|exact Hl]|exact Hq2| |exact Hb2|by eauto].
    simpl. by rewrite Ho2.
Qed.

Lemma FlushOne_spec m cid order :
  mux_inv m -> send_order_ m = cid :: order ->
  let m' := FlushOne (m <| send_order_ := order |>) cid in
  mux_inv m' /\ only_sends m m' /\ (forall c, stream c m' = stream c m)
  /\ (QueuedFrameCount m' + length (send_order_ m') < QueuedFrameCount m + length (send_order_ m))%nat.
Proof.
  intros Hinv Ho. pose proof (mi_queues _ Hinv) as Hqs. cbv zeta.
  destruct (send_queues_ m !! cid) as [[|frame rest]|] eqn:Hq.
  - by destruct (proj1 (Hqs _ _ Hq)).
  - destruct (FlushOne_frame m cid order frame rest Hinv Ho Hq) as (Hsend & Hq' & Ho' & Hb' & sent & Hlog').
    set (m' := FlushOne _ _) in *. destruct (Hqs _ _ Hq) as (_ & Hw & _).
    apply Forall_cons in Hw as [Hwf Hwr].
    split_and!; [|done| |].
    + apply (mux_inv_only_sends m m' Hinv Hsend).
      * rewrite Hq', Ho'. intros c q Hc.
        assert (Hcase : c = cid /\ q = rest /\ rest <> [] \/ c <> cid /\ send_queues_ m !! c = Some q).
        { destruct rest; [apply lookup_delete_Some in Hc as [? Hc]; auto|].
          apply lookup_insert_Some in Hc as [[<- <-]|[? Hc]]; auto. }
        destruct Hcase as [(-> & -> & Hne)|[Hne Hc']].
        -- split_and!; try done. destruct rest; [done|]. set_solver.
        -- destruct (Hqs _ _ Hc') as (H1 & H2 & H3). split_and!; try done. rewrite Ho in H3. destruct rest; set_solver.
      * rewrite Hb', Hq', (mi_bytes _ Hinv). destruct rest.
        -- rewrite (queued_total_delete _ _ _ Hq). simpl. lia.
        -- rewrite (queued_total_replace _ _ _ _ Hq). simpl. lia.
      * rewrite Hb'. pose proof (size_nonneg frame). pose proof (mi_room _ Hinv). lia.
    + intros c. unfold stream, handed, queued. rewrite Hlog', Hq', omap_app, <- app_assoc. f_equal. simpl.
      destruct (Z.eqb_spec (wire_channel frame) c) as [Hc|Hc]; rewrite Hwf in Hc.
      * subst c. rewrite Hq. simpl. destruct rest; [by rewrite lookup_delete_eq|by rewrite lookup_insert_eq].
      * simpl. destruct rest; [by rewrite lookup_delete_ne|by rewrite lookup_insert_ne].
    + unfold QueuedFrameCount. rewrite Hq', Ho', Ho.
      rewrite (map_fold_delete_L _ _ cid (frame :: rest) (send_queues_ m)); [|intros; lia|done].
      destruct rest as [|r rest]; [simpl; lia|].
      rewrite <- insert_delete_eq, map_fold_insert_L; [|intros; lia|apply lookup_delete_eq].
      rewrite length_app. simpl. lia.
  - unfold FlushOne. simpl (send_queues_ (_ <| send_order_ := order |>)). rewrite Hq. split_and!.
    + apply (mux_inv_only_sends m); [done| | |apply Hinv|apply Hinv].
      * split; [done|]. exists []. by rewrite app_nil_r.
      * intros c q Hc. simpl in Hc. destruct (Hqs _ _ Hc) as (H1 & H2 & H3). split_and!; try done.
        simpl. rewrite Ho in H3. apply elem_of_cons in H3 as [->|H3]; [congruence|done].
    + split; [done|]. exists []. by rewrite app_nil_r.
    + done.
    + rewrite Ho. simpl. unfold QueuedFrameCount. simpl. lia.
Qed.

(** The loop runs out of frames or of credit, never of fuel. *)
Definition flushed (m : Mux) : Prop := send_order_ m = [] \/ HasReliableCredit m = false.

Lemma flush_loop_spec fuel m :
  mux_inv m -> (flush_fuel m <= fuel)%nat ->
  let m' := flush_loop fuel m in
  mux_inv m' /\ only_sends m m' /\ (forall c, stream c m' = stream c m) /\ flushed m'.
Proof.
  revert m. induction fuel as [|fuel IH]; intros m Hinv Hfuel; cbn [flush_loop].
  - split_and!; try done. left. unfold flush_fuel in Hfuel. destruct (send_order_ m); [done|simpl in Hfuel; lia].
  - destruct (send_order_ m) as [|cid order] eqn:Ho; [by split_and!; [..|left]|].
    destruct (HasReliableCredit m) eqn:Hcr; [|by split_and!; [..|right]].
    destruct (FlushOne_spec m cid order Hinv Ho) as (Hinv1 & Hs1 & Hst1 & Hlt).
    destruct (IH _ Hinv1) as (Hinv2 & Hs2 & Hst2 & Hfl).
    { unfold flush_fuel in *. rewrite Ho in *. lia. }
    split_and!; try done; [by etrans|]. intros c. by rewrite Hst2, Hst1.
Qed.

Lemma FlushQueued_spec m :
  mux_inv m ->
  mux_inv (FlushQueued m) /\ only_sends m (FlushQueued m) /\ (forall c, stream c (FlushQueued m) = stream c m)
  /\ flushed (FlushQueued m).
Proof. intros Hinv. by apply flush_loop_spec. Qed.

(** ** Sending one frame *)

Lemma only_sends_eq m m' : only_sends m m' ->
  channels_ m' = channels_ m /\ max_frame_bytes_ m' = max_frame_bytes_ m /\ transport_set m' = transport_set m
  /\ pending_open_data_ m' = pending_open_data_ m /\ mux_tuning_ m' = mux_tuning_ m
  /\ next_frag_msg_id_ m' = next_frag_msg_id_ m.
Proof. intros [Hu _]. unfold unsent_part in Hu. split_and!; congruence. Qed.

Lemma stream_handed c m m' w :
  send_queues_ m' = send_queues_ m -> mux_log m' = mux_log m ++ w ->
  stream c m' = handed c m ++ omap (handed_of c) w ++ reliably (queued c m).
Proof. intros Hq Hl. unfold stream, handed, queued. by rewrite Hq, Hl, omap_app, <- app_assoc. Qed.

Lemma handed_of_send c qos wire sent :
  handed_of c (EvSend qos wire sent)
  = if wire_channel wire =? c then Some (qos, wire) else None.
Proof. done. Qed.

Lemma SendWire_spec m c qos wire m' res :
  mux_inv m -> wire_channel wire = c -> SendWire m c qos wire = (m', res) ->
  mux_inv m' /\ only_sends m m'
  /\ (forall c', c' <> c -> stream c' m' = stream c' m)
  /\ (qos = Reliable -> ok res = true -> stream c m' = stream c m ++ reliably [wire]).
Proof.
  intros Hinv Hwire Hs. unfold SendWire in Hs.
  assert (Htr : forall m0 m1, mux_inv m0 -> Transport m0 qos wire = (m1, res) ->
    mux_inv m1 /\ only_sends m0 m1 /\ (forall c', c' <> c -> stream c' m1 = stream c' m0)
    /\ (queued c m0 = [] -> qos = Reliable -> stream c m1 = stream c m0 ++ reliably [wire])).
  { intros m0 m1 Hinv0 Htr. destruct (Transport_spec _ _ _ _ _ (mi_transport _ Hinv0) Htr) as (Hos & Hq & Ho & Hb & Hl).
    split_and!; [|done| |].
    - apply (mux_inv_only_sends m0); rewrite ?Hq, ?Ho, ?Hb; try done; apply Hinv0.
    - intros c' Hc'. rewrite (stream_handed c' m0 m1 _ Hq Hl). unfold stream. f_equal.
      cbn [omap list_omap]. rewrite handed_of_send, Hwire.
      by rewrite (proj2 (Z.eqb_neq c c')) by congruence.
    - intros Hqe ->. rewrite (stream_handed c m0 m1 _ Hq Hl). unfold stream. rewrite Hqe.
      cbn [omap list_omap]. rewrite handed_of_send, Hwire, Z.eqb_refl. simpl. by rewrite !app_nil_r. }
  case_bool_decide as Hqos; cbn [negb] in Hs.
  2:{ destruct (Htr m m' Hinv Hs) as (? & ? & ? & _). by split_and!. }
  destruct (FlushQueued_spec m Hinv) as (Hinv1 & Hs1 & Hst1 & _). set (m1 := FlushQueued m) in *.
  change (default [] (send_queues_ m1 !! c)) with (queued c m1) in Hs.
  destruct (negb (negb _) && HasReliableCredit m1) eqn:Hdirect.
  { apply andb_true_iff in Hdirect as [Hempty _]. rewrite negb_involutive in Hempty.
    apply bool_decide_eq_true in Hempty.
    destruct (Htr m1 m' Hinv1 Hs) as (? & ? & Hoth & Hown). split_and!; [done|by etrans| |].
    - intros c' Hc'. by rewrite Hoth, Hst1.
    - intros. by rewrite Hown, Hst1. }
  destruct (Z.ltb_spec (max_queued_bytes (mux_tuning_ m1)) (queued_bytes_ m1 + size wire)) as [|Hroom].
  { injection Hs as <- <-. by split_and!. }
  injection Hs as <- <-.
  set (m2 := set_field send_queues_ _ _).
  assert (Hq2 : send_queues_ m2 = <[c := queued c m1 ++ [wire]]> (send_queues_ m1)) by (by case_bool_decide).
  assert (Ho2 : send_order_ m2 = if bool_decide (queued c m1 = []) then send_order_ m1 ++ [c] else send_order_ m1)
    by (by subst m2; case_bool_decide).
  assert (Hb2 : queued_bytes_ m2 = queued_bytes_ m1 + size wire) by (by subst m2; case_bool_decide).
  assert (Hl2 : mux_log m2 = mux_log m1) by (by subst m2; case_bool_decide).
  assert (Hs2 : only_sends m1 m2).
  { split; [by subst m2; case_bool_decide|]. exists []. by rewrite app_nil_r. }
  clearbody m2. pose proof (mi_queues _ Hinv1) as Hqs.
  assert (Htot : queued_total (send_queues_ m2) = queued_total (send_queues_ m1) + size wire).
  { rewrite Hq2. unfold queued. destruct (send_queues_ m1 !! c) as [q|] eqn:Hq; cbn [default from_option].
    - rewrite (queued_total_replace _ _ _ _ Hq), queue_bytes_app. simpl. lia.
    - rewrite queued_total_insert by done. simpl. lia. }
  split_and!; [|by etrans| |].
  - apply (mux_inv_only_sends m1); [done|done| | |].
    + rewrite Hq2, Ho2. intros c' q [[<- <-]|[Hne Hc']]%lookup_insert_Some.
      * split_and!; [by destruct (queued c m1)| |].
        -- apply Forall_app. split; [|by constructor]. unfold queued.
           destruct (send_queues_ m1 !! c) eqn:Hq; [|done]. by destruct (Hqs _ _ Hq) as (_ & ? & _).
        -- case_bool_decide as He; [set_solver|]. unfold queued in He.
           destruct (send_queues_ m1 !! c) as [q|] eqn:Hq; [|done]. by destruct (Hqs _ _ Hq) as (_ & _ & ?).
      * destruct (Hqs _ _ Hc') as (? & ? & ?). split_and!; try done. case_bool_decide; set_solver.
    + by rewrite Hb2, Htot, (mi_bytes _ Hinv1).
    + rewrite Hb2. lia.
  - intros c' Hc'. rewrite <- Hst1. unfold stream, handed, queued. rewrite Hl2, Hq2.
    by rewrite lookup_insert_ne.
  - intros _ _. rewrite <- Hst1. unfold stream, handed. rewrite Hl2, <- app_assoc. f_equal.
    unfold queued at 1, reliably. by rewrite Hq2, lookup_insert_eq, <- map_app.
Qed.

Lemma SendFrame_spec m frame p m' res :
  mux_inv m -> is_u32 (channel_id (fr_header frame)) -> SendFrame m frame p = (m', res) ->
  let c := channel_id (fr_header frame) in
  mux_inv m' /\ only_sends m m' /\ (forall c', c' <> c -> stream c' m' = stream c' m)
  /\ (QosForClass (cls p) = Reliable -> ok res = true ->
      exists wire, EncodeFrame frame = Ok wire /\ stream c m' = stream c m ++ reliably [wire]).
Proof.
  intros Hinv Hid Hs. unfold SendFrame in Hs. rewrite (mi_transport _ Hinv) in Hs. cbn [negb] in Hs.
  destruct (EncodeFrame frame) as [wire|] eqn:He; [|injection Hs as <- <-; by split_and!].
  apply EncodeFrame_channel in He as Hw; [|done].
  destruct (SendWire_spec _ _ _ _ _ _ Hinv Hw Hs) as (H1 & H2 & H3 & H4). split_and!; [done|done|by auto|].
  intros Hq Hok. exists wire. by rewrite H4.
Qed.

(** ** Sending a message *)

Lemma EncodeData c s payload : EncodeFrame (data_frame c s payload) = Ok (frame_wire (data_frame c s payload)).
Proof.
  unfold EncodeFrame, frame_wire, data_frame, frame_header_bytes. autorewrite with le.
  by rewrite <- !app_assoc.
Qed.

Lemma EncodeFrag_frame c s mid l i :
  EncodeFrag (MkChannelHeader FrameFrag c (u32 (s + Z.of_nat i))) mid (Z.of_nat i) (size l) (size (concat l))
    (default [] (l !! i)) = Ok (frame_wire (frag_frame c s mid l i)).
Proof. unfold EncodeFrag. autorewrite with le. unfold frame_wire, frame_header_bytes. by rewrite <- !app_assoc. Qed.

(** What sending leaves of the rest. *)
Definition sent_rest (c : Z) (m m' : Mux) : Prop :=
  mux_inv m' /\ (forall c', c' <> c -> stream c' m' = stream c' m /\ channels_ m' !! c' = channels_ m !! c')
  /\ pending_open_data_ m' = pending_open_data_ m /\ max_frame_bytes_ m' = max_frame_bytes_ m
  /\ mux_tuning_ m' = mux_tuning_ m.

Lemma sent_rest_trans c m1 m2 m3 : sent_rest c m1 m2 -> sent_rest c m2 m3 -> sent_rest c m1 m3.
Proof.
  intros (H1 & H2 & H3 & H4 & H5) (J1 & J2 & J3 & J4 & J5). split_and!; [done| |congruence|congruence|congruence].
  intros c' Hc. destruct (H2 c' Hc), (J2 c' Hc). split; congruence.
Qed.

Lemma sent_rest_only c m m' :
  mux_inv m' -> only_sends m m' -> (forall c', c' <> c -> stream c' m' = stream c' m) -> sent_rest c m m'.
Proof.
  intros Hinv Hs Hst. apply only_sends_eq in Hs as (E1 & E2 & E3 & E4 & E5 & E6).
  split_and!; try done. intros c' Hc. split; [by auto|congruence].
Qed.

Lemma update_channel_inv m id f :
  mux_inv m -> (forall ch, ch_id (f ch) = ch_id ch) -> mux_inv (update_channel id f m).
Proof.
  intros [Ht Hq Hb Hr Hc Hf Hn Hm] Hid. split; try done. intros c ch Hl. simpl in Hl.
  apply lookup_alter_Some in Hl as [(-> & ch0 & Hl & ->)|[_ Hl]]; [|by apply Hc].
  rewrite Hid. by apply (Hc c ch0).
Qed.

Lemma sent_rest_update c m f :
  mux_inv m -> (forall ch, ch_id (f ch) = ch_id ch) -> sent_rest c m (update_channel c f m).
Proof.
  intros Hinv Hid. split_and!; try done; [by apply update_channel_inv|].
  intros c' Hc. split; [done|]. simpl. by rewrite lookup_alter_ne.
Qed.

(** [n] fragments from the [i]th, the message's first having number [s]. *)
Lemma send_fragments_spec n : forall i m c ch s mid l cb payload m' res,
  mux_inv m -> channels_ m !! c = Some ch -> is_u32 c -> tx_seq ch = u32 (s + Z.of_nat i) ->
  (0 < cb)%nat -> l = pieces cb (i + n) payload -> size (concat l) = u32 (size payload) ->
  send_fragments n (Z.of_nat i) m c Reliable mid (Z.of_nat (i + n)) (Z.of_nat cb) payload = (m', res) ->
  sent_rest c m m'
  /\ (ok res = true ->
      channels_ m' !! c = Some (ch <| tx_seq := u32 (s + Z.of_nat (i + n)) |>)
      /\ stream c m' = stream c m ++ reliably (map (fun j => frame_wire (frag_frame c s mid l j)) (List.seq i n))).
Proof.
  induction n as [|n IH]; intros i m c ch s mid l cb payload m' res Hinv Hch Hid Htx Hcb Hl Hlen Hs;
    cbn [send_fragments] in Hs.
  { injection Hs as <- <-. split; [by split_and!|]. intros _. simpl. rewrite app_nil_r, Nat.add_0_r.
    split; [|done]. rewrite Hch, <- Htx. by destruct ch. }
  rewrite Hch in Hs. cbv zeta in Hs.
  assert (Hchunk : take (Z.to_nat (Z.min (Z.of_nat cb) (size payload - Z.of_nat i * Z.of_nat cb)))
                     (drop (Z.to_nat (Z.of_nat i * Z.of_nat cb)) payload) = default [] (l !! i)).
  { rewrite Hl, pieces_lookup by lia. cbn [default from_option].
    replace (Z.to_nat (Z.of_nat i * Z.of_nat cb)) with (i * cb)%nat by lia.
    destruct (Z.min_spec (Z.of_nat cb) (size payload - Z.of_nat i * Z.of_nat cb)) as [[? ->]|[? ->]].
    - by rewrite Nat2Z.id.
    - unfold size in *. rewrite !take_ge; rewrite ?length_drop; try done; lia. }
  rewrite Hchunk, Htx, <- Hlen in Hs.
  assert (Hn : Z.of_nat (i + S n) = size l) by (rewrite Hl; unfold size; by rewrite pieces_length).
  rewrite Hn, EncodeFrag_frame in Hs.
  set (wire := frame_wire (frag_frame c s mid l i)) in *.
  destruct (SendWire m c Reliable wire) as [m1 sent] eqn:Hsw.
  assert (Hwire : wire_channel wire = c).
  { eapply (EncodeFrag_channel (MkChannelHeader FrameFrag c _)); [exact Hid|apply EncodeFrag_frame]. }
  destruct (SendWire_spec _ _ _ _ _ _ Hinv Hwire Hsw) as (Hinv1 & Hos & Hoth & Hown).
  assert (Hrest1 : sent_rest c m m1) by (apply sent_rest_only; auto).
  destruct sent as [[]|e]; [|injection Hs as <- <-; by split].
  assert (Hch1 : channels_ m1 !! c = Some ch) by (by rewrite (only_sends_channels m m1 Hos)).
  rewrite Hch1 in Hs. case_bool_decide; [|injection Hs as <- <-; by split].
  set (m2 := update_channel _ _ _) in Hs.
  assert (Hrest2 : sent_rest c m1 m2) by (by apply sent_rest_update).
  replace (Z.of_nat i + 1) with (Z.of_nat (S i)) in Hs by lia.
  rewrite <- Hn in Hs. replace (i + S n)%nat with (S i + n)%nat in Hs, Hl |- * by lia.
  eapply (IH (S i) m2 c (ch <| tx_seq ::= fun x => u32 (x + 1) |>) s mid l cb payload m' res) in Hs
    as [Hrest3 Hok]; try done.
  - split; [by eapply sent_rest_trans; [exact Hrest1|eapply sent_rest_trans; [exact Hrest2|]]|].
    intros Hres. destruct (Hok Hres) as [Hc' Hst']. split; [by rewrite Hc'|].
    rewrite Hst'. change (stream c m2) with (stream c m1). rewrite Hown by done. by rewrite <- app_assoc.
  - apply Hrest2.
  - simpl. by rewrite lookup_alter_eq, Hch1.
  - simpl. rewrite Htx. unfold u32. rewrite Zplus_mod_idemp_l. f_equal. lia.
Qed.

Lemma SendData_spec m c ch payload m' res :
  mux_inv m -> channels_ m !! c = Some ch -> is_u32 c -> QosForClass (cls (policy ch)) = Reliable ->
  is_u32 (tx_seq ch) -> policy_max_message_bytes (policy ch) < 2 ^ 32 ->
  SendData m c payload = (m', res) ->
  sent_rest c m m'
  /\ (ok res = true ->
      let frames := message_frames (max_frame_bytes_ m) c (tx_seq ch) (next_frag_msg_id_ m) payload in
      size payload <= policy_max_message_bytes (policy ch)
      /\ (max_frame_bytes_ m - 9 < size payload -> Z.of_nat (fragments_needed (max_frame_bytes_ m) payload) < 2 ^ 16)
      /\ channels_ m' !! c = Some (ch <| tx_seq := u32 (tx_seq ch + size frames) |>)
      /\ stream c m' = stream c m ++ reliably (map frame_wire frames)).
Proof.
  intros Hinv Hch Hid Hqos Htx Hpol Hs. unfold SendData in Hs. rewrite Hch in Hs.
  case_bool_decide as Hopen; cbn [negb] in Hs; [|injection Hs as <- <-; by split; [split_and!|]].
  destruct (Z.ltb_spec (policy_max_message_bytes (policy ch)) (size payload)) as [|Hsz];
    [injection Hs as <- <-; by split; [split_and!|]|].
  change (Z.of_nat kChannelHeaderBytes) with 9 in Hs. unfold message_frames.
  destruct (Z.leb_spec (size payload) (max_frame_bytes_ m - 9)) as [Hsmall|Hbig].
  - change (frame_of _ <| fr_payload := payload |>) with (data_frame c (tx_seq ch) payload) in Hs.
    destruct (SendFrame _ _ _) as [m1 sent] eqn:Hsf.
    destruct (SendFrame_spec m (data_frame c (tx_seq ch) payload) _ _ _ Hinv Hid Hsf) as (Hinv1 & Hos & Hoth & Hown).
    assert (Hrest1 : sent_rest c m m1) by (by apply sent_rest_only).
    destruct sent as [[]|e]; injection Hs as <- <-; [|by split].
    split; [eapply sent_rest_trans; [exact Hrest1|by apply sent_rest_update]|]. intros _.
    split_and!; [done|lia| |].
    + simpl. by rewrite lookup_alter_eq, (only_sends_channels m m1 Hos), Hch.
    + destruct (Hown Hqos eq_refl) as (wire & He & Hst). rewrite EncodeData in He. apply Ok_inj in He as <-. exact Hst.
  - unfold SendFragmented in Hs. change (Z.of_nat kChannelHeaderBytes) with 9 in Hs.
    change (Z.of_nat kChannelFragFieldsBytes) with 16 in Hs.
    replace (max_frame_bytes_ m - 9 - 16) with (fragment_bytes (max_frame_bytes_ m)) in Hs
      by (unfold fragment_bytes; lia).
    destruct (fragments_needed_spec _ _ (mi_frame _ Hinv) Hbig) as (Hcb & Hn0 & Hlt & Hle).
    set (n := fragments_needed _ _) in *. set (cb := Z.to_nat (fragment_bytes _)) in *.
    assert (Hneed : (size payload + fragment_bytes (max_frame_bytes_ m) - 1) `quot` fragment_bytes (max_frame_bytes_ m)
                    = Z.of_nat n) by (unfold n, fragments_needed in *; lia).
    rewrite Hneed in Hs. destruct (Z.ltb_spec kMaxFragmentsPerMessage (Z.of_nat n)) as [|Hmax];
      [injection Hs as <- <-; by split; [split_and!|]|].
    unfold kMaxFragmentsPerMessage in Hmax.
    set (m0 := m <| next_frag_msg_id_ ::= _ |>) in Hs.
    assert (Hrest0 : sent_rest c m m0) by (split_and!; try done; destruct Hinv; split; try done; apply u64_range).
    rewrite Hqos in Hs. rewrite bool_decide_true in Hs by done. rewrite andb_true_l in Hs.
    destruct (_ <? _) in Hs; [injection Hs as <- <-; by split|].
    rewrite (u16_id (Z.of_nat n)) in Hs by (unfold is_u16; lia). rewrite Nat2Z.id in Hs.
    assert (Hcat : concat (pieces cb n payload) = payload) by (by apply pieces_concat).
    replace (fragment_bytes (max_frame_bytes_ m)) with (Z.of_nat cb) in Hs by (unfold cb in *; lia).
    eapply (send_fragments_spec n 0 m0 c ch (tx_seq ch) _ (pieces cb n payload) cb payload m' res) in Hs
      as [Hrest1 Hok]; try done.
    + split; [exact (sent_rest_trans _ _ _ _ Hrest0 Hrest1)|]. intros Hres. destruct (Hok Hres) as [Hc' Hst'].
      split_and!; [done|lia| |].
      * rewrite Hc'. unfold size. by rewrite length_map, length_seq.
      * rewrite Hst', map_map. done.
    + by apply Hrest0.
    + rewrite Z.add_0_r. symmetry. by apply u32_id.
    + rewrite Hcat. symmetry. apply u32_id. unfold is_u32. pose proof (size_nonneg payload). lia.
Qed.

(** ** What operations leave of a channel *)

(** [c] keeps its sequence number and its stream, as long as it is there. *)
Definition kept (c : Z) (m m' : Mux) : Prop :=
  mux_inv m' /\ (pending_open_data_ m !! c = None -> pending_open_data_ m' !! c = None)
  /\ forall ch', channels_ m' !! c = Some ch' ->
       exists ch, channels_ m !! c = Some ch /\ tx_seq ch' = tx_seq ch /\ stream c m' = stream c m.

Lemma kept_refl c m : mux_inv m -> kept c m m.
Proof. intros Hinv. split_and!; try done. by eauto. Qed.
Lemma kept_trans c m1 m2 m3 : kept c m1 m2 -> kept c m2 m3 -> kept c m1 m3.
Proof.
  intros (H1 & H2 & H3) (J1 & J2 & J3). split_and!; [done|by auto|]. intros ch3 Hc3.
  destruct (J3 _ Hc3) as (ch2 & Hc2 & Ht2 & Hs2). destruct (H3 _ Hc2) as (ch1 & Hc1 & Ht1 & Hs1).
  exists ch1. split_and!; congruence.
Qed.

Lemma kept_other c id m m' : sent_rest id m m' -> id <> c -> kept c m m'.
Proof.
  intros (H1 & H2 & H3 & _) Hne. split_and!; [done|by rewrite H3|].
  destruct (H2 c) as [Hs Hc]; [done|]. rewrite Hc. by eauto.
Qed.

Lemma kept_gone c m m' : mux_inv m' -> (pending_open_data_ m !! c = None -> pending_open_data_ m' !! c = None) ->
  channels_ m' !! c = None -> kept c m m'.
Proof. intros Hinv Hp Hc. split_and!; [done|done|]. by rewrite Hc. Qed.

(** A step that leaves the send side alone. *)
Definition send_side (m : Mux) :=
  (transport_set m, send_queues_ m, send_order_ m, queued_bytes_ m, mux_tuning_ m, next_frag_msg_id_ m).

Lemma mux_inv_send_side m m' :
  mux_inv m -> send_side m' = send_side m -> kMinFrameBytes <= max_frame_bytes_ m' -> is_u32 (next_dynamic_id_ m') ->
  map_Forall (fun id ch => ch_id ch = id /\ is_u32 id) (channels_ m') -> mux_inv m'.
Proof.
  intros [Ht Hq Hb Hr Hc Hf Hn Hm] Hs Hf' Hn' Hc'. unfold send_side in Hs.
  assert (transport_set m' = transport_set m) as E1 by congruence.
  assert (send_queues_ m' = send_queues_ m) as E2 by congruence.
  assert (send_order_ m' = send_order_ m) as E3 by congruence.
  assert (queued_bytes_ m' = queued_bytes_ m) as E4 by congruence.
  assert (mux_tuning_ m' = mux_tuning_ m) as E5 by congruence.
  assert (next_frag_msg_id_ m' = next_frag_msg_id_ m) as E6 by congruence.
  split; rewrite ?E1, ?E2, ?E3, ?E4, ?E5, ?E6; done.
Qed.

Lemma kept_emit c m e : mux_inv m -> (match e with EvSend _ _ _ => False | _ => True end) -> kept c m (emit e m).
Proof.
  intros Hinv He. split_and!; [by eapply mux_inv_send_side; [exact Hinv|done|apply Hinv..]|done|].
  intros ch Hc. exists ch. split_and!; try done. unfold stream, queued. rewrite handed_emit.
  replace (handed_of c e) with (@None (QosClass * bytes)) by (by destruct e). by rewrite app_nil_r.
Qed.

Lemma kept_update c m id f :
  mux_inv m -> (forall ch, ch_id (f ch) = ch_id ch) -> (forall ch, tx_seq (f ch) = tx_seq ch) ->
  kept c m (update_channel id f m).
Proof.
  intros Hinv Hid Htx. split_and!; [by apply update_channel_inv|done|]. simpl. intros ch' Hc.
  apply lookup_alter_Some in Hc as [(-> & ch & Hc & ->)|[_ Hc]]; eauto.
Qed.

Lemma kept_delete c m id : mux_inv m -> kept c m (m <| channels_ ::= delete id |>).
Proof.
  intros Hinv. split_and!; [|done|].
  - eapply mux_inv_send_side; [exact Hinv|done|apply Hinv|apply Hinv|].
    intros i ch Hc. simpl in Hc. apply lookup_delete_Some in Hc as [_ Hc]. by apply Hinv.
  - simpl. intros ch' [_ Hc]%lookup_delete_Some. eauto.
Qed.

Lemma kept_insert c m id ch ch' :
  mux_inv m -> channels_ m !! id = Some ch -> ch_id ch' = ch_id ch -> tx_seq ch' = tx_seq ch ->
  kept c m (m <| channels_ ::= insert id ch' |>).
Proof.
  intros Hinv Hch Hid Htx. split_and!; [|done|].
  - eapply mux_inv_send_side; [exact Hinv|done|apply Hinv|apply Hinv|].
    intros i x Hc. simpl in Hc. apply lookup_insert_Some in Hc as [[<- <-]|[_ Hc]]; [|by apply Hinv].
    rewrite Hid. by apply Hinv.
  - simpl. intros x Hc. apply lookup_insert_Some in Hc as [[<- <-]|[_ Hc]]; eauto.
Qed.

Lemma kept_insert_new c m id ch' :
  mux_inv m -> id <> c -> ch_id ch' = id -> is_u32 id -> kept c m (m <| channels_ ::= insert id ch' |>).
Proof.
  intros Hinv Hne Hid Hu. split_and!; [|done|].
  - eapply mux_inv_send_side; [exact Hinv|done|apply Hinv|apply Hinv|].
    intros i x Hc. simpl in Hc. apply lookup_insert_Some in Hc as [[<- <-]|[_ Hc]]; [done|by apply Hinv].
  - simpl. intros x Hc. apply lookup_insert_Some in Hc as [[<- <-]|[_ Hc]]; [done|eauto].
Qed.

(** A step that leaves the send side, the log and the channels alone. *)
Lemma kept_side c m m' :
  mux_inv m -> send_side m' = send_side m -> channels_ m' = channels_ m -> mux_log m' = mux_log m ->
  kMinFrameBytes <= max_frame_bytes_ m' -> is_u32 (next_dynamic_id_ m') ->
  (pending_open_data_ m !! c = None -> pending_open_data_ m' !! c = None) -> kept c m m'.
Proof.
  intros Hinv Hs Hc Hl Hf Hn Hp. split_and!; [|done|].
  - eapply mux_inv_send_side; [exact Hinv|done|done|done|]. rewrite Hc. apply Hinv.
  - rewrite Hc. intros ch Hch. exists ch. split_and!; try done. apply stream_same; [done|].
    unfold send_side in Hs. congruence.
Qed.

Lemma send_fragments_rest n : forall i m c qos mid count cb payload,
  mux_inv m -> is_u32 c -> sent_rest c m (send_fragments n i m c qos mid count cb payload).1.
Proof.
  induction n as [|n IH]; intros i m c qos mid count cb payload Hinv Hid; cbn [send_fragments]; [by split_and!|].
  destruct (channels_ m !! c) as [ch|]; [|by split_and!]. cbv zeta.
  destruct (EncodeFrag _ _ _ _ _ _) as [wire|] eqn:He; [|by split_and!].
  apply EncodeFrag_channel in He as Hw; [|exact Hid]. simpl in Hw.
  destruct (SendWire m c qos wire) as [m1 sent] eqn:Hsw.
  destruct (SendWire_spec _ _ _ _ _ _ Hinv Hw Hsw) as (Hinv1 & Hos & Hoth & _).
  assert (Hr1 : sent_rest c m m1) by (apply sent_rest_only; auto).
  destruct sent; [|done]. destruct (channels_ m1 !! c) as [ch1|]; [|done]. case_bool_decide; [|done].
  eapply sent_rest_trans; [exact Hr1|].
  apply (sent_rest_trans _ _ (update_channel c (fun c => c <| tx_seq ::= fun s => u32 (s + 1) |>) m1));
    [by apply sent_rest_update|].
  apply IH; [apply (update_channel_inv m1 c); [exact Hinv1|done]|done].
Qed.

Lemma SendData_rest m c payload : mux_inv m -> is_u32 c -> sent_rest c m (SendData m c payload).1.
Proof.
  intros Hinv Hid. unfold SendData. destruct (channels_ m !! c) as [ch|]; [|by split_and!].
  destruct (negb _); [by split_and!|]. destruct (_ <? _); [by split_and!|].
  destruct (_ <=? _).
  - destruct (SendFrame _ _ _) as [m1 sent] eqn:Hsf.
    change (frame_of _ <| fr_payload := payload |>) with (data_frame c (tx_seq ch) payload) in Hsf.
    destruct (SendFrame_spec m (data_frame c (tx_seq ch) payload) _ _ _ Hinv Hid Hsf) as (Hinv1 & Hos & Hoth & _).
    assert (Hr1 : sent_rest c m m1) by (by apply sent_rest_only).
    destruct sent; [|done]. eapply sent_rest_trans; [exact Hr1|].
    apply (sent_rest_update c m1); [exact Hinv1|done].
  - unfold SendFragmented. destruct (_ <? _); [by split_and!|]. set (m0 := m <| next_frag_msg_id_ ::= _ |>).
    assert (Hr0 : sent_rest c m m0) by (split_and!; try done; destruct Hinv; split; try done; apply u64_range).
    destruct (_ && _); [done|]. eapply sent_rest_trans; [exact Hr0|]. by apply send_fragments_rest; [apply Hr0|].
Qed.

Lemma DropQueued_inv m id : mux_inv m -> mux_inv (DropQueued m id).
Proof.
  intros Hinv. unfold DropQueued. destruct (send_queues_ m !! id) as [q|] eqn:Hq; [|done].
  destruct Hinv as [Ht Hqs Hb Hr Hc Hf Hn Hm]. split; simpl; try done.
  - intros i x [_ Hi]%lookup_delete_Some. by apply Hqs.
  - rewrite (queued_total_delete _ _ _ Hq), Hb. done.
  - pose proof (queue_bytes_nonneg q) as Hnn. unfold queue_bytes in Hnn. lia.
Qed.

Lemma DropQueued_same m id : channels_ (DropQueued m id) = channels_ m
  /\ pending_open_data_ (DropQueued m id) = pending_open_data_ m
  /\ forall c, c <> id -> stream c (DropQueued m id) = stream c m.
Proof.
  unfold DropQueued. destruct (send_queues_ m !! id) as [q|] eqn:Hq; [|done]. split_and!; try done.
  intros c Hc. unfold stream, queued, handed. simpl. by rewrite lookup_delete_ne.
Qed.

Lemma DropQueued_kept c m id : mux_inv m -> id <> c -> kept c m (DropQueued m id).
Proof.
  intros Hinv Hne. destruct (DropQueued_same m id) as (Hc & Hp & Hs).
  split_and!; [by apply DropQueued_inv|by rewrite Hp|]. rewrite Hc. intros ch Hch. exists ch.
  by rewrite Hs by done.
Qed.

(** ** The operations *)

Lemma ResetChannel_kept c m id code : mux_inv m -> kept c m (ResetChannel m id code).1.
Proof.
  intros Hinv. unfold ResetChannel. destruct (channels_ m !! id) as [ch|] eqn:Hch; [|by apply kept_refl].
  destruct (mi_channels _ Hinv _ _ Hch) as [_ Hid]. cbv zeta.
  set (m1 := update_channel id _ m).
  assert (Hinv1 : mux_inv m1) by (by apply update_channel_inv).
  pose proof (DropQueued_inv m1 id Hinv1) as Hinv2. destruct (DropQueued_same m1 id) as (Hc2 & Hp2 & Hs2).
  set (m2 := DropQueued m1 id) in *. set (frame := _ <| reset_code := code |>).
  destruct (SendFrame m2 frame (policy ch)) as [m3 sent] eqn:Hsf.
  destruct (SendFrame_spec m2 frame _ _ _ Hinv2 Hid Hsf) as (Hinv3 & Hos & Hoth & _).
  pose proof (only_sends_eq _ _ Hos) as (Ec & _ & _ & Ep & _). cbn [fst].
  pose proof (kept_delete c m3 id Hinv3) as Hdel. destruct (decide (id = c)) as [->|Hne].
  - apply kept_gone; [apply Hdel| |simpl; by apply lookup_delete_eq]. simpl. rewrite Ep, Hp2. done.
  - eapply kept_trans; [|exact Hdel]. apply (kept_trans _ _ m2).
    + split_and!; [done|by rewrite Hp2|]. rewrite Hc2. simpl. rewrite lookup_alter_ne by done.
      intros x Hx. exists x. by rewrite Hs2.
    + apply (kept_other c id); [|done]. by apply sent_rest_only.
Qed.

Lemma NotifyTerminal_kept c m ch reason : mux_inv m -> kept c m (NotifyTerminal m ch reason).
Proof. intros Hinv. unfold NotifyTerminal. destruct (on_terminal ch); [by apply kept_emit|by apply kept_refl]. Qed.

Lemma EndChannel_kept c m ch id reason : mux_inv m -> kept c m (EndChannel m ch id reason).1.
Proof.
  intros Hinv. unfold EndChannel. cbv zeta. cbn [fst].
  pose proof (DropQueued_inv m id Hinv) as Hinv1. destruct (DropQueued_same m id) as (Hc1 & Hp1 & _).
  assert (Hk2 : kept c (DropQueued m id) (update_channel id (fun c => c <| state := ChannelClosed |>) (DropQueued m id)))
    by (by apply kept_update).
  set (m2 := update_channel id _ _) in *.
  pose proof (NotifyTerminal_kept c m2 ch reason (proj1 Hk2)) as Hk3.
  set (m3 := NotifyTerminal _ _ _) in *. pose proof (kept_delete c m3 id (proj1 Hk3)) as Hk4.
  destruct (decide (id = c)) as [->|Hne].
  - apply kept_gone; [apply Hk4| |simpl; by apply lookup_delete_eq]. intros Hp.
    apply Hk4, Hk3, Hk2. by rewrite Hp1.
  - via kept_trans with (DropQueued_kept c m id Hinv Hne). via kept_trans with Hk2. via kept_trans with Hk3. exact Hk4.
Qed.

Lemma DeliverPayload_kept c m ch payload : mux_inv m -> kept c m (DeliverPayload m ch payload).1.
Proof. intros Hinv. unfold DeliverPayload. destruct (on_data ch); [by apply kept_emit|by apply kept_refl]. Qed.

Lemma adopt_handlers_kept c m id : mux_inv m -> kept c m (adopt_handlers m id).
Proof.
  intros Hinv. unfold adopt_handlers.
  set (m1 := match pending_handlers_ m !! id with Some _ => _ | None => _ end).
  assert (Hk1 : kept c m m1).
  { subst m1. destruct (pending_handlers_ m !! id) as [h|]; [|by apply kept_refl].
    eapply kept_trans; [by apply (kept_update c m id (fun ch => ch <| on_data := h |>))|].
    assert (Hi : mux_inv (update_channel id (fun ch => ch <| on_data := h |>) m)) by (by apply update_channel_inv).
    apply kept_side; try done; apply Hi. }
  cbv zeta. via kept_trans with Hk1. clearbody m1. apply proj1 in Hk1. clear Hinv m.
  destruct (pending_terminal_handlers_ m1 !! id) as [h|]; [|by apply kept_refl].
  eapply kept_trans; [by apply (kept_update c m1 id (fun ch => ch <| on_terminal := h |>))|].
  assert (Hi : mux_inv (update_channel id (fun ch => ch <| on_terminal := h |>) m1)) by (by apply update_channel_inv).
  apply kept_side; try done; apply Hi.
Qed.

Lemma SendFrame_kept c m frame p :
  mux_inv m -> is_u32 (channel_id (fr_header frame)) -> channel_id (fr_header frame) <> c ->
  kept c m (SendFrame m frame p).1.
Proof.
  intros Hinv Hid Hne. destruct (SendFrame m frame p) as [m' res] eqn:Hsf.
  destruct (SendFrame_spec m frame _ _ _ Hinv Hid Hsf) as (Hinv' & Hos & Hoth & _).
  apply (kept_other c (channel_id (fr_header frame))); [|done]. by apply sent_rest_only.
Qed.

Lemma RefuseOpen_kept c m frame result :
  mux_inv m -> is_u32 (channel_id (fr_header frame)) -> channel_id (fr_header frame) <> c ->
  kept c m (RefuseOpen m frame result).1.
Proof.
  intros Hinv Hid Hne. unfold RefuseOpen. cbv zeta.
  set (m1 := m <| pending_terminal_handlers_ ::= _ |>).
  assert (Hk1 : kept c m m1) by (apply kept_side; try done; apply Hinv).
  via kept_trans with Hk1. by apply SendFrame_kept; [apply Hk1|..].
Qed.

(** [c] is there, or is no channel's number: an open does not make it. *)
Definition settled (c : Z) (m : Mux) : Prop := is_Some (channels_ m !! c) \/ ~ is_u32 c.

Lemma settled_ne c m id : settled c m -> is_u32 id -> ~ is_Some (channels_ m !! id) -> id <> c.
Proof. intros [Hc|Hc] Hid Hn ->; contradiction. Qed.

Lemma HandleOpen_kept c m frame :
  mux_inv m -> is_u32 (channel_id (fr_header frame)) -> settled c m ->
  kept c m (HandleOpen m frame).1.
Proof.
  intros Hinv Hid Hc. unfold HandleOpen. cbv zeta.
  case_bool_decide as Hex; [by apply kept_refl|].
  assert (Hne : channel_id (fr_header frame) <> c) by (by eapply settled_ne).
  destruct (BadIdParity _ _); [by apply RefuseOpen_kept|]. destruct (_ <=? _); [by apply RefuseOpen_kept|].
  destruct (_ && _); [by apply RefuseOpen_kept|].
  set (id := channel_id (fr_header frame)) in *.
  assert (Hk1 : kept c m (m <| channels_ ::= insert id (InboundRecord frame) |>)).
  { by apply kept_insert_new. }
  set (m1 := m <| channels_ ::= _ |>) in *.
  pose proof (adopt_handlers_kept c m1 id (proj1 Hk1)) as Hk2. set (m2 := adopt_handlers m1 id) in *.
  set (ack := _ <| open_ack_result := 0 |>).
  pose proof (SendFrame_kept c m2 ack (policy (InboundRecord frame)) (proj1 Hk2) Hid Hne) as Hk3.
  destruct (SendFrame m2 ack _) as [m3 sent]. simpl in Hk3.
  assert (Hk : kept c m m3) by (via kept_trans with Hk1; via kept_trans with Hk2; exact Hk3).
  destruct sent; [|done]. destruct (protocol_handlers_ m3 !! _); [|done].
  via kept_trans with Hk. by apply kept_emit; [apply Hk3|].
Qed.

Lemma FlushPendingOpenData_kept c m id :
  mux_inv m -> is_u32 id -> pending_open_data_ m !! c = None -> kept c m (FlushPendingOpenData m id).
Proof.
  intros Hinv Hid Hp. unfold FlushPendingOpenData.
  destruct (pending_open_data_ m !! id) as [payload|] eqn:Hpid; [|by apply kept_refl].
  assert (Hne : id <> c) by congruence. set (m1 := m <| pending_open_data_ ::= _ |>).
  assert (Hk1 : kept c m m1).
  { apply kept_side; try done; try apply Hinv. simpl. by rewrite lookup_delete_ne. }
  via kept_trans with Hk1. apply (kept_other c id); [|done]. by apply SendData_rest; [apply Hk1|].
Qed.

Lemma HandleOpenAck_kept c m frame :
  mux_inv m -> pending_open_data_ m !! c = None -> kept c m (HandleOpenAck m frame).1.
Proof.
  intros Hinv Hp. unfold HandleOpenAck. cbv zeta. set (id := channel_id (fr_header frame)).
  destruct (channels_ m !! id) as [ch|] eqn:Hch; [|by apply kept_refl].
  destruct (mi_channels _ Hinv _ _ Hch) as [_ Hid].
  destruct (negb _).
  - cbn [fst].
    assert (Hk1 : kept c m (update_channel id (fun c => c <| state := ChannelClosed |>) m)) by (by apply kept_update).
    set (m1 := update_channel id _ m) in *. via kept_trans with Hk1.
    assert (Hk2 : kept c m1 (m1 <| pending_open_data_ ::= delete id |>)).
    { apply kept_side; try done; try apply Hk1. simpl. intros Hn. apply lookup_delete_None. by right. }
    via kept_trans with Hk2. set (m2 := m1 <| pending_open_data_ ::= _ |>) in *.
    eapply kept_trans; [apply (NotifyTerminal_kept c m2 ch), Hk2|]. apply kept_delete.
    apply (NotifyTerminal_kept c m2 ch), Hk2.
  - cbn [fst].
    assert (Hk1 : kept c m (update_channel id (fun c => c <| state := ChannelOpen |>) m)) by (by apply kept_update).
    via kept_trans with Hk1. apply FlushPendingOpenData_kept; [apply Hk1|done|done].
Qed.

Lemma NextInSequence_same ch h ch' : NextInSequence ch h = Some ch' ->
  ch_id ch' = ch_id ch /\ tx_seq ch' = tx_seq ch /\ on_data ch' = on_data ch /\ on_terminal ch' = on_terminal ch.
Proof.
  unfold NextInSequence. case_bool_decide; [destruct (negb _); [done|]|]; intros [= <-]; by split_and!.
Qed.

Lemma HandleData_kept c m ch frame :
  mux_inv m -> channels_ m !! channel_id (fr_header frame) = Some ch -> kept c m (HandleData m ch frame).1.
Proof.
  intros Hinv Hch. unfold HandleData. cbv zeta. destruct (negb _); [by apply kept_refl|].
  destruct (NextInSequence ch (fr_header frame)) as [ch'|] eqn:Hn; [|by apply kept_refl].
  apply NextInSequence_same in Hn as (Hid & Htx & _).
  assert (Hk1 : kept c m (m <| channels_ ::= insert (channel_id (fr_header frame)) (ch' <| read_clock_ms := -1 |>) |>))
    by (by eapply kept_insert).
  via kept_trans with Hk1. apply DeliverPayload_kept, Hk1.
Qed.

Lemma HandleFrag_kept c m ch frame :
  mux_inv m -> channels_ m !! channel_id (fr_header frame) = Some ch -> kept c m (HandleFrag m ch frame).1.
Proof.
  intros Hinv Hch. unfold HandleFrag. cbv zeta. destruct (negb _); [by apply kept_refl|].
  destruct (NextInSequence ch (fr_header frame)) as [ch'|] eqn:Hn; [|by apply kept_refl].
  apply NextInSequence_same in Hn as (Hid & Htx & _).
  destruct (Push _ _ _) as [r assembled].
  set (ch2 := ch' <| read_clock_ms := -1 |> <| reassembly := r |>).
  assert (Hk1 : kept c m (m <| channels_ ::= insert (channel_id (fr_header frame)) ch2 |>))
    by (by eapply kept_insert).
  set (m1 := m <| channels_ ::= _ |>) in *. via kept_trans with Hk1. destruct assembled as [[payload|]|e].
  - apply DeliverPayload_kept, Hk1.
  - apply kept_refl, Hk1.
  - cbn [fst]. pose proof (ResetChannel_kept c m1 (ch_id ch2) 1 (proj1 Hk1)) as Hk2.
    via kept_trans with Hk2. destruct (on_terminal ch2); [by apply kept_emit; [apply Hk2|]|apply kept_refl, Hk2].
Qed.

Lemma DecodeFrame_id wire frame : bytes_ok wire -> DecodeFrame wire = Ok frame -> is_u32 (channel_id (fr_header frame)).
Proof. intros Hok Hd. by destruct (DecodeFrame_inv wire frame Hok Hd) as [[(Hid & _) _] _]. Qed.

Lemma OnFrameInbound_kept c m wire :
  mux_inv m -> bytes_ok wire -> settled c m -> pending_open_data_ m !! c = None ->
  kept c m (OnFrameInbound m wire).1.
Proof.
  intros Hinv Hok Hc Hp. unfold OnFrameInbound. destruct (DecodeFrame wire) as [frame|] eqn:Hd; [|by apply kept_refl].
  pose proof (DecodeFrame_id _ _ Hok Hd) as Hid. unfold DispatchFrame. cbv zeta.
  destruct (channels_ m !! channel_id (fr_header frame)) as [ch|] eqn:Hch.
  - destruct (frame_type (fr_header frame)).
    + by apply HandleOpen_kept.
    + by apply HandleOpenAck_kept.
    + by apply HandleData_kept.
    + by apply EndChannel_kept.
    + by apply EndChannel_kept.
    + by apply HandleFrag_kept.
    + by apply kept_refl.
  - case_bool_decide; [by apply HandleOpen_kept|by apply kept_refl].
Qed.

Lemma OpenRecord_kept c m id protocol p :
  mux_inv m -> is_u32 id -> id <> c -> kept c m (OpenRecord m id protocol p).1.
Proof.
  intros Hinv Hid Hne. unfold OpenRecord. cbv zeta. set (rec := ChannelRecord_default <| ch_id := id |> <| _ := _ |> <| _ := _ |> <| _ := _ |> <| _ := _ |>).
  assert (Hk1 : kept c m (m <| channels_ ::= insert id rec |>)) by (by apply kept_insert_new).
  set (m1 := m <| channels_ ::= _ |>) in *.
  pose proof (adopt_handlers_kept c m1 id (proj1 Hk1)) as Hk2. set (m2 := adopt_handlers m1 id) in *.
  set (frame := _ <| fr_open := _ |>).
  pose proof (SendFrame_kept c m2 frame p (proj1 Hk2) Hid Hne) as Hk3.
  destruct (SendFrame m2 frame p) as [m3 sent]. simpl in Hk3.
  assert (Hk : kept c m m3) by (via kept_trans with Hk1; via kept_trans with Hk2; exact Hk3). by destruct sent.
Qed.

Lemma NextDynamicId_kept c m : mux_inv m -> kept c m (NextDynamicId m).1 /\ is_u32 (NextDynamicId m).2
  /\ channels_ (NextDynamicId m).1 = channels_ m.
Proof.
  intros Hinv. unfold NextDynamicId. cbv zeta.
  assert (Hk : forall n, is_u32 n -> kept c m (m <| next_dynamic_id_ := n |>)).
  { intros n Hn. apply kept_side; try done; apply Hinv. }
  destruct (_ =? _); cbn [fst snd].
  - split_and!; [|apply u32_range|done]. apply (Hk (u32 (u32 (next_dynamic_id_ m + 2) + 2))), u32_range.
  - split_and!; [|apply Hinv|done]. apply (Hk (u32 (next_dynamic_id_ m + 2))), u32_range.
Qed.

Lemma OpenOutbound_kept c m protocol p fixed_id :
  mux_inv m -> (forall id, fixed_id = Some id -> is_u32 id) -> settled c m ->
  kept c m (OpenOutbound m protocol p fixed_id).1.
Proof.
  intros Hinv Hfix Hc. unfold OpenOutbound. destruct fixed_id as [id|].
  - destruct (channels_ m !! id) eqn:Hid; [by apply kept_refl|]. assert (Hu : is_u32 id) by (by apply Hfix).
    apply OpenRecord_kept; [done|done|]. eapply settled_ne; [done|done|]. rewrite Hid. by intros [? ?].
  - destruct (NextDynamicId_kept c m Hinv) as (Hk & Hu & Hch). destruct (NextDynamicId m) as [m1 id]. simpl in *.
    destruct (channels_ m1 !! id) eqn:Hid; [done|]. via kept_trans with Hk. rewrite Hch in Hid.
    apply OpenRecord_kept; [apply Hk|done|]. eapply settled_ne; [done|done|]. rewrite Hid. by intros [? ?].
Qed.

Lemma ExpireIdleReaders_kept c m now : mux_inv m -> kept c m (ExpireIdleReaders m now).
Proof.
  intros Hinv. unfold ExpireIdleReaders. cbv zeta. generalize (omap (M := list) (A := Z * ChannelRecord)
    (fun '(id, c) => if (idle_scan now c).2 then Some id else None) (map_to_list (channels_ m))) as ids. intros ids.
  set (m1 := m <| channels_ ::= _ |>).
  assert (Hscan : forall ch, ch_id (idle_scan now ch).1 = ch_id ch /\ tx_seq (idle_scan now ch).1 = tx_seq ch).
  { intros ch. unfold idle_scan. destruct (_ || _); [done|]. by destruct (_ <? _). }
  assert (Hk1 : kept c m m1).
  { split_and!; [|done|].
    - eapply mux_inv_send_side; [exact Hinv|done|apply Hinv|apply Hinv|].
      intros i x Hx. simpl in Hx. apply lookup_fmap_Some in Hx as (ch & <- & Hch).
      rewrite (proj1 (Hscan ch)). by apply Hinv.
    - simpl. intros x Hx. apply lookup_fmap_Some in Hx as (ch & <- & Hch). exists ch. by split_and!; [|apply Hscan|]. }
  via kept_trans with Hk1. apply proj1 in Hk1. clearbody m1. revert m1 Hk1.
  induction ids as [|id ids IH]; intros m1 Hi; [by apply kept_refl|]. cbn [fold_left].
  assert (Hk2 : kept c m1 (ExpireReader m1 id)).
  { unfold ExpireReader. destruct (channels_ m1 !! id) as [ch|]; [|by apply kept_refl]. cbv zeta.
    pose proof (ResetChannel_kept c m1 id 1 Hi) as Hr. via kept_trans with Hr.
    destruct (on_terminal ch); [by apply kept_emit; [apply Hr|]|apply kept_refl, Hr]. }
  via kept_trans with Hk2. apply IH, Hk2.
Qed.

Lemma FlushQueued_kept c m : mux_inv m -> kept c m (FlushQueued m).
Proof.
  intros Hinv. destruct (FlushQueued_spec m Hinv) as (Hi & Hos & Hst & _).
  apply only_sends_eq in Hos as (E1 & _ & _ & E4 & _). split_and!; [done|by rewrite E4|].
  rewrite E1. eauto.
Qed.

Lemma MuxTick_kept c m now : mux_inv m -> kept c m (MuxTick m now).
Proof.
  intros Hinv. unfold MuxTick. cbv zeta. set (m1 := m <| channels_ ::= _ |>).
  assert (Hk1 : kept c m m1).
  { split_and!; [|done|].
    - eapply mux_inv_send_side; [exact Hinv|done|apply Hinv|apply Hinv|].
      intros i x Hx. simpl in Hx. apply lookup_fmap_Some in Hx as (ch & <- & Hch). by apply (mi_channels _ Hinv i ch).
    - simpl. intros x Hx. apply lookup_fmap_Some in Hx as (ch & <- & Hch). by exists ch. }
  via kept_trans with Hk1. eapply kept_trans; [by apply (ExpireIdleReaders_kept c m1 now), Hk1|].
  apply FlushQueued_kept. by apply (ExpireIdleReaders_kept c m1 now), Hk1.
Qed.

End Facts.
