(* ===== verification/MuxReach.v ===== *)
(** * What a multiplexer reaches of its transport

    Whatever is done with a multiplexer, the state behind its transport changes
    by calls of [transport_send] alone, each in the log with its outcome: a client
    that is itself that state (a link) is changed by no other way. *)

From S2P Require Import Prelude L1Types ChannelWire Capability MessageReassembly ChannelPolicy ChannelMux ChannelMuxFacts.

Section Reach.
Context {T : Type} `{MuxTransport T}.
Abbreviation Mux := (ChannelMux T).

Definition tstate (m : Mux) : T * list mux_event * Z := (transport m, mux_log m, max_frame_bytes_ m).
Definition has_credit (t : T) : bool := match transport_credits t with Some n => 0 <? n | None => true end.

(** Reliable frames are sent only on credit; the frame budget stays. *)
Inductive tstep : T * list mux_event * Z -> T * list mux_event * Z -> Prop :=
  | ts_send t l n q w t' r : (q = Reliable -> has_credit t = true) -> transport_send t q w = (t', r) ->
      tstep (t, l, n) (t', l ++ [EvSend q w (ok r)], n)
  | ts_other t l n e : ~ is_send e -> tstep (t, l, n) (t, l ++ [e], n).
Definition via_transport (m m' : Mux) : Prop := rtc tstep (tstate m) (tstate m').

(** What sending keeps of the transport and the log, every use keeps. *)
Lemma via_ind (R : T -> list mux_event -> Prop) m m' :
  (forall t l q w t' r, R t l -> (q = Reliable -> has_credit t = true) -> transport_send t q w = (t', r) ->
     R t' (l ++ [EvSend q w (ok r)])) ->
  (forall t l e, R t l -> ~ is_send e -> R t (l ++ [e])) ->
  via_transport m m' -> R (transport m) (mux_log m) ->
  R (transport m') (mux_log m') /\ max_frame_bytes_ m' = max_frame_bytes_ m.
Proof.
  intros Hsend Hother Hr HR.
  enough (forall x x', rtc tstep x x' -> R x.1.1 x.1.2 -> R x'.1.1 x'.1.2 /\ x'.2 = x.2) as Hx by apply (Hx _ _ Hr HR).
  clear m m' Hr HR. intros x x' Hr. induction Hr as [x|x y z Hstep _ IH]; intros HR; [done|].
  destruct Hstep as [t l n q w t' r Hq Ht|t l n e He]; cbn [fst snd] in *; apply IH.
  - by apply (Hsend t l q w t' r).
  - by apply Hother.
Qed.

#[export] Instance via_preorder : PreOrder via_transport.
Proof. split; [intros m; apply rtc_refl|intros a b c; unfold via_transport; apply transitivity]. Qed.

(** Anything else of the multiplexer may change. *)
Lemma via_same m m1 m2 : via_transport m m1 -> tstate m2 = tstate m1 -> via_transport m m2.
Proof. unfold via_transport. by intros ? ->. Qed.
Lemma same_via m m1 : tstate m1 = tstate m -> via_transport m m1.
Proof. by apply (via_same m m). Qed.
Lemma via_emit m m1 e : via_transport m m1 -> ~ is_send e -> via_transport m (emit e m1).
Proof. intros Hm He. unfold via_transport. etrans; [exact Hm|]. apply rtc_once. by apply ts_other. Qed.

Lemma Transport_via m q w : (q = Reliable -> HasReliableCredit m = true) -> via_transport m (Transport m q w).1.
Proof.
  intros Hq. unfold Transport. destruct (negb _); [done|]. cbv zeta.
  destruct (transport_send _ q w) as [t r] eqn:Ht. apply rtc_once. by apply ts_send.
Qed.

Lemma FlushOne_via m c : HasReliableCredit m = true -> via_transport m (FlushOne m c).
Proof.
  intros Hc. unfold FlushOne. destruct (send_queues_ m !! c) as [[|frame rest]|]; [done| |done]. cbv zeta.
  set (m1 := m <| send_queues_ ::= _ |> <| queued_bytes_ ::= _ |>).
  pose proof (Transport_via m1 Reliable frame (fun _ => Hc)) as Ht.
  destruct rest; (apply (via_same _ (Transport m1 Reliable frame).1); [|done]); (etrans; [|exact Ht]); by apply same_via.
Qed.
Lemma flush_loop_via fuel m : via_transport m (flush_loop fuel m).
Proof.
  revert m. induction fuel as [|fuel IH]; intros m; simpl; [done|]. destruct (send_order_ m) as [|c order]; [done|].
  destruct (HasReliableCredit m) eqn:Hc; [|done]. etrans; [|apply IH]. etrans; [|by apply FlushOne_via]. by apply same_via.
Qed.
Lemma FlushQueued_via m : via_transport m (FlushQueued m).
Proof. apply flush_loop_via. Qed.

Lemma SendWire_via m c q w : via_transport m (SendWire m c q w).1.
Proof.
  unfold SendWire. case_bool_decide as Hq; cbn [negb]; [|by apply Transport_via]. cbv zeta.
  pose proof (FlushQueued_via m) as Hf. destruct (_ && HasReliableCredit _) eqn:Hdirect.
  - apply andb_true_iff in Hdirect as [_ Hcredit]. etrans; [exact Hf|by apply Transport_via].
  - destruct (_ <? _); [done|]. case_bool_decide; by apply (via_same _ (FlushQueued m)).
Qed.
Lemma SendFrame_via m f p : via_transport m (SendFrame m f p).1.
Proof. unfold SendFrame. destruct (negb _); [done|]. destruct (EncodeFrame f); [apply SendWire_via|done]. Qed.

Lemma send_fragments_via n i m c q mid fc cb p : via_transport m (send_fragments n i m c q mid fc cb p).1.
Proof.
  revert i m. induction n as [|n IH]; intros i m; cbn [send_fragments]; [done|].
  destruct (channels_ m !! c) as [ch|]; [|done]. cbv zeta. destruct (EncodeFrag _ _ _ _ _ _) as [wire|]; [|done].
  pose proof (SendWire_via m c q wire) as Hs. destruct (SendWire m c q wire) as [m1 [u|e]]; cbn [fst] in Hs; [|done].
  destruct (channels_ m1 !! c) as [ch1|]; [|done]. case_bool_decide; [|done].
  etrans; [exact Hs|]. etrans; [|apply IH]. by apply same_via.
Qed.
Lemma SendData_via m c p : via_transport m (SendData m c p).1.
Proof.
  unfold SendData. destruct (channels_ m !! c) as [ch|]; [|done]. destruct (negb _); [done|]. destruct (_ <? _); [done|].
  cbv zeta. destruct (_ <=? _).
  - match goal with |- context [SendFrame m ?f ?p] => pose proof (SendFrame_via m f p) as Hs; destruct (SendFrame m f p) as [m1 [u|e]] end;
      cbn [fst] in *; [by apply (via_same _ m1)|done].
  - unfold SendFragmented. cbv zeta. destruct (_ <? _); [done|]. destruct (_ && _); [by apply same_via|].
    etrans; [|apply send_fragments_via]. by apply same_via.
Qed.

Lemma DropQueued_via m c : via_transport m (DropQueued m c).
Proof. unfold DropQueued. destruct (_ !! c); [by apply same_via|done]. Qed.
Lemma ResetChannel_via m c code : via_transport m (ResetChannel m c code).1.
Proof.
  unfold ResetChannel. destruct (channels_ m !! c) as [ch|]; [|done]. cbv zeta. set (m1 := DropQueued _ c).
  assert (H1 : via_transport m m1) by (etrans; [|apply DropQueued_via]; by apply same_via).
  match goal with |- context [SendFrame m1 ?f ?p] => pose proof (SendFrame_via m1 f p) as Hs; destruct (SendFrame m1 f p) as [m2 r] end.
  cbn [fst] in *. eapply via_same; [etrans; [exact H1|exact Hs]|done].
Qed.
Lemma CloseChannel_via m c reason : via_transport m (CloseChannel m c reason).1.
Proof.
  unfold CloseChannel. destruct (channels_ m !! c); [|done]. etrans; [|apply SendFrame_via]. by apply same_via.
Qed.

Lemma adopt_handlers_same m c : tstate (adopt_handlers m c) = tstate m.
Proof. unfold adopt_handlers. by repeat case_match. Qed.
Lemma OpenRecord_via m id p pol : via_transport m (OpenRecord m id p pol).1.
Proof.
  unfold OpenRecord. cbv zeta. match goal with |- context [SendFrame ?m1 ?f ?p] => pose proof (SendFrame_via m1 f p) as Hs; set (m2 := m1) in *; destruct (SendFrame m2 f p) as [m3 [u|e]] end;
    cbn [fst] in *; (etrans; [|exact Hs]); (eapply via_same; [|apply adopt_handlers_same]); by apply same_via.
Qed.
Lemma OpenOutbound_via m p pol fid : via_transport m (OpenOutbound m p pol fid).1.
Proof.
  unfold OpenOutbound. destruct fid as [id|].
  - destruct (channels_ m !! id); [done|apply OpenRecord_via].
  - destruct (NextDynamicId m) as [m1 id] eqn:Hn. assert (via_transport m m1).
    { unfold NextDynamicId in Hn. cbv zeta in Hn. destruct (_ =? _); injection Hn as <- _; by apply same_via. }
    destruct (channels_ m1 !! id); [done|]. etrans; [eassumption|apply OpenRecord_via].
Qed.

Lemma NotifyTerminal_via m ch r : via_transport m (NotifyTerminal m ch r).
Proof. unfold NotifyTerminal. destruct (on_terminal ch); [by apply via_emit; [|intros []]|done]. Qed.
Lemma DeliverPayload_via m ch p : via_transport m (DeliverPayload m ch p).1.
Proof. unfold DeliverPayload. destruct (on_data ch); [by apply via_emit; [|intros []]|done]. Qed.

Lemma RefuseOpen_via m f r : via_transport m (RefuseOpen m f r).1.
Proof. unfold RefuseOpen. etrans; [|apply SendFrame_via]. by apply same_via. Qed.
Lemma HandleOpen_via m f : via_transport m (HandleOpen m f).1.
Proof.
  unfold HandleOpen. cbv zeta. case_bool_decide; [done|]. destruct (BadIdParity _ _); [apply RefuseOpen_via|].
  destruct (_ <=? _); [apply RefuseOpen_via|]. destruct (_ && _); [apply RefuseOpen_via|].
  match goal with |- context [SendFrame ?m1 ?f ?p] => pose proof (SendFrame_via m1 f p) as Hs; set (m2 := m1) in *; destruct (SendFrame m2 f p) as [m3 [u|e]] end;
    cbn [fst] in *;
    (assert (H2 : via_transport m m2) by (eapply via_same; [|apply adopt_handlers_same]; by apply same_via)).
  - destruct (protocol_handlers_ m3 !! _); [apply via_emit; [|by intros []]|]; (etrans; [exact H2|exact Hs]).
  - etrans; [exact H2|exact Hs].
Qed.
Lemma HandleOpenAck_via m f : via_transport m (HandleOpenAck m f).1.
Proof.
  unfold HandleOpenAck. cbv zeta. destruct (channels_ m !! _) as [ch|]; [|done]. destruct (negb _).
  - cbn [fst]. match goal with |- context [NotifyTerminal ?m1 ch ?r] => apply (via_same _ (NotifyTerminal m1 ch r)) end; [|done].
    etrans; [|apply NotifyTerminal_via]. by apply same_via.
  - cbn [fst]. unfold FlushPendingOpenData. destruct (pending_open_data_ _ !! _); [|by apply same_via].
    etrans; [|apply SendData_via]. by apply same_via.
Qed.
Lemma EndChannel_via m ch id r : via_transport m (EndChannel m ch id r).1.
Proof.
  unfold EndChannel. cbn [fst]. match goal with |- context [NotifyTerminal ?m1 ch ?r] => apply (via_same _ (NotifyTerminal m1 ch r)) end; [|done].
  etrans; [|apply NotifyTerminal_via]. by apply (via_same _ (DropQueued m id)); [apply DropQueued_via|].
Qed.
Lemma HandleData_via m ch f : via_transport m (HandleData m ch f).1.
Proof.
  unfold HandleData. destruct (negb _); [done|]. destruct (NextInSequence _ _) as [ch'|]; [|done]. cbv zeta.
  etrans; [|apply DeliverPayload_via]. by apply same_via.
Qed.
Lemma HandleFrag_via m ch f : via_transport m (HandleFrag m ch f).1.
Proof.
  unfold HandleFrag. destruct (negb _); [done|]. destruct (NextInSequence _ _) as [ch'|]; [|done].
  destruct (Push _ _ _) as [r assembled]. cbv zeta. set (m1 := m <| channels_ ::= _ |>).
  assert (H1 : via_transport m m1) by (by apply same_via).
  destruct assembled as [[payload|]|e]; [etrans; [exact H1|apply DeliverPayload_via]|done|]. cbn [fst].
  set (ch2 := ch' <| read_clock_ms := _ |> <| reassembly := _ |>). pose proof (ResetChannel_via m1 (ch_id ch2) 1) as Hr.
  destruct (on_terminal ch2); [apply via_emit; [|by intros []]|]; (etrans; [exact H1|exact Hr]).
Qed.
Lemma OnFrameInbound_via m w : via_transport m (OnFrameInbound m w).1.
Proof.
  unfold OnFrameInbound. destruct (DecodeFrame w) as [f|]; [|done]. unfold DispatchFrame. cbv zeta.
  destruct (channels_ m !! _) as [ch|].
  - destruct (frame_type _); eauto using HandleOpen_via, HandleOpenAck_via, EndChannel_via, HandleData_via, HandleFrag_via.
    done.
  - case_bool_decide; [apply HandleOpen_via|done].
Qed.

Lemma ExpireReader_via m id : via_transport m (ExpireReader m id).
Proof.
  unfold ExpireReader. destruct (channels_ m !! id) as [ch|]; [|done]. cbv zeta.
  destruct (on_terminal ch); [apply via_emit; [|by intros []]|]; apply ResetChannel_via.
Qed.
Lemma MuxTick_via m now : via_transport m (MuxTick m now).
Proof.
  unfold MuxTick. cbv zeta. etrans; [|apply FlushQueued_via]. unfold ExpireIdleReaders. cbv zeta.
  match goal with |- context [fold_left ExpireReader ?ids ?m1] => generalize ids; set (m2 := m1) end.
  assert (H2 : via_transport m m2) by (by apply same_via). clearbody m2. intros ids. revert m2 H2.
  induction ids as [|id ids IH]; intros m2 H2; simpl; [done|]. apply IH. etrans; [exact H2|apply ExpireReader_via].
Qed.
Lemma SendCapabilityOffer_via m o : via_transport m (SendCapabilityOffer m o).1.
Proof.
  unfold SendCapabilityOffer. destruct (EncodeCapability o); [|done].
  assert (Ho : forall x : Mux * Roe Z, x = match channels_ m !! kCapabilityChannelId with
                 | Some _ => (m, Ok 0)
                 | None => OpenOutbound m kCapabilityProtocolId CapabilityChannelPolicy (Some kCapabilityChannelId) end ->
               via_transport m x.1).
  { intros x ->. destruct (channels_ m !! _); [done|apply OpenOutbound_via]. }
  specialize (Ho _ eq_refl). match type of Ho with via_transport m (fst ?x) => destruct x as [m1 opened] end. cbn [fst] in Ho.
  destruct opened; [|done]. destruct (MuxState m1 _); try done. etrans; [exact Ho|apply SendData_via].
Qed.
End Reach.
