(* ===== verification/ChannelMuxProps.v ===== *)
(** * Properties of the multiplexer

    Runs of a multiplexer, what they put on a channel's stream, what a receiver
    makes of it, and the ends of channels. *)

From S2P Require Import Prelude L1Types Toy ChannelWire Capability MessageReassembly ChannelPolicy ChannelMux ChannelMuxFacts MuxReach.

(** ** Runs *)

Inductive mux_op (T : Type) :=
  | OpSendData (id : Z) (payload : bytes)
  | OpInbound (wire : bytes)
  | OpTick (now_ms : Z)
  | OpOpenOutbound (protocol : bytes) (p : ChannelPolicy) (fixed_id : option Z)
  | OpClose (id : Z) (reason : bytes)
  | OpReset (id code : Z)
  | OpSetDataHandler (id : Z) (handler : option nat)
  | OpSetTerminalHandler (id : Z) (handler : option nat)
  | OpApplyPolicy (id : Z) (p : ChannelPolicy)
  | OpSetProtocolHandler (protocol : bytes) (handler : option nat)
  | OpFrameBudget (n : Z)
  | OpTransport (t : T)
  | OpClock (now_ms : Z).
Arguments OpSendData {T}.
Arguments OpInbound {T}.
Arguments OpTick {T}.
Arguments OpOpenOutbound {T}.
Arguments OpClose {T}.
Arguments OpReset {T}.
Arguments OpSetDataHandler {T}.
Arguments OpSetTerminalHandler {T}.
Arguments OpApplyPolicy {T}.
Arguments OpSetProtocolHandler {T}.
Arguments OpFrameBudget {T}.
Arguments OpTransport {T}.
Arguments OpClock {T}.

Section Runs.
Context {T : Type} `{MuxTransport T}.
Abbreviation Mux := (ChannelMux T).

(** [OpTransport] is the transport's own progress (acknowledgements give credit
    back), [OpClock] that of the clock. *)
Definition run_mux_op (m : Mux) (o : mux_op T) : Mux * Roe unit :=
  match o with
  | OpSendData id payload => SendData m id payload
  | OpInbound wire => OnFrameInbound m wire
  | OpTick now_ms => (MuxTick m now_ms, Ok tt)
  | OpOpenOutbound protocol p fixed_id => ((OpenOutbound m protocol p fixed_id).1, Ok tt)
  | OpClose id reason => CloseChannel m id reason
  | OpReset id code => ResetChannel m id code
  | OpSetDataHandler id handler => (SetDataHandler m id handler, Ok tt)
  | OpSetTerminalHandler id handler => (SetTerminalHandler m id handler, Ok tt)
  | OpApplyPolicy id p => ApplyChannelPolicy m id p
  | OpSetProtocolHandler protocol handler => (SetProtocolHandler m protocol handler, Ok tt)
  | OpFrameBudget n => SetMaxFrameBytes m n
  | OpTransport t => (m <| transport := t |>, Ok tt)
  | OpClock now_ms => (m <| clock_now := now_ms |>, Ok tt)
  end.
Definition run_mux (m : Mux) (ops : list (mux_op T)) : Mux := fold_left (fun m o => (run_mux_op m o).1) ops m.

(** Arguments of their C++ types. *)
Definition mux_op_ok (o : mux_op T) : Prop :=
  match o with
  | OpSendData id _ | OpClose id _ | OpReset id _ | OpSetDataHandler id _ | OpSetTerminalHandler id _
  | OpApplyPolicy id _ => is_u32 id
  | OpInbound wire => bytes_ok wire
  | OpOpenOutbound _ _ (Some id) => is_u32 id
  | _ => True
  end.

Lemma CloseChannel_kept c m id reason : mux_inv m -> id <> c -> kept c m (CloseChannel m id reason).1.
Proof.
  intros Hinv Hne. unfold CloseChannel. destruct (channels_ m !! id) as [ch|] eqn:Hch; [|by apply kept_refl].
  destruct (mi_channels _ Hinv _ _ Hch) as [_ Hid]. cbv zeta. set (m1 := update_channel id _ m).
  assert (Hinv1 : mux_inv m1) by (by apply update_channel_inv).
  assert (Hk1 : kept c m m1).
  { apply (kept_other c id); [|done]. by apply sent_rest_update. }
  via kept_trans with Hk1. by apply SendFrame_kept.
Qed.

Lemma run_mux_op_kept c m o :
  mux_inv m -> mux_op_ok o -> settled c m -> pending_open_data_ m !! c = None ->
  match o with OpSendData id _ | OpClose id _ => id <> c | _ => True end ->
  kept c m (run_mux_op m o).1.
Proof.
  intros Hinv Hok Hc Hp Hne. destruct o as [id payload|wire|now|protocol p fixed|id reason|id code|id h|id h|id p
    |protocol h|n|t|t]; simpl in *.
  - apply (kept_other c id); [|done]. by apply SendData_rest.
  - by apply OnFrameInbound_kept.
  - by apply MuxTick_kept.
  - apply OpenOutbound_kept; [done| |done]. by intros id ->.
  - by apply CloseChannel_kept.
  - by apply ResetChannel_kept.
  - unfold SetDataHandler. destruct (channels_ m !! id); [by apply kept_update|].
    apply kept_side; try done; apply Hinv.
  - unfold SetTerminalHandler. destruct (channels_ m !! id); [by apply kept_update|].
    apply kept_side; try done; apply Hinv.
  - unfold ApplyChannelPolicy. destruct (channels_ m !! id); [by apply kept_update|by apply kept_refl].
  - apply kept_side; try done; apply Hinv.
  - unfold SetMaxFrameBytes. destruct (Z.ltb_spec n kMinFrameBytes); [by apply kept_refl|].
    apply kept_side; try done. apply Hinv.
  - apply kept_side; try done; apply Hinv.
  - apply kept_side; try done; apply Hinv.
Qed.

(** Whatever is done short of replacing the transport goes through it, and only
    setting the frame budget changes that. *)
Definition mux_op_budget (B : Z) (o : mux_op T) : Prop :=
  match o with OpFrameBudget n => n <= B | _ => True end.
Lemma run_mux_op_via m o : match o with OpTransport _ | OpFrameBudget _ => False | _ => True end ->
  via_transport m (run_mux_op m o).1.
Proof.
  destruct o as [id payload|wire|now|protocol p fixed|id reason|id code|id h|id h|id p|protocol h|n|t|t]; simpl; intros Ho; try done.
  - apply SendData_via.
  - apply OnFrameInbound_via.
  - apply MuxTick_via.
  - apply OpenOutbound_via.
  - apply CloseChannel_via.
  - apply ResetChannel_via.
  - unfold SetDataHandler. destruct (channels_ m !! id); by apply same_via.
  - unfold SetTerminalHandler. destruct (channels_ m !! id); by apply same_via.
  - unfold ApplyChannelPolicy. destruct (channels_ m !! id); by apply same_via.
  - by apply same_via.
  - by apply same_via.
Qed.
Lemma run_mux_op_budget B m o : mux_op_budget B o -> max_frame_bytes_ m <= B -> max_frame_bytes_ (run_mux_op m o).1 <= B.
Proof.
  intros Ho Hm.
  assert (Hcase : match o with OpTransport _ | OpFrameBudget _ => False | _ => True end \/ (exists n, o = OpFrameBudget n)
    \/ exists t, o = OpTransport t) by (destruct o; eauto).
  destruct Hcase as [Hv|[[n ->]|[t ->]]]; [| |done].
  - by destruct (via_ind (fun _ _ => True) _ _ (fun _ _ _ _ _ _ _ _ _ => Logic.I) (fun _ _ _ _ _ => Logic.I)
      (run_mux_op_via m o Hv) Logic.I) as [_ ->].
  - simpl. unfold SetMaxFrameBytes. by destruct (_ <? _).
Qed.

(** ** The sending end *)

(** [c] is open and reliable, with a message cap that fits a length field. *)
Definition usable (c : Z) (m : Mux) : Prop :=
  exists ch, channels_ m !! c = Some ch /\ state ch = ChannelOpen /\ QosForClass (cls (policy ch)) = Reliable
  /\ policy_max_message_bytes (policy ch) < 2 ^ 32.

(** A run through which [c] stays usable: nobody closes it here, and every
    payload given to it is taken. *)
Fixpoint channel_run (c : Z) (m : Mux) (ops : list (mux_op T)) : Prop :=
  usable c m
  /\ match ops with
     | [] => True
     | o :: ops =>
         match o with
            | OpSendData id payload => id = c -> bytes_ok payload /\ ok (run_mux_op m o).2 = true
            | OpClose id _ => id <> c
            | _ => True
            end
         /\ channel_run c (run_mux_op m o).1 ops
     end.

(** The payloads given to [c]. *)
Definition given (c : Z) (ops : list (mux_op T)) : list bytes :=
  omap (fun o => match o with OpSendData id payload => if id =? c then Some payload else None | _ => None end) ops.

(** A message as the sender framed it: frame budget, message id, payload. *)
Definition framed := (Z * Z * bytes)%type.
Definition framed_ok (x : framed) : Prop :=
  let '(mfb, mid, payload) := x in
  kMinFrameBytes <= mfb /\ is_u64 mid /\ bytes_ok payload /\ size payload < 2 ^ 32
  /\ (mfb - 9 < size payload -> Z.of_nat (fragments_needed mfb payload) < 2 ^ 16).
Fixpoint frames_of (c s : Z) (msgs : list framed) : list ChannelFrame :=
  match msgs with
  | [] => []
  | (mfb, mid, payload) :: msgs =>
      let frames := message_frames mfb c s mid payload in
      frames ++ frames_of c (u32 (s + size frames)) msgs
  end.

Lemma channel_run_stream c : forall ops m ch,
  mux_inv m -> is_u32 c -> pending_open_data_ m !! c = None -> channels_ m !! c = Some ch -> is_u32 (tx_seq ch) ->
  Forall mux_op_ok ops -> channel_run c m ops ->
  exists msgs, msgs.*2 = given c ops /\ Forall framed_ok msgs
  /\ (forall B, max_frame_bytes_ m <= B -> Forall (mux_op_budget B) ops -> Forall (fun x : framed => x.1.1 <= B) msgs)
  /\ stream c (run_mux m ops) = stream c m ++ reliably (map frame_wire (frames_of c (tx_seq ch) msgs)).
Proof.
  induction ops as [|o ops IH]; intros m ch Hinv Hc Hp Hch Htx Hoks Hrun.
  { exists []. split_and!; [done..|intros; constructor|by rewrite app_nil_r]. }
  destruct Hrun as (Hus & Hown & Hrun). apply Forall_cons in Hoks as [Hok Hoks].
  assert (Hnext : usable c (run_mux_op m o).1) by (destruct ops; apply Hrun).
  assert (Hcase : (exists payload, o = OpSendData c payload)
    \/ match o with OpSendData id _ | OpClose id _ => id <> c | _ => True end).
  { destruct o as [id payload| | | |id ?| | | | | | | |]; try by right.
    - destruct (decide (id = c)) as [->|]; eauto. }
  destruct Hcase as [[payload ->]|Hne].
  - destruct Hus as (ch0 & Hch0 & Hopen & Hqos & Hpol). assert (ch0 = ch) as -> by congruence.
    cbn [run_mux_op] in Hown. destruct (Hown eq_refl) as [Hpb Hres]. cbn [run_mux_op] in Hrun.
    destruct (SendData m c payload) as [m1 res] eqn:Hsd. simpl in Hres.
    destruct (SendData_spec _ _ _ _ _ _ Hinv Hch Hc Hqos Htx Hpol Hsd) as [Hrest Hspec].
    destruct (Hspec Hres) as (Hsz & Hfr & Hch1 & Hst1). simpl in Hrun.
    destruct Hrest as (Hinv1 & _ & Hp1 & _).
    destruct (IH m1 _ Hinv1 Hc ltac:(by rewrite Hp1) Hch1 (u32_range _) Hoks Hrun) as (msgs & Hgiven & Hmok & Hbud & Hst).
    exists ((max_frame_bytes_ m, next_frag_msg_id_ m, payload) :: msgs). split_and!.
    + rewrite fmap_cons, Hgiven. unfold given. simpl. by rewrite Z.eqb_refl.
    + constructor; [|done]. split_and!; try done; [apply Hinv|apply Hinv|lia].
    + intros B HB [Ho HBs]%Forall_cons. constructor; [done|]. apply Hbud; [|done].
      pose proof (run_mux_op_budget B m (OpSendData c payload) Ho HB) as Hb. cbn [run_mux_op] in Hb. by rewrite Hsd in Hb.
    + unfold run_mux in *. cbn [fold_left run_mux_op]. rewrite Hsd. cbn [fst]. rewrite Hst, Hst1.
      simpl. unfold reliably. by rewrite !map_app, app_assoc.
  - pose proof (run_mux_op_kept c m o Hinv Hok (or_introl (mk_is_Some _ _ Hch)) Hp Hne) as (Hinv1 & Hp1 & Hk).
    destruct Hnext as (ch1 & Hch1 & _).
    destruct (Hk _ Hch1) as (ch0 & Hch0 & Htx1 & Hst1). assert (ch0 = ch) as -> by congruence.
    destruct (IH _ ch1 Hinv1 Hc (Hp1 Hp) Hch1 ltac:(by rewrite Htx1) Hoks Hrun) as (msgs & Hgiven & Hmok & Hbud & Hst).
    exists msgs. split_and!; [|done| |].
    + rewrite Hgiven. unfold given. simpl. destruct o; try done. by rewrite (proj2 (Z.eqb_neq _ _) Hne).
    + intros B HB [Ho HBs]%Forall_cons. apply Hbud; [by apply run_mux_op_budget|done].
    + unfold run_mux in *. cbn [fold_left]. by rewrite Hst, Hst1, Htx1.
Qed.

End Runs.

(** ** The receiving end *)

Section Receiver.
Context {T : Type} `{MuxTransport T}.
Abbreviation Mux := (ChannelMux T).

(** What the handlers of [c] were given. *)
Definition delivered_of (c : Z) (e : mux_event) : option bytes :=
  match e with
  | EvData _ channel payload => if channel =? c then Some payload else None
  | _ => None
  end.
Definition delivered (c : Z) (m : Mux) : list bytes := omap (delivered_of c) (mux_log m).

Lemma delivered_emit c m e : delivered c (emit e m) = delivered c m ++ option_list (delivered_of c e).
Proof. unfold delivered, emit. simpl. rewrite omap_app. simpl. by destruct (delivered_of c e). Qed.

(** Steps that leave [c] as its reader sees it. *)
Definition unread (c : Z) (m m' : Mux) : Prop :=
  channels_ m' !! c = channels_ m !! c /\ delivered c m' = delivered c m.
#[export] Instance unread_preorder c : PreOrder (unread c).
Proof. split; [done|]. intros m1 m2 m3 [H1 H2] [J1 J2]. split; congruence. Qed.
Lemma unread_trans c m1 m2 m3 : unread c m1 m2 -> unread c m2 m3 -> unread c m1 m3.
Proof. apply transitivity. Qed.

Lemma unread_eq c m m' : channels_ m' = channels_ m -> mux_log m' = mux_log m -> unread c m m'.
Proof. intros Hc Hl. split; [by rewrite Hc|]. unfold delivered. by rewrite Hl. Qed.

Lemma unread_emit c m e : delivered_of c e = None -> unread c m (emit e m).
Proof. intros He. split; [done|]. by rewrite delivered_emit, He, app_nil_r. Qed.

Lemma Transport_unread c m qos wire : unread c m (Transport m qos wire).1.
Proof.
  unfold Transport. destruct (negb _); [done|]. cbv zeta. destruct (transport_send _ _ _) as [t sent]. cbn [fst].
  eapply unread_trans; [|by apply unread_emit]. by apply unread_eq.
Qed.

Lemma FlushOne_unread c m cid : unread c m (FlushOne m cid).
Proof.
  unfold FlushOne. destruct (send_queues_ m !! cid) as [[|f rest]|]; [done| |done]. cbv zeta.
  set (m1 := _ <| queued_bytes_ ::= _ |>). assert (H1 : unread c m m1) by (by apply unread_eq).
  via unread_trans with H1. pose proof (Transport_unread c m1 Reliable f) as H2. via unread_trans with H2.
  destruct rest; by apply unread_eq.
Qed.

Lemma flush_loop_unread c fuel m : unread c m (flush_loop fuel m).
Proof.
  revert m. induction fuel as [|fuel IH]; intros m; cbn [flush_loop]; [done|].
  destruct (send_order_ m) as [|cid order]; [done|]. destruct (HasReliableCredit m); [|done].
  etrans; [|apply IH]. etrans; [|apply FlushOne_unread]. by apply unread_eq.
Qed.

Lemma SendWire_unread c m id qos wire : unread c m (SendWire m id qos wire).1.
Proof.
  unfold SendWire. destruct (negb _); [apply Transport_unread|]. cbv zeta.
  pose proof (flush_loop_unread c (flush_fuel m) m) as H1. fold (FlushQueued m) in H1. via unread_trans with H1.
  destruct (_ && _); [apply Transport_unread|]. destruct (_ <? _); [done|]. case_bool_decide; by apply unread_eq.
Qed.

Lemma SendFrame_unread c m frame p : unread c m (SendFrame m frame p).1.
Proof. unfold SendFrame. destruct (negb _); [done|]. destruct (EncodeFrame frame); [apply SendWire_unread|done]. Qed.

Lemma update_unread c m id f : id <> c -> unread c m (update_channel id f m).
Proof. intros Hne. split; [|done]. simpl. by rewrite lookup_alter_ne. Qed.

Lemma send_fragments_unread c n : forall i m id qos mid count cb payload,
  id <> c -> unread c m (send_fragments n i m id qos mid count cb payload).1.
Proof.
  induction n as [|n IH]; intros i m id qos mid count cb payload Hne; cbn [send_fragments]; [done|].
  destruct (channels_ m !! id); [|done]. cbv zeta. destruct (EncodeFrag _ _ _ _ _ _) as [wire|]; [|done].
  pose proof (SendWire_unread c m id qos wire) as H1. destruct (SendWire m id qos wire) as [m1 sent]. simpl in H1.
  destruct sent; [|done]. destruct (channels_ m1 !! id); [|done]. case_bool_decide; [|done].
  via unread_trans with H1. etrans; [|by apply IH]. by apply update_unread.
Qed.

Lemma SendData_unread c m id payload : id <> c -> unread c m (SendData m id payload).1.
Proof.
  intros Hne. unfold SendData. destruct (channels_ m !! id) as [ch|]; [|done].
  destruct (negb _); [done|]. destruct (_ <? _); [done|]. cbv zeta. destruct (_ <=? _).
  - set (frame := _ <| fr_payload := payload |>). pose proof (SendFrame_unread c m frame (policy ch)) as H1.
    destruct (SendFrame m frame (policy ch)) as [m1 sent]. simpl in H1. destruct sent; [|done].
    via unread_trans with H1. by apply update_unread.
  - unfold SendFragmented. cbv zeta. destruct (_ <? _); [done|]. set (m0 := m <| next_frag_msg_id_ ::= _ |>).
    assert (H0 : unread c m m0) by (by apply unread_eq). destruct (_ && _); [done|].
    via unread_trans with H0. by apply send_fragments_unread.
Qed.

Lemma delete_unread c m id : id <> c -> unread c m (m <| channels_ ::= delete id |>).
Proof. intros Hne. split; [|done]. simpl. by rewrite lookup_delete_ne. Qed.
Lemma insert_unread c m id ch : id <> c -> unread c m (m <| channels_ ::= insert id ch |>).
Proof. intros Hne. split; [|done]. simpl. by rewrite lookup_insert_ne. Qed.
Lemma DropQueued_unread c m id : unread c m (DropQueued m id).
Proof. unfold DropQueued. destruct (send_queues_ m !! id); [by apply unread_eq|done]. Qed.
Lemma NotifyTerminal_unread c m ch reason : unread c m (NotifyTerminal m ch reason).
Proof. unfold NotifyTerminal. destruct (on_terminal ch); [by apply unread_emit|done]. Qed.
Lemma DeliverPayload_unread c m ch payload : ch_id ch <> c -> unread c m (DeliverPayload m ch payload).1.
Proof.
  intros Hne. unfold DeliverPayload. destruct (on_data ch); [|done]. apply unread_emit. simpl.
  by rewrite (proj2 (Z.eqb_neq _ _) Hne).
Qed.

Lemma ResetChannel_unread c m id code : id <> c -> unread c m (ResetChannel m id code).1.
Proof.
  intros Hne. unfold ResetChannel. destruct (channels_ m !! id) as [ch|]; [|done]. cbv zeta.
  set (frame := _ <| reset_code := code |>). set (m1 := update_channel id _ m).
  assert (H1 : unread c m m1) by (by apply update_unread). via unread_trans with H1.
  pose proof (DropQueued_unread c m1 id) as H2. via unread_trans with H2.
  pose proof (SendFrame_unread c (DropQueued m1 id) frame (policy ch)) as H3.
  destruct (SendFrame _ frame (policy ch)) as [m3 sent]. simpl in H3. via unread_trans with H3. by apply delete_unread.
Qed.

Lemma adopt_handlers_unread c m id : id <> c -> unread c m (adopt_handlers m id).
Proof.
  intros Hne. unfold adopt_handlers. set (m1 := match pending_handlers_ m !! id with Some _ => _ | None => _ end).
  assert (H1 : unread c m m1).
  { subst m1. destruct (pending_handlers_ m !! id) as [h|]; [|done].
    etrans; [by apply (update_unread c m id (fun ch => ch <| on_data := h |>))|by apply unread_eq]. }
  via unread_trans with H1. destruct (pending_terminal_handlers_ m1 !! id) as [h|]; [|done].
  etrans; [by apply (update_unread c m1 id (fun ch => ch <| on_terminal := h |>))|by apply unread_eq].
Qed.

Lemma HandleOpen_unread c m frame : channel_id (fr_header frame) <> c -> unread c m (HandleOpen m frame).1.
Proof.
  intros Hne. unfold HandleOpen. cbv zeta.
  assert (Href : forall r, unread c m (RefuseOpen m frame r).1).
  { intros r. unfold RefuseOpen. cbv zeta. etrans; [|apply SendFrame_unread]. by apply unread_eq. }
  case_bool_decide; [done|]. destruct (BadIdParity _ _); [done|]. destruct (_ <=? _); [done|].
  destruct (_ && _); [done|]. set (id := channel_id (fr_header frame)) in *.
  pose proof (insert_unread c m id (InboundRecord frame) Hne) as H1. set (m1 := m <| channels_ ::= _ |>) in *.
  pose proof (adopt_handlers_unread c m1 id Hne) as H2. set (m2 := adopt_handlers m1 id) in *.
  set (ack := _ <| open_ack_result := 0 |>).
  pose proof (SendFrame_unread c m2 ack (policy (InboundRecord frame))) as H3.
  destruct (SendFrame m2 ack _) as [m3 sent]. simpl in H3. via unread_trans with H1. via unread_trans with H2.
  via unread_trans with H3. destruct sent; [|done]. destruct (protocol_handlers_ m3 !! _); [by apply unread_emit|done].
Qed.

Lemma HandleOpenAck_unread c m frame : channel_id (fr_header frame) <> c -> unread c m (HandleOpenAck m frame).1.
Proof.
  intros Hne. unfold HandleOpenAck. cbv zeta. destruct (channels_ m !! _) as [ch|]; [|done]. destruct (negb _); cbn [fst].
  - etrans; [by apply update_unread|]. etrans; [|by apply delete_unread]. etrans; [|apply NotifyTerminal_unread].
    by apply unread_eq.
  - etrans; [by apply update_unread|]. unfold FlushPendingOpenData. destruct (pending_open_data_ _ !! _); [|done].
    etrans; [|by apply SendData_unread]. by apply unread_eq.
Qed.

(** A frame of another channel, or none at all, does nothing to [c]. *)
Lemma OnFrameInbound_unread c m wire :
  mux_inv m -> (forall frame, DecodeFrame wire = Ok frame -> channel_id (fr_header frame) <> c) ->
  unread c m (OnFrameInbound m wire).1.
Proof.
  intros Hinv Hne. unfold OnFrameInbound. destruct (DecodeFrame wire) as [frame|]; [|done].
  specialize (Hne frame eq_refl). unfold DispatchFrame. cbv zeta. set (id := channel_id (fr_header frame)) in *.
  destruct (channels_ m !! id) as [ch|] eqn:Hch; [|case_bool_decide; [by apply HandleOpen_unread|done]].
  destruct (mi_channels _ Hinv _ _ Hch) as [Hid _].
  destruct (frame_type (fr_header frame)); try done.
  - by apply HandleOpen_unread.
  - by apply HandleOpenAck_unread.
  - unfold HandleData. fold id. destruct (negb _); [done|].
    destruct (NextInSequence ch _) as [ch'|] eqn:Hn; [|done]. apply NextInSequence_same in Hn as (Hid' & _).
    cbv zeta. etrans; [by apply (insert_unread c m id)|]. apply DeliverPayload_unread. simpl. congruence.
  - unfold EndChannel. cbn [fst]. etrans; [apply DropQueued_unread|]. etrans; [by apply update_unread|].
    etrans; [apply NotifyTerminal_unread|]. by apply delete_unread.
  - unfold EndChannel. cbn [fst]. etrans; [apply DropQueued_unread|]. etrans; [by apply update_unread|].
    etrans; [apply NotifyTerminal_unread|]. by apply delete_unread.
  - unfold HandleFrag. fold id. destruct (negb _); [done|].
    destruct (NextInSequence ch _) as [ch'|] eqn:Hn; [|done]. apply NextInSequence_same in Hn as (Hid' & _).
    destruct (Push _ _ _) as [r [[payload|]|e]]; cbv zeta.
    + etrans; [by apply (insert_unread c m id)|]. apply DeliverPayload_unread. simpl. congruence.
    + by apply (insert_unread c m id).
    + cbn [fst]. set (ch2 := ch' <| read_clock_ms := -1 |> <| reassembly := r |>).
      pose proof (insert_unread c m id ch2 Hne) as H1. via unread_trans with H1. set (m1 := m <| channels_ ::= _ |>).
      assert (Hne2 : ch_id ch2 <> c) by (simpl; congruence).
      pose proof (ResetChannel_unread c m1 (ch_id ch2) 1 Hne2) as H2. via unread_trans with H2.
      destruct (on_terminal ch2); [by apply unread_emit|done].
Qed.

End Receiver.

(** ** Bounds *)

Section Bounds.
Context {T : Type} `{MuxTransport T}.
Abbreviation Mux := (ChannelMux T).

(** A multiplexer with its transport set. *)
Definition started (initiator : bool) (t : T) : Mux := ChannelMux_new initiator t <| transport_set := true |>.

Lemma started_inv initiator t : mux_inv (started initiator t).
Proof.
  split; simpl; try done. by destruct initiator.
Qed.

Lemma run_mux_inv (ops : list (mux_op T)) : forall m,
  mux_inv m -> pending_open_data_ m !! (-1) = None -> Forall mux_op_ok ops -> mux_inv (run_mux m ops).
Proof.
  induction ops as [|o ops IH]; intros m Hinv Hp Hok; [done|]. apply Forall_cons in Hok as [Ho Hok].
  assert (Hk : kept (-1) m (run_mux_op m o).1).
  { apply run_mux_op_kept; try done.
    - right. unfold is_u32. lia.
    - destruct o; try done; simpl in Ho; unfold is_u32 in Ho; lia. }
  apply IH; [apply Hk|by apply Hk|done].
Qed.

(** The channels of [m'] are those of [m], but for [id]. *)
Lemma unread_size id (m m' : Mux) :
  (forall c, c <> id -> unread c m m') ->
  (base.size (channels_ m') <= base.size (channels_ m) + (if decide (is_Some (channels_ m !! id)) then 0 else 1))%nat.
Proof.
  intros Hun. rewrite <- !(size_dom (D := gset Z)).
  assert (Hsub : dom (channels_ m') ⊆ dom (channels_ m) ∪ {[id]}).
  { intros c Hc. destruct (decide (c = id)) as [->|Hne]; [set_solver|]. apply elem_of_union_l.
    apply elem_of_dom. apply elem_of_dom in Hc. by rewrite (proj1 (Hun c Hne)) in Hc. }
  apply subseteq_size in Hsub. destruct (decide _) as [Hs|Hs].
  - assert (Heq : dom (channels_ m) ∪ {[id]} = dom (channels_ m)).
    { apply elem_of_dom in Hs. set_solver. }
    rewrite Heq in Hsub. lia.
  - rewrite size_union, size_singleton in Hsub; [lia|].
    assert (id ∉ dom (channels_ m)) by (by rewrite elem_of_dom). set_solver.
Qed.

Lemma OnFrameInbound_channels (m : Mux) wire :
  mux_inv m ->
  Z.of_nat (base.size (channels_ (OnFrameInbound m wire).1))
  <= Z.max (Z.of_nat (base.size (channels_ m))) (max_concurrent_channels (mux_tuning_ m)).
Proof.
  intros Hinv. destruct (DecodeFrame wire) as [frame|] eqn:Hd; [|unfold OnFrameInbound; rewrite Hd; simpl; lia].
  set (id := channel_id (fr_header frame)).
  assert (Hun : forall c, c <> id -> unread c m (OnFrameInbound m wire).1).
  { intros c Hne. apply OnFrameInbound_unread; [done|]. intros f Hf. rewrite Hd in Hf. injection Hf as <-. auto. }
  pose proof (unread_size id m _ Hun) as Hsz.
  destruct (decide (is_Some (channels_ m !! id))) as [Hs|Hs]; [lia|].
  destruct (Z.leb_spec (max_concurrent_channels (mux_tuning_ m)) (Z.of_nat (base.size (channels_ m)))) as [Hfull|Hroom];
    [|lia].
  enough (Hsame : channels_ (OnFrameInbound m wire).1 = channels_ m) by (rewrite Hsame; lia).
  assert (Href : forall r, channels_ (RefuseOpen m frame r).1 = channels_ m).
  { intros r. apply map_eq. intros c. unfold RefuseOpen. cbv zeta.
    by rewrite (proj1 (SendFrame_unread c _ _ _)). }
  unfold OnFrameInbound. rewrite Hd. unfold DispatchFrame. fold id. apply eq_None_not_Some in Hs. rewrite Hs.
  cbv zeta iota. case_bool_decide; [|done]. unfold HandleOpen. fold id. rewrite Hs, bool_decide_false by by intros [? ?].
  cbv zeta iota. destruct (BadIdParity m id); [apply Href|]. by rewrite (proj2 (Z.leb_le _ _) Hfull).
Qed.

(** C36: what a multiplexer holds is bounded.  Through any run of operations the
    byte count it keeps is that of the frames waiting for the transport, and
    never passes the tuned maximum; and no inbound frame, whatever it is, takes
    the number of channels past the larger of the tuned maximum and what it was. *)
Theorem mux_bounded (initiator : bool) (t : T) (ops : list (mux_op T)) (wire : bytes) :
  Forall mux_op_ok ops ->
  let m := run_mux (started initiator t) ops in
  queued_bytes_ m = queued_total (send_queues_ m)
  /\ queued_bytes_ m <= Z.max 0 (max_queued_bytes (mux_tuning_ m))
  /\ Z.of_nat (base.size (channels_ (OnFrameInbound m wire).1))
     <= Z.max (Z.of_nat (base.size (channels_ m))) (max_concurrent_channels (mux_tuning_ m)).
Proof.
  intros Hok m. assert (Hinv : mux_inv m) by (apply run_mux_inv; [apply started_inv|done|done]).
  split_and!; [apply Hinv|apply Hinv|by apply OnFrameInbound_channels].
Qed.

End Bounds.

(** ** What closing leaves behind *)

Section Closing.
Context {T : Type} `{MuxTransport T}.
Abbreviation Mux := (ChannelMux T).

(** A channel closed here, with no read timeout. *)
Definition lingering (c : Z) (m : Mux) : Prop :=
  exists ch, channels_ m !! c = Some ch /\ state ch = ChannelClosing /\ read_timeout (policy ch) <= 0.

Lemma lingering_unread c m m' : lingering c m -> unread c m m' -> lingering c m'.
Proof. intros (ch & Hch & Hr) [Hc _]. exists ch. by rewrite Hc. Qed.

Lemma MuxTick_lingering c m now : lingering c m -> lingering c (MuxTick m now).
Proof.
  intros (ch & Hch & Hst & Hrt). unfold MuxTick. cbv zeta.
  eapply lingering_unread; [|apply flush_loop_unread].
  set (m1 := m <| channels_ ::= _ |>). unfold ExpireIdleReaders. cbv zeta.
  assert (Hids : forall id, id ∈ omap (fun '(id, c) => if (idle_scan now c).2 then Some id else None)
                              (map_to_list (channels_ m1)) -> id <> c).
  { intros id Hin ->. apply list_elem_of_omap in Hin as ([id' ch'] & Hin & Hid).
    apply elem_of_map_to_list in Hin. destruct (idle_scan now ch') as [? []] eqn:Hscan; [|done].
    injection Hid as ->. simpl in Hin. rewrite lookup_fmap, Hch in Hin. injection Hin as <-.
    unfold idle_scan in Hscan. simpl in Hscan. by rewrite (proj2 (Z.leb_le _ _) Hrt) in Hscan. }
  revert Hids. generalize (omap (M := list) (fun '(id, c) => if (idle_scan now c).2 then Some id else None)
    (map_to_list (channels_ m1))) as ids. intros ids Hids.
  set (m2 := m1 <| channels_ ::= _ |>).
  assert (H2 : lingering c m2).
  { eexists. simpl. rewrite !lookup_fmap, Hch. simpl. split; [reflexivity|].
    unfold idle_scan. simpl. by rewrite (proj2 (Z.leb_le _ _) Hrt). }
  clearbody m2. clear m1. revert m2 H2. induction ids as [|id ids IH]; intros m2 H2; [done|]. cbn [fold_left].
  apply IH; [intros id' Hin; apply Hids; set_solver|].
  eapply lingering_unread; [exact H2|]. unfold ExpireReader. destruct (channels_ m2 !! id); [|done]. cbv zeta.
  pose proof (ResetChannel_unread c m2 id 1 (Hids id ltac:(set_solver))) as Hun.
  destruct (on_terminal _); [|done]. via unread_trans with Hun. by apply unread_emit.
Qed.

(** A closed channel's record is not erased: once closed here it stays, in state
    Closing, through any number of ticks (unless it has a read timeout), and the
    peer, on the Close, sends nothing that would end it. *)
Theorem closed_record_stays (m : Mux) (c : Z) (ch : ChannelRecord) (reason : bytes) (ticks : list Z)
    (R : Type) `(MuxTransport R) (r : ChannelMux R) (chr : ChannelRecord) (frame : ChannelFrame) :
  channels_ m !! c = Some ch -> read_timeout (policy ch) <= 0 ->
  channels_ r !! c = Some chr -> fr_header frame = MkChannelHeader FrameClose c (tx_seq ch) ->
  (let m' := fold_left MuxTick ticks (CloseChannel m c reason).1 in
   MuxState m' c = ChannelClosing /\ (1 <= base.size (channels_ m'))%nat)
  /\ (let r' := (DispatchFrame r frame).1 in
      channels_ r' !! c = None /\ transport r' = transport r
      /\ omap (fun e => match e with EvSend _ w _ => Some w | _ => None end) (mux_log r')
         = omap (fun e => match e with EvSend _ w _ => Some w | _ => None end) (mux_log r)).
Proof.
  intros Hch Hrt Hchr Hh. split.
  - assert (Hl : lingering c (CloseChannel m c reason).1).
    { unfold CloseChannel. rewrite Hch. cbv zeta. set (frame0 := _ <| fr_payload := reason |>).
      eapply lingering_unread; [|apply SendFrame_unread]. eexists. simpl. rewrite lookup_alter_eq, Hch.
      split; [reflexivity|done]. }
    assert (Hl' : lingering c (fold_left MuxTick ticks (CloseChannel m c reason).1)).
    { revert Hl. generalize (CloseChannel m c reason).1. induction ticks as [|now ticks IH]; intros m0 Hm0; [done|].
      apply IH. by apply MuxTick_lingering. }
    cbv zeta. destruct Hl' as (ch' & Hch' & Hst & _). unfold MuxState. rewrite Hch'. split; [done|].
    destruct (decide (base.size (channels_ (fold_left MuxTick ticks (CloseChannel m c reason).1)) = O)) as [He|]; [|lia].
    apply map_size_empty_inv in He. by rewrite He in Hch'.
  - unfold DispatchFrame. rewrite Hh. cbn [channel_id frame_type]. rewrite Hchr. unfold EndChannel, NotifyTerminal.
    cbv zeta. cbn [fst]. unfold DropQueued. destruct (send_queues_ r !! c); destruct (on_terminal chr); simpl;
      (split_and!; [by apply lookup_delete_eq|done|]); rewrite ?omap_app; simpl; by rewrite ?app_nil_r.
Qed.

(** An acknowledgement is not checked against the channel's state: one that
    arrives for a channel closed here meanwhile opens it again. *)
Theorem late_open_ack_reopens (m : Mux) (c : Z) (ch : ChannelRecord) (frame : ChannelFrame) (s : Z) :
  channels_ m !! c = Some ch -> state ch = ChannelClosing -> pending_open_data_ m !! c = None ->
  fr_header frame = MkChannelHeader FrameOpenAck c s -> open_ack_result frame = 0 ->
  MuxState (DispatchFrame m frame).1 c = ChannelOpen /\ (DispatchFrame m frame).2 = Ok tt.
Proof.
  intros Hch Hst Hp Hh Hr. unfold DispatchFrame. rewrite Hh. cbn [channel_id frame_type]. rewrite Hch.
  unfold HandleOpenAck. rewrite Hh. cbn [channel_id]. rewrite Hch, Hr. cbn. unfold FlushPendingOpenData. simpl.
  rewrite Hp. unfold MuxState. simpl. by rewrite lookup_alter_eq, Hch.
Qed.

End Closing.

(** ** Witnesses *)

Section Witness.

(** A transport with a number of credits, that takes every frame. *)
#[local] Instance toy_transport : MuxTransport Z := {|
  transport_send := fun n qos _ => (if bool_decide (qos = Reliable) then n - 1 else n, Ok tt);
  transport_credits := fun n => Some n;
|}.

Definition channel_example : ChannelRecord :=
  ChannelRecord_default <| ch_id := 1 |> <| policy := MakeBulkChannelPolicy |> <| state := ChannelOpen |>
    <| on_data := Some 7%nat |> <| reassembly := ReassemblyFor MakeBulkChannelPolicy |>.
Definition sender_example : ChannelMux Z := started true 2 <| channels_ := {[1 := channel_example]} |>.
Definition receiver_example : ChannelMux Z := started false 0 <| channels_ := {[1 := channel_example]} |>.
Definition long_example : bytes := map Z.of_nat (List.seq 0 100).
Definition ops_example : list (mux_op Z) :=
  [OpFrameBudget 64; OpSendData 1 [5; 6]; OpSendData 1 long_example; OpTransport 2; OpTick 0; OpSendData 1 [];
   OpTransport 5; OpTick 1].

Lemma example_inv (m : ChannelMux Z) : m = sender_example \/ m = receiver_example -> mux_inv m.
Proof.
  intros Hm. split; destruct Hm as [-> | ->]; simpl; try done; try lia.
  all: intros id ch [<- <-]%lookup_singleton_Some; by split.
Qed.

Theorem mux_bounded_witness :
  let m := run_mux (started true 2) [OpOpenOutbound [1] MakeBulkChannelPolicy None; OpTick 3] in
  queued_bytes_ m = queued_total (send_queues_ m)
  /\ queued_bytes_ m <= Z.max 0 (max_queued_bytes (mux_tuning_ m))
  /\ Z.of_nat (base.size (channels_ (OnFrameInbound m [0; 2; 0; 0; 0; 0; 0; 0; 0]).1))
     <= Z.max (Z.of_nat (base.size (channels_ m))) (max_concurrent_channels (mux_tuning_ m)).
Proof. apply (mux_bounded true 2). repeat constructor. Defined.

(** A message refused at the queue's cap after some of its fragments went: the
    check before sending counts the payload, the queue counts whole frames. *)
Definition stranded_example : ChannelMux Z :=
  sender_example <| transport := 0 |> <| max_frame_bytes_ := 64 |>
    <| mux_tuning_ := MkMuxTuning 256 150 30000 |>.
Theorem message_stranded_at_cap :
  let '(m, sent) := SendData stranded_example 1 long_example in
  sent = Fail (Err_ "amp mux: send queue full") /\ QueuedFrameCount m = 2%nat.
Proof. vm_compute. split; reflexivity. Qed.

Theorem closed_record_stays_witness :
  MuxState (fold_left MuxTick [100; 1000000] (CloseChannel sender_example 1 []).1) 1 = ChannelClosing.
Proof.
  destruct (closed_record_stays sender_example 1 channel_example [] [100; 1000000] Z toy_transport receiver_example
              channel_example (frame_of (MkChannelHeader FrameClose 1 (tx_seq channel_example)))) as [[Hst _] _];
    [reflexivity|by vm_compute|reflexivity|reflexivity|exact Hst].
Defined.

End Witness.
