(* ===== verification/ChannelRuns.v ===== *)
(** * A channel from end to end

    Runs of the reading multiplexer through any operations that let the channel
    be, and the composition of a sending and a reading run over a transport. *)

From S2P Require Import Prelude L1Types Toy ChannelWire Capability MessageReassembly ChannelPolicy ChannelMux ChannelMuxFacts MuxReach ChannelMuxProps.

Section Reading.
Context {T : Type} `{MuxTransport T}.
Abbreviation Mux := (ChannelMux T).

(** ** What leaves a reader alone *)

(** The part of a record its reader depends on. *)
Definition reader_view (ch : ChannelRecord) := (state ch, policy ch, on_data ch, rx_seq ch, reassembly ch).
Definition unmoved (c : Z) (m m' : Mux) : Prop :=
  reader_view <$> channels_ m' !! c = reader_view <$> channels_ m !! c /\ delivered c m' = delivered c m.
#[export] Instance unmoved_preorder c : PreOrder (unmoved c).
Proof. split; [done|]. intros m1 m2 m3 [H1 H2] [J1 J2]. split; congruence. Qed.

Lemma unread_unmoved c m m' : unread c m m' -> unmoved c m m'.
Proof. intros [Hc Hd]. split; [by rewrite Hc|done]. Qed.
Lemma update_unmoved c m id f : (forall ch, reader_view (f ch) = reader_view ch) -> unmoved c m (update_channel id f m).
Proof.
  intros Hf. split; [|done]. simpl. destruct (decide (id = c)) as [->|Hne]; [|by rewrite lookup_alter_ne].
  rewrite lookup_alter_eq. destruct (channels_ m !! c); simpl; [by rewrite Hf|done].
Qed.
Lemma fmap_unmoved c m f : (forall ch, channels_ m !! c = Some ch -> reader_view (f ch) = reader_view ch) ->
  unmoved c m (m <| channels_ ::= fmap f |>).
Proof. intros Hf. split; [|done]. simpl. rewrite lookup_fmap. destruct (channels_ m !! c); simpl; [by rewrite Hf|done]. Qed.

(** Sending moves the sequence number of the channel only. *)
Lemma send_fragments_unmoved c n : forall i m id qos mid count cb payload,
  unmoved c m (send_fragments n i m id qos mid count cb payload).1.
Proof.
  induction n as [|n IH]; intros i m id qos mid count cb payload; cbn [send_fragments]; [done|].
  destruct (channels_ m !! id); [|done]. cbv zeta. destruct (EncodeFrag _ _ _ _ _ _) as [wire|]; [|done].
  pose proof (unread_unmoved c _ _ (SendWire_unread c m id qos wire)) as H1. destruct (SendWire m id qos wire) as [m1 sent]. simpl in H1.
  destruct sent; [|done]. destruct (channels_ m1 !! id); [|done]. case_bool_decide; [|done].
  etrans; [exact H1|]. etrans; [|apply IH]. by apply update_unmoved.
Qed.
Lemma SendData_unmoved c m id payload : unmoved c m (SendData m id payload).1.
Proof.
  unfold SendData. destruct (channels_ m !! id) as [ch|]; [|done].
  destruct (negb _); [done|]. destruct (_ <? _); [done|]. cbv zeta. destruct (_ <=? _).
  - set (frame := _ <| fr_payload := payload |>). pose proof (unread_unmoved c _ _ (SendFrame_unread c m frame (policy ch))) as H1.
    destruct (SendFrame m frame (policy ch)) as [m1 sent]. simpl in H1. destruct sent; [|done].
    etrans; [exact H1|]. by apply update_unmoved.
  - unfold SendFragmented. cbv zeta. destruct (_ <? _); [done|]. destruct (_ && _); [done|].
    etrans; [|apply send_fragments_unmoved]. by apply unread_unmoved, unread_eq.
Qed.

Lemma OpenRecord_unmoved c m id p pol : id <> c -> unmoved c m (OpenRecord m id p pol).1.
Proof.
  intros Hne. unfold OpenRecord. cbv zeta. set (m1 := m <| channels_ ::= _ |>).
  assert (H1 : unread c m m1) by (by apply (insert_unread c m id)).
  pose proof (adopt_handlers_unread c m1 id Hne) as H2. set (m2 := adopt_handlers m1 id) in *.
  set (frame := _ <| fr_open := _ |>). pose proof (SendFrame_unread c m2 frame pol) as H3.
  destruct (SendFrame m2 frame pol) as [m3 [u|e]]; cbn [fst] in *; apply unread_unmoved; (etrans; [exact H1|]); by etrans.
Qed.
Lemma OpenOutbound_unmoved c m p pol fixed : is_Some (channels_ m !! c) -> unmoved c m (OpenOutbound m p pol fixed).1.
Proof.
  intros [ch Hch]. unfold OpenOutbound. destruct fixed as [id|].
  - destruct (channels_ m !! id) eqn:Hid; [done|]. apply OpenRecord_unmoved. congruence.
  - destruct (NextDynamicId m) as [m1 id] eqn:Hn. assert (Hm1 : unmoved c m m1 /\ channels_ m1 = channels_ m).
    { unfold NextDynamicId in Hn. cbv zeta in Hn. destruct (_ =? _); injection Hn as <- _; (split; [by apply unread_unmoved, unread_eq|done]). }
    destruct Hm1 as [Hu Hc]. destruct (channels_ m1 !! id) eqn:Hid; [done|]. etrans; [exact Hu|].
    apply OpenRecord_unmoved. rewrite Hc in Hid. congruence.
Qed.

(** A tick that finds neither the reader of [c] idle too long nor a message of
    it too long under way. *)
Definition in_time (c now_ms : Z) (m : Mux) : Prop :=
  match channels_ m !! c with
  | Some ch =>
      (idle_scan now_ms ch).2 = false
      /\ SweepExpired (reassembly ch) now_ms (if lossy_ (reassembly ch) then kLossyFragAssemblyTimeoutMs
                                              else frag_assembly_timeout_ms (mux_tuning_ m)) = reassembly ch
  | None => True
  end.
Lemma idle_scan_view now ch : reader_view (idle_scan now ch).1 = reader_view ch.
Proof. unfold idle_scan. destruct (_ || _); [done|]. by destruct (_ <? 0). Qed.

Lemma ExpireReader_unmoved c m id : id <> c -> unmoved c m (ExpireReader m id).
Proof.
  intros Hne. unfold ExpireReader. destruct (channels_ m !! id); [|done]. cbv zeta.
  pose proof (ResetChannel_unread c m id 1 Hne) as Hun. apply unread_unmoved.
  destruct (on_terminal _); [|done]. via unread_trans with Hun. by apply unread_emit.
Qed.
Lemma MuxTick_unmoved c m now : in_time c now m -> unmoved c m (MuxTick m now).
Proof.
  intros Ht. unfold MuxTick. cbv zeta. etrans; [|apply unread_unmoved, flush_loop_unread].
  set (sweep := fun ch : ChannelRecord => _). set (m1 := m <| channels_ ::= _ |>).
  assert (H1 : unmoved c m m1).
  { apply fmap_unmoved. intros ch Hch. unfold in_time in Ht. rewrite Hch in Ht. destruct Ht as [_ Hs]. unfold reader_view, sweep. simpl. by rewrite Hs. }
  etrans; [exact H1|]. unfold ExpireIdleReaders. cbv zeta.
  assert (Hids : forall id, id ∈ omap (fun '(id, c) => if (idle_scan now c).2 then Some id else None)
                              (map_to_list (channels_ m1)) -> id <> c).
  { intros id Hin ->. apply list_elem_of_omap in Hin as ([id' ch'] & Hin & Hid). apply elem_of_map_to_list in Hin.
    destruct (idle_scan now ch') as [? []] eqn:Hscan; [|done]. injection Hid as ->. simpl in Hin.
    apply lookup_fmap_Some in Hin as (ch & <- & Hch). unfold in_time in Ht. rewrite Hch in Ht. destruct Ht as [Hi _].
    assert (Hsame : (idle_scan now (sweep ch)).2 = (idle_scan now ch).2).
    { unfold idle_scan, sweep. simpl. destruct (_ || _); [done|]. by destruct (_ <? 0). }
    rewrite Hscan, Hi in Hsame. done. }
  revert Hids. generalize (omap (M := list) (fun '(id, c) => if (idle_scan now c).2 then Some id else None)
    (map_to_list (channels_ m1))) as ids. intros ids Hids.
  etrans; [apply (fmap_unmoved c m1 (fun ch => (idle_scan now ch).1)); intros; apply idle_scan_view|].
  set (m2 := m1 <| channels_ ::= _ |>). clearbody m2. revert m2.
  induction ids as [|id ids IH]; intros m2; [done|]. cbn [fold_left]. etrans; [apply ExpireReader_unmoved, Hids; by left|].
  apply IH. intros id' Hin. apply Hids. by right.
Qed.

(** Operations that let the reader of [c] be. *)
Definition calm (c : Z) (m : Mux) (o : mux_op T) : Prop :=
  match o with
  | OpClose id _ | OpReset id _ | OpSetDataHandler id _ | OpApplyPolicy id _ => id <> c
  | OpTick now_ms => in_time c now_ms m
  | _ => True
  end.

(** ** Its own frames *)

Fixpoint upto (k : nat) : list nat := match k with O => [] | S k => k :: upto k end.
Lemma elem_of_upto k i : i ∈ upto k <-> (i < k)%nat.
Proof.
  induction k as [|k IH]; simpl; [split; [by intros ?%elem_of_nil|lia]|]. rewrite elem_of_cons, IH. lia.
Qed.

(** [c] is read in order: its next number is [s], and [cur] is what came of the
    message under way. *)
Definition partials_of (cur : option (Z * list bytes * nat)) (t0 : Z) : gmap Z Partial :=
  match cur with
  | None => ∅
  | Some (mid, l, k) => {[mid := partial_of l (upto k) t0]}
  end.
Definition reader (rmax : Z) (h : nat) (s : Z) (cur : option (Z * list bytes * nat)) (ch : ChannelRecord) : Prop :=
  state ch = ChannelOpen /\ QosForClass (cls (policy ch)) = Reliable /\ on_data ch = Some h /\ rx_seq ch = s
  /\ reassembly_inv (reassembly ch) /\ lossy_ (reassembly ch) = false /\ max_partials_ (reassembly ch) = 64
  /\ max_message_bytes_ (reassembly ch) = rmax /\ exists t0, partial_ (reassembly ch) = partials_of cur t0.
Definition reading (c rmax : Z) (h : nat) (s : Z) (cur : option (Z * list bytes * nat)) (m : Mux) : Prop :=
  mux_inv m /\ pending_open_data_ m !! c = None /\ exists ch, channels_ m !! c = Some ch /\ reader rmax h s cur ch.

(** The reader depends on that view. *)
Lemma reader_of_view rmax h s cur ch ch' : reader_view ch' = reader_view ch -> reader rmax h s cur ch -> reader rmax h s cur ch'.
Proof. unfold reader. by intros [= -> -> -> -> ->]. Qed.
Lemma reading_unmoved c rmax h s cur m m' :
  reading c rmax h s cur m -> unmoved c m m' -> mux_inv m' -> pending_open_data_ m' !! c = None -> reading c rmax h s cur m'.
Proof.
  intros (_ & _ & ch & Hch & Hr) [Hc _] Hinv Hp. split_and!; [done|done|]. rewrite Hch in Hc.
  apply fmap_Some in Hc as (ch' & Hch' & Hv). exists ch'. split; [done|]. by apply (reader_of_view _ _ _ _ ch).
Qed.

Lemma data_frame_ok c s payload : is_u32 c -> is_u32 s -> bytes_ok payload -> frame_ok (data_frame c s payload).
Proof. intros Hc Hs Hp. split; [by split; [|split]|]. by split. Qed.

Lemma DecodeFrame_wire f : frame_ok f -> DecodeFrame (frame_wire f) = Ok f.
Proof. apply DecodeFrame_of_body. Qed.

Lemma NextInSequence_reader rmax h s cur ch hdr :
  reader rmax h s cur ch -> channel_seq hdr = s ->
  NextInSequence ch hdr = Some (ch <| rx_seq ::= fun n => u32 (n + 1) |>).
Proof.
  intros (_ & Hq & _ & Hs & _) Hh. unfold NextInSequence. rewrite Hq, bool_decide_true by done.
  by rewrite Hh, Hs, Z.eqb_refl.
Qed.

Lemma read_data c rmax h s m payload :
  reading c rmax h s None m -> is_u32 c -> is_u32 s -> bytes_ok payload ->
  let m' := (OnFrameInbound m (frame_wire (data_frame c s payload))).1 in
  reading c rmax h (u32 (s + 1)) None m' /\ delivered c m' = delivered c m ++ [payload].
Proof.
  intros (Hinv & Hp & ch & Hch & Hr) Hc Hs Hb. unfold OnFrameInbound.
  rewrite DecodeFrame_wire by (by apply data_frame_ok). unfold DispatchFrame. cbv zeta.
  change (channel_id (fr_header (data_frame c s payload))) with c. rewrite Hch.
  change (frame_type (fr_header (data_frame c s payload))) with FrameData. cbv iota.
  destruct (mi_channels _ Hinv _ _ Hch) as [Hid _].
  pose proof (HandleData_kept c m ch (data_frame c s payload) Hinv Hch) as (Hinv' & Hp' & _).
  revert Hinv' Hp'. unfold HandleData. change (channel_id (fr_header (data_frame c s payload))) with c.
  destruct Hr as (Ho & Hr). rewrite Ho, bool_decide_true by done. cbn [negb].
  rewrite (NextInSequence_reader rmax h s None ch) by done. cbv zeta.
  set (ch' := _ <| read_clock_ms := -1 |>). set (m1 := m <| channels_ ::= _ |>).
  destruct Hr as (Hq & Hd & Hrx & Hri & Hlo & Hmp & Hmm & Hpa).
  unfold DeliverPayload. change (on_data ch') with (on_data ch). rewrite Hd. cbn [fst].
  intros Hinv' Hp'. split.
  - split_and!; [done|by auto|]. exists ch'. split; [simpl; by rewrite lookup_insert_eq|].
    split_and!; try done. simpl. by rewrite Hrx.
  - rewrite delivered_emit. simpl. by rewrite Hid, Z.eqb_refl.
Qed.

Lemma piece_bytes_ok l (i : nat) : bytes_ok (concat l) -> bytes_ok (default [] (l !! i)).
Proof.
  intros Hok. destruct (l !! i) as [p|] eqn:Hp; [|constructor]. simpl.
  apply Forall_concat in Hok. by apply (Forall_lookup_1 _ _ _ _ Hok Hp).
Qed.

Lemma frag_frame_ok c s mid l i :
  is_u32 c -> is_u64 mid -> (i < length l)%nat -> size l < 2 ^ 16 -> size (concat l) < 2 ^ 32 ->
  bytes_ok (concat l) -> frame_ok (frag_frame c s mid l i).
Proof.
  intros Hc Hm Hi H16 H32 Hb. split; [split; [done|split; [apply u32_range|done]]|]. split; [|done].
  pose proof (size_nonneg (concat l)). pose proof (size_nonneg l). unfold is_u64, size in *.
  unfold frag_ok, is_u64, is_u32, is_u16. simpl. unfold size.
  split_and!; try lia. by apply piece_bytes_ok.
Qed.

Lemma read_frag c rmax h s mid l i m :
  reading c rmax h (u32 (s + Z.of_nat i)) (if (0 <? i)%nat then Some (mid, l, i) else None) m ->
  is_u32 c -> is_u64 mid -> (i < length l)%nat -> pieces_ok rmax l -> bytes_ok (concat l) ->
  let m' := (OnFrameInbound m (frame_wire (frag_frame c s mid l i))).1 in
  let last := (S i =? length l)%nat in
  reading c rmax h (u32 (s + Z.of_nat (S i))) (if last then None else Some (mid, l, S i)) m'
  /\ delivered c m' = delivered c m ++ (if last then [concat l] else []).
Proof.
  intros (Hinv & Hp & ch & Hch & Hr) Hc Hmid Hi Hl Hb.
  assert (Hok : frame_ok (frag_frame c s mid l i)) by (destruct Hl as (? & ? & ? & ? & ?); by apply frag_frame_ok).
  unfold OnFrameInbound. rewrite DecodeFrame_wire by done. unfold DispatchFrame. cbv zeta.
  change (channel_id (fr_header (frag_frame c s mid l i))) with c. rewrite Hch.
  change (frame_type (fr_header (frag_frame c s mid l i))) with FrameFrag. cbv iota.
  destruct (mi_channels _ Hinv _ _ Hch) as [Hid _].
  pose proof (HandleFrag_kept c m ch (frag_frame c s mid l i) Hinv Hch) as (Hinv' & Hp' & _).
  revert Hinv' Hp'. unfold HandleFrag. change (channel_id (fr_header (frag_frame c s mid l i))) with c.
  pose proof Hr as (Ho & Hq & Hd & Hrx & Hri & Hlo & Hmp & Hmm & t0 & Hpa).
  rewrite Ho, bool_decide_true by done. cbn [negb].
  rewrite (NextInSequence_reader _ _ _ _ ch (fr_header (frag_frame c s mid l i)) Hr eq_refl).
  set (ch1 := ch <| rx_seq ::= _ |>). change (reassembly ch1) with (reassembly ch).
  change (fr_frag (frag_frame c s mid l i)) with (fragment_of mid l i).
  set (t := if (0 <? i)%nat then t0 else clock_now m).
  destruct (push_own (reassembly ch) mid l (upto i) t i (clock_now m)) as (r1 & Hr1 & Hrm & Hrk & Hrl & Hpush);
    [done|by rewrite Hmm|done| |].
  { rewrite Hpa. subst t. destruct i as [|i]; simpl.
    - right. split_and!; try done. rewrite map_size_empty, Hmp. lia.
    - left. by rewrite lookup_singleton_eq. }
  assert (Hinsert : <[mid := partial_of l (upto i) t]> (partial_ (reassembly ch)) = {[mid := partial_of l (upto i) t]}).
  { rewrite Hpa. destruct i; simpl; [done|]. by rewrite insert_singleton_eq. }
  rewrite Hinsert in Hr1. rewrite bool_decide_false in Hpush by (rewrite elem_of_upto; lia).
  change (i :: upto i) with (upto (S i)) in Hpush.
  assert (Hlast : existsb (fun c : bytes => bool_decide (c = [])) (masked (upto (S i)) l) = negb (S i =? length l)%nat).
  { apply eq_true_iff_eq. rewrite (masked_hole _ _ (proj1 Hl)), negb_true_iff, Nat.eqb_neq. split.
    - intros (j & Hj & Hnot). rewrite elem_of_upto in Hnot. lia.
    - intros Hne. exists (S i). rewrite elem_of_upto. lia. }
  rewrite Hlast in Hpush.
  assert (Hseq : u32 (rx_seq ch + 1) = u32 (s + Z.of_nat (S i))).
  { rewrite Hrx. unfold u32. rewrite Zplus_mod_idemp_l. f_equal. lia. }
  destruct (Push (reassembly ch) (fragment_of mid l i) (clock_now m)) as [r' res] eqn:Hpr.
  assert (Hfr : frag_ok (fragment_of mid l i)) by apply Hok.
  destruct (Push_cases _ _ _ _ _ Hri Hfr Hpr) as (Hri' & Hrm' & Hrk' & Hrl' & _).
  destruct (S i =? length l)%nat; injection Hpush as Hr' ->; cbn [fst].
  - unfold DeliverPayload. set (ch2 := ch1 <| read_clock_ms := -1 |> <| reassembly := r' |>).
    change (on_data ch2) with (on_data ch). rewrite Hd. cbn [fst]. intros Hinv' Hp'. split.
    + split_and!; [done|by auto|]. exists ch2. split; [simpl; by rewrite lookup_insert_eq|].
      split_and!; try done; try (simpl; congruence). exists 0. simpl. rewrite Hr'. simpl. rewrite Hr1. by rewrite delete_singleton_eq.
    + rewrite delivered_emit. simpl. by rewrite Hid, Z.eqb_refl.
  - set (ch2 := ch1 <| read_clock_ms := -1 |> <| reassembly := r' |>). intros Hinv' Hp'. split; [|by rewrite app_nil_r].
    split_and!; [done|by auto|]. exists ch2. split; [simpl; by rewrite lookup_insert_eq|].
    split_and!; try done; try (simpl; congruence). exists t. simpl. rewrite Hr'. simpl. rewrite Hr1.
    by rewrite insert_singleton_eq.
Qed.

(** ** Its messages *)

Definition framed_frames (c s : Z) (x : framed) : list ChannelFrame :=
  let '(mfb, mid, payload) := x in message_frames mfb c s mid payload.

(** What the reader holds after [k] frames of a message. *)
Definition cur_of (x : framed) (k : nat) : option (Z * list bytes * nat) :=
  let '(mfb, mid, payload) := x in
  if (0 <? k)%nat
  then Some (mid, pieces (Z.to_nat (fragment_bytes mfb)) (fragments_needed mfb payload) payload, k)
  else None.

Lemma framed_frames_pos c s x : framed_ok x -> (0 < length (framed_frames c s x))%nat.
Proof.
  destruct x as [[mfb mid] payload]. intros (Hm & _ & _ & _ & _). unfold framed_frames, message_frames.
  destruct (Z.leb_spec (size payload) (mfb - 9)); [simpl; lia|].
  rewrite length_map, length_seq. by destruct (fragments_needed_spec mfb payload Hm) as (_ & ? & _).
Qed.

(** Frame [k] of a message read. *)
Lemma read_frame c rmax h s x k f m :
  reading c rmax h (u32 (s + Z.of_nat k)) (cur_of x k) m -> is_u32 c -> is_u32 s -> framed_ok x ->
  size x.2 <= rmax -> framed_frames c s x !! k = Some f ->
  let m' := (OnFrameInbound m (frame_wire f)).1 in
  let last := (S k =? length (framed_frames c s x))%nat in
  reading c rmax h (u32 (s + Z.of_nat (S k))) (if last then None else cur_of x (S k)) m'
  /\ delivered c m' = delivered c m ++ (if last then [x.2] else []).
Proof.
  destruct x as [[mfb mid] payload]. intros Hr Hc Hs (Hm & Hmid & Hb & H32 & H16) Hsz Hf. simpl in Hsz.
  unfold framed_frames, message_frames in *. destruct (Z.leb_spec (size payload) (mfb - 9)) as [Hsmall|Hbig].
  - apply list_lookup_singleton_Some in Hf as [-> <-]. simpl in Hr. rewrite Z.add_0_r, (u32_id s) in Hr by done.
    by apply read_data.
  - destruct (fragments_needed_spec mfb payload Hm Hbig) as (Hcb & Hn & Hlt & Hle).
    set (l := pieces (Z.to_nat (fragment_bytes mfb)) (fragments_needed mfb payload) payload) in *.
    assert (Hlen : length l = fragments_needed mfb payload) by apply pieces_length.
    assert (Hcat : concat l = payload) by (by apply pieces_concat).
    rewrite list_lookup_fmap in Hf. apply fmap_Some in Hf as (j & Hj & ->).
    apply lookup_seq in Hj as [-> Hj]. simpl (0 + k)%nat in *.
    rewrite length_map, length_seq, <- Hlen.
    assert (Hl : pieces_ok rmax l).
    { split; [|split; [by destruct l; simpl in *; [lia|]|split_and!; [unfold size; rewrite Hlen; by apply H16|by rewrite Hcat|by rewrite Hcat]]].
      apply Forall_lookup. intros i p Hp. assert (Hi : (i < fragments_needed mfb payload)%nat).
      { rewrite <- Hlen. by eapply lookup_lt_Some. }
      unfold l in Hp. rewrite pieces_lookup in Hp by done. injection Hp as <-.
      intros He. apply (f_equal length) in He. rewrite length_take, length_drop in He. simpl in He. nia. }
    change ([(mfb, mid, payload).2]) with [payload]. replace [payload] with [concat l] by (by rewrite Hcat).
    apply (read_frag c rmax h s mid l k m); try done; [lia|by rewrite Hcat].
Qed.

(** A wire is a frame of [c]. *)
Definition own (c : Z) (wire : bytes) : bool :=
  match DecodeFrame wire with
  | Ok f => channel_id (fr_header f) =? c
  | Fail _ => false
  end.

Lemma framed_frames_decode c s x f :
  is_u32 c -> is_u32 s -> framed_ok x -> f ∈ framed_frames c s x ->
  DecodeFrame (frame_wire f) = Ok f /\ channel_id (fr_header f) = c.
Proof.
  destruct x as [[mfb mid] payload]. intros Hc Hs (Hm & Hmid & Hb & H32 & H16) Hf. unfold framed_frames, message_frames in Hf.
  destruct (Z.leb_spec (size payload) (mfb - 9)) as [Hsmall|Hbig].
  - apply list_elem_of_singleton in Hf as ->. split; [|done]. by apply DecodeFrame_wire, data_frame_ok.
  - apply list_elem_of_fmap in Hf as (i & -> & Hi%elem_of_seq). split; [|done].
    destruct (fragments_needed_spec mfb payload Hm Hbig) as (Hcb & Hn & Hlt & Hle).
    apply DecodeFrame_wire, frag_frame_ok; try done; rewrite ?pieces_length, ?pieces_concat by done; try done; [lia|].
    unfold size. rewrite pieces_length. by apply H16.
Qed.

(** Where a reader is in a sequence of messages: after [k] frames of the first. *)
Definition at_frame (c rmax : Z) (h : nat) (s : Z) (msgs : list framed) (k : nat) (m : Mux) : Prop :=
  is_u32 s
  /\ match msgs with
     | [] => k = O /\ reading c rmax h s None m
     | x :: _ => (k < length (framed_frames c s x))%nat /\ reading c rmax h (u32 (s + Z.of_nat k)) (cur_of x k) m
     end.

Lemma frames_of_cons c s x msgs :
  frames_of c s (x :: msgs) = framed_frames c s x ++ frames_of c (u32 (s + size (framed_frames c s x))) msgs.
Proof. by destruct x as [[mfb mid] payload]. Qed.

Lemma at_frame_start c rmax h s msgs m :
  is_u32 s -> Forall framed_ok msgs -> reading c rmax h s None m -> at_frame c rmax h s msgs 0 m.
Proof.
  intros Hs Hok Hr. split; [done|]. destruct msgs as [|x msgs]; [done|]. apply Forall_cons in Hok as [Hx _].
  split; [by apply framed_frames_pos|]. rewrite Z.add_0_r, u32_id by done. by destruct x as [[??]?].
Qed.

(** ** Runs of the reading end *)

Definition inbound_of (o : mux_op T) : option bytes := match o with OpInbound w => Some w | _ => None end.
Definition inbound (ops : list (mux_op T)) : list bytes := omap inbound_of ops.
Definition its (c : Z) (wires : list bytes) : list bytes := filter (fun w => own c w = true) wires.
Fixpoint reader_run (c : Z) (m : Mux) (ops : list (mux_op T)) : Prop :=
  match ops with
  | [] => True
  | o :: ops => calm c m o /\ reader_run c (run_mux_op m o).1 ops
  end.

Lemma calm_step c m o :
  mux_inv m -> pending_open_data_ m !! c = None -> is_Some (channels_ m !! c) -> mux_op_ok o -> calm c m o ->
  (forall w, o = OpInbound w -> own c w = false) ->
  unmoved c m (run_mux_op m o).1 /\ mux_inv (run_mux_op m o).1 /\ pending_open_data_ (run_mux_op m o).1 !! c = None.
Proof.
  intros Hinv Hp Hc Hok Hcalm Hown. split.
  - destruct o as [id payload|wire|now|protocol p fixed|id reason|id code|id h|id h|id p|protocol h|n|t|t]; simpl in *.
    + apply SendData_unmoved.
    + apply unread_unmoved, OnFrameInbound_unread; [done|]. intros f Hd Heq. specialize (Hown wire eq_refl).
      unfold own in Hown. rewrite Hd, Heq in Hown. by rewrite Z.eqb_refl in Hown.
    + by apply MuxTick_unmoved.
    + by apply OpenOutbound_unmoved.
    + unfold CloseChannel. destruct (channels_ m !! id); [|done]. cbv zeta. apply unread_unmoved.
      etrans; [by apply (update_unread c m id)|apply SendFrame_unread].
    + by apply unread_unmoved, ResetChannel_unread.
    + unfold SetDataHandler. destruct (channels_ m !! id); [by apply unread_unmoved, update_unread|by apply unread_unmoved, unread_eq].
    + unfold SetTerminalHandler. destruct (channels_ m !! id); [by apply update_unmoved|by apply unread_unmoved, unread_eq].
    + unfold ApplyChannelPolicy. destruct (channels_ m !! id); [by apply unread_unmoved, update_unread|done].
    + by apply unread_unmoved, unread_eq.
    + unfold SetMaxFrameBytes. destruct (_ <? _); [done|]. by apply unread_unmoved, unread_eq.
    + by apply unread_unmoved, unread_eq.
    + by apply unread_unmoved, unread_eq.
  - assert (Hcase : (exists payload, o = OpSendData c payload)
      \/ match o with OpSendData id _ | OpClose id _ => id <> c | _ => True end).
    { destruct o as [id payload| | | | | | | | | | | |]; try by right. destruct (decide (id = c)) as [->|]; eauto. }
    destruct Hcase as [[payload ->]|Hne].
    + destruct (SendData_rest m c payload Hinv Hok) as (Hinv' & _ & Hp' & _). simpl. by rewrite Hp'.
    + assert (Hk : kept c m (run_mux_op m o).1).
      { by apply run_mux_op_kept; [| |left| |]. }
      split; [apply Hk|by apply Hk].
Qed.

Lemma at_frame_known c rmax h s msgs k m : at_frame c rmax h s msgs k m ->
  mux_inv m /\ pending_open_data_ m !! c = None /\ is_Some (channels_ m !! c).
Proof. destruct msgs; intros [_ [_ (H1 & H2 & ch & H3 & _)]]; by rewrite H3. Qed.
Lemma at_frame_unmoved c rmax h s msgs k m m' : at_frame c rmax h s msgs k m -> unmoved c m m' -> mux_inv m' ->
  pending_open_data_ m' !! c = None -> at_frame c rmax h s msgs k m'.
Proof. intros [Hs Hat] Hu Hinv Hp. split; [done|]. destruct msgs; destruct Hat as [Hk Hread]; (split; [done|]); by eapply reading_unmoved. Qed.

(** The next frame of the sequence, read. *)
Lemma at_frame_next c rmax h s x msgs k w ws m :
  is_u32 c -> framed_ok x -> Forall framed_ok msgs -> size x.2 <= rmax ->
  at_frame c rmax h s (x :: msgs) k m ->
  w :: ws `prefix_of` map frame_wire (drop k (frames_of c s (x :: msgs))) ->
  let m' := (OnFrameInbound m w).1 in
  (exists s', at_frame c rmax h s' msgs 0 m' /\ delivered c m' = delivered c m ++ [x.2]
     /\ map frame_wire (drop k (frames_of c s (x :: msgs))) = w :: map frame_wire (drop 0 (frames_of c s' msgs)))
  \/ at_frame c rmax h s (x :: msgs) (S k) m' /\ delivered c m' = delivered c m
     /\ map frame_wire (drop k (frames_of c s (x :: msgs))) = w :: map frame_wire (drop (S k) (frames_of c s (x :: msgs))).
Proof.
  intros Hc Hx Hok Hxs [Hs [Hk Hread]] Hpre. cbv zeta.
  destruct (lookup_lt_is_Some_2 _ _ Hk) as [f Hf]. rewrite frames_of_cons in Hpre |- *. set (next := frames_of c _ msgs) in *.
  assert (Hdrop : drop k (framed_frames c s x ++ next) = f :: drop (S k) (framed_frames c s x ++ next)).
  { apply drop_S. by apply lookup_app_l_Some. }
  rewrite Hdrop in Hpre |- *. cbn [map] in Hpre |- *.
  assert (w = frame_wire f) as -> by (by apply prefix_cons_inv_1 in Hpre).
  destruct (read_frame c rmax h s x k f m Hread Hc Hs Hx Hxs Hf) as [Hread' Hdel].
  destruct (Nat.eqb_spec (S k) (length (framed_frames c s x))) as [Hlast|Hmore].
  - left. exists (u32 (s + size (framed_frames c s x))). rewrite Hlast, drop_app_length.
    assert (Hsn : u32 (s + Z.of_nat (S k)) = u32 (s + size (framed_frames c s x))) by (unfold size; by rewrite Hlast).
    rewrite Hsn in Hread'. split_and!; [|done|done]. by apply at_frame_start; [apply u32_range| |].
  - right. split_and!; [|by rewrite app_nil_r in Hdel|done]. split; [done|]. split; [lia|done].
Qed.

Lemma read_frames c rmax h : forall ops s msgs k m,
  is_u32 c -> Forall framed_ok msgs -> Forall (fun x => size x.2 <= rmax) msgs -> Forall mux_op_ok ops ->
  at_frame c rmax h s msgs k m -> reader_run c m ops ->
  its c (inbound ops) `prefix_of` map frame_wire (drop k (frames_of c s msgs)) ->
  exists read rest, msgs = read ++ rest
    /\ delivered c (run_mux m ops) = delivered c m ++ read.*2
    /\ (its c (inbound ops) = map frame_wire (drop k (frames_of c s msgs)) -> rest = []).
Proof.
  induction ops as [|o ops IH]; intros s msgs k m Hc Hok Hsz Hops Hat Hrun Hpre.
  { exists [], msgs. split_and!; [done|by rewrite app_nil_r|]. intros Hnil. cbn in Hnil.
    destruct msgs as [|x msgs]; [done|]. destruct Hat as (_ & Hk & _). symmetry in Hnil. apply map_eq_nil in Hnil.
    apply (f_equal length) in Hnil. rewrite length_drop, frames_of_cons, length_app in Hnil. simpl in Hnil. lia. }
  apply Forall_cons in Hops as [Ho Hops]. destruct Hrun as [Hcalm Hrun].
  assert (Hcase : (exists w, o = OpInbound w /\ own c w = true) \/ forall w, o = OpInbound w -> own c w = false).
  { destruct o as [|w| | | | | | | | | | |]; try by right. destruct (own c w) eqn:Hw; [left; eauto|right; by intros ? [= <-]]. }
  destruct Hcase as [(w & -> & Hown)|Hother].
  - assert (Hits : its c (inbound (OpInbound w :: ops)) = w :: its c (inbound ops)) by (unfold its, inbound; cbn; by rewrite decide_True).
    rewrite Hits in Hpre |- *. destruct msgs as [|x msgs].
    { destruct Hat as (_ & -> & _). simpl in Hpre. by apply prefix_nil_not in Hpre. }
    apply Forall_cons in Hok as [Hx Hok]. apply Forall_cons in Hsz as [Hxs Hsz].
    destruct (at_frame_next c rmax h s x msgs k w _ m Hc Hx Hok Hxs Hat Hpre) as [(s' & Hat' & Hdel & Hfr)|(Hat' & Hdel & Hfr)];
      rewrite Hfr in Hpre |- *; apply prefix_cons_inv_2 in Hpre.
    + destruct (IH s' msgs O _ Hc Hok Hsz Hops Hat' Hrun Hpre) as (read & rest & -> & Hd & Hrest).
      exists (x :: read), rest. split_and!; [done| |intros [= Heq]; by apply Hrest].
      change (run_mux m (OpInbound w :: ops)) with (run_mux (OnFrameInbound m w).1 ops). cbn [run_mux_op] in Hd. by rewrite Hd, Hdel, <- app_assoc.
    + destruct (IH s (x :: msgs) (S k) _ Hc ltac:(by constructor) ltac:(by constructor) Hops Hat' Hrun Hpre) as (read & rest & -> & Hd & Hrest).
      exists read, rest. split_and!; [done| |intros [= Heq]; by apply Hrest].
      change (run_mux m (OpInbound w :: ops)) with (run_mux (OnFrameInbound m w).1 ops). cbn [run_mux_op] in Hd. by rewrite Hd, Hdel.
  - assert (Hits : its c (inbound (o :: ops)) = its c (inbound ops)).
    { unfold inbound, its. destruct o as [|w| | | | | | | | | | |]; try done. cbn. by rewrite decide_False by (by rewrite (Hother w eq_refl)). }
    rewrite Hits in Hpre |- *. destruct (at_frame_known _ _ _ _ _ _ _ Hat) as (Hinv & Hp & Hch).
    destruct (calm_step c m o Hinv Hp Hch Ho Hcalm Hother) as (Hu & Hinv' & Hp').
    destruct (IH s msgs k _ Hc Hok Hsz Hops (at_frame_unmoved _ _ _ _ _ _ _ _ Hat Hu Hinv' Hp') Hrun Hpre) as (read & rest & -> & Hd & Hrest).
    exists read, rest. split_and!; [done| |done].
    change (run_mux m (o :: ops)) with (run_mux (run_mux_op m o).1 ops). by rewrite Hd, (proj2 Hu).
Qed.

End Reading.

(** ** From end to end *)

(** The log only grows. *)
Lemma run_mux_log {T} `{MuxTransport T} (ops : list (mux_op T)) : forall m, mux_log m `prefix_of` mux_log (run_mux m ops).
Proof.
  induction ops as [|o ops IH]; intros m; [done|]. change (run_mux m (o :: ops)) with (run_mux (run_mux_op m o).1 ops).
  etrans; [|apply IH].
  assert (Hcase : match o with OpTransport _ | OpFrameBudget _ => False | _ => True end
    \/ (run_mux_op m o).1 = m \/ mux_log (run_mux_op m o).1 = mux_log m).
  { destruct o as [| | | | | | | | | |n| |]; try (by left); right; right; [simpl; unfold SetMaxFrameBytes; by destruct (_ <? _)|done]. }
  destruct Hcase as [Hv|[->| ->]]; [|done..].
  destruct (via_ind (fun _ l => mux_log m `prefix_of` l) m (run_mux_op m o).1) as [Hp _];
    [intros; by apply prefix_app_r|intros; by apply prefix_app_r|by apply run_mux_op_via|done|].
  exact Hp.
Qed.

(** Frames of messages are of their channel and within the frame budget. *)
Lemma framed_frames_fit c s x : framed_ok x -> Forall (fun f => size (frame_wire f) <= x.1.1) (framed_frames c s x).
Proof.
  destruct x as [[mfb mid] payload]. intros (Hm & _ & _ & _ & _). unfold framed_frames, message_frames, kMinFrameBytes in *. cbn [fst].
  destruct (Z.leb_spec (size payload) (mfb - 9)) as [Hs|Hs].
  - constructor; [|done]. unfold frame_wire. cbn. unfold size in *. rewrite ?length_app. cbn. lia.
  - apply Forall_map, Forall_forall. intros i Hi%elem_of_seq. unfold frame_wire. cbn [frag_frame].
    pose proof (pieces_lookup (Z.to_nat (fragment_bytes mfb)) (fragments_needed mfb payload) payload i ltac:(lia)) as Hp.
    assert (Hlen : (length (default [] (pieces (Z.to_nat (fragment_bytes mfb)) (fragments_needed mfb payload) payload !! i)) <= Z.to_nat (mfb - 25))%nat).
    { rewrite Hp. cbn. rewrite length_take. unfold fragment_bytes. lia. }
    unfold size. rewrite length_app. cbn. autorewrite with le. rewrite ?length_app, ?le_bytes_length. cbn in *. lia.
Qed.
Lemma frames_of_fit c B msgs : forall s, is_u32 c -> is_u32 s -> Forall framed_ok msgs -> Forall (fun x => x.1.1 <= B) msgs ->
  Forall (fun w => own c w = true /\ size w <= B) (map frame_wire (frames_of c s msgs)).
Proof.
  induction msgs as [|x msgs IH]; intros s Hc Hs Hok HB; [done|].
  apply Forall_cons in Hok as [Hx Hok]. apply Forall_cons in HB as [Hxb HB]. rewrite frames_of_cons, map_app. apply Forall_app. split.
  - apply Forall_map, Forall_forall. intros f Hf. destruct (framed_frames_decode c s x f Hc Hs Hx Hf) as [Hd Hid]. split.
    + unfold own. rewrite Hd, Hid. apply Z.eqb_refl.
    + pose proof (proj1 (Forall_forall _ _) (framed_frames_fit c s x Hx) f Hf). cbn beta in *. lia.
  - apply IH; [done|apply u32_range|done|done].
Qed.
Lemma reliably_wires wires : (reliably wires).*2 = wires.
Proof. unfold reliably. rewrite map_map. cbn [snd]. apply map_id. Qed.

(** What a run hands over for the channel: the frames of the messages given, the
    first of them, all as reliable and within the frame budget. *)
Lemma run_handed {T} `{MuxTransport T} (c B : Z) (m : ChannelMux T) (ch : ChannelRecord) (ops : list (mux_op T)) :
  mux_inv m -> is_u32 c -> pending_open_data_ m !! c = None -> channels_ m !! c = Some ch -> is_u32 (tx_seq ch) ->
  queued c m = [] -> Forall mux_op_ok ops -> channel_run c m ops ->
  exists msgs wires, msgs.*2 = given c ops /\ Forall framed_ok msgs
    /\ handed c (run_mux m ops) = handed c m ++ reliably wires
    /\ map frame_wire (frames_of c (tx_seq ch) msgs) = wires ++ queued c (run_mux m ops)
    /\ (max_frame_bytes_ m <= B -> Forall (mux_op_budget B) ops -> Forall (fun w => own c w = true /\ size w <= B) wires).
Proof.
  intros Hinv Hc Hp Hch Htx Hq Hops Hrun.
  destruct (channel_run_stream c ops m ch Hinv Hc Hp Hch Htx Hops Hrun) as (msgs & Hgiven & Hok & Hbud & Hstream).
  destruct (run_mux_log ops m) as [l Hl].
  assert (Hh : handed c (run_mux m ops) = handed c m ++ omap (handed_of c) l) by (unfold handed; by rewrite Hl, omap_app).
  unfold stream in Hstream. rewrite Hq, Hh in Hstream. cbn [reliably map] in Hstream.
  rewrite app_nil_r, <- app_assoc in Hstream. apply app_inv_head in Hstream.
  symmetry in Hstream. apply map_eq_app in Hstream as (wires & rest & Hfr & Hw & Hrest).
  assert (rest = queued c (run_mux m ops)) as -> by (apply (f_equal (map snd)) in Hrest; unfold reliably in Hrest;
    rewrite !map_map in Hrest; cbn [snd] in Hrest; by rewrite !map_id in Hrest).
  exists msgs, wires. split_and!; [done|done|by rewrite Hh, <- Hw|done|]. intros HB Hbs.
  pose proof (frames_of_fit c B msgs (tx_seq ch) Hc Htx Hok (Hbud B HB Hbs)) as Hall. rewrite Hfr in Hall. by apply Forall_app in Hall as [? _].
Qed.

(** C8: a reliable channel delivers what it was given, in order.  Run the
    sending end through any operations — messages on this and other channels,
    ticks, inbound frames, opens, closes and resets of others, transport credit
    coming and going — that leave channel [c] open and take every payload given
    to it.  Run the receiving end through any operations that let the reader of
    [c] be — it sends on [c] and others, opens, closes, ticks —, in which the
    frames of [c] that come in are those the sender hands to its transport for
    [c], or the first few of them.  Then what is delivered on [c] meanwhile is a
    prefix of the payloads given, in order and whole; and once all of them are
    handed over and in (nothing waits in the send queue), exactly those. *)
Theorem channel_delivers_in_order {T R} `{MuxTransport T} `{MuxTransport R}
    (c rmax : Z) (h : nat) (m : ChannelMux T) (ch : ChannelRecord) (ops : list (mux_op T))
    (r : ChannelMux R) (rops : list (mux_op R)) :
  mux_inv m -> is_u32 c -> pending_open_data_ m !! c = None -> channels_ m !! c = Some ch ->
  is_u32 (tx_seq ch) -> queued c m = [] -> Forall mux_op_ok ops -> channel_run c m ops ->
  Forall (fun payload => size payload <= rmax) (given c ops) ->
  reading c rmax h (tx_seq ch) None r -> Forall mux_op_ok rops -> reader_run c r rops ->
  let handed_since := drop (length (handed c m)) (handed c (run_mux m ops)).*2 in
  its c (inbound rops) `prefix_of` handed_since ->
  exists got, delivered c (run_mux r rops) = delivered c r ++ got /\ got `prefix_of` given c ops
  /\ (its c (inbound rops) = handed_since -> queued c (run_mux m ops) = [] -> got = given c ops).
Proof.
  intros Hinv Hc Hp Hch Htx Hq Hops Hrun Hsz Hr Hrops Hrrun handed_since Hpre.
  destruct (run_handed c (max_frame_bytes_ m) m ch ops Hinv Hc Hp Hch Htx Hq Hops Hrun) as (msgs & wires & Hgiven & Hok & Hh & Hfr & _).
  assert (Hsince : handed_since = wires).
  { subst handed_since. rewrite Hh, fmap_app, drop_app_length' by (by rewrite length_fmap). apply reliably_wires. }
  rewrite Hsince in *. clear handed_since Hsince.
  assert (Hsz' : Forall (fun x : framed => size x.2 <= rmax) msgs) by (apply (Forall_fmap snd (fun p => size p <= rmax)); by rewrite Hgiven).
  destruct (read_frames c rmax h rops (tx_seq ch) msgs 0 r Hc Hok Hsz' Hrops) as (read & rest & -> & Hdel & Hrest);
    [by apply at_frame_start|done|rewrite drop_0, Hfr; etrans; [exact Hpre|by apply prefix_app_r]|].
  exists read.*2. split_and!; [done|rewrite <- Hgiven, fmap_app; by apply prefix_app_r|].
  intros Hall Hqe. rewrite <- Hgiven, Hrest, app_nil_r; [done|]. by rewrite drop_0, Hfr, Hall, Hqe, app_nil_r.
Qed.

(** ** Witness *)

(** [channel_run], evaluated. *)
Section Decide.
Context {T : Type} `{MuxTransport T}.

Definition usableb (c : Z) (m : ChannelMux T) : bool :=
  match channels_ m !! c with
  | Some ch => bool_decide (state ch = ChannelOpen) && bool_decide (QosForClass (cls (policy ch)) = Reliable)
               && (policy_max_message_bytes (policy ch) <? 2 ^ 32)
  | None => false
  end.
Fixpoint channel_runb (c : Z) (m : ChannelMux T) (ops : list (mux_op T)) : bool :=
  usableb c m
  && match ops with
     | [] => true
     | o :: ops =>
         match o with
         | OpSendData id payload => negb (id =? c) || bytes_okb payload && ok (run_mux_op m o).2
         | OpClose id _ => negb (id =? c)
         | _ => true
         end && channel_runb c (run_mux_op m o).1 ops
     end.
Lemma usableb_ok c m : usableb c m = true -> usable c m.
Proof.
  unfold usableb, usable. destruct (channels_ m !! c) as [ch|]; [|done]. intros [[Ho Hq]%andb_true_iff Hp%Z.ltb_lt]%andb_true_iff.
  exists ch. by apply bool_decide_eq_true in Ho, Hq.
Qed.
Lemma channel_runb_ok c ops : forall m, channel_runb c m ops = true -> channel_run c m ops.
Proof.
  induction ops as [|o ops IH]; intros m; cbn [channel_runb channel_run]; intros [Hu%usableb_ok Hr]%andb_true_iff; [done|].
  apply andb_true_iff in Hr as [Ho Hr]. split; [done|]. split; [|by apply IH].
  destruct o; try done.
  - intros ->. rewrite Z.eqb_refl in Ho. cbn [negb orb] in Ho. apply andb_true_iff in Ho as [Hb Hk]. split; [by apply bytes_okb_ok|done].
  - by apply negb_true_iff, Z.eqb_neq in Ho.
Qed.
End Decide.

Section Witness.
#[local] Existing Instance toy_transport.

(** Between the frames it reads, the receiver sends on the channel itself and ticks. *)
Definition handed_example : list bytes := (handed 1 (run_mux sender_example ops_example)).*2.
Definition rops_example (ws : list bytes) : list (mux_op Z) :=
  [OpClock 5; OpSendData 1 [9]; OpTick 6] ++ map OpInbound (take 2 ws) ++ [OpTick 7; OpTransport 3] ++ map OpInbound (drop 2 ws).

Lemma rops_example_ok ws : Forall bytes_ok ws -> Forall mux_op_ok (rops_example ws).
Proof.
  intros Hws. unfold rops_example. apply Forall_app. split; [repeat constructor; done|]. apply Forall_app.
  split; [by apply Forall_map, Forall_take|]. apply Forall_app. split; [repeat constructor; done|]. by apply Forall_map, Forall_drop.
Qed.

Theorem channel_delivers_in_order_witness :
  delivered 1 (run_mux receiver_example (rops_example handed_example)) = [[5; 6]; long_example; []]
  /\ exists got, delivered 1 (run_mux receiver_example (rops_example (take 3 handed_example))) = [] ++ got
     /\ got `prefix_of` given 1 ops_example.
Proof.
  split; [by vm_compute|].
  assert (Hid : is_u32 1) by done.
  assert (Hops : Forall mux_op_ok ops_example) by (repeat constructor; done).
  assert (Hrun : channel_run 1 sender_example ops_example) by (apply channel_runb_ok; vm_compute; reflexivity).
  assert (Hread : reading 1 kMaxBulkFrameBytes 7 1 None receiver_example).
  { split; [by apply example_inv; right|]. split; [done|]. exists channel_example. split; [done|].
    split_and!; try done; by exists 0 || apply new_inv. }
  assert (Hsz : Forall (fun payload => size payload <= kMaxBulkFrameBytes) (given 1 ops_example)).
  { repeat (constructor; [by vm_compute|]). constructor. }
  assert (Hws : Forall bytes_ok (take 3 handed_example)) by (apply Forall_bytes_okb; vm_compute; reflexivity).
  assert (Hrops : Forall mux_op_ok (rops_example (take 3 handed_example))).
  { by apply rops_example_ok. }
  assert (Hrrun : reader_run 1 receiver_example (rops_example (take 3 handed_example))).
  { vm_compute. repeat split. }
  destruct (channel_delivers_in_order 1 kMaxBulkFrameBytes 7 sender_example channel_example ops_example receiver_example
    (rops_example (take 3 handed_example)) (example_inv _ (or_introl eq_refl)) Hid eq_refl eq_refl Hid eq_refl Hops Hrun Hsz Hread Hrops Hrrun)
    as (got & Hgot & Hpre & _).
  { apply (bool_decide_eq_true_1 (_ `prefix_of` _)). vm_compute. reflexivity. }
  exists got. split; [|exact Hpre]. rewrite Hgot. f_equal.
Defined.

End Witness.
