(* ===== verification/L2Types.v ===== *)
(** * L2 data model and the cryptography it uses (include/amp/L2/Types.h)

    Constants, the session's key material, and the interfaces of the
    cryptographic libraries (libsodium, and the repository's parent library for
    ML-KEM-768 and ML-DSA-65), which are parameters: each with the laws that
    its documentation states and the model relies on ([ToyCrypto] has
    instances that meet them).  Randomness is an argument of the functions that
    draw it. *)

From S2P Require Import Prelude L1Types.

(** ** Constants *)

Definition kMshVersion : Z := 1.
Definition kAssocKeyBytes : nat := 32.
Definition kSessionKeyBytes : nat := 32.
Definition kAeadNonceSize : nat := 24.
Definition kFinishedMacBytes : nat := 32.
Definition kHandshakeNonceBytes : nat := 32.

(** The bytes of an ASCII literal. *)
Definition ascii_bytes (s : string) : bytes :=
  map (fun a => Z.of_N (Ascii.N_of_ascii a)) (String.list_ascii_of_string s).

Definition kAmpHkdfSalt : bytes := ascii_bytes "pp-amp-msh-v1".
Definition kAmpKAssocInfo : bytes := ascii_bytes "pp-amp-k-assoc-v1".
Definition kAmpKClientInfo : bytes := ascii_bytes "pp-amp-k-client-v1".
Definition kAmpKServerInfo : bytes := ascii_bytes "pp-amp-k-server-v1".
Definition kAmpFinishedInfo : bytes := ascii_bytes "pp-amp-msh-finished-v1".
Definition kAmpIdentityBindPrefix : bytes := ascii_bytes "noise-libp2p-static-key:".

Inductive Direction := InitiatorToResponder | ResponderToInitiator.
Definition direction_to_Z (d : Direction) : Z :=
  match d with InitiatorToResponder => 0 | ResponderToInitiator => 1 end.

Record MshIdentity := MkMshIdentity {
  ml_dsa_secret_key : bytes;
  ml_dsa_public_key : bytes;
}.

Record SessionMaterial := MkSessionMaterial {
  k_assoc : bytes;
  k_send : bytes;
  k_recv : bytes;
  session_epoch : Z;
  initiator : bool;
}.
#[export] Instance SessionMaterial_fields : Fields SessionMaterial := fun m =>
  MkSessionMaterial (k_assoc m) (k_send m) (k_recv m) (session_epoch m) (initiator m).

(** ** Libraries *)

(** XChaCha20-Poly1305 (libsodium): [None] is a nonzero return code. *)
Class Aead := {
  crypto_aead_abytes : nat;                                          (* bytes of tag *)
  aead_encrypt : bytes -> bytes -> bytes -> bytes -> option bytes;   (* key, nonce, aad, plaintext *)
  aead_decrypt : bytes -> bytes -> bytes -> bytes -> option bytes;   (* key, nonce, aad, ciphertext *)
}.
(** Encryption succeeds and adds the tag; decryption undoes it.  Among the keys
    in use — those a run of the program derives — what one key sealed opens
    under another key or nonce to nothing else (in practice: to nothing).  What
    decrypts of bytes is bytes. *)
Class AeadLaws `{Aead} (in_use : bytes -> Prop) := {
  aead_tag : crypto_aead_abytes = kPacketTagBytes;
  aead_total : forall k n a p, exists c, aead_encrypt k n a p = Some c;
  aead_length : forall k n a p c, aead_encrypt k n a p = Some c -> length c = (length p + crypto_aead_abytes)%nat;
  aead_correct : forall k n a p c, aead_encrypt k n a p = Some c -> aead_decrypt k n a c = Some p;
  aead_authentic : forall k n k' n' a p c p', in_use k -> in_use k' ->
    aead_encrypt k n a p = Some c -> aead_decrypt k' n' a c = Some p' -> p' = p;
  aead_bytes : forall k n a c p, aead_decrypt k n a c = Some p -> bytes_ok c -> bytes_ok p;
}.

(** HKDF-SHA256 and SHA-256 (libsodium). *)
Class Kdf := {
  hkdf_extract : bytes -> bytes -> option bytes;          (* salt, input key material *)
  hkdf_expand : bytes -> bytes -> nat -> option bytes;    (* prk, info, length *)
  sha256 : bytes -> bytes;
}.
Class KdfLaws `{Kdf} := {
  extract_total : forall salt ikm, exists prk, hkdf_extract salt ikm = Some prk;
  expand_total : forall prk info n, exists out, hkdf_expand prk info n = Some out /\ length out = n;
  sha256_length : forall m, length (sha256 m) = 32%nat;
}.

(** ML-KEM-768 (crypto/MlKem.h, outside the repository). *)
Class MlKem := {
  kMlKem768PublicKeyBytes : nat;
  kMlKem768CiphertextBytes : nat;
  kMlKem768SharedSecretBytes : nat;
  GenerateKeyPair : bytes -> Roe (bytes * bytes);           (* randomness; secret and public key *)
  Encapsulate : bytes -> bytes -> Roe (bytes * bytes);      (* public key, randomness; ciphertext, secret *)
  Decapsulate : bytes -> bytes -> Roe bytes;                (* secret key, ciphertext *)
}.
Class MlKemLaws `{MlKem} := {
  kem_generate : forall r, exists sk pk, GenerateKeyPair r = Ok (sk, pk) /\ length pk = kMlKem768PublicKeyBytes;
  kem_encapsulate : forall r sk pk r', GenerateKeyPair r = Ok (sk, pk) ->
    exists ct ss, Encapsulate pk r' = Ok (ct, ss) /\ Decapsulate sk ct = Ok ss
      /\ length ct = kMlKem768CiphertextBytes /\ length ss = kMlKem768SharedSecretBytes;
  kem_secret_bytes : (0 < kMlKem768SharedSecretBytes)%nat;
}.

(** ML-DSA-65 (crypto/MlDsa.h, outside the repository). *)
Class MlDsa := {
  kMlDsa65PublicKeyBytes : nat;
  kMlDsa65SecretKeyBytes : nat;
  kMlDsa65SignatureBytes : nat;
  dsa_pair : bytes -> bytes -> Prop;                        (* secret and public key of one pair *)
  Sign : bytes -> bytes -> Roe bytes;                       (* secret key, message *)
  DsaVerify : bytes -> bytes -> bytes -> Roe bool;          (* public key, message, signature *)
}.
Class MlDsaLaws `{MlDsa} := {
  dsa_pair_sizes : forall sk pk, dsa_pair sk pk ->
    length sk = kMlDsa65SecretKeyBytes /\ length pk = kMlDsa65PublicKeyBytes;
  dsa_correct : forall sk pk m, dsa_pair sk pk ->
    exists sig, Sign sk m = Ok sig /\ length sig = kMlDsa65SignatureBytes /\ DsaVerify pk m sig = Ok true;
}.
