(* ===== verification/ToyCrypto.v ===== *)
(** * Concrete cryptography

    Small instances of the cryptographic libraries of L2, on which its theorems
    are evaluated: they meet the laws asked of the libraries, so these can hold
    together.  They protect nothing. *)

From S2P Require Import Prelude L1Types L2Types.

Definition digest (l : bytes) : Z := fold_left Z.add l 0.

(** The tag is 16 bytes of the key's, the nonce's and the associated data's digest. *)
Definition toy_tag (k n a : bytes) : bytes := replicate kPacketTagBytes (u8 (digest k + 3 * digest n + 5 * digest a)).
Definition toy_aead : Aead := {|
  crypto_aead_abytes := kPacketTagBytes;
  aead_encrypt := fun k n a p => Some (p ++ toy_tag k n a);
  aead_decrypt := fun k n a c =>
    let p := take (length c - kPacketTagBytes) c in
    if decide (c = p ++ toy_tag k n a) then Some p else None;
|}.
Lemma toy_aead_laws : @AeadLaws toy_aead (fun _ => True).
Proof.
  assert (Htake : forall k n a p, take (length (p ++ toy_tag k n a) - kPacketTagBytes) (p ++ toy_tag k n a) = p).
  { intros. unfold toy_tag. rewrite length_app, length_replicate. by rewrite take_app_length' by lia. }
  split; cbn [crypto_aead_abytes aead_encrypt aead_decrypt toy_aead].
  - done.
  - eauto.
  - intros k n a p c [= <-]. unfold toy_tag. by rewrite length_app, length_replicate.
  - intros k n a p c [= <-]. rewrite Htake. by rewrite decide_True by done.
  - intros k n k' n' a p c p' _ _ [= <-]. rewrite Htake. case_decide; [|done]. by intros [= <-].
  - intros k n a c p. case_decide; [|done]. intros [= <-]. by apply Forall_take.
Qed.

Definition toy_kdf : Kdf := {|
  hkdf_extract := fun salt ikm => Some (replicate 32 (u8 (digest salt + digest ikm)));
  hkdf_expand := fun prk info n => Some (replicate n (u8 (digest prk + digest info)));
  sha256 := fun m => replicate 32 (u8 (digest m));
|}.
Lemma toy_kdf_laws : @KdfLaws toy_kdf.
Proof.
  split; intros; cbn [hkdf_extract hkdf_expand sha256 toy_kdf]; [eauto| |by rewrite length_replicate].
  eexists. split; [done|]. by rewrite length_replicate.
Qed.

(** Keys of three bytes, ciphertexts of two, secrets of one: the shared secret
    is the randomness' digest, carried in the clear. *)
Definition toy_kem : MlKem := {|
  kMlKem768PublicKeyBytes := 3;
  kMlKem768CiphertextBytes := 2;
  kMlKem768SharedSecretBytes := 1;
  GenerateKeyPair := fun r => let k := u8 (digest r) in Ok ([k], [k; k; k]);
  Encapsulate := fun pk r => let s := u8 (digest r) in Ok ([s; u8 (digest pk)], [s]);
  Decapsulate := fun sk ct => Ok [at_ ct 0];
|}.
Lemma toy_kem_laws : @MlKemLaws toy_kem.
Proof.
  split; cbn [GenerateKeyPair Encapsulate Decapsulate toy_kem kMlKem768PublicKeyBytes kMlKem768CiphertextBytes kMlKem768SharedSecretBytes].
  - intros r. do 2 eexists. split; [done|done].
  - intros r sk pk r' _. do 2 eexists. split; [done|done].
  - lia.
Qed.

(** Public and secret key are the same; a signature is the digest of message
    and key. *)
Definition toy_dsa : MlDsa := {|
  kMlDsa65PublicKeyBytes := 2;
  kMlDsa65SecretKeyBytes := 2;
  kMlDsa65SignatureBytes := 1;
  dsa_pair := fun sk pk => sk = pk /\ length sk = 2%nat;
  Sign := fun sk m => Ok [u8 (digest sk + digest m)];
  DsaVerify := fun pk m sig => Ok (bool_decide (sig = [u8 (digest pk + digest m)]));
|}.
Lemma toy_dsa_laws : @MlDsaLaws toy_dsa.
Proof.
  split; cbn [dsa_pair Sign DsaVerify toy_dsa kMlDsa65PublicKeyBytes kMlDsa65SecretKeyBytes kMlDsa65SignatureBytes].
  - intros sk pk [<- Hl]. done.
  - intros sk pk m [<- Hl]. eexists. split; [done|]. split; [done|]. by rewrite bool_decide_true.
Qed.
