(* ===== verification/SessionControl.v ===== *)
(** * Session control messages (src/L2/SessionControl.cpp, include/amp/L2/SessionControl.h)

    The rekey messages of channel 0, and how they are told from the other
    messages of that channel. *)

From S2P Require Import Prelude L1Types L2Types ChannelWire Capability.

Definition kSessionControlWireVersion : Z := 2.
Definition kSessionRekeyGraceMs : Z := 1000.

Inductive SessionControlKind := RekeyRequest | RekeyAck.
Definition kind_to_Z (k : SessionControlKind) : Z := match k with RekeyRequest => 1 | RekeyAck => 2 end.

Record SessionRekeyMessage := MkSessionRekeyMessage {
  kind : SessionControlKind;
  target_epoch : Z;
}.

Definition AppendU32Le (out : bytes) (value : Z) : bytes :=
  out ++ [u8 value; u8 (Z.shiftr value 8); u8 (Z.shiftr value 16); u8 (Z.shiftr value 24)].

(** The value and [consumed]. *)
Definition ReadU32Le_ (wire : bytes) : Roe (Z * nat) :=
  if size wire <? 4 then Fail (Err_ "amp session control: truncated u32")
  else Ok (Z.lor (Z.lor (Z.lor (at_ wire 0) (Z.shiftl (at_ wire 1) 8)) (Z.shiftl (at_ wire 2) 16))
             (Z.shiftl (at_ wire 3) 24), 4%nat).

Definition LooksLike (wire : bytes) : bool :=
  (6 <=? size wire) && (at_ wire 0 =? kSessionControlWireVersion)
  && ((at_ wire 1 =? kind_to_Z RekeyRequest) || (at_ wire 1 =? kind_to_Z RekeyAck)).

Definition EncodeRekey (message : SessionRekeyMessage) : Roe bytes :=
  let out := [kSessionControlWireVersion] in
  let out := out ++ [kind_to_Z (kind message)] in
  Ok (AppendU32Le out (target_epoch message)).

Definition DecodeRekey (wire : bytes) : Roe SessionRekeyMessage :=
  if negb (size wire =? 6) then Fail (Err_ "amp session control: bad length")
  else if negb (at_ wire 0 =? kSessionControlWireVersion) then Fail (Err_ "amp session control: bad version")
  else
    k ← (if at_ wire 1 =? kind_to_Z RekeyRequest then Ok RekeyRequest
         else if at_ wire 1 =? kind_to_Z RekeyAck then Ok RekeyAck
         else Fail (Err_ "amp session control: bad kind"));
    '(epoch, _) ← ReadU32Le_ (drop 2 wire);
    Ok (MkSessionRekeyMessage k epoch).

(** ** Lemmas *)

Lemma EncodeRekey_layout m :
  EncodeRekey m = Ok ([kSessionControlWireVersion; kind_to_Z (kind m)] ++ le_bytes 4 (target_epoch m)).
Proof. unfold EncodeRekey, AppendU32Le. by rewrite push_u32_le. Qed.

Lemma ReadU32Le_app_ v : is_u32 v -> ReadU32Le_ (le_bytes 4 v) = Ok (v, 4%nat).
Proof.
  intros Hv. unfold ReadU32Le_. rewrite (proj2 (Z.ltb_ge _ _)) by (unfold size; by rewrite le_bytes_length).
  rewrite or_u32_le, take_split_4, take_ge by (by rewrite le_bytes_length).
  by rewrite le_value_bytes, Z.mod_small.
Qed.

Lemma DecodeRekey_layout m : is_u32 (target_epoch m) ->
  DecodeRekey ([kSessionControlWireVersion; kind_to_Z (kind m)] ++ le_bytes 4 (target_epoch m)) = Ok m.
Proof.
  intros Hm. unfold DecodeRekey.
  assert (Hs : size ([kSessionControlWireVersion; kind_to_Z (kind m)] ++ le_bytes 4 (target_epoch m)) = 6) by done.
  rewrite Hs. change (drop 2 _) with (le_bytes 4 (target_epoch m)). rewrite ReadU32Le_app_ by done.
  by destruct m as [[] e].
Qed.

Lemma DecodeRekey_inv wire m :
  bytes_ok wire -> DecodeRekey wire = Ok m ->
  is_u32 (target_epoch m)
  /\ wire = [kSessionControlWireVersion; kind_to_Z (kind m)] ++ le_bytes 4 (target_epoch m).
Proof.
  intros Hok Hd. unfold DecodeRekey in Hd. destruct (Z.eqb_spec (size wire) 6) as [Hs|]; [|done]. cbn [negb] in Hd.
  destruct wire as [|v [|k rest]]; try by vm_compute in Hs.
  inversion Hok as [|? ? Hv Hok1]; subst. inversion Hok1 as [|? ? Hk Hrest]; subst.
  change (drop 2 (v :: k :: rest)) with rest in Hd. unfold at_ in Hd. cbn [nth] in Hd.
  destruct (Z.eqb_spec v kSessionControlWireVersion) as [->|]; [|done]. cbn [negb] in Hd.
  assert (Hl : length rest = 4%nat) by (unfold size in Hs; simpl in Hs; lia).
  assert (Hread : ReadU32Le_ rest = Ok (le_value rest, 4%nat)).
  { unfold ReadU32Le_. rewrite (proj2 (Z.ltb_ge _ _)) by (unfold size; lia).
    rewrite or_u32_le, take_split_4, take_ge by lia. done. }
  rewrite Hread in Hd. pose proof (le_value_range rest Hrest) as Hr. unfold size in Hr. rewrite Hl in Hr.
  pose proof (le_bytes_value rest Hrest) as Hb. rewrite Hl in Hb.
  destruct (Z.eqb_spec k (kind_to_Z RekeyRequest)) as [->|]; [|destruct (Z.eqb_spec k (kind_to_Z RekeyAck)) as [->|]; [|done]];
    apply Ok_inj in Hd as <-; cbn [target_epoch kind]; (split; [exact Hr|by rewrite Hb]).
Qed.

(** ** Theorems *)

(** The messages of channel 0 are told apart.  A rekey message round-trips
    and its bytes are the only spelling it has; and of capability offers,
    capability extensions and rekey messages no bytes decode as two, so the
    order in which a receiver tries them does not matter. *)
Theorem channel_zero_messages (m : SessionRekeyMessage) (wire : bytes) :
  (is_u32 (target_epoch m) -> exists w, EncodeRekey m = Ok w /\ DecodeRekey w = Ok m /\ LooksLike w = true)
  /\ (bytes_ok wire -> DecodeRekey wire = Ok m -> EncodeRekey m = Ok wire)
  /\ ~ (ok (DecodeRekey wire) = true /\ ok (DecodeCapability wire) = true)
  /\ ~ (ok (DecodeRekey wire) = true /\ ok (DecodeExtension wire) = true)
  /\ ~ (ok (DecodeCapability wire) = true /\ ok (DecodeExtension wire) = true).
Proof.
  assert (Hrk : ok (DecodeRekey wire) = true -> at_ wire 0 = 2).
  { unfold DecodeRekey. destruct (negb _); [done|].
    destruct (Z.eqb_spec (at_ wire 0) kSessionControlWireVersion); [done|]. done. }
  assert (Hcap : ok (DecodeCapability wire) = true -> at_ wire 0 = 1).
  { destruct wire as [|v wire]; [done|]. unfold DecodeCapability. destruct (Z.eqb_spec v 1) as [->|]; done. }
  assert (Hext : ok (DecodeExtension wire) = true -> at_ wire 0 = 3).
  { destruct wire as [|v [|x wire]]; try done. unfold DecodeExtension.
    destruct (Z.eqb_spec v kCapabilityExtensionTag) as [->|]; done. }
  split_and!.
  - intros Hm. eexists. split; [apply EncodeRekey_layout|]. split; [by apply DecodeRekey_layout|].
    destruct m as [[] e]; done.
  - intros Hok Hd. apply DecodeRekey_inv in Hd as [_ ->]; [|done]. apply EncodeRekey_layout.
  - intros [H1%Hrk H2%Hcap]. lia.
  - intros [H1%Hrk H2%Hext]. lia.
  - intros [H1%Hcap H2%Hext]. lia.
Qed.

Theorem channel_zero_messages_witness :
  exists w, EncodeRekey (MkSessionRekeyMessage RekeyAck 7) = Ok w
    /\ DecodeRekey w = Ok (MkSessionRekeyMessage RekeyAck 7) /\ LooksLike w = true.
Proof. apply (channel_zero_messages (MkSessionRekeyMessage RekeyAck 7) []). done. Defined.
