(* ===== verification/SessionKeys.v ===== *)
(** * Session keys (src/L2/SessionKeys.cpp)

    The transcript hash and the keys derived from the handshake's secret and the
    transcript: one association key, and per epoch one key for each direction. *)

From stdpp Require Import pretty.
From S2P Require Import Prelude L1Types L2Types.

Section SessionKeys.
Context `{Kdf}.

Definition HkdfExpand (prk : bytes) (info : bytes) (out_len : nat) : Roe bytes :=
  match hkdf_expand prk info out_len with
  | None => Fail (Err_ "amp: HKDF expand failed")
  | Some out => Ok out
  end.

Definition HkdfExtract (ikm : bytes) : Roe bytes :=
  match hkdf_extract kAmpHkdfSalt ikm with
  | None => Fail (Err_ "amp: HKDF extract failed")
  | Some prk => Ok prk
  end.

(** [std::string(label) + "|epoch:" + std::to_string(session_epoch)]. *)
Definition epoch_info (label : bytes) (session_epoch : Z) : bytes :=
  label ++ ascii_bytes "|epoch:" ++ ascii_bytes (pretty (Z.to_N session_epoch)).

Definition DeriveLabel (prk label : bytes) (session_epoch : Z) : Roe bytes :=
  HkdfExpand prk (epoch_info label session_epoch) kSessionKeyBytes.

Definition TranscriptHash (transcript_parts : list bytes) : Roe bytes := Ok (sha256 (concat transcript_parts)).

Definition Derive (master_ikm transcript_hash : bytes) (initiator : bool) (session_epoch : Z) : Roe SessionMaterial :=
  if bool_decide (master_ikm = []) then Fail (Err_ "amp: empty master ikm")
  else if negb (length transcript_hash =? 32)%nat then Fail (Err_ "amp: bad transcript hash size")
  else
    let ikm := master_ikm ++ transcript_hash in
    prk ← HkdfExtract ikm;
    k_assoc ← HkdfExpand prk kAmpKAssocInfo kSessionKeyBytes;
    k_client ← DeriveLabel prk kAmpKClientInfo session_epoch;
    k_server ← DeriveLabel prk kAmpKServerInfo session_epoch;
    Ok (MkSessionMaterial k_assoc (if initiator then k_client else k_server)
          (if initiator then k_server else k_client) session_epoch initiator).

(** ** Lemmas *)

Lemma Derive_inv ikm th i e m : Derive ikm th i e = Ok m ->
  ikm <> [] /\ length th = 32%nat /\ session_epoch m = e /\ initiator m = i.
Proof.
  unfold Derive. case_bool_decide as Hne; [done|]. destruct (Nat.eqb_spec (length th) 32) as [Hl|]; [|done]. cbn [negb].
  destruct (HkdfExtract _) as [prk|]; [|done]. cbn [mbind result_bind].
  destruct (HkdfExpand _ _ _) as [ka|]; [|done]. cbn [mbind result_bind].
  destruct (DeriveLabel _ kAmpKClientInfo _) as [kc|]; [|done]. cbn [mbind result_bind].
  destruct (DeriveLabel _ kAmpKServerInfo _) as [ks|]; [|done]. cbn [mbind result_bind].
  by intros <-%Ok_inj.
Qed.

(** The two roles at one epoch: the same association key, the directional keys
    exchanged. *)
Lemma Derive_mirrored ikm th i e m m' :
  Derive ikm th i e = Ok m -> Derive ikm th (negb i) e = Ok m' ->
  k_assoc m' = k_assoc m /\ k_send m' = k_recv m /\ k_recv m' = k_send m.
Proof.
  unfold Derive. case_bool_decide; [done|]. destruct (negb _); [done|].
  destruct (HkdfExtract _) as [prk|]; [|done]. cbn [mbind result_bind].
  destruct (HkdfExpand _ _ _) as [ka|]; [|done]. cbn [mbind result_bind].
  destruct (DeriveLabel _ kAmpKClientInfo _) as [kc|]; [|done]. cbn [mbind result_bind].
  destruct (DeriveLabel _ kAmpKServerInfo _) as [ks|]; [|done]. cbn [mbind result_bind].
  intros <-%Ok_inj <-%Ok_inj. by destruct i.
Qed.

Lemma Derive_assoc ikm th i e i' e' m m' :
  Derive ikm th i e = Ok m -> Derive ikm th i' e' = Ok m' -> k_assoc m' = k_assoc m.
Proof.
  unfold Derive. case_bool_decide; [done|]. destruct (negb _); [done|].
  destruct (HkdfExtract _) as [prk|]; [|done]. cbn [mbind result_bind].
  destruct (HkdfExpand _ _ _) as [ka|]; [|done]. cbn [mbind result_bind].
  destruct (DeriveLabel _ kAmpKClientInfo e), (DeriveLabel _ kAmpKServerInfo e); try done.
  destruct (DeriveLabel _ kAmpKClientInfo e'), (DeriveLabel _ kAmpKServerInfo e'); try done.
  by intros <-%Ok_inj <-%Ok_inj.
Qed.

Lemma Derive_total `{!KdfLaws} ikm th i e : ikm <> [] -> length th = 32%nat ->
  exists m, Derive ikm th i e = Ok m /\ length (k_assoc m) = kAssocKeyBytes
    /\ length (k_send m) = kSessionKeyBytes /\ length (k_recv m) = kSessionKeyBytes.
Proof.
  intros Hne Hl. unfold Derive. rewrite bool_decide_false, Hl by done. cbn [negb Nat.eqb].
  unfold HkdfExtract. destruct (extract_total kAmpHkdfSalt (ikm ++ th)) as [prk ->]. cbn [mbind result_bind].
  unfold DeriveLabel, HkdfExpand.
  destruct (expand_total prk kAmpKAssocInfo kSessionKeyBytes) as (ka & -> & Ha). cbn [mbind result_bind].
  destruct (expand_total prk (epoch_info kAmpKClientInfo e) kSessionKeyBytes) as (kc & -> & Hc). cbn [mbind result_bind].
  destruct (expand_total prk (epoch_info kAmpKServerInfo e) kSessionKeyBytes) as (ks & -> & Hs). cbn [mbind result_bind].
  eexists. split; [done|]. cbn [k_assoc k_send k_recv]. by destruct i.
Qed.

(** *** The derivation labels *)

Lemma ascii_bytes_inj s t : ascii_bytes s = ascii_bytes t -> s = t.
Proof.
  unfold ascii_bytes. intros Heq. rewrite <- (String.string_of_list_ascii_of_string s), <- (String.string_of_list_ascii_of_string t).
  f_equal. revert Heq. generalize (String.list_ascii_of_string s), (String.list_ascii_of_string t).
  intros l. induction l as [|a l IH]; intros [|b k] Heq; try done. simpl in Heq.
  assert (Z.of_N (Ascii.N_of_ascii a) = Z.of_N (Ascii.N_of_ascii b)) as Hab by congruence.
  f_equal; [|apply IH; congruence]. rewrite <- (Ascii.ascii_N_embedding a), <- (Ascii.ascii_N_embedding b). f_equal. lia.
Qed.

Lemma epoch_info_inj label e e' : is_u32 e -> is_u32 e' ->
  epoch_info label e = epoch_info label e' -> e = e'.
Proof.
  unfold is_u32. intros He He' Heq%app_inv_head%app_inv_head%ascii_bytes_inj%(inj pretty). lia.
Qed.

(** What each key is expanded from: the label of the association, and for a
    direction the label of the one who sends, with the epoch. *)
Definition sender_label (initiator : bool) : bytes := if initiator then kAmpKClientInfo else kAmpKServerInfo.
Lemma Derive_labels ikm th i e m : Derive ikm th i e = Ok m ->
  exists prk, hkdf_extract kAmpHkdfSalt (ikm ++ th) = Some prk
    /\ hkdf_expand prk kAmpKAssocInfo kSessionKeyBytes = Some (k_assoc m)
    /\ hkdf_expand prk (epoch_info (sender_label i) e) kSessionKeyBytes = Some (k_send m)
    /\ hkdf_expand prk (epoch_info (sender_label (negb i)) e) kSessionKeyBytes = Some (k_recv m).
Proof.
  unfold Derive, DeriveLabel, HkdfExtract, HkdfExpand. case_bool_decide; [done|]. destruct (negb _); [done|].
  destruct (hkdf_extract _ _) as [prk|]; [|done]. cbn [mbind result_bind]. intros Hm. exists prk. split; [done|]. revert Hm.
  destruct (hkdf_expand prk kAmpKAssocInfo _); [|done]. cbn [mbind result_bind].
  destruct (hkdf_expand prk (epoch_info kAmpKClientInfo e) _) eqn:Hc; [|done]. cbn [mbind result_bind].
  destruct (hkdf_expand prk (epoch_info kAmpKServerInfo e) _) eqn:Hs; [|done]. cbn [mbind result_bind].
  intros <-%Ok_inj. by destruct i.
Qed.
Lemma labels_inj i i' e e' : is_u32 e -> is_u32 e' ->
  epoch_info (sender_label i) e = epoch_info (sender_label i') e' <-> i = i' /\ e = e'.
Proof.
  intros He He'. split; [|by intros [-> ->]]. destruct i, i'; intros Heq; try done; by apply epoch_info_inj in Heq.
Qed.
Lemma assoc_label i e : epoch_info (sender_label i) e <> kAmpKAssocInfo.
Proof. by destruct i. Qed.

End SessionKeys.
