(* ===== verification/SessionCrypto.v ===== *)
(** * Session AEAD and packet crypto (src/L2/SessionAead.cpp, src/L2/SessionCrypto.cpp)

    XChaCha20-Poly1305 with the code's checks of sizes, the packet nonce both
    ends derive, and sealing and opening one packet under one key. *)

From S2P Require Import Prelude L1Types L2Types ToyCrypto SessionKeys.

Record AeadBlob := MkAeadBlob {
  blob_nonce : bytes;
  ciphertext : bytes;
}.

Section SessionAead.
Context `{Aead}.

(** [randombytes_buf] of the randomness [r]. *)
Definition GenerateNonce (r : bytes) : Roe bytes := Ok (resize kAeadNonceSize 0 r).

(** [room] is [ciphertext_out.size()]; the result is what is written at the
    front of it (its length is the value the code returns). *)
Definition EncryptInto (session_key plaintext aad nonce : bytes) (room : nat) : Roe bytes :=
  if negb (length session_key =? kSessionKeyBytes)%nat then Fail (Err_ "Invalid session key size")
  else if negb (length nonce =? kAeadNonceSize)%nat then Fail (Err_ "Invalid nonce size")
  else
    let need := (length plaintext + crypto_aead_abytes)%nat in
    if (room <? need)%nat then Fail (Err_ "AEAD ciphertext buffer too small")
    else match aead_encrypt session_key nonce aad plaintext with
         | None => Fail (Err_ "AEAD encrypt failed")
         | Some c => Ok c
         end.

Definition Decrypt (session_key nonce ciphertext aad : bytes) : Roe bytes :=
  if negb (length session_key =? kSessionKeyBytes)%nat then Fail (Err_ "Invalid session key size")
  else if negb (length nonce =? kAeadNonceSize)%nat then Fail (Err_ "Invalid nonce size")
  else match aead_decrypt session_key nonce aad ciphertext with
       | None => Fail (Err_ "AEAD decrypt failed")
       | Some plaintext => Ok plaintext
       end.

Definition Encrypt (session_key plaintext aad nonce : bytes) : Roe AeadBlob :=
  c ← EncryptInto session_key plaintext aad nonce (length plaintext + crypto_aead_abytes);
  Ok (MkAeadBlob nonce c).

Definition DecryptBlob (session_key : bytes) (blob : AeadBlob) (aad : bytes) : Roe bytes :=
  Decrypt session_key (blob_nonce blob) (ciphertext blob) aad.

End SessionAead.

(** ** Packets *)

(** 24 bytes: direction, space, epoch and number little-endian, zeros. *)
Definition PacketNonce (direction : Direction) (space : PacketSpace) (session_epoch number : Z) : bytes :=
  [direction_to_Z direction; PacketSpace_to_Z space]
  ++ map (fun i => u8 (Z.shiftr session_epoch (8 * i))) [0; 1; 2; 3]
  ++ map (fun i => u8 (Z.shiftr number (8 * i))) [0; 1; 2; 3]
  ++ zeros (kAeadNonceSize - 10).

Section SessionCrypto.
Context `{Aead}.

(** What the code appends to [out]; on an error [out] is as before. *)
Definition SessionCrypto_SealPacket (key : bytes) (direction : Direction) (session_epoch : Z)
    (space : PacketSpace) (number : Z) (header plaintext : bytes) : Roe bytes :=
  let nonce := PacketNonce direction space session_epoch number in
  EncryptInto key plaintext header nonce (length plaintext + kPacketTagBytes).

Definition SessionCrypto_OpenPacket (key : bytes) (direction : Direction) (session_epoch : Z)
    (space : PacketSpace) (number : Z) (header sealed : bytes) : Roe bytes :=
  if (length sealed <? kPacketTagBytes)%nat then Fail (Err_ "amp: sealed packet too short")
  else
    let nonce := PacketNonce direction space session_epoch number in
    Decrypt key nonce sealed header.

End SessionCrypto.

(** ** Lemmas *)

Lemma PacketNonce_layout d sp e n :
  PacketNonce d sp e n
  = [direction_to_Z d; PacketSpace_to_Z sp] ++ le_bytes 4 e ++ le_bytes 4 n ++ zeros 14.
Proof. unfold PacketNonce. rewrite <- !push_u32_le. simpl. by rewrite !Z.shiftr_0_r. Qed.

Lemma PacketNonce_length d sp e n : length (PacketNonce d sp e n) = kAeadNonceSize.
Proof. done. Qed.

Section Facts.
Context `{Aead} {in_use : bytes -> Prop} `{!AeadLaws in_use}.

Lemma EncryptInto_ok key plain aad nonce room c :
  EncryptInto key plain aad nonce room = Ok c <->
  length key = kSessionKeyBytes /\ length nonce = kAeadNonceSize
  /\ (length plain + crypto_aead_abytes <= room)%nat /\ aead_encrypt key nonce aad plain = Some c.
Proof.
  unfold EncryptInto. destruct (Nat.eqb_spec (length key) kSessionKeyBytes); cbn [negb]; [|naive_solver].
  destruct (Nat.eqb_spec (length nonce) kAeadNonceSize); cbn [negb]; [|naive_solver].
  destruct (Nat.ltb_spec room (length plain + crypto_aead_abytes)); [split; [done|]; intros (_ & _ & ? & _); lia|].
  destruct (aead_encrypt key nonce aad plain) as [c'|]; [|naive_solver].
  split; [intros <-%Ok_inj; done|]. intros (_ & _ & _ & [= ->]). done.
Qed.

Lemma Decrypt_ok key nonce c aad p :
  Decrypt key nonce c aad = Ok p <->
  length key = kSessionKeyBytes /\ length nonce = kAeadNonceSize /\ aead_decrypt key nonce aad c = Some p.
Proof.
  unfold Decrypt. destruct (Nat.eqb_spec (length key) kSessionKeyBytes); cbn [negb]; [|naive_solver].
  destruct (Nat.eqb_spec (length nonce) kAeadNonceSize); cbn [negb]; [|naive_solver].
  destruct (aead_decrypt key nonce aad c) as [p'|]; [|naive_solver].
  split; [intros <-%Ok_inj; done|]. intros (_ & _ & [= ->]). done.
Qed.

Lemma Crypto_seal_total key d e sp n header plain : length key = kSessionKeyBytes ->
  exists sealed, SessionCrypto_SealPacket key d e sp n header plain = Ok sealed.
Proof.
  intros Hk. destruct (aead_total key (PacketNonce d sp e n) header plain) as [c Hc]. exists c.
  unfold SessionCrypto_SealPacket. apply EncryptInto_ok. rewrite aead_tag. done.
Qed.

Lemma Crypto_seal_length key d e sp n header plain sealed :
  SessionCrypto_SealPacket key d e sp n header plain = Ok sealed ->
  length sealed = (length plain + kPacketTagBytes)%nat.
Proof. intros (_ & _ & _ & Hc)%EncryptInto_ok. by rewrite (aead_length _ _ _ _ _ Hc), aead_tag. Qed.

(** A packet opens under the key, direction and epoch it was sealed under. *)
Lemma Crypto_open_sealed key d e sp n header plain sealed :
  SessionCrypto_SealPacket key d e sp n header plain = Ok sealed ->
  SessionCrypto_OpenPacket key d e sp n header sealed = Ok plain.
Proof.
  intros Hs. pose proof (Crypto_seal_length _ _ _ _ _ _ _ _ Hs) as Hl.
  apply EncryptInto_ok in Hs as (Hk & Hn & _ & Hc). unfold SessionCrypto_OpenPacket.
  rewrite (proj2 (Nat.ltb_ge _ _)) by lia. apply Decrypt_ok. split_and!; [done..|]. by apply aead_correct.
Qed.

(** Whatever it is opened with, it opens to nothing else. *)
Lemma Crypto_open_authentic key d e key' d' e' sp n header plain sealed opened :
  in_use key -> in_use key' ->
  SessionCrypto_SealPacket key d e sp n header plain = Ok sealed ->
  SessionCrypto_OpenPacket key' d' e' sp n header sealed = Ok opened -> opened = plain.
Proof.
  intros Hu Hu' (_ & _ & _ & Hc)%EncryptInto_ok. unfold SessionCrypto_OpenPacket. destruct (_ <? _)%nat; [done|].
  intros (_ & _ & Hd)%Decrypt_ok. by apply (aead_authentic _ _ _ _ _ _ _ _ Hu Hu' Hc Hd).
Qed.

Lemma Crypto_open_bytes key d e sp n header sealed opened :
  SessionCrypto_OpenPacket key d e sp n header sealed = Ok opened -> bytes_ok sealed -> bytes_ok opened.
Proof.
  unfold SessionCrypto_OpenPacket. destruct (_ <? _)%nat; [done|]. intros (_ & _ & Hd)%Decrypt_ok. by apply (aead_bytes _ _ _ _ _ Hd).
Qed.

End Facts.

(** ** Theorems *)

(** C37: a key and a nonce are spent on one packet.  Under a key, two packets
    have the same nonce only if direction, space, epoch and number all agree; so
    as long as a (space, number) seals one plaintext, no nonce seals two.  And the
    keys are kept apart: whatever ends and epochs derive them, all the keys of one
    secret and transcript are expanded from one extracted secret, the association's
    from one label, a direction's from labels that agree exactly when direction and
    epoch do, and never with the association's. *)
Theorem packet_nonce_injective `{Kdf} (d d' : Direction) (sp sp' : PacketSpace) (e e' n n' : Z)
    (ikm th : bytes) (i i' : bool) (m m' : SessionMaterial) :
  is_u32 e -> is_u32 e' -> is_u32 n -> is_u32 n' -> Derive ikm th i e = Ok m -> Derive ikm th i' e' = Ok m' ->
  (PacketNonce d sp e n = PacketNonce d' sp' e' n' -> d = d' /\ sp = sp' /\ e = e' /\ n = n')
  /\ exists prk send recv send' recv',
       let key label := hkdf_expand prk label kSessionKeyBytes in
       (key kAmpKAssocInfo = Some (k_assoc m) /\ key send = Some (k_send m) /\ key recv = Some (k_recv m))
       /\ (key kAmpKAssocInfo = Some (k_assoc m') /\ key send' = Some (k_send m') /\ key recv' = Some (k_recv m'))
       /\ NoDup [kAmpKAssocInfo; send; recv] /\ NoDup [kAmpKAssocInfo; send'; recv']
       /\ (send = send' <-> i = i' /\ e = e') /\ (recv = recv' <-> i = i' /\ e = e')
       /\ (send = recv' <-> i = negb i' /\ e = e') /\ (recv = send' <-> i = negb i' /\ e = e').
Proof.
  intros He He' Hn Hn' Hm Hm'. split.
  - rewrite !PacketNonce_layout. intros Heq.
    apply app_inj_1 in Heq as [Hh Heq]; [|done]. apply app_inj_1 in Heq as [Hee Heq]; [|by rewrite !le_bytes_length].
    apply app_inj_1 in Heq as [Hnn _]; [|by rewrite !le_bytes_length].
    apply le_bytes_inj in Hee, Hnn; try done. assert (direction_to_Z d = direction_to_Z d') by congruence.
    assert (PacketSpace_to_Z sp = PacketSpace_to_Z sp') by congruence. split_and!; [by destruct d, d'|by destruct sp, sp'|done..].
  - destruct (Derive_labels _ _ _ _ _ Hm) as (prk & Hx & Ha & Hs & Hr). destruct (Derive_labels _ _ _ _ _ Hm') as (prk' & Hx' & Ha' & Hs' & Hr').
    rewrite Hx in Hx'. injection Hx' as <-. exists prk. do 4 eexists. cbv zeta. split; [split; [exact Ha|split; [exact Hs|exact Hr]]|].
    split; [split; [exact Ha'|split; [exact Hs'|exact Hr']]|]. rewrite !labels_inj by done.
    assert (Hnd : forall i e, is_u32 e -> NoDup [kAmpKAssocInfo; epoch_info (sender_label i) e; epoch_info (sender_label (negb i)) e]).
    { intros j e0 He0. rewrite !NoDup_cons, !not_elem_of_cons. split_and!; try apply not_elem_of_nil; [by intros Hl%symmetry%assoc_label..| |by apply NoDup_nil].
      intros [Hj _]%labels_inj; [by destruct j|done..]. }
    split_and!; try (by apply Hnd); destruct i, i'; naive_solver.
Qed.

Theorem packet_nonce_injective_witness :
  PacketNonce InitiatorToResponder SpaceReliable 1 258 <> PacketNonce InitiatorToResponder SpaceReliable 2 258
  /\ exists m m' prk send recv', @Derive toy_kdf [1] (replicate 32 0) true 1 = Ok m /\ @Derive toy_kdf [1] (replicate 32 0) false 2 = Ok m'
       /\ @hkdf_expand toy_kdf prk send kSessionKeyBytes = Some (k_send m) /\ @hkdf_expand toy_kdf prk recv' kSessionKeyBytes = Some (k_recv m')
       /\ send <> recv'.
Proof.
  destruct (@Derive toy_kdf [1] (replicate 32 0) true 1) as [m|] eqn:Hm; [|by vm_compute in Hm].
  destruct (@Derive toy_kdf [1] (replicate 32 0) false 2) as [m'|] eqn:Hm'; [|by vm_compute in Hm'].
  destruct (@packet_nonce_injective toy_kdf InitiatorToResponder InitiatorToResponder SpaceReliable SpaceReliable
              1 2 258 258 [1] (replicate 32 0) true false m m') as [Hn (prk & send & recv & send' & recv' & Hk & Hk' & _ & _ & _ & _ & Hx & _)]; [done..|].
  split; [by intros (_ & _ & Heq & _)%Hn|]. exists m, m', prk, send, recv'. split_and!; [done|done|apply Hk|apply Hk'|].
  intros [_ Heq]%Hx. done.
Defined.
