(* ===== verification/Session.v ===== *)
(** * Session (src/L2/Session.cpp, include/amp/L2/Session.h)

    The established session: sealing and opening packets under its keys, the
    two rekeys and the grace window.  [Session] implements the interface
    [PacketProtection] of L1 and its laws. *)

From S2P Require Import Prelude L1Types L2Types ToyCrypto SessionControl SessionKeys SessionCrypto.

Record Session := MkSession {
  material_ : SessionMaterial;
  master_ikm_ : bytes;
  transcript_hash_ : bytes;
  previous_recv_key_ : option bytes;
  grace_until_ms_ : Z;
}.
#[export] Instance Session_fields : Fields Session := fun s =>
  MkSession (material_ s) (master_ikm_ s) (transcript_hash_ s) (previous_recv_key_ s) (grace_until_ms_ s).

Definition FromMaterial (material : SessionMaterial) (master_ikm transcript_hash : bytes) : Roe Session :=
  if negb (length (k_assoc material) =? kAssocKeyBytes)%nat || negb (length (k_send material) =? kSessionKeyBytes)%nat
     || negb (length (k_recv material) =? kSessionKeyBytes)%nat then Fail (Err_ "amp session: bad key sizes")
  else if bool_decide (master_ikm = []) then Fail (Err_ "amp session: empty master ikm")
  else if bool_decide (transcript_hash = []) then Fail (Err_ "amp session: empty transcript hash")
  else Ok (MkSession material master_ikm transcript_hash None 0).

Definition AssocKey (s : Session) : PeerKey := take kAssocKeyBytes (k_assoc (material_ s)).

Definition OutDirection (s : Session) : Direction :=
  if initiator (material_ s) then InitiatorToResponder else ResponderToInitiator.
Definition InDirection (s : Session) : Direction :=
  if initiator (material_ s) then ResponderToInitiator else InitiatorToResponder.

Definition HasGraceRecvKey (s : Session) (now_ms : Z) : bool :=
  bool_decide (is_Some (previous_recv_key_ s)) && (0 <? now_ms) && (now_ms <=? grace_until_ms_ s).

Section Session.
Context `{Aead} `{Kdf}.

Definition Session_SealPacket (s : Session) (space : PacketSpace) (number : Z) (header plaintext : bytes) : Roe bytes :=
  SessionCrypto_SealPacket (k_send (material_ s)) (OutDirection s) (session_epoch (material_ s))
    space number header plaintext.

Definition Session_OpenPacket (s : Session) (space : PacketSpace) (number : Z) (header sealed : bytes) (now_ms : Z)
    : Roe bytes :=
  let opened := SessionCrypto_OpenPacket (k_recv (material_ s)) (InDirection s) (session_epoch (material_ s))
                  space number header sealed in
  if ok opened || negb (HasGraceRecvKey s now_ms) then opened
  else SessionCrypto_OpenPacket (default [] (previous_recv_key_ s)) (InDirection s)
         (u32 (session_epoch (material_ s) - 1)) space number header sealed.

(** A rekey that fails leaves the epoch moved. *)
Definition Rekey (s : Session) : Session * Roe unit :=
  let s := s <| material_ ::= fun m => m <| session_epoch ::= fun e => u32 (e + 1) |> |> in
  match Derive (master_ikm_ s) (transcript_hash_ s) (initiator (material_ s)) (session_epoch (material_ s)) with
  | Fail e => (s, Fail e)
  | Ok refreshed =>
      (s <| material_ ::= fun m => m <| k_send := k_send refreshed |> <| k_recv := k_recv refreshed |> |>
         <| previous_recv_key_ := None |>
         <| grace_until_ms_ := 0 |>, Ok tt)
  end.

Definition ApplyRekey (s : Session) (target_epoch now_ms : Z) : Session * Roe unit :=
  if negb (target_epoch =? u32 (session_epoch (material_ s) + 1))
  then (s, Fail (Err_ "amp session: unexpected rekey epoch"))
  else
    let s := s <| previous_recv_key_ := Some (k_recv (material_ s)) |>
               <| grace_until_ms_ := now_ms + kSessionRekeyGraceMs |>
               <| material_ ::= fun m => m <| session_epoch := target_epoch |> |> in
    match Derive (master_ikm_ s) (transcript_hash_ s) (initiator (material_ s)) (session_epoch (material_ s)) with
    | Fail e => (s, Fail e)
    | Ok refreshed =>
        (s <| material_ ::= fun m => m <| k_send := k_send refreshed |> <| k_recv := k_recv refreshed |> |>, Ok tt)
    end.

End Session.

(** ** The session as the protection of L1's packets

    [keys_in_use]: its receive keys and its send key are keys in use. *)

Definition keys_in_use (in_use : bytes -> Prop) (s : Session) : Prop :=
  in_use (k_send (material_ s)) /\ in_use (k_recv (material_ s))
  /\ forall k, previous_recv_key_ s = Some k -> in_use k.

#[export] Instance Session_protects `{Aead} : PacketProtection Session := {|
  SealPacket := Session_SealPacket;
  OpenPacket := Session_OpenPacket;
|}.
Definition Session_sound (in_use : bytes -> Prop) : Sound Session := keys_in_use in_use.

Section Facts.
Context `{Aead} {in_use : bytes -> Prop} `{!AeadLaws in_use}.

Lemma Session_open_authentic (p q : Session) space number header plain sealed now opened :
  keys_in_use in_use p -> keys_in_use in_use q ->
  Session_SealPacket p space number header plain = Ok sealed ->
  Session_OpenPacket q space number header sealed now = Ok opened -> opened = plain.
Proof.
  intros (Hp & _) (_ & Hq & Hprev) Hs. unfold Session_OpenPacket.
  destruct (SessionCrypto_OpenPacket (k_recv (material_ q)) _ _ _ _ _ _) as [p'|] eqn:Ho; cbn [ok orb].
  - intros <-%Ok_inj. by apply (Crypto_open_authentic _ _ _ _ _ _ _ _ _ _ _ _ Hp Hq Hs Ho).
  - destruct (HasGraceRecvKey q now) eqn:Hg; cbn [negb]; [|done].
    unfold HasGraceRecvKey in Hg. destruct (previous_recv_key_ q) as [k|] eqn:Hk; [|by apply andb_true_iff in Hg as [[? _]%andb_true_iff _]].
    intros Ho'. by apply (Crypto_open_authentic _ _ _ _ _ _ _ _ _ _ _ _ Hp (Hprev k eq_refl) Hs Ho').
Qed.

Lemma Session_protection_laws : @PacketProtectionLaws Session Session_protects (Session_sound in_use).
Proof.
  split.
  - intros p q sp n h plain sealed now opened Hp Hq. by apply Session_open_authentic.
  - intros p sp n h plain sealed. apply Crypto_seal_length.
  - intros q sp n h sealed now opened Ho Hb. cbn [OpenPacket Session_protects] in Ho. unfold Session_OpenPacket in Ho.
    destruct (ok _ || _); by eapply Crypto_open_bytes.
Qed.

End Facts.

(** ** Sessions of a run

    The sessions one end can come to from the handshake's material by rekeys,
    with whatever targets and at whatever times. *)

Section Run.
Context `{Aead} `{Kdf} (ikm th : bytes).

Inductive session_run (i : bool) : Session -> Prop :=
  | run_established m s : Derive ikm th i 1 = Ok m -> FromMaterial m ikm th = Ok s -> session_run i s
  | run_rekey s : session_run i s -> session_run i (fst (Rekey s))
  | run_apply s target_epoch now_ms : session_run i s -> session_run i (fst (ApplyRekey s target_epoch now_ms)).

(** The material is what the handshake derives for the epoch, and the key kept
    for the grace window the one of the epoch before. *)
Record session_wf (i : bool) (s : Session) : Prop := {
  wf_ikm : master_ikm_ s = ikm;
  wf_th : transcript_hash_ s = th;
  wf_role : initiator (material_ s) = i;
  wf_epoch : is_u32 (session_epoch (material_ s));
  wf_derived : Derive ikm th i (session_epoch (material_ s)) = Ok (material_ s);
  wf_previous : forall k, previous_recv_key_ s = Some k ->
    exists m, Derive ikm th i (u32 (session_epoch (material_ s) - 1)) = Ok m /\ k = k_recv m;
}.

Context {in_use : bytes -> Prop} `{!AeadLaws in_use} `{!KdfLaws}.

(** Derivation at another epoch: the same role and association key. *)
Lemma Derive_again i e m e' : Derive ikm th i e = Ok m ->
  exists m', Derive ikm th i e' = Ok m'
    /\ m' = MkSessionMaterial (k_assoc m) (k_send m') (k_recv m') e' i.
Proof.
  intros Hd. destruct (Derive_inv _ _ _ _ _ Hd) as (Hne & Hl & _ & _).
  destruct (Derive_total ikm th i e' Hne Hl) as (m' & Hd' & _). exists m'. split; [done|].
  pose proof (Derive_assoc _ _ _ _ _ _ _ _ Hd Hd') as <-. destruct (Derive_inv _ _ _ _ _ Hd') as (_ & _ & He & Hi).
  destruct m' as [ka ks kr em im]. simpl in *. by subst.
Qed.

Lemma FromMaterial_ok m s : FromMaterial m ikm th = Ok s -> s = MkSession m ikm th None 0.
Proof. unfold FromMaterial. destruct (_ || _ || _); [done|]. repeat (case_bool_decide; [done|]). by intros <-%Ok_inj. Qed.

Lemma Rekey_wf i s : session_wf i s ->
  session_wf i (fst (Rekey s)) /\ snd (Rekey s) = Ok tt
  /\ session_epoch (material_ (fst (Rekey s))) = u32 (session_epoch (material_ s) + 1)
  /\ previous_recv_key_ (fst (Rekey s)) = None.
Proof.
  intros [Hikm Hth Hi He Hd Hp]. destruct (Derive_again i _ _ (u32 (session_epoch (material_ s) + 1)) Hd) as (m' & Hd' & Hm').
  unfold Rekey. destruct s as [[ka ks kr e ii] mi t prev g]. cbn in *. subst. rewrite Hd'. cbn in *.
  split_and!; [|done..]. constructor; cbn; [done..|apply u32_range| |done]. by rewrite Hd', Hm'.
Qed.

Lemma ApplyRekey_wf i s target now : session_wf i s ->
  session_wf i (fst (ApplyRekey s target now))
  /\ (if target =? u32 (session_epoch (material_ s) + 1)
      then snd (ApplyRekey s target now) = Ok tt
        /\ session_epoch (material_ (fst (ApplyRekey s target now))) = target
        /\ previous_recv_key_ (fst (ApplyRekey s target now)) = Some (k_recv (material_ s))
        /\ grace_until_ms_ (fst (ApplyRekey s target now)) = now + kSessionRekeyGraceMs
      else ApplyRekey s target now = (s, Fail (Err_ "amp session: unexpected rekey epoch"))).
Proof.
  intros Hwf. unfold ApplyRekey. destruct (Z.eqb_spec target (u32 (session_epoch (material_ s) + 1))) as [->|]; [|done].
  cbn [negb]. destruct Hwf as [Hikm Hth Hi He Hd Hp].
  destruct (Derive_again i _ _ (u32 (session_epoch (material_ s) + 1)) Hd) as (m' & Hd' & Hm').
  destruct s as [[ka ks kr e ii] mi t prev g]. cbn in *. subst. rewrite Hd'. cbn in *.
  split_and!; [|done..]. constructor; cbn; [done..|apply u32_range|by rewrite Hd', Hm'|].
  intros k [= <-]. eexists. replace (u32 (u32 (e + 1) - 1)) with e; [by split|].
  unfold u32. rewrite Zminus_mod_idemp_l. replace (e + 1 - 1) with e by lia. symmetry. by apply u32_id.
Qed.

Lemma session_run_wf i s : session_run i s -> session_wf i s.
Proof.
  induction 1 as [m s Hd Hs|s _ IH|s t now _ IH]; [|by apply Rekey_wf|by apply ApplyRekey_wf].
  apply FromMaterial_ok in Hs as ->. destruct (Derive_inv _ _ _ _ _ Hd) as (_ & _ & He & Hi).
  constructor; cbn; rewrite ?He; done.
Qed.

Lemma Session_seal_total i a sp n header plain : session_wf i a ->
  exists sealed, Session_SealPacket a sp n header plain = Ok sealed.
Proof.
  intros Hwf. destruct (Derive_inv _ _ _ _ _ (wf_derived _ _ Hwf)) as (Hne & Hl & _ & _).
  destruct (Derive_total ikm th i (session_epoch (material_ a)) Hne Hl) as (m & Hd & _ & Hk & _).
  rewrite (wf_derived _ _ Hwf) in Hd. apply Ok_inj in Hd. apply Crypto_seal_total. by rewrite Hd.
Qed.

(** The other end's receiving side at the epoch [a] sends in. *)
Lemma peer_recv_key i a m : session_wf i a -> Derive ikm th (negb i) (session_epoch (material_ a)) = Ok m ->
  k_recv m = k_send (material_ a).
Proof. intros Hwf Hm. by destruct (Derive_mirrored _ _ _ _ _ _ (wf_derived _ _ Hwf) Hm) as (_ & _ & ->). Qed.

Lemma peer_direction i a b : session_wf i a -> session_wf (negb i) b -> InDirection b = OutDirection a.
Proof. intros Ha Hb. unfold InDirection, OutDirection. rewrite (wf_role _ _ Ha), (wf_role _ _ Hb). by destruct i. Qed.

Lemma same_epoch_opens i a b space number header plain sealed now : session_wf i a -> session_wf (negb i) b ->
  session_epoch (material_ b) = session_epoch (material_ a) ->
  Session_SealPacket a space number header plain = Ok sealed ->
  Session_OpenPacket b space number header sealed now = Ok plain.
Proof.
  intros Ha Hb He Hs. pose proof (Crypto_open_sealed _ _ _ _ _ _ _ _ Hs) as Hopen.
  pose proof (wf_derived _ _ Hb) as Hd. rewrite He in Hd. unfold Session_OpenPacket.
  by rewrite (peer_recv_key _ _ _ Ha Hd), (peer_direction _ _ _ Ha Hb), He, Hopen.
Qed.

(** C12: the two ends of a session understand each other across rekeys.  Both
    start from the handshake's material and rekey as they like; whenever they
    are in the same epoch, or the receiver one ahead and in its grace window,
    every packet one seals the other opens to the same bytes; and both stay
    keyed to the same association. *)
Theorem sessions_follow_rekey (i : bool) (a b : Session) (space : PacketSpace) (number now : Z) (header plain : bytes)
    (Ha : session_run i a) (Hb : session_run (negb i) b) :
  AssocKey a = AssocKey b
  /\ exists sealed, Session_SealPacket a space number header plain = Ok sealed
     /\ (session_epoch (material_ b) = session_epoch (material_ a) ->
         Session_OpenPacket b space number header sealed now = Ok plain)
     /\ (keys_in_use in_use a -> keys_in_use in_use b ->
         session_epoch (material_ b) = u32 (session_epoch (material_ a) + 1) -> HasGraceRecvKey b now = true ->
         Session_OpenPacket b space number header sealed now = Ok plain).
Proof.
  apply session_run_wf in Ha, Hb. pose proof (peer_direction _ _ _ Ha Hb) as Hdir.
  split; [unfold AssocKey; by rewrite (Derive_assoc _ _ _ _ _ _ _ _ (wf_derived _ _ Ha) (wf_derived _ _ Hb))|].
  destruct (Session_seal_total i a space number header plain Ha) as [sealed Hs]. exists sealed. split; [done|].
  pose proof (Crypto_open_sealed _ _ _ _ _ _ _ _ Hs) as Hopen. split.
  - intros He. by apply (same_epoch_opens i a b).
  - intros Hua Hub He Hg. pose proof (Session_open_authentic a b space number header plain sealed now) as Hauth.
    destruct (Session_OpenPacket b space number header sealed now) as [opened|] eqn:Ho; [by rewrite (Hauth opened Hua Hub Hs eq_refl)|].
    unfold Session_OpenPacket in Ho. rewrite Hg, orb_false_r in Ho. destruct (ok _) eqn:Hc; [by rewrite Ho in Hc|].
    unfold HasGraceRecvKey in Hg. destruct (previous_recv_key_ b) as [k|] eqn:Hk; [|by apply andb_true_iff in Hg as [[? _]%andb_true_iff _]].
    destruct (wf_previous _ _ Hb k Hk) as (m & Hd & ->). cbn [from_option Datatypes.id] in Ho.
    assert (Hback : u32 (session_epoch (material_ b) - 1) = session_epoch (material_ a)).
    { rewrite He. unfold u32. rewrite Zminus_mod_idemp_l. replace (session_epoch (material_ a) + 1 - 1) with (session_epoch (material_ a)) by lia.
      apply u32_id, (wf_epoch _ _ Ha). }
    rewrite Hback in Hd, Ho. rewrite (peer_recv_key _ _ _ Ha Hd), Hdir, Hopen in Ho. done.
Qed.

End Run.

(** ** Witnesses *)

Section Witness.
#[local] Existing Instance toy_aead.
#[local] Existing Instance toy_kdf.

Definition toy_ikm : bytes := [7].
Definition toy_th : bytes := replicate 32 9.
Definition toy_session (i : bool) : Session :=
  match Derive toy_ikm toy_th i 1 with
  | Ok m => MkSession m toy_ikm toy_th None 0
  | Fail _ => MkSession (MkSessionMaterial [] [] [] 0 i) [] [] None 0
  end.

Lemma toy_session_run i : session_run toy_ikm toy_th i (toy_session i).
Proof. apply (run_established _ _ _ (material_ (toy_session i))); destruct i; vm_compute; reflexivity. Qed.

(** The responder is one rekey ahead, the initiator's packet of the old epoch
    arrives in the grace window. *)
Theorem sessions_follow_rekey_witness :
  AssocKey (toy_session true) = AssocKey (fst (ApplyRekey (toy_session false) 2 500))
  /\ exists sealed, Session_SealPacket (toy_session true) SpaceReliable 5 [1; 2] [3; 4] = Ok sealed
     /\ Session_OpenPacket (fst (ApplyRekey (toy_session false) 2 500)) SpaceReliable 5 [1; 2] sealed 1500 = Ok [3; 4].
Proof.
  pose proof (toy_session_run true) as Ha.
  pose proof (run_apply _ _ _ _ 2 500 (toy_session_run false)) as Hb.
  destruct (@sessions_follow_rekey toy_aead toy_kdf toy_ikm toy_th (fun _ => True) toy_aead_laws toy_kdf_laws
              true _ _ SpaceReliable 5 1500 [1; 2] [3; 4] Ha Hb) as (Hk & sealed & Hs & _ & Hgrace).
  split; [exact Hk|]. exists sealed. split; [exact Hs|]. apply Hgrace; [by split_and!|by split_and!|vm_compute; reflexivity|vm_compute; reflexivity].
Defined.

End Witness.
