(* ===== verification/MshMessages.v ===== *)
(** * Handshake messages (src/L2/MshMessages.cpp, include/amp/L2/MshMessages.h)

    The fixed-size messages of the mesh session handshake.  The key, ciphertext
    and signature sizes are those of the ML-KEM and ML-DSA parameters. *)

From S2P Require Import Prelude L1Types L2Types ToyCrypto.

Inductive MshMessageType := ClientHello | ServerHello | ClientPayload | ServerPayload | Finished.
Definition msh_type_to_Z (t : MshMessageType) : Z :=
  match t with ClientHello => 1 | ServerHello => 2 | ClientPayload => 3 | ServerPayload => 4 | Finished => 5 end.

Record MshHello := MkMshHello {
  hello_version : Z;
  kem_public_key : bytes;
  nonce : bytes;
}.
Record MshPayload := MkMshPayload {
  kem_ciphertext : bytes;
  identity_public_key : bytes;
  static_kem_public_key : bytes;
  identity_signature : bytes;
}.
Record MshFinished := MkMshFinished { mac : bytes }.

(** The field and the rest of the span. *)
Definition ReadFixed (wire : bytes) (n : nat) : Roe (bytes * bytes) :=
  if (length wire <? n)%nat then Fail (Err_ "amp msh: truncated fixed field")
  else Ok (take n wire, drop n wire).

Definition ExpectEmpty (wire : bytes) : Roe unit :=
  match wire with
  | [] => Ok tt
  | _ => Fail (Err_ "amp msh: trailing bytes")
  end.

Definition ExpectType (wire : bytes) (expected : MshMessageType) : Roe bytes :=
  match wire with
  | [] => Fail (Err_ "amp msh: empty message")
  | t :: rest => if negb (t =? msh_type_to_Z expected) then Fail (Err_ "amp msh: unexpected message type")
                 else Ok rest
  end.

(** [x.size() != n]. *)
Definition bad_size (x : bytes) (n : nat) : bool := negb (length x =? n)%nat.

Section Messages.
Context `{MlKem} `{MlDsa}.

Definition BuildIdentitySignMessage (static_kem_public_key : bytes) : Roe bytes :=
  if bad_size static_kem_public_key kMlKem768PublicKeyBytes then Fail (Err_ "amp msh: bad static kem pk size")
  else Ok (kAmpIdentityBindPrefix ++ static_kem_public_key).

Definition EncodeHello (t : MshMessageType) (hello : MshHello) : Roe bytes :=
  if negb (hello_version hello =? kMshVersion) then Fail (Err_ "amp msh: bad hello version")
  else if bad_size (kem_public_key hello) kMlKem768PublicKeyBytes then Fail (Err_ "amp msh: bad kem pk size")
  else if bad_size (nonce hello) kHandshakeNonceBytes then Fail (Err_ "amp msh: bad hello nonce size")
  else Ok ([msh_type_to_Z t] ++ [hello_version hello] ++ kem_public_key hello ++ nonce hello).

Definition DecodeHello (expected : MshMessageType) (wire : bytes) : Roe MshHello :=
  span ← ExpectType wire expected;
  match span with
  | [] => Fail (Err_ "amp msh: missing hello version")
  | v :: span =>
      if negb (v =? kMshVersion) then Fail (Err_ "amp msh: unsupported hello version")
      else
        '(kem_pk, span) ← ReadFixed span kMlKem768PublicKeyBytes;
        '(n, span) ← ReadFixed span kHandshakeNonceBytes;
        _ ← ExpectEmpty span;
        Ok (MkMshHello v kem_pk n)
  end.

Definition EncodePayload (t : MshMessageType) (payload : MshPayload) : Roe bytes :=
  if bad_size (kem_ciphertext payload) kMlKem768CiphertextBytes then Fail (Err_ "amp msh: bad kem ct size")
  else if bad_size (identity_public_key payload) kMlDsa65PublicKeyBytes then Fail (Err_ "amp msh: bad identity pk size")
  else if bad_size (static_kem_public_key payload) kMlKem768PublicKeyBytes
  then Fail (Err_ "amp msh: bad static kem pk size")
  else if bad_size (identity_signature payload) kMlDsa65SignatureBytes then Fail (Err_ "amp msh: bad identity sig size")
  else Ok ([msh_type_to_Z t] ++ kem_ciphertext payload ++ identity_public_key payload
             ++ static_kem_public_key payload ++ identity_signature payload).

Definition DecodePayload (expected : MshMessageType) (wire : bytes) : Roe MshPayload :=
  span ← ExpectType wire expected;
  '(kem_ct, span) ← ReadFixed span kMlKem768CiphertextBytes;
  '(id_pk, span) ← ReadFixed span kMlDsa65PublicKeyBytes;
  '(static_pk, span) ← ReadFixed span kMlKem768PublicKeyBytes;
  '(sig, span) ← ReadFixed span kMlDsa65SignatureBytes;
  _ ← ExpectEmpty span;
  Ok (MkMshPayload kem_ct id_pk static_pk sig).

Definition EncodeFinished (finished : MshFinished) : Roe bytes :=
  if bad_size (mac finished) kFinishedMacBytes then Fail (Err_ "amp msh: bad finished mac size")
  else Ok ([msh_type_to_Z Finished] ++ mac finished).

Definition DecodeFinished (wire : bytes) : Roe MshFinished :=
  span ← ExpectType wire Finished;
  '(m, span) ← ReadFixed span kFinishedMacBytes;
  _ ← ExpectEmpty span;
  Ok (MkMshFinished m).

(** ** Lemmas *)

Lemma bad_size_false x n : bad_size x n = false <-> length x = n.
Proof. unfold bad_size. by rewrite negb_false_iff, Nat.eqb_eq. Qed.

Lemma ReadFixed_app x rest n : length x = n -> ReadFixed (x ++ rest) n = Ok (x, rest).
Proof.
  intros Hn. unfold ReadFixed. rewrite (proj2 (Nat.ltb_ge _ _)) by (rewrite length_app; lia).
  by rewrite take_app_length', drop_app_length' by done.
Qed.
Lemma ReadFixed_inv wire n x rest : ReadFixed wire n = Ok (x, rest) -> length x = n /\ wire = x ++ rest.
Proof.
  unfold ReadFixed. destruct (Nat.ltb_spec (length wire) n) as [|Hl]; [done|]. intros Hr.
  apply Ok_inj in Hr. assert (take n wire = x) as <- by congruence. assert (drop n wire = rest) as <- by congruence.
  split; [rewrite length_take; lia|by rewrite take_drop].
Qed.
Lemma ExpectType_inv wire t rest : ExpectType wire t = Ok rest -> wire = [msh_type_to_Z t] ++ rest.
Proof.
  destruct wire as [|b wire]; [done|]. simpl. destruct (Z.eqb_spec b (msh_type_to_Z t)) as [->|]; [|done].
  by intros [= ->].
Qed.
Lemma ExpectType_app t rest : ExpectType ([msh_type_to_Z t] ++ rest) t = Ok rest.
Proof. simpl. by rewrite Z.eqb_refl. Qed.
Lemma ExpectEmpty_inv wire u : ExpectEmpty wire = Ok u -> wire = [].
Proof. by destruct wire. Qed.

Definition hello_layout (t : MshMessageType) (h : MshHello) : bytes :=
  [msh_type_to_Z t] ++ [hello_version h] ++ kem_public_key h ++ nonce h.
Definition payload_layout (t : MshMessageType) (p : MshPayload) : bytes :=
  [msh_type_to_Z t] ++ kem_ciphertext p ++ identity_public_key p ++ static_kem_public_key p ++ identity_signature p.

Definition hello_ok (h : MshHello) : Prop :=
  hello_version h = kMshVersion /\ length (kem_public_key h) = kMlKem768PublicKeyBytes
  /\ length (nonce h) = kHandshakeNonceBytes.
Definition payload_ok (p : MshPayload) : Prop :=
  length (kem_ciphertext p) = kMlKem768CiphertextBytes /\ length (identity_public_key p) = kMlDsa65PublicKeyBytes
  /\ length (static_kem_public_key p) = kMlKem768PublicKeyBytes
  /\ length (identity_signature p) = kMlDsa65SignatureBytes.

Lemma EncodeHello_ok t h w : EncodeHello t h = Ok w <-> hello_ok h /\ w = hello_layout t h.
Proof.
  unfold EncodeHello, hello_ok. destruct (Z.eqb_spec (hello_version h) kMshVersion) as [Hv|Hv]; cbn [negb].
  2:{ split; [done|]. by intros [(? & _) _]. }
  destruct (bad_size (kem_public_key h) _) eqn:Hk; [split; [done|]; intros [(_ & Hk' & _) _]; apply bad_size_false in Hk'; congruence|].
  destruct (bad_size (nonce h) _) eqn:Hn; [split; [done|]; intros [(_ & _ & Hn') _]; apply bad_size_false in Hn'; congruence|].
  apply bad_size_false in Hk, Hn. split; [intros Hw; apply Ok_inj in Hw as <-; done|by intros [_ ->]].
Qed.

Lemma DecodeHello_iff t wire h : DecodeHello t wire = Ok h <-> hello_ok h /\ wire = hello_layout t h.
Proof.
  split.
  - unfold DecodeHello. destruct (ExpectType wire t) as [span|] eqn:Ht; [|done]. cbn [mbind result_bind].
    apply ExpectType_inv in Ht as ->. destruct span as [|v span]; [done|].
    destruct (Z.eqb_spec v kMshVersion) as [->|]; [|done]. cbn [negb].
    destruct (ReadFixed span _) as [[pk s1]|] eqn:H1; [|done]. cbn [mbind result_bind].
    apply ReadFixed_inv in H1 as [Hpk ->].
    destruct (ReadFixed s1 _) as [[n s2]|] eqn:H2; [|done]. cbn [mbind result_bind].
    apply ReadFixed_inv in H2 as [Hn ->].
    destruct (ExpectEmpty s2) eqn:He; [|done]. apply ExpectEmpty_inv in He as ->.
    intros Hh. apply Ok_inj in Hh as <-. split; [done|]. by rewrite app_nil_r.
  - intros [(Hv & Hpk & Hn) ->]. unfold DecodeHello, hello_layout. rewrite ExpectType_app. cbn [mbind result_bind app].
    rewrite Hv, Z.eqb_refl. cbn [negb]. rewrite ReadFixed_app by done. cbn [mbind result_bind].
    rewrite <- (app_nil_r (nonce h)), ReadFixed_app by done. cbn. rewrite <- Hv. by destruct h.
Qed.

Lemma EncodePayload_ok t p w : EncodePayload t p = Ok w <-> payload_ok p /\ w = payload_layout t p.
Proof.
  unfold EncodePayload, payload_ok. rewrite <- !bad_size_false.
  destruct (bad_size (kem_ciphertext p) _); [naive_solver|].
  destruct (bad_size (identity_public_key p) _); [naive_solver|].
  destruct (bad_size (static_kem_public_key p) _); [naive_solver|].
  destruct (bad_size (identity_signature p) _); [naive_solver|].
  split; [intros Hw; apply Ok_inj in Hw as <-; done|by intros [_ ->]].
Qed.

Lemma DecodePayload_iff t wire p : DecodePayload t wire = Ok p <-> payload_ok p /\ wire = payload_layout t p.
Proof.
  split.
  - unfold DecodePayload. destruct (ExpectType wire t) as [span|] eqn:Ht; [|done]. cbn [mbind result_bind].
    apply ExpectType_inv in Ht as ->.
    destruct (ReadFixed span _) as [[a s1]|] eqn:H1; [|done]. cbn [mbind result_bind]. apply ReadFixed_inv in H1 as [Ha ->].
    destruct (ReadFixed s1 _) as [[b s2]|] eqn:H2; [|done]. cbn [mbind result_bind]. apply ReadFixed_inv in H2 as [Hb ->].
    destruct (ReadFixed s2 _) as [[c s3]|] eqn:H3; [|done]. cbn [mbind result_bind]. apply ReadFixed_inv in H3 as [Hc ->].
    destruct (ReadFixed s3 _) as [[d s4]|] eqn:H4; [|done]. cbn [mbind result_bind]. apply ReadFixed_inv in H4 as [Hd ->].
    destruct (ExpectEmpty s4) eqn:He; [|done]. apply ExpectEmpty_inv in He as ->.
    intros Hp. apply Ok_inj in Hp as <-. split; [done|]. by rewrite app_nil_r.
  - intros [(Ha & Hb & Hc & Hd) ->]. unfold DecodePayload, payload_layout. rewrite ExpectType_app. cbn [mbind result_bind].
    rewrite ReadFixed_app by done. cbn [mbind result_bind]. rewrite ReadFixed_app by done. cbn [mbind result_bind].
    rewrite ReadFixed_app by done. cbn [mbind result_bind].
    rewrite <- (app_nil_r (identity_signature p)), ReadFixed_app by done. by destruct p.
Qed.

Lemma EncodeFinished_ok f w :
  EncodeFinished f = Ok w <-> length (mac f) = kFinishedMacBytes /\ w = [msh_type_to_Z Finished] ++ mac f.
Proof.
  unfold EncodeFinished. rewrite <- bad_size_false. destruct (bad_size _ _); [naive_solver|].
  split; [intros Hw; apply Ok_inj in Hw as <-; done|by intros [_ ->]].
Qed.

Lemma DecodeFinished_iff wire f :
  DecodeFinished wire = Ok f <-> length (mac f) = kFinishedMacBytes /\ wire = [msh_type_to_Z Finished] ++ mac f.
Proof.
  split.
  - unfold DecodeFinished. destruct (ExpectType wire Finished) as [span|] eqn:Ht; [|done]. cbn [mbind result_bind].
    apply ExpectType_inv in Ht as ->. destruct (ReadFixed span _) as [[m s1]|] eqn:H1; [|done]. cbn [mbind result_bind].
    apply ReadFixed_inv in H1 as [Hm ->]. destruct (ExpectEmpty s1) eqn:He; [|done]. apply ExpectEmpty_inv in He as ->.
    intros Hf. apply Ok_inj in Hf as <-. split; [done|]. by rewrite app_nil_r.
  - intros [Hm ->]. unfold DecodeFinished. rewrite ExpectType_app. cbn [mbind result_bind].
    rewrite <- (app_nil_r (mac f)), ReadFixed_app by done. by destruct f.
Qed.

(** ** Theorems *)

(** Handshake messages have one spelling each.  Bytes decode, as a message
    of a given type, exactly when they are what that message encodes to — so
    every message that encodes comes back, nothing but its encoding is taken for
    it, and no bytes are messages of two types. *)
Theorem msh_messages_exact (t u : MshMessageType) (h : MshHello) (p : MshPayload) (f : MshFinished) (wire : bytes) :
  (DecodeHello t wire = Ok h <-> EncodeHello t h = Ok wire)
  /\ (DecodePayload t wire = Ok p <-> EncodePayload t p = Ok wire)
  /\ (DecodeFinished wire = Ok f <-> EncodeFinished f = Ok wire)
  /\ (t <> u -> ~ (ok (DecodeHello t wire) || ok (DecodePayload t wire) = true
                   /\ ok (DecodeHello u wire) || ok (DecodePayload u wire) = true)).
Proof.
  split_and!.
  - by rewrite DecodeHello_iff, EncodeHello_ok.
  - by rewrite DecodePayload_iff, EncodePayload_ok.
  - by rewrite DecodeFinished_iff, EncodeFinished_ok.
  - assert (Hty : forall v, ok (DecodeHello v wire) || ok (DecodePayload v wire) = true ->
      exists rest, wire = [msh_type_to_Z v] ++ rest).
    { intros v Hv. destruct (ExpectType wire v) as [rest|] eqn:He; [exists rest; by apply ExpectType_inv|].
      unfold DecodeHello, DecodePayload in Hv. by rewrite He in Hv. }
    intros Hne [(r1 & H1)%Hty (r2 & H2)%Hty]. rewrite H1 in H2. apply Hne.
    assert (msh_type_to_Z t = msh_type_to_Z u) as Heq by (simpl in H2; congruence). by destruct t, u.
Qed.

End Messages.

Theorem msh_messages_exact_witness :
  @ok Error _ (@DecodeHello toy_kem ClientHello ([1; 1; 5; 5; 5] ++ zeros 32)) = true
  /\ @ok Error _ (@DecodeHello toy_kem ServerHello ([1; 1; 5; 5; 5] ++ zeros 32)) = false.
Proof.
  pose proof (@msh_messages_exact toy_kem toy_dsa ClientHello ServerHello (MkMshHello 1 [5; 5; 5] (zeros 32))
                (MkMshPayload [] [] [] []) (MkMshFinished []) ([1; 1; 5; 5; 5] ++ zeros 32)) as (Hh & _ & _ & Hne).
  assert (Hd : @DecodeHello toy_kem ClientHello ([1; 1; 5; 5; 5] ++ zeros 32) = Ok (MkMshHello 1 [5; 5; 5] (zeros 32)))
    by (by apply Hh).
  split; [by rewrite Hd|]. specialize (Hne ltac:(done)).
  destruct (ok (DecodeHello ServerHello _)) eqn:Hs; [|done]. exfalso. apply Hne. split; [by rewrite Hd|done].
Defined.
