(* ===== verification/MshHandshake.v ===== *)
(** * Mesh session handshake (src/L2/MshHandshake.cpp)

    The whole handshake between two identities in memory: hellos with fresh
    ML-KEM keys, payloads that encapsulate to the other side's key and sign
    one's own, the finished messages, and the material of both sides.  The
    randomness drawn on the way is an argument. *)

From S2P Require Import Prelude L1Types Toy L2Types ToyCrypto SessionKeys MshMessages Session.

Record MshEstablished := MkMshEstablished {
  initiator_material : SessionMaterial;
  responder_material : SessionMaterial;
  est_master_ikm : bytes;
  est_transcript_hash : bytes;
}.

Record KemState := MkKemState {
  ephemeral_secret : bytes;
  ephemeral_public : bytes;
}.

(** What [Run] draws, in the order it does. *)
Record Randomness := MkRandomness {
  r_initiator_kem : bytes;
  r_client_nonce : bytes;
  r_responder_kem : bytes;
  r_server_nonce : bytes;
  r_client_encap : bytes;
  r_server_encap : bytes;
}.

Definition AppendPart (transcript : list bytes) (wire : bytes) : list bytes := transcript ++ [wire].

(** [randombytes_buf] of the randomness [r]. *)
Definition RandomNonce (r : bytes) : Roe bytes := Ok (resize kHandshakeNonceBytes 0 r).

Section MshHandshake.
Context `{Sodium} `{Kdf} `{MlKem} `{MlDsa}.

Definition NewEphemeralKem (r : bytes) : Roe KemState :=
  '(secret, public) ← GenerateKeyPair r;
  Ok (MkKemState secret public).

Definition EncodeHelloOf (type : MshMessageType) (kem : KemState) (r : bytes) : Roe bytes :=
  nonce ← RandomNonce r;
  EncodeHello type (MkMshHello kMshVersion (ephemeral_public kem) nonce).

Definition BuildPayload (identity : MshIdentity) (kem : KemState) (remote_ephemeral_public r : bytes)
    : Roe MshPayload :=
  if bad_size (ml_dsa_public_key identity) kMlDsa65PublicKeyBytes
     || bad_size (ml_dsa_secret_key identity) kMlDsa65SecretKeyBytes
  then Fail (Err_ "amp msh: bad identity key sizes")
  else
    '(ct, _) ← Encapsulate remote_ephemeral_public r;
    sign_msg ← BuildIdentitySignMessage (ephemeral_public kem);
    sig ← Sign (ml_dsa_secret_key identity) sign_msg;
    Ok (MkMshPayload ct (ml_dsa_public_key identity) (ephemeral_public kem) sig).

Definition VerifyPayload (payload : MshPayload) : Roe unit :=
  sign_msg ← BuildIdentitySignMessage (static_kem_public_key payload);
  verified ← DsaVerify (identity_public_key payload) sign_msg (identity_signature payload);
  if negb verified then Fail (Err_ "amp msh: identity signature invalid") else Ok tt.

Definition CombineMasterIkm (client_ss server_ss : bytes) : Roe bytes :=
  if bad_size client_ss kMlKem768SharedSecretBytes || bad_size server_ss kMlKem768SharedSecretBytes
  then Fail (Err_ "amp msh: bad kem shared secret size")
  else Ok (client_ss ++ server_ss).

Definition FinishedMac (master_ikm transcript_hash : bytes) : Roe bytes :=
  match hkdf_extract kAmpHkdfSalt master_ikm with
  | None => Fail (Err_ "amp msh: finished hkdf extract failed")
  | Some prk =>
      match hkdf_expand prk kAmpFinishedInfo kSessionKeyBytes with
      | None => Fail (Err_ "amp msh: finished hkdf expand failed")
      | Some finished_key => Ok (crypto_auth_hmacsha256 finished_key transcript_hash)
      end
  end.

Definition BuildFinished (master_ikm : bytes) (transcript_parts : list bytes) : Roe bytes :=
  transcript_hash ← TranscriptHash transcript_parts;
  mac ← FinishedMac master_ikm transcript_hash;
  EncodeFinished (MkMshFinished mac).

Definition VerifyFinished (master_ikm : bytes) (transcript_parts : list bytes) (finished_wire : bytes) : Roe unit :=
  finished ← DecodeFinished finished_wire;
  transcript_hash ← TranscriptHash transcript_parts;
  expected ← FinishedMac master_ikm transcript_hash;
  if negb (length (mac finished) =? length expected)%nat || negb (bool_decide (mac finished = expected))
  then Fail (Err_ "amp msh: finished mismatch")
  else Ok tt.

Definition Run (rnd : Randomness) (initiator responder : MshIdentity) : Roe MshEstablished :=
  initiator_kem ← NewEphemeralKem (r_initiator_kem rnd);
  client_hello ← EncodeHelloOf ClientHello initiator_kem (r_client_nonce rnd);
  client_parsed ← DecodeHello ClientHello client_hello;
  responder_kem ← NewEphemeralKem (r_responder_kem rnd);
  server_hello ← EncodeHelloOf ServerHello responder_kem (r_server_nonce rnd);
  let transcript := AppendPart [] client_hello in
  let transcript := AppendPart transcript server_hello in
  client_payload_struct ← BuildPayload initiator initiator_kem (ephemeral_public responder_kem) (r_client_encap rnd);
  client_payload ← EncodePayload ClientPayload client_payload_struct;
  client_ss ← Decapsulate (ephemeral_secret responder_kem) (kem_ciphertext client_payload_struct);
  server_payload_struct ← BuildPayload responder responder_kem (kem_public_key client_parsed) (r_server_encap rnd);
  server_payload ← EncodePayload ServerPayload server_payload_struct;
  server_ss ← Decapsulate (ephemeral_secret initiator_kem) (kem_ciphertext server_payload_struct);
  _ ← VerifyPayload client_payload_struct;
  _ ← VerifyPayload server_payload_struct;
  let transcript := AppendPart transcript client_payload in
  let transcript := AppendPart transcript server_payload in
  master_ikm ← CombineMasterIkm client_ss server_ss;
  client_finished ← BuildFinished master_ikm transcript;
  _ ← VerifyFinished master_ikm transcript client_finished;
  server_finished ← BuildFinished master_ikm transcript;
  _ ← VerifyFinished master_ikm transcript server_finished;
  transcript_hash ← TranscriptHash transcript;
  initiator_material ← Derive master_ikm transcript_hash true 1;
  responder_material ← Derive master_ikm transcript_hash false 1;
  Ok (MkMshEstablished initiator_material responder_material master_ikm transcript_hash).

End MshHandshake.

Section Facts.
Context `{SodiumLaws} `{KdfLaws} `{MlKemLaws} `{MlDsaLaws}.

Lemma EncodeHelloOf_ok type kem r : length (ephemeral_public kem) = kMlKem768PublicKeyBytes ->
  let h := MkMshHello kMshVersion (ephemeral_public kem) (resize kHandshakeNonceBytes 0 r) in
  EncodeHelloOf type kem r = Ok (hello_layout type h) /\ DecodeHello type (hello_layout type h) = Ok h.
Proof.
  intros Hpk. cbv zeta. assert (hello_ok (MkMshHello kMshVersion (ephemeral_public kem) (resize kHandshakeNonceBytes 0 r))).
  { split; [done|]. split; [done|apply length_resize]. }
  split; [|by apply DecodeHello_iff]. unfold EncodeHelloOf, RandomNonce. cbn [mbind result_bind]. by apply EncodeHello_ok.
Qed.

(** A payload built for a fresh key is well formed, verifies, and carries a
    secret the key's owner recovers. *)
Lemma BuildPayload_ok identity kem r0 sk remote r :
  dsa_pair (ml_dsa_secret_key identity) (ml_dsa_public_key identity) ->
  length (ephemeral_public kem) = kMlKem768PublicKeyBytes -> GenerateKeyPair r0 = Ok (sk, remote) ->
  exists p ss, BuildPayload identity kem remote r = Ok p /\ payload_ok p /\ VerifyPayload p = Ok tt
    /\ Decapsulate sk (kem_ciphertext p) = Ok ss /\ length ss = kMlKem768SharedSecretBytes.
Proof.
  intros Hpair Hpk Hgen. destruct (dsa_pair_sizes _ _ Hpair) as [Hsk Hid].
  destruct (kem_encapsulate _ _ _ r Hgen) as (ct & ss & Henc & Hdec & Hct & Hss).
  set (m := kAmpIdentityBindPrefix ++ ephemeral_public kem).
  destruct (dsa_correct _ _ m Hpair) as (sig & Hsign & Hsig & Hver).
  assert (Hmsg : BuildIdentitySignMessage (ephemeral_public kem) = Ok m).
  { unfold BuildIdentitySignMessage. by rewrite (proj2 (bad_size_false _ _) Hpk). }
  exists (MkMshPayload ct (ml_dsa_public_key identity) (ephemeral_public kem) sig), ss. split_and!; [|done| |done..].
  - unfold BuildPayload. rewrite (proj2 (bad_size_false _ _) Hid), (proj2 (bad_size_false _ _) Hsk). cbn [orb].
    rewrite Henc. cbn [mbind result_bind]. rewrite Hmsg. cbn [mbind result_bind]. by rewrite Hsign.
  - unfold VerifyPayload. cbn [static_kem_public_key identity_public_key identity_signature]. rewrite Hmsg.
    cbn [mbind result_bind]. by rewrite Hver.
Qed.

Lemma FinishedMac_total ikm th : exists m, FinishedMac ikm th = Ok m /\ length m = kFinishedMacBytes.
Proof.
  unfold FinishedMac. destruct (extract_total kAmpHkdfSalt ikm) as [prk ->].
  destruct (expand_total prk kAmpFinishedInfo kSessionKeyBytes) as (k & -> & _). eexists. split; [done|]. apply hmac_length.
Qed.

(** A finished message is accepted exactly if it is the one built from the
    same secret and transcript. *)
Lemma VerifyFinished_iff ikm parts wire :
  VerifyFinished ikm parts wire = Ok tt <-> BuildFinished ikm parts = Ok wire.
Proof.
  unfold VerifyFinished, BuildFinished, TranscriptHash. cbn [mbind result_bind].
  destruct (FinishedMac_total ikm (sha256 (concat parts))) as (m & -> & Hm). cbn [mbind result_bind].
  rewrite EncodeFinished_ok. destruct (DecodeFinished wire) as [f|e] eqn:Hd; cbn [mbind result_bind].
  - apply DecodeFinished_iff in Hd as [Hf ->]. rewrite Hf, Hm, Nat.eqb_refl. cbn [negb orb].
    case_bool_decide as Heq; cbn [negb].
    + split; [by rewrite <- Heq|done].
    + split; [done|]. intros [_ Hw]. simpl in Hw. congruence.
  - split; [done|]. intros [Hl ->].
    rewrite (proj2 (DecodeFinished_iff _ (MkMshFinished m)) (conj Hl eq_refl)) in Hd. done.
Qed.

Lemma BuildFinished_total ikm parts : exists w, BuildFinished ikm parts = Ok w.
Proof.
  unfold BuildFinished, TranscriptHash. cbn [mbind result_bind].
  destruct (FinishedMac_total ikm (sha256 (concat parts))) as (m & -> & Hm). cbn [mbind result_bind].
  eexists. by apply EncodeFinished_ok.
Qed.

Lemma NewEphemeralKem_ok r : exists sk pk, NewEphemeralKem r = Ok (MkKemState sk pk)
  /\ GenerateKeyPair r = Ok (sk, pk) /\ length pk = kMlKem768PublicKeyBytes.
Proof. destruct (kem_generate r) as (sk & pk & Hg & Hl). exists sk, pk. unfold NewEphemeralKem. by rewrite Hg. Qed.

Lemma CombineMasterIkm_ok a b :
  length a = kMlKem768SharedSecretBytes -> length b = kMlKem768SharedSecretBytes ->
  CombineMasterIkm a b = Ok (a ++ b) /\ a ++ b <> [].
Proof.
  intros Ha Hb. unfold CombineMasterIkm. rewrite (proj2 (bad_size_false _ _) Ha), (proj2 (bad_size_false _ _) Hb).
  split; [done|]. intros [-> _]%app_eq_nil. pose proof kem_secret_bytes as Hpos. simpl in Ha. lia.
Qed.

(** What [Run] gives: the two sides' derivations from one secret and one
    transcript. *)
Lemma Run_ok rnd ini resp :
  dsa_pair (ml_dsa_secret_key ini) (ml_dsa_public_key ini) ->
  dsa_pair (ml_dsa_secret_key resp) (ml_dsa_public_key resp) ->
  exists est, Run rnd ini resp = Ok est /\ est_master_ikm est <> [] /\ length (est_transcript_hash est) = 32%nat
    /\ Derive (est_master_ikm est) (est_transcript_hash est) true 1 = Ok (initiator_material est)
    /\ Derive (est_master_ikm est) (est_transcript_hash est) false 1 = Ok (responder_material est).
Proof.
  intros Hi Hr. unfold Run.
  destruct (NewEphemeralKem_ok (r_initiator_kem rnd)) as (isk & ipk & -> & Hig & Hil). cbn [mbind result_bind].
  destruct (EncodeHelloOf_ok ClientHello (MkKemState isk ipk) (r_client_nonce rnd) Hil) as [-> Hdec]. cbn [mbind result_bind].
  rewrite Hdec. cbn [mbind result_bind].
  destruct (NewEphemeralKem_ok (r_responder_kem rnd)) as (rsk & rpk & -> & Hrg & Hrl). cbn [mbind result_bind].
  destruct (EncodeHelloOf_ok ServerHello (MkKemState rsk rpk) (r_server_nonce rnd) Hrl) as [-> _].
  cbn [mbind result_bind ephemeral_public ephemeral_secret kem_public_key].
  destruct (BuildPayload_ok ini (MkKemState isk ipk) _ _ _ (r_client_encap rnd) Hi Hil Hrg) as (cp & css & -> & Hcok & Hcv & Hcd & Hcl).
  cbn [mbind result_bind]. rewrite (proj2 (EncodePayload_ok ClientPayload cp _) (conj Hcok eq_refl)). cbn [mbind result_bind].
  rewrite Hcd. cbn [mbind result_bind].
  destruct (BuildPayload_ok resp (MkKemState rsk rpk) _ _ _ (r_server_encap rnd) Hr Hrl Hig) as (sp & sss & -> & Hsok & Hsv & Hsd & Hsl).
  cbn [mbind result_bind]. rewrite (proj2 (EncodePayload_ok ServerPayload sp _) (conj Hsok eq_refl)). cbn [mbind result_bind].
  rewrite Hsd. cbn [mbind result_bind]. rewrite Hcv, Hsv. cbn [mbind result_bind].
  destruct (CombineMasterIkm_ok _ _ Hcl Hsl) as [-> Hne]. cbn [mbind result_bind].
  set (tr := AppendPart (AppendPart _ _) _). clearbody tr.
  destruct (BuildFinished_total (css ++ sss) tr) as [w Hw]. rewrite Hw. cbn [mbind result_bind].
  rewrite (proj2 (VerifyFinished_iff _ _ _) Hw). cbn [mbind result_bind]. unfold TranscriptHash. cbn [mbind result_bind].
  pose proof (sha256_length (concat tr)) as Hth.
  destruct (Derive_total _ _ true 1 Hne Hth) as (mi & Hmi & _). destruct (Derive_total _ _ false 1 Hne Hth) as (mr & Hmr & _).
  rewrite Hmi. cbn [mbind result_bind]. rewrite Hmr. cbn [mbind result_bind]. eexists. split; [done|]. done.
Qed.

(** C11: a handshake between two proper identities succeeds, whatever
    randomness is drawn, and gives both sides sessions of one run: the same
    association key, each side's sending key the other's receiving key.  A
    finished message is accepted exactly if it is the one built from the same
    secret and transcript. *)
Theorem handshake_agrees `{Aead} (rnd : Randomness) (ini resp : MshIdentity) (ikm : bytes) (parts : list bytes) (wire : bytes)
    (Hini : dsa_pair (ml_dsa_secret_key ini) (ml_dsa_public_key ini))
    (Hresp : dsa_pair (ml_dsa_secret_key resp) (ml_dsa_public_key resp)) :
  (exists est a b, Run rnd ini resp = Ok est
     /\ FromMaterial (initiator_material est) (est_master_ikm est) (est_transcript_hash est) = Ok a
     /\ FromMaterial (responder_material est) (est_master_ikm est) (est_transcript_hash est) = Ok b
     /\ session_run (est_master_ikm est) (est_transcript_hash est) true a
     /\ session_run (est_master_ikm est) (est_transcript_hash est) false b
     /\ AssocKey a = AssocKey b
     /\ k_send (initiator_material est) = k_recv (responder_material est)
     /\ k_recv (initiator_material est) = k_send (responder_material est))
  /\ (VerifyFinished ikm parts wire = Ok tt <-> BuildFinished ikm parts = Ok wire).
Proof.
  split; [|apply VerifyFinished_iff].
  destruct (Run_ok rnd ini resp Hini Hresp) as (est & Hrun & Hne & Hth & Hi & Hr).
  assert (Hfrom : forall i m, Derive (est_master_ikm est) (est_transcript_hash est) i 1 = Ok m ->
    FromMaterial m (est_master_ikm est) (est_transcript_hash est)
    = Ok (MkSession m (est_master_ikm est) (est_transcript_hash est) None 0)).
  { intros i m Hm. destruct (Derive_total _ _ i 1 Hne Hth) as (m' & Hm' & Ha & Hs & Hv). rewrite Hm in Hm'.
    apply Ok_inj in Hm' as <-. unfold FromMaterial. rewrite Ha, Hs, Hv. cbn [Nat.eqb negb orb].
    rewrite !bool_decide_false; [done| |done]. intros Hnil. by rewrite Hnil in Hth. }
  destruct (Derive_mirrored _ _ true _ _ _ Hi Hr) as (Ha & Hs & Hv).
  eexists est, _, _. split; [done|]. split; [by apply (Hfrom true)|]. split; [by apply (Hfrom false)|].
  split_and!; [by eapply run_established; [|apply (Hfrom true)]|by eapply run_established; [|apply (Hfrom false)]| |done..].
  unfold AssocKey. cbn [material_]. by rewrite Ha.
Qed.

End Facts.

Section Witness.
#[local] Existing Instance toy_sodium.
#[local] Existing Instance toy_sodium_laws.
#[local] Existing Instance toy_kdf.
#[local] Existing Instance toy_kdf_laws.
#[local] Existing Instance toy_kem.
#[local] Existing Instance toy_kem_laws.
#[local] Existing Instance toy_dsa.
#[local] Existing Instance toy_dsa_laws.
#[local] Existing Instance toy_aead.

Definition toy_identity (k : Z) : MshIdentity := MkMshIdentity [k; 1] [k; 1].
Definition toy_randomness : Randomness := MkRandomness [11] [12; 13] [14] [15] [16] [17].

Theorem handshake_agrees_witness :
  exists est, Run toy_randomness (toy_identity 3) (toy_identity 4) = Ok est
    /\ k_send (initiator_material est) = k_recv (responder_material est)
    /\ est_master_ikm est = [16; 17].
Proof.
  destruct (handshake_agrees toy_randomness (toy_identity 3) (toy_identity 4) [] [] [])
    as [(est & a & b & Hrun & _ & _ & _ & _ & _ & Hk & _) _]; [done..|].
  exists est. split; [exact Hrun|]. split; [exact Hk|].
  assert (Hm : (est' ← Run toy_randomness (toy_identity 3) (toy_identity 4); Ok (est_master_ikm est')) = Ok [16; 17])
    by (vm_compute; reflexivity).
  rewrite Hrun in Hm. by apply Ok_inj in Hm.
Defined.

End Witness.
