(* ===== verification/AmpAdpCarrier.v ===== *)
(** * Carrier payloads (src/link/AmpAdpCarrier.cpp, include/amp/link/AmpAdpCarrier.h)

    The payloads of a plain association and of a carrier: handshake messages
    whole or in chunks, the clear header of sealed packets, and the frames of
    the reliable lane.  An enumeration cast from a byte of the wire may hold any
    value, so the decoders give the byte; [kind_to_Z] and [msh_type_to_Z] name
    the values of the enumerators. *)

From S2P Require Import Prelude L1Types L2Types MshMessages.

Inductive AmpAdpPayloadKind := Msh | Sealed | MshChunk | LaneData | LaneAck | SealedReliable.
Definition payload_kind_to_Z (k : AmpAdpPayloadKind) : Z :=
  match k with Msh => 0 | Sealed => 1 | MshChunk => 2 | LaneData => 3 | LaneAck => 4 | SealedReliable => 5 end.

Definition kCarrierSealedHeaderBytes : nat := 1 + 4.
Definition kCarrierLaneHeaderBytes : nat := 1 + 4.

Record CarrierSealedHeader := MkCarrierSealedHeader {
  reliable : bool;
  number : Z;
}.

Record LaneAckFields := MkLaneAckFields {
  cumulative : Z;
  selective : Z;
}.
Definition LaneAckFields_default : LaneAckFields := MkLaneAckFields 0 0.

Definition kMaxMshBodyPerDatagram : nat := 900.
Definition kMaxMshMessageBytes : Z := 12288.
Definition kMaxMshChunkCount : Z :=
  u16 ((kMaxMshMessageBytes + Z.of_nat kMaxMshBodyPerDatagram - 1) / Z.of_nat kMaxMshBodyPerDatagram).

Definition AppendLaneU32 (out : bytes) (v : Z) : bytes :=
  out ++ [u8 v; u8 (Z.shiftr v 8); u8 (Z.shiftr v 16); u8 (Z.shiftr v 24)].

(** The value and the new [offset]. *)
Definition ReadLaneU32 (wire : bytes) (offset : nat) : Roe (Z * nat) :=
  if (length wire <? offset + 4)%nat then Fail (Err_ "amp carrier: truncated u32")
  else Ok (Z.lor (Z.lor (Z.lor (at_ wire offset) (Z.shiftl (at_ wire (offset + 1)) 8))
                    (Z.shiftl (at_ wire (offset + 2)) 16)) (Z.shiftl (at_ wire (offset + 3)) 24),
           (offset + 4)%nat).

(** ** Handshake messages *)

Definition EncodeMsh (type : Z) (body : bytes) : Roe bytes :=
  Ok ([payload_kind_to_Z Msh] ++ [type] ++ body).

Definition msh_chunk (type frag_count : Z) (body : bytes) (i : nat) : bytes :=
  let offset := (i * kMaxMshBodyPerDatagram)%nat in
  let chunk_len := Nat.min kMaxMshBodyPerDatagram (length body - offset) in
  [payload_kind_to_Z MshChunk; type; u8 (Z.of_nat i); u8 (Z.shiftr (Z.of_nat i) 8);
   u8 frag_count; u8 (Z.shiftr frag_count 8)]
  ++ take chunk_len (drop offset body).

(** The loop variable is 16 bits wide, as is the count it runs to. *)
Definition EncodeMshChunked (type : Z) (body : bytes) : Roe (list bytes) :=
  if (length body <=? kMaxMshBodyPerDatagram)%nat then
    single ← EncodeMsh type body;
    Ok [single]
  else
    let frag_count := u16 (Z.of_nat ((length body + kMaxMshBodyPerDatagram - 1) / kMaxMshBodyPerDatagram)) in
    Ok (map (msh_chunk type frag_count body) (List.seq 0 (Z.to_nat frag_count))).

Definition DecodeKind (payload : bytes) : Roe Z :=
  match payload with
  | [] => Fail (Err_ "amp carrier: empty payload")
  | k :: _ => Ok k
  end.

Definition DecodeMshType (payload : bytes) : Roe Z :=
  if (length payload <? 2)%nat then Fail (Err_ "amp carrier: truncated msh header")
  else if negb (at_ payload 0 =? payload_kind_to_Z Msh) then Fail (Err_ "amp carrier: not an msh payload")
  else Ok (at_ payload 1).

Definition DecodeMshBody (payload : bytes) : Roe bytes :=
  if (length payload <? 2)%nat then Fail (Err_ "amp carrier: truncated msh payload")
  else Ok (drop 2 payload).

(** Type, index, count and piece. *)
Definition DecodeMshChunk (payload : bytes) : Roe (Z * Z * Z * bytes) :=
  if (length payload <? 6)%nat || negb (at_ payload 0 =? payload_kind_to_Z MshChunk)
  then Fail (Err_ "amp carrier: bad msh chunk")
  else
    let type := at_ payload 1 in
    let index := Z.lor (at_ payload 2) (Z.shiftl (at_ payload 3) 8) in
    let count := Z.lor (at_ payload 4) (Z.shiftl (at_ payload 5) 8) in
    Ok (type, index, count, drop 6 payload).

(** ** Sealed packets *)

Definition CarrierEncodeSealedHeader (reliable : bool) (number : Z) : bytes :=
  [payload_kind_to_Z (if reliable then SealedReliable else Sealed)]
  ++ map (fun i => u8 (Z.shiftr number (8 * i))) [0; 1; 2; 3].

Definition CarrierDecodeSealedHeader (payload : bytes) : Roe CarrierSealedHeader :=
  if (length payload <? kCarrierSealedHeaderBytes + kPacketTagBytes)%nat
  then Fail (Err_ "amp carrier: truncated sealed packet")
  else
    let kind := at_ payload 0 in
    if negb (kind =? payload_kind_to_Z Sealed) && negb (kind =? payload_kind_to_Z SealedReliable)
    then Fail (Err_ "amp carrier: not a sealed packet")
    else
      '(number, _) ← ReadLaneU32 payload 1;
      Ok (MkCarrierSealedHeader (kind =? payload_kind_to_Z SealedReliable) number).

(** ** The reliable lane *)

Definition EncodeLaneData (seq : Z) (inner : bytes) : bytes :=
  AppendLaneU32 [payload_kind_to_Z LaneData] seq ++ inner.

Definition DecodeLaneData (payload : bytes) : Roe (Z * bytes) :=
  if bool_decide (payload = []) || negb (at_ payload 0 =? payload_kind_to_Z LaneData)
  then Fail (Err_ "amp carrier: not a lane data payload")
  else
    '(seq, offset) ← ReadLaneU32 payload 1;
    if (seq =? 0) || (length payload <=? offset)%nat then Fail (Err_ "amp carrier: bad lane data")
    else Ok (seq, drop offset payload).

Definition EncodeLaneAck (ack : LaneAckFields) : bytes :=
  let out := [payload_kind_to_Z LaneAck] in
  let out := AppendLaneU32 out (cumulative ack) in
  let out := AppendLaneU32 out (u32 (selective ack)) in
  AppendLaneU32 out (u32 (Z.shiftr (selective ack) 32)).

(** All three are read, the later ones at the offset a failed one left. *)
Definition DecodeLaneAck (payload : bytes) : Roe LaneAckFields :=
  if bool_decide (payload = []) || negb (at_ payload 0 =? payload_kind_to_Z LaneAck)
  then Fail (Err_ "amp carrier: not a lane ack payload")
  else
    let offset := 1%nat in
    let cumulative := ReadLaneU32 payload offset in
    let offset := match cumulative with Ok (_, o) => o | Fail _ => offset end in
    let lo := ReadLaneU32 payload offset in
    let offset := match lo with Ok (_, o) => o | Fail _ => offset end in
    let hi := ReadLaneU32 payload offset in
    match cumulative, lo, hi with
    | Ok (c, _), Ok (l, _), Ok (h, _) => Ok (MkLaneAckFields c (Z.lor l (Z.shiftl h 32)))
    | _, _, _ => Fail (Err_ "amp carrier: truncated lane ack")
    end.

(** ** Lemmas *)

Lemma AppendLaneU32_le out v : AppendLaneU32 out v = out ++ le_bytes 4 v.
Proof. unfold AppendLaneU32. by rewrite push_u32_le. Qed.

(** Reading where an integer was written. *)
Lemma ReadLaneU32_at pre v rest : is_u32 v ->
  ReadLaneU32 (pre ++ le_bytes 4 v ++ rest) (length pre) = Ok (v, (length pre + 4)%nat).
Proof.
  intros Hv. unfold ReadLaneU32.
  rewrite (proj2 (Nat.ltb_ge _ _)) by (rewrite !length_app, le_bytes_length; lia).
  rewrite <- (Nat.add_0_r (length pre)) at 1. rewrite !at_app_r, or_u32_le.
  rewrite take_split_4 by (rewrite length_app, le_bytes_length; lia).
  rewrite take_app_length' by (by rewrite le_bytes_length). by rewrite le_value_bytes, Z.mod_small.
Qed.

Lemma ReadLaneU32_1 k v rest : is_u32 v -> ReadLaneU32 ([k] ++ le_bytes 4 v ++ rest) 1 = Ok (v, 5%nat).
Proof. apply (ReadLaneU32_at [k]). Qed.

(** What was read was written there. *)
Lemma ReadLaneU32_inv wire offset v next : bytes_ok wire -> ReadLaneU32 wire offset = Ok (v, next) ->
  next = (offset + 4)%nat /\ is_u32 v /\ take offset wire ++ le_bytes 4 v ++ drop next wire = wire /\ (next <= length wire)%nat.
Proof.
  intros Hok. unfold ReadLaneU32. destruct (Nat.ltb_spec (length wire) (offset + 4)) as [|Hl]; [done|].
  intros Hr. apply Ok_inj in Hr. rewrite or_u32_le in Hr.
  assert (Hat : forall k, at_ wire (offset + k) = at_ (drop offset wire) k).
  { intros k. unfold at_. by rewrite !nth_lookup, lookup_drop. }
  rewrite <- (Nat.add_0_r offset) in Hr at 1. rewrite !Hat, take_split_4 in Hr by (rewrite length_drop; lia).
  set (l := take 4 (drop offset wire)) in *.
  assert (Hlen : length l = 4%nat) by (unfold l; rewrite length_take, length_drop; lia).
  assert (Hlok : bytes_ok l) by (unfold l; auto with amp).
  assert (Hv : v = le_value l) by congruence. assert (Hn : next = (offset + 4)%nat) by congruence. subst v next.
  split; [done|]. split; [pose proof (le_value_range l Hlok) as Hr'; unfold size in Hr'; by rewrite Hlen in Hr'|]. split; [|lia].
  pose proof (le_bytes_value l Hlok) as Hle. rewrite Hlen in Hle. rewrite Hle. unfold l.
  rewrite <- drop_drop. by rewrite !take_drop.
Qed.

Lemma CarrierEncodeSealedHeader_layout r n :
  CarrierEncodeSealedHeader r n = [payload_kind_to_Z (if r then SealedReliable else Sealed)] ++ le_bytes 4 n.
Proof. unfold CarrierEncodeSealedHeader. rewrite <- push_u32_le. simpl. by rewrite Z.shiftr_0_r. Qed.

Lemma CarrierDecodeSealedHeader_app r n body : is_u32 n -> (kPacketTagBytes <= length body)%nat ->
  CarrierDecodeSealedHeader (CarrierEncodeSealedHeader r n ++ body) = Ok (MkCarrierSealedHeader r n).
Proof.
  intros Hn Hb. rewrite CarrierEncodeSealedHeader_layout. unfold CarrierDecodeSealedHeader.
  rewrite (proj2 (Nat.ltb_ge _ _))
    by (rewrite !length_app, le_bytes_length; unfold kCarrierSealedHeaderBytes; simpl length; lia).
  change (at_ _ 0) with (payload_kind_to_Z (if r then SealedReliable else Sealed)).
  rewrite <- app_assoc. rewrite ReadLaneU32_1 by done. by destruct r.
Qed.

Lemma DecodeLaneData_app seq inner : is_u32 seq -> seq <> 0 -> inner <> [] ->
  DecodeLaneData (EncodeLaneData seq inner) = Ok (seq, inner).
Proof.
  intros Hs H0 Hi. unfold EncodeLaneData. rewrite AppendLaneU32_le, <- app_assoc. unfold DecodeLaneData.
  rewrite bool_decide_false by done. change (at_ _ 0) with (payload_kind_to_Z LaneData). rewrite Z.eqb_refl.
  cbn [negb orb]. rewrite ReadLaneU32_1 by done. cbn [mbind result_bind].
  rewrite (proj2 (Z.eqb_neq _ _) H0). cbn [orb].
  rewrite (proj2 (Nat.leb_gt _ _))
    by (rewrite !length_app, le_bytes_length; destruct inner; [done|simpl; lia]).
  reflexivity.
Qed.

Lemma DecodeLaneData_inv wire seq inner : bytes_ok wire -> DecodeLaneData wire = Ok (seq, inner) ->
  is_u32 seq /\ seq <> 0 /\ inner <> [] /\ wire = EncodeLaneData seq inner.
Proof.
  intros Hok. unfold DecodeLaneData. destruct wire as [|k wire]; [done|]. cbn [bool_decide].
  rewrite bool_decide_false by done. change (at_ (k :: wire) 0) with k. cbn [orb].
  destruct (Z.eqb_spec k (payload_kind_to_Z LaneData)) as [->|]; [|done]. cbn [negb].
  destruct (ReadLaneU32 _ 1) as [[s off]|] eqn:Hr; [|done]. cbn [mbind result_bind].
  apply ReadLaneU32_inv in Hr as (-> & Hs & Heq & Hl); [|done].
  destruct (Z.eqb_spec s 0) as [|H0]; [done|]. cbn [orb]. destruct (Nat.leb_spec (length (payload_kind_to_Z LaneData :: wire)) (1 + 4)) as [|Hlt]; [done|].
  intros Hi. apply Ok_inj in Hi. assert (seq = s) as -> by congruence. assert (inner = drop (1 + 4) (payload_kind_to_Z LaneData :: wire)) as -> by congruence.
  split_and!; [done..| |].
  - intros Hnil. apply (f_equal length) in Hnil. rewrite length_drop in Hnil. simpl in Hnil, Hlt. lia.
  - unfold EncodeLaneData. rewrite AppendLaneU32_le, <- app_assoc. symmetry. exact Heq.
Qed.

Lemma u64_halves s : is_u64 s -> Z.lor (u32 s) (Z.shiftl (u32 (Z.shiftr s 32)) 32) = s.
Proof.
  unfold is_u64, u32. intros Hs. apply Z.bits_inj'. intros i Hi. rewrite Z.lor_spec, Z.shiftl_spec by lia.
  destruct (Z.lt_ge_cases i 32) as [Hlt|Hge].
  - rewrite Z.mod_pow2_bits_low by lia. rewrite (Z.testbit_neg_r _ (i - 32)) by lia. apply orb_false_r.
  - rewrite Z.mod_pow2_bits_high by lia. cbn [orb]. destruct (Z.lt_ge_cases (i - 32) 32).
    + rewrite Z.mod_pow2_bits_low by lia. rewrite Z.shiftr_spec by lia. f_equal. lia.
    + rewrite Z.mod_pow2_bits_high by lia. symmetry. destruct (Z.eq_dec s 0) as [->|]; [apply Z.bits_0|].
      apply Z.bits_above_log2; [lia|]. apply Z.log2_lt_pow2; [lia|]. apply Z.lt_le_trans with (2 ^ 64); [lia|].
      apply Z.pow_le_mono_r; lia.
Qed.

Lemma halves_u64 l h : is_u32 l -> is_u32 h ->
  let s := Z.lor l (Z.shiftl h 32) in is_u64 s /\ u32 s = l /\ u32 (Z.shiftr s 32) = h.
Proof.
  intros Hl Hh. unfold is_u32 in *. unfold u32, is_u64. cbv zeta.
  assert (Hs : Z.lor l (Z.shiftl h 32) = l + h * 2 ^ 32).
  { rewrite Z.shiftl_mul_pow2 by lia. rewrite <- Z.add_lor_land. enough (Z.land l (h * 2 ^ 32) = 0) as ->; [lia|].
    apply Z.bits_inj'. intros i Hi. rewrite Z.land_spec, Z.bits_0. destruct (Z.lt_ge_cases i 32).
    - rewrite Z.mul_pow2_bits_low by lia. apply andb_false_r.
    - replace l with (l mod 2 ^ 32) by (apply Z.mod_small; lia). by rewrite Z.mod_pow2_bits_high by lia. }
  rewrite Hs. split; [nia|]. split; [rewrite Z.mod_add by lia; by apply Z.mod_small|].
  rewrite Z.shiftr_div_pow2, Z.div_add by lia. rewrite (Z.div_small l) by lia. by apply Z.mod_small.
Qed.

Definition ack_ok (ack : LaneAckFields) : Prop := is_u32 (cumulative ack) /\ is_u64 (selective ack).

Lemma EncodeLaneAck_layout ack :
  EncodeLaneAck ack = [payload_kind_to_Z LaneAck] ++ le_bytes 4 (cumulative ack)
    ++ le_bytes 4 (u32 (selective ack)) ++ le_bytes 4 (u32 (Z.shiftr (selective ack) 32)).
Proof. unfold EncodeLaneAck. by rewrite !AppendLaneU32_le, <- !app_assoc. Qed.

(** An acknowledgement decodes from its bytes and whatever follows. *)
Lemma DecodeLaneAck_app ack rest : ack_ok ack -> DecodeLaneAck (EncodeLaneAck ack ++ rest) = Ok ack.
Proof.
  intros [Hc Hs]. rewrite EncodeLaneAck_layout, <- !app_assoc. unfold DecodeLaneAck.
  rewrite bool_decide_false by done. change (at_ _ 0) with (payload_kind_to_Z LaneAck). rewrite Z.eqb_refl. cbn [negb orb]. cbv zeta.
  rewrite ReadLaneU32_1 by done. change 5%nat with (length [payload_kind_to_Z LaneAck] + 4)%nat.
  rewrite (app_assoc [_]).
  replace (length [payload_kind_to_Z LaneAck] + 4)%nat with (length ([payload_kind_to_Z LaneAck] ++ le_bytes 4 (cumulative ack)))
    by (by rewrite length_app, le_bytes_length).
  rewrite ReadLaneU32_at by apply u32_range.
  rewrite (app_assoc ([_] ++ _)). set (pre := [_] ++ _). replace (length pre + 4)%nat with (length (pre ++ le_bytes 4 (u32 (selective ack))))
    by (by rewrite length_app, le_bytes_length).
  rewrite ReadLaneU32_at by apply u32_range. rewrite u64_halves by done. by destruct ack.
Qed.

Lemma DecodeLaneAck_inv wire ack : bytes_ok wire -> DecodeLaneAck wire = Ok ack ->
  ack_ok ack /\ exists rest, wire = EncodeLaneAck ack ++ rest.
Proof.
  intros Hok. unfold DecodeLaneAck. destruct wire as [|k wire]; [done|].
  rewrite bool_decide_false by done. change (at_ (k :: wire) 0) with k. cbn [orb].
  destruct (Z.eqb_spec k (payload_kind_to_Z LaneAck)) as [->|]; [|done]. cbn [negb]. cbv zeta.
  destruct (ReadLaneU32 _ 1) as [[c o1]|] eqn:H1; [|done].
  destruct (ReadLaneU32 _ o1) as [[l o2]|] eqn:H2; [|done]. destruct (ReadLaneU32 _ o2) as [[h o3]|] eqn:H3; [|done].
  intros Ha. apply Ok_inj in Ha as <-. apply ReadLaneU32_inv in H1 as (-> & Hc & E1 & L1); [|done].
  apply ReadLaneU32_inv in H2 as (-> & Hl & E2 & L2); [|done]. apply ReadLaneU32_inv in H3 as (-> & Hh & E3 & L3); [|done].
  destruct (halves_u64 l h Hl Hh) as (Hu & Hlo & Hhi). split; [by split|]. cbn [cumulative selective].
  set (w := payload_kind_to_Z LaneAck :: wire) in *. exists (drop (1 + 4 + 4 + 4) w).
  rewrite EncodeLaneAck_layout. cbn [cumulative selective]. rewrite Hlo, Hhi.
  assert (Hsplit : forall o v, take o w ++ le_bytes 4 v ++ drop (o + 4) w = w -> (o + 4 <= length w)%nat ->
    take (o + 4) w = take o w ++ le_bytes 4 v).
  { intros o v He Hlen. rewrite <- He at 1. rewrite app_assoc. apply take_app_length'.
    rewrite length_app, length_take, le_bytes_length. lia. }
  pose proof (Hsplit _ _ E1 L1) as T1. pose proof (Hsplit _ _ E2 L2) as T2. rewrite T1 in T2.
  rewrite T2 in E3. rewrite <- !app_assoc in E3. rewrite <- !app_assoc. symmetry. exact E3.
Qed.

(** *** Chunks *)

Lemma u16_low v : is_u16 v -> Z.lor (u8 v) (Z.shiftl (u8 (Z.shiftr v 8)) 8) = v.
Proof.
  intros Hv. rewrite or_u16_le. change [u8 v; u8 (Z.shiftr v 8)] with (le_bytes 2 v).
  rewrite le_value_bytes. by apply Z.mod_small.
Qed.

Lemma DecodeMshChunk_chunk type count body i : is_u16 (Z.of_nat i) -> is_u16 count ->
  DecodeMshChunk (msh_chunk type count body i)
  = Ok (type, Z.of_nat i, count, take kMaxMshBodyPerDatagram (drop (i * kMaxMshBodyPerDatagram) body)).
Proof.
  intros Hi Hc. unfold DecodeMshChunk, msh_chunk. cbv zeta. set (piece := take _ (drop _ body)).
  rewrite (proj2 (Nat.ltb_ge _ _)) by (simpl; lia).
  change (at_ (_ ++ piece) 0) with (payload_kind_to_Z MshChunk). rewrite Z.eqb_refl. cbn [negb orb].
  change (at_ (_ ++ piece) 1) with type. change (at_ (_ ++ piece) 2) with (u8 (Z.of_nat i)).
  change (at_ (_ ++ piece) 3) with (u8 (Z.shiftr (Z.of_nat i) 8)). change (at_ (_ ++ piece) 4) with (u8 count).
  change (at_ (_ ++ piece) 5) with (u8 (Z.shiftr count 8)). rewrite !u16_low by done.
  change (drop 6 (_ ++ piece)) with piece. f_equal. f_equal. unfold piece.
  destruct (Nat.min_spec kMaxMshBodyPerDatagram (length body - i * kMaxMshBodyPerDatagram)) as [[_ ->]|[Hle ->]]; [done|].
  rewrite !take_ge by (rewrite length_drop; lia). done.
Qed.
