(* ===== verification/CarrierLane.v ===== *)
(** * Carrier reliable lane (src/link/CarrierLane.cpp, include/amp/link/CarrierLane.h)

    End-to-end reliable delivery over a best-effort carrier: a sender that
    numbers frames and keeps them until acknowledged, a receiver that holds
    frames out of order, acknowledgements with a cumulative number and 64
    selective bits.  The frames held ([std::map]) are an association list in
    the order of the keys. *)

From S2P Require Import Prelude L1Types AmpAdpCarrier.

(** Selective bit [i] acknowledges [cumulative + 2 + i]. *)
Definition kSelectiveBits : Z := 64.

Record CarrierLaneConfig := MkCarrierLaneConfig {
  window : Z;
  initial_rto_ms : Z;
  min_rto_ms : Z;
  max_rto_ms : Z;
  max_attempts : Z;
  fast_retransmit_skips : Z;
}.
Definition CarrierLaneConfig_default : CarrierLaneConfig := MkCarrierLaneConfig 256 500 200 3000 10 3.

Record Outstanding := MkOutstanding {
  lo_seq : Z;
  wire : bytes;
  sent_ms : Z;
  next_resend_ms : Z;
  lo_attempts : Z;
  skips : Z;
}.
#[export] Instance Outstanding_fields : Fields Outstanding := fun o =>
  MkOutstanding (lo_seq o) (wire o) (sent_ms o) (next_resend_ms o) (lo_attempts o) (skips o).

Record CarrierLane := MkCarrierLane {
  config_ : CarrierLaneConfig;
  peer_speaks_lane_ : bool;
  failed_ : bool;
  next_tx_seq_ : Z;
  outstanding_ : list Outstanding;
  rto_ms_ : Z;
  srtt_ms_ : Z;
  rttvar_ms_ : Z;
  have_rtt_ : bool;
  rx_cumulative_ : Z;
  rx_hold_ : list (Z * bytes);
}.
#[export] Instance CarrierLane_fields : Fields CarrierLane := fun l =>
  MkCarrierLane (config_ l) (peer_speaks_lane_ l) (failed_ l) (next_tx_seq_ l) (outstanding_ l) (rto_ms_ l)
    (srtt_ms_ l) (rttvar_ms_ l) (have_rtt_ l) (rx_cumulative_ l) (rx_hold_ l).

Definition CarrierLane_new (config : CarrierLaneConfig) : CarrierLane :=
  MkCarrierLane config false false 1 [] (initial_rto_ms config) 0 0 false 0 [].

Definition NotePeerSpeaksLane (l : CarrierLane) : CarrierLane := l <| peer_speaks_lane_ := true |>.

(** ** Sending *)

Definition Wrap (l : CarrierLane) (inner : bytes) (now_ms : Z) : CarrierLane * option bytes :=
  if window (config_ l) <=? size (outstanding_ l) then (l, None)
  else
    let frame := MkOutstanding (next_tx_seq_ l) (EncodeLaneData (next_tx_seq_ l) inner) now_ms
                   (now_ms + rto_ms_ l) 1 0 in
    (l <| next_tx_seq_ ::= fun n => u32 (n + 1) |>
       <| outstanding_ ::= fun o => o ++ [frame] |>, Some (wire frame)).

Definition Credits (l : CarrierLane) : Z :=
  if window (config_ l) <=? size (outstanding_ l) then 0 else window (config_ l) - size (outstanding_ l).

Definition SampleRtt (l : CarrierLane) (sample_ms : Z) : CarrierLane :=
  let sample := Z.max sample_ms 1 in
  let l :=
    if have_rtt_ l then
      let err := if sample <? srtt_ms_ l then srtt_ms_ l - sample else sample - srtt_ms_ l in
      l <| rttvar_ms_ := Z.quot (3 * rttvar_ms_ l + err) 4 |>
        <| srtt_ms_ := Z.quot (7 * srtt_ms_ l + sample) 8 |>
    else
      l <| srtt_ms_ := sample |> <| rttvar_ms_ := Z.quot sample 2 |> <| have_rtt_ := true |> in
  l <| rto_ms_ := Z.max (min_rto_ms (config_ l)) (Z.min (srtt_ms_ l + 4 * rttvar_ms_ l) (max_rto_ms (config_ l))) |>.

(** The doubling loop, [n] turns at most. *)
Fixpoint double_rto (n : nat) (max rto : Z) : Z :=
  match n with
  | O => rto
  | S n => if rto <? max then double_rto n max (rto * 2) else rto
  end.
Definition BackoffRto (l : CarrierLane) (attempts : Z) : Z :=
  Z.min (double_rto (Z.to_nat (attempts - 1)) (max_rto_ms (config_ l)) (rto_ms_ l)) (max_rto_ms (config_ l)).

(** The closure [acked]. *)
Definition acked (ack : LaneAckFields) (seq : Z) : bool :=
  if seq <=? cumulative ack then true
  else
    let bit := u32 (seq - cumulative ack - 2) in
    (u32 (cumulative ack + 2) <=? seq) && (bit <? kSelectiveBits) && Z.testbit (selective ack) bit.

Definition highest_acked (ack : LaneAckFields) : Z :=
  fold_left (fun highest bit => if Z.testbit (selective ack) bit then u32 (cumulative ack + 2 + bit) else highest)
    (map Z.of_nat (List.seq 0 (Z.to_nat kSelectiveBits))) (cumulative ack).

(** One frame of the loop: whether it stays, and the sample it gives. *)
Definition note_skip (config : CarrierLaneConfig) (highest now_ms : Z) (o : Outstanding) : Outstanding :=
  if lo_seq o <? highest then
    let o := o <| skips ::= fun n => n + 1 |> in
    if skips o =? fast_retransmit_skips config then o <| next_resend_ms := now_ms |> else o
  else o.

Fixpoint ack_loop (ack : LaneAckFields) (highest now_ms : Z) (frames : list Outstanding) (l : CarrierLane)
    : CarrierLane * list Outstanding :=
  match frames with
  | [] => (l, [])
  | o :: frames =>
      if acked ack (lo_seq o) then
        let l := if lo_attempts o =? 1 then SampleRtt l (now_ms - sent_ms o) else l in
        ack_loop ack highest now_ms frames l
      else
        let '(l, rest) := ack_loop ack highest now_ms frames l in
        (l, note_skip (config_ l) highest now_ms o :: rest)
  end.

Definition OnAck (l : CarrierLane) (ack : LaneAckFields) (now_ms : Z) : CarrierLane :=
  let '(l, rest) := ack_loop ack (highest_acked ack) now_ms (outstanding_ l) l in
  l <| outstanding_ := rest |>.

(** One frame of the resend loop: the frame, whether it failed, and the wire to send. *)
Definition resend_frame (l : CarrierLane) (now_ms : Z) (o : Outstanding) : Outstanding * bool * option bytes :=
  if now_ms <? next_resend_ms o then (o, false, None)
  else if max_attempts (config_ l) <=? lo_attempts o then (o, true, None)
  else
    let o := o <| lo_attempts ::= fun n => n + 1 |> <| skips := 0 |> in
    let o := o <| next_resend_ms := now_ms + BackoffRto l (lo_attempts o) |> in
    (o, false, Some (wire o)).

Definition DueResends (l : CarrierLane) (now_ms : Z) : CarrierLane * list bytes :=
  let results := map (resend_frame l now_ms) (outstanding_ l) in
  (l <| outstanding_ := map (fun r => r.1.1) results |>
     <| failed_ ::= fun f => f || existsb (fun r => r.1.2) results |>,
   omap (fun r => r.2) results).

(** ** Receiving *)

(** [std::map::emplace] and [contains]. *)
Fixpoint emplace (k : Z) (v : bytes) (m : list (Z * bytes)) : list (Z * bytes) :=
  match m with
  | [] => [(k, v)]
  | (k', v') :: m' => if k <? k' then (k, v) :: m else if k =? k' then m else (k', v') :: emplace k v m'
  end.
Definition contains (k : Z) (m : list (Z * bytes)) : bool := existsb (fun e => e.1 =? k) m.

(** The release loop: what is delivered, the cumulative number, what stays. *)
Fixpoint release (m : list (Z * bytes)) (rx_cumulative : Z) : list bytes * Z * list (Z * bytes) :=
  match m with
  | [] => ([], rx_cumulative, [])
  | (k, v) :: m' =>
      if k =? u32 (rx_cumulative + 1) then
        let '(deliver, cum, rest) := release m' (u32 (rx_cumulative + 1)) in
        (v :: deliver, cum, rest)
      else ([], rx_cumulative, m)
  end.

(** The bits of [selective], in the order of the frames held. *)
Fixpoint selective_bits (m : list (Z * bytes)) (rx_cumulative : Z) : Z :=
  match m with
  | [] => 0
  | (seq, _) :: m' =>
      let bit := u32 (seq - rx_cumulative - 2) in
      if kSelectiveBits <=? bit then 0
      else Z.lor (u64 (Z.shiftl 1 bit)) (selective_bits m' rx_cumulative)
  end.
Definition CurrentAck (l : CarrierLane) : LaneAckFields :=
  MkLaneAckFields (rx_cumulative_ l) (selective_bits (rx_hold_ l) (rx_cumulative_ l)).

Record Received := MkReceived {
  deliver : list bytes;
  rx_ack : LaneAckFields;
}.

(** A frame past the cumulative number and within the window is held. *)
Definition hold_frame (l : CarrierLane) (seq : Z) (inner : bytes) : CarrierLane :=
  if (rx_cumulative_ l <? seq) && negb (contains seq (rx_hold_ l))
     && (u32 (seq - rx_cumulative_ l) <=? window (config_ l))
  then l <| rx_hold_ ::= emplace seq inner |>
  else l.

Definition OnData (l : CarrierLane) (seq : Z) (inner : bytes) : CarrierLane * Received :=
  let l := hold_frame l seq inner in
  let '(deliver, cum, rest) := release (rx_hold_ l) (rx_cumulative_ l) in
  let l := l <| rx_cumulative_ := cum |> <| rx_hold_ := rest |> in
  (l, MkReceived deliver (CurrentAck l)).
