(* ===== verification/CarrierLaneProps.v ===== *)
(** * Carrier reliable lane: theorems

    Two lanes over a network that loses, repeats and reorders frames (but makes
    none up: what it carries is spliced by a relay): what is delivered, what is
    in flight and for how long. *)

From S2P Require Import Prelude L1Types AmpAdpCarrier CarrierLane.

(** ** The frames held *)

(** Keys strictly ascending from above [lo]. *)
Fixpoint ascending (lo : Z) (m : list (Z * bytes)) : Prop :=
  match m with
  | [] => True
  | (k, _) :: m' => lo < k /\ ascending k m'
  end.

Definition received (l : CarrierLane) (s : Z) : Prop := s <= rx_cumulative_ l \/ s ∈ (rx_hold_ l).*1.

(** Entry [(s, v)] holds the [s]th frame given, counted from 1. *)
Definition entry_of (given : list bytes) (e : Z * bytes) : Prop :=
  1 <= e.1 <= size given /\ given !! Z.to_nat (e.1 - 1) = Some e.2.

Lemma ascending_weaken lo lo' m : lo' <= lo -> ascending lo m -> ascending lo' m.
Proof. destruct m as [|[k v] m]; [done|]. simpl. intros ? [? ?]. split; [lia|done]. Qed.

Lemma ascending_lower lo m s : ascending lo m -> s ∈ m.*1 -> lo < s.
Proof.
  revert lo. induction m as [|[k v] m IH]; intros lo; simpl; [set_solver|]. intros [Hk Hm] [->|Hs]%elem_of_cons; [done|].
  specialize (IH k Hm Hs). lia.
Qed.

Lemma contains_spec k m : contains k m = true <-> k ∈ m.*1.
Proof.
  unfold contains. rewrite existsb_exists, list_elem_of_fmap. split.
  - intros (e & Hin%list_elem_of_In & He). exists e. split; [lia|done].
  - intros (e & -> & Hin). exists e. split; [by apply list_elem_of_In|lia].
Qed.

Lemma emplace_ascending lo k v m : lo < k -> ascending lo m -> ascending lo (emplace k v m).
Proof.
  revert lo. induction m as [|[k' v'] m IH]; intros lo Hk; simpl; [done|]. intros [Hk' Hm].
  destruct (Z.ltb_spec k k'); [by simpl|]. destruct (Z.eqb_spec k k'); [by simpl|]. simpl. split; [done|].
  apply IH; [lia|done].
Qed.

Lemma emplace_keys k v m s : s ∈ (emplace k v m).*1 <-> s = k \/ s ∈ m.*1.
Proof.
  induction m as [|[k' v'] m IH]; simpl; [set_solver|].
  destruct (Z.ltb_spec k k'); [set_solver|]. destruct (Z.eqb_spec k k'); [set_solver|]. simpl. rewrite !elem_of_cons, IH.
  naive_solver.
Qed.

Lemma emplace_Forall P k v m : P (k, v) -> Forall P m -> Forall P (emplace k v m).
Proof.
  intros Hk. induction m as [|[k' v'] m IH]; simpl; intros Hm; [by constructor|].
  destruct (_ <? _); [by constructor|]. destruct (_ =? _); [done|]. inversion Hm; subst. constructor; auto.
Qed.

(** Releasing: the frames next in order, all of them, and nothing else. *)
Lemma release_spec given m c d c' rest :
  0 <= c -> size given < 2 ^ 32 - 1 -> ascending c m -> Forall (entry_of given) m -> c <= size given ->
  release m c = (d, c', rest) ->
  c <= c' <= size given /\ take (Z.to_nat c) given ++ d = take (Z.to_nat c') given
  /\ ascending (c' + 1) rest /\ Forall (entry_of given) rest /\ suffix rest m
  /\ (forall s, s <= c' \/ s ∈ rest.*1 <-> s <= c \/ s ∈ m.*1).
Proof.
  intros Hc HN. revert c d c' rest Hc. induction m as [|[k v] m IH]; intros c d c' rest Hc Hasc Hall Hcs Hr; simpl in Hr.
  - assert (d = [] /\ c' = c /\ rest = []) as (-> & -> & ->) by (split_and!; congruence).
    split_and!; try done; try lia. by rewrite app_nil_r.
  - destruct Hasc as [Hk Hm]. inversion Hall as [|? ? [Hr1 Hv] Hall']; subst. simpl in Hr1, Hv.
    rewrite u32_id in Hr by (unfold is_u32; lia). destruct (Z.eqb_spec k (c + 1)) as [->|Hne].
    + destruct (release m (c + 1)) as [[d' c''] rest'] eqn:Hrec.
      assert (d = v :: d' /\ c' = c'' /\ rest = rest') as (-> & -> & ->) by (split_and!; congruence).
      destruct (IH (c + 1) d' c'' rest' ltac:(lia) Hm Hall' ltac:(lia) Hrec) as (H1 & H2 & H3 & H4 & H5 & H6).
      split_and!; try done; try lia.
      * rewrite <- H2. replace (Z.to_nat (c + 1)) with (S (Z.to_nat c)) by lia.
        replace (Z.to_nat (c + 1 - 1)) with (Z.to_nat c) in Hv by lia. erewrite take_S_r by done. by rewrite <- app_assoc.
      * by apply suffix_cons_r.
      * intros s. rewrite H6. simpl. rewrite elem_of_cons. split.
        { intros [Hs|Hs]; [destruct (decide (s = c + 1)); [tauto|left; lia]|tauto]. }
        { intros [Hs|[->|Hs]]; [left; lia|left; lia|tauto]. }
    + assert (d = [] /\ c' = c /\ rest = (k, v) :: m) as (-> & -> & ->) by (split_and!; congruence).
      split_and!; try done; try lia; [by rewrite app_nil_r|]. simpl. split; [lia|done].
Qed.

(** ** Acknowledgements *)

Lemma acked_spec ack s : is_u32 (cumulative ack) -> is_u32 s ->
  acked ack s = true ->
  s <= cumulative ack \/ (0 <= s - cumulative ack - 2 < kSelectiveBits
                          /\ Z.testbit (selective ack) (s - cumulative ack - 2) = true).
Proof.
  unfold is_u32, acked. intros Hc Hs. destruct (Z.leb_spec s (cumulative ack)); [by left|].
  rewrite !andb_true_iff. intros [[Hge Hb] Ht]. zbool. right. change kSelectiveBits with 64 in *.
  destruct (decide (cumulative ack + 2 < 2 ^ 32)) as [Hlt|Hge'].
  - rewrite u32_id in Hge by (unfold is_u32; lia). rewrite u32_id in Hb, Ht by (unfold is_u32; lia). split; [lia|done].
  - exfalso. assert (s - cumulative ack - 2 = -1) as He by lia. rewrite He in Hb. by vm_compute in Hb.
Qed.

Lemma testbit_shiftl_1 b i : 0 <= i < 64 -> 0 <= b -> Z.testbit (u64 (Z.shiftl 1 i)) b = (b =? i).
Proof.
  intros Hi Hb. rewrite Z.shiftl_1_l. unfold u64. rewrite Z.mod_small; [by rewrite Z.pow2_bits_eqb, Z.eqb_sym by lia|].
  split; [lia|]. apply Z.pow_lt_mono_r; lia.
Qed.

Lemma is_u64_lor a b : is_u64 a -> is_u64 b -> is_u64 (Z.lor a b).
Proof.
  intros Ha Hb. enough (Z.lor a b = u64 (Z.lor a b)) as -> by apply u64_range.
  unfold u64. rewrite <- Z.land_ones by lia. rewrite Z.land_lor_distr_l, !Z.land_ones by lia.
  unfold is_u64 in *. by rewrite !Z.mod_small.
Qed.

Lemma selective_bits_u64 m c : is_u64 (selective_bits m c).
Proof.
  induction m as [|[k v] m IH]; simpl; [by unfold is_u64|]. destruct (_ <=? _); [by unfold is_u64|].
  apply is_u64_lor; [apply u64_range|done].
Qed.

(** A bit set names a frame that is held. *)
Lemma selective_bits_sound m c b : 0 <= c -> 0 <= b -> ascending (c + 1) m -> Forall (fun e => e.1 < 2 ^ 32) m ->
  Z.testbit (selective_bits m c) b = true -> c + 2 + b ∈ m.*1.
Proof.
  intros Hc Hb. induction m as [|[k v] m IH]; simpl; intros Hasc Hall; [by rewrite Z.bits_0|].
  destruct Hasc as [Hk Hm]. inversion Hall as [|? ? Hk' Hall']; subst. simpl in Hk'.
  rewrite u32_id by (unfold is_u32; lia). destruct (Z.leb_spec kSelectiveBits (k - c - 2)); [by rewrite Z.bits_0|].
  change kSelectiveBits with 64 in *. rewrite Z.lor_spec, testbit_shiftl_1 by lia. rewrite orb_true_iff.
  rewrite elem_of_cons. intros [Heq|Ht]; [zbool; left; lia|right]. apply IH; try done. apply ascending_weaken with k; [lia|done].
Qed.

(** What an acknowledgement acknowledges its sender had received. *)
Definition ack_sound (l : CarrierLane) (ack : LaneAckFields) : Prop :=
  ack_ok ack /\ forall s, is_u32 s -> acked ack s = true -> received l s.

Lemma CurrentAck_sound l : 0 <= rx_cumulative_ l < 2 ^ 32 -> ascending (rx_cumulative_ l + 1) (rx_hold_ l) ->
  Forall (fun e => e.1 < 2 ^ 32) (rx_hold_ l) -> ack_sound l (CurrentAck l).
Proof.
  intros Hc Hasc Hall. split; [split; [done|apply selective_bits_u64]|]. intros s Hs Ha.
  apply acked_spec in Ha as [Hle|[Hr Ht]]; [by left|right|done|done]. cbn [CurrentAck cumulative selective] in *.
  apply selective_bits_sound in Ht; [|lia..|done|done]. by replace (rx_cumulative_ l + 2 + (s - rx_cumulative_ l - 2)) with s in Ht by lia.
Qed.

(** ** Receiving *)

(** A receiver of the frames [given]: what it released is a prefix, what it
    holds are later frames, within the window. *)
Record rx_inv (given : list bytes) (l : CarrierLane) : Prop := {
  rx_cum : 0 <= rx_cumulative_ l <= size given;
  rx_ascending : ascending (rx_cumulative_ l + 1) (rx_hold_ l);
  rx_entries : Forall (entry_of given) (rx_hold_ l);
  rx_near : Forall (fun e => e.1 <= rx_cumulative_ l + window (config_ l)) (rx_hold_ l);
}.

Lemma rx_inv_below given l : size given < 2 ^ 32 -> rx_inv given l -> Forall (fun e => e.1 < 2 ^ 32) (rx_hold_ l).
Proof. intros HN [_ _ He _]. eapply Forall_impl; [exact He|]. intros e [He' _]. lia. Qed.

Lemma OnData_spec given l seq inner l' r :
  size given < 2 ^ 32 - 1 -> rx_inv given l -> entry_of given (seq, inner) -> OnData l seq inner = (l', r) ->
  rx_inv given l' /\ rx_cumulative_ l <= rx_cumulative_ l'
  /\ take (Z.to_nat (rx_cumulative_ l)) given ++ deliver r = take (Z.to_nat (rx_cumulative_ l')) given
  /\ (forall s, received l s -> received l' s) /\ ack_sound l' (rx_ack r)
  /\ (seq - rx_cumulative_ l <= window (config_ l) -> received l' seq)
  /\ config_ l' = config_ l /\ outstanding_ l' = outstanding_ l /\ next_tx_seq_ l' = next_tx_seq_ l.
Proof.
  intros HN [Hc Hasc Hent Hnear] Hentry Ho. unfold OnData in Ho. set (l1 := hold_frame l seq inner) in Ho.
  pose proof (ascending_weaken (rx_cumulative_ l + 1) (rx_cumulative_ l) _ ltac:(lia) Hasc) as Hasc0.
  assert (H1 : ascending (rx_cumulative_ l) (rx_hold_ l1) /\ Forall (entry_of given) (rx_hold_ l1)
               /\ rx_cumulative_ l1 = rx_cumulative_ l /\ (forall s, s ∈ (rx_hold_ l).*1 -> s ∈ (rx_hold_ l1).*1)
               /\ (seq - rx_cumulative_ l <= window (config_ l) -> seq <= rx_cumulative_ l \/ seq ∈ (rx_hold_ l1).*1)
               /\ Forall (fun e => e.1 <= rx_cumulative_ l + window (config_ l)) (rx_hold_ l1)
               /\ config_ l1 = config_ l /\ outstanding_ l1 = outstanding_ l /\ next_tx_seq_ l1 = next_tx_seq_ l).
  { unfold l1, hold_frame. destruct (Z.ltb_spec (rx_cumulative_ l) seq) as [Hlt|]; cbn [andb].
    2:{ split_and!; try done; by left. }
    destruct (contains seq (rx_hold_ l)) eqn:Hcon; cbn [negb andb].
    { apply contains_spec in Hcon. split_and!; try done; by right. }
    destruct (Z.leb_spec (u32 (seq - rx_cumulative_ l)) (window (config_ l))) as [Hsmall|Hbig].
    - cbn. split_and!; try done; [apply emplace_ascending; [done|exact Hasc0]|by apply emplace_Forall| | |].
      + intros s Hs. apply emplace_keys. by right.
      + intros _. right. apply emplace_keys. by left.
      + apply emplace_Forall; [|done]. destruct Hentry as [Hr _]. simpl in *. rewrite u32_id in Hsmall by (unfold is_u32; lia). lia.
    - split_and!; try done. intros Hw. destruct Hentry as [Hr _]. simpl in Hr.
      rewrite u32_id in Hbig by (unfold is_u32; lia). lia. }
  clearbody l1. destruct H1 as (Ha1 & He1 & Hc1 & Hk1 & Hw1 & Hn1 & Hcfg & Hout & Hnext).
  destruct (release (rx_hold_ l1) (rx_cumulative_ l1)) as [[d c'] rest] eqn:Hrel. rewrite Hc1 in Hrel.
  destruct (release_spec given _ _ _ _ _ (proj1 Hc) HN Ha1 He1 (proj2 Hc) Hrel) as (Hc' & Ht & Hasc' & Hent' & Hsuf & Hkeys).
  assert (Hl' : l' = l1 <| rx_cumulative_ := c' |> <| rx_hold_ := rest |>) by congruence.
  assert (Hr : r = MkReceived d (CurrentAck l')) by (rewrite Hl'; congruence). subst r.
  assert (Hinv : rx_inv given l').
  { rewrite Hl'. destruct Hsuf as [pre Hpre]. rewrite Hpre in Hn1. apply Forall_app in Hn1 as [_ Hn1].
    split; cbn; try done; [lia|]. eapply Forall_impl; [exact Hn1|]. intros e He. simpl in He. rewrite Hcfg. lia. }
  assert (Hrec : forall s, s <= rx_cumulative_ l \/ s ∈ (rx_hold_ l1).*1 -> received l' s).
  { intros s Hs. rewrite Hl'. apply Hkeys, Hs. }
  split_and!; [done|rewrite Hl'; cbn; lia|rewrite Hl'; exact Ht| | | |by rewrite Hl'..].
  - intros s [Hs|Hs]; apply Hrec; [by left|right; by apply Hk1].
  - apply CurrentAck_sound; [destruct (rx_cum _ _ Hinv); lia|by apply (rx_ascending given)|]. apply rx_inv_below with given; [lia|done].
  - intros Hw. apply Hrec, Hw1, Hw.
Qed.

(** ** Sending *)

(** What the receiving side's operations leave alone, and the sending side's. *)
Definition rx_side (l : CarrierLane) := (config_ l, rx_cumulative_ l, rx_hold_ l).
Definition tx_queue (l : CarrierLane) := (config_ l, next_tx_seq_ l, outstanding_ l).

(** A frame in flight: the [lo_seq]th given, sent at most [max_attempts] times. *)
Definition frame_of (given : list bytes) (c : CarrierLaneConfig) (o : Outstanding) : Prop :=
  (exists v, entry_of given (lo_seq o, v) /\ wire o = EncodeLaneData (lo_seq o) v)
  /\ 1 <= lo_attempts o <= Z.max 1 (max_attempts c).

Record tx_inv (given : list bytes) (l : CarrierLane) : Prop := {
  tx_next : next_tx_seq_ l = size given + 1;
  tx_frames : Forall (frame_of given (config_ l)) (outstanding_ l);
  tx_window : size (outstanding_ l) <= Z.max 0 (window (config_ l));
}.

Lemma entry_of_snoc given e v : entry_of given e -> entry_of (given ++ [v]) e.
Proof.
  intros [Hr Hl]. split; [rewrite size_app; pose proof (size_nonneg [v]); lia|]. by apply lookup_app_l_Some.
Qed.
Lemma entry_of_last given v : entry_of (given ++ [v]) (size given + 1, v).
Proof.
  split; simpl; [rewrite size_app; change (size [v]) with 1; pose proof (size_nonneg given); lia|].
  replace (Z.to_nat (size given + 1 - 1)) with (length given) by (unfold size; lia). by apply list_lookup_middle.
Qed.
Lemma entry_of_fun given s v v' : entry_of given (s, v) -> entry_of given (s, v') -> v = v'.
Proof. intros [_ H1] [_ H2]. simpl in *. congruence. Qed.

Lemma SampleRtt_same l ms : rx_side (SampleRtt l ms) = rx_side l /\ tx_queue (SampleRtt l ms) = tx_queue l.
Proof. unfold SampleRtt. cbv zeta. by destruct (have_rtt_ l). Qed.

Lemma note_skip_same c h now o :
  lo_seq (note_skip c h now o) = lo_seq o /\ wire (note_skip c h now o) = wire o
  /\ lo_attempts (note_skip c h now o) = lo_attempts o.
Proof. unfold note_skip. destruct (_ <? _); [|done]. cbv zeta. by destruct (_ =? _). Qed.

(** The acknowledgement loop drops the frames acknowledged, and no others. *)
Lemma ack_loop_spec ack h now frames l l' rest :
  ack_loop ack h now frames l = (l', rest) ->
  rx_side l' = rx_side l /\ tx_queue l' = tx_queue l
  /\ rest = map (note_skip (config_ l) h now) (filter (fun o => acked ack (lo_seq o) = false) frames).
Proof.
  revert l l' rest. induction frames as [|o frames IH]; intros l l' rest; simpl; [by intros [= -> ->]|].
  rewrite filter_cons. destruct (acked ack (lo_seq o)) eqn:Ha.
  - intros Hrec. destruct (IH _ _ _ Hrec) as (H1 & H2 & H3). rewrite decide_False by done.
    destruct (SampleRtt_same l (now - sent_ms o)) as [S1 S2]. unfold rx_side, tx_queue in *.
    destruct (_ =? 1); [|done]. assert (config_ (SampleRtt l (now - sent_ms o)) = config_ l) as Hc by congruence.
    rewrite Hc in H3. split_and!; congruence.
  - rewrite decide_True by done. destruct (ack_loop ack h now frames l) as [l1 rest1] eqn:Hrec. intros [= <- <-].
    destruct (IH _ _ _ Hrec) as (H1 & H2 & ->). split_and!; try done. simpl. f_equal. unfold rx_side in H1. congruence.
Qed.

Lemma OnAck_spec given l ack now :
  tx_inv given l ->
  tx_inv given (OnAck l ack now) /\ rx_side (OnAck l ack now) = rx_side l
  /\ (forall s, s ∈ lo_seq <$> outstanding_ l ->
        s ∈ lo_seq <$> outstanding_ (OnAck l ack now) \/ acked ack s = true).
Proof.
  intros [Hn Hf Hw]. unfold OnAck. destruct (ack_loop _ _ _ _ _) as [l1 rest] eqn:Hl.
  apply ack_loop_spec in Hl as (Hrx & Htx & ->). unfold rx_side, tx_queue in *.
  assert (Hc : config_ l1 = config_ l) by congruence. assert (Hnx : next_tx_seq_ l1 = next_tx_seq_ l) by congruence.
  split_and!.
  - split; cbn; rewrite ?Hc, ?Hnx; [done| |].
    + apply Forall_map, Forall_forall. intros o [_ Ho]%list_elem_of_filter. rewrite Forall_forall in Hf.
      destruct (Hf o Ho) as [(v & He & Hv) Ha].
      destruct (note_skip_same (config_ l) (highest_acked ack) now o) as (E1 & E2 & E3). unfold frame_of.
      rewrite E1, E2, E3. split; [by exists v|done].
    + unfold size in *. rewrite length_map.
      pose proof (length_filter (fun o => acked ack (lo_seq o) = false) (outstanding_ l)). lia.
  - cbn. congruence.
  - intros s (o & -> & Ho)%list_elem_of_fmap. destruct (acked ack (lo_seq o)) eqn:Ha; [by right|left]. cbn.
    apply list_elem_of_fmap. exists (note_skip (config_ l) (highest_acked ack) now o).
    destruct (note_skip_same (config_ l) (highest_acked ack) now o) as (E1 & _). split; [done|].
    apply list_elem_of_fmap. exists o. split; [done|]. by apply list_elem_of_filter.
Qed.

Lemma resend_frame_spec given l now o :
  frame_of given (config_ l) o ->
  let r := resend_frame l now o in
  frame_of given (config_ l) r.1.1 /\ lo_seq r.1.1 = lo_seq o /\ wire r.1.1 = wire o
  /\ (forall w, r.2 = Some w -> w = wire o).
Proof.
  intros [Hv Ha]. unfold resend_frame. destruct (_ <? _); [by split_and!|].
  destruct (Z.leb_spec (max_attempts (config_ l)) (lo_attempts o)); [by split_and!|]. cbv zeta. cbn.
  split_and!; try done; [split; [exact Hv|cbn; lia]|by intros w [= <-]].
Qed.

Lemma DueResends_spec given l now : tx_inv given l ->
  tx_inv given (DueResends l now).1 /\ rx_side (DueResends l now).1 = rx_side l
  /\ (lo_seq <$> outstanding_ (DueResends l now).1) = (lo_seq <$> outstanding_ l)
  /\ Forall (fun w => exists s v, entry_of given (s, v) /\ w = EncodeLaneData s v) (DueResends l now).2.
Proof.
  intros [Hn Hf Hw]. unfold DueResends. cbv zeta. cbn [fst snd]. split_and!; [split; cbn; [done| |]|done| |].
  - rewrite map_map. apply Forall_map. eapply Forall_impl; [exact Hf|]. intros o Ho. by apply resend_frame_spec.
  - unfold size in *. by rewrite !length_map.
  - cbn. rewrite map_map, <- list_fmap_compose. apply list_fmap_ext. intros i o Hi.
    rewrite Forall_lookup in Hf. by apply (resend_frame_spec given l now o (Hf _ _ Hi)).
  - apply Forall_forall. intros w Hw'. apply list_elem_of_omap in Hw' as (r & Hr & Hr2).
    apply list_elem_of_In, in_map_iff in Hr as (o & <- & Ho%list_elem_of_In). rewrite Forall_forall in Hf. specialize (Hf o Ho).
    destruct (resend_frame_spec given l now o Hf) as (_ & _ & _ & Hwire). rewrite (Hwire w Hr2).
    destruct Hf as [(v & He & ->) _]. by exists (lo_seq o), v.
Qed.

Lemma Wrap_spec given l inner now : tx_inv given l -> size given < 2 ^ 32 - 2 ->
  match Wrap l inner now with
  | (l', None) => l' = l /\ Credits l = 0
  | (l', Some w) => tx_inv (given ++ [inner]) l' /\ w = EncodeLaneData (size given + 1) inner /\ rx_side l' = rx_side l
      /\ 0 < Credits l /\ (lo_seq <$> outstanding_ l') = (lo_seq <$> outstanding_ l) ++ [size given + 1]
  end.
Proof.
  intros [Hn Hf Hw] HN. unfold Wrap, Credits. destruct (Z.leb_spec (window (config_ l)) (size (outstanding_ l))); [done|].
  pose proof (size_nonneg given) as Hg. split_and!; [split; cbn| |done|lia|].
  - rewrite Hn, size_app. change (size [inner]) with 1. rewrite u32_id by (unfold is_u32; lia). lia.
  - apply Forall_app. split.
    + eapply Forall_impl; [exact Hf|]. intros o [(v & He & Hv) Ha]. split; [|done]. exists v. split; [by apply entry_of_snoc|done].
    + constructor; [|constructor]. split; cbn; [|lia]. exists inner. rewrite Hn. split; [apply entry_of_last|done].
  - rewrite size_app. change (size [_]) with 1. lia.
  - cbn. by rewrite Hn.
  - cbn. rewrite fmap_app. cbn. by rewrite Hn.
Qed.

Lemma ascending_size lo hi m : ascending lo m -> Forall (fun e => e.1 <= hi) m -> size m <= Z.max 0 (hi - lo).
Proof.
  revert lo. induction m as [|[k v] m IH]; intros lo; simpl; intros Hasc Hall; [unfold size; simpl; lia|].
  destruct Hasc as [Hk Hm]. inversion Hall as [|? ? Hk' Hall']; subst. simpl in Hk'. specialize (IH k Hm Hall').
  rewrite size_cons. lia.
Qed.

(** ** Two lanes and the network between them

    Frames and acknowledgements once on the network may arrive any number of
    times, in any order, or never. *)

Record LaneNet := MkLaneNet {
  n_tx : CarrierLane;
  n_rx : CarrierLane;
  given : list bytes;      (* frames taken by [Wrap] *)
  n_data : list bytes;     (* lane data on the network *)
  n_acks : list bytes;     (* lane acknowledgements on the network *)
  got : list bytes;        (* frames delivered *)
}.

(** The numbers of the packets sealed inside run out before the lane's do. *)
Inductive net_step : LaneNet -> LaneNet -> Prop :=
  | net_wrap tx rx g data acks d v now tx' w :
      v <> [] -> size g < 2 ^ 32 - 2 -> Wrap tx v now = (tx', Some w) ->
      net_step (MkLaneNet tx rx g data acks d) (MkLaneNet tx' rx (g ++ [v]) (data ++ [w]) acks d)
  | net_resend tx rx g data acks d now tx' ws :
      DueResends tx now = (tx', ws) ->
      net_step (MkLaneNet tx rx g data acks d) (MkLaneNet tx' rx g (data ++ ws) acks d)
  | net_data tx rx g data acks d w seq inner rx' r :
      w ∈ data -> DecodeLaneData w = Ok (seq, inner) -> OnData rx seq inner = (rx', r) ->
      net_step (MkLaneNet tx rx g data acks d)
        (MkLaneNet tx rx' g data (acks ++ [EncodeLaneAck (rx_ack r)]) (d ++ deliver r))
  | net_ack tx rx g data acks d w ack now :
      w ∈ acks -> DecodeLaneAck w = Ok ack ->
      net_step (MkLaneNet tx rx g data acks d) (MkLaneNet (OnAck tx ack now) rx g data acks d)
  | net_probe tx rx g data acks d :
      net_step (MkLaneNet tx rx g data acks d) (MkLaneNet tx rx g data (acks ++ [EncodeLaneAck LaneAckFields_default]) d).

Definition net_start (c c' : CarrierLaneConfig) : LaneNet :=
  MkLaneNet (CarrierLane_new c) (CarrierLane_new c') [] [] [] [].

Record net_inv (c c' : CarrierLaneConfig) (n : LaneNet) : Prop := {
  ni_config : config_ (n_tx n) = c /\ config_ (n_rx n) = c';
  ni_size : size (given n) < 2 ^ 32 - 1;
  ni_nonempty : Forall (fun v => v <> []) (given n);
  ni_tx : tx_inv (given n) (n_tx n);
  ni_rx : rx_inv (given n) (n_rx n);
  ni_data : Forall (fun w => exists s v, entry_of (given n) (s, v) /\ w = EncodeLaneData s v) (n_data n);
  ni_acks : Forall (fun w => exists ack, ack_sound (n_rx n) ack /\ w = EncodeLaneAck ack) (n_acks n);
  ni_got : got n = take (Z.to_nat (rx_cumulative_ (n_rx n))) (given n);
  ni_kept : forall s, 1 <= s <= size (given n) ->
    s ∈ lo_seq <$> outstanding_ (n_tx n) \/ received (n_rx n) s;
}.

Lemma rx_inv_snoc given l v : rx_inv given l -> rx_inv (given ++ [v]) l.
Proof.
  intros [Hc Ha He Hn]. split; try done; [rewrite size_app; change (size [v]) with 1; lia|].
  eapply Forall_impl; [exact He|]. intros e. apply entry_of_snoc.
Qed.

Lemma entry_nonempty given s v : Forall (fun v => v <> []) given -> entry_of given (s, v) -> v <> [].
Proof. intros Hne [_ Hl]. rewrite Forall_lookup in Hne. by apply (Hne _ _ Hl). Qed.

(** Lane data on the network decodes to the frame it is. *)
Lemma net_data_decodes n c c' w seq inner : net_inv c c' n -> w ∈ n_data n -> DecodeLaneData w = Ok (seq, inner) ->
  entry_of (given n) (seq, inner).
Proof.
  intros Hi Hw Hd. pose proof (ni_data _ _ _ Hi) as Hall. rewrite Forall_forall in Hall.
  destruct (Hall w Hw) as (s & v & He & ->). pose proof (ni_size _ _ _ Hi) as HN.
  rewrite DecodeLaneData_app in Hd; [by apply Ok_inj in Hd as [= <- <-]| | |].
  - destruct He as [Hr _]. simpl in Hr. unfold is_u32. lia.
  - destruct He as [Hr _]. simpl in Hr. lia.
  - by apply (entry_nonempty (given n) s); [apply (ni_nonempty _ _ _ Hi)|].
Qed.

Ltac net_cbn := cbn [n_tx n_rx given n_data n_acks got] in *.

Lemma net_step_inv c c' n n' : net_inv c c' n -> net_step n n' -> net_inv c c' n'.
Proof.
  intros Hi Hstep. pose proof Hi as [[Hc Hc'] HN Hne Htx Hrx Hdata Hacks Hgot Hkept].
  destruct Hstep as [tx rx g data acks d v now tx' w Hv Hsz Hw|tx rx g data acks d now tx' ws Hw
    |tx rx g data acks d w seq inner rx' r Hw Hd Ho|tx rx g data acks d w ack now Hw Hd|tx rx g data acks d]; net_cbn.
  - pose proof (Wrap_spec _ _ v now Htx Hsz) as Hs. rewrite Hw in Hs. destruct Hs as (Htx' & -> & Hside & _ & Hseqs).
    split; net_cbn; try done.
    + unfold rx_side in Hside. split; congruence.
    + rewrite size_app. change (size [v]) with 1. lia.
    + by apply Forall_app_2; [|constructor].
    + by apply rx_inv_snoc.
    + apply Forall_app_2; [|constructor; [|constructor]].
      * eapply Forall_impl; [exact Hdata|]. intros w (s & u & He & ->). exists s, u. split; [by apply entry_of_snoc|done].
      * exists (size g + 1), v. split; [apply entry_of_last|done].
    + rewrite take_app_le; [done|]. destruct (rx_cum _ _ Hrx) as [_ Hle]. unfold size in Hle. lia.
    + intros s Hs. rewrite size_app in Hs. change (size [v]) with 1 in Hs. rewrite Hseqs.
      destruct (decide (s = size g + 1)) as [->|]; [left; set_solver|].
      destruct (Hkept s ltac:(lia)); [left; set_solver|by right].
  - destruct (DueResends_spec _ _ now Htx) as (Htx' & Hside & Hseqs & Hws). rewrite Hw in *. net_cbn. cbn [fst snd] in *.
    split; net_cbn; try done.
    + unfold rx_side in Hside. split; congruence.
    + by apply Forall_app_2.
    + intros s Hs. rewrite Hseqs. by apply Hkept.
  - pose proof (net_data_decodes _ _ _ _ _ _ Hi Hw Hd) as He. net_cbn.
    destruct (OnData_spec _ _ _ _ _ _ HN Hrx He Ho) as (Hrx' & Hmono & Htake & Hrec & Hsound & _ & Hcfg & _).
    split; net_cbn; try done.
    + split; congruence.
    + apply Forall_app_2; [|constructor; [by eexists|constructor]]. eapply Forall_impl; [exact Hacks|].
      intros a (ack & [Hok Hack] & ->). exists ack. split; [split; [done|]|done]. intros s Hs Ha. by apply Hrec, Hack.
    + by rewrite Hgot, Htake.
    + intros s Hs. destruct (Hkept s Hs); [by left|right; by apply Hrec].
  - pose proof Hacks as Hall. rewrite Forall_forall in Hall. destruct (Hall w Hw) as (ack0 & [Hok Hack] & ->).
    rewrite <- (app_nil_r (EncodeLaneAck ack0)), DecodeLaneAck_app in Hd by done. apply Ok_inj in Hd as <-.
    destruct (OnAck_spec _ _ ack0 now Htx) as (Htx' & Hside & Hdrop). split; net_cbn; try done.
    + unfold rx_side in Hside. split; congruence.
    + intros s Hs. destruct (Hkept s Hs) as [Hin|]; [|by right].
      destruct (Hdrop s Hin); [by left|right]. apply Hack; [unfold is_u32; lia|done].
  - split; net_cbn; try done. apply Forall_app_2; [done|]. constructor; [|constructor]. exists LaneAckFields_default.
    split; [|done]. split; [by split|]. intros s Hs Ha.
    apply acked_spec in Ha as [Hle|[_ Ht]]; [|by rewrite Z.bits_0 in Ht|done..].
    left. simpl in Hle. destruct (rx_cum _ _ Hrx). lia.
Qed.

Lemma net_reach_inv c c' n : rtc net_step (net_start c c') n -> net_inv c c' n.
Proof.
  assert (H0 : net_inv c c' (net_start c c')).
  { split; net_cbn; try done; [split; try done; change (0 <= Z.max 0 (window c)); lia|].
    intros s Hs. unfold net_start in Hs. net_cbn. rewrite size_nil in Hs. lia. }
  revert H0. generalize (net_start c c'). intros n0 H0 Hrtc. induction Hrtc as [|n0 n1 n2 Hs _ IH]; [done|].
  apply IH. by apply (net_step_inv _ _ _ _ H0).
Qed.

Lemma drained_received c c' n : net_inv c c' n -> outstanding_ (n_tx n) = [] -> got n = given n.
Proof.
  intros Hi Hout. rewrite (ni_got _ _ _ Hi). apply take_ge.
  destruct (rx_cum _ _ (ni_rx _ _ _ Hi)) as [H0 Hle]. unfold size in Hle.
  destruct (decide (rx_cumulative_ (n_rx n) = size (given n))) as [->|Hne]; [unfold size; lia|]. exfalso. unfold size in Hne.
  destruct (ni_kept _ _ _ Hi (rx_cumulative_ (n_rx n) + 1) ltac:(unfold size; lia)) as [Hin|[Hr|Hr]];
    [rewrite Hout in Hin; set_solver|lia|].
  apply (ascending_lower _ _ _ (rx_ascending _ _ (ni_rx _ _ _ Hi))) in Hr. lia.
Qed.

(** C13: the carrier lane delivers frames in order, once, whatever the carrier
    loses, repeats or reorders: what is delivered is at any time a prefix of
    the frames given, and once nothing is in flight it is all of them.  Both
    windows bound what is kept, and no frame in flight has been sent more than
    [max_attempts] times. *)
Theorem lane_delivers_in_order (c c' : CarrierLaneConfig) (n : LaneNet) (Hrun : rtc net_step (net_start c c') n) :
  got n `prefix_of` given n
  /\ (outstanding_ (n_tx n) = [] -> got n = given n)
  /\ size (outstanding_ (n_tx n)) <= Z.max 0 (window c)
  /\ size (rx_hold_ (n_rx n)) <= Z.max 0 (window c' - 1)
  /\ Forall (fun o => lo_attempts o <= Z.max 1 (max_attempts c)) (outstanding_ (n_tx n)).
Proof.
  pose proof (net_reach_inv _ _ _ Hrun) as Hi. destruct (ni_config _ _ _ Hi) as [Hc Hc']. split_and!.
  - rewrite (ni_got _ _ _ Hi). eexists. symmetry. apply take_drop.
  - by apply (drained_received c c').
  - rewrite <- Hc. apply (tx_window _ _ (ni_tx _ _ _ Hi)).
  - destruct (ni_rx _ _ _ Hi) as [_ Ha _ Hn]. pose proof (ascending_size _ _ _ Ha Hn) as Hs. rewrite Hc' in Hs. lia.
  - rewrite <- Hc. eapply Forall_impl; [apply (tx_frames _ _ (ni_tx _ _ _ Hi))|]. intros o [_ Ho]. lia.
Qed.

(** The first frame missing is in flight at the sender, so it is sent again
    when it is due; and whenever it arrives it is delivered. *)
Lemma missing_frame c c' n : net_inv c c' n -> got n <> given n ->
  let s := rx_cumulative_ (n_rx n) + 1 in
  s ∈ lo_seq <$> outstanding_ (n_tx n) /\ exists v, entry_of (given n) (s, v).
Proof.
  intros Hi Hne. cbv zeta. destruct (rx_cum _ _ (ni_rx _ _ _ Hi)) as [H0 Hle].
  assert (Hlt : rx_cumulative_ (n_rx n) < size (given n)).
  { destruct (decide (rx_cumulative_ (n_rx n) = size (given n))) as [He|]; [|lia]. exfalso. apply Hne.
    rewrite (ni_got _ _ _ Hi), He. apply take_ge. unfold size. lia. }
  split.
  - destruct (ni_kept _ _ _ Hi (rx_cumulative_ (n_rx n) + 1) ltac:(lia)) as [Hin|[Hr|Hr]]; [done|lia|].
    apply (ascending_lower _ _ _ (rx_ascending _ _ (ni_rx _ _ _ Hi))) in Hr. lia.
  - destruct (lookup_lt_is_Some_2 (given n) (Z.to_nat (rx_cumulative_ (n_rx n)))) as [v Hv]; [unfold size in Hlt; lia|].
    exists v. split; cbn [fst snd]; [lia|]. by replace (Z.to_nat (rx_cumulative_ (n_rx n) + 1 - 1)) with (Z.to_nat (rx_cumulative_ (n_rx n))) by lia.
Qed.

(** C38: the lane makes progress.  While something given is undelivered, the
    first such frame is in flight at the sender; when its time has come and it
    has attempts left, [DueResends] sends it; and when a receiver with a window
    gets it, delivery goes on at least to it. *)
Theorem lane_progress (c c' : CarrierLaneConfig) (n : LaneNet) (Hrun : rtc net_step (net_start c c') n)
    (Hmissing : got n <> given n) (Hwindow : 0 < window c') :
  exists o v, o ∈ outstanding_ (n_tx n) /\ lo_seq o = size (got n) + 1 /\ wire o = EncodeLaneData (lo_seq o) v
    /\ (forall now, next_resend_ms o <= now -> lo_attempts o < max_attempts c ->
          wire o ∈ (DueResends (n_tx n) now).2)
    /\ DecodeLaneData (wire o) = Ok (lo_seq o, v)
    /\ (got n ++ [v]) `prefix_of` got n ++ deliver (OnData (n_rx n) (lo_seq o) v).2.
Proof.
  pose proof (net_reach_inv _ _ _ Hrun) as Hi. destruct (ni_config _ _ _ Hi) as [Hc Hc'].
  destruct (missing_frame _ _ _ Hi Hmissing) as [Hin [v He]]. destruct (rx_cum _ _ (ni_rx _ _ _ Hi)) as [H0 Hle].
  assert (Hgot : size (got n) = rx_cumulative_ (n_rx n)).
  { rewrite (ni_got _ _ _ Hi). unfold size in *. rewrite length_take. lia. }
  apply list_elem_of_fmap in Hin as (o & Hseq & Ho). exists o, v.
  pose proof (tx_frames _ _ (ni_tx _ _ _ Hi)) as Hf. rewrite Forall_forall in Hf.
  destruct (Hf o Ho) as [(v' & He' & Hw) Ha]. rewrite <- Hseq in He'. rewrite (entry_of_fun _ _ _ _ He' He) in Hw. clear v' He'.
  pose proof (ni_size _ _ _ Hi) as HN. split_and!; [done|lia|done| | |].
  - intros now Hdue Hatt. unfold DueResends. cbn [fst snd]. apply list_elem_of_omap.
    exists (resend_frame (n_tx n) now o). split; [apply list_elem_of_fmap; by exists o|]. unfold resend_frame.
    rewrite (proj2 (Z.ltb_ge _ _)) by lia. rewrite Hc, (proj2 (Z.leb_gt _ _)) by lia. done.
  - rewrite Hw, <- Hseq. apply DecodeLaneData_app; [unfold is_u32; lia|lia|].
    by apply (entry_nonempty (given n) (rx_cumulative_ (n_rx n) + 1)); [apply (ni_nonempty _ _ _ Hi)|].
  - destruct (OnData (n_rx n) (lo_seq o) v) as [l r] eqn:Hod. rewrite <- Hseq in Hod.
    destruct (OnData_spec _ _ _ _ _ _ HN (ni_rx _ _ _ Hi) He Hod) as (Hrx' & Hmono & Htake & _ & _ & Hrec & Hcfg & _).
    specialize (Hrec ltac:(rewrite Hc'; lia)). cbn [snd]. rewrite (ni_got _ _ _ Hi), Htake.
    assert (Hge : rx_cumulative_ (n_rx n) + 1 <= rx_cumulative_ l).
    { destruct Hrec as [?|Hr]; [done|]. apply (ascending_lower _ _ _ (rx_ascending _ _ Hrx')) in Hr. lia. }
    destruct He as [_ Hv]. cbn [fst snd] in Hv. rewrite <- take_S_r with (x := v) by (rewrite <- Hv; f_equal; lia).
    exists (drop (S (Z.to_nat (rx_cumulative_ (n_rx n)))) (take (Z.to_nat (rx_cumulative_ l)) (given n))).
    rewrite <- (take_drop (S (Z.to_nat (rx_cumulative_ (n_rx n)))) (take _ _)) at 1. by rewrite take_take, Nat.min_l by lia.
Qed.

(** ** Timeouts *)

Lemma double_rto_bounds n max rto : 0 <= rto -> rto <= double_rto n max rto.
Proof.
  revert rto. induction n as [|n IH]; intros rto Hr; simpl; [lia|]. destruct (_ <? _); [|lia]. specialize (IH (rto * 2) ltac:(lia)). lia.
Qed.

Lemma SampleRtt_rto l sample : exists x,
  rto_ms_ (SampleRtt l sample) = Z.max (min_rto_ms (config_ l)) (Z.min x (max_rto_ms (config_ l))).
Proof. unfold SampleRtt. cbv zeta. destruct (have_rtt_ l); eexists; reflexivity. Qed.

(** The retransmit timeout stays within its bounds.  After any sample it
    lies between the configured minimum and maximum; and the backed-off timeout
    of a frame is at least the current one and at most the maximum, which it
    reaches after enough attempts. *)
Theorem lane_rto_bounds (l : CarrierLane) (sample attempts : Z)
    (Hcfg : 0 < min_rto_ms (config_ l) <= max_rto_ms (config_ l)) (Hrto : 0 < rto_ms_ l <= max_rto_ms (config_ l)) :
  min_rto_ms (config_ l) <= rto_ms_ (SampleRtt l sample) <= max_rto_ms (config_ l)
  /\ rto_ms_ l <= BackoffRto l attempts <= max_rto_ms (config_ l)
  /\ (max_rto_ms (config_ l) < 2 ^ (attempts - 1) -> BackoffRto l attempts = max_rto_ms (config_ l)).
Proof.
  destruct (SampleRtt_rto l sample) as [x Hx]. split_and!; [rewrite Hx; lia|rewrite Hx; lia| | |].
  - unfold BackoffRto. pose proof (double_rto_bounds (Z.to_nat (attempts - 1)) (max_rto_ms (config_ l)) (rto_ms_ l)). lia.
  - unfold BackoffRto. lia.
  - intros Hbig. unfold BackoffRto. destruct (Z.neg_nonneg_cases (attempts - 1)) as [Hneg|Hpos].
    { rewrite Z.pow_neg_r in Hbig by lia. lia. }
    apply Z.min_r. enough (Hgen : forall n rto, 0 < rto -> max_rto_ms (config_ l) < rto * 2 ^ Z.of_nat n ->
      max_rto_ms (config_ l) <= double_rto n (max_rto_ms (config_ l)) rto).
    { apply Hgen; [lia|]. rewrite Z2Nat.id by lia. nia. }
    clear. induction n as [|n IH]; intros rto Hr Hb; [simpl in *; lia|]. simpl double_rto.
    destruct (Z.ltb_spec rto (max_rto_ms (config_ l))); [|lia]. apply IH; [lia|].
    rewrite Nat2Z.inj_succ, Z.pow_succ_r in Hb by lia. lia.
Qed.

(** ** Witnesses *)

Section Witness.

Definition lane_config : CarrierLaneConfig := CarrierLaneConfig_default.
Definition lane_sent (vs : list bytes) : CarrierLane :=
  fold_left (fun l v => (Wrap l v 100).1) vs (CarrierLane_new lane_config).
Definition lane_wire (s : Z) (v : bytes) : bytes := EncodeLaneData s v.

(** Two frames given; the second arrives, the first is lost. *)
Definition lane_example : LaneNet :=
  let rx := OnData (CarrierLane_new lane_config) 2 [8] in
  MkLaneNet (OnAck (lane_sent [[7]; [8]]) (rx_ack rx.2) 160) rx.1 [[7]; [8]]
    [lane_wire 1 [7]; lane_wire 2 [8]] [EncodeLaneAck (rx_ack rx.2)] [].

Lemma lane_example_reached : rtc net_step (net_start lane_config lane_config) lane_example.
Proof.
  eapply rtc_l; [eapply (net_wrap _ _ [] [] [] [] [7] 100); [done|done|reflexivity]|].
  eapply rtc_l; [eapply (net_wrap _ _ [[7]] _ [] [] [8] 100); [done|done|reflexivity]|].
  eapply rtc_l; [eapply (net_data _ _ _ _ _ _ (lane_wire 2 [8]) 2 [8]); [set_solver|reflexivity|reflexivity]|].
  eapply rtc_l; [eapply (net_ack _ _ _ _ _ _ _ _ 160); [by apply list_elem_of_singleton|vm_compute; reflexivity]|].
  apply rtc_refl.
Qed.

Theorem lane_delivers_in_order_witness :
  got lane_example `prefix_of` given lane_example /\ size (outstanding_ (n_tx lane_example)) <= 256.
Proof.
  destruct (lane_delivers_in_order lane_config lane_config lane_example lane_example_reached) as (Hp & _ & Hw & _).
  split; [exact Hp|exact Hw].
Defined.

Theorem lane_progress_witness :
  exists o v, o ∈ outstanding_ (n_tx lane_example) /\ lo_seq o = 1 /\ wire o = EncodeLaneData (lo_seq o) v.
Proof.
  destruct (lane_progress lane_config lane_config lane_example lane_example_reached ltac:(done) ltac:(done))
    as (o & v & Hin & Hs & Hw & _). exists o, v. split; [exact Hin|]. split; [exact Hs|exact Hw].
Defined.

Theorem lane_rto_bounds_witness :
  200 <= rto_ms_ (SampleRtt (CarrierLane_new lane_config) 40) <= 3000
  /\ BackoffRto (CarrierLane_new lane_config) 13 = 3000.
Proof.
  destruct (lane_rto_bounds (CarrierLane_new lane_config) 40 13) as (H1 & _ & H3); [done|done|].
  split; [exact H1|]. apply H3. done.
Defined.

End Witness.
