(* ===== verification/MshAdpHandshake.v ===== *)
(** * One-sided handshake driver (src/link/MshAdpHandshake.cpp, include/amp/link/MshAdpHandshake.h)

    The handshake as each end runs it over a link: messages come in one at a
    time, answers go to the function [send_], the outcome to [on_complete_].
    [Wires] is the state behind [send_]; calls of [on_complete_] are recorded in
    [completed_].  A message type cast from a byte of the wire may hold any value
    and is that byte.  Randomness drawn in a call is an argument of it. *)

From S2P Require Import Prelude L1Types L2Types SessionKeys MshMessages MshHandshake AmpAdpCarrier.

Inductive Role := Initiator | Responder.
#[export] Instance Role_eq_dec : EqDecision Role.
Proof. solve_decision. Defined.

Record MshAdpEstablished := MkMshAdpEstablished {
  local_material : SessionMaterial;
  adp_master_ikm : bytes;
  adp_transcript_hash : bytes;
  remote_identity_public_key : bytes;
}.

(** [send_]: what it takes and what it returns. *)
Class SendWire (W : Type) := { send_ : W -> bytes -> W * Roe unit }.

(** The randomness of one call: a key pair, a nonce, an encapsulation. *)
Record Draw := MkDraw {
  d_kem : bytes;
  d_nonce : bytes;
  d_encap : bytes;
}.

Record MshAdpHandshake (W : Type) := MkMshAdpHandshake {
  role_ : Role;
  identity_ : MshIdentity;
  chunked_wire_ : bool;
  complete_ : bool;
  started_ : bool;
  local_kem_ : option KemState;
  remote_hello_ : option MshHello;
  remote_payload_ : option MshPayload;
  transcript_ : list bytes;
  client_ss_ : bytes;
  master_ikm_ : bytes;
  last_wire_ : bytes;
  last_type_ : Z;
  last_body_ : bytes;
  answered_type_ : option Z;
  answered_body_ : bytes;
  wires_ : W;
  completed_ : list (Roe MshAdpEstablished);
}.
Arguments MkMshAdpHandshake {W}.
Arguments role_ {W}. Arguments identity_ {W}. Arguments chunked_wire_ {W}. Arguments complete_ {W}.
Arguments started_ {W}. Arguments local_kem_ {W}. Arguments remote_hello_ {W}. Arguments remote_payload_ {W}.
Arguments transcript_ {W}. Arguments client_ss_ {W}. Arguments master_ikm_ {W}. Arguments last_wire_ {W}.
Arguments last_type_ {W}. Arguments last_body_ {W}. Arguments answered_type_ {W}. Arguments answered_body_ {W}.
Arguments wires_ {W}. Arguments completed_ {W}.
#[export] Instance MshAdpHandshake_fields W : Fields (MshAdpHandshake W) := fun h =>
  MkMshAdpHandshake (role_ h) (identity_ h) (chunked_wire_ h) (complete_ h) (started_ h) (local_kem_ h)
    (remote_hello_ h) (remote_payload_ h) (transcript_ h) (client_ss_ h) (master_ikm_ h) (last_wire_ h)
    (last_type_ h) (last_body_ h) (answered_type_ h) (answered_body_ h) (wires_ h) (completed_ h).

Definition MshAdpHandshake_new {W} (role : Role) (identity : MshIdentity) (wires : W) (chunked_wire : bool)
    : MshAdpHandshake W :=
  MkMshAdpHandshake role identity chunked_wire false false None None None [] [] [] [] 0 [] None [] wires [].

Section MshAdpHandshake.
Context `{Sodium} `{Kdf} `{MlKem} `{MlDsa} {W : Type} `{SendWire W}.
Abbreviation Hs := (MshAdpHandshake W).

Definition AdpCombineMasterIkm (client_ss server_ss : bytes) : Roe bytes :=
  if bad_size client_ss kMlKem768SharedSecretBytes || bad_size server_ss kMlKem768SharedSecretBytes
  then Fail (Err_ "amp msh adp: bad kem shared secret size")
  else Ok (client_ss ++ server_ss).

Definition AdpVerifyPayload (payload : MshPayload) : Roe unit :=
  sign_msg ← BuildIdentitySignMessage (static_kem_public_key payload);
  verified ← DsaVerify (identity_public_key payload) sign_msg (identity_signature payload);
  if negb verified then Fail (Err_ "amp msh adp: identity signature invalid") else Ok tt.

(** The payload and [shared_secret_out]. *)
Definition BuildLocalPayload (h : Hs) (kem : KemState) (remote_kem_pk r : bytes) : Roe (MshPayload * bytes) :=
  if bad_size (ml_dsa_public_key (identity_ h)) kMlDsa65PublicKeyBytes
     || bad_size (ml_dsa_secret_key (identity_ h)) kMlDsa65SecretKeyBytes
  then Fail (Err_ "amp msh adp: bad identity key sizes")
  else
    '(ct, ss) ← Encapsulate remote_kem_pk r;
    sign_msg ← BuildIdentitySignMessage (ephemeral_public kem);
    sig ← Sign (ml_dsa_secret_key (identity_ h)) sign_msg;
    Ok (MkMshPayload ct (ml_dsa_public_key (identity_ h)) (ephemeral_public kem) sig, ss).

(** ** Sending *)

Definition SendOne (h : Hs) (wire : bytes) : Hs * Roe unit :=
  let '(w, sent) := send_ (wires_ h) wire in (h <| wires_ := w |>, sent).

(** The chunks in turn, up to the first that is not sent. *)
Fixpoint SendChunks (h : Hs) (chunks : list bytes) : Hs * Roe unit :=
  match chunks with
  | [] => (h, Ok tt)
  | chunk :: chunks =>
      let '(h, sent) := SendOne h chunk in
      match sent with
      | Fail e => (h, Fail e)
      | Ok _ => SendChunks h chunks
      end
  end.

Definition SendMessage (h : Hs) (type : MshMessageType) (body : bytes) : Hs * Roe unit :=
  if negb (chunked_wire_ h) then
    match EncodeMsh (msh_type_to_Z type) body with
    | Fail e => (h, Fail e)
    | Ok wire =>
        let h := h <| last_wire_ := wire |> <| last_type_ := msh_type_to_Z type |> <| last_body_ := body |> in
        SendOne h wire
    end
  else
    match EncodeMshChunked (msh_type_to_Z type) body with
    | Fail e => (h, Fail e)
    | Ok chunks => SendChunks h chunks
    end.

Definition LastChunks (h : Hs) : Roe (list bytes) :=
  if bool_decide (last_wire_ h = []) then Fail (Err_ "amp msh adp: nothing to resend")
  else EncodeMshChunked (last_type_ h) (last_body_ h).

Definition Resend (h : Hs) : Hs * Roe unit :=
  match LastChunks h with
  | Fail e => (h, Fail e)
  | Ok chunks => SendChunks h chunks
  end.

Definition IsRepeatOfLastAnswered (h : Hs) (type : Z) (body : bytes) : bool :=
  bool_decide (answered_type_ h = Some type) && bool_decide (body = answered_body_ h).

(** ** Outcome *)

Definition FailHandshake (h : Hs) (message : string) : Hs * Roe unit :=
  let h := h <| completed_ ::= fun l => l ++ [Fail (Err_ message)] |> in
  (h <| complete_ := true |>, Fail (Err_ message)).

(** [if (!x) return Fail(x.error().message);] *)
Definition or_fail {A} (h : Hs) (x : Roe A) (k : A -> Hs * Roe unit) : Hs * Roe unit :=
  match x with
  | Fail e => FailHandshake h (error_message e)
  | Ok a => k a
  end.

Definition MaybeComplete (h : Hs) : Hs * Roe unit :=
  if complete_ h || bool_decide (master_ikm_ h = []) || (length (transcript_ h) <? 6)%nat then (h, Ok tt)
  else
    or_fail h (TranscriptHash (transcript_ h)) (fun transcript_hash =>
    or_fail h (Derive (master_ikm_ h) transcript_hash (bool_decide (role_ h = Initiator)) 1) (fun material =>
      let remote := match remote_payload_ h with Some p => identity_public_key p | None => [] end in
      let established := MkMshAdpEstablished material (master_ikm_ h) transcript_hash remote in
      (h <| complete_ := true |> <| completed_ ::= fun l => l ++ [Ok established] |>, Ok tt))).

(** ** Starting *)

Definition Start (h : Hs) (r : Draw) : Hs * Roe unit :=
  if bool_decide (role_ h <> Initiator) then (h, Fail (Err_ "amp msh adp: start on non-initiator"))
  else if started_ h then (h, Fail (Err_ "amp msh adp: already started"))
  else
    let h := h <| started_ := true |> in
    or_fail h (NewEphemeralKem (d_kem r)) (fun kem =>
      let h := h <| local_kem_ := Some kem |> in
      or_fail h (EncodeHelloOf ClientHello kem (d_nonce r)) (fun hello =>
        let h := h <| transcript_ ::= fun t => AppendPart t hello |> in
        SendMessage h ClientHello hello)).

(** ** The responder's messages *)

Definition OnClientHello (h : Hs) (body : bytes) (r : Draw) : Hs * Roe unit :=
  if started_ h then (h, Fail (Err_ "amp msh adp: duplicate client hello"))
  else
    let h := h <| started_ := true |> in
    or_fail h (DecodeHello ClientHello body) (fun parsed =>
      let h := h <| remote_hello_ := Some parsed |> <| transcript_ ::= fun t => AppendPart t body |> in
      or_fail h (NewEphemeralKem (d_kem r)) (fun kem =>
        let h := h <| local_kem_ := Some kem |> in
        or_fail h (EncodeHelloOf ServerHello kem (d_nonce r)) (fun server_hello =>
          let h := h <| transcript_ ::= fun t => AppendPart t server_hello |> in
          SendMessage h ServerHello server_hello))).

Definition OnClientPayload (h : Hs) (body : bytes) (r : Draw) : Hs * Roe unit :=
  match remote_hello_ h, local_kem_ h with
  | Some remote_hello, Some local_kem =>
      or_fail h (DecodePayload ClientPayload body) (fun parsed =>
      or_fail h (AdpVerifyPayload parsed) (fun _ =>
      if bool_decide (static_kem_public_key parsed <> kem_public_key remote_hello)
      then FailHandshake h "amp msh adp: client payload kem key does not match client hello"
      else
        let h := h <| remote_payload_ := Some parsed |> <| transcript_ ::= fun t => AppendPart t body |> in
        or_fail h (Decapsulate (ephemeral_secret local_kem) (kem_ciphertext parsed)) (fun client_ss =>
        or_fail h (BuildLocalPayload h local_kem (kem_public_key remote_hello) (d_encap r)) (fun '(server_payload_struct, server_ss) =>
        or_fail h (EncodePayload ServerPayload server_payload_struct) (fun server_payload =>
          let h := h <| transcript_ ::= fun t => AppendPart t server_payload |> in
          let '(h, sent) := SendMessage h ServerPayload server_payload in
          match sent with
          | Fail e => (h, Fail e)
          | Ok _ =>
              or_fail h (AdpCombineMasterIkm client_ss server_ss) (fun master =>
                (h <| master_ikm_ := master |>, Ok tt))
          end)))))
  | _, _ => (h, Fail (Err_ "amp msh adp: client payload out of order"))
  end.

Definition OnClientFinished (h : Hs) (body : bytes) : Hs * Roe unit :=
  if bool_decide (master_ikm_ h = []) then (h, Fail (Err_ "amp msh adp: finished out of order"))
  else
    or_fail h (VerifyFinished (master_ikm_ h) (transcript_ h) body) (fun _ =>
      let h := h <| transcript_ ::= fun t => AppendPart t body |> in
      or_fail h (BuildFinished (master_ikm_ h) (transcript_ h)) (fun finished =>
        let h := h <| transcript_ ::= fun t => AppendPart t finished |> in
        let '(h, sent) := SendMessage h Finished finished in
        match sent with
        | Fail e => (h, Fail e)
        | Ok _ => MaybeComplete h
        end)).

(** The message is noted as answered before it is looked at. *)
Definition HandleAsResponder (h : Hs) (type : Z) (body : bytes) (r : Draw) : Hs * Roe unit :=
  if negb (chunked_wire_ h) && IsRepeatOfLastAnswered h type body then Resend h
  else
    let h :=
      if (type =? msh_type_to_Z ClientHello) || (type =? msh_type_to_Z ClientPayload)
      then h <| answered_type_ := Some type |> <| answered_body_ := body |>
      else h in
    if type =? msh_type_to_Z ClientHello then OnClientHello h body r
    else if type =? msh_type_to_Z ClientPayload then OnClientPayload h body r
    else if type =? msh_type_to_Z Finished then OnClientFinished h body
    else (h, Fail (Err_ "amp msh adp: unexpected responder message")).

(** ** The initiator's messages *)

Definition OnServerHello (h : Hs) (body : bytes) (r : Draw) : Hs * Roe unit :=
  if bool_decide (is_Some (remote_hello_ h)) && negb (chunked_wire_ h) then (h, Ok tt)
  else if negb (started_ h) || bool_decide (is_Some (remote_hello_ h))
  then (h, Fail (Err_ "amp msh adp: server hello out of order"))
  else
    or_fail h (DecodeHello ServerHello body) (fun parsed =>
      let h := h <| remote_hello_ := Some parsed |> <| transcript_ ::= fun t => AppendPart t body |> in
      let local_kem := default (MkKemState [] []) (local_kem_ h) in
      or_fail h (BuildLocalPayload h local_kem (kem_public_key parsed) (d_encap r)) (fun '(client_payload_struct, client_ss) =>
        let h := h <| client_ss_ := client_ss |> in
        or_fail h (EncodePayload ClientPayload client_payload_struct) (fun client_payload =>
          let h := h <| transcript_ ::= fun t => AppendPart t client_payload |> in
          SendMessage h ClientPayload client_payload))).

Definition OnServerPayload (h : Hs) (body : bytes) : Hs * Roe unit :=
  if bool_decide (is_Some (remote_payload_ h)) && negb (chunked_wire_ h) then (h, Ok tt)
  else
    match remote_hello_ h with
    | Some remote_hello =>
        if bool_decide (client_ss_ h = []) then (h, Fail (Err_ "amp msh adp: server payload out of order"))
        else
          or_fail h (DecodePayload ServerPayload body) (fun parsed =>
          or_fail h (AdpVerifyPayload parsed) (fun _ =>
          if bool_decide (static_kem_public_key parsed <> kem_public_key remote_hello)
          then FailHandshake h "amp msh adp: server payload kem key does not match server hello"
          else
            let h := h <| remote_payload_ := Some parsed |> <| transcript_ ::= fun t => AppendPart t body |> in
            let local_kem := default (MkKemState [] []) (local_kem_ h) in
            or_fail h (Decapsulate (ephemeral_secret local_kem) (kem_ciphertext parsed)) (fun server_ss =>
            or_fail h (AdpCombineMasterIkm (client_ss_ h) server_ss) (fun master =>
              let h := h <| master_ikm_ := master |> in
              or_fail h (BuildFinished (master_ikm_ h) (transcript_ h)) (fun finished =>
                let h := h <| transcript_ ::= fun t => AppendPart t finished |> in
                SendMessage h Finished finished)))))
    | None => (h, Fail (Err_ "amp msh adp: server payload out of order"))
    end.

Definition OnServerFinished (h : Hs) (body : bytes) : Hs * Roe unit :=
  if bool_decide (master_ikm_ h = []) then (h, Fail (Err_ "amp msh adp: finished out of order"))
  else
    or_fail h (VerifyFinished (master_ikm_ h) (transcript_ h) body) (fun _ =>
      let h := h <| transcript_ ::= fun t => AppendPart t body |> in
      MaybeComplete h).

Definition HandleAsInitiator (h : Hs) (type : Z) (body : bytes) (r : Draw) : Hs * Roe unit :=
  if type =? msh_type_to_Z ServerHello then OnServerHello h body r
  else if type =? msh_type_to_Z ServerPayload then OnServerPayload h body
  else if type =? msh_type_to_Z Finished then OnServerFinished h body
  else (h, Fail (Err_ "amp msh adp: unexpected initiator message")).

Definition HandleMsh (h : Hs) (type : Z) (body : bytes) (r : Draw) : Hs * Roe unit :=
  if complete_ h then (h, Fail (Err_ "amp msh adp: handshake complete"))
  else match role_ h with
       | Responder => HandleAsResponder h type body r
       | Initiator => HandleAsInitiator h type body r
       end.

End MshAdpHandshake.
