(* ===== verification/MshAdpProps.v ===== *)
(** * One-sided handshake driver: theorems

    The two drivers of an honest handshake, phase by phase, and what they agree
    on over a carrier that loses, repeats and reorders their messages. *)

From S2P Require Import Prelude L1Types Toy L2Types ToyCrypto SessionKeys MshMessages SessionControl SessionCrypto Session MshHandshake AmpAdpCarrier MshAdpHandshake.

(** ** An honest handshake

    What the two sides draw and derive, and the equations of the functions they
    use. *)

(** A log of what is sent; everything is. *)
#[export] Instance wire_log : SendWire (list bytes) := {| send_ := fun w wire => (w ++ [wire], Ok tt) |}.

Section Honest.
Context `{Sodium} `{Kdf} `{MlKem} `{MlDsa}.
Abbreviation Hs := (MshAdpHandshake (list bytes)).

Record Honest (idI idR : MshIdentity) (rI rR : Draw) := MkHonest {
  kI : KemState; kR : KemState;
  helloI : MshHello; helloR : MshHello;
  payI : MshPayload; payR : MshPayload;
  ssI : bytes; ssR : bytes;
  ch : bytes; sh : bytes; cp : bytes; sp : bytes; cf : bytes; sf : bytes;
  matI : SessionMaterial; matR : SessionMaterial;
  ho_kI : NewEphemeralKem (d_kem rI) = Ok kI;
  ho_kR : NewEphemeralKem (d_kem rR) = Ok kR;
  ho_ch : EncodeHelloOf ClientHello kI (d_nonce rI) = Ok ch;
  ho_ch' : DecodeHello ClientHello ch = Ok helloI;
  ho_sh : EncodeHelloOf ServerHello kR (d_nonce rR) = Ok sh;
  ho_sh' : DecodeHello ServerHello sh = Ok helloR;
  ho_hI : kem_public_key helloI = ephemeral_public kI;
  ho_hR : kem_public_key helloR = ephemeral_public kR;
  ho_payI : forall h : Hs, identity_ h = idI -> BuildLocalPayload h kI (ephemeral_public kR) (d_encap rI) = Ok (payI, ssI);
  ho_payR : forall h : Hs, identity_ h = idR -> BuildLocalPayload h kR (ephemeral_public kI) (d_encap rR) = Ok (payR, ssR);
  ho_cp : EncodePayload ClientPayload payI = Ok cp;
  ho_cp' : DecodePayload ClientPayload cp = Ok payI;
  ho_sp : EncodePayload ServerPayload payR = Ok sp;
  ho_sp' : DecodePayload ServerPayload sp = Ok payR;
  ho_verI : AdpVerifyPayload payI = Ok tt;
  ho_verR : AdpVerifyPayload payR = Ok tt;
  ho_keyI : static_kem_public_key payI = ephemeral_public kI;
  ho_keyR : static_kem_public_key payR = ephemeral_public kR;
  ho_idI : identity_public_key payI = ml_dsa_public_key idI;
  ho_idR : identity_public_key payR = ml_dsa_public_key idR;
  ho_ssI : Decapsulate (ephemeral_secret kR) (kem_ciphertext payI) = Ok ssI;
  ho_ssR : Decapsulate (ephemeral_secret kI) (kem_ciphertext payR) = Ok ssR;
  ho_ssI_ne : ssI <> [];
  ho_ikm : AdpCombineMasterIkm ssI ssR = Ok (ssI ++ ssR);
  ho_cf : BuildFinished (ssI ++ ssR) [ch; sh; cp; sp] = Ok cf;
  ho_cf' : VerifyFinished (ssI ++ ssR) [ch; sh; cp; sp] cf = Ok tt;
  ho_sf : BuildFinished (ssI ++ ssR) [ch; sh; cp; sp; cf] = Ok sf;
  ho_sf' : VerifyFinished (ssI ++ ssR) [ch; sh; cp; sp; cf] sf = Ok tt;
  ho_matI : Derive (ssI ++ ssR) (sha256 (concat [ch; sh; cp; sp; cf; sf])) true 1 = Ok matI;
  ho_matR : Derive (ssI ++ ssR) (sha256 (concat [ch; sh; cp; sp; cf; sf])) false 1 = Ok matR;
}.

(** Any two proper identities make one, whatever is drawn. *)
Lemma BuildLocalPayload_ok `{!MlKemLaws} `{!MlDsaLaws} id kem r0 sk remote r :
  dsa_pair (ml_dsa_secret_key id) (ml_dsa_public_key id) ->
  length (ephemeral_public kem) = kMlKem768PublicKeyBytes -> GenerateKeyPair r0 = Ok (sk, remote) ->
  exists p ss, (forall h : Hs, identity_ h = id -> BuildLocalPayload h kem remote r = Ok (p, ss)) /\ payload_ok p
    /\ AdpVerifyPayload p = Ok tt /\ static_kem_public_key p = ephemeral_public kem
    /\ identity_public_key p = ml_dsa_public_key id
    /\ Decapsulate sk (kem_ciphertext p) = Ok ss /\ length ss = kMlKem768SharedSecretBytes.
Proof.
  intros Hpair Hpk Hgen. destruct (dsa_pair_sizes _ _ Hpair) as [Hsk Hid].
  destruct (kem_encapsulate _ _ _ r Hgen) as (ct & ss & Henc & Hdec & Hct & Hss).
  set (m := kAmpIdentityBindPrefix ++ ephemeral_public kem).
  destruct (dsa_correct _ _ m Hpair) as (sig & Hsign & Hsig & Hver).
  assert (Hmsg : BuildIdentitySignMessage (ephemeral_public kem) = Ok m).
  { unfold BuildIdentitySignMessage. by rewrite (proj2 (bad_size_false _ _) Hpk). }
  exists (MkMshPayload ct (ml_dsa_public_key id) (ephemeral_public kem) sig), ss. split_and!; [|done| |done..].
  - intros h Hh. unfold BuildLocalPayload. rewrite Hh, (proj2 (bad_size_false _ _) Hid), (proj2 (bad_size_false _ _) Hsk).
    cbn [orb]. rewrite Henc. cbn [mbind result_bind]. rewrite Hmsg. cbn [mbind result_bind]. by rewrite Hsign.
  - unfold AdpVerifyPayload. cbn [static_kem_public_key identity_public_key identity_signature]. rewrite Hmsg.
    cbn [mbind result_bind]. by rewrite Hver.
Qed.

Lemma honest_exists `{!SodiumLaws} `{!KdfLaws} `{!MlKemLaws} `{!MlDsaLaws} idI idR rI rR :
  dsa_pair (ml_dsa_secret_key idI) (ml_dsa_public_key idI) ->
  dsa_pair (ml_dsa_secret_key idR) (ml_dsa_public_key idR) ->
  inhabited (Honest idI idR rI rR).
Proof.
  intros HI HR.
  destruct (NewEphemeralKem_ok (d_kem rI)) as (isk & ipk & Hki & Hig & Hil).
  destruct (NewEphemeralKem_ok (d_kem rR)) as (rsk & rpk & Hkr & Hrg & Hrl).
  destruct (EncodeHelloOf_ok ClientHello (MkKemState isk ipk) (d_nonce rI) Hil) as [Hch Hch'].
  destruct (EncodeHelloOf_ok ServerHello (MkKemState rsk rpk) (d_nonce rR) Hrl) as [Hsh Hsh'].
  destruct (BuildLocalPayload_ok idI (MkKemState isk ipk) _ _ _ (d_encap rI) HI Hil Hrg)
    as (pi & si & Hpi & Hpiok & Hpiv & Hpik & Hpii & Hpis & Hpil).
  destruct (BuildLocalPayload_ok idR (MkKemState rsk rpk) _ _ _ (d_encap rR) HR Hrl Hig)
    as (pr & sr & Hpr & Hprok & Hprv & Hprk & Hpri & Hprs & Hprl).
  pose proof (CombineMasterIkm_ok _ _ Hpil Hprl) as [_ Hne].
  assert (Hikm : AdpCombineMasterIkm si sr = Ok (si ++ sr)).
  { unfold AdpCombineMasterIkm. by rewrite (proj2 (bad_size_false _ _) Hpil), (proj2 (bad_size_false _ _) Hprl). }
  set (ch := hello_layout ClientHello _) in *. set (sh := hello_layout ServerHello _) in *.
  destruct (BuildFinished_total (si ++ sr) [ch; sh; payload_layout ClientPayload pi; payload_layout ServerPayload pr]) as [cf Hcf].
  destruct (BuildFinished_total (si ++ sr) [ch; sh; payload_layout ClientPayload pi; payload_layout ServerPayload pr; cf]) as [sf Hsf].
  set (th := sha256 (concat [ch; sh; payload_layout ClientPayload pi; payload_layout ServerPayload pr; cf; sf])).
  assert (Hth : length th = 32%nat) by apply sha256_length.
  destruct (Derive_total _ th true 1 Hne Hth) as (mi & Hmi & _). destruct (Derive_total _ th false 1 Hne Hth) as (mr & Hmr & _).
  constructor. eapply (MkHonest idI idR rI rR (MkKemState isk ipk) (MkKemState rsk rpk) _ _ pi pr si sr ch sh
    (payload_layout ClientPayload pi) (payload_layout ServerPayload pr) cf sf mi mr); try done.
  - by apply EncodePayload_ok.
  - by apply DecodePayload_iff.
  - by apply EncodePayload_ok.
  - by apply DecodePayload_iff.
  - intros ->. pose proof kem_secret_bytes as Hpos. simpl in Hpil. lia.
  - by apply VerifyFinished_iff.
  - by apply VerifyFinished_iff.
Qed.

(** ** The phases of an honest handshake *)

(** What a message is sent as: whole, or in chunks. *)
Definition frames (chunked : bool) (t : MshMessageType) (body : bytes) : list bytes :=
  let type := msh_type_to_Z t in
  if chunked then match EncodeMshChunked type body with Ok l => l | Fail _ => [] end
  else match EncodeMsh type body with Ok wire => [wire] | Fail _ => [] end.

Lemma SendChunks_log (h : Hs) chunks :
  SendChunks h chunks = (h <| wires_ := wires_ h ++ chunks |>, Ok tt).
Proof.
  revert h. induction chunks as [|chunk chunks IH]; intros h; simpl; [rewrite app_nil_r; by destruct h|].
  rewrite IH. cbn. by rewrite <- app_assoc.
Qed.

Definition note_sent (h : Hs) (t : MshMessageType) (body : bytes) : Hs :=
  let h := h <| wires_ := wires_ h ++ frames (chunked_wire_ h) t body |> in
  if chunked_wire_ h then h
  else h <| last_wire_ := [payload_kind_to_Z Msh] ++ [msh_type_to_Z t] ++ body |>
         <| last_type_ := msh_type_to_Z t |> <| last_body_ := body |>.

Lemma SendMessage_log (h : Hs) t body : SendMessage h t body = (note_sent h t body, Ok tt).
Proof.
  unfold SendMessage, note_sent, frames. destruct (chunked_wire_ h) eqn:Hc; cbn [negb]; cbn [set_field]; [|].
  - destruct (EncodeMshChunked _ body) as [l|] eqn:He.
    + rewrite SendChunks_log. by destruct h; cbn in *; subst.
    + unfold EncodeMshChunked in He. by destruct (_ <=? _)%nat.
  - destruct h; cbn in *; by subst.
Qed.

(** Two new drivers over a carrier. *)
Definition carrier_start (idI idR : MshIdentity) : Hs * Hs :=
  (MshAdpHandshake_new Initiator idI ([] : list bytes) false, MshAdpHandshake_new Responder idR ([] : list bytes) false).

Section Phases.
Context {idI idR : MshIdentity} {rI rR : Draw} (x : Honest idI idR rI rR).
Abbreviation ch := (ch _ _ _ _ x). Abbreviation sh := (sh _ _ _ _ x). Abbreviation cp := (cp _ _ _ _ x).
Abbreviation sp := (sp _ _ _ _ x). Abbreviation cf := (cf _ _ _ _ x). Abbreviation sf := (sf _ _ _ _ x).
Abbreviation ikm := (ssI _ _ _ _ x ++ ssR _ _ _ _ x).

Definition th : bytes := sha256 (concat [ch; sh; cp; sp; cf; sf]).
Definition estI : MshAdpEstablished := MkMshAdpEstablished (matI _ _ _ _ x) ikm th (ml_dsa_public_key idR).
Definition estR : MshAdpEstablished := MkMshAdpEstablished (matR _ _ _ _ x) ikm th (ml_dsa_public_key idI).

Definition last_of (chunked : bool) (m : option (MshMessageType * bytes)) : bytes * Z * bytes :=
  match m with
  | Some (t, body) => if chunked then ([], 0, []) else ([payload_kind_to_Z Msh] ++ [msh_type_to_Z t] ++ body, msh_type_to_Z t, body)
  | None => ([], 0, [])
  end.

(** The initiator before its hello, after it, after its payload, after its
    finished, and complete; [w] is what it has sent. *)
Inductive IPhase := I0 | I1 | I2 | I3 | I4.
(** The responder before the hello, after it, after the payload, and complete; a
    hello that comes again after the payload is noted ([R2h], [R3h]). *)
Inductive RPhase := R0 | R1 | R2 | R2h | R3 | R3h.

Definition ini_at (c : bool) (p : IPhase) (w : list bytes) : Hs :=
  let mk complete started kem hello payload tr ss ikm m done :=
    let l := last_of c m in
    MkMshAdpHandshake Initiator idI c complete started kem hello payload tr ss ikm l.1.1 l.1.2 l.2 None [] w done in
  let k := Some (kI _ _ _ _ x) in let hello := Some (helloR _ _ _ _ x) in let pay := Some (payR _ _ _ _ x) in
  let ss := ssI _ _ _ _ x in
  match p with
  | I0 => mk false false None None None [] [] [] None []
  | I1 => mk false true k None None [ch] [] [] (Some (ClientHello, ch)) []
  | I2 => mk false true k hello None [ch; sh; cp] ss [] (Some (ClientPayload, cp)) []
  | I3 => mk false true k hello pay [ch; sh; cp; sp; cf] ss ikm (Some (Finished, cf)) []
  | I4 => mk true true k hello pay [ch; sh; cp; sp; cf; sf] ss ikm (Some (Finished, cf)) [Ok estI]
  end.

Definition resp_at (c : bool) (p : RPhase) (w : list bytes) : Hs :=
  let mk complete started kem hello payload tr ikm m at_ ab done :=
    let l := last_of c m in
    MkMshAdpHandshake Responder idR c complete started kem hello payload tr [] ikm l.1.1 l.1.2 l.2 at_ ab w done in
  let k := Some (kR _ _ _ _ x) in let hello := Some (helloI _ _ _ _ x) in let pay := Some (payI _ _ _ _ x) in
  let hi := Some (msh_type_to_Z ClientHello) in let pl := Some (msh_type_to_Z ClientPayload) in
  match p with
  | R0 => mk false false None None None [] [] None None [] []
  | R1 => mk false true k hello None [ch; sh] [] (Some (ServerHello, sh)) hi ch []
  | R2 => mk false true k hello pay [ch; sh; cp; sp] ikm (Some (ServerPayload, sp)) pl cp []
  | R2h => mk false true k hello pay [ch; sh; cp; sp] ikm (Some (ServerPayload, sp)) hi ch []
  | R3 => mk true true k hello pay [ch; sh; cp; sp; cf; sf] ikm (Some (Finished, sf)) pl cp [Ok estR]
  | R3h => mk true true k hello pay [ch; sh; cp; sp; cf; sf] ikm (Some (Finished, sf)) hi ch [Ok estR]
  end.

#[local] Arguments NewEphemeralKem : simpl never.
#[local] Arguments EncodeHelloOf : simpl never.
#[local] Arguments DecodeHello : simpl never.
#[local] Arguments BuildLocalPayload : simpl never.
#[local] Arguments EncodePayload : simpl never.
#[local] Arguments DecodePayload : simpl never.
#[local] Arguments AdpVerifyPayload : simpl never.
#[local] Arguments AdpCombineMasterIkm : simpl never.
#[local] Arguments BuildFinished : simpl never.
#[local] Arguments VerifyFinished : simpl never.
#[local] Arguments Derive : simpl never.
#[local] Arguments SendMessage : simpl never.
#[local] Arguments frames : simpl never.
#[local] Arguments bool_decide : simpl never.
#[local] Arguments concat : simpl never.
#[local] Arguments last_of : simpl never.

Lemma Start_honest c w :
  Start (ini_at c I0 w) rI = (ini_at c I1 (w ++ frames c ClientHello ch), Ok tt).
Proof.
  unfold Start. cbn. rewrite (ho_kI _ _ _ _ x). cbn. rewrite (ho_ch _ _ _ _ x). cbn. rewrite SendMessage_log. by destruct c.
Qed.

Lemma ini_server_hello c w :
  HandleMsh (ini_at c I1 w) (msh_type_to_Z ServerHello) sh rI = (ini_at c I2 (w ++ frames c ClientPayload cp), Ok tt).
Proof.
  unfold HandleMsh, HandleAsInitiator, OnServerHello. cbn. rewrite bool_decide_false by (by apply is_Some_None). cbn.
  rewrite (ho_sh' _ _ _ _ x). cbn. rewrite (ho_hR _ _ _ _ x), (ho_payI _ _ _ _ x) by done. cbn.
  rewrite (ho_cp _ _ _ _ x). cbn. rewrite SendMessage_log. by destruct c.
Qed.

Lemma ikm_nonempty : ikm <> [].
Proof. intros [He _]%app_eq_nil. by apply (ho_ssI_ne _ _ _ _ x). Qed.

Lemma ini_server_payload c w :
  HandleMsh (ini_at c I2 w) (msh_type_to_Z ServerPayload) sp rI = (ini_at c I3 (w ++ frames c Finished cf), Ok tt).
Proof.
  unfold HandleMsh, HandleAsInitiator, OnServerPayload. cbn. rewrite bool_decide_false by (by apply is_Some_None). cbn.
  rewrite bool_decide_false by apply (ho_ssI_ne _ _ _ _ x).
  rewrite (ho_sp' _ _ _ _ x). cbn. rewrite (ho_verR _ _ _ _ x). cbn.
  rewrite bool_decide_false by (rewrite (ho_keyR _ _ _ _ x), (ho_hR _ _ _ _ x); tauto). cbn.
  rewrite (ho_ssR _ _ _ _ x). cbn. rewrite (ho_ikm _ _ _ _ x). cbn. rewrite (ho_cf _ _ _ _ x). cbn.
  rewrite SendMessage_log. by destruct c.
Qed.

Lemma ini_finished c w :
  HandleMsh (ini_at c I3 w) (msh_type_to_Z Finished) sf rI = (ini_at c I4 w, Ok tt).
Proof.
  unfold HandleMsh, HandleAsInitiator, OnServerFinished. cbn.
  rewrite bool_decide_false by apply ikm_nonempty. rewrite (ho_sf' _ _ _ _ x). cbn.
  unfold MaybeComplete. cbn. rewrite bool_decide_false by apply ikm_nonempty. cbn.
  rewrite (bool_decide_true (Initiator = Initiator)) by done. rewrite (ho_matI _ _ _ _ x). cbn.
  unfold estI. rewrite <- (ho_idR _ _ _ _ x). done.
Qed.

Lemma resp_client_hello c w :
  HandleMsh (resp_at c R0 w) (msh_type_to_Z ClientHello) ch rR = (resp_at c R1 (w ++ frames c ServerHello sh), Ok tt).
Proof.
  unfold HandleMsh, HandleAsResponder, IsRepeatOfLastAnswered. cbn. rewrite bool_decide_false by done. cbn. rewrite andb_false_r. cbn.
  unfold OnClientHello. cbn. rewrite (ho_ch' _ _ _ _ x). cbn. rewrite (ho_kR _ _ _ _ x). cbn.
  rewrite (ho_sh _ _ _ _ x). cbn. rewrite SendMessage_log. by destruct c.
Qed.

Lemma resp_client_payload c w :
  HandleMsh (resp_at c R1 w) (msh_type_to_Z ClientPayload) cp rR = (resp_at c R2 (w ++ frames c ServerPayload sp), Ok tt).
Proof.
  unfold HandleMsh, HandleAsResponder, IsRepeatOfLastAnswered. cbn.
  rewrite bool_decide_false by done. cbn. rewrite andb_false_r. cbn.
  unfold OnClientPayload. cbn. rewrite (ho_cp' _ _ _ _ x). cbn. rewrite (ho_verI _ _ _ _ x). cbn.
  rewrite bool_decide_false by (rewrite (ho_keyI _ _ _ _ x), (ho_hI _ _ _ _ x); tauto). cbn.
  rewrite (ho_ssI _ _ _ _ x). cbn. rewrite (ho_hI _ _ _ _ x), (ho_payR _ _ _ _ x) by done. cbn.
  rewrite (ho_sp _ _ _ _ x). cbn. rewrite SendMessage_log. cbn. rewrite (ho_ikm _ _ _ _ x). cbn.
  by destruct c.
Qed.

Lemma resp_finished c w :
  HandleMsh (resp_at c R2 w) (msh_type_to_Z Finished) cf rR = (resp_at c R3 (w ++ frames c Finished sf), Ok tt).
Proof.
  unfold HandleMsh, HandleAsResponder, IsRepeatOfLastAnswered. cbn.
  rewrite bool_decide_false by done. cbn. rewrite andb_false_r. cbn.
  unfold OnClientFinished. cbn. rewrite bool_decide_false by apply ikm_nonempty. rewrite (ho_cf' _ _ _ _ x). cbn.
  rewrite (ho_sf _ _ _ _ x). cbn. rewrite SendMessage_log.
  unfold MaybeComplete, note_sent. cbn. destruct c; cbn; rewrite bool_decide_false by apply ikm_nonempty; cbn;
    rewrite (bool_decide_false (Responder = Initiator)) by done; rewrite (ho_matR _ _ _ _ x); cbn;
    unfold estR; rewrite <- (ho_idI _ _ _ _ x); done.
Qed.
Lemma resp_finished_late w :
  HandleMsh (resp_at false R2h w) (msh_type_to_Z Finished) cf rR = (resp_at false R3h (w ++ frames false Finished sf), Ok tt).
Proof.
  unfold HandleMsh, HandleAsResponder, IsRepeatOfLastAnswered. cbn.
  rewrite bool_decide_false by done. cbn.
  unfold OnClientFinished. cbn. rewrite bool_decide_false by apply ikm_nonempty. rewrite (ho_cf' _ _ _ _ x). cbn.
  rewrite (ho_sf _ _ _ _ x). cbn. rewrite SendMessage_log.
  unfold MaybeComplete, note_sent. cbn. cbn; rewrite bool_decide_false by apply ikm_nonempty; cbn;
    rewrite (bool_decide_false (Responder = Initiator)) by done; rewrite (ho_matR _ _ _ _ x); cbn;
    unfold estR; rewrite <- (ho_idI _ _ _ _ x); done.
Qed.

(** *** Over a carrier: messages that come again *)

Lemma complete_refuses (h : Hs) type body r :
  complete_ h = true -> HandleMsh h type body r = (h, Fail (Err_ "amp msh adp: handshake complete")).
Proof. intros Hc. unfold HandleMsh. by rewrite Hc. Qed.

Lemma ini_repeat_hello p w : p = I2 \/ p = I3 ->
  HandleMsh (ini_at false p w) (msh_type_to_Z ServerHello) sh rI = (ini_at false p w, Ok tt).
Proof. by intros [-> | ->]. Qed.

Lemma ini_repeat_payload w :
  HandleMsh (ini_at false I3 w) (msh_type_to_Z ServerPayload) sp rI = (ini_at false I3 w, Ok tt).
Proof. done. Qed.

Lemma EncodeMshChunked_ok t body : exists l, EncodeMshChunked (msh_type_to_Z t) body = Ok l.
Proof. unfold EncodeMshChunked. destruct (_ <=? _)%nat; cbn; by eexists. Qed.

Lemma Resend_log (h : Hs) t body :
  last_wire_ h <> [] -> last_type_ h = msh_type_to_Z t -> last_body_ h = body ->
  Resend h = (h <| wires_ := wires_ h ++ frames true t body |>, Ok tt).
Proof.
  intros Hw Ht Hb. unfold Resend, LastChunks, frames. rewrite bool_decide_false, Ht, Hb by done.
  destruct (EncodeMshChunked_ok t body) as [l ->]. apply SendChunks_log.
Qed.

Lemma resp_repeat_hello w :
  HandleMsh (resp_at false R1 w) (msh_type_to_Z ClientHello) ch rR
  = (resp_at false R1 (w ++ frames true ServerHello sh), Ok tt).
Proof.
  unfold HandleMsh, HandleAsResponder, IsRepeatOfLastAnswered. cbn. rewrite !bool_decide_true by done. cbn.
  by rewrite (Resend_log _ ServerHello sh).
Qed.

Lemma resp_repeat_payload w :
  HandleMsh (resp_at false R2 w) (msh_type_to_Z ClientPayload) cp rR
  = (resp_at false R2 (w ++ frames true ServerPayload sp), Ok tt).
Proof.
  unfold HandleMsh, HandleAsResponder, IsRepeatOfLastAnswered. cbn. rewrite !bool_decide_true by done. cbn.
  by rewrite (Resend_log _ ServerPayload sp).
Qed.

(** A hello that comes after the payload is refused, and noted. *)
Lemma resp_late_hello w :
  HandleMsh (resp_at false R2 w) (msh_type_to_Z ClientHello) ch rR
  = (resp_at false R2h w, Fail (Err_ "amp msh adp: duplicate client hello")).
Proof.
  unfold HandleMsh, HandleAsResponder, IsRepeatOfLastAnswered. cbn. rewrite bool_decide_false by done. done.
Qed.
Lemma resp_repeat_late_hello w :
  HandleMsh (resp_at false R2h w) (msh_type_to_Z ClientHello) ch rR
  = (resp_at false R2h (w ++ frames true ServerPayload sp), Ok tt).
Proof.
  unfold HandleMsh, HandleAsResponder, IsRepeatOfLastAnswered. cbn. rewrite !bool_decide_true by done. cbn.
  by rewrite (Resend_log _ ServerPayload sp).
Qed.

(** *** What is on the carrier *)

Definition whole (m : MshMessageType * bytes) : bytes := [payload_kind_to_Z Msh] ++ [msh_type_to_Z m.1] ++ m.2.

(** A payload on the carrier is one of the messages, or nothing a handshake
    takes as a whole message. *)
Definition carries (ms : list (MshMessageType * bytes)) (w : bytes) : Prop :=
  (exists m, m ∈ ms /\ w = whole m) \/ ok (DecodeMshType w) = false.

Lemma whole_decodes m : DecodeMshType (whole m) = Ok (msh_type_to_Z m.1) /\ DecodeMshBody (whole m) = Ok m.2.
Proof. done. Qed.

Lemma frames_carry c t body : Forall (carries [(t, body)]) (frames c t body).
Proof.
  assert (Hone : carries [(t, body)] (whole (t, body))) by (left; exists (t, body); split; [set_solver|done]).
  unfold frames. destruct c; [|by constructor]. unfold EncodeMshChunked. destruct (_ <=? _)%nat; [by constructor|].
  apply Forall_map, Forall_forall. intros i _. right. reflexivity.
Qed.

Lemma carries_weaken ms ms' w : ms ⊆ ms' -> carries ms w -> carries ms' w.
Proof. intros Hs [(m & Hm & ->)|Hf]; [left; exists m; split; [set_solver|done]|by right]. Qed.

Definition sentI (p : IPhase) : list (MshMessageType * bytes) :=
  match p with
  | I0 => [] | I1 => [(ClientHello, ch)] | I2 => [(ClientHello, ch); (ClientPayload, cp)]
  | I3 | I4 => [(ClientHello, ch); (ClientPayload, cp); (Finished, cf)]
  end.
Definition sentR (p : RPhase) : list (MshMessageType * bytes) :=
  match p with
  | R0 => [] | R1 => [(ServerHello, sh)] | R2 | R2h => [(ServerHello, sh); (ServerPayload, sp)]
  | R3 | R3h => [(ServerHello, sh); (ServerPayload, sp); (Finished, sf)]
  end.

(** Everything sent is on the carrier, whole, and nothing else whole. *)
Definition on_carrier (ms : list (MshMessageType * bytes)) (w : list bytes) : Prop :=
  Forall (carries ms) w /\ forall m, m ∈ ms -> whole m ∈ w.

Lemma on_carrier_send ms w t body : on_carrier ms w -> on_carrier (ms ++ [(t, body)]) (w ++ frames false t body).
Proof.
  intros [Hc Hin]. split.
  - apply Forall_app_2; [|eapply Forall_impl; [apply frames_carry|]; intros v; by apply carries_weaken; set_solver].
    eapply Forall_impl; [exact Hc|]. intros v. apply carries_weaken. set_solver.
  - intros m [Hm| ->%list_elem_of_singleton]%elem_of_app; [specialize (Hin m Hm); set_solver|].
    apply elem_of_app. right. by apply list_elem_of_singleton.
Qed.

Lemma on_carrier_resend ms w t body : (t, body) ∈ ms -> on_carrier ms w -> on_carrier ms (w ++ frames true t body).
Proof.
  intros Hm [Hc Hin]. split; [|intros m Hm'; specialize (Hin m Hm'); set_solver].
  apply Forall_app_2; [done|]. eapply Forall_impl; [apply frames_carry|]. intros v. apply carries_weaken. set_solver.
Qed.

(** ** The carrier

    Any message sent may be delivered, any number of times and in any order,
    except that the payload does not come again once a hello came again after the
    payload was taken: that hello is refused but noted as answered, and the payload
    is then taken as new (see [late_hello_breaks_handshake]). *)
Inductive carrier_step : Hs * Hs -> Hs * Hs -> Prop :=
  | cs_start a b : carrier_step (a, b) ((Start a rI).1, b)
  | cs_to_resp a b w t body :
      w ∈ wires_ a -> DecodeMshType w = Ok t -> DecodeMshBody w = Ok body ->
      (t = msh_type_to_Z ClientPayload ->
         remote_payload_ b = None \/ complete_ b = true \/ answered_type_ b <> Some (msh_type_to_Z ClientHello)) ->
      carrier_step (a, b) (a, (HandleMsh b t body rR).1)
  | cs_to_ini a b w t body :
      w ∈ wires_ b -> DecodeMshType w = Ok t -> DecodeMshBody w = Ok body ->
      carrier_step (a, b) ((HandleMsh a t body rI).1, b).

Definition in_step (p : IPhase) (q : RPhase) : Prop :=
  match q, p with
  | R0, (I0 | I1) | R1, (I1 | I2) | (R2 | R2h), (I2 | I3) | (R3 | R3h), (I3 | I4) => True
  | _, _ => False
  end.

Definition carrier_inv (s : Hs * Hs) : Prop :=
  exists p q wa wb, s = (ini_at false p wa, resp_at false q wb) /\ in_step p q
    /\ on_carrier (sentI p) wa /\ on_carrier (sentR q) wb.

Lemma wires_ini_at c p w : wires_ (ini_at c p w) = w.
Proof. by destruct p. Qed.
Lemma wires_resp_at c q w : wires_ (resp_at c q w) = w.
Proof. by destruct q. Qed.

(** A message delivered is one of those sent. *)
Lemma delivered_message ms ws w t body : on_carrier ms ws -> w ∈ ws -> DecodeMshType w = Ok t -> DecodeMshBody w = Ok body ->
  exists m, m ∈ ms /\ t = msh_type_to_Z m.1 /\ body = m.2.
Proof.
  intros [Hc _] Hw Ht Hb. rewrite Forall_forall in Hc. destruct (Hc w Hw) as [(m & Hm & ->)|Hf]; [|by rewrite Ht in Hf].
  destruct (whole_decodes m) as [Ht' Hb']. exists m. split; [done|]. split; [|by rewrite Hb in Hb'; apply Ok_inj in Hb' as <-].
  rewrite Ht in Ht'. by apply Ok_inj in Ht' as <-.
Qed.

Lemma carrier_step_inv s s' : carrier_inv s -> carrier_step s s' -> carrier_inv s'.
Proof.
  intros Hinv Hs. destruct Hs as [a b|a b w t body Hw Ht Hbody Hlate|a b w t body Hw Ht Hbody];
    destruct Hinv as (p & q & wa & wb & Heq & Hstep & Ha & Hb);
    (assert (a = ini_at false p wa) as -> by congruence); (assert (b = resp_at false q wb) as -> by congruence); clear Heq.
  - destruct p.
    { rewrite Start_honest. exists I1, q, (wa ++ frames false ClientHello ch), wb. split; [done|].
      split; [by destruct q|]. split; [by apply (on_carrier_send [])|done]. }
    { by exists I1, q, wa, wb. } { by exists I2, q, wa, wb. } { by exists I3, q, wa, wb. } { by exists I4, q, wa, wb. }
  - rewrite wires_ini_at in Hw. destruct (delivered_message _ _ _ _ _ Ha Hw Ht Hbody) as (m & Hm & -> & ->).
    destruct q.
    + destruct p; try done; [by apply elem_of_nil in Hm|]. apply list_elem_of_singleton in Hm as ->. cbn [fst snd].
      rewrite resp_client_hello. eexists I1, R1, wa, _. split_and!; [done..|]. by apply (on_carrier_send []).
    + assert (m = (ClientHello, ch) \/ p = I2 /\ m = (ClientPayload, cp)) as [-> | [-> ->]]
        by (destruct p; cbn in Hm; try done; set_solver); cbn [fst snd].
      * rewrite resp_repeat_hello. eexists p, R1, wa, _. split_and!; [done..|]. apply on_carrier_resend; [set_solver|done].
      * rewrite resp_client_payload. eexists I2, R2, wa, _. split_and!; [done..|]. by apply (on_carrier_send [_]).
    + assert (m = (ClientHello, ch) \/ m = (ClientPayload, cp) \/ p = I3 /\ m = (Finished, cf)) as [-> | [-> | [-> ->]]]
        by (destruct p; cbn in Hm; try done; set_solver); cbn [fst snd].
      * rewrite resp_late_hello. by exists p, R2h, wa, wb.
      * rewrite resp_repeat_payload. eexists p, R2, wa, _. split_and!; [done..|]. apply on_carrier_resend; [set_solver|done].
      * rewrite resp_finished. eexists I3, R3, wa, _. split_and!; [done..|]. by apply (on_carrier_send [_; _]).
    + assert (m = (ClientHello, ch) \/ m = (ClientPayload, cp) \/ p = I3 /\ m = (Finished, cf)) as [-> | [-> | [-> ->]]]
        by (destruct p; cbn in Hm; try done; set_solver); cbn [fst snd].
      * rewrite resp_repeat_late_hello. eexists p, R2h, wa, _. split_and!; [done..|]. apply on_carrier_resend; [set_solver|done].
      * by destruct (Hlate eq_refl) as [|[|]].
      * rewrite resp_finished_late. eexists I3, R3h, wa, _. split_and!; [done..|]. by apply (on_carrier_send [_; _]).
    + rewrite complete_refuses by done. by exists p, R3, wa, wb.
    + rewrite complete_refuses by done. by exists p, R3h, wa, wb.
  - rewrite wires_resp_at in Hw. destruct (delivered_message _ _ _ _ _ Hb Hw Ht Hbody) as (m & Hm & -> & ->).
    destruct p.
    + destruct q; try done. by apply elem_of_nil in Hm.
    + destruct q; try done; [by apply elem_of_nil in Hm|]. apply list_elem_of_singleton in Hm as ->. cbn [fst snd].
      rewrite ini_server_hello. eexists I2, R1, _, wb. split_and!; [done..| |done]. by apply (on_carrier_send [_]).
    + assert (m = (ServerHello, sh) \/ in_step I3 q /\ m = (ServerPayload, sp)) as [-> | [Hq ->]]
        by (destruct q; cbn in Hm; try done; set_solver); cbn [fst snd].
      * rewrite ini_repeat_hello by auto. by exists I2, q, wa, wb.
      * rewrite ini_server_payload. eexists I3, q, _, wb. split_and!; [done..| |done]. by apply (on_carrier_send [_; _]).
    + assert (m = (ServerHello, sh) \/ m = (ServerPayload, sp) \/ in_step I4 q /\ m = (Finished, sf)) as [-> | [-> | [Hq ->]]]
        by (destruct q; cbn in Hm; try done; set_solver); cbn [fst snd].
      * rewrite ini_repeat_hello by auto. by exists I3, q, wa, wb.
      * rewrite ini_repeat_payload. by exists I3, q, wa, wb.
      * rewrite ini_finished. by exists I4, q, wa, wb.
    + rewrite complete_refuses by done. by exists I4, q, wa, wb.
Qed.

Lemma carrier_reach_inv s :
  rtc carrier_step (carrier_start idI idR) s ->
  carrier_inv s.
Proof.
  assert (H0' : carrier_inv (carrier_start idI idR)).
  { exists I0, R0, [], []. split; [done|]. split; [done|]. split; (split; [constructor|intros m Hm; by apply elem_of_nil in Hm]). }
  revert H0'. generalize (carrier_start idI idR).
  intros s0 H0' Hr. induction Hr as [|s0 s1 s2 Hs _ IH]; [done|]. apply IH. by eapply carrier_step_inv.
Qed.

(** *** From any point, deliveries complete it *)

Lemma deliver_resp a b m : whole m ∈ wires_ a -> (m.1 = ClientPayload -> remote_payload_ b = None) ->
  carrier_step (a, b) (a, (HandleMsh b (msh_type_to_Z m.1) m.2 rR).1).
Proof.
  intros Hw Hl. destruct (whole_decodes m) as [Ht Hb]. apply (cs_to_resp _ _ _ _ _ Hw Ht Hb).
  intros He. left. apply Hl. by destruct m as [[] ?].
Qed.
Lemma deliver_ini a b m : whole m ∈ wires_ b ->
  carrier_step (a, b) ((HandleMsh a (msh_type_to_Z m.1) m.2 rI).1, b).
Proof. intros Hw. destruct (whole_decodes m) as [Ht Hb]. apply (cs_to_ini _ _ _ _ _ Hw Ht Hb). Qed.

Definition both_complete (s : Hs * Hs) : Prop := completed_ s.1 = [Ok estI] /\ completed_ s.2 = [Ok estR].

Definition completes (s : Hs * Hs) : Prop := exists s', rtc carrier_step s s' /\ both_complete s'.
Lemma ahead s s' : carrier_step s s' -> completes s' -> completes s.
Proof. intros Hs (s'' & Hr & Hc). exists s''. split; [by eapply rtc_l|done]. Qed.

(** The step that delivers a message sent, with its result. *)
Ltac deliver step result :=
  let Hd := fresh in
  pose proof step as Hd; rewrite ?wires_ini_at, ?wires_resp_at in Hd; cbn [fst snd] in Hd; rewrite result in Hd;
  apply Hd; (first [set_solver | by left | done | idtac]).

Lemma carrier_completes s : carrier_inv s -> completes s.
Proof.
  assert (H33 : forall q wa wb, q = R3 \/ q = R3h -> on_carrier (sentR q) wb -> completes (ini_at false I3 wa, resp_at false q wb)).
  { intros q wa wb Hq [_ Hb]. eapply ahead; [|exists (ini_at false I4 wa, resp_at false q wb); split; [apply rtc_refl|by destruct Hq as [-> | ->]]].
    destruct Hq as [-> | ->]; [deliver (deliver_ini (ini_at false I3 wa) (resp_at false R3 wb) (Finished, sf)) ini_finished|].
    deliver (deliver_ini (ini_at false I3 wa) (resp_at false R3h wb) (Finished, sf)) ini_finished. }
  assert (H32 : forall q wa wb, q = R2 \/ q = R2h -> on_carrier (sentI I3) wa -> on_carrier (sentR q) wb ->
    completes (ini_at false I3 wa, resp_at false q wb)).
  { intros q wa wb Hq [_ Ha] Hb. destruct Hq as [-> | ->].
    - eapply ahead; [|apply (H33 R3); [by left|by apply (on_carrier_send [_; _])]].
      deliver (deliver_resp (ini_at false I3 wa) (resp_at false R2 wb) (Finished, cf)) resp_finished.
    - eapply ahead; [|apply (H33 R3h); [by right|by apply (on_carrier_send [_; _])]].
      deliver (deliver_resp (ini_at false I3 wa) (resp_at false R2h wb) (Finished, cf)) resp_finished_late. }
  assert (H22 : forall q wa wb, q = R2 \/ q = R2h -> on_carrier (sentI I2) wa -> on_carrier (sentR q) wb ->
    completes (ini_at false I2 wa, resp_at false q wb)).
  { intros q wa wb Hq Ha Hb. pose proof Hb as [_ Hb']. eapply ahead; [|apply (H32 q); [done|by apply (on_carrier_send [_; _])|done]].
    destruct Hq as [-> | ->]; [deliver (deliver_ini (ini_at false I2 wa) (resp_at false R2 wb) (ServerPayload, sp)) ini_server_payload|].
    deliver (deliver_ini (ini_at false I2 wa) (resp_at false R2h wb) (ServerPayload, sp)) ini_server_payload. }
  assert (H21 : forall wa wb, on_carrier (sentI I2) wa -> on_carrier (sentR R1) wb ->
    completes (ini_at false I2 wa, resp_at false R1 wb)).
  { intros wa wb Ha Hb. pose proof Ha as [_ Ha']. eapply ahead; [|apply (H22 R2); [by left|done|by apply (on_carrier_send [_])]].
    deliver (deliver_resp (ini_at false I2 wa) (resp_at false R1 wb) (ClientPayload, cp)) resp_client_payload. }
  assert (H11 : forall wa wb, on_carrier (sentI I1) wa -> on_carrier (sentR R1) wb ->
    completes (ini_at false I1 wa, resp_at false R1 wb)).
  { intros wa wb Ha Hb. pose proof Hb as [_ Hb']. eapply ahead; [|apply H21; [by apply (on_carrier_send [_])|done]].
    deliver (deliver_ini (ini_at false I1 wa) (resp_at false R1 wb) (ServerHello, sh)) ini_server_hello. }
  assert (H10 : forall wa wb, on_carrier (sentI I1) wa -> on_carrier (sentR R0) wb ->
    completes (ini_at false I1 wa, resp_at false R0 wb)).
  { intros wa wb Ha Hb. pose proof Ha as [_ Ha']. eapply ahead; [|apply H11; [done|by apply (on_carrier_send [])]].
    deliver (deliver_resp (ini_at false I1 wa) (resp_at false R0 wb) (ClientHello, ch)) resp_client_hello. }
  intros (p & q & wa & wb & -> & Hstep & Ha & Hb).
  destruct q, p; try done; [|by auto..|by exists (ini_at false I4 wa, resp_at false R3 wb); split; [apply rtc_refl|]
    |by auto|by exists (ini_at false I4 wa, resp_at false R3h wb); split; [apply rtc_refl|]].
  eapply ahead; [|apply (H10 (wa ++ frames false ClientHello ch)); [by apply (on_carrier_send [])|done]].
  deliver (cs_start (ini_at false I0 wa) (resp_at false R0 wb)) Start_honest.
Qed.

(** What the two sides hold of each other's. *)
Definition mirrored (eI eR : MshAdpEstablished) : Prop :=
  adp_master_ikm eI = adp_master_ikm eR /\ adp_transcript_hash eI = adp_transcript_hash eR
  /\ remote_identity_public_key eI = ml_dsa_public_key idR /\ remote_identity_public_key eR = ml_dsa_public_key idI
  /\ Derive (adp_master_ikm eI) (adp_transcript_hash eI) true 1 = Ok (local_material eI)
  /\ Derive (adp_master_ikm eI) (adp_transcript_hash eI) false 1 = Ok (local_material eR)
  /\ k_assoc (local_material eI) = k_assoc (local_material eR)
  /\ k_send (local_material eI) = k_recv (local_material eR) /\ k_recv (local_material eI) = k_send (local_material eR).

Lemma honest_mirrored : mirrored estI estR.
Proof.
  pose proof (ho_matI _ _ _ _ x) as HmI. pose proof (ho_matR _ _ _ _ x) as HmR.
  destruct (Derive_mirrored _ _ true _ _ _ HmI HmR) as (Ha & Hs & Hr). by split_and!.
Qed.
End Phases.

Section Theorems.
Context `{!SodiumLaws} `{!KdfLaws} `{!MlKemLaws} `{!MlDsaLaws}.

(** C10: the two ends of a handshake agree, over a carrier that loses, repeats
    and reorders their messages, as long as the payload does not come again after
    a hello that came again after the payload (then the handshake does fail, see
    [late_hello_breaks_handshake]).  Short of that neither side ever fails; what
    each completes with is fixed by the identities and what was drawn: the same
    secret and transcript, each side's sending key the other's receiving key, each
    other's identity; and at any point some deliveries of what was already sent,
    and of the answers to it, complete both. *)
Theorem carrier_handshake_agrees (idI idR : MshIdentity) (rI rR : Draw)
    (HI : dsa_pair (ml_dsa_secret_key idI) (ml_dsa_public_key idI))
    (HR : dsa_pair (ml_dsa_secret_key idR) (ml_dsa_public_key idR)) :
  exists eI eR, mirrored (idI := idI) (idR := idR) eI eR
    /\ forall a b : Hs,
         rtc (carrier_step (rI := rI) (rR := rR))
           (carrier_start idI idR) (a, b) ->
         (completed_ a = [] \/ completed_ a = [Ok eI]) /\ (completed_ b = [] \/ completed_ b = [Ok eR])
         /\ exists a' b', rtc (carrier_step (rI := rI) (rR := rR)) (a, b) (a', b')
              /\ completed_ a' = [Ok eI] /\ completed_ b' = [Ok eR].
Proof.
  destruct (honest_exists idI idR rI rR HI HR) as [x]. exists (estI x), (estR x). split; [apply honest_mirrored|].
  intros a b Hrun%(carrier_reach_inv x). split; [|split].
  - destruct Hrun as (p & q & wa & wb & Heq & _). assert (a = ini_at x false p wa) as -> by congruence.
    destruct p; [by left..|by right].
  - destruct Hrun as (p & q & wa & wb & Heq & _). assert (b = resp_at x false q wb) as -> by congruence.
    destruct q; by first [left; reflexivity|right; reflexivity].
  - destruct (carrier_completes x _ Hrun) as ([a' b'] & Hr & Hc & Hc'). by exists a', b'.
Qed.
End Theorems.

End Honest.

(** ** Witness, and what a late hello does *)

Section Witness.
#[local] Existing Instance toy_sodium.
#[local] Existing Instance toy_sodium_laws.
#[local] Existing Instance toy_kdf.
#[local] Existing Instance toy_kdf_laws.
#[local] Existing Instance toy_kem.
#[local] Existing Instance toy_kem_laws.
#[local] Existing Instance toy_dsa.
#[local] Existing Instance toy_dsa_laws.

Definition draw_I : Draw := MkDraw [11] [12; 13] [16].
Definition draw_R : Draw := MkDraw [14] [15] [17].

Theorem carrier_handshake_agrees_witness :
  exists eI eR a b, mirrored (idI := toy_identity 3) (idR := toy_identity 4) eI eR
    /\ rtc (carrier_step (rI := draw_I) (rR := draw_R)) (carrier_start (toy_identity 3) (toy_identity 4)) (a, b)
    /\ completed_ a = [Ok eI] /\ completed_ b = [Ok eR].
Proof.
  destruct (carrier_handshake_agrees (toy_identity 3) (toy_identity 4) draw_I draw_R) as (eI & eR & Hm & Hall); [done..|].
  destruct (Hall _ _ (rtc_refl _ _)) as (_ & _ & a & b & Hr & Ha & Hb). exists eI, eR, a, b. split_and!; [exact Hm|exact Hr|exact Ha|exact Hb].
Defined.

(** The messages of [h], in order, given to [k]. *)
Definition message (w : bytes) : Z * bytes :=
  match DecodeMshType w, DecodeMshBody w with Ok t, Ok b => (t, b) | _, _ => (0, []) end.
Definition sent (h : MshAdpHandshake (list bytes)) (n : nat) : Z * bytes := message (nth n (wires_ h) []).
Definition give (h : MshAdpHandshake (list bytes)) (m : Z * bytes) (r : Draw) : MshAdpHandshake (list bytes) :=
  (HandleMsh h m.1 m.2 r).1.

(** A repeat of the hello that arrives after the payload, then a repeat of the
    payload: the responder takes the payload again, as new, and its transcript
    no longer is the initiator's. *)
Definition late_hello : MshAdpHandshake (list bytes) * MshAdpHandshake (list bytes) :=
  let '(a, b) := carrier_start (toy_identity 3) (toy_identity 4) in
  let a := (Start a draw_I).1 in                 (* hello *)
  let b := give b (sent a 0) draw_R in           (* taken; server hello *)
  let a := give a (sent b 0) draw_I in           (* payload *)
  let b := give b (sent a 1) draw_R in           (* taken; server payload *)
  let b := give b (sent a 0) draw_R in           (* the hello again, late *)
  let b := give b (sent a 1) draw_R in           (* the payload again *)
  let a := give a (sent b 1) draw_I in           (* the first server payload; finished *)
  let b := give b (sent a 2) draw_R in           (* refused *)
  (a, b).

Theorem late_hello_breaks_handshake :
  completed_ late_hello.2 = [Fail (Err_ "amp msh: finished mismatch")] /\ completed_ late_hello.1 = [].
Proof. vm_compute. split; reflexivity. Qed.

End Witness.
