(* ===== verification/AdpMultiaddr.v ===== *)
(** * Addresses (src/link/AdpMultiaddr.cpp, src/link/PeerId.cpp, include/amp/link/AdpMultiaddr.h)

    The multiaddrs of peers: parsing, formatting, and the peer id read off one.
    A [std::string_view] is a string.  The conversions of IPv6 hosts are those of
    the C library, parameters of the section, like the peer id of a key, which
    the parent library computes. *)

From Stdlib Require Import Ascii.
From stdpp Require Import pretty.
From S2P Require Import Prelude L1Types.

#[local] Open Scope string_scope.
#[local] Open Scope Z_scope.

(** ** What is used of the standard library *)

(** [std::from_chars] up to the first character that is no digit: the value and
    the rest, none for no digit or a value out of range. *)
Definition digit (c : ascii) : option Z :=
  let n := Z.of_N (N_of_ascii c) in if (48 <=? n) && (n <=? 57) then Some (n - 48) else None.
Fixpoint read_digits (acc : Z) (s : string) : Z * string :=
  match s with
  | String c rest => match digit c with Some d => read_digits (10 * acc + d) rest | None => (acc, s) end
  | EmptyString => (acc, s)
  end.
Definition from_chars_unsigned (max : Z) (s : string) : option (Z * string) :=
  match s with
  | String c _ =>
      match digit c with
      | Some _ => let '(v, rest) := read_digits 0 s in if max <? v then None else Some (v, rest)
      | None => None
      end
  | EmptyString => None
  end.
Definition from_chars_int (s : string) : option (Z * string) :=
  match s with
  | String "-" rest => '(v, rest) ← from_chars_unsigned (2 ^ 31) rest; Some (- v, rest)
  | _ => from_chars_unsigned (2 ^ 31 - 1) s
  end.

(** A [c_str()]: what comes before the first NUL. *)
Fixpoint c_str (s : string) : string :=
  match s with
  | String c rest => if Ascii.eqb c Ascii.zero then "" else String c (c_str rest)
  | EmptyString => ""
  end.
Fixpoint has_char (d : ascii) (s : string) : bool :=
  match s with
  | String c rest => Ascii.eqb c d || has_char d rest
  | EmptyString => false
  end.
(** What follows the last occurrence of [marker], [rfind] and [substr]. *)
Fixpoint after_last (marker s : string) : option string :=
  match s with
  | String _ rest =>
      match after_last marker rest with
      | Some found => Some found
      | None => if String.prefix marker s
                then Some (String.substring (String.length marker) (String.length s) s) else None
      end
  | EmptyString => None
  end.
Fixpoint until_char (d : ascii) (s : string) : string :=
  match s with
  | String c rest => if Ascii.eqb c d then "" else String c (until_char d rest)
  | EmptyString => ""
  end.

(** ** Addresses *)

Definition kAdpMultiaddrProtocol : string := "adp".
Definition kAdpMultiaddrLegacyVersion : string := "1.0.0".

Inductive HostFamily := HostAny | HostV4 | HostV6.
#[export] Instance HostFamily_eq_dec : EqDecision HostFamily.
Proof. solve_decision. Defined.

Record ParsedAdpMultiaddr := MkParsedAdpMultiaddr {
  pa_endpoint : IpEndpoint;
  pa_peer_id : string;
  pa_hostname : string;
  pa_host_family : HostFamily;
  pa_amp_wire : Z;
}.
Definition IsHostname (p : ParsedAdpMultiaddr) : bool := negb (bool_decide (pa_hostname p = "")).

Fixpoint Split (text : string) (delim : ascii) : list string :=
  match text with
  | EmptyString => [""]
  | String c rest =>
      if Ascii.eqb c delim then "" :: Split rest delim
      else match Split rest delim with
           | part :: parts => String c part :: parts
           | [] => [String c ""]
           end
  end.

Definition ParsePort (text : string) : Roe Z :=
  match from_chars_unsigned (2 ^ 16 - 1) text with
  | Some (port, rest) =>
      if bool_decide (rest <> "") || (port =? 0) then Fail (Err_ "amp addr: bad udp port") else Ok port
  | None => Fail (Err_ "amp addr: bad udp port")
  end.

Definition parse_octet (text : string) : Roe Z :=
  match from_chars_unsigned (2 ^ 32 - 1) text with
  | Some (value, rest) =>
      if bool_decide (rest <> "") || (255 <? value) then Fail (Err_ "amp addr: bad ipv4 octet") else Ok value
  | None => Fail (Err_ "amp addr: bad ipv4 octet")
  end.

Definition ParseIp4HostPort (host port_text : string) : Roe IpEndpoint :=
  match Split host "." with
  | [p0; p1; p2; p3] =>
      a ← parse_octet p0; b ← parse_octet p1; c ← parse_octet p2; d ← parse_octet p3;
      port ← ParsePort port_text;
      Ok (MkIpEndpoint V4 ([a; b; c; d] ++ zeros 12) port 0)
  | _ => Fail (Err_ "amp addr: bad ipv4 host")
  end.

(** [inet_pton] and [inet_ntop] of [AF_INET6]. *)
Class Inet6 := {
  inet_pton6 : string -> option bytes;
  inet_ntop6 : bytes -> option string;
}.
(** The text of an address is of hexadecimal digits, colons and dots, and reads
    back. *)
Definition ip6_char (c : ascii) : bool :=
  bool_decide (is_Some (digit c)) || (97 <=? Z.of_N (N_of_ascii c)) && (Z.of_N (N_of_ascii c) <=? 102)
  || Ascii.eqb c ":" || Ascii.eqb c ".".
Fixpoint all_chars (p : ascii -> bool) (s : string) : bool :=
  match s with String c rest => p c && all_chars p rest | EmptyString => true end.
Class Inet6Laws `{Inet6} := {
  inet6_format a : length a = 16%nat -> bytes_ok a ->
    exists s, inet_ntop6 a = Some s /\ inet_pton6 s = Some a /\ all_chars ip6_char s = true /\ s <> "";
}.

(** The peer id of an identity key, of the parent library: none for a bad key. *)
Class PeerIds := { PeerIdFromMlDsaPublicKey : bytes -> option string }.

Section AdpMultiaddr.
Context `{Inet6} `{PeerIds}.

(** The host without its brackets. *)
Definition unbracket (host : string) : string :=
  let n := String.length host in
  if (2 <=? n)%nat && String.prefix "[" host && bool_decide (String.get (n - 1) host = Some "]"%char)
  then String.substring 1 (n - 2) host else host.

Definition ParseIp6HostPort (host port_text : string) : Roe IpEndpoint :=
  let host_str := unbracket host in
  if has_char "%" host_str then Fail (Err_ "amp addr: ipv6 zone id unsupported")
  else
    match inet_pton6 (c_str host_str) with
    | None => Fail (Err_ "amp addr: bad ipv6 host")
    | Some addr => port ← ParsePort port_text; Ok (MkIpEndpoint V6 addr port 0)
    end.

Definition dns_char (c : ascii) : bool :=
  let n := Z.of_N (N_of_ascii c) in
  ((97 <=? n) && (n <=? 122)) || ((65 <=? n) && (n <=? 90)) || ((48 <=? n) && (n <=? 57)) || Ascii.eqb c "-".
Definition dns_label (label : string) : bool :=
  negb (bool_decide (label = "") || (63 <? String.length label)%nat || String.prefix "-" label
        || bool_decide (String.get (String.length label - 1) label = Some "-"%char))
  && all_chars dns_char label.
Definition IsDnsName (host : string) : bool :=
  negb (bool_decide (host = "") || (253 <? String.length host)%nat) && forallb dns_label (Split host ".").

Definition FormatIp6Host (endpoint : IpEndpoint) : Roe string :=
  match inet_ntop6 (addr endpoint) with
  | Some s => Ok s
  | None => Fail (Err_ "amp addr: ipv6 format failed")
  end.

(** The component that says the wire version: 0 for the legacy one. *)
Definition parse_wire (text : string) : Roe Z :=
  if bool_decide (text = kAdpMultiaddrLegacyVersion) then Ok 0
  else
    match from_chars_int text with
    | Some (amp_wire, rest) =>
        if bool_decide (rest <> "") || (amp_wire <=? 0) || (kVersionNegotiationNibble <=? amp_wire)
        then Fail (Err_ "amp addr: unsupported multiaddr layout")
        else if negb (amp_wire =? kWireVersion)
        then Fail (Err_ ("amp addr: wire v" ++ pretty amp_wire ++ ", not ours"))
        else Ok amp_wire
    | None => Fail (Err_ "amp addr: unsupported multiaddr layout")
    end.

Definition ParseAdpMultiaddr (multiaddr : string) : Roe ParsedAdpMultiaddr :=
  match multiaddr with
  | String slash rest =>
      if negb (Ascii.eqb slash "/") then Fail (Err_ "amp addr: expected leading slash")
      else match Split rest "/" with
      | [p0; p1; p2; p3; p4; p5; p6; p7] =>
          let dns := bool_decide (p0 = "dns") || bool_decide (p0 = "dns4") || bool_decide (p0 = "dns6") in
          if (bool_decide (p0 <> "ip4") && bool_decide (p0 <> "ip6") && negb dns) || bool_decide (p2 <> "udp")
             || bool_decide (p4 <> kAdpMultiaddrProtocol) || bool_decide (p6 <> "p2p")
          then Fail (Err_ "amp addr: unsupported multiaddr layout")
          else
            amp_wire ← parse_wire p5;
            if bool_decide (p7 = "") then Fail (Err_ "amp addr: missing peer id")
            else if dns then
              if negb (IsDnsName p1) then Fail (Err_ "amp addr: bad hostname")
              else
                port ← ParsePort p3;
                let host_family := if bool_decide (p0 = "dns4") then HostV4
                                   else if bool_decide (p0 = "dns6") then HostV6 else HostAny in
                Ok (MkParsedAdpMultiaddr (MkIpEndpoint V4 (zeros 16) port 0) p7 p1 host_family amp_wire)
            else
              endpoint ← (if bool_decide (p0 = "ip4") then ParseIp4HostPort p1 p3 else ParseIp6HostPort p1 p3);
              Ok (MkParsedAdpMultiaddr endpoint p7 "" HostAny amp_wire)
      | _ => Fail (Err_ "amp addr: expected 8 components")
      end
  | EmptyString => Fail (Err_ "amp addr: expected leading slash")
  end.

Definition AdpMultiaddrVersionToken : string := pretty kWireVersion.
Definition AdpUdpSegment (port : Z) : string :=
  ("/udp/" ++ pretty port ++ "/" ++ kAdpMultiaddrProtocol ++ "/" ++ AdpMultiaddrVersionToken)%string.

Definition FormatAdpMultiaddr (endpoint : IpEndpoint) (peer_id : string) : Roe string :=
  if bool_decide (peer_id = "") then Fail (Err_ "amp addr: missing peer id")
  else
    let octet i := pretty (at_ (addr endpoint) i) in
    host ← match family endpoint with
           | V4 => Ok ("/ip4/" ++ octet 0%nat ++ "." ++ octet 1%nat ++ "." ++ octet 2%nat ++ "." ++ octet 3%nat)%string
           | V6 => host ← FormatIp6Host endpoint; Ok ("/ip6/" ++ host)%string
           end;
    Ok (host ++ AdpUdpSegment (port endpoint) ++ "/p2p/" ++ peer_id)%string.

(** ** Peer ids *)

Definition PeerIdFromIdentityKey (identity_public_key : bytes) : string :=
  default "" (PeerIdFromMlDsaPublicKey identity_public_key).
Definition PeerIdFromMultiaddr (multiaddr : string) : string :=
  match after_last "/p2p/" multiaddr with
  | None => ""
  | Some id => until_char "/" id
  end.

End AdpMultiaddr.

(** ** Strings *)

Lemma app_cons c (a b : string) : (String c a ++ b = String c (a ++ b))%string.
Proof. done. Qed.
Lemma str_app_assoc (a b c : string) : (a ++ (b ++ c) = (a ++ b) ++ c)%string.
Proof. induction a as [|x a IH]; [done|]. change (String x (a ++ (b ++ c)) = String x ((a ++ b) ++ c))%string. by rewrite IH. Qed.
Lemma str_app_nil (a : string) : (a ++ "" = a)%string.
Proof. induction a as [|x a IH]; [done|]. change (String x (a ++ "") = String x a)%string. by rewrite IH. Qed.

Lemma has_char_app d a b : has_char d (a ++ b) = has_char d a || has_char d b.
Proof. induction a as [|c a IH]; [done|]. rewrite app_cons. cbn [has_char]. by rewrite IH, orb_assoc. Qed.
Lemma all_chars_has p c s : all_chars p s = true -> p c = false -> has_char c s = false.
Proof.
  intros Hs Hc. induction s as [|x s IH]; cbn in *; [done|]. apply andb_true_iff in Hs as [Hx Hs]. rewrite IH by done.
  destruct (Ascii.eqb_spec x c); [congruence|done].
Qed.

Lemma Split_none d a : has_char d a = false -> Split a d = [a].
Proof.
  induction a as [|c a IH]; cbn; [done|]. intros [Hc Ha]%orb_false_iff. rewrite Hc. by rewrite IH.
Qed.
Lemma Split_app d a b : has_char d a = false -> Split (a ++ String d b) d = a :: Split b d.
Proof.
  induction a as [|c a IH]; [intros _; change (Split (String d b) d = "" :: Split b d); cbn [Split]; by rewrite Ascii.eqb_refl|]. cbn [has_char]. intros [Hc Ha]%orb_false_iff.
  rewrite app_cons. cbn [Split]. rewrite Hc. by rewrite IH.
Qed.
Lemma Split_sep d a b : has_char d a = false -> Split (a ++ String d "" ++ b) d = a :: Split b d.
Proof. apply Split_app. Qed.

Fixpoint join (d : ascii) (parts : list string) : string :=
  match parts with
  | [] => ""
  | [part] => part
  | part :: parts => part ++ String d (join d parts)
  end.
Lemma Split_cons s d : exists part parts, Split s d = part :: parts.
Proof. destruct s as [|c s]; cbn; [by eauto|]. destruct (Ascii.eqb c d); [by eauto|]. destruct (Split s d); eauto. Qed.
(** The parts are the text, cut at every delimiter. *)
Lemma Split_join s d : join d (Split s d) = s /\ Forall (fun part => has_char d part = false) (Split s d).
Proof.
  induction s as [|c s [IH1 IH2]]; [by repeat constructor|]. cbn [Split]. destruct (Split_cons s d) as (part & parts & Hs). rewrite Hs in *.
  destruct (Ascii.eqb_spec c d) as [->|Hne].
  - split; [|by constructor]. change (String d (join d (part :: parts)) = String d s). by rewrite IH1.
  - inversion IH2 as [|? ? Hp Hps]; subst. split.
    + by destruct parts.
    + constructor; [|done]. cbn. rewrite Hp. by destruct (Ascii.eqb_spec c d).
Qed.

(** *** Decimals *)

Definition is_digit (c : ascii) : bool := bool_decide (is_Some (digit c)).

Lemma digit_char x : (x < 10)%N -> digit (pretty_N_char x) = Some (Z.of_N x).
Proof.
  intros Hx. assert (x = 0 \/ x = 1 \/ x = 2 \/ x = 3 \/ x = 4 \/ x = 5 \/ x = 6 \/ x = 7 \/ x = 8 \/ x = 9)%N as Hc by lia.
  by destruct Hc as [->|[->|[->|[->|[->|[->|[->|[->|[->| ->]]]]]]]]].
Qed.
Lemma read_pretty_go x s :
  read_digits 0 (pretty_N_go x s) = read_digits (Z.of_N x) s
  /\ (all_chars is_digit s = true -> all_chars is_digit (pretty_N_go x s) = true)
  /\ ((0 < x)%N -> exists c s', pretty_N_go x s = String c s' /\ is_Some (digit c)).
Proof.
  revert s. induction (N.lt_wf_0 x) as [x _ IH]; intros s. destruct (decide (x = 0)%N) as [->|Hx].
  - rewrite pretty_N_go_0. split_and!; [done|done|lia].
  - rewrite pretty_N_go_step by lia. pose proof (digit_char (x `mod` 10) ltac:(apply N.mod_lt; lia)) as Hd.
    destruct (IH (x / 10)%N ltac:(apply N.div_lt; lia) (String (pretty_N_char (x `mod` 10)) s)) as (I1 & I2 & I3). split_and!.
    + rewrite I1. cbn [read_digits]. rewrite Hd. f_equal. rewrite N2Z.inj_div, N2Z.inj_mod. cbn [Z.of_N].
      pose proof (Z.div_mod (Z.of_N x) 10). lia.
    + intros Hs. apply I2. cbn [all_chars]. rewrite Hs. unfold is_digit. rewrite Hd. by rewrite bool_decide_true.
    + intros _. destruct (decide (N.div x 10 = 0)%N) as [Hq|Hq]; [rewrite Hq, pretty_N_go_0; eauto|]. apply I3. by apply N.neq_0_lt_0.
Qed.

Lemma pretty_reads n : 0 <= n ->
  read_digits 0 (pretty n) = (n, "") /\ all_chars is_digit (pretty n) = true
  /\ exists c s, (pretty n : string) = String c s /\ is_Some (digit c).
Proof.
  intros Hn. destruct n as [|p|p]; [split_and!; [done|done|]| |lia].
  { exists "0"%char, ""%string. split; [done|by exists 0]. }
  change (pretty (Z.pos p) : string) with (pretty_N_go (N.pos p) "").
  destruct (read_pretty_go (N.pos p) "") as (I1 & I2 & I3). split_and!; [done|by apply I2|apply I3; lia].
Qed.

Lemma from_chars_pretty max n : 0 <= n <= max -> from_chars_unsigned max (pretty n) = Some (n, "").
Proof.
  intros Hn. destruct (pretty_reads n ltac:(lia)) as (Hr & _ & c & s & Hs & [v Hv]). rewrite Hs in *.
  unfold from_chars_unsigned. rewrite Hv, Hr. by rewrite (proj2 (Z.ltb_ge _ _)) by lia.
Qed.
Lemma pretty_no_char c n : 0 <= n -> is_digit c = false -> has_char c (pretty n) = false.
Proof. intros Hn Hc. destruct (pretty_reads n Hn) as (_ & Hd & _). by apply (all_chars_has is_digit). Qed.

Lemma parse_octet_pretty n : is_u8 n -> parse_octet (pretty n) = Ok n.
Proof.
  unfold is_u8. intros Hn. unfold parse_octet. rewrite from_chars_pretty by lia. rewrite bool_decide_false by (by intros ?).
  by rewrite (proj2 (Z.ltb_ge _ _)) by lia.
Qed.
Lemma ParsePort_pretty n : 0 < n < 2 ^ 16 -> ParsePort (pretty n) = Ok n.
Proof.
  intros Hn. unfold ParsePort. rewrite from_chars_pretty by lia. rewrite bool_decide_false by (by intros ?).
  by rewrite (proj2 (Z.eqb_neq _ _)) by lia.
Qed.

(** *** The last occurrence of the marker *)

Lemma prefix_head x m c s : c <> x -> String.prefix (String x m) (String c s) = false.
Proof. intros Hne. cbn [String.prefix]. by destruct (Ascii.ascii_dec x c). Qed.
Lemma after_last_none id : has_char "/" id = false -> after_last "/p2p/" id = None.
Proof.
  induction id as [|c id IH]; [done|]. cbn [has_char after_last]. intros [Hc Hid]%orb_false_iff. rewrite IH by done.
  rewrite prefix_head; [done|]. by apply Ascii.eqb_neq.
Qed.
Lemma after_last_app a s found : after_last "/p2p/" s = Some found -> after_last "/p2p/" (a ++ s) = Some found.
Proof. intros Hs. induction a as [|c a IH]; [done|]. rewrite app_cons. cbn [after_last]. by rewrite IH. Qed.
Lemma substring_all s m : (String.length s <= m)%nat -> String.substring 0 m s = s.
Proof.
  revert m. induction s as [|c s IH]; intros [|m]; cbn [String.substring String.length]; [done..|lia|]. intros Hm. rewrite IH; [done|lia].
Qed.
Lemma prefix_no_slash m d id : has_char d id = false -> String.prefix (m ++ String d "") id = false.
Proof.
  revert id. induction m as [|x m IH]; intros [|y id]; [done| |done|]; cbn [has_char]; intros [Hy Hid]%orb_false_iff.
  - apply prefix_head. by apply Ascii.eqb_neq.
  - rewrite app_cons. cbn [String.prefix]. destruct (Ascii.ascii_dec x y); [by apply IH|done].
Qed.
Lemma after_last_marker a id : has_char "/" id = false -> after_last "/p2p/" (a ++ "/p2p/" ++ id) = Some id.
Proof.
  intros Hid. apply after_last_app.
  change (after_last "/p2p/" (String "/" (String "p" (String "2" (String "p" (String "/" id))))) = Some id).
  cbn [after_last]. rewrite (after_last_none id Hid).
  replace (String.prefix "/p2p/" (String "/" id)) with false.
  - rewrite !(prefix_head "/" "p2p/") by done.
    replace (String.prefix "/p2p/" (String "/" (String "p" (String "2" (String "p" (String "/" id)))))) with true.
    + f_equal. change (String.substring 0 (5 + String.length id) id = id). rewrite substring_all; [done|lia].
    + symmetry. by destruct id.
  - symmetry. cbn [String.prefix]. destruct (Ascii.ascii_dec "/" "/"); [|done]. apply (prefix_no_slash "p2p" "/" id Hid).
Qed.
Lemma until_char_none d s : has_char d s = false -> until_char d s = s.
Proof. induction s as [|c s IH]; cbn; [done|]. intros [Hc Hs]%orb_false_iff. rewrite Hc. by rewrite IH. Qed.

(** ** Theorems *)

Lemma read_digits_nonneg acc s : 0 <= acc -> 0 <= (read_digits acc s).1.
Proof.
  revert acc. induction s as [|c s IH]; intros acc Hacc; cbn [read_digits]; [done|]. unfold digit.
  destruct (_ && _) eqn:Hd; [|done]. apply andb_true_iff in Hd as [?%Z.leb_le _]. apply IH. lia.
Qed.
Lemma ParsePort_range s p : ParsePort s = Ok p -> 0 < p < 2 ^ 16.
Proof.
  unfold ParsePort, from_chars_unsigned. destruct s as [|c s]; [done|]. destruct (digit c); [|done].
  pose proof (read_digits_nonneg 0 (String c s) ltac:(lia)) as Hn. destruct (read_digits 0 (String c s)) as [v rest].
  cbn [fst] in Hn. destruct (Z.ltb_spec (2 ^ 16 - 1) v); [done|]. destruct (_ || _) eqn:Hb; [done|].
  apply orb_false_iff in Hb as [_ Hz%Z.eqb_neq]. intros <-%Ok_inj. lia.
Qed.

Section Theorems.
Context `{Inet6} `{PeerIds}.

(** An address names a peer. *)
Lemma parse_names_peer s p : ParseAdpMultiaddr s = Ok p -> pa_peer_id p <> "".
Proof.
  unfold ParseAdpMultiaddr. destruct s as [|slash rest]; [done|]. destruct (negb _); [done|].
  destruct (Split rest "/") as [|p0 [|p1 [|p2 [|p3 [|p4 [|p5 [|p6 [|p7 [|]]]]]]]]]; try done.
  cbv zeta. destruct (_ || _); [done|]. destruct (parse_wire p5); [|done]. cbn [mbind result_bind]. case_bool_decide as Hp7; [done|].
  destruct (_ || bool_decide (p0 = "dns6")).
  - destruct (negb _); [done|]. destruct (ParsePort p3); [|done]. by intros <-%Ok_inj.
  - destruct (if bool_decide (p0 = "ip4") then _ else _); [|done]. by intros <-%Ok_inj.
Qed.

(** An endpoint an address can say: four or sixteen bytes, a port, no scope. *)
Definition sayable (e : IpEndpoint) : Prop :=
  0 < port e < 2 ^ 16 /\ scope_id e = 0 /\ bytes_ok (addr e) /\ length (addr e) = 16%nat
  /\ (family e = V4 -> drop 4 (addr e) = zeros 12).

Lemma parse_ip4 e : sayable e -> family e = V4 ->
  ParseIp4HostPort (pretty (at_ (addr e) 0) ++ "." ++ pretty (at_ (addr e) 1) ++ "." ++ pretty (at_ (addr e) 2)
                    ++ "." ++ pretty (at_ (addr e) 3)) (pretty (port e)) = Ok e.
Proof.
  intros (Hp & Hs & Hok & Hlen & Hz) Hf. specialize (Hz Hf). destruct e as [f a p sc]. cbn in *. subst f sc.
  destruct a as [|b0 [|b1 [|b2 [|b3 rest]]]]; try discriminate Hlen. change (rest = zeros 12) in Hz. rewrite Hz in *. clear Hz Hlen.
  inversion Hok as [|? ? B0 O1]; inversion O1 as [|? ? B1 O2]; inversion O2 as [|? ? B2 O3]; inversion O3 as [|? ? B3 _]; subst.
  cbn [at_ nth]. unfold is_u8 in *. unfold ParseIp4HostPort.
  assert (Hdot : forall n, 0 <= n -> has_char "." (pretty n) = false) by (intros; by apply pretty_no_char).
  rewrite (Split_sep "." (pretty b0)) by (apply Hdot; lia). rewrite (Split_sep "." (pretty b1)) by (apply Hdot; lia).
  rewrite (Split_sep "." (pretty b2)) by (apply Hdot; lia). rewrite (Split_none "." (pretty b3)) by (apply Hdot; lia).
  rewrite !parse_octet_pretty by done. cbn [mbind result_bind]. by rewrite ParsePort_pretty.
Qed.

Lemma c_str_all s : all_chars ip6_char s = true -> c_str s = s.
Proof.
  induction s as [|c s IH]; [done|]. cbn [all_chars c_str]. intros [Hc Hs]%andb_true_iff.
  destruct (Ascii.eqb_spec c Ascii.zero) as [->|_]; [done|]. by rewrite IH.
Qed.
Lemma unbracket_all s : all_chars ip6_char s = true -> unbracket s = s.
Proof.
  intros Hs. unfold unbracket. cbv zeta. destruct s as [|c s]; [by rewrite andb_false_r|].
  cbn [all_chars] in Hs. apply andb_true_iff in Hs as [Hc _]. rewrite (prefix_head "[" ""); [by rewrite andb_false_r|].
  by intros ->.
Qed.

Lemma parse_ip6 `{!Inet6Laws} e : sayable e -> family e = V6 ->
  exists host, inet_ntop6 (addr e) = Some host /\ has_char "/" host = false
    /\ ParseIp6HostPort host (pretty (port e)) = Ok e.
Proof.
  intros (Hp & Hs & Hok & Hlen & _) Hf. destruct (inet6_format (addr e) Hlen Hok) as (host & Hn & Hpt & Hall & _).
  exists host. split; [done|]. split; [by apply (all_chars_has ip6_char)|]. unfold ParseIp6HostPort. cbv zeta.
  rewrite unbracket_all by done. rewrite (all_chars_has ip6_char) by done. rewrite c_str_all by done. rewrite Hpt.
  rewrite ParsePort_pretty by done. cbn [mbind result_bind]. destruct e. cbn in *. by subst.
Qed.

(** The eight components of an address, read. *)
Lemma parse_components p0 host port id e : has_char "/" host = false -> has_char "/" id = false -> id <> "" ->
  0 < port -> p0 = "ip4" /\ ParseIp4HostPort host (pretty port) = Ok e \/ p0 = "ip6" /\ ParseIp6HostPort host (pretty port) = Ok e ->
  ParseAdpMultiaddr ("/" ++ p0 ++ "/" ++ host ++ "/udp/" ++ pretty port ++ "/adp/2/p2p/" ++ id)
  = Ok (MkParsedAdpMultiaddr e id "" HostAny kWireVersion).
Proof.
  intros Hh Hid Hne Hport Hp0.
  change ("/" ++ p0 ++ "/" ++ host ++ "/udp/" ++ pretty port ++ "/adp/2/p2p/" ++ id)%string
    with (String "/" (p0 ++ String "/" "" ++ host ++ String "/" "" ++ "udp" ++ String "/" "" ++ pretty port ++ String "/" ""
            ++ "adp" ++ String "/" "" ++ "2" ++ String "/" "" ++ "p2p" ++ String "/" "" ++ id)).
  cbn [ParseAdpMultiaddr]. rewrite Ascii.eqb_refl. cbn [negb]. rewrite Split_sep by (by destruct Hp0 as [[-> _]|[-> _]]). rewrite Split_sep by done.
  rewrite Split_sep by done. rewrite Split_sep by (apply pretty_no_char; [lia|done]). rewrite !Split_sep by done. rewrite Split_none by done.
  change (parse_wire "2") with (Ok 2 : Roe Z). cbn [mbind result_bind].
  rewrite (bool_decide_false (id = "")) by done. by destruct Hp0 as [[-> ->]|[-> ->]].
Qed.

(** C40: addresses round-trip.  An endpoint an address can say and a peer id without
    a slash format to an address, which parses to the very same, of this build's
    wire version, and which gives the same peer id read by itself.  And whatever
    address parses has a port, a peer id which is the one read off it, this build's
    wire version or none, and if it has a hostname, a proper one. *)
Theorem multiaddr_roundtrip `{!Inet6Laws} (e : IpEndpoint) (id s : string) (p : ParsedAdpMultiaddr) :
  (sayable e -> id <> "" -> has_char "/" id = false ->
   exists text, FormatAdpMultiaddr e id = Ok text
     /\ ParseAdpMultiaddr text = Ok (MkParsedAdpMultiaddr e id "" HostAny kWireVersion)
     /\ PeerIdFromMultiaddr text = id)
  /\ (ParseAdpMultiaddr s = Ok p ->
      PeerIdFromMultiaddr s = pa_peer_id p /\ pa_peer_id p <> "" /\ 0 < port (pa_endpoint p) < 2 ^ 16
      /\ (pa_amp_wire p = 0 \/ pa_amp_wire p = kWireVersion) /\ (IsHostname p = true -> IsDnsName (pa_hostname p) = true)).
Proof.
  split.
  - intros He Hne Hid. unfold FormatAdpMultiaddr. rewrite bool_decide_false by done. cbv zeta.
    assert (Htext : forall p0 host, has_char "/" host = false ->
      p0 = "ip4" /\ ParseIp4HostPort host (pretty (port e)) = Ok e \/ p0 = "ip6" /\ ParseIp6HostPort host (pretty (port e)) = Ok e ->
      let text := (("/" ++ p0 ++ "/" ++ host) ++ AdpUdpSegment (port e) ++ "/p2p/" ++ id)%string in
      ParseAdpMultiaddr text = Ok (MkParsedAdpMultiaddr e id "" HostAny kWireVersion) /\ PeerIdFromMultiaddr text = id).
    { intros p0 host Hh Hp0. cbv zeta. split.
      - rewrite <- (parse_components p0 host (port e) id e); [|done..|by apply He|done]. f_equal.
        unfold AdpUdpSegment. by rewrite <- !str_app_assoc.
      - unfold PeerIdFromMultiaddr. rewrite str_app_assoc, after_last_marker by done. by apply until_char_none. }
    destruct (family e) eqn:Hf; cbn [mbind result_bind].
    + eexists. split; [done|]. apply (Htext "ip4"); [|left; split; [done|by apply parse_ip4]].
      destruct He as (_ & _ & Hok & _). assert (Ho : forall i, has_char "/" (pretty (at_ (addr e) i)) = false).
      { intros i. apply pretty_no_char; [apply (at_range _ i Hok)|done]. }
      by rewrite !has_char_app, !Ho.
    + destruct (parse_ip6 e He Hf) as (host & Hn & Hh & Hp). unfold FormatIp6Host. rewrite Hn. cbn [mbind result_bind].
      eexists. split; [done|]. apply (Htext "ip6"); [done|by right].
  - unfold ParseAdpMultiaddr. destruct s as [|slash rest]; [done|]. destruct (Ascii.eqb_spec slash "/") as [->|]; [|done]. cbn [negb].
    destruct (Split_join rest "/") as [Hj Hparts]. destruct (Split rest "/") as [|p0 [|p1 [|p2 [|p3 [|p4 [|p5 [|p6 [|p7 [|]]]]]]]]]; try done.
    cbv zeta. destruct (_ || _) eqn:Hlay; [done|]. apply orb_false_iff in Hlay as [_ Hp6%bool_decide_eq_false%dec_stable]. subst p6.
    destruct (parse_wire p5) as [wire|] eqn:Hwire; [|done]. cbn [mbind result_bind]. case_bool_decide as Hp7; [done|].
    assert (Hid : PeerIdFromMultiaddr (String "/" rest) = p7).
    { assert (Hno : has_char "/" p7 = false) by (rewrite !Forall_cons in Hparts; tauto).
      rewrite <- Hj. cbn [join]. unfold PeerIdFromMultiaddr.
      match goal with |- context [after_last _ ?text] =>
        replace text with (("/" ++ p0 ++ "/" ++ p1 ++ "/" ++ p2 ++ "/" ++ p3 ++ "/" ++ p4 ++ "/" ++ p5) ++ "/p2p/" ++ p7)%string
          by (by rewrite <- !str_app_assoc) end.
      rewrite after_last_marker by done. by apply until_char_none. }
    assert (Hw : wire = 0 \/ wire = kWireVersion).
    { unfold parse_wire in Hwire. case_bool_decide; [by left; apply Ok_inj in Hwire|right].
      destruct (from_chars_int p5) as [[v r]|]; [|done]. destruct (_ || _); [done|].
      destruct (Z.eqb_spec v kWireVersion); [|done]. by apply Ok_inj in Hwire as <-. }
    rewrite Hid. destruct (_ || bool_decide (p0 = "dns6")).
    + destruct (IsDnsName p1) eqn:Hdns; [|done]. cbn [negb]. destruct (ParsePort p3) as [q|] eqn:Hq; [|done]. cbn [mbind result_bind].
      intros <-%Ok_inj. split_and!; try done; apply (ParsePort_range _ _ Hq).
    + assert (Hep : forall e', (if bool_decide (p0 = "ip4") then ParseIp4HostPort p1 p3 else ParseIp6HostPort p1 p3) = Ok e' -> 0 < port e' < 2 ^ 16).
      { intros e'. case_bool_decide.
        - unfold ParseIp4HostPort. destruct (Split p1 ".") as [|q0 [|q1 [|q2 [|q3 [|]]]]]; try done.
          destruct (parse_octet q0), (parse_octet q1), (parse_octet q2), (parse_octet q3); try done. cbn [mbind result_bind].
          destruct (ParsePort p3) as [q|] eqn:Hq; [|done]. intros <-%Ok_inj. apply (ParsePort_range _ _ Hq).
        - unfold ParseIp6HostPort. cbv zeta. destruct (has_char _ _); [done|]. destruct (inet_pton6 _); [|done].
          destruct (ParsePort p3) as [q|] eqn:Hq; [|done]. intros <-%Ok_inj. apply (ParsePort_range _ _ Hq). }
      destruct (if bool_decide _ then _ else _) as [e'|]; [|done]. cbn [mbind result_bind].
      intros <-%Ok_inj. specialize (Hep e' eq_refl). split_and!; try done; apply Hep.
Qed.
End Theorems.

(** ** Witness: IPv6 hosts as 32 hexadecimal digits *)

Definition toy_hex (n : Z) : ascii := default "0"%char (String.get (Z.to_nat n) "0123456789abcdef").
Fixpoint toy_ntop (a : bytes) : string :=
  match a with
  | [] => ""
  | b :: a => String (toy_hex (b / 16)) (String (toy_hex (b mod 16)) (toy_ntop a))
  end.
Definition toy_unhex (c : ascii) : Z :=
  let n := Z.of_N (N_of_ascii c) in if n <? 97 then n - 48 else n - 87.
Fixpoint toy_pton (s : string) : bytes :=
  match s with
  | String x (String y s) => 16 * toy_unhex x + toy_unhex y :: toy_pton s
  | _ => []
  end.
Definition toy_inet6 : Inet6 := {| inet_pton6 := fun s => Some (toy_pton s); inet_ntop6 := fun a => Some (toy_ntop a) |}.

Definition toy_hex_ok (b : Z) : bool :=
  (16 * toy_unhex (toy_hex (b / 16)) + toy_unhex (toy_hex (b mod 16)) =? b)
  && ip6_char (toy_hex (b / 16)) && ip6_char (toy_hex (b mod 16)).
Lemma toy_hex_all b : is_u8 b -> toy_hex_ok b = true.
Proof.
  unfold is_u8. intros Hb. assert (Hall : forallb toy_hex_ok (map Z.of_nat (List.seq 0 256)) = true) by (vm_compute; reflexivity).
  rewrite forallb_forall in Hall. apply Hall. apply in_map_iff. exists (Z.to_nat b). split; [lia|]. apply in_seq. lia.
Qed.
Lemma toy_inet6_laws : @Inet6Laws toy_inet6.
Proof.
  split. intros a Hlen Hok. exists (toy_ntop a). split; [done|].
  assert (Hall : toy_pton (toy_ntop a) = a /\ all_chars ip6_char (toy_ntop a) = true).
  { clear Hlen. induction Hok as [|b a Hb _ [IH1 IH2]]; [done|]. pose proof (toy_hex_all b Hb) as Hh. unfold toy_hex_ok in Hh.
    apply andb_true_iff in Hh as [[H1%Z.eqb_eq H2]%andb_true_iff H3]. cbn [toy_ntop toy_pton all_chars].
    rewrite H1, IH1, H2, H3, IH2. done. }
  destruct Hall as [H1 H2]. split_and!; [cbn [inet_pton6 toy_inet6]; by rewrite H1|done|]. by destruct a.
Qed.

Section Witness.
#[local] Existing Instance toy_inet6.
#[local] Existing Instance toy_inet6_laws.

Theorem multiaddr_roundtrip_witness :
  ParseAdpMultiaddr "/ip4/10.0.0.7/udp/7777/adp/2/p2p/peer" = Ok (MkParsedAdpMultiaddr (IpEndpoint_V4 10 0 0 7 7777) "peer" "" HostAny 2)
  /\ exists text, FormatAdpMultiaddr (IpEndpoint_V6 (replicate 16 171) 80 0) "peer" = Ok text
       /\ ParseAdpMultiaddr text = Ok (MkParsedAdpMultiaddr (IpEndpoint_V6 (replicate 16 171) 80 0) "peer" "" HostAny kWireVersion)
       /\ PeerIdFromMultiaddr text = "peer"%string.
Proof.
  split; [by vm_compute|].
  apply (multiaddr_roundtrip (IpEndpoint_V6 (replicate 16 171) 80 0) "peer" ""
           (MkParsedAdpMultiaddr IpEndpoint_default "" "" HostAny 0)); [|done|done].
  split_and!; [done|done|done|by repeat constructor|done|done].
Defined.
End Witness.
