(* ===== verification/LinkPolicy.v ===== *)
(** * Link policy (src/link/Types.cpp, PeerLinkConfig.cpp, DualDialElector.cpp, include/amp/link/Types.h, LinkIdentity.h)

    The configuration of links and what its check promises the layers below,
    link identities, and the election between two links to one peer. *)

From Stdlib Require Import Ascii.
From stdpp Require Import pretty.
From S2P Require Import Prelude L1Types Toy Connection ConnectionProps ChannelWire ChannelPolicy ChannelMux.

(** ** Identities *)

(** A [LinkId] is its value; 0 is none. *)
Record LinkHandle := MkLinkHandle {
  lh_id : Z;
  lh_generation : Z;
}.
#[export] Instance LinkHandle_eq_dec : EqDecision LinkHandle.
Proof. solve_decision. Defined.
Definition LinkId_valid (id : Z) : bool := negb (id =? 0).
Definition LinkHandle_valid (h : LinkHandle) : bool := LinkId_valid (lh_id h) && negb (lh_generation h =? 0).

Inductive TransportClass := Adp | Carrier.
#[export] Instance TransportClass_eq_dec : EqDecision TransportClass.
Proof. solve_decision. Defined.

Inductive PeerLinkPhase := Unavailable | Idle | Dialing | Handshaking | Connected | Backoff.
#[export] Instance PeerLinkPhase_eq_dec : EqDecision PeerLinkPhase.
Proof. solve_decision. Defined.

Definition kBurstDialKeyPrefix : string := "amp:burst:".
Definition IsEphemeralDialKey (key : string) : bool := String.prefix kBurstDialKeyPrefix key.

(** [crypto_generichash] of libsodium, without a key: the digest of a size. *)
Class GenericHash := { crypto_generichash : nat -> bytes -> bytes }.
Definition crypto_generichash_BYTES_MIN : nat := 16.

Definition bytes_of_string (s : string) : bytes := map (fun c => Z.of_N (N_of_ascii c)) (String.list_ascii_of_string s).

Definition PreSessionPeerKey `{GenericHash} : PeerKey :=
  crypto_generichash kKeyBytes (bytes_of_string "pp-amp-msh-presession-v1").

Definition PreSessionAssocId : AssocId := <[0%nat := 1]> AssocId_zero.

Definition kHex : string := "0123456789abcdef".
Definition hex_digit (n : Z) : string :=
  match String.get (Z.to_nat n) kHex with Some c => String c "" | None => "" end.
Definition IdentityPublicKeyFingerprint `{GenericHash} (identity_public_key : bytes) : string :=
  match identity_public_key with
  | [] => ""
  | _ =>
      fold_left (fun out byte => (out ++ hex_digit (Z.shiftr byte 4) ++ hex_digit (Z.land byte 15))%string)
        (crypto_generichash crypto_generichash_BYTES_MIN identity_public_key) "id:"
  end.

(** ** Configuration *)

(** Durations in milliseconds. *)
Record PeerLinkConfig := MkPeerLinkConfig {
  max_links : Z;
  max_pending_inbound : Z;
  max_concurrent_dials : Z;
  dial_timeout : Z;
  dial_attempt_timeout : Z;
  dial_failure_backoff : Z;
  dial_failure_backoff_initial : Z;
  host_resolution_ttl : Z;
  keepalive_hot_interval : Z;
  keepalive_warm_interval : Z;
  network_change_grace : Z;
  peer_id_from_identity : option (bytes -> string);
  adp : AdpTuning;
  mux : MuxTuning;
}.
#[export] Instance PeerLinkConfig_fields : Fields PeerLinkConfig := fun c =>
  MkPeerLinkConfig (max_links c) (max_pending_inbound c) (max_concurrent_dials c) (dial_timeout c)
    (dial_attempt_timeout c) (dial_failure_backoff c) (dial_failure_backoff_initial c) (host_resolution_ttl c)
    (keepalive_hot_interval c) (keepalive_warm_interval c) (network_change_grace c) (peer_id_from_identity c)
    (adp c) (mux c).
Definition PeerLinkConfig_default : PeerLinkConfig :=
  MkPeerLinkConfig 48 16 6 8000 800 30000 1000 60000 20000 60000 2000 None AdpTuning_default MuxTuning_default.

Definition ValidatePeerLinkConfig (config : PeerLinkConfig) : Roe unit :=
  let adp := adp config in
  let mux := mux config in
  if tn_reliable_window adp =? 0 then Fail (Err_ "amp config: adp.reliable_window must be > 0")
  else if tn_replay_window adp <? tn_reliable_window adp
  then Fail (Err_ ("amp config: adp.replay_window (" ++ pretty (tn_replay_window adp)
                   ++ ") must be >= adp.reliable_window (" ++ pretty (tn_reliable_window adp) ++ ")"))
  else if (tn_rtx_interval_ms adp <=? 0) || (tn_max_rtx adp <=? 0)
  then Fail (Err_ "amp config: adp.rtx_interval_ms and adp.max_rtx must be > 0")
  else if tn_skew_ms adp <=? 0 then Fail (Err_ "amp config: adp.skew_ms must be > 0")
  else if tn_alive_timeout_ms adp <? 2 * tn_rtx_interval_ms adp
  then Fail (Err_ "amp config: adp.alive_timeout_ms must be >= 2 x adp.rtx_interval_ms")
  else if max_concurrent_channels mux =? 0 then Fail (Err_ "amp config: mux.max_concurrent_channels must be > 0")
  else if max_queued_bytes mux <? kMaxControlJsonFrameBytes
  then Fail (Err_ ("amp config: mux.max_queued_bytes must hold at least one control message ("
                   ++ pretty kMaxControlJsonFrameBytes ++ " bytes)"))
  else if frag_assembly_timeout_ms mux <? tn_rtx_interval_ms adp * tn_max_rtx adp
  then Fail (Err_ "amp config: mux.frag_assembly_timeout_ms must be >= adp.rtx_interval_ms x adp.max_rtx")
  else Ok tt.

(** ** Dual dial

    The election reads of a link its direction and its peer's id, and returns
    which of the two it keeps. *)

Record LinkView := MkLinkView {
  IsOutbound : bool;
  RemotePeerId : string;
}.
Inductive Elected := existing | candidate.

Definition Elect (ex cand : LinkView) (local_peer_id : string) : Elected :=
  let remote := if bool_decide (RemotePeerId ex = "") then RemotePeerId cand else RemotePeerId ex in
  let existing_keep_out := IsOutbound ex && bool_decide (remote <> "") && String.ltb remote local_peer_id in
  let cand_keep_out := IsOutbound cand && bool_decide (remote <> "") && String.ltb remote local_peer_id in
  if cand_keep_out && negb existing_keep_out then candidate
  else if existing_keep_out then existing
  else if IsOutbound ex && negb (IsOutbound cand) then candidate
  else if IsOutbound cand && negb (IsOutbound ex) then existing
  else if negb (IsOutbound ex) && negb (IsOutbound cand) then candidate
  else existing.

(** ** Theorems *)

Lemma string_ltb_total (a b : string) : a <> b -> String.ltb a b = negb (String.ltb b a).
Proof.
  unfold String.ltb. rewrite (String.compare_antisym b a). destruct (String.compare a b) eqn:Hab; simpl; try done.
  by apply String.compare_eq_iff in Hab.
Qed.

(** The end [me] sees a connection to [other] that [dialer] dialed; the dialer
    of the connection it keeps of two. *)
Definition seen_by (me other dialer : string) : LinkView := MkLinkView (bool_decide (dialer = me)) other.
Definition kept_dialer (me other first second : string) : string :=
  match Elect (seen_by me other first) (seen_by me other second) me with
  | existing => first
  | candidate => second
  end.

(** C39: the election between two connections of the same two peers.  One dialed
    by each: both ends keep the one dialed by the larger peer id, in whichever
    order each end came to them.  Both dialed by the same end: that end keeps the
    older, the other end the newer, so each drops the one the other keeps. *)
Theorem dual_dial_agrees (a b : string) (Hab : a <> b) (Ha : a <> ""%string) (Hb : b <> ""%string) :
  let larger := if String.ltb a b then b else a in
  (forall d1 d2, (d1, d2) = (a, b) \/ (d1, d2) = (b, a) ->
     kept_dialer a b d1 d2 = larger /\ kept_dialer b a d1 d2 = larger)
  /\ Elect (seen_by a b a) (seen_by a b a) a = existing
  /\ Elect (seen_by b a a) (seen_by b a a) b = candidate.
Proof.
  cbv zeta. pose proof (string_ltb_total a b Hab) as Hlt. unfold kept_dialer, Elect, seen_by. cbn [IsOutbound RemotePeerId].
  assert (b <> a) by congruence.
  split_and!; [intros d1 d2 Hd; assert (d1 = a /\ d2 = b \/ d1 = b /\ d2 = a) as [[-> ->]|[-> ->]]
                 by (destruct Hd; [left|right]; split; congruence)|..];
    repeat case_bool_decide; try congruence; rewrite ?Hlt; by destruct (String.ltb b a).
Qed.
Theorem dual_dial_agrees_witness : kept_dialer "A" "B" "A" "B" = "B"%string /\ kept_dialer "B" "A" "B" "A" = "B"%string.
Proof.
  split.
  - apply (dual_dial_agrees "A" "B" ltac:(done) ltac:(done) ltac:(done)). by left.
  - apply (dual_dial_agrees "A" "B" ltac:(done) ltac:(done) ltac:(done)). by right.
Defined.

Lemma Validate_cond (b : bool) (m : string) (k : Roe unit) :
  (if b then Fail (Err_ m) else k) = Ok tt <-> b = false /\ k = Ok tt.
Proof. destruct b; naive_solver. Qed.

Lemma sum_le {A} (f g : A -> Z) l : (forall x, f x <= g x) -> foldr Z.add 0 (map f l) <= foldr Z.add 0 (map g l).
Proof. intros Hfg. induction l as [|x l IH]; simpl; [done|]. specialize (Hfg x). lia. Qed.

(** What a configuration that passes promises the layers below. *)
Record config_sound (config : PeerLinkConfig) : Prop := {
  cs_windows : tn_reliable_window (adp config) <= tn_replay_window (adp config);
  cs_rtx : 0 < tn_rtx_interval_ms (adp config) /\ 0 < tn_max_rtx (adp config);
  cs_skew : 0 < tn_skew_ms (adp config);
  cs_alive : 2 * tn_rtx_interval_ms (adp config) <= tn_alive_timeout_ms (adp config);
  cs_queue : kMaxControlJsonFrameBytes <= max_queued_bytes (mux config);
  cs_frag : tn_rtx_interval_ms (adp config) * tn_max_rtx (adp config) <= frag_assembly_timeout_ms (mux config);
}.

(** The time from a packet's first send to its last resend, never answered. *)
Definition retransmit_span {P Io} (c : Connection P Io) : Z :=
  foldr Z.add 0 (map (fun d => RetransmitIntervalMs c (Z.of_nat d)) (List.seq 0 (Z.to_nat (max_rtx (params_ c))))).

(** What the check of a configuration promises.  A configuration that passes
    opens connections with proper parameters, with a replay window no smaller
    than the send window.  But the bound it sets on the reassembly timeout is
    for a fixed retransmit interval, while connections back off: with the default
    configuration, which passes, resending a packet takes longer than the mux
    keeps a partial message. *)
Theorem config_check_promises (config : PeerLinkConfig) (p : OpenParams)
    (Hwin : 0 <= tn_reliable_window (adp config)) (Hbits : tn_replay_window (adp config) < 2 ^ 32)
    (Hok : ValidatePeerLinkConfig config = Ok tt) :
  config_sound config /\ OpenParams_ok (ApplyTuning (adp config) p)
  /\ ValidatePeerLinkConfig PeerLinkConfig_default = Ok tt
  /\ forall {P Io} (c : Connection P Io), authenticated_ c = true ->
       rtx_interval_ms (params_ c) = tn_rtx_interval_ms (adp PeerLinkConfig_default) ->
       max_rtx (params_ c) = tn_max_rtx (adp PeerLinkConfig_default) ->
       frag_assembly_timeout_ms (mux PeerLinkConfig_default) < retransmit_span c.
Proof.
  assert (Hsound : forall c, ValidatePeerLinkConfig c = Ok tt -> config_sound c).
  { intros c. unfold ValidatePeerLinkConfig. cbv zeta. rewrite !Validate_cond. intros (_ & H1 & H2 & H3 & H4 & _ & H5 & H6 & _).
    zbool. split; lia. }
  pose proof (Hsound _ Hok) as Hs. split_and!; [done| |by vm_compute|].
  - assert (tn_reliable_window (adp config) <> 0).
    { revert Hok. unfold ValidatePeerLinkConfig. cbv zeta. rewrite Validate_cond. intros [H0 _]. by zbool. }
    destruct Hs. split; unfold ApplyTuning; cbn; lia.
  - intros P Io c Hauth Hi Hm. unfold retransmit_span. rewrite Hm.
    apply Z.lt_le_trans with (foldr Z.add 0 (map (fun d => Z.min (Z.shiftl 50 (Z.min (Z.of_nat d) 8)) 2000) (List.seq 0 20)));
      [by vm_compute|].
    apply sum_le. intros d. unfold RetransmitIntervalMs. rewrite Hauth, Hi. change (Z.max kMaxRtoMs _) with 2000.
    apply Z.min_le_compat_r. rewrite !Z.shiftl_mul_pow2 by lia.
    pose proof (RtoMs_range c) as Hr. rewrite Hi in Hr. change (tn_rtx_interval_ms _) with 50 in Hr.
    assert (0 < 2 ^ Z.min (Z.of_nat d) 8) by (apply Z.pow_pos_nonneg; lia). nia.
Qed.
Theorem config_check_promises_witness :
  config_sound PeerLinkConfig_default /\ OpenParams_ok (ApplyTuning (adp PeerLinkConfig_default) OpenParams_default).
Proof.
  destruct (config_check_promises PeerLinkConfig_default OpenParams_default) as (H1 & H2 & _); [by vm_compute..|by split].
Defined.
