(* ===== verification/ChannelSession.v ===== *)
(** * One channel of a multiplexer (src/L3/ChannelSession.cpp, include/amp/L3/ChannelSession.h)

    A session holds a pointer to the multiplexer its channel is in.  Operations
    take that multiplexer and return it with what they did to it; [cs_mux] says
    whether the pointer is set.  The frame handler and the closed callback are
    their identities, and calls of them are events of [cs_log]. *)

From S2P Require Import Prelude L1Types ChannelWire ChannelPolicy ChannelMux.

Inductive session_event :=
  | SFrame (handler : nat) (payload : bytes)
  | SClosed (handler : nat) (reason : string)
  | SDropped (callback : nat).

Record ChannelSession := MkChannelSession {
  cs_mux : bool;
  cs_channel_id : Z;
  cs_policy : ChannelPolicy;
  cs_on_frame : option nat;
  cs_on_closed : option nat;
  cs_outbound : list bytes;
  cs_write_inflight : bool;
  cs_closed : bool;
  cs_log : list session_event;
}.
#[export] Instance ChannelSession_fields : Fields ChannelSession := fun s =>
  MkChannelSession (cs_mux s) (cs_channel_id s) (cs_policy s) (cs_on_frame s) (cs_on_closed s) (cs_outbound s)
    (cs_write_inflight s) (cs_closed s) (cs_log s).

Definition ChannelSession_new : ChannelSession :=
  MkChannelSession false 0 ChannelPolicy_default None None [] false false [].

Definition note (e : session_event) (s : ChannelSession) : ChannelSession := s <| cs_log ::= fun l => l ++ [e] |>.

Definition IsLinkDropped (reason : string) : bool := bool_decide (reason = kLinkDroppedReason).

(** The reason is none when the notice is to be left out. *)
Definition FinishClosed (s : ChannelSession) (reason : option string) : ChannelSession :=
  let closed := cs_on_closed s in
  let s := s <| cs_mux := false |> <| cs_on_frame := None |> <| cs_on_closed := None |> in
  match reason, closed with
  | Some reason, Some handler => note (SClosed handler reason) s
  | _, _ => s
  end.

Definition NotifyRemoteTerminal (s : ChannelSession) (reason : string) : ChannelSession :=
  if cs_closed s then s else FinishClosed (s <| cs_closed := true |>) (Some reason).

Definition FailOutbound (s : ChannelSession) : ChannelSession :=
  FinishClosed (s <| cs_closed := true |>) (Some "write_failed"%string).

Definition SetFrameHandler (s : ChannelSession) (on_frame : option nat) : ChannelSession := s <| cs_on_frame := on_frame |>.
Definition SetClosedCallback (s : ChannelSession) (on_closed : option nat) : ChannelSession := s <| cs_on_closed := on_closed |>.

(** The handler the multiplexer calls when the channel ends. *)
Definition OnMuxTerminal (s : ChannelSession) (reason : string) : ChannelSession :=
  NotifyRemoteTerminal (if IsLinkDropped reason then s <| cs_mux := false |> else s) reason.

Definition OrphanFromMux (s : ChannelSession) : ChannelSession :=
  s <| cs_on_frame := None |> <| cs_on_closed := None |> <| cs_mux := false |> <| cs_channel_id := 0 |>
    <| cs_closed := true |> <| cs_outbound := [] |> <| cs_write_inflight := false |>.

Section ChannelSession.
Context {T : Type} `{MuxTransport T}.
Abbreviation Mux := (ChannelMux T).
(** The identity of the session's handlers in the multiplexer. *)
Context (self : nat).

Definition InstallMuxHandlers (s : ChannelSession) (m : Mux) : Mux :=
  if negb (cs_mux s) then m
  else SetTerminalHandler (SetDataHandler m (cs_channel_id s) (Some self)) (cs_channel_id s) (Some self).

Definition Bind (s : ChannelSession) (m : Mux) (channel_id : Z) (policy : ChannelPolicy) (on_frame on_closed : option nat)
    : ChannelSession * Mux :=
  let s := s <| cs_mux := true |> <| cs_channel_id := channel_id |> <| cs_policy := policy |>
             <| cs_on_frame := on_frame |> <| cs_on_closed := on_closed |> <| cs_closed := false |>
             <| cs_outbound := [] |> <| cs_write_inflight := false |> in
  let m := (ApplyChannelPolicy m (cs_channel_id s) (cs_policy s)).1 in
  (s, InstallMuxHandlers s m).

(** [PumpWrite], whose recursion takes one frame of [outbound_] each time.
    [write_inflight_] is set only while [SendData] runs, which calls no handler. *)
Fixpoint pump_write (fuel : nat) (s : ChannelSession) (m : Mux) : ChannelSession * Mux :=
  match fuel with
  | O => (s, m)
  | S fuel =>
      match cs_outbound s with
      | [] => (s, m)
      | body :: rest =>
          if cs_write_inflight s || cs_closed s || negb (cs_mux s) then (s, m)
          else
            let s := s <| cs_outbound := rest |> in
            let '(m, sent) := SendData m (cs_channel_id s) body in
            if negb (ok sent) then (FailOutbound s, m)
            else pump_write fuel s m
      end
  end.
Definition PumpWrite (s : ChannelSession) (m : Mux) : ChannelSession * Mux :=
  pump_write (length (cs_outbound s)) s m.

(** The queue limit and the drop policy: none if the frame is refused. *)
Definition MakeRoom (s : ChannelSession) : option ChannelSession :=
  let p := cs_policy s in
  if (0 <? max_outbound_frames p) && (max_outbound_frames p <=? size (cs_outbound s)) then
    match drop_policy p with
    | DropNever => None
    | DropOldest =>
        match cs_outbound s with
        | [] => Some s
        | _ :: rest =>
            let s := s <| cs_outbound := rest |> in
            Some (match on_outbound_drop p with Some cb => note (SDropped cb) s | None => s end)
        end
    end
  else Some s.

Definition EnqueueOutbound (s : ChannelSession) (m : Mux) (body : bytes) : ChannelSession * Mux * bool :=
  if cs_closed s || negb (cs_mux s) then (s, m, false)
  else match MakeRoom s with
  | None => (s, m, false)
  | Some s => (PumpWrite (s <| cs_outbound ::= fun q => q ++ [body] |>) m, true)
  end.

(** [Close], [CloseQuiet] and [Reset]. *)
Definition CloseWith (reason : option string) (s : ChannelSession) (m : Mux) : ChannelSession * Mux :=
  if cs_closed s || negb (cs_mux s) then (s, m)
  else
    let s := s <| cs_closed := true |> in
    let m := (CloseChannel m (cs_channel_id s) []).1 in
    (FinishClosed s reason, m).
Definition SessionClose : ChannelSession -> Mux -> ChannelSession * Mux := CloseWith (Some "close"%string).
Definition CloseQuiet : ChannelSession -> Mux -> ChannelSession * Mux := CloseWith None.

Definition SessionReset (s : ChannelSession) (m : Mux) (code : Z) : ChannelSession * Mux :=
  if cs_closed s || negb (cs_mux s) then (s, m)
  else
    let s := s <| cs_closed := true |> in
    let m := (ResetChannel m (cs_channel_id s) code).1 in
    (FinishClosed s (Some "reset"%string), m).

Definition ReleaseHandlers (s : ChannelSession) (m : Mux) : ChannelSession * Mux :=
  let s' := s <| cs_on_frame := None |> <| cs_on_closed := None |> in
  if negb (cs_mux s) then (s', m)
  else
    (s' <| cs_mux := false |>,
     SetTerminalHandler (SetDataHandler m (cs_channel_id s) None) (cs_channel_id s) None).

(** The handler the multiplexer calls with a payload: what comes before and
    after the frame handler, whose answer is whether to keep the session open. *)
Definition DataBegin (s : ChannelSession) (payload : bytes) : option ChannelSession :=
  if cs_closed s then None
  else match cs_on_frame s with
  | None => None
  | Some frame => Some (note (SFrame frame payload) s)
  end.
Definition DataEnd (s : ChannelSession) (m : Mux) (keep_open : bool) : ChannelSession * Mux :=
  if negb (cs_closed s) && (negb keep_open || read_once (cs_policy s)) then SessionClose s m else (s, m).
Definition OnMuxData (frame : ChannelSession -> Mux -> bytes -> ChannelSession * Mux * bool)
    (s : ChannelSession) (m : Mux) (payload : bytes) : ChannelSession * Mux :=
  match DataBegin s payload with
  | None => (s, m)
  | Some s =>
      let '(s, m, keep_open) := frame s m payload in
      DataEnd s m keep_open
  end.

(** ** What a session does over its life

    After [Bind], operations in any order; [OpMux] is anything else done to the
    multiplexer, [OpDataBegin] and [OpDataEnd] the two halves of [OnMuxData]
    around whatever operations the frame handler does. *)

Inductive session_op :=
  | OpEnqueue (body : bytes)
  | OpClose (reason : option string)
  | OpReset (code : Z)
  | OpRelease
  | OpOrphan
  | OpTerminal (reason : string)
  | OpDataBegin (payload : bytes)
  | OpDataEnd (keep_open : bool)
  | OpSetFrame (on_frame : option nat)
  | OpSetClosed (on_closed : option nat)
  | OpMux (f : Mux -> Mux).

Definition run_op (op : session_op) (sm : ChannelSession * Mux) : ChannelSession * Mux :=
  let '(s, m) := sm in
  match op with
  | OpEnqueue body => (EnqueueOutbound s m body).1
  | OpClose reason => CloseWith reason s m
  | OpReset code => SessionReset s m code
  | OpRelease => ReleaseHandlers s m
  | OpOrphan => (OrphanFromMux s, m)
  | OpTerminal reason => (OnMuxTerminal s reason, m)
  | OpDataBegin payload => (default s (DataBegin s payload), m)
  | OpDataEnd keep_open => DataEnd s m keep_open
  | OpSetFrame on_frame => (SetFrameHandler s on_frame, m)
  | OpSetClosed on_closed => (SetClosedCallback s on_closed, m)
  | OpMux f => (s, f m)
  end.
Definition run_ops (ops : list session_op) (sm : ChannelSession * Mux) : ChannelSession * Mux :=
  fold_left (fun sm op => run_op op sm) ops sm.

(** The two halves are the handler. *)
Lemma OnMuxData_ops s m payload ops keep :
  is_Some (DataBegin s payload) ->
  OnMuxData (fun s m _ => (run_ops ops (s, m), keep)) s m payload
  = run_ops (OpDataBegin payload :: ops ++ [OpDataEnd keep]) (s, m).
Proof.
  intros [s' Hs]. unfold OnMuxData, run_ops. cbn [fold_left run_op]. rewrite Hs, fold_left_app. cbn [fold_left run_op].
  change (default s (Some s')) with s'. by destruct (fold_left _ ops (s', m)).
Qed.

Definition is_frame (e : session_event) : Prop := match e with SFrame _ _ => True | _ => False end.

(** Frames are called out, then at most one notice, with which it ends. *)
Record session_inv (s : ChannelSession) : Prop := {
  sn_idle : cs_write_inflight s = false;
  sn_empty : cs_closed s = false -> cs_outbound s = [];
  sn_closed : cs_closed s = true -> cs_mux s = false;
  sn_log : exists frames last, cs_log s = frames ++ last /\ Forall is_frame frames
             /\ (last = [] \/ cs_closed s = true /\ exists h r, last = [SClosed h r]);
}.

Lemma Bind_inv s m id p f c : cs_log s = [] -> session_inv (Bind s m id p f c).1.
Proof. intros Hl. split; try done. exists [], []. split_and!; [done..|by left]. Qed.

(** Closing notifies at most once. *)
Lemma FinishClosed_inv s reason :
  cs_write_inflight s = false -> (exists frames, cs_log s = frames /\ Forall is_frame frames) ->
  session_inv (FinishClosed (s <| cs_closed := true |>) reason).
Proof.
  intros Hi (frames & Hl & Hf). unfold FinishClosed, note. destruct reason as [r|]; [destruct (cs_on_closed _) as [h|] eqn:Hc|];
    (split; try done; cbn).
  - exists frames, [SClosed h r]. split_and!; [by rewrite Hl|done|]. right. split; [done|by exists h, r].
  - exists frames, []. rewrite Hl, app_nil_r. split_and!; [done..|by left].
  - exists frames, []. rewrite Hl, app_nil_r. split_and!; [done..|by left].
Qed.

Lemma open_log s : session_inv s -> cs_closed s = false -> exists frames, cs_log s = frames /\ Forall is_frame frames.
Proof.
  intros [_ _ _ (frames & last & Hl & Hf & Hlast)] Ho. destruct Hlast as [->|[? _]]; [|congruence].
  exists frames. by rewrite app_nil_r in Hl.
Qed.

(** A frame enqueued on an open session goes to the multiplexer at once. *)
Lemma EnqueueOutbound_open s m body :
  session_inv s -> cs_closed s = false -> cs_mux s = true ->
  EnqueueOutbound s m body
  = let '(m', sent) := SendData m (cs_channel_id s) body in
    (if ok sent then s else FailOutbound s, m', true).
Proof.
  intros Hi Ho Hm. pose proof (sn_empty _ Hi Ho) as He. pose proof (sn_idle _ Hi) as Hw.
  unfold EnqueueOutbound. rewrite Ho, Hm. cbn [negb orb].
  assert (MakeRoom s = Some s) as ->.
  { unfold MakeRoom. rewrite He. destruct (Z.ltb_spec 0 (max_outbound_frames (cs_policy s))) as [Hp|]; [|done].
    rewrite (proj2 (Z.leb_gt _ _)) by done. done. }
  unfold PumpWrite. destruct s as [mu ci po fr cl ou wi cd lg]. cbn in He, Hw, Ho, Hm. subst. cbn.
  destruct (SendData m ci body) as [m' [u|e]]; by cbn.
Qed.

Lemma run_op_inv op s m : session_inv s -> session_inv (run_op op (s, m)).1.
Proof.
  intros Hi. pose proof (sn_idle _ Hi) as Hw.
  assert (Hclose : forall reason, cs_closed s = false -> session_inv (FinishClosed (s <| cs_closed := true |>) reason)).
  { intros reason Ho. apply FinishClosed_inv; [exact Hw|exact (open_log s Hi Ho)]. }
  assert (HcloseWith : forall reason, session_inv (CloseWith reason s m).1).
  { intros reason. unfold CloseWith. destruct (cs_closed s) eqn:Ho; [done|]. destruct (cs_mux s); [|done]. by apply Hclose. }
  destruct op as [body|reason|code| | |reason|payload|keep|h|h|f]; cbn [run_op].
  - unfold EnqueueOutbound at 1. destruct (cs_closed s) eqn:Ho; [done|]. destruct (cs_mux s) eqn:Hm; [|done].
    pose proof (EnqueueOutbound_open s m body Hi Ho Hm) as He. unfold EnqueueOutbound in He. rewrite Ho, Hm in He.
    rewrite He. destruct (SendData m _ body) as [m' [u|e]]; [done|]. by apply Hclose.
  - apply HcloseWith.
  - unfold SessionReset. destruct (cs_closed s) eqn:Ho; [done|]. destruct (cs_mux s); [|done]. by apply Hclose.
  - destruct Hi as [_ H2 H3 H4]. unfold ReleaseHandlers. destruct (cs_mux s) eqn:Hm; by split.
  - destruct Hi as [_ _ _ (frames & last & Hl & Hf & Hlast)]. split; try done. cbn. exists frames, last.
    split_and!; [done..|]. destruct Hlast as [|[_ Hx]]; [by left|by right].
  - cbn [fst]. unfold OnMuxTerminal, NotifyRemoteTerminal. destruct (IsLinkDropped reason).
    + change (cs_closed (s <| cs_mux := false |>)) with (cs_closed s). destruct (cs_closed s) eqn:Ho.
      * destruct Hi as [_ H2 H3 H4]. split; try done; cbn; congruence.
      * apply FinishClosed_inv; [exact Hw|exact (open_log s Hi Ho)].
    + destruct (cs_closed s) eqn:Ho; [done|]. by apply Hclose.
  - unfold DataBegin. destruct (cs_closed s) eqn:Ho; [done|]. destruct (cs_on_frame s) as [h|]; [|done]. cbn.
    destruct (open_log s Hi Ho) as (frames & Hl & Hf). destruct Hi as [_ H2 H3 _]. split; try done. cbn.
    exists (frames ++ [SFrame h payload]), []. rewrite Hl, app_nil_r. split_and!; [done| |by left].
    apply Forall_app. split; [done|by repeat constructor].
  - unfold DataEnd. destruct (_ && _); [apply HcloseWith|done].
  - destruct Hi as [_ H2 H3 H4]. by split.
  - destruct Hi as [_ H2 H3 H4]. by split.
  - done.
Qed.

Lemma run_ops_inv ops sm : session_inv sm.1 -> session_inv (run_ops ops sm).1.
Proof.
  revert sm. induction ops as [|op ops IH]; intros [s m] Hi; [done|]. apply IH. by apply run_op_inv.
Qed.

(** A session never queues.  From [Bind] on, whatever is done with it, an open
    session has nothing waiting, so the policy's queue limit never refuses a
    frame and its drop policy never drops one: a frame enqueued goes to the
    multiplexer in the same call, and if that refuses it the session is closed
    while the caller is told the frame was taken. *)
Theorem session_never_queues (m : Mux) (id : Z) (p : ChannelPolicy) (on_frame on_closed : option nat)
    (ops : list session_op) :
  let '(s, m) := run_ops ops (Bind ChannelSession_new m id p on_frame on_closed) in
  (forall cb, SDropped cb ∉ cs_log s)
  /\ (cs_closed s = false -> cs_outbound s = [])
  /\ forall body,
       EnqueueOutbound s m body =
         if cs_closed s || negb (cs_mux s) then (s, m, false)
         else let '(m', sent) := SendData m (cs_channel_id s) body in
              (if ok sent then s else FailOutbound s, m', true).
Proof.
  pose proof (run_ops_inv ops _ (Bind_inv ChannelSession_new m id p on_frame on_closed eq_refl)) as Hi.
  destruct (run_ops ops _) as [s m']. cbn [fst] in Hi. split_and!.
  - intros cb Hin. destruct (sn_log _ Hi) as (frames & last & Hl & Hf & Hlast). rewrite Hl in Hin.
    apply elem_of_app in Hin as [Hin|Hin].
    + rewrite Forall_forall in Hf. by specialize (Hf _ Hin).
    + destruct Hlast as [->|(_ & h & r & ->)]; [by apply not_elem_of_nil in Hin|].
      by apply list_elem_of_singleton in Hin.
  - apply (sn_empty _ Hi).
  - intros body. destruct (cs_closed s) eqn:Ho; [unfold EnqueueOutbound; by rewrite Ho|].
    destruct (cs_mux s) eqn:Hm; [|unfold EnqueueOutbound; by rewrite Ho, Hm].
    by apply EnqueueOutbound_open.
Qed.

(** What a closed session does not do again. *)
Lemma closed_quiet op s m : session_inv s -> cs_closed s = true ->
  let '(s', m') := run_op op (s, m) in
  cs_closed s' = true /\ cs_mux s' = false /\ cs_log s' = cs_log s
  /\ match op with OpMux f => m' = f m | _ => m' = m end.
Proof.
  intros Hi Hc. pose proof (sn_closed _ Hi Hc) as Hm.
  destruct op as [body|reason|code| | |reason|payload|keep|h|h|f]; cbn [run_op].
  - unfold EnqueueOutbound. by rewrite Hc.
  - unfold CloseWith. by rewrite Hc.
  - unfold SessionReset. by rewrite Hc.
  - unfold ReleaseHandlers. by rewrite Hm.
  - done.
  - unfold OnMuxTerminal, NotifyRemoteTerminal. destruct (IsLinkDropped reason); cbn; by rewrite Hc.
  - unfold DataBegin. by rewrite Hc.
  - unfold DataEnd. by rewrite Hc.
  - done.
  - done.
  - done.
Qed.

(** A session closes once.  From [Bind] on, whatever is done with it, the
    frame handler is called any number of times, then the closed callback at most
    once, and nothing after; and once closed, the session does not touch its
    multiplexer again, which may be gone. *)
Theorem session_closes_once (m : Mux) (id : Z) (p : ChannelPolicy) (on_frame on_closed : option nat)
    (ops : list session_op) :
  let '(s, m) := run_ops ops (Bind ChannelSession_new m id p on_frame on_closed) in
  (exists frames last, cs_log s = frames ++ last /\ Forall is_frame frames
     /\ (last = [] \/ cs_closed s = true /\ exists h r, last = [SClosed h r]))
  /\ (cs_closed s = true ->
      cs_mux s = false
      /\ forall op, let '(s', m') := run_op op (s, m) in
           cs_closed s' = true /\ cs_mux s' = false /\ cs_log s' = cs_log s
           /\ match op with OpMux f => m' = f m | _ => m' = m end).
Proof.
  pose proof (run_ops_inv ops _ (Bind_inv ChannelSession_new m id p on_frame on_closed eq_refl)) as Hi.
  destruct (run_ops ops _) as [s m']. cbn [fst] in Hi. split; [apply (sn_log _ Hi)|]. intros Hc.
  split; [by apply (sn_closed _ Hi)|]. intros op. by apply closed_quiet.
Qed.
End ChannelSession.
