(* ===== verification/LinkWire.v ===== *)
(** * What a link sends through (src/link/PeerLink.cpp, include/amp/link/PeerLink.h)

    The part of a link its closures reach: the connection or the carrier below,
    the session that seals, the reliable lane and the numbers of sealed carrier
    packets.  [LinkWire] is the state behind the handshake's [send_] and behind
    the multiplexer's transport.  The two lower ends are interfaces; a connection
    of L1 and a session of one channel implement them. *)

From S2P Require Import Prelude L1Types L2Types SessionKeys SessionCrypto Session Connection ChannelWire ChannelPolicy ChannelMux ChannelSession AmpAdpCarrier CarrierLane MshAdpHandshake LinkPolicy.

(** ** Errors *)

Inductive LinkErr :=
  | NoConnection | TransportFailed | TransportUnavailable | HandshakeFailed | DialTimeout | CarrierClosed
  | CarrierEnqueueFailed | DualDialLost | NotConnected | RekeyInFlight | Ch0NotOpen | VersionMismatch | Generic.
#[export] Instance LinkErr_eq_dec : EqDecision LinkErr.
Proof. solve_decision. Defined.

Record LinkFailure := LinkOf { lf_code : LinkErr; lf_message : string }.
Abbreviation LinkRoe := (Result LinkFailure unit).

(** [detail::AppendFrom]. *)
Definition AppendFrom (detail from_label from_message : string) : string :=
  if bool_decide (from_message = "") then detail
  else (detail ++ " [" ++ from_label ++ ": " ++ from_message ++ "]")%string.

Definition WrapConnectionFailure (child : Failure) : LinkFailure :=
  match fcode child with
  | ErrClosed | WindowFull =>
      LinkOf TransportUnavailable (AppendFrom "amp link: transport unavailable" "adp" (fmessage child))
  | _ => LinkOf TransportFailed (AppendFrom "amp link: transport failed" "adp" (fmessage child))
  end.

(** [Error(sent.error().message)]. *)
Definition link_roe (r : LinkRoe) : Roe unit :=
  match r with Ok _ => Ok tt | Fail e => Fail (Err_ (lf_message e)) end.

(** ** What a link asks of the layers below *)

Class AdpConnection (N : Type) := {
  conn_send : N -> QosClass -> bytes -> N * CRoe unit;
  conn_credits : N -> Z;
  conn_upgrade : N -> PeerKey -> N;
  conn_protect : N -> Session -> N;
  conn_on_message : N -> bool -> N;
  conn_send_keepalive : N -> Z -> Z -> N * CRoe unit;
  conn_stop_keepalive : N -> Z -> N * CRoe unit;
  conn_send_probe : N -> Z -> N * CRoe unit;
  conn_keepalive_interval : N -> Z;
}.

(** The channel session a nested link goes over; [carrier_max_frame] is the frame
    budget of its multiplexer, none if it has none. *)
Class CarrierSession (C : Type) := {
  carrier_closed : C -> bool;
  carrier_enqueue : C -> bytes -> C * bool;
  carrier_max_frame : C -> option Z;
  carrier_attach : C -> C;
  carrier_orphan : C -> C;
}.

(** The connection of L1, protected by the session it shares with the link. *)
#[export] Instance Connection_adp `{Aead} `{Sodium} {Io} `{DatagramIo Io} : AdpConnection (Connection Session Io) := {|
  conn_send := fun c qos payload => Connection.Send c qos payload;
  conn_credits := fun c => ReliableCreditsRemaining c;
  conn_upgrade := fun c key => UpgradeBinder c key;
  conn_protect := fun c s => SetProtection c (Some s);
  conn_on_message := fun c set => c <| on_message_ := set |>;
  conn_send_keepalive := fun c now interval => SendKeepalive c now interval;
  conn_stop_keepalive := fun c now => StopKeepalive c now;
  conn_send_probe := fun c now => SendProbe c now;
  conn_keepalive_interval := fun c => local_keepalive_interval_ms_ c;
|}.

(** The channel session with the multiplexer of the outer link. *)
#[export] Instance ChannelSession_carrier {T} `{MuxTransport T} : CarrierSession (ChannelSession * ChannelMux T) := {|
  carrier_closed := fun sm => cs_closed sm.1;
  carrier_enqueue := fun sm body => EnqueueOutbound sm.1 sm.2 body;
  carrier_max_frame := fun sm => if cs_mux sm.1 then Some (max_frame_bytes_ sm.2) else None;
  carrier_attach := fun sm => (SetClosedCallback (SetFrameHandler sm.1 (Some O)) (Some O), sm.2);
  carrier_orphan := fun sm => (OrphanFromMux sm.1, sm.2);
|}.

(** ** State *)

(** [lw_now] is what [host_.now_ms] gives, 0 if it is not set. *)
Record LinkWire (N C : Type) := MkLinkWire {
  lw_outbound : bool;
  lw_now : Z;
  connection_ : option N;
  carrier_ : option C;
  lane_ : option CarrierLane;
  session_ : option Session;
  carrier_tx_be_ : Z;
  carrier_tx_rel_ : Z;
  carrier_msh_resend_at_ms_ : Z;
  carrier_msh_resend_interval_ms_ : Z;
}.
Arguments MkLinkWire {N C}.
Arguments lw_outbound {N C}. Arguments lw_now {N C}. Arguments connection_ {N C}. Arguments carrier_ {N C}.
Arguments lane_ {N C}. Arguments session_ {N C}. Arguments carrier_tx_be_ {N C}. Arguments carrier_tx_rel_ {N C}.
Arguments carrier_msh_resend_at_ms_ {N C}. Arguments carrier_msh_resend_interval_ms_ {N C}.
#[export] Instance LinkWire_fields {N C} : Fields (LinkWire N C) := fun w =>
  MkLinkWire (lw_outbound w) (lw_now w) (connection_ w) (carrier_ w) (lane_ w) (session_ w) (carrier_tx_be_ w)
    (carrier_tx_rel_ w) (carrier_msh_resend_at_ms_ w) (carrier_msh_resend_interval_ms_ w).

Definition kCarrierHandshakeResendMs : Z := 500.
Definition kCarrierHandshakeResendMaxMs : Z := 1500.

Section LinkWire.
Context {N C : Type} `{AdpConnection N} `{CarrierSession C} `{Aead}.
Abbreviation Wire := (LinkWire N C).

Definition IsCarrierBacked (w : Wire) : bool := bool_decide (is_Some (carrier_ w)).
Definition CarrierLaneActive (w : Wire) : bool :=
  match lane_ w with Some lane => peer_speaks_lane_ lane | None => false end.
Definition CarrierLaneFailed (w : Wire) : bool :=
  match lane_ w with Some lane => failed_ lane | None => false end.

Definition SendAdpLink (w : Wire) (payload : bytes) (qos : QosClass) : Wire * LinkRoe :=
  match connection_ w with
  | None => (w, Fail (LinkOf NoConnection "amp link: no connection"))
  | Some c =>
      let '(c, sent) := conn_send c qos payload in
      (w <| connection_ := Some c |>,
       match sent with Fail e => Fail (WrapConnectionFailure e) | Ok _ => Ok tt end)
  end.
Definition SendAdp (w : Wire) (payload : bytes) (qos : QosClass) : Wire * Roe unit :=
  let '(w, sent) := SendAdpLink w payload qos in (w, link_roe sent).

Definition SendCarrierWire (w : Wire) (payload : bytes) : Wire * LinkRoe :=
  match carrier_ w with
  | None => (w, Fail (LinkOf CarrierClosed "amp link: carrier closed"))
  | Some c =>
      if carrier_closed c then (w, Fail (LinkOf CarrierClosed "amp link: carrier closed"))
      else
        let '(c, taken) := carrier_enqueue c payload in
        (w <| carrier_ := Some c |>,
         if negb taken then Fail (LinkOf CarrierEnqueueFailed "amp link: carrier enqueue failed") else Ok tt)
  end.

Definition SendLaneProbe (w : Wire) : Wire :=
  match lane_ w with
  | Some _ => (SendCarrierWire w (EncodeLaneAck LaneAckFields_default)).1
  | None => w
  end.

(** The closure given to the handshake. *)
Definition SendHandshakeWire (w : Wire) (payload : bytes) : Wire * Roe unit :=
  if IsCarrierBacked w then
    let w := SendLaneProbe w in
    let w := if lw_outbound w
             then w <| carrier_msh_resend_interval_ms_ := kCarrierHandshakeResendMs |>
                    <| carrier_msh_resend_at_ms_ := lw_now w + kCarrierHandshakeResendMs |>
             else w in
    let '(w, sent) := SendCarrierWire w payload in (w, link_roe sent)
  else let '(w, sent) := SendAdpLink w payload Reliable in (w, link_roe sent).
#[export] Instance LinkWire_handshake : SendWire Wire := {| send_ := SendHandshakeWire |}.

Definition CarrierMaxFrameBytes (w : Wire) : Z :=
  let outer := match carrier_ w with
               | Some c => default kDirectMaxFrameBytes (carrier_max_frame c)
               | None => kDirectMaxFrameBytes
               end in
  let wrapping := Z.of_nat (kChannelHeaderBytes + kCarrierLaneHeaderBytes + kCarrierSealedHeaderBytes + kPacketTagBytes) in
  if wrapping <? outer then outer - wrapping else 0.

Definition carrier_space (reliable : bool) : PacketSpace := if reliable then CarrierReliable else CarrierBestEffort.

Definition SealCarrierFrame (w : Wire) (qos : QosClass) (frame : bytes) : Wire * Roe bytes :=
  match session_ w with
  | None => (w, Fail (Err_ "amp link: no session to seal with"))
  | Some session =>
      let reliable := bool_decide (qos = Reliable) in
      let counter := if reliable then carrier_tx_rel_ w else carrier_tx_be_ w in
      if counter =? 4294967295 then (w, Fail (Err_ "amp link: carrier packet numbers ran out"))
      else
        let number := u32 (counter + 1) in
        let w := if reliable then w <| carrier_tx_rel_ := number |> else w <| carrier_tx_be_ := number |> in
        let header := CarrierEncodeSealedHeader reliable number in
        match Session_SealPacket session (carrier_space reliable) number header frame with
        | Fail e => (w, Fail e)
        | Ok sealed => (w, Ok (header ++ sealed))
        end
  end.

(** ** The multiplexer's transport: the closures of [AttachMuxTransport] *)

Definition LinkCredits (w : Wire) : Z :=
  if CarrierLaneActive w then Credits (default (CarrierLane_new CarrierLaneConfig_default) (lane_ w))
  else match IsCarrierBacked w, connection_ w with
       | false, Some c => conn_credits c
       | _, _ => 2 ^ 64 - 1
       end.

(** A sealed frame for the lane, or as it is. *)
Definition LaneWrap (w : Wire) (qos : QosClass) (wire : bytes) : Wire * Roe bytes :=
  match lane_ w with
  | Some lane =>
      if bool_decide (qos = Reliable) && peer_speaks_lane_ lane then
        let '(lane, laned) := Wrap lane wire (lw_now w) in
        (w <| lane_ := Some lane |>,
         match laned with None => Fail (Err_ "amp link: carrier lane window full") | Some wire => Ok wire end)
      else (w, Ok wire)
  | None => (w, Ok wire)
  end.

Definition LinkTransport (w : Wire) (qos : QosClass) (frame : bytes) : Wire * Roe unit :=
  if IsCarrierBacked w then
    let '(w, wire) := SealCarrierFrame w qos frame in
    match wire with
    | Fail e => (w, Fail e)
    | Ok wire =>
        let '(w, laned) := LaneWrap w qos wire in
        match laned with
        | Fail e => (w, Fail e)
        | Ok wire => let '(w, sent) := SendCarrierWire w wire in (w, link_roe sent)
        end
    end
  else SendAdp w frame qos.
#[export] Instance LinkWire_transport : MuxTransport Wire := {|
  transport_send := LinkTransport;
  transport_credits := fun w => Some (LinkCredits w);
|}.

End LinkWire.
