(* ===== verification/PeerLink.v ===== *)
(** * One link to a peer (src/link/PeerLink.cpp, include/amp/link/PeerLink.h)

    The association, the handshake over it, the session it gives and the
    multiplexer over that.  [wire_] is the state the closures of the handshake and
    of the multiplexer reach: it is handed to them for each call and taken back
    after.  Callbacks are their identities, and calls of them are events of
    [link_log], like requests to the host and the packets opened from a carrier;
    what a callback does to the link in return is a later operation.  The host's answers are the functions of
    [PeerLinkHostPorts].  The type of a handshake message is the byte it is cast
    from. *)

From stdpp Require Import pretty.
From S2P Require Import Prelude L1Types L2Types SessionControl SessionKeys SessionCrypto Session ReplayWindow ChannelWire Capability ChannelPolicy ChannelMux MshMessages MshHandshake AmpAdpCarrier CarrierLane MshAdpHandshake LinkPolicy LinkWire.

Inductive link_event :=
  | LkEstablish (callback : nat) (result : LinkRoe)
  | LkScheduleDrop (handle : LinkHandle)
  | LkAdoptAlias (remote_peer_id dial_alias : string)
  | LkRekey (callback : nat) (result : Roe unit)
  | LkOpened (reliable : bool) (number : Z) (frame : bytes).

Record PeerLink (N C : Type) := MkPeerLink {
  link_id_ : Z;
  generation_ : Z;
  peer_key_ : string;
  remote_peer_id_ : string;
  remote_identity_public_key_ : bytes;
  wire_ : LinkWire N C;
  lane_backlog_ : list bytes;
  local_identity_ : MshIdentity;
  phase_ : PeerLinkPhase;
  keepalive_tier_ : KeepaliveTier;
  last_keepalive_tx_ms_ : Z;
  suspect_since_ms_ : Z;
  suspect_from_verify_ : bool;
  last_probe_ms_ : Z;
  capability_exchange_started_ : bool;
  capability_offer_sent_ : bool;
  remote_capability_ : option CapabilityPayload;
  remote_extension_ : option CapabilityExtension;
  capability_extension_sent_ : bool;
  handshake_ : option (MshAdpHandshake (LinkWire N C));
  carrier_final_msh_ : bytes;
  carrier_rx_be_ : ReplayWindow;
  carrier_rx_rel_ : ReplayWindow;
  mux_ : option (ChannelMux (LinkWire N C));
  link_master_ikm_ : bytes;
  link_transcript_hash_ : bytes;
  establish_cb_ : option nat;
  msh_chunk_type_ : Z;
  msh_chunk_count_ : Z;
  msh_chunk_parts_ : list bytes;
  msh_chunk_bytes_ : Z;
  rekey_cb_ : option nat;
  handshake_started_ms_ : Z;
  punched_ : bool;
  link_log : list link_event;
}.
Arguments MkPeerLink {N C}.
Arguments link_id_ {N C}. Arguments generation_ {N C}. Arguments peer_key_ {N C}. Arguments remote_peer_id_ {N C}.
Arguments remote_identity_public_key_ {N C}. Arguments wire_ {N C}. Arguments lane_backlog_ {N C}.
Arguments local_identity_ {N C}. Arguments phase_ {N C}. Arguments keepalive_tier_ {N C}.
Arguments last_keepalive_tx_ms_ {N C}. Arguments suspect_since_ms_ {N C}. Arguments suspect_from_verify_ {N C}.
Arguments last_probe_ms_ {N C}. Arguments capability_exchange_started_ {N C}. Arguments capability_offer_sent_ {N C}.
Arguments remote_capability_ {N C}. Arguments remote_extension_ {N C}. Arguments capability_extension_sent_ {N C}.
Arguments handshake_ {N C}. Arguments carrier_final_msh_ {N C}. Arguments carrier_rx_be_ {N C}.
Arguments carrier_rx_rel_ {N C}. Arguments mux_ {N C}. Arguments link_master_ikm_ {N C}.
Arguments link_transcript_hash_ {N C}. Arguments establish_cb_ {N C}. Arguments msh_chunk_type_ {N C}.
Arguments msh_chunk_count_ {N C}. Arguments msh_chunk_parts_ {N C}. Arguments msh_chunk_bytes_ {N C}.
Arguments rekey_cb_ {N C}. Arguments handshake_started_ms_ {N C}. Arguments punched_ {N C}. Arguments link_log {N C}.
#[export] Instance PeerLink_fields {N C} : Fields (PeerLink N C) := fun l =>
  MkPeerLink (link_id_ l) (generation_ l) (peer_key_ l) (remote_peer_id_ l) (remote_identity_public_key_ l) (wire_ l)
    (lane_backlog_ l) (local_identity_ l) (phase_ l) (keepalive_tier_ l) (last_keepalive_tx_ms_ l)
    (suspect_since_ms_ l) (suspect_from_verify_ l) (last_probe_ms_ l) (capability_exchange_started_ l)
    (capability_offer_sent_ l) (remote_capability_ l) (remote_extension_ l) (capability_extension_sent_ l)
    (handshake_ l) (carrier_final_msh_ l) (carrier_rx_be_ l) (carrier_rx_rel_ l) (mux_ l) (link_master_ikm_ l)
    (link_transcript_hash_ l) (establish_cb_ l) (msh_chunk_type_ l) (msh_chunk_count_ l) (msh_chunk_parts_ l)
    (msh_chunk_bytes_ l) (rekey_cb_ l) (handshake_started_ms_ l) (punched_ l) (link_log l).

Definition kMaxLaneBacklogFrames : Z := 256.
Definition kCarrierBestEffortReplayWindow : Z := 128.
Definition kCarrierReliableReplayWindow : Z := 1024.

(** The host: an answer of [on_established] comes with what it did to the link. *)
Record PeerLinkHostPorts (N C : Type) := MkPeerLinkHostPorts {
  derive_peer_id : option (bytes -> string);
  on_established : option (PeerLink N C -> PeerLink N C * bool);
  schedule_drop : bool;
  schedule_adopt_alias : bool;
  has_other_connected : option (string -> bool);
}.
Arguments MkPeerLinkHostPorts {N C}.
Arguments derive_peer_id {N C}. Arguments on_established {N C}. Arguments schedule_drop {N C}.
Arguments schedule_adopt_alias {N C}. Arguments has_other_connected {N C}.

Section PeerLink.
Context {N C : Type} `{AdpConnection N} `{CarrierSession C}.
Context `{GenericHash} `{Sodium} `{Kdf} `{MlKem} `{MlDsa} `{Aead}.
Context (host_ : PeerLinkHostPorts N C).
Abbreviation Link := (PeerLink N C).
Abbreviation Wire := (LinkWire N C).

(** ** Construction *)

Definition PeerLink_over (w : Wire) (peer_key remote_peer_id : string) (local_identity : MshIdentity) : Link :=
  MkPeerLink 0 0 peer_key remote_peer_id [] w [] local_identity Handshaking TierNone 0 0 false 0 false false None None
    false None [] (ReplayWindow_new kCarrierBestEffortReplayWindow true) (ReplayWindow_new kCarrierReliableReplayWindow true)
    None [] [] None 0 0 [] 0 None 0 false [].

Definition PeerLink_adp (peer_key remote_peer_id : string) (outbound : bool) (connection : N) (local_identity : MshIdentity)
    : Link :=
  PeerLink_over (MkLinkWire outbound 0 (Some (conn_on_message connection true)) None None None 0 0 0 0)
    peer_key remote_peer_id local_identity.
Definition PeerLink_carrier (peer_key remote_peer_id : string) (outbound : bool) (carrier : C) (local_identity : MshIdentity)
    : Link :=
  PeerLink_over (MkLinkWire outbound 0 None (Some (carrier_attach carrier))
                   (Some (CarrierLane_new CarrierLaneConfig_default)) None 0 0 0 0)
    peer_key remote_peer_id local_identity.

(** The destructor. *)
Definition PeerLink_destroy (l : Link) : Link :=
  let l := l <| wire_ ::= fun w => w <| connection_ ::= fmap (fun n => conn_on_message n false) |> |> in
  l <| wire_ ::= fun w => w <| carrier_ ::= fun c => (fun _ => None) (carrier_orphan <$> c) |> |>.

Definition Handle (l : Link) : LinkHandle := MkLinkHandle (link_id_ l) (generation_ l).
Definition link_outbound (l : Link) : bool := lw_outbound (wire_ l).
Definition link_carrier_backed (l : Link) : bool := IsCarrierBacked (wire_ l).
Definition NowMs (l : Link) : Z := lw_now (wire_ l).
Definition view (l : Link) : LinkView := MkLinkView (link_outbound l) (remote_peer_id_ l).
Definition link_note (e : link_event) (l : Link) : Link := l <| link_log ::= fun log => log ++ [e] |>.

(** A call of the multiplexer: it reaches the link through its closures. *)
Definition with_mux {A} (l : Link) (m : ChannelMux Wire) (f : ChannelMux Wire -> ChannelMux Wire * A) : Link * A :=
  let '(m, a) := f (m <| transport := wire_ l |> <| clock_now := NowMs l |>) in
  (l <| wire_ := transport m |> <| mux_ := Some m |>, a).

Definition SendLinkCarrier (l : Link) (payload : bytes) : Link :=
  l <| wire_ ::= fun w => (SendCarrierWire w payload).1 |>.

(** [if (establish_cb_) { establish_cb_(...); establish_cb_ = nullptr; }] *)
Definition TellEstablished (result : LinkRoe) (l : Link) : Link :=
  match establish_cb_ l with
  | Some cb => link_note (LkEstablish cb result) l <| establish_cb_ := None |>
  | None => l
  end.

(** ** Failing *)

Definition FailAssociation (l : Link) (failure : LinkFailure) : Link :=
  TellEstablished (Fail failure) (l <| phase_ := Backoff |> <| handshake_ := None |>).
Definition FailAssociationMessage (l : Link) (error : Error) (code : LinkErr) : Link :=
  FailAssociation l (LinkOf code (error_message error)).
Definition FailHandshakeTimeout (l : Link) : Link := FailAssociation l (LinkOf DialTimeout "amp link: dial timeout").
Definition FailRefused (l : Link) : Link :=
  FailAssociation l (LinkOf TransportFailed "amp link: refused by the peer (its link table is full)").
Definition FailVersionMismatch (l : Link) (versions : list Z) : Link :=
  let spoken := fold_left (fun (s : string) v => (s ++ (if bool_decide (s = "") then "v" else ", v") ++ pretty v)%string)
                  versions ""%string in
  FailAssociation l (LinkOf VersionMismatch
    ("amp link: the peer speaks wire " ++ spoken ++ ", not v" ++ pretty kWireVersion)).

Definition DemoteForScheduledDrop (l : Link) : Link :=
  let l := match phase_ l with
           | Connected | Handshaking | Dialing => l <| phase_ := Backoff |>
           | _ => l
           end in
  l <| mux_ ::= fmap ClearProtocolHandlers |>.

(** ** Receiving sealed frames *)

Definition DeliverFrame (l : Link) (frame : bytes) : Link :=
  match phase_ l, mux_ l with
  | Connected, Some m => (with_mux l m (fun m => OnFrameInbound m frame)).1
  | _, _ => l
  end.

Definition DeliverSealedCarrierWire (l : Link) (wire : bytes) : Link :=
  match session_ (wire_ l) with
  | None => l
  | Some session =>
      match CarrierDecodeSealedHeader wire with
      | Fail _ => l
      | Ok header =>
          let window := if reliable header then carrier_rx_rel_ l else carrier_rx_be_ l in
          if negb (bool_decide (Classify window (number header) = Fresh)) then l
          else
            match Session_OpenPacket session (carrier_space (reliable header)) (number header)
                    (take kCarrierSealedHeaderBytes wire) (drop kCarrierSealedHeaderBytes wire) (NowMs l) with
            | Fail _ => l
            | Ok opened =>
                let window := (Accept window (number header)).1 in
                let l := if reliable header then l <| carrier_rx_rel_ := window |> else l <| carrier_rx_be_ := window |> in
                let l := link_note (LkOpened (reliable header) (number header) opened) l in
                DeliverFrame (l <| carrier_final_msh_ := [] |>) opened
            end
      end
  end.

Definition FlushLaneBacklog (l : Link) : Link :=
  match phase_ l, mux_ l with
  | Connected, Some _ =>
      let backlog := lane_backlog_ l in
      fold_left DeliverSealedCarrierWire backlog (l <| lane_backlog_ := [] |>)
  | _, _ => l
  end.

(** The loop that fills the backlog up to its cap. *)
Fixpoint push_backlog (frames backlog : list bytes) : list bytes :=
  match frames with
  | [] => backlog
  | inner :: frames =>
      if kMaxLaneBacklogFrames <=? size backlog then backlog else push_backlog frames (backlog ++ [inner])
  end.

Definition HandleLaneFrame (l : Link) (kind : Z) (payload : bytes) : Link :=
  match lane_ (wire_ l) with
  | None => l
  | Some lane =>
      let lane := NotePeerSpeaksLane lane in
      let put lane l := l <| wire_ ::= fun w => w <| lane_ := Some lane |> |> in
      if kind =? payload_kind_to_Z LaneAck then
        match DecodeLaneAck payload with
        | Ok ack => put (OnAck lane ack (NowMs l)) l
        | Fail _ => put lane l
        end
      else
        match DecodeLaneData payload with
        | Fail _ => put lane l
        | Ok (seq, inner) =>
            let '(lane, received) := OnData lane seq inner in
            let l := put lane l in
            let l := SendLinkCarrier l (EncodeLaneAck (rx_ack received)) in
            let l := l <| lane_backlog_ ::= push_backlog (deliver received) |> in
            FlushLaneBacklog l
        end
  end.

(** ** Establishment *)

(** The peer's id as [derive_peer_id] or the fingerprint gives it. *)
Definition AuthenticatedPeerId (l : Link) (key : bytes) : string :=
  let fallback := if bool_decide (remote_peer_id_ l = "") then IdentityPublicKeyFingerprint key else remote_peer_id_ l in
  if bool_decide (key = []) then remote_peer_id_ l
  else match derive_peer_id host_ with
       | Some derive =>
           let derived := derive key in
           if bool_decide (derived <> "") then derived else fallback
       | None => fallback
       end.

(** The multiplexer of a new session; none if the carrier's frames are too small. *)
Definition NewMux (w : Wire) (session : Session) : Roe (ChannelMux Wire) :=
  let m := ChannelMux_new (initiator (material_ session)) w in
  if IsCarrierBacked w then
    let '(m, budget) := SetMaxFrameBytes m (CarrierMaxFrameBytes w) in
    match budget with Fail e => Fail e | Ok _ => Ok m end
  else Ok m.

(** What is left to do once the host has answered. *)
Definition AnnounceEstablished (l : Link) : Link :=
  let l := TellEstablished (Ok tt) l in
  match lane_ (wire_ l) with
  | Some _ => FlushLaneBacklog (l <| wire_ ::= SendLaneProbe |>)
  | None => l
  end.
Definition LoseDualDial (l : Link) : Link :=
  let l := l <| phase_ := Backoff |> in
  let drop_key := peer_key_ l in
  let remote := remote_peer_id_ l in
  let assoc_ok := bool_decide (remote <> ""%string)
                  && match has_other_connected host_ with Some f => f remote | None => false end in
  let l := if schedule_drop host_ then link_note (LkScheduleDrop (Handle l)) l else l in
  let l := if assoc_ok && link_outbound l && schedule_adopt_alias host_
           then link_note (LkAdoptAlias remote drop_key) l else l in
  TellEstablished (if assoc_ok then Ok tt else Fail (LinkOf DualDialLost "amp link: dual-dial election lost")) l.

(** Connected: the connection sealed, the multiplexer attached, the handshake gone. *)
Definition BringUp (l : Link) (session : Session) (m : ChannelMux Wire) : Link :=
  let l := l <| wire_ ::= fun w => w <| connection_ ::= fmap (fun c => conn_protect c session) |> |> in
  let l := l <| mux_ := Some (m <| transport_set := true |>) |> in
  let l := match handshake_ l with
           | Some h => if link_carrier_backed l && negb (link_outbound l)
                       then l <| carrier_final_msh_ := last_wire_ h |> else l
           | None => l
           end in
  l <| handshake_ := None |> <| phase_ := Connected |>.

Definition FinishEstablishment (l : Link) (established : MshAdpEstablished) : Link :=
  let l := l <| link_master_ikm_ := adp_master_ikm established |>
             <| link_transcript_hash_ := adp_transcript_hash established |>
             <| remote_identity_public_key_ := remote_identity_public_key established |> in
  let expected_peer_id := if link_outbound l && negb (link_carrier_backed l) then remote_peer_id_ l else ""%string in
  let l := l <| remote_peer_id_ := AuthenticatedPeerId l (remote_identity_public_key_ l) |> in
  if bool_decide (expected_peer_id <> ""%string) && bool_decide (remote_peer_id_ l <> expected_peer_id)
  then FailAssociationMessage l (Err_ "amp link: authenticated peer id does not match dial target") HandshakeFailed
  else
    match FromMaterial (local_material established) (link_master_ikm_ l) (link_transcript_hash_ l) with
    | Fail e => FailAssociationMessage l e HandshakeFailed
    | Ok session =>
        let l := l <| wire_ ::= fun w => w <| connection_ ::= fmap (fun c => conn_upgrade c (AssocKey session)) |>
                                           <| session_ := Some session |> |> in
        match NewMux (wire_ l) session with
        | Fail e =>
            FailAssociationMessage (l <| mux_ := Some (ChannelMux_new (initiator (material_ session)) (wire_ l)) |>)
              e HandshakeFailed
        | Ok m =>
            let l := BringUp l session m in
            match on_established host_ with
            | Some f => let '(l, kept) := f l in if negb kept then LoseDualDial l else AnnounceEstablished l
            | None => LoseDualDial l
            end
        end
    end.

Definition OnHandshakeComplete (l : Link) (established : Roe MshAdpEstablished) : Link :=
  match established with
  | Fail e => FailAssociationMessage l e HandshakeFailed
  | Ok established => FinishEstablishment l established
  end.

(** A call of the handshake: it reaches the link through [send_], and the
    outcome it reports, always last, is taken after. *)
Definition with_handshake {A} (l : Link) (h : MshAdpHandshake Wire) (f : MshAdpHandshake Wire -> MshAdpHandshake Wire * A)
    : Link * A :=
  let '(h', a) := f (h <| wires_ := wire_ l |>) in
  let l := l <| wire_ := wires_ h' |> <| handshake_ := Some h' |> in
  (fold_left OnHandshakeComplete (drop (length (completed_ h)) (completed_ h')) l, a).

Definition StartHandshakeCommon (l : Link) (role : Role) (on_established : option nat) : Link :=
  l <| establish_cb_ := on_established |> <| phase_ := Handshaking |> <| handshake_started_ms_ := NowMs l |>
    <| handshake_ := Some (MshAdpHandshake_new role (local_identity_ l) (wire_ l) (negb (link_carrier_backed l))) |>.

Definition StartOutboundHandshake (l : Link) (on_established : option nat) (r : Draw) : Link :=
  let l := StartHandshakeCommon l Initiator on_established in
  match handshake_ l with
  | None => l
  | Some h =>
      let '(l, started) := with_handshake l h (fun h => Start h r) in
      match started with
      | Fail e => if bool_decide (is_Some (establish_cb_ l)) then FailAssociationMessage l e HandshakeFailed else l
      | Ok _ => l
      end
  end.
Definition StartInboundHandshake (l : Link) (on_established : option nat) : Link :=
  StartHandshakeCommon l Responder on_established.

(** ** Handshake messages in pieces *)

Definition ForgetChunks (l : Link) : Link :=
  l <| msh_chunk_count_ := 0 |> <| msh_chunk_parts_ := [] |> <| msh_chunk_bytes_ := 0 |>.

Definition PushMshChunk (l : Link) (type index count : Z) (chunk : bytes) : Link * Roe (option bytes) :=
  if (count =? 0) || (count <=? index) then (l, Fail (Err_ "amp link: bad msh chunk meta"))
  else if kMaxMshChunkCount <? count then (l, Fail (Err_ "amp link: msh chunk count exceeds limit"))
  else
    let l := if msh_chunk_count_ l =? 0
             then l <| msh_chunk_type_ := type |> <| msh_chunk_count_ := count |>
                    <| msh_chunk_parts_ := replicate (Z.to_nat count) [] |> <| msh_chunk_bytes_ := 0 |>
             else l in
    if negb (type =? msh_chunk_type_ l) || negb (count =? msh_chunk_count_ l)
    then (l, Fail (Err_ "amp link: msh chunk stream mismatch"))
    else
      let empty := bool_decide (nth (Z.to_nat index) (msh_chunk_parts_ l) [] = []) in
      if empty && (kMaxMshMessageBytes <? msh_chunk_bytes_ l + size chunk)
      then (l, Fail (Err_ "amp link: msh chunk stream too large"))
      else
        let l := if empty
                 then l <| msh_chunk_bytes_ ::= fun n => n + size chunk |>
                        <| msh_chunk_parts_ ::= <[Z.to_nat index := chunk]> |>
                 else l in
        if existsb (fun part => bool_decide (part = [])) (msh_chunk_parts_ l) then (l, Ok None)
        else
          let body := concat (msh_chunk_parts_ l) in
          let l := ForgetChunks l in
          match EncodeMsh (msh_chunk_type_ l) body with
          | Fail e => (l, Fail e)
          | Ok wire => (l, Ok (Some wire))
          end.

(** A whole handshake message, [(void)handshake_->HandleMsh(...)]. *)
Definition HandleWholeMsh (l : Link) (payload : bytes) (r : Draw) : Link :=
  match DecodeMshType payload, DecodeMshBody payload, handshake_ l with
  | Ok msh_type, Ok body, Some h => (with_handshake l h (fun h => HandleMsh h msh_type body r)).1
  | _, _, _ => l
  end.

Definition HandleCarrierMshChunk (l : Link) (payload : bytes) (r : Draw) : Link :=
  match DecodeMshChunk payload with
  | Fail _ => l
  | Ok (type, index, count, piece) =>
      let l := if negb (msh_chunk_count_ l =? 0)
                  && (negb (type =? msh_chunk_type_ l) || negb (count =? msh_chunk_count_ l))
               then ForgetChunks l else l in
      let '(l, assembled) := PushMshChunk l type index count piece in
      match assembled with
      | Ok (Some wire) => HandleWholeMsh l wire r
      | _ => l
      end
  end.

(** ** Receiving *)

Definition HandleCarrierFrame (l : Link) (payload : bytes) (r : Draw) : Link :=
  let kind := DecodeKind payload in
  match kind with
  | Ok k =>
      if (k =? payload_kind_to_Z LaneData) || (k =? payload_kind_to_Z LaneAck) then HandleLaneFrame l k payload
      else if bool_decide (phase_ l = Connected) && bool_decide (is_Some (mux_ l)) then
        if k =? payload_kind_to_Z Msh then
          match DecodeMshType payload with
          | Ok msh => if (msh =? msh_type_to_Z Finished) && negb (bool_decide (carrier_final_msh_ l = []))
                      then SendLinkCarrier l (carrier_final_msh_ l) else l
          | Fail _ => l
          end
        else if negb (k =? payload_kind_to_Z Sealed) && negb (k =? payload_kind_to_Z SealedReliable) then l
        else DeliverSealedCarrierWire l payload
      else if bool_decide (handshake_ l = None) then l
      else if k =? payload_kind_to_Z MshChunk then HandleCarrierMshChunk l payload r
      else if negb (k =? payload_kind_to_Z Msh) then l
      else HandleWholeMsh l payload r
  | Fail _ => l
  end.

Definition HandleAdpPayload (l : Link) (payload : bytes) (r : Draw) : Link :=
  if bool_decide (phase_ l = Connected) && bool_decide (is_Some (mux_ l)) then l
  else if bool_decide (handshake_ l = None) then l
  else
    match DecodeKind payload with
    | Fail _ => l
    | Ok kind =>
        if kind =? payload_kind_to_Z MshChunk then
          match DecodeMshChunk payload with
          | Fail _ => l
          | Ok (type, index, count, piece) =>
              let '(l, assembled) := PushMshChunk l type index count piece in
              match assembled with
              | Fail e => FailAssociationMessage l e HandshakeFailed
              | Ok None => l
              | Ok (Some wire) => HandleWholeMsh l wire r
              end
          end
        else if negb (kind =? payload_kind_to_Z Msh) then l
        else HandleWholeMsh l payload r
    end.

(** The handlers the link sets on its connection and on its carrier. *)
Definition OnConnectionMessage (l : Link) (message : Message) (r : Draw) : Link :=
  if m_sealed message then DeliverFrame l (m_payload message) else HandleAdpPayload l (m_payload message) r.
Definition OnCarrierFrame (l : Link) (frame : Roe bytes) (r : Draw) : Link * bool :=
  match frame with
  | Fail e => (FailAssociationMessage l e CarrierClosed, false)
  | Ok frame => (HandleCarrierFrame l frame r, true)
  end.
Definition OnCarrierClosed (l : Link) (reason : string) : Link :=
  if bool_decide (phase_ l = Connected) then l <| phase_ := Backoff |>
  else FailAssociation l (LinkOf CarrierClosed (if bool_decide (reason = "") then "amp carrier closed"%string else reason)).

(** ** Timers *)

Definition TickCarrierHandshake (l : Link) (now_ms : Z) : Link :=
  match handshake_ l with
  | Some h =>
      if negb (link_carrier_backed l) || negb (link_outbound l) || negb (bool_decide (phase_ l = Handshaking))
         || (carrier_msh_resend_at_ms_ (wire_ l) =? 0) || (now_ms <? carrier_msh_resend_at_ms_ (wire_ l))
      then l
      else
        let interval := Z.min (carrier_msh_resend_interval_ms_ (wire_ l) * 2) kCarrierHandshakeResendMaxMs in
        let l := l <| wire_ ::= fun w => w <| carrier_msh_resend_interval_ms_ := interval |>
                                           <| carrier_msh_resend_at_ms_ := now_ms + interval |> |> in
        let l := l <| wire_ ::= SendLaneProbe |> in
        match LastChunks h with
        | Ok chunks => fold_left SendLinkCarrier chunks l
        | Fail _ => l
        end
  | None => l
  end.

Definition TickCarrierLane (l : Link) (now_ms : Z) : Link :=
  match lane_ (wire_ l) with
  | Some lane =>
      if negb (bool_decide (phase_ l = Connected)) then l
      else
        let '(lane, wires) := DueResends lane now_ms in
        fold_left SendLinkCarrier wires (l <| wire_ ::= fun w => w <| lane_ := Some lane |> |>)
  | None => l
  end.

(** ** Keeping alive *)

Definition GetKeepaliveTier (l : Link) : KeepaliveTier :=
  tier_max (keepalive_tier_ l) (match mux_ l with Some m => ChannelsKeepaliveTier m | None => TierNone end).

Definition StopKeepaliveIfUnheld (l : Link) : Link :=
  match connection_ (wire_ l) with
  | None => l
  | Some c =>
      if link_carrier_backed l || (conn_keepalive_interval c =? 0) || negb (bool_decide (GetKeepaliveTier l = TierNone))
      then l
      else l <| last_keepalive_tx_ms_ := 0 |>
             <| wire_ ::= fun w => w <| connection_ := Some (conn_stop_keepalive c (NowMs l)).1 |> |>
  end.

Definition MarkWarm (l : Link) : Link := l <| keepalive_tier_ := TierWarm |>.
Definition MarkHot (l : Link) : Link := l <| keepalive_tier_ := TierHot |>.
Definition ClearWarm (l : Link) : Link := StopKeepaliveIfUnheld (l <| keepalive_tier_ := TierNone |>).

Definition LinkSendKeepalive (l : Link) (now_ms interval_ms : Z) : Link * LinkRoe :=
  match link_carrier_backed l, connection_ (wire_ l) with
  | false, Some c =>
      let '(c, sent) := conn_send_keepalive c now_ms interval_ms in
      let l := l <| wire_ ::= fun w => w <| connection_ := Some c |> |> in
      match sent with
      | Fail e => (l, Fail (WrapConnectionFailure e))
      | Ok _ => (l <| last_keepalive_tx_ms_ := now_ms |>, Ok tt)
      end
  | _, _ => (l, Fail (LinkOf TransportUnavailable "amp link: keepalive unavailable"))
  end.

Definition LinkSendProbe (l : Link) (now_ms : Z) : Link * LinkRoe :=
  match link_carrier_backed l, connection_ (wire_ l) with
  | false, Some c =>
      let l := l <| last_probe_ms_ := now_ms |> in
      let '(c, sent) := conn_send_probe c now_ms in
      let l := l <| wire_ ::= fun w => w <| connection_ := Some c |> |> in
      match sent with
      | Fail e => (l, Fail (WrapConnectionFailure e))
      | Ok _ => (l, Ok tt)
      end
  | _, _ => (l, Fail (LinkOf TransportUnavailable "amp link: probe unavailable"))
  end.

Definition MarkSuspect (l : Link) (now_ms : Z) : Link :=
  l <| suspect_since_ms_ := now_ms |> <| last_probe_ms_ := 0 |> <| suspect_from_verify_ := false |>.
Definition MarkVerifying (l : Link) (now_ms : Z) : Link :=
  if negb (suspect_since_ms_ l =? 0) then l
  else l <| suspect_since_ms_ := now_ms |> <| last_probe_ms_ := 0 |> <| suspect_from_verify_ := true |>.
Definition ClearSuspect (l : Link) : Link := l <| suspect_since_ms_ := 0 |> <| suspect_from_verify_ := false |>.

(** ** Rekeying *)

Definition epoch_of (s : Session) : Z := session_epoch (material_ s).

(** The session is shared: the connection seals with the same object. *)
Definition share_session (s : Session) (w : Wire) : Wire :=
  w <| session_ := Some s |> <| connection_ ::= fmap (fun c => conn_protect c s) |>.

(** [on_complete] has been moved into [rekey_cb_] before anything is sent, which
    leaves nothing in it to call if that fails. *)
Definition RequestSessionRekey (l : Link) (on_complete : option nat) : Link :=
  let answer e l := match on_complete with Some cb => link_note (LkRekey cb (Fail (Err_ e))) l | None => l end in
  match phase_ l, mux_ l, session_ (wire_ l) with
  | Connected, Some m, Some session =>
      if bool_decide (is_Some (rekey_cb_ l)) then answer "amp link: rekey already in flight" l
      else
        let l := l <| rekey_cb_ := on_complete |> in
        match EncodeRekey (MkSessionRekeyMessage RekeyRequest (u32 (epoch_of session + 1))) with
        | Fail _ => l <| rekey_cb_ := None |>
        | Ok encoded =>
            if negb (bool_decide (MuxState m kCapabilityChannelId = ChannelOpen)) then l <| rekey_cb_ := None |>
            else
              let '(l, sent) := with_mux l m (fun m => SendData m kCapabilityChannelId encoded) in
              match sent with
              | Fail _ => l <| rekey_cb_ := None |>
              | Ok _ => l
              end
        end
  | _, _, _ => answer "amp link: not connected" l
  end.

Definition finish_rekey (result : Roe unit) (l : Link) : Link :=
  match rekey_cb_ l with
  | Some cb => link_note (LkRekey cb result) l <| rekey_cb_ := None |>
  | None => l
  end.

Definition HandleSessionControl (l : Link) (payload : bytes) : Link :=
  match phase_ l, mux_ l, session_ (wire_ l) with
  | Connected, Some m, Some session =>
      match DecodeRekey payload with
      | Fail _ => l
      | Ok decoded =>
          let now_ms := NowMs l in
          if negb (target_epoch decoded =? u32 (epoch_of session + 1)) then l
          else match kind decoded with
          | RekeyRequest =>
              let l := match EncodeRekey (MkSessionRekeyMessage RekeyAck (target_epoch decoded)) with
                       | Ok encoded => (with_mux l m (fun m => SendData m kCapabilityChannelId encoded)).1
                       | Fail _ => l
                       end in
              l <| wire_ ::= share_session (ApplyRekey session (target_epoch decoded) now_ms).1 |>
          | RekeyAck =>
              let '(session, applied) := ApplyRekey session (target_epoch decoded) now_ms in
              finish_rekey applied (l <| wire_ ::= share_session session |>)
          end
      end
  | _, _, _ => l
  end.

(** ** The rest of the state *)

Definition SetLinkIdentity (l : Link) (id generation : Z) : Link := l <| link_id_ := id |> <| generation_ := generation |>.
Definition RebindDialKey (l : Link) (peer_key : string) : Link := l <| peer_key_ := peer_key |>.
Definition MarkPunched (l : Link) : Link := l <| punched_ := true |>.
Definition SetLastKeepaliveTxMs (l : Link) (ms : Z) : Link := l <| last_keepalive_tx_ms_ := ms |>.
Definition ApplyRemoteCapability (l : Link) (payload : CapabilityPayload) : Link := l <| remote_capability_ := Some payload |>.
Definition ApplyRemoteCapabilityExtension (l : Link) (extension : CapabilityExtension) : Link :=
  l <| remote_extension_ := Some extension |>.
Definition MarkCapabilityExtensionSent (l : Link) : Link := l <| capability_extension_sent_ := true |>.
Definition MarkCapabilityExchangeStarted (l : Link) : Link := l <| capability_exchange_started_ := true |>.
Definition MarkCapabilityOfferSent (l : Link) : Link := l <| capability_offer_sent_ := true |>.

End PeerLink.
