(* ===== verification/PeerLinkProps.v ===== *)
(** * One link to a peer: theorems

    The pieces of a handshake message put together again, and how much of them is
    kept; what establishment demands of the peer's identity; rekeying. *)

From S2P Require Import Prelude L1Types Toy Connection ReliableChannel L2Types ToyCrypto SessionControl SessionKeys SessionCrypto Session ReplayWindow ChannelWire ChannelPolicy ChannelMux ChannelMuxFacts MuxReach MshMessages MshHandshake AmpAdpCarrier CarrierLane MshAdpHandshake LinkPolicy LinkWire PeerLink.

(** ** Handshake messages in pieces *)

Section Chunks.
Context {N C : Type}.
Abbreviation Link := (PeerLink N C).

Definition total_size (parts : list bytes) : Z := foldr (fun p acc => size p + acc) 0 parts.

Lemma total_size_app p q : total_size (p ++ q) = total_size p + total_size q.
Proof. induction p as [|x p IH]; simpl; lia. Qed.
Lemma total_size_insert parts i chunk :
  parts !! i = Some [] -> total_size (<[i := chunk]> parts) = total_size parts + size chunk.
Proof.
  revert i. induction parts as [|p parts IH]; intros [|i] Hi; simpl in *; [done..| |].
  - injection Hi as ->. change (size []) with 0. lia.
  - rewrite (IH _ Hi). lia.
Qed.
Lemma total_size_replicate n : total_size (replicate n []) = 0.
Proof. induction n as [|n IH]; simpl; [done|]. change (size []) with 0. lia. Qed.
Lemma total_size_concat parts : total_size parts = size (concat parts).
Proof. induction parts as [|p parts IH]; simpl; [done|]. rewrite size_app. lia. Qed.

(** What is kept of a message: at most its pieces, counted exactly. *)
Record chunks_inv (l : Link) : Prop := {
  ci_count : msh_chunk_count_ l = size (msh_chunk_parts_ l);
  ci_max : size (msh_chunk_parts_ l) <= kMaxMshChunkCount;
  ci_bytes : msh_chunk_bytes_ l = total_size (msh_chunk_parts_ l);
  ci_limit : msh_chunk_bytes_ l <= kMaxMshMessageBytes;
}.

(** The pieces taken, whatever the outcome. *)
Definition push_piece (l : Link) (p : Z * Z * Z * bytes) : Link :=
  let '(type, index, count, chunk) := p in (PushMshChunk l type index count chunk).1.

Lemma ForgetChunks_inv (l : Link) : chunks_inv (ForgetChunks l).
Proof. by split. Qed.

(** The link a piece starts a message on, or goes on with one. *)
Definition chunk_stream (l : Link) (type count : Z) : Link :=
  if msh_chunk_count_ l =? 0
  then l <| msh_chunk_type_ := type |> <| msh_chunk_count_ := count |>
         <| msh_chunk_parts_ := replicate (Z.to_nat count) [] |> <| msh_chunk_bytes_ := 0 |>
  else l.
Lemma chunk_stream_inv (l : Link) type count : chunks_inv l -> 0 < count <= kMaxMshChunkCount -> chunks_inv (chunk_stream l type count).
Proof.
  intros Hi Hc. unfold chunk_stream. destruct (_ =? 0); [|done].
  split; cbn; rewrite ?total_size_replicate; unfold size; rewrite ?length_replicate; unfold kMaxMshMessageBytes; lia.
Qed.

Lemma PushMshChunk_inv (l : Link) type index count chunk :
  0 <= index -> 0 <= count -> chunks_inv l -> chunks_inv (PushMshChunk l type index count chunk).1.
Proof.
  intros Hindex Hcount Hi. unfold PushMshChunk. destruct (Z.eqb_spec count 0); [done|].
  destruct (Z.leb_spec count index); [done|]. destruct (Z.ltb_spec kMaxMshChunkCount count); [done|]. cbn [orb].
  fold (chunk_stream l type count). pose proof (chunk_stream_inv l type count Hi ltac:(lia)) as Hs.
  set (l1 := chunk_stream l type count) in *. clearbody l1. cbv zeta.
  destruct (_ || _) eqn:Hmatch; [done|]. zbool. case_bool_decide as Hempty; cbn [andb].
  - destruct (Z.ltb_spec kMaxMshMessageBytes (msh_chunk_bytes_ l1 + size chunk)); [done|].
    destruct Hs as [J1 J2 J3 J4].
    set (l2 := l1 <| msh_chunk_bytes_ ::= _ |> <| msh_chunk_parts_ ::= _ |>).
    assert (Hl2 : chunks_inv l2).
    { assert (Hlk : msh_chunk_parts_ l1 !! Z.to_nat index = Some []).
      { destruct (lookup_lt_is_Some_2 (msh_chunk_parts_ l1) (Z.to_nat index)) as [p Hp]; [unfold size in J1; lia|].
        rewrite (nth_lookup_Some _ _ [] p Hp) in Hempty. congruence. }
      split; cbn; rewrite ?(total_size_insert _ _ _ Hlk); unfold size; rewrite ?length_insert; fold (size chunk);
        unfold size in *; lia. }
    clearbody l2. destruct (existsb _ _); [done|apply ForgetChunks_inv].
  - destruct (existsb _ _); [done|apply ForgetChunks_inv].
Qed.

(** The pieces of handshake messages kept are bounded.  Whatever pieces come,
    honest or not, at most [kMaxMshChunkCount] of them are held, of at most
    [kMaxMshMessageBytes] bytes together, and the count of bytes is exact. *)
Theorem msh_chunks_bounded (peer_key remote : string) (w : LinkWire N C) (identity : MshIdentity)
    (pieces : list (Z * Z * Z * bytes)) :
  Forall (fun '(_, index, count, _) => is_u16 index /\ is_u16 count) pieces ->
  let l := fold_left push_piece pieces (PeerLink_over w peer_key remote identity) in
  size (msh_chunk_parts_ l) <= kMaxMshChunkCount /\ total_size (msh_chunk_parts_ l) = msh_chunk_bytes_ l
  /\ msh_chunk_bytes_ l <= kMaxMshMessageBytes.
Proof.
  intros Hall. cbv zeta. set (l0 := PeerLink_over w peer_key remote identity).
  assert (H0 : chunks_inv l0) by (by split). clearbody l0.
  enough (chunks_inv (fold_left push_piece pieces l0)) as [_ ? ? ?] by (split_and!; [done|congruence|done]).
  revert l0 H0. induction Hall as [|[[[type index] count] chunk] pieces [Hx Hc] _ IH]; intros l0 H0; [done|].
  apply IH. unfold is_u16 in *. apply PushMshChunk_inv; [lia..|done].
Qed.

(** The pieces of a message and those of them taken. *)
Definition n_chunks (body : bytes) : nat := (length body + kMaxMshBodyPerDatagram - 1) / kMaxMshBodyPerDatagram.
Definition piece (body : bytes) (i : nat) : bytes := take kMaxMshBodyPerDatagram (drop (i * kMaxMshBodyPerDatagram) body).
Definition held (body : bytes) (seen : list nat) : list bytes :=
  map (fun i => if decide (i ∈ seen) then piece body i else []) (List.seq 0 (n_chunks body)).

Lemma n_chunks_spec body : (0 < length body)%nat ->
  (0 < n_chunks body /\ (n_chunks body - 1) * kMaxMshBodyPerDatagram < length body <= n_chunks body * kMaxMshBodyPerDatagram)%nat.
Proof.
  intros Hl. unfold n_chunks, kMaxMshBodyPerDatagram. pose proof (Nat.div_mod_eq (length body + 900 - 1) 900).
  pose proof (Nat.mod_upper_bound (length body + 900 - 1) 900 ltac:(lia)). lia.
Qed.

Lemma n_chunks_cover body : (length body <= n_chunks body * kMaxMshBodyPerDatagram)%nat.
Proof. destruct (decide (length body = 0)%nat) as [->|]; [lia|]. apply n_chunks_spec. lia. Qed.

Lemma piece_nonempty body i : (i < n_chunks body)%nat -> piece body i <> [].
Proof.
  intros Hi Hnil. apply (f_equal length) in Hnil. unfold piece in Hnil. rewrite length_take, length_drop in Hnil. change (length []) with 0%nat in Hnil.
  destruct (decide (length body = 0)%nat) as [H0|H0].
  - unfold n_chunks in Hi. rewrite H0 in Hi. vm_compute in Hi. lia.
  - pose proof (n_chunks_spec body ltac:(lia)) as (_ & Hn & _). unfold kMaxMshBodyPerDatagram in *. lia.
Qed.

Lemma held_lookup body seen i : (i < n_chunks body)%nat ->
  held body seen !! i = Some (if decide (i ∈ seen) then piece body i else []).
Proof. intros Hi. unfold held. by rewrite list_lookup_fmap, lookup_seq_lt. Qed.
Lemma held_length body seen : length (held body seen) = n_chunks body.
Proof. unfold held. by rewrite length_map, length_seq. Qed.

Lemma held_nil body : held body [] = replicate (n_chunks body) [].
Proof.
  apply list_eq. intros i. destruct (decide (i < n_chunks body)%nat) as [Hi|Hi].
  - rewrite held_lookup, lookup_replicate_2 by done. rewrite decide_False by apply not_elem_of_nil. done.
  - rewrite !lookup_ge_None_2; rewrite ?held_length, ?length_replicate; try lia. done.
Qed.

Lemma held_insert body seen i : (i < n_chunks body)%nat -> <[i := piece body i]> (held body seen) = held body (i :: seen).
Proof.
  intros Hi. apply list_eq. intros j. destruct (decide (j < n_chunks body)%nat) as [Hj|Hj].
  - rewrite (held_lookup body (i :: seen)) by done. destruct (decide (j = i)) as [->|Hne].
    + rewrite list_lookup_insert_eq by (by rewrite held_length). rewrite decide_True by set_solver. done.
    + rewrite list_lookup_insert_ne, held_lookup by done. do 2 case_decide; set_solver.
  - rewrite !lookup_ge_None_2; rewrite ?length_insert, ?held_length; try lia. done.
Qed.
Lemma held_seen body seen i : i ∈ seen -> held body (i :: seen) = held body seen.
Proof. intros Hi. apply map_ext. intros j. do 2 case_decide; set_solver. Qed.

(** All the pieces are the message. *)
Lemma held_all body seen : (forall i, (i < n_chunks body)%nat -> i ∈ seen) -> concat (held body seen) = body.
Proof.
  intros Hall. transitivity (concat (pieces kMaxMshBodyPerDatagram (n_chunks body) body)).
  - f_equal. apply list_eq. intros i. destruct (decide (i < n_chunks body)%nat) as [Hi|Hi].
    + rewrite held_lookup, pieces_lookup by done. by rewrite decide_True by auto.
    + rewrite !lookup_ge_None_2; rewrite ?held_length, ?pieces_length; try lia. done.
  - by apply pieces_concat, n_chunks_cover.
Qed.

Lemma held_size body seen : total_size (held body seen) <= size body.
Proof.
  transitivity (total_size (map (piece body) (List.seq 0 (n_chunks body)))).
  - unfold held. generalize (List.seq 0 (n_chunks body)). intros l. induction l as [|i l IH]; simpl; [lia|].
    pose proof (size_nonneg (piece body i)). case_decide; [lia|]. change (size (A := Z) []) with 0. lia.
  - rewrite total_size_concat. change (map _ _) with (pieces kMaxMshBodyPerDatagram (n_chunks body) body).
    rewrite pieces_concat; [lia|by apply n_chunks_cover].
Qed.

Lemma held_missing body seen :
  existsb (fun part => bool_decide (part = [])) (held body seen) = true
  <-> exists i, (i < n_chunks body)%nat /\ i ∉ seen.
Proof.
  rewrite existsb_exists. split.
  - intros (p & Hp%list_elem_of_In & He). apply bool_decide_eq_true in He as ->. apply list_elem_of_lookup in Hp as [i Hi].
    assert (Hlt : (i < n_chunks body)%nat) by (rewrite <- (held_length body seen); by eapply lookup_lt_Some).
    exists i. split; [done|]. intros Hs. rewrite held_lookup, decide_True in Hi by done. injection Hi as Hi.
    by apply (piece_nonempty body i).
  - intros (i & Hi & Hs). exists []. split; [|by apply bool_decide_eq_true].
    apply list_elem_of_In, list_elem_of_lookup. exists i. rewrite held_lookup by done. by rewrite decide_False.
Qed.

(** A link that has taken the pieces [seen] of a message, and none of another. *)
Definition assembling (l : Link) (type : Z) (body : bytes) (seen : list nat) : Prop :=
  if decide (seen = []) then msh_chunk_count_ l = 0
  else msh_chunk_type_ l = type /\ msh_chunk_count_ l = Z.of_nat (n_chunks body)
       /\ msh_chunk_parts_ l = held body seen /\ msh_chunk_bytes_ l = total_size (held body seen).

Definition short_message (body : bytes) : Prop := (0 < length body)%nat /\ size body <= kMaxMshMessageBytes.

Lemma short_message_chunks body : short_message body -> 0 < Z.of_nat (n_chunks body) <= kMaxMshChunkCount.
Proof.
  intros [H0 Hm]. pose proof (n_chunks_spec body H0) as (Hp & Hn & _). unfold kMaxMshBodyPerDatagram in Hn.
  change kMaxMshChunkCount with 14. unfold kMaxMshMessageBytes, size in Hm. lia.
Qed.

(** Taking one piece. *)
Lemma push_assembling (l : Link) type body seen i :
  short_message body -> (i < n_chunks body)%nat -> assembling l type body seen ->
  let '(l', r) := PushMshChunk l type (Z.of_nat i) (Z.of_nat (n_chunks body)) (piece body i) in
  ((exists j, (j < n_chunks body)%nat /\ j ∉ i :: seen) -> r = Ok None /\ assembling l' type body (i :: seen))
  /\ ((forall j, (j < n_chunks body)%nat -> j ∈ i :: seen) ->
      r = Ok (Some ([payload_kind_to_Z Msh] ++ [type] ++ body)) /\ msh_chunk_count_ l' = 0).
Proof.
  intros Hb Hi Ha. pose proof (short_message_chunks body Hb) as Hc. unfold PushMshChunk.
  rewrite (proj2 (Z.eqb_neq _ _)) by lia. rewrite (proj2 (Z.leb_gt _ _)) by lia. rewrite (proj2 (Z.ltb_ge _ _)) by lia. cbn [orb].
  fold (chunk_stream l type (Z.of_nat (n_chunks body))). set (l1 := chunk_stream _ _ _).
  assert (H1 : msh_chunk_type_ l1 = type /\ msh_chunk_count_ l1 = Z.of_nat (n_chunks body)
               /\ msh_chunk_parts_ l1 = held body seen /\ msh_chunk_bytes_ l1 = total_size (held body seen)).
  { unfold l1, chunk_stream, assembling in *. destruct (decide (seen = [])) as [->|].
    - rewrite Ha, held_nil, total_size_replicate, Nat2Z.id. done.
    - destruct Ha as (? & Hcount & ? & ?). rewrite (proj2 (Z.eqb_neq _ _)) by lia. done. }
  clearbody l1. destruct H1 as (Ht & Hn & Hp & Hs). cbv zeta.
  rewrite Ht, Hn, !Z.eqb_refl, Hp, Nat2Z.id. cbn [negb orb].
  rewrite (nth_lookup_Some _ _ [] _ (held_lookup body seen i Hi)).
  set (e := bool_decide (_ = [])).
  assert (He : e = bool_decide (i ∉ seen)).
  { apply bool_decide_ext. case_decide; [|done]. split; [by intros ?%piece_nonempty|done]. }
  assert (Hsize : e = true -> msh_chunk_bytes_ l1 + size (piece body i) = total_size (held body (i :: seen))).
  { rewrite He. intros Hni%bool_decide_eq_true. rewrite <- held_insert by done. rewrite total_size_insert; [lia|].
    rewrite held_lookup by done. by rewrite decide_False. }
  pose proof (held_size body (i :: seen)) as Hle. destruct Hb as [_ Hb].
  replace (e && _) with false.
  2:{ destruct e; [|done]. rewrite (Hsize eq_refl). symmetry. apply Z.ltb_ge. lia. }
  set (l2 := if e then _ else l1).
  assert (H2 : msh_chunk_type_ l2 = type /\ msh_chunk_count_ l2 = Z.of_nat (n_chunks body)
               /\ msh_chunk_parts_ l2 = held body (i :: seen) /\ msh_chunk_bytes_ l2 = total_size (held body (i :: seen))).
  { unfold l2. destruct e; symmetry in He.
    - apply bool_decide_eq_true in He. split_and!; [done|done| |by rewrite <- Hsize]. cbn. rewrite Hp. by apply held_insert.
    - apply bool_decide_eq_false, dec_stable in He. rewrite (held_seen body seen i He). done. }
  clearbody l2. destruct H2 as (Ht2 & Hn2 & Hp2 & Hs2). rewrite Hp2. pose proof (held_missing body (i :: seen)) as Hmiss.
  destruct (existsb _ _); (split; [intros Hmissing|intros Hall]).
  - split; [done|]. unfold assembling. by rewrite decide_False by done.
  - destruct (proj1 Hmiss eq_refl) as (j & Hj & Hnj). by destruct Hnj; apply Hall.
  - by apply Hmiss in Hmissing.
  - rewrite held_all by done. cbn. by rewrite Ht2.
Qed.

(** The pieces as they come from the wire. *)
Definition feed (l : Link) (wire : bytes) : Link * Roe (option bytes) :=
  match DecodeMshChunk wire with
  | Ok (type, index, count, chunk) => PushMshChunk l type index count chunk
  | Fail e => (l, Fail e)
  end.
Fixpoint feed_all (l : Link) (wires : list bytes) : Link * list (Roe (option bytes)) :=
  match wires with
  | [] => (l, [])
  | w :: wires =>
      let '(l, r) := feed l w in
      let '(l, rs) := feed_all l wires in (l, r :: rs)
  end.

Lemma EncodeMshChunked_long type body : (kMaxMshBodyPerDatagram < length body)%nat -> short_message body ->
  EncodeMshChunked type body
  = Ok (map (msh_chunk type (Z.of_nat (n_chunks body)) body) (List.seq 0 (n_chunks body))).
Proof.
  intros Hl Hb. pose proof (short_message_chunks body Hb) as Hc. change kMaxMshChunkCount with 14 in Hc. unfold EncodeMshChunked.
  rewrite (proj2 (Nat.leb_gt _ _)) by done. cbv zeta. fold (n_chunks body). rewrite u16_id by (unfold is_u16; lia).
  by rewrite Nat2Z.id.
Qed.

Lemma feed_chunk (l : Link) type body i : short_message body -> (i < n_chunks body)%nat ->
  feed l (msh_chunk type (Z.of_nat (n_chunks body)) body i)
  = PushMshChunk l type (Z.of_nat i) (Z.of_nat (n_chunks body)) (piece body i).
Proof.
  intros Hb Hi. pose proof (short_message_chunks body Hb) as Hc. change kMaxMshChunkCount with 14 in Hc.
  unfold feed. by rewrite DecodeMshChunk_chunk by (unfold is_u16; lia).
Qed.

Lemma chunk_inj type body i j : short_message body -> (i < n_chunks body)%nat -> (j < n_chunks body)%nat ->
  msh_chunk type (Z.of_nat (n_chunks body)) body i = msh_chunk type (Z.of_nat (n_chunks body)) body j -> i = j.
Proof.
  intros Hb Hi Hj Heq. pose proof (short_message_chunks body Hb) as Hc. change kMaxMshChunkCount with 14 in Hc.
  apply (f_equal DecodeMshChunk) in Heq. rewrite !DecodeMshChunk_chunk in Heq by (unfold is_u16; lia).
  apply Ok_inj in Heq. apply Nat2Z.inj. congruence.
Qed.

(** Pieces that leave one missing give nothing. *)
Lemma feed_incomplete (l : Link) type body seen order :
  short_message body -> assembling l type body seen -> Forall (fun i => (i < n_chunks body)%nat) order ->
  (exists j, (j < n_chunks body)%nat /\ j ∉ order ++ seen) ->
  let '(l', rs) := feed_all l (map (msh_chunk type (Z.of_nat (n_chunks body)) body) order) in
  rs = replicate (length order) (Ok None) /\ exists seen', assembling l' type body seen'
    /\ forall j, j ∈ seen' <-> j ∈ order ++ seen.
Proof.
  intros Hb Ha Hord. revert l seen Ha. induction Hord as [|i order Hi _ IH]; intros l seen Ha Hmiss; cbn [feed_all map].
  - split; [done|]. by exists seen.
  - rewrite feed_chunk by done. pose proof (push_assembling l type body seen i Hb Hi Ha) as Hp.
    destruct (PushMshChunk _ _ _ _ _) as [l1 r]. destruct Hp as [Hp _]. destruct Hp as [-> Ha1].
    { destruct Hmiss as (j & Hj & Hn). exists j. set_solver. }
    specialize (IH l1 (i :: seen) Ha1). destruct (feed_all l1 _) as [l2 rs].
    destruct IH as (-> & seen' & Ha2 & Hs).
    { destruct Hmiss as (j & Hj & Hn). exists j. set_solver. }
    split; [done|]. exists seen'. split; [done|]. intros j. rewrite Hs. set_solver.
Qed.

Lemma feed_all_snoc (l : Link) ws w :
  feed_all l (ws ++ [w]) = let '(l, rs) := feed_all l ws in let '(l, r) := feed l w in (l, rs ++ [r]).
Proof.
  revert l. induction ws as [|w' ws IH]; intros l; cbn [feed_all app]; [by destruct (feed l w)|].
  destruct (feed l w') as [l1 r]. rewrite IH. destruct (feed_all l1 ws) as [l2 rs]. by destruct (feed l2 w).
Qed.

(** A handshake message sent in pieces is put together again.  Whatever the
    order its pieces come in, and however often each, nothing comes out before
    the last one missing, and then the whole message, byte for byte, with the
    link ready for the next. *)
Theorem msh_chunks_reassemble (l : Link) (type : Z) (body : bytes) (chunks order : list bytes) (last : bytes) :
  (kMaxMshBodyPerDatagram < length body)%nat -> size body <= kMaxMshMessageBytes -> msh_chunk_count_ l = 0 ->
  EncodeMshChunked type body = Ok chunks ->
  (forall w, w ∈ order ++ [last] <-> w ∈ chunks) -> last ∉ order ->
  let '(l', rs) := feed_all l (order ++ [last]) in
  rs = replicate (length order) (Ok None) ++ [Ok (Some ([payload_kind_to_Z Msh] ++ [type] ++ body))]
  /\ msh_chunk_count_ l' = 0.
Proof.
  intros Hlong Hmax H0 Henc Hin Hlast.
  assert (Hb : short_message body) by (split; [unfold kMaxMshBodyPerDatagram in Hlong; lia|done]).
  rewrite EncodeMshChunked_long in Henc by done. apply Ok_inj in Henc.
  set (chunk := msh_chunk type (Z.of_nat (n_chunks body)) body) in *.
  assert (Hof : forall w, w ∈ chunks <-> exists i, (i < n_chunks body)%nat /\ w = chunk i).
  { intros w. rewrite <- Henc. rewrite list_elem_of_fmap. split; intros (i & H1 & H2); exists i; rewrite elem_of_seq in *;
      split; (done || lia). }
  destruct (proj1 (Hof last) (proj1 (Hin last) ltac:(set_solver))) as (k & Hk & ->).
  assert (Hidx : exists idx, order = map chunk idx /\ Forall (fun i => (i < n_chunks body)%nat) idx).
  { assert (Hall : Forall (fun w => exists i, (i < n_chunks body)%nat /\ w = chunk i) order)
      by (apply Forall_forall; intros w Hw; apply Hof, Hin; set_solver).
    clear -Hall. induction Hall as [|w order (i & Hi & ->) _ (idx & -> & Hidx)]; [by exists []|].
    exists (i :: idx). split; [done|by constructor]. }
  destruct Hidx as (idx & -> & Hidx).
  assert (Hkidx : k ∉ idx) by (intros Hki; apply Hlast; apply list_elem_of_fmap; by exists k).
  rewrite feed_all_snoc. pose proof (feed_incomplete l type body [] idx Hb) as Hf. fold chunk in Hf.
  destruct (feed_all l (map chunk idx)) as [l1 rs]. destruct Hf as (-> & seen' & Ha & Hs); [done|done| |].
  { exists k. rewrite app_nil_r. done. }
  unfold chunk at 1. rewrite feed_chunk by done. pose proof (push_assembling l1 type body seen' k Hb Hk Ha) as Hp.
  destruct (PushMshChunk _ _ _ _ _) as [l2 r]. destruct Hp as [_ Hp]. destruct Hp as [-> ->]; [|by rewrite length_map].
  intros j Hj. apply elem_of_cons. destruct (decide (j = k)) as [|Hne]; [by left|right]. apply Hs. rewrite app_nil_r.
  assert (Hw : chunk j ∈ map chunk idx ++ [chunk k]) by (apply Hin, Hof; by exists j).
  apply elem_of_app in Hw as [(i & Heq & Hi)%list_elem_of_fmap|Heq%list_elem_of_singleton].
  - assert (i < n_chunks body)%nat by (by apply (proj1 (Forall_forall _ _) Hidx)).
    by rewrite (chunk_inj type body j i Hb Hj ltac:(done) Heq).
  - by destruct Hne; apply (chunk_inj type body j k Hb Hj Hk).
Qed.
End Chunks.

(** ** Establishment *)

Section Links.
Context {N C : Type} `{AdpConnection N} `{CarrierSession C}.
Context `{GenericHash} `{Sodium} `{Kdf} `{MlKem} `{MlDsa} `{Aead}.
Abbreviation Link := (PeerLink N C).
Abbreviation Wire := (LinkWire N C).

(** A host whose answer to [on_established] leaves the link's identity alone. *)
Definition host_keeps_identity (host : PeerLinkHostPorts N C) : Prop :=
  forall f l, on_established host = Some f ->
    remote_peer_id_ (f l).1 = remote_peer_id_ l /\ remote_identity_public_key_ (f l).1 = remote_identity_public_key_ l.

Lemma DeliverFrame_identity (l : Link) f :
  remote_peer_id_ (DeliverFrame l f) = remote_peer_id_ l
  /\ remote_identity_public_key_ (DeliverFrame l f) = remote_identity_public_key_ l.
Proof.
  unfold DeliverFrame. destruct (phase_ l); try done. destruct (mux_ l) as [m|]; [|done].
  unfold with_mux. by destruct (OnFrameInbound _ f).
Qed.
Lemma DeliverSealed_identity (l : Link) w :
  remote_peer_id_ (DeliverSealedCarrierWire l w) = remote_peer_id_ l
  /\ remote_identity_public_key_ (DeliverSealedCarrierWire l w) = remote_identity_public_key_ l.
Proof.
  unfold DeliverSealedCarrierWire. destruct (session_ _) as [s|]; [|done]. destruct (CarrierDecodeSealedHeader w) as [h|]; [|done].
  cbv zeta. destruct (negb _); [done|]. destruct (Session_OpenPacket _ _ _ _ _ _) as [opened|]; [|done].
  match goal with |- context [DeliverFrame ?l' opened] => destruct (DeliverFrame_identity l' opened) as [-> ->] end.
  by destruct (reliable h).
Qed.
Lemma TellEstablished_spec (r : LinkRoe) (l : Link) :
  TellEstablished r l
  = l <| link_log ::= fun log => log ++ match establish_cb_ l with Some cb => [LkEstablish cb r] | None => [] end |>
      <| establish_cb_ := None |>.
Proof.
  unfold TellEstablished. destruct (establish_cb_ l) eqn:He; [done|]. unfold set_field. rewrite app_nil_r. destruct l. cbn in He. by subst.
Qed.
Lemma AnnounceEstablished_identity (l : Link) :
  remote_peer_id_ (AnnounceEstablished l) = remote_peer_id_ l
  /\ remote_identity_public_key_ (AnnounceEstablished l) = remote_identity_public_key_ l.
Proof.
  unfold AnnounceEstablished. cbv zeta. rewrite TellEstablished_spec. set (l1 := l <| link_log ::= _ |> <| establish_cb_ := None |>).
  destruct (lane_ (wire_ l1)); [|done]. unfold FlushLaneBacklog. set (l2 := l1 <| wire_ ::= SendLaneProbe |>).
  assert (H2' : remote_peer_id_ l2 = remote_peer_id_ l /\ remote_identity_public_key_ l2 = remote_identity_public_key_ l) by done.
  clearbody l2. destruct (phase_ l2); try done. destruct (mux_ l2); [|done]. cbv zeta. set (l3 := l2 <| lane_backlog_ := [] |>).
  assert (H3' : remote_peer_id_ l3 = remote_peer_id_ l /\ remote_identity_public_key_ l3 = remote_identity_public_key_ l) by done.
  clearbody l3. revert l3 H3'. induction (lane_backlog_ l2) as [|w ws IH]; intros l3 H3'; [done|]. apply IH.
  destruct (DeliverSealed_identity l3 w) as [-> ->]. done.
Qed.
Lemma LoseDualDial_phase (host : PeerLinkHostPorts N C) (l : Link) : phase_ (LoseDualDial host l) = Backoff.
Proof.
  unfold LoseDualDial. cbv zeta. rewrite TellEstablished_spec. cbn. by destruct (_ && _), (schedule_drop host).
Qed.
Lemma FailAssociation_phase (l : Link) f : phase_ (FailAssociation l f) = Backoff.
Proof. unfold FailAssociation. by rewrite TellEstablished_spec. Qed.

(** What a failed association leaves of a link. *)
Definition failed_with (l : Link) (failure : LinkFailure) (l' : Link) : Prop :=
  phase_ l' = Backoff /\ handshake_ l' = None /\ wire_ l' = wire_ l /\ mux_ l' = mux_ l
  /\ link_log l' = link_log l ++ match establish_cb_ l with Some cb => [LkEstablish cb (Fail failure)] | None => [] end
  /\ establish_cb_ l' = None.
Lemma FailAssociation_spec (l : Link) f : failed_with l f (FailAssociation l f).
Proof.
  unfold failed_with, FailAssociation. by rewrite TellEstablished_spec.
Qed.

Lemma BringUp_identity (l : Link) session m :
  remote_peer_id_ (BringUp l session m) = remote_peer_id_ l
  /\ remote_identity_public_key_ (BringUp l session m) = remote_identity_public_key_ l.
Proof. unfold BringUp. cbn. destruct (handshake_ l); [|done]. by destruct (_ && _). Qed.

(** C14: a dialed peer is who it was dialed as.  An outbound link over a connection,
    dialed to a peer id, whose handshake authenticates another identity fails, and
    neither its session nor its connection's key comes into being; if it ends
    Connected, the identity authenticated is the one dialed.  Any other link takes
    the authenticated identity as its peer's. *)
Theorem dialed_peer_authenticated (host : PeerLinkHostPorts N C) (derive : bytes -> string) (l : Link) (established : MshAdpEstablished) :
  let key := remote_identity_public_key established in
  let l' := FinishEstablishment host l established in
  derive_peer_id host = Some derive -> host_keeps_identity host -> key <> [] -> derive key <> ""%string ->
  (link_outbound l = true -> link_carrier_backed l = false -> remote_peer_id_ l <> ""%string ->
     (derive key <> remote_peer_id_ l ->
        failed_with l (LinkOf HandshakeFailed "amp link: authenticated peer id does not match dial target") l')
     /\ (phase_ l' = Connected -> remote_peer_id_ l' = remote_peer_id_ l /\ derive key = remote_peer_id_ l))
  /\ (phase_ l' = Connected -> remote_peer_id_ l' = derive key /\ remote_identity_public_key_ l' = key).
Proof.
  cbv zeta. intros Hd Hkeep Hkey Hne. unfold FinishEstablishment. cbv zeta.
  set (l1 := l <| link_master_ikm_ := _ |> <| link_transcript_hash_ := _ |> <| remote_identity_public_key_ := _ |>).
  assert (Hauth : AuthenticatedPeerId host l1 (remote_identity_public_key_ l1) = derive (remote_identity_public_key established)).
  { unfold AuthenticatedPeerId. change (remote_identity_public_key_ l1) with (remote_identity_public_key established).
    rewrite bool_decide_false by done. rewrite Hd. by rewrite bool_decide_true by done. }
  rewrite Hauth. set (key := remote_identity_public_key established) in *. set (l2 := l1 <| remote_peer_id_ := derive key |>).
  change (link_outbound l1) with (link_outbound l). change (link_carrier_backed l1) with (link_carrier_backed l).
  change (remote_peer_id_ l1) with (remote_peer_id_ l). change (remote_peer_id_ l2) with (derive key).
  set (expected := if link_outbound l && negb (link_carrier_backed l) then remote_peer_id_ l else ""%string).
  destruct (bool_decide (expected <> ""%string) && bool_decide (derive key <> expected)) eqn:Hmis.
  - pose proof (FailAssociation_phase l2) as Hph. unfold FailAssociationMessage.
    split; [|rewrite Hph; done]. intros Ho Hc Hp. rewrite Hph. split; [|done]. intros _.
    apply (FailAssociation_spec l2).
  - match goal with |- context [phase_ ?x = Connected] => set (l' := x) end.
    assert (Hid : phase_ l' = Connected -> remote_peer_id_ l' = derive key /\ remote_identity_public_key_ l' = key).
    { unfold l'. destruct (FromMaterial _ _ _) as [session|e]; [|unfold FailAssociationMessage; by rewrite FailAssociation_phase].
      match goal with |- context [NewMux ?w session] => destruct (NewMux w session) as [m|e] end;
        [|unfold FailAssociationMessage; by rewrite FailAssociation_phase].
      match goal with |- context [LoseDualDial host ?x] => set (l3 := x) end.
      assert (Hl3 : remote_peer_id_ l3 = derive key /\ remote_identity_public_key_ l3 = key).
      { unfold l3. match goal with |- context [BringUp ?x session m] => destruct (BringUp_identity x session m) as [-> ->] end. done. }
      clearbody l3. destruct (on_established host) as [f|] eqn:Hf; [|by rewrite LoseDualDial_phase].
      destruct (Hkeep f l3 Hf) as [K1 K2]. destruct (f l3) as [l4 kept]. cbn [fst] in K1, K2.
      destruct kept; cbn [negb]; [|by rewrite LoseDualDial_phase].
      intros _. destruct (AnnounceEstablished_identity l4) as [-> ->]. rewrite K1, K2. exact Hl3. }
    clearbody l'. split; [|exact Hid]. intros Ho Hc Hp. assert (Heq : derive key = remote_peer_id_ l).
    { unfold expected in Hmis. rewrite Ho, Hc in Hmis. cbn [andb negb] in Hmis. rewrite bool_decide_true in Hmis by done.
      cbn [andb] in Hmis. by apply bool_decide_eq_false, dec_stable in Hmis. }
    split; [done|]. intros Hconn. destruct (Hid Hconn) as [-> _]. done.
Qed.

(** ** Rekeying *)

Lemma LinkTransport_session (w : Wire) q f : session_ (LinkTransport w q f).1 = session_ w.
Proof.
  unfold LinkTransport, SendAdp, SendAdpLink, SendCarrierWire. destruct (IsCarrierBacked w).
  - destruct (SealCarrierFrame w q f) as [w1 wire] eqn:Hs. assert (H1' : session_ w1 = session_ w).
    { unfold SealCarrierFrame in Hs. destruct (session_ w) as [s|] eqn:Hsw; [|by injection Hs as <- _]. cbv zeta in Hs.
      destruct (_ =? 4294967295); [by injection Hs as <- _|].
      destruct (Session_SealPacket _ _ _ _ _); injection Hs as <- _; by case_bool_decide. }
    destruct wire as [wire|]; [|done]. destruct (LaneWrap w1 q wire) as [w2 laned] eqn:Hl. assert (H2' : session_ w2 = session_ w1).
    { unfold LaneWrap in Hl. destruct (lane_ w1) as [lane|]; [|by injection Hl as <- _].
      destruct (_ && _); [|by injection Hl as <- _]. destruct (Wrap lane wire _). by injection Hl as <- _. }
    destruct laned as [wire'|]; [|cbn; congruence]. destruct (carrier_ w2) as [c|]; [|cbn; congruence].
    destruct (carrier_closed c); [cbn; congruence|]. destruct (carrier_enqueue c wire'). cbn. congruence.
  - destruct (connection_ w) as [c|]; [|done]. by destruct (conn_send c q f).
Qed.

(** A call of the multiplexer: only the link's wire and the multiplexer move, and
    of the wire not the session. *)
Lemma with_mux_frame {A} (l : Link) m (f : ChannelMux Wire -> ChannelMux Wire * A) :
  (forall m, via_transport m (f m).1) ->
  let l' := (with_mux l m f).1 in
  session_ (wire_ l') = session_ (wire_ l)
  /\ exists w m', l' = l <| wire_ := w |> <| mux_ := Some m' |>.
Proof.
  intros Hf. unfold with_mux. cbv zeta. set (m0 := m <| transport := _ |> <| clock_now := _ |>). specialize (Hf m0).
  destruct (f m0) as [m1 a]. cbn [fst] in *. split; [|by eexists _, _]. change (session_ (transport m1) = session_ (transport m0)).
  apply (via_ind (fun t _ => session_ t = session_ (transport m0)) m0 m1); [| |done|done].
  - intros t log q w t' r Ht _ Hsend. pose proof (LinkTransport_session t q w) as Hs.
    cbn [transport_send LinkWire_transport] in Hsend. rewrite Hsend in Hs. cbn [fst] in Hs. congruence.
  - done.
Qed.

Definition rekey_wire (kind : SessionControlKind) (epoch : Z) : bytes :=
  [kSessionControlWireVersion; kind_to_Z kind] ++ le_bytes 4 epoch.

(** A connected link whose session is [s]. *)
Definition in_session (l : Link) (s : Session) : Prop :=
  phase_ l = Connected /\ is_Some (mux_ l) /\ session_ (wire_ l) = Some s.

(** What a request and an acknowledgement of the next epoch do to a link. *)
Lemma HandleRequest (l : Link) s epoch : is_u32 epoch -> in_session l s -> epoch = u32 (epoch_of s + 1) ->
  let l' := HandleSessionControl l (rekey_wire RekeyRequest epoch) in
  in_session l' (ApplyRekey s epoch (NowMs l)).1 /\ rekey_cb_ l' = rekey_cb_ l /\ link_log l' = link_log l.
Proof.
  intros He (Hp & [m Hm] & Hs) ->. unfold HandleSessionControl. rewrite Hp, Hm, Hs. unfold rekey_wire.
  set (msg := MkSessionRekeyMessage RekeyRequest (u32 (epoch_of s + 1))).
  change (DecodeRekey _) with (DecodeRekey ([kSessionControlWireVersion; kind_to_Z (kind msg)] ++ le_bytes 4 (target_epoch msg))).
  rewrite DecodeRekey_layout by done. cbn [target_epoch msg kind]. rewrite Z.eqb_refl. cbn [negb]. rewrite EncodeRekey_layout.
  match goal with |- context [with_mux l m ?f] => destruct (with_mux_frame l m f ltac:(intros; apply SendData_via)) as (_ & w & m' & Heq) end.
  rewrite Heq. split_and!; try done.
Qed.
Lemma HandleAck_next (l : Link) s epoch : is_u32 epoch -> in_session l s -> epoch = u32 (epoch_of s + 1) ->
  HandleSessionControl l (rekey_wire RekeyAck epoch)
  = finish_rekey (ApplyRekey s epoch (NowMs l)).2 (l <| wire_ ::= share_session (ApplyRekey s epoch (NowMs l)).1 |>).
Proof.
  intros He (Hp & [m Hm] & Hs) ->. unfold HandleSessionControl. rewrite Hp, Hm, Hs. unfold rekey_wire.
  set (msg := MkSessionRekeyMessage RekeyAck (u32 (epoch_of s + 1))).
  change (DecodeRekey _) with (DecodeRekey ([kSessionControlWireVersion; kind_to_Z (kind msg)] ++ le_bytes 4 (target_epoch msg))).
  rewrite DecodeRekey_layout by done. cbn [target_epoch msg kind]. rewrite Z.eqb_refl. cbn [negb].
  by destruct (ApplyRekey s _ _).
Qed.
Lemma HandleStale (l : Link) s k epoch : is_u32 epoch -> in_session l s -> epoch <> u32 (epoch_of s + 1) ->
  HandleSessionControl l (rekey_wire k epoch) = l.
Proof.
  intros He (Hp & [m Hm] & Hs) Hne. unfold HandleSessionControl. rewrite Hp, Hm, Hs. unfold rekey_wire.
  set (msg := MkSessionRekeyMessage k epoch).
  change (DecodeRekey _) with (DecodeRekey ([kSessionControlWireVersion; kind_to_Z (kind msg)] ++ le_bytes 4 (target_epoch msg))).
  rewrite DecodeRekey_layout by done. cbn [target_epoch msg]. by rewrite (proj2 (Z.eqb_neq _ _) Hne).
Qed.

(** C26: rekeying, and how it locks up.  One end's request and the other's answer
    put both in the next epoch and tell the requester so.  But if both ends
    request at once, each moves on the other's request, and the answer to its
    own, now of no expected epoch, is ignored: both are in the next epoch, nobody
    is told, and from then on every request is refused as one in flight. *)
Theorem rekey_exchange `{!KdfLaws} (ikm th : bytes) (i : bool) (sa sb : Session) (a b : Link) (cb : nat) :
  session_run ikm th i sa -> session_run ikm th (negb i) sb -> epoch_of sa = epoch_of sb ->
  in_session a sa -> in_session b sb -> rekey_cb_ a = Some cb ->
  let next := u32 (epoch_of sa + 1) in
  let request := rekey_wire RekeyRequest next in
  let answer := rekey_wire RekeyAck next in
  (let a' := HandleSessionControl a answer in
   let b' := HandleSessionControl b request in
   link_log a' = link_log a ++ [LkRekey cb (Ok tt)] /\ rekey_cb_ a' = None
   /\ exists sa' sb', in_session a' sa' /\ in_session b' sb' /\ epoch_of sa' = next /\ epoch_of sb' = next)
  /\ (let a' := HandleSessionControl (HandleSessionControl a request) answer in
      link_log a' = link_log a /\ rekey_cb_ a' = Some cb
      /\ (exists sa', in_session a' sa' /\ epoch_of sa' = next)
      /\ forall cb', RequestSessionRekey a' (Some cb')
                     = link_note (LkRekey cb' (Fail (Err_ "amp link: rekey already in flight"))) a').
Proof.
  intros Ha Hb He Hina Hinb Hcb. cbv zeta. set (next := u32 (epoch_of sa + 1)). assert (Hn : is_u32 next) by apply u32_range.
  apply session_run_wf in Ha, Hb; [|done..].
  destruct (ApplyRekey_wf ikm th i sa next (NowMs a) Ha) as [_ Ha2]. destruct (ApplyRekey_wf ikm th (negb i) sb next (NowMs b) Hb) as [_ Hb2].
  unfold epoch_of in *. rewrite Z.eqb_refl in Ha2. replace (next =? _) with true in Hb2 by (symmetry; apply Z.eqb_eq; unfold next; by rewrite He).
  destruct Ha2 as (Hoka & Hea & _). destruct Hb2 as (Hokb & Heb & _). split.
  - rewrite (HandleAck_next a sa next Hn Hina eq_refl), Hoka.
    destruct (HandleRequest b sb next Hn Hinb ltac:(unfold next, epoch_of; by rewrite He)) as (Hb' & _ & _).
    unfold finish_rekey. change (rekey_cb_ (a <| wire_ ::= _ |>)) with (rekey_cb_ a). rewrite Hcb. split_and!; [done|done|].
    exists (ApplyRekey sa next (NowMs a)).1, (ApplyRekey sb next (NowMs b)).1. split_and!; try done. by destruct Hina as (? & ? & _).
  - destruct (HandleRequest a sa next Hn Hina eq_refl) as (Ha' & Hcb' & Hlog').
    rewrite (HandleStale _ _ RekeyAck next Hn Ha').
    2:{ unfold epoch_of. rewrite Hea. unfold is_u32, u32 in *. intros Heq.
        destruct (decide (next = 2 ^ 32 - 1)) as [Hmax|]; [rewrite Hmax in Heq; by vm_compute in Heq|].
        rewrite Z.mod_small in Heq by lia. lia. }
    split_and!; [done|congruence|by eexists|]. intros cb'. destruct Ha' as (Hp & [m Hm] & Hs).
    unfold RequestSessionRekey. rewrite Hp, Hm, Hs. rewrite Hcb', Hcb. done.
Qed.
End Links.

(** The carrier as the log of what it took. *)
#[export] Instance log_carrier : CarrierSession (list bytes) := {|
  carrier_closed := fun _ => false;
  carrier_enqueue := fun log body => (log ++ [body], true);
  carrier_max_frame := fun _ => None;
  carrier_attach := fun log => log;
  carrier_orphan := fun log => log;
|}.

(** ** Witnesses: links over a connection of L1 *)

Section Witness.
#[local] Existing Instance toy_sodium.
#[local] Existing Instance toy_aead.
#[local] Existing Instance toy_kdf.
#[local] Existing Instance toy_kdf_laws.
#[local] Existing Instance toy_kem.
#[local] Existing Instance toy_dsa.
#[local] Existing Instance toy_io.
Definition toy_hash : GenericHash := {| crypto_generichash := fun n m => replicate n (u8 (digest m)) |}.
#[local] Existing Instance toy_hash.

(** A peer id for each key: its bytes in hexadecimal. *)
Definition bytes_hex (key : bytes) : string :=
  fold_left (fun out byte => (out ++ hex_digit (Z.shiftr byte 4) ++ hex_digit (Z.land byte 15))%string) key ""%string.

Abbreviation ToyLink := (PeerLink (Connection Session ToyIo) (list bytes)).
Definition toy_link (outbound : bool) : ToyLink :=
  PeerLink_adp "dial" "01ff" outbound (Connection_new toy_host (toy_params 20)) (toy_identity 3).
Definition toy_ports : PeerLinkHostPorts (Connection Session ToyIo) (list bytes) :=
  MkPeerLinkHostPorts (Some bytes_hex) (Some (fun l => (l, true))) true true None.
Definition toy_established (i : bool) (identity : bytes) : MshAdpEstablished :=
  MkMshAdpEstablished (material_ (toy_session i)) toy_ikm toy_th identity.

Definition long_body : bytes := replicate 2000 7.
Theorem msh_chunks_bounded_witness :
  let pieces := [(1, 0, 3, [1; 2]); (1, 2, 3, [5]); (2, 0, 9, [1]); (1, 7, 3, [4])] in
  let l := fold_left push_piece pieces (toy_link true) in
  msh_chunk_parts_ l = [[1; 2]; []; [5]] /\ total_size (msh_chunk_parts_ l) = msh_chunk_bytes_ l.
Proof.
  cbv zeta. split; [by vm_compute|].
  apply (msh_chunks_bounded "dial" "01ff" (wire_ (toy_link true)) (toy_identity 3) [(1, 0, 3, [1; 2]); (1, 2, 3, [5]); (2, 0, 9, [1]); (1, 7, 3, [4])]).
  by repeat constructor.
Defined.

Theorem msh_chunks_reassemble_witness :
  let chunks := match EncodeMshChunked 2 long_body with Ok chunks => chunks | Fail _ => [] end in
  let c i := nth i chunks [] in
  let '(l, rs) := feed_all (toy_link false) ([c 2%nat; c 0%nat; c 2%nat] ++ [c 1%nat]) in
  rs = [Ok None; Ok None; Ok None; Ok (Some ([payload_kind_to_Z Msh] ++ [2] ++ long_body))] /\ msh_chunk_count_ l = 0.
Proof.
  cbv zeta. destruct (EncodeMshChunked 2 long_body) as [chunks|e] eqn:He; [|by vm_compute in He].
  assert (Hc : exists x y z, chunks = [x; y; z] /\ y <> x /\ y <> z).
  { vm_compute in He. apply Ok_inj in He. subst chunks. do 3 eexists. split; [reflexivity|]. split; discriminate. }
  destruct Hc as (x & y & z & -> & Hx & Hz). cbn [nth].
  apply (msh_chunks_reassemble (toy_link false) 2 long_body [x; y; z] [z; x; z] y); [by apply Nat.ltb_lt; vm_compute|by vm_compute|by vm_compute|exact He| |].
  - intros w. clear. rewrite !elem_of_app, !elem_of_cons, !elem_of_nil. naive_solver.
  - clear -Hx Hz. rewrite !elem_of_cons, elem_of_nil. naive_solver.
Defined.

Theorem dialed_peer_authenticated_witness :
  phase_ (FinishEstablishment toy_ports (toy_link true) (toy_established true [1; 255])) = Connected
  /\ remote_peer_id_ (FinishEstablishment toy_ports (toy_link true) (toy_established true [1; 255])) = "01ff"%string
  /\ failed_with (toy_link true) (LinkOf HandshakeFailed "amp link: authenticated peer id does not match dial target")
       (FinishEstablishment toy_ports (toy_link true) (toy_established true [1; 254])).
Proof.
  assert (Hc : phase_ (FinishEstablishment toy_ports (toy_link true) (toy_established true [1; 255])) = Connected) by (by vm_compute).
  assert (Hkeep : host_keeps_identity toy_ports) by (by intros f l [= <-]). split_and!; [exact Hc| |].
  - by apply (dialed_peer_authenticated toy_ports bytes_hex (toy_link true) (toy_established true [1; 255])).
  - by apply (dialed_peer_authenticated toy_ports bytes_hex (toy_link true) (toy_established true [1; 254])).
Defined.

Definition toy_connected (i : bool) : ToyLink :=
  FinishEstablishment toy_ports (toy_link false) (toy_established i [1; 255]) <| rekey_cb_ := Some 7%nat |>.
Theorem rekey_exchange_witness :
  link_log (HandleSessionControl (toy_connected true) (rekey_wire RekeyAck 2)) = [LkRekey 7 (Ok tt)]
  /\ rekey_cb_ (HandleSessionControl (HandleSessionControl (toy_connected true) (rekey_wire RekeyRequest 2)) (rekey_wire RekeyAck 2))
     = Some 7%nat.
Proof.
  assert (Hin : forall i, in_session (toy_connected i) (toy_session i)).
  { intros i. split_and!; destruct i; vm_compute; eauto. }
  destruct (rekey_exchange toy_ikm toy_th true (toy_session true) (toy_session false)
              (toy_connected true) (toy_connected false) 7 (toy_session_run true) (toy_session_run false)
              ltac:(vm_compute; reflexivity) (Hin true) (Hin false) ltac:(vm_compute; reflexivity))
    as [(Hlog & _) (_ & Hcb & _)].
  split; [exact Hlog|exact Hcb].
Defined.
End Witness.
