(* ===== verification/NestedLink.v ===== *)
(** * Two links nested over a carrier

    A carrier-backed link end to end: the multiplexer's reliable frames are sealed
    with the session's keys, numbered, given to the reliable lane and spliced by
    relays to the peer, which orders, opens and hands them to its own.  The
    theorem composes the lane, the session, the replay window and the link over a
    network that loses, repeats and reorders what either end's carrier took. *)

From Stdlib Require Import Sorted.
From S2P Require Import Prelude L1Types Toy Connection L2Types ToyCrypto SessionControl SessionKeys SessionCrypto Session ReplayWindow ConnectionSender ChannelWire ChannelPolicy ChannelMux ChannelMuxFacts MuxReach MshMessages MshHandshake AmpAdpCarrier CarrierLane CarrierLaneProps MshAdpHandshake LinkPolicy LinkWire PeerLink PeerLinkProps.

(** ** The replay window under rising numbers *)

(** Nothing above [hi] has been taken. *)
Record window_below (w : ReplayWindow) (hi : Z) : Prop := {
  wb_slide : slide_on_gap_ w = true;
  wb_size : window_size_ w = kCarrierReliableReplayWindow;
  wb_last : 0 <= last_contiguous_ w <= hi;
  wb_pending : forall x, x ∈ pending_ w -> x <= hi;
}.

Lemma absorb_below fuel w hi : hi < 2 ^ 32 -> window_below w hi -> window_below (absorb fuel w) hi.
Proof.
  intros Hhi. revert w. induction fuel as [|fuel IH]; intros w Hw; [done|]. cbn [absorb]. cbv zeta.
  destruct (decide _) as [Hin|]; [|done]. apply IH. destruct Hw as [H1 H2 H3 H4]. specialize (H4 _ Hin) as Hn.
  rewrite u64_id in * by (unfold is_u64; lia). split; cbn; [done|done|lia|]. intros x Hx. apply H4. set_solver.
Qed.

Lemma window_takes w hi n : window_below w hi -> hi < n -> n < 2 ^ 32 ->
  Classify w n = Fresh /\ window_below (Accept w n).1 n.
Proof.
  intros Hw Hn Hmax. pose proof Hw as [Hsl Hsz Hl Hp].
  assert (Hnp : n ∉ pending_ w) by (intros Hx; specialize (Hp _ Hx); lia). split.
  - unfold Classify. rewrite (proj2 (Z.eqb_neq _ _)) by lia. rewrite (proj2 (Z.leb_gt _ _)) by lia.
    rewrite bool_decide_false by done. rewrite Hsl. cbn [orb negb]. by rewrite andb_false_r.
  - assert (Hup : window_below w n) by (split; [done|done|lia|intros x Hx; specialize (Hp _ Hx); lia]).
    unfold Accept. rewrite (proj2 (Z.eqb_neq _ _)) by lia. rewrite (proj2 (Z.leb_gt _ _)) by lia.
    destruct (n =? _); [|destruct (_ <? n)].
    + apply absorb_below; [lia|]. destruct Hup as [? ? ? ?]. split; cbn; [done|done|lia|done].
    + rewrite Hsl. cbn [negb fst]. split; cbn; [done|done|lia|set_solver].
    + rewrite decide_False by done. cbn [fst]. destruct Hup as [? ? ? Hx]. split; cbn; [done|done|lia|]. set_solver.
Qed.

(** ** What the two ends share *)

Section Nested.
Context {N : Type} `{AdpConnection N} `{GenericHash} `{Sodium} `{Kdf} `{MlKem} `{MlDsa} `{Aead}.
Abbreviation Link := (PeerLink N (list bytes)).
Abbreviation Wire := (LinkWire N (list bytes)).

(** The frames a multiplexer's log says were sent as Reliable, and those a link
    opened of the reliable numbers. *)
Definition sent_reliable (log : list mux_event) : list bytes :=
  omap (fun e => match e with EvSend Reliable f true => Some f | _ => None end) log.
Definition opened_reliable (log : list link_event) : list bytes :=
  omap (fun e => match e with LkOpened true _ f => Some f | _ => None end) log.

(** What one end contributes to the two directions. *)
Record core := MkCore {
  k_lane : CarrierLane;
  k_tx : Z;
  k_log : list bytes;
  k_sent : list bytes;
  k_win : ReplayWindow;
  k_opened : list bytes;
}.
Definition core_of (w : Wire) (mlog : list mux_event) (win : ReplayWindow) (llog : list link_event) : core :=
  MkCore (default (CarrierLane_new CarrierLaneConfig_default) (lane_ w)) (carrier_tx_rel_ w) (default [] (carrier_ w))
    (sent_reliable mlog) win (opened_reliable llog).

Definition kind_of (w : bytes) : Z := at_ w 0.
Definition reliable_header (n : Z) : bytes := CarrierEncodeSealedHeader true n.

(** The packet numbered [n] of the frame [f], as its sender's carrier takes it. *)
Definition sealed_as (s : Session) (p : Z * bytes) (wire : bytes) : Prop :=
  exists sealed, Session_SealPacket s CarrierReliable p.1 (reliable_header p.1) p.2 = Ok sealed
                 /\ wire = reliable_header p.1 ++ sealed.

Definition last_number (pk : list (Z * bytes)) : Z := default 0 (last (map fst pk)).

(** The direction from [x] to [y]: the packets [pk] sealed, in order of their
    numbers; the lane between; and what [y] has opened, [todo] being what its lane
    has released but [y] not yet opened. *)
Record dir (s : Session) (x y : core) (todo : list bytes) : Prop := {
  dir_tx : 0 <= k_tx x < 2 ^ 32;
  dir_packets : exists pk given done data acks,
    Forall2 (sealed_as s) pk given
    /\ StronglySorted Z.lt (map fst pk) /\ Forall (fun n => 1 <= n <= k_tx x) (map fst pk)
    /\ k_sent x = map snd pk
    /\ net_inv CarrierLaneConfig_default CarrierLaneConfig_default
         (MkLaneNet (k_lane x) (k_lane y) given data acks (done ++ todo))
    /\ (forall w, w ∈ k_log x -> kind_of w = payload_kind_to_Z LaneData -> w ∈ data)
    /\ (forall w, w ∈ k_log y -> kind_of w = payload_kind_to_Z LaneAck -> w ∈ acks)
    /\ k_opened y = map snd (take (length done) pk)
    /\ window_below (k_win y) (last_number (take (length done) pk));
}.

(** *** The lane's invariant reads one side of each lane *)

Lemma net_inv_sides c c' tx rx given data acks got tx' rx' :
  net_inv c c' (MkLaneNet tx rx given data acks got) -> tx_queue tx' = tx_queue tx -> rx_side rx' = rx_side rx ->
  net_inv c c' (MkLaneNet tx' rx' given data acks got).
Proof.
  intros [[Hc Hc'] J2 J3 [T1 T2 T3] [R1 R2 R3 R4] J6 J7 J8 J9] Ht Hr. unfold tx_queue in Ht. unfold rx_side in Hr.
  cbn [n_tx n_rx CarrierLaneProps.given n_data n_acks CarrierLaneProps.got] in *.
  assert (E1 : config_ tx' = config_ tx) by congruence. assert (E2 : next_tx_seq_ tx' = next_tx_seq_ tx) by congruence.
  assert (E3 : outstanding_ tx' = outstanding_ tx) by congruence. assert (E4 : config_ rx' = config_ rx) by congruence.
  assert (E5 : rx_cumulative_ rx' = rx_cumulative_ rx) by congruence. assert (E6 : rx_hold_ rx' = rx_hold_ rx) by congruence.
  split; cbn [n_tx n_rx CarrierLaneProps.given n_data n_acks CarrierLaneProps.got]; rewrite ?E1, ?E3, ?E4, ?E5; try done.
  - split; rewrite ?E1, ?E2, ?E3; done.
  - split; rewrite ?E4, ?E5, ?E6; done.
  - eapply Forall_impl; [exact J7|]. intros w (ack & [Ho Hs] & ->). exists ack. split; [|done]. split; [done|].
    intros i Hi Ha. destruct (Hs i Hi Ha); [left; congruence|right; congruence].
  - intros i Hi. destruct (J9 i Hi) as [|[|]]; [by left|right; left; congruence|right; right; congruence].
Qed.

(** Rising numbers are no more than their range. *)
Lemma numbers_count l lo hi : StronglySorted Z.lt l -> Forall (fun n => lo < n <= hi) l -> size l <= Z.max 0 (hi - lo).
Proof.
  intros Hs. revert lo. induction Hs as [|n l _ IH Hn]; intros lo Hall; [change (size (A := Z) []) with 0; lia|].
  inversion Hall as [|? ? Hr Hl]; subst. specialize (IH n). rewrite size_cons.
  assert (Forall (fun m => n < m <= hi) l) as Hl'.
  { apply Forall_forall. intros m Hm. rewrite Forall_forall in Hn, Hl. specialize (Hn m Hm). specialize (Hl m Hm). lia. }
  specialize (IH Hl'). lia.
Qed.

(** Released frames are frames given. *)
Lemma dir_done_le c c' tx rx given data acks done todo :
  net_inv c c' (MkLaneNet tx rx given data acks (done ++ todo)) -> (length done + length todo <= length given)%nat.
Proof.
  intros Hi. pose proof (f_equal length (ni_got _ _ _ Hi)) as Hl. cbn [CarrierLaneProps.got CarrierLaneProps.given] in Hl.
  rewrite length_app, length_take in Hl. lia.
Qed.

(** *** Steps that leave a direction alone *)

(** Wires that say nothing to the lane of either end: handshake messages, best
    effort packets, and the probe. *)
Definition mute (w : bytes) : Prop :=
  kind_of w <> payload_kind_to_Z LaneData /\ (kind_of w = payload_kind_to_Z LaneAck -> w = EncodeLaneAck LaneAckFields_default).

(** The sender goes on, taking numbers but giving nothing to the lane. *)
Lemma dir_sender s x x' y todo :
  dir s x y todo -> tx_queue (k_lane x') = tx_queue (k_lane x) -> k_tx x <= k_tx x' < 2 ^ 32 -> k_sent x' = k_sent x ->
  (forall w, w ∈ k_log x' -> w ∈ k_log x \/ kind_of w <> payload_kind_to_Z LaneData) ->
  dir s x' y todo.
Proof.
  intros [Ht (pk & given & done & data & acks & D1 & D2 & D3 & D4 & D5 & D6 & D7 & D8 & D9)] Hl Htx Hs Hw.
  split; [lia|]. exists pk, given, done, data, acks. split_and!; try done.
  - eapply Forall_impl; [exact D3|]. cbn. lia.
  - congruence.
  - by apply (net_inv_sides _ _ (k_lane x) (k_lane y)).
  - intros w Hin Hk. destruct (Hw w Hin); [by apply D6|done].
Qed.

(** The receiver goes on, receiving nothing; its probes acknowledge nothing. *)
Lemma dir_receiver s x y y' todo :
  dir s x y todo -> rx_side (k_lane y') = rx_side (k_lane y) -> k_opened y' = k_opened y -> k_win y' = k_win y ->
  (forall w, w ∈ k_log y' -> w ∈ k_log y
     \/ (kind_of w = payload_kind_to_Z LaneAck -> w = EncodeLaneAck LaneAckFields_default)) ->
  dir s x y' todo.
Proof.
  intros [Ht (pk & given & done & data & acks & D1 & D2 & D3 & D4 & D5 & D6 & D7 & D8 & D9)] Hl Ho Hwin Hw.
  split; [done|]. exists pk, given, done, data, (acks ++ [EncodeLaneAck LaneAckFields_default]). split_and!; try done.
  - apply (net_inv_sides _ _ (k_lane x) (k_lane y)); [|done|done].
    eapply net_step_inv; [exact D5|]. apply net_probe.
  - intros w Hin Hk. apply elem_of_app. destruct (Hw w Hin) as [Hold|Hprobe]; [left; by apply D7|right]. rewrite (Hprobe Hk). by left.
  - congruence.
  - congruence.
Qed.

(** *** A reliable frame given to the lane *)
Lemma dir_send s x x' y todo n f wire laned now lane' :
  dir s x y todo -> k_tx x < n -> n < 2 ^ 32 - 2 -> sealed_as s (n, f) wire ->
  Wrap (k_lane x) wire now = (lane', Some laned) ->
  k_lane x' = lane' -> k_tx x' = n -> k_sent x' = k_sent x ++ [f] -> k_log x' = k_log x ++ [laned] ->
  dir s x' y todo.
Proof.
  intros [Ht (pk & given & done & data & acks & D1 & D2 & D3 & D4 & D5 & D6 & D7 & D8 & D9)] Hn Hmax Hsealed Hwrap El Et Es Elog.
  assert (Hlen : length pk = length given) by (by eapply Forall2_length).
  pose proof (dir_done_le _ _ _ _ _ _ _ _ _ D5) as Hdone.
  assert (Hsz : size given <= k_tx x).
  { pose proof (numbers_count (map fst pk) 0 (k_tx x) D2) as Hc. unfold size in *. rewrite length_map, Hlen in Hc.
    enough (Z.of_nat (length given) <= Z.max 0 (k_tx x - 0)) by lia. apply Hc.
    eapply Forall_impl; [exact D3|]. cbn. lia. }
  assert (Hne : wire <> []) by (destruct Hsealed as (sealed & _ & ->); done).
  split; [lia|]. exists (pk ++ [(n, f)]), (given ++ [wire]), done, (data ++ [laned]), acks. split_and!.
  - apply Forall2_app; [done|by constructor].
  - rewrite map_app. apply StronglySorted_snoc; [done|]. eapply Forall_impl; [exact D3|]. cbn. lia.
  - rewrite map_app. apply Forall_app. split; [|cbn; constructor; [lia|constructor]].
    eapply Forall_impl; [exact D3|]. cbn. lia.
  - by rewrite Es, map_app, D4.
  - rewrite El. eapply net_step_inv; [exact D5|]. eapply net_wrap; [done|lia|exact Hwrap].
  - rewrite Elog. intros w [Hin|Hin%list_elem_of_singleton]%elem_of_app Hk; apply elem_of_app; [left; by apply D6|right; subst; by left].
  - done.
  - rewrite D8, take_app_le; [done|lia].
  - rewrite take_app_le; [done|lia].
Qed.

(** *** Frames of the lane sent again, acknowledged, received *)
Lemma dir_resend s x x' y todo now :
  dir s x y todo -> k_lane x' = (DueResends (k_lane x) now).1 -> k_tx x' = k_tx x -> k_sent x' = k_sent x ->
  k_log x' = k_log x ++ (DueResends (k_lane x) now).2 -> dir s x' y todo.
Proof.
  intros [Ht (pk & given & done & data & acks & D1 & D2 & D3 & D4 & D5 & D6 & D7 & D8 & D9)] El Et Es Elog.
  split; [lia|]. exists pk, given, done, (data ++ (DueResends (k_lane x) now).2), acks. split_and!; try done.
  - by rewrite Et.
  - congruence.
  - rewrite El. eapply net_step_inv; [exact D5|]. eapply net_resend. apply surjective_pairing.
  - rewrite Elog. intros w [Hin|Hin]%elem_of_app Hk; apply elem_of_app; [left; by apply D6|by right].
Qed.

Lemma dir_ack s x x' y todo w ack now :
  dir s x y todo -> w ∈ k_log y -> kind_of w = payload_kind_to_Z LaneAck -> DecodeLaneAck w = Ok ack ->
  k_lane x' = OnAck (k_lane x) ack now -> k_tx x' = k_tx x -> k_sent x' = k_sent x -> k_log x' = k_log x ->
  dir s x' y todo.
Proof.
  intros [Ht (pk & given & done & data & acks & D1 & D2 & D3 & D4 & D5 & D6 & D7 & D8 & D9)] Hin Hk Hd El Et Es Elog.
  split; [lia|]. exists pk, given, done, data, acks. split_and!; try done.
  - by rewrite Et.
  - congruence.
  - rewrite El. eapply net_step_inv; [exact D5|]. eapply net_ack; [by apply D7|exact Hd].
  - by rewrite Elog.
Qed.

Lemma dir_data s x y y' w seq inner :
  dir s x y [] -> w ∈ k_log x -> kind_of w = payload_kind_to_Z LaneData -> DecodeLaneData w = Ok (seq, inner) ->
  k_lane y' = (OnData (k_lane y) seq inner).1 -> k_opened y' = k_opened y -> k_win y' = k_win y ->
  k_log y' = k_log y ++ [EncodeLaneAck (rx_ack (OnData (k_lane y) seq inner).2)] ->
  dir s x y' (deliver (OnData (k_lane y) seq inner).2).
Proof.
  intros [Ht (pk & given & done & data & acks & D1 & D2 & D3 & D4 & D5 & D6 & D7 & D8 & D9)] Hin Hk Hd El Eo Ew Elog.
  rewrite app_nil_r in D5. split; [done|].
  exists pk, given, done, data, (acks ++ [EncodeLaneAck (rx_ack (OnData (k_lane y) seq inner).2)]). split_and!; try done.
  - rewrite El. eapply net_step_inv; [exact D5|]. eapply net_data; [by apply D6|exact Hd|apply surjective_pairing].
  - rewrite Elog. intros w' [Hin'|Hin'%list_elem_of_singleton]%elem_of_app Hk'; apply elem_of_app; [left; by apply D7|right; subst; by left].
  - congruence.
  - congruence.
Qed.

(** *** A released packet opened *)

Context {in_use : bytes -> Prop} `{!AeadLaws in_use}.

Definition opens (s s' : Session) : Prop := forall space n h p sealed now,
  Session_SealPacket s space n h p = Ok sealed -> Session_OpenPacket s' space n h sealed now = Ok p.

Lemma last_number_snoc pk p : last_number (pk ++ [p]) = p.1.
Proof. unfold last_number. rewrite map_app. cbn [map]. by rewrite last_snoc. Qed.
Lemma sorted_above pk n f rest : StronglySorted Z.lt (map fst (pk ++ (n, f) :: rest)) -> last_number pk < n \/ pk = [].
Proof.
  intros Hs. destruct pk as [|p pk] using rev_ind; [by right|left]. rewrite last_number_snoc.
  rewrite map_app, map_app in Hs. cbn in Hs. clear IHpk.
  induction (map fst pk) as [|m l IH]; cbn in Hs; inversion Hs as [|? ? Hl Hf]; subst; [|by apply IH].
  rewrite Forall_forall in Hf. apply Hf. by left.
Qed.

(** The next released packet: fresh, opened to its frame, and recorded. *)
Lemma dir_next s s' x y wire todo :
  dir s x y (wire :: todo) -> opens s s' ->
  exists n f, CarrierDecodeSealedHeader wire = Ok (MkCarrierSealedHeader true n)
    /\ Classify (k_win y) n = Fresh
    /\ (forall now, Session_OpenPacket s' CarrierReliable n (take kCarrierSealedHeaderBytes wire)
                      (drop kCarrierSealedHeaderBytes wire) now = Ok f)
    /\ forall y', k_lane y' = k_lane y -> k_log y' = k_log y -> k_win y' = (Accept (k_win y) n).1 ->
         k_opened y' = k_opened y ++ [f] -> dir s x y' todo.
Proof.
  intros [Ht (pk & given & done & data & acks & D1 & D2 & D3 & D4 & D5 & D6 & D7 & D8 & D9)] Hopens.
  pose proof (ni_got _ _ _ D5) as Hgot. cbn [CarrierLaneProps.got CarrierLaneProps.given] in Hgot.
  assert (Hlk : given !! length done = Some wire).
  { pose proof (f_equal (lookup (length done)) Hgot) as Hl. rewrite list_lookup_middle in Hl by done.
    symmetry in Hl. by apply lookup_take_Some in Hl as [Hl _]. }
  destruct (Forall2_lookup_r _ _ _ _ _ D1 Hlk) as ([n f] & Hpk & sealed & Hseal & Hwire). cbn [fst snd] in *.
  assert (Hsplit : take (S (length done)) pk = take (length done) pk ++ [(n, f)]) by (by apply take_S_r).
  assert (Hn : 1 <= n <= k_tx x).
  { rewrite Forall_forall in D3. apply D3. apply list_elem_of_fmap. exists (n, f). split; [done|by eapply list_elem_of_lookup_2]. }
  assert (Habove : last_number (take (length done) pk) < n).
  { pose proof (take_drop_middle pk (length done) (n, f) Hpk) as Hmid. rewrite <- Hmid in D2.
    destruct (sorted_above _ _ _ _ D2) as [|Hnil]; [done|]. rewrite Hnil. unfold last_number. cbn. lia. }
  destruct (window_takes _ _ _ D9 Habove ltac:(lia)) as [Hfresh Hwin].
  assert (Hhdr : CarrierDecodeSealedHeader wire = Ok (MkCarrierSealedHeader true n)).
  { rewrite Hwire. apply CarrierDecodeSealedHeader_app; [unfold is_u32; lia|].
    apply Crypto_seal_length in Hseal. rewrite Hseal. lia. }
  exists n, f. split_and!; [done|done| |].
  - intros now. apply Hopens. rewrite Hwire. change kCarrierSealedHeaderBytes with (length (reliable_header n)).
    by rewrite take_app_length, drop_app_length.
  - intros y' El Elog Ew Eo. split; [done|]. exists pk, given, (done ++ [wire]), data, acks. split_and!; try done.
    + rewrite El, <- app_assoc. exact D5.
    + by rewrite Elog.
    + rewrite Eo, D8, length_app, Nat.add_comm. cbn [length Nat.add]. by rewrite Hsplit, map_app.
    + rewrite Ew, length_app, Nat.add_comm. cbn [length Nat.add]. rewrite Hsplit, last_number_snoc. done.
Qed.

(** ** A link at one end

    [talks] is what holds of the wire of a connected link whose peer speaks the
    lane: every reliable frame it sends goes through the lane. *)

Definition all_data (lane : CarrierLane) : Prop :=
  Forall (fun o => kind_of (wire o) = payload_kind_to_Z LaneData) (outstanding_ lane).
Record talks (s : Session) (w : Wire) : Prop := {
  tk_carrier : exists log, carrier_ w = Some log /\ forall u, u ∈ log -> kind_of u <> payload_kind_to_Z SealedReliable;
  tk_session : session_ w = Some s;
  tk_tx : 0 <= carrier_tx_rel_ w < 2 ^ 32;
  tk_lane : exists lane, lane_ w = Some lane /\ peer_speaks_lane_ lane = true
              /\ all_data lane;
}.

Definition mlog (l : Link) : list mux_event := match mux_ l with Some m => mux_log m | None => [] end.
Definition core_link (l : Link) : core := core_of (wire_ l) (mlog l) (carrier_rx_rel_ l) (link_log l).

(** Short of the last numbers, which the lane counts no further than. *)
Definition kNumbers : Z := 2 ^ 32 - 2.
Definition sending (s : Session) (x y : core) (todo : list bytes) : Prop := k_tx x < kNumbers -> dir s x y todo.

Lemma core_of_log w mlog win llog log : carrier_ w = Some log -> k_log (core_of w mlog win llog) = log.
Proof. intros Hc. unfold core_of. cbn. by rewrite Hc. Qed.

Lemma kind_of_lane_data n v : kind_of (EncodeLaneData n v) = payload_kind_to_Z LaneData.
Proof. done. Qed.
Lemma kind_of_lane_ack a : kind_of (EncodeLaneAck a) = payload_kind_to_Z LaneAck.
Proof. done. Qed.
Lemma kind_of_header r n sealed :
  kind_of (CarrierEncodeSealedHeader r n ++ sealed) = payload_kind_to_Z (if r then SealedReliable else Sealed).
Proof. by destruct r. Qed.

Lemma SealCarrierFrame_cases s (w : Wire) q f :
  session_ w = Some s ->
  let '(w', r) := SealCarrierFrame w q f in
  let reliable := bool_decide (q = Reliable) in
  (w' = w /\ exists e, r = Fail e)
  \/ exists n, w' = (if reliable then w <| carrier_tx_rel_ := n |> else w <| carrier_tx_be_ := n |>)
       /\ (reliable = true -> 0 <= carrier_tx_rel_ w < 2 ^ 32 -> n = carrier_tx_rel_ w + 1 /\ n < 2 ^ 32)
       /\ match r with
          | Ok wire => exists sealed, Session_SealPacket s (carrier_space reliable) n (CarrierEncodeSealedHeader reliable n) f = Ok sealed
                       /\ wire = CarrierEncodeSealedHeader reliable n ++ sealed
          | Fail _ => True
          end.
Proof.
  intros Hs. unfold SealCarrierFrame. rewrite Hs. cbv zeta. set (reliable := bool_decide (q = Reliable)).
  destruct (Z.eqb_spec (if reliable then carrier_tx_rel_ w else carrier_tx_be_ w) 4294967295) as [|Hne]; [left; by eauto|].
  set (n := u32 _). destruct (Session_SealPacket s _ n _ f) as [sealed|e] eqn:Hseal; right; exists n; (split; [done|]);
    (split; [|by eauto]); intros Hr Hb; unfold n; rewrite Hr in *; rewrite u32_id by (unfold is_u32; lia); lia.
Qed.

(** *** What one end does by itself *)

(** Both directions go on, whatever the other end is. *)
Record goes_on (s : Session) (x x' : core) : Prop := {
  go_out y todo : sending s x y todo -> sending s x' y todo;
  go_in s' y todo : sending s' y x todo -> sending s' y x' todo;
}.
#[export] Instance goes_on_preorder s : PreOrder (goes_on s).
Proof. split; [by split|]. intros x y z [J1 J2] [J3 J4]. split; eauto. Qed.

Lemma goes_mute s x x' :
  tx_queue (k_lane x') = tx_queue (k_lane x) -> rx_side (k_lane x') = rx_side (k_lane x) ->
  k_tx x <= k_tx x' < 2 ^ 32 -> k_sent x' = k_sent x -> k_opened x' = k_opened x -> k_win x' = k_win x ->
  (forall w, w ∈ k_log x' -> w ∈ k_log x \/ mute w) -> goes_on s x x'.
Proof.
  intros Hq Hrx Htx Hs Ho Hw Hlog. split.
  - intros y todo Hd Hlt. apply (dir_sender _ x); [apply Hd; lia|done..|]. intros w Hin.
    destruct (Hlog w Hin) as [|[Hk _]]; auto.
  - intros s' y todo Hd Hlt. apply (dir_receiver _ _ x); [by apply Hd|done..|]. intros w Hin.
    destruct (Hlog w Hin) as [|[_ Hk]]; auto.
Qed.

Lemma goes_send s x x' n f wire lane' laned now :
  0 <= k_tx x -> n = k_tx x + 1 -> sealed_as s (n, f) wire -> Wrap (k_lane x) wire now = (lane', Some laned) ->
  k_lane x' = lane' -> k_tx x' = n -> k_sent x' = k_sent x ++ [f] -> k_log x' = k_log x ++ [laned] ->
  k_opened x' = k_opened x -> k_win x' = k_win x -> goes_on s x x'.
Proof.
  intros J0 Hn Hseal Hwrap El Et Es Elog Eo Ew.
  assert (Hw : laned = EncodeLaneData (next_tx_seq_ (k_lane x)) wire /\ rx_side lane' = rx_side (k_lane x)).
  { unfold Wrap in Hwrap. destruct (_ <=? _); [done|]. by injection Hwrap as <- <-. }
  destruct Hw as [-> Hrx]. split.
  - intros y todo Hd Hlt. unfold kNumbers in *. apply (dir_send s x x' y todo n f wire (EncodeLaneData (next_tx_seq_ (k_lane x)) wire) now lane'); try done; [|lia..].
    apply Hd. unfold kNumbers. lia.
  - intros s' y todo Hd Hlt. apply (dir_receiver _ _ x); [by apply Hd|congruence|done|done|]. intros w.
    rewrite Elog. intros [Hin|Hin%list_elem_of_singleton]%elem_of_app; [by left|right]. subst w. by rewrite kind_of_lane_data.
Qed.

Lemma LaneWrap_cases s (w : Wire) q wire : talks s w ->
  let '(w', r) := LaneWrap w q wire in
  let lane := default (CarrierLane_new CarrierLaneConfig_default) (lane_ w) in
  (w' = w /\ (q <> Reliable /\ r = Ok wire \/ exists e, r = Fail e))
  \/ q = Reliable /\ exists lane' laned, Wrap lane wire (lw_now w) = (lane', Some laned)
       /\ w' = w <| lane_ := Some lane' |> /\ r = Ok laned.
Proof.
  intros Ht. destruct (tk_lane _ _ Ht) as (lane & Hl & Hsp & _). unfold LaneWrap. rewrite Hl, Hsp, andb_true_r.
  destruct (decide (q = Reliable)) as [->|Hq].
  - rewrite bool_decide_true by done. cbn [default]. destruct (Wrap lane wire (lw_now w)) as [lane' [laned|]] eqn:Hw.
    + right. split; [done|]. by exists lane', laned.
    + left. split; [|right; by eexists]. unfold Wrap in Hw. destruct (_ <=? _); [|done]. injection Hw as <-. destruct w. cbn in *. by subst.
  - rewrite bool_decide_false by done. left. auto.
Qed.

Lemma SendCarrierWire_log (w : Wire) log wire : carrier_ w = Some log ->
  SendCarrierWire w wire = (w <| carrier_ := Some (log ++ [wire]) |>, Ok tt).
Proof. intros Hc. unfold SendCarrierWire. rewrite Hc. done. Qed.

Lemma talks_log s (w : Wire) log wire : talks s w -> carrier_ w = Some log ->
  kind_of wire <> payload_kind_to_Z SealedReliable -> talks s (w <| carrier_ := Some (log ++ [wire]) |>).
Proof.
  intros [(log' & Hc & Hall) Hs Ht Hl] Hc'. rewrite Hc in Hc'. injection Hc' as ->. intros Hk. split; [|done..].
  exists (log ++ [wire]). split; [done|]. intros u [|Hu%list_elem_of_singleton]%elem_of_app; [by apply Hall|by subst].
Qed.

Lemma sent_reliable_snoc log q f b :
  sent_reliable (log ++ [EvSend q f b]) = sent_reliable log ++ (if bool_decide (q = Reliable) && b then [f] else []).
Proof. unfold sent_reliable. rewrite omap_app. by destruct q, b. Qed.

Lemma LinkTransport_goes s (w : Wire) q f : talks s w ->
  let '(w', r) := LinkTransport w q f in
  talks s w' /\ forall mlog win llog,
    goes_on s (core_of w mlog win llog) (core_of w' (mlog ++ [EvSend q f (ok r)]) win llog).
Proof.
  intros Ht. pose proof Ht as [(log & Hc & Hall) Hs Htx (lane & Hl & Hsp & Hdata)]. unfold LinkTransport.
  unfold IsCarrierBacked. rewrite Hc. rewrite bool_decide_true by eauto.
  pose proof (SealCarrierFrame_cases s w q f Hs) as Hcase. destruct (SealCarrierFrame w q f) as [w1 r1].
  assert (Hfail : forall w' e, carrier_ w' = carrier_ w -> lane_ w' = lane_ w -> carrier_tx_rel_ w <= carrier_tx_rel_ w' < 2 ^ 32 ->
    forall mlog win llog, goes_on s (core_of w mlog win llog) (core_of w' (mlog ++ [EvSend q f (ok (Fail e : Roe unit))]) win llog)).
  { intros w' e E1 E2 Htx' mlog win llog. apply goes_mute; unfold core_of; cbn; rewrite ?E1, ?E2; try done.
    - rewrite sent_reliable_snoc, andb_false_r. apply app_nil_r.
    - by left. }
  destruct Hcase as [[-> [e ->]]|(n & -> & Hn & Hr1)]; [split; [done|apply Hfail; [done..|lia]]|].
  set (rel := bool_decide (q = Reliable)) in *.
  set (w1 := if rel then _ else _). assert (Hw1 : talks s w1 /\ carrier_ w1 = Some log /\ lane_ w1 = Some lane).
  { unfold w1. destruct rel; (split; [|done]); (split; [by exists log|done| |by exists lane]); cbn; [|done].
    specialize (Hn eq_refl Htx). lia. }
  destruct Hw1 as (Ht1 & Hc1 & Hl1).
  assert (Htx1 : carrier_tx_rel_ w <= carrier_tx_rel_ w1 < 2 ^ 32).
  { unfold w1. destruct rel; cbn; [specialize (Hn eq_refl Htx); lia|lia]. }
  destruct r1 as [wire|e]; [|split; [done|apply Hfail; [congruence..|lia]]].
  pose proof (LaneWrap_cases s w1 q wire Ht1) as Hcase. rewrite Hl1 in Hcase. cbn [default] in Hcase.
  destruct (LaneWrap w1 q wire) as [w2 r2]. destruct Hcase as [[-> [[Hq ->]|[e ->]]]|(Hq & lane' & laned & Hwrap & -> & ->)].
  - rewrite (SendCarrierWire_log _ log) by done. destruct Hr1 as (sealed & _ & ->).
    assert (Hk : kind_of (CarrierEncodeSealedHeader rel n ++ sealed) = payload_kind_to_Z Sealed).
    { rewrite kind_of_header. unfold rel. by rewrite bool_decide_false by done. }
    set (wire := CarrierEncodeSealedHeader rel n ++ sealed) in *. clearbody wire.
    split; [apply (talks_log s w1 log); [done..|by rewrite Hk]|]. intros mlog win llog. apply goes_mute; unfold core_of; cbn; rewrite ?Hc, ?Hl, ?Hl1; try done.
    + rewrite sent_reliable_snoc, bool_decide_false by done. apply app_nil_r.
    + intros u [|Hu%list_elem_of_singleton]%elem_of_app; [by left|right]. subst u. unfold mute. by rewrite Hk.
  - split; [done|apply Hfail; [congruence..|lia]].
  - rewrite (SendCarrierWire_log _ log) by done. unfold rel in *. rewrite bool_decide_true in * by done.
    destruct (Hn eq_refl Htx) as [-> Hmax]. destruct Hr1 as (sealed & Hseal & ->).
    assert (Hw : laned = EncodeLaneData (next_tx_seq_ lane) (CarrierEncodeSealedHeader true (carrier_tx_rel_ w + 1) ++ sealed)
                 /\ all_data lane' /\ peer_speaks_lane_ lane' = peer_speaks_lane_ lane).
    { unfold Wrap in Hwrap. destruct (_ <=? _); [done|]. injection Hwrap as <- <-. split_and!; [done| |done].
      unfold all_data. cbn. apply Forall_app. split; [done|]. by constructor. }
    destruct Hw as (-> & Hdata' & Hsp').
    split.
    + apply (talks_log s (w1 <| lane_ := Some lane' |>) log); [|done|by rewrite kind_of_lane_data]. split; [by exists log|by apply (tk_session _ _ Ht1)|cbn; lia|]. exists lane'. by rewrite Hsp'.
    + intros mlog win llog.
      assert (Etx : carrier_tx_rel_ w1 = carrier_tx_rel_ w + 1) by (unfold w1; by rewrite bool_decide_true).
      eapply (goes_send s _ _ (carrier_tx_rel_ w + 1) f _ lane' _ (lw_now w1)); unfold core_of; cbn; rewrite ?Hc, ?Hl; cbn; rewrite ?Etx; try done.
      * lia.
      * exists sealed. split; [exact Hseal|done].
      * rewrite sent_reliable_snoc. by rewrite bool_decide_true.
Qed.


(** ** Links *)

Record nested (s : Session) (l : Link) : Prop := {
  nl_phase : phase_ l = Connected;
  nl_mux : is_Some (mux_ l);
  nl_talks : talks s (wire_ l);
  nl_backlog : lane_backlog_ l = [];
  nl_final : carrier_final_msh_ l = [] \/ kind_of (carrier_final_msh_ l) = payload_kind_to_Z Msh;
}.

Lemma nested_wire s l (w : Wire) : nested s l -> talks s w -> nested s (l <| wire_ := w |>).
Proof. intros [J1 J2 J3 J4 J5] Hw. by split. Qed.

(** *** Calls of the multiplexer *)

Lemma sent_reliable_other log e : ~ is_send e -> sent_reliable (log ++ [e]) = sent_reliable log.
Proof. intros He. unfold sent_reliable. rewrite omap_app. destruct e; cbn; try apply app_nil_r. by destruct He. Qed.

Lemma via_goes s (m m' : ChannelMux Wire) : via_transport m m' -> talks s (transport m) ->
  talks s (transport m')
  /\ forall win llog, goes_on s (core_of (transport m) (mux_log m) win llog) (core_of (transport m') (mux_log m') win llog).
Proof.
  intros Hv Ht. apply (via_ind (fun t l => talks s t /\ forall win llog,
    goes_on s (core_of (transport m) (mux_log m) win llog) (core_of t l win llog)) m m'); [| |done|by split].
  - intros t l q w t' r [Ht1 Hg1] _ Hsend. pose proof (LinkTransport_goes s t q w Ht1) as Hg.
    change (LinkTransport t q w) with (transport_send t q w) in Hg. rewrite Hsend in Hg. destruct Hg as [Hg2 Hg3].
    split; [done|]. intros win llog. etrans; [apply Hg1|apply Hg3].
  - intros t l e [Ht1 Hg1] He. split; [done|]. intros win llog. etrans; [apply Hg1|].
    unfold core_of. rewrite sent_reliable_other by done. reflexivity.
Qed.

Lemma with_mux_goes {A} s (l : Link) m (f : ChannelMux Wire -> ChannelMux Wire * A) :
  mux_ l = Some m -> (forall m, via_transport m (f m).1) -> nested s l ->
  nested s (with_mux l m f).1 /\ goes_on s (core_link l) (core_link (with_mux l m f).1).
Proof.
  intros Hm Hf Hl. pose proof Hl as [J1 J2 J3 J4 J5]. unfold with_mux. set (m0 := m <| transport := _ |> <| clock_now := _ |>). specialize (Hf m0).
  destruct (f m0) as [m1 a]. cbn [fst] in *. destruct (via_goes s m0 m1 Hf J3) as [Ht Hg]. split.
  - by split.
  - unfold core_link, mlog. cbn. rewrite Hm. apply (Hg (carrier_rx_rel_ l) (link_log l)).
Qed.

Lemma DeliverFrame_goes s (l : Link) f : nested s l ->
  nested s (DeliverFrame l f) /\ goes_on s (core_link l) (core_link (DeliverFrame l f)).
Proof.
  intros Hl. unfold DeliverFrame. rewrite (nl_phase _ _ Hl). destruct (nl_mux _ _ Hl) as [m Hm]. rewrite Hm.
  apply with_mux_goes; [done|intros; apply OnFrameInbound_via|done].
Qed.

(** *** Wires the link sends by itself *)

Lemma SendLinkCarrier_log (l : Link) log w : carrier_ (wire_ l) = Some log ->
  SendLinkCarrier l w = l <| wire_ ::= fun x => x <| carrier_ := Some (log ++ [w]) |> |>.
Proof. intros Hc. unfold SendLinkCarrier, set_field. cbn. by rewrite (SendCarrierWire_log (wire_ l) log w Hc). Qed.
Lemma SendLinkCarrier_nested s (l : Link) w : nested s l -> kind_of w <> payload_kind_to_Z SealedReliable ->
  nested s (SendLinkCarrier l w).
Proof.
  intros Hl Hk. destruct (tk_carrier _ _ (nl_talks _ _ Hl)) as (log & Hc & _). rewrite (SendLinkCarrier_log l log) by done.
  apply (nested_wire s l (wire_ l <| carrier_ := Some (log ++ [w]) |>)); [done|]. by apply (talks_log s (wire_ l)); [apply (nl_talks _ _ Hl)|..].
Qed.
Lemma SendLinkCarrier_goes s (l : Link) w : nested s l -> mute w -> kind_of w <> payload_kind_to_Z SealedReliable ->
  nested s (SendLinkCarrier l w) /\ goes_on s (core_link l) (core_link (SendLinkCarrier l w)).
Proof.
  intros Hl Hmute Hk. split; [by apply SendLinkCarrier_nested|].
  destruct (tk_carrier _ _ (nl_talks _ _ Hl)) as (log & Hc & _). rewrite (SendLinkCarrier_log l log) by done.
  pose proof (tk_tx _ _ (nl_talks _ _ Hl)). apply goes_mute; unfold core_link, core_of; cbn; try done; [lia|].
  rewrite Hc. intros u [|Hu%list_elem_of_singleton]%elem_of_app; [by left|right]. by subst.
Qed.

(** *** Sealed packets *)

(** What opening a packet leaves, before its frame goes to the multiplexer. *)
Definition taken_packet (l : Link) (h : CarrierSealedHeader) (opened : bytes) : Link :=
  let window := if reliable h then carrier_rx_rel_ l else carrier_rx_be_ l in
  let window := (Accept window (number h)).1 in
  let l := if reliable h then l <| carrier_rx_rel_ := window |> else l <| carrier_rx_be_ := window |> in
  link_note (LkOpened (reliable h) (number h) opened) l <| carrier_final_msh_ := [] |>.

Lemma taken_nested s l h f : nested s l -> nested s (taken_packet l h f).
Proof. intros [J1 J2 J3 J4 J5]. unfold taken_packet. destruct (reliable h); (split; [done..|by left]). Qed.
Lemma taken_out s l h f y todo : sending s (core_link l) y todo -> sending s (core_link (taken_packet l h f)) y todo.
Proof.
  intros Hd Hlt. unfold taken_packet in *. destruct (reliable h); (eapply dir_sender; [apply Hd; exact Hlt|done|cbn; pose proof (dir_tx _ _ _ _ (Hd Hlt)); cbn in *; lia|done|by left]).
Qed.
Lemma taken_best_effort s l n f : goes_on s (core_link l) (core_link (taken_packet l (MkCarrierSealedHeader false n) f)).
Proof.
  assert (E : core_link (taken_packet l (MkCarrierSealedHeader false n) f) = core_link l).
  { unfold core_link, core_of, taken_packet. cbn. f_equal. unfold opened_reliable. rewrite omap_app. apply app_nil_r. }
  by rewrite E.
Qed.

Lemma DeliverSealed_cases s (l : Link) wire : nested s l ->
  DeliverSealedCarrierWire l wire = l
  \/ exists h opened, CarrierDecodeSealedHeader wire = Ok h
       /\ DeliverSealedCarrierWire l wire = DeliverFrame (taken_packet l h opened) opened.
Proof.
  intros Hl. unfold DeliverSealedCarrierWire. rewrite (tk_session _ _ (nl_talks _ _ Hl)).
  destruct (CarrierDecodeSealedHeader wire) as [h|]; [|by left]. cbv zeta. destruct (negb _); [by left|].
  destruct (Session_OpenPacket _ _ _ _ _ _) as [opened|]; [|by left]. right. by exists h, opened.
Qed.

Lemma DeliverSealed_out s (l : Link) wire : nested s l ->
  nested s (DeliverSealedCarrierWire l wire)
  /\ forall y todo, sending s (core_link l) y todo -> sending s (core_link (DeliverSealedCarrierWire l wire)) y todo.
Proof.
  intros Hl. destruct (DeliverSealed_cases s l wire Hl) as [->|(h & f & _ & ->)]; [done|].
  destruct (DeliverFrame_goes s _ f (taken_nested s l h f Hl)) as [Hn Hg]. split; [done|]. intros y todo Hd.
  apply (go_out _ _ _ Hg). by apply taken_out.
Qed.

Lemma DeliverSealed_best_effort s (l : Link) wire n : nested s l -> CarrierDecodeSealedHeader wire = Ok (MkCarrierSealedHeader false n) ->
  goes_on s (core_link l) (core_link (DeliverSealedCarrierWire l wire)).
Proof.
  intros Hl Hh. destruct (DeliverSealed_cases s l wire Hl) as [->|(h & f & Hh' & ->)]; [done|].
  rewrite Hh in Hh'. apply Ok_inj in Hh' as <-. etrans; [apply taken_best_effort|].
  apply DeliverFrame_goes. by apply taken_nested.
Qed.

(** A packet the lane released: opened, and taken. *)
Lemma DeliverSealed_next s s' y (l : Link) wire todo : nested s' l -> opens s s' ->
  sending s y (core_link l) (wire :: todo) -> sending s y (core_link (DeliverSealedCarrierWire l wire)) todo.
Proof.
  intros Hl Hopens Hd Hlt. specialize (Hd Hlt).
  destruct (dir_next s s' y (core_link l) wire todo Hd Hopens) as (n & f & Hh & Hfresh & Hopen & Hnext).
  assert (E : DeliverSealedCarrierWire l wire = DeliverFrame (taken_packet l (MkCarrierSealedHeader true n) f) f).
  { unfold DeliverSealedCarrierWire. rewrite (tk_session _ _ (nl_talks _ _ Hl)), Hh. cbv zeta. cbn [reliable number].
    cbn [k_win core_link core_of] in Hfresh. rewrite bool_decide_true by done. cbn [negb]. by rewrite Hopen. }
  rewrite E. apply (go_in _ _ _ (proj2 (DeliverFrame_goes s' _ f (taken_nested s' l _ f Hl)))); [|done]. intros _.
  apply Hnext; try done. unfold core_link, core_of, taken_packet. cbn. unfold opened_reliable. by rewrite omap_app.
Qed.

Lemma deliver_all s (l : Link) wires : nested s l ->
  let l' := fold_left DeliverSealedCarrierWire wires l in
  nested s l'
  /\ (forall y todo, sending s (core_link l) y todo -> sending s (core_link l') y todo)
  /\ forall s' y, opens s' s -> sending s' y (core_link l) wires -> sending s' y (core_link l') [].
Proof.
  cbv zeta. revert l. induction wires as [|wire wires IH]; intros l Hl; cbn [fold_left]; [done|].
  destruct (DeliverSealed_out s l wire Hl) as [Hl1 Ho]. destruct (IH _ Hl1) as (Hl' & Ho' & Hi'). split_and!; [done|eauto|].
  intros s' y Hopens Hd. apply (Hi' s' y Hopens). by apply (DeliverSealed_next s' s).
Qed.

(** *** Frames of the lane *)

Lemma OnData_same lane seq inner :
  tx_queue (OnData lane seq inner).1 = tx_queue lane
  /\ peer_speaks_lane_ (OnData lane seq inner).1 = peer_speaks_lane_ lane
  /\ (length (deliver (OnData lane seq inner).2) <= S (length (rx_hold_ lane)))%nat.
Proof.
  assert (Hem : forall k v m, (length (emplace k v m) <= S (length m))%nat).
  { intros k v. induction m as [|[k' v'] m IH]; cbn; [lia|]. destruct (k <? k'); [done|]. destruct (k =? k'); cbn; lia. }
  assert (Hrel : forall m c, (length (release m c).1.1 <= length m)%nat).
  { induction m as [|[k v] m IH]; intros c; cbn; [lia|]. destruct (k =? _); [|cbn; lia]. specialize (IH (u32 (c + 1))).
    destruct (release m _) as [[d c'] rest]. cbn in *. lia. }
  unfold OnData. set (l1 := hold_frame lane seq inner).
  assert (Hl1 : tx_queue l1 = tx_queue lane /\ peer_speaks_lane_ l1 = peer_speaks_lane_ lane
                /\ (length (rx_hold_ l1) <= S (length (rx_hold_ lane)))%nat).
  { unfold l1, hold_frame. destruct (_ && _); [|split_and!; [done..|lia]]. split_and!; [done..|apply Hem]. }
  clearbody l1. destruct Hl1 as (E1 & E2 & E3). specialize (Hrel (rx_hold_ l1) (rx_cumulative_ l1)).
  destruct (release _ _) as [[d c] rest]. cbn [fst snd deliver] in *. split_and!; [done|done|lia].
Qed.

Lemma push_backlog_all frames backlog : (length backlog + length frames <= 256)%nat -> push_backlog frames backlog = backlog ++ frames.
Proof.
  revert backlog. induction frames as [|f frames IH]; intros backlog Hl; cbn [push_backlog]; [by rewrite app_nil_r|].
  cbn [length] in Hl. unfold kMaxLaneBacklogFrames. rewrite (proj2 (Z.leb_gt _ _)) by (unfold size; lia).
  rewrite IH by (rewrite length_app; cbn [length]; lia). by rewrite <- app_assoc.
Qed.

(** The frames a lane frame releases always fit the backlog. *)
Lemma released_fit s x y seq inner : dir s x y [] -> (length (deliver (OnData (k_lane y) seq inner).2) <= 256)%nat.
Proof.
  intros [_ (pk & given & done & data & acks & _ & _ & _ & _ & D5 & _)].
  destruct (OnData_same (k_lane y) seq inner) as (_ & _ & Hl).
  destruct (ni_rx _ _ _ D5) as [_ Ha _ Hn]. destruct (ni_config _ _ _ D5) as [_ Hc]. cbn [n_rx] in *.
  pose proof (ascending_size _ _ _ Ha Hn) as Hs. rewrite Hc in Hs. unfold size in Hs. cbn [window CarrierLaneConfig_default] in Hs. lia.
Qed.

Lemma ack_all_data lane ack now : all_data lane -> all_data (OnAck lane ack now).
Proof.
  intros Hd. unfold OnAck, all_data in *. destruct (ack_loop _ _ _ _ _) as [l1 rest] eqn:He. cbn.
  apply ack_loop_spec in He as (_ & _ & ->). apply Forall_map, Forall_forall. intros o [_ Ho]%list_elem_of_filter.
  rewrite Forall_forall in Hd. specialize (Hd o Ho). unfold note_skip. destruct (_ <? _); [|done]. cbv zeta. by destruct (_ =? _).
Qed.
Lemma OnAck_same lane ack now :
  rx_side (OnAck lane ack now) = rx_side lane /\ peer_speaks_lane_ (OnAck lane ack now) = peer_speaks_lane_ lane.
Proof.
  unfold OnAck. destruct (ack_loop _ _ _ _ _) as [l1 rest] eqn:He. pose proof He as He'. apply ack_loop_spec in He as (E & _ & _).
  unfold rx_side in *. cbn. split; [done|]. clear E. revert lane l1 rest He'.
  generalize (highest_acked ack). intros hi. enough (forall frames lane l1 rest, ack_loop ack hi now frames lane = (l1, rest) ->
    peer_speaks_lane_ l1 = peer_speaks_lane_ lane) by eauto.
  induction frames as [|o frames IH]; intros lane l1 rest; cbn [ack_loop]; [by intros [= <- _]|].
  destruct (acked ack (lo_seq o)).
  - intros ->%IH. destruct (_ =? 1); [|done]. unfold SampleRtt. by destruct (have_rtt_ lane).
  - destruct (ack_loop _ _ _ frames lane) as [l2 rest'] eqn:Hr. intros [= <- _]. by apply IH in Hr.
Qed.

Lemma note_speaks lane : peer_speaks_lane_ lane = true -> NotePeerSpeaksLane lane = lane.
Proof. destruct lane. cbn. by intros ->. Qed.

(** A frame of the lane that the other end sent. *)
Lemma HandleLaneFrame_nested s s' y (l : Link) w k : nested s l -> opens s' s -> w ∈ k_log y -> DecodeKind w = Ok k ->
  k = payload_kind_to_Z LaneData \/ k = payload_kind_to_Z LaneAck ->
  let l' := HandleLaneFrame l k w in
  nested s l'
  /\ (sending s (core_link l) y [] -> sending s (core_link l') y [])
  /\ (sending s' y (core_link l) [] -> sending s' y (core_link l') []).
Proof.
  intros Hl Hopens Hin Hkind Hk. cbv zeta. destruct (tk_lane _ _ (nl_talks _ _ Hl)) as (lane & Hlane & Hsp & Hdata).
  assert (Hkw : kind_of w = k) by (destruct w; [done|]; by apply Ok_inj in Hkind).
  unfold HandleLaneFrame. rewrite Hlane. rewrite note_speaks by done. cbv zeta.
  assert (Hput : l <| wire_ ::= fun w => w <| lane_ := Some lane |> |> = l).
  { destruct l as [? ? ? ? ? w0]. cbn in *. unfold set_field. cbn. destruct w0. cbn in *. by subst. }
  destruct (Z.eqb_spec k (payload_kind_to_Z LaneAck)) as [Hack|Hnack].
  - destruct (DecodeLaneAck w) as [ack|e] eqn:Hd; [|by rewrite Hput].
    destruct (OnAck_same lane ack (NowMs l)) as [Hrx Hsp']. split_and!.
    + apply (nested_wire s l (wire_ l <| lane_ := Some (OnAck lane ack (NowMs l)) |>)); [done|].
      destruct (nl_talks _ _ Hl) as [J1 J2 J3 _]. split; [done..|]. eexists. split; [done|]. rewrite Hsp'. split; [done|by apply ack_all_data].
    + intros Hs Hlt. apply (dir_ack s (core_link l) _ y [] w ack (NowMs l)); try done; [by apply Hs|congruence|].
      unfold core_link, core_of. cbn. by rewrite Hlane.
    + intros Hs Hlt. apply (dir_receiver _ _ (core_link l)); [by apply Hs| |done..|by left]. unfold core_link, core_of. cbn. by rewrite Hlane.
  - destruct Hk as [Hk|Hk]; [|done]. destruct (DecodeLaneData w) as [[seq inner]|e] eqn:Hd; [|by rewrite Hput].
    destruct (OnData_same lane seq inner) as (Htq & Hsp' & _).
    destruct (OnData lane seq inner) as [lane' received] eqn:Ho. cbn [fst] in *.
    set (l1 := l <| wire_ ::= fun w => w <| lane_ := Some lane' |> |>).
    assert (Hn1 : nested s l1).
    { apply (nested_wire s l (wire_ l <| lane_ := Some lane' |>)); [done|]. destruct (nl_talks _ _ Hl) as [J1 J2 J3 _]. split; [done..|].
      exists lane'. split; [done|]. split; [congruence|]. unfold all_data. unfold tx_queue in Htq. by injection Htq as _ _ ->. }
    pose proof (kind_of_lane_ack (rx_ack received)) as Hkw'. remember (EncodeLaneAck (rx_ack received)) as w' eqn:Hw'.
    assert (Hn2 : nested s (SendLinkCarrier l1 w')) by (apply SendLinkCarrier_nested; [done|by rewrite Hkw']).
    destruct (tk_carrier _ _ (nl_talks _ _ Hl)) as (log & Hc & _).
    rewrite (SendLinkCarrier_log l1 log w' Hc) in *. set (l2 := l1 <| wire_ ::= _ |>) in *.
    unfold FlushLaneBacklog. cbn [phase_ mux_ set_field].
    change (phase_ (l2 <| lane_backlog_ ::= _ |>)) with (phase_ l2). change (mux_ (l2 <| lane_backlog_ ::= _ |>)) with (mux_ l2).
    rewrite (nl_phase _ _ Hn2). destruct (nl_mux _ _ Hn2) as [m Hm]. rewrite Hm. cbv zeta.
    change (lane_backlog_ (l2 <| lane_backlog_ ::= _ |>)) with (push_backlog (deliver received) (lane_backlog_ l2)).
    rewrite (nl_backlog _ _ Hn2). set (l3 := l2 <| lane_backlog_ ::= _ |> <| lane_backlog_ := [] |>).
    assert (Hn3 : nested s l3) by (destruct Hn2; by split).
    destruct (deliver_all s l3 (push_backlog (deliver received) []) Hn3) as (Hn & Hout & Hinn). split_and!; [done| |].
    + intros Hs. apply Hout. intros Hlt. apply (dir_sender _ (core_link l)); [by apply Hs| | |done|].
      * unfold core_link, core_of. cbn. by rewrite Hlane.
      * pose proof (tk_tx _ _ (nl_talks _ _ Hl)). cbn. lia.
      * unfold core_link, core_of. cbn. rewrite Hc. cbn [default from_option Datatypes.id].
        intros u [|Hu%list_elem_of_singleton]%elem_of_app; [by left|right]. subst u. by rewrite Hkw'.
    + intros Hs. apply Hinn; [done|]. intros Hlt. specialize (Hs Hlt).
      assert (E : k_lane (core_link l) = lane) by (unfold core_link, core_of; cbn; by rewrite Hlane).
      pose proof (released_fit _ _ _ seq inner Hs) as Hfit. rewrite E, Ho in Hfit. cbn [snd] in Hfit. rewrite push_backlog_all by done. cbn [app].
      replace (deliver received) with (deliver (OnData (k_lane (core_link l)) seq inner).2) by (by rewrite E, Ho).
      apply (dir_data _ _ (core_link l) _ w); try done; [congruence|by rewrite E, Ho|].
      rewrite E, Ho. cbn [snd]. rewrite <- Hw'. unfold core_link, core_of. cbn. by rewrite Hc.
Qed.

(** *** Any frame of the carrier, and the timer *)

Lemma best_effort_header w : kind_of w = payload_kind_to_Z Sealed ->
  forall h, CarrierDecodeSealedHeader w = Ok h -> exists n, h = MkCarrierSealedHeader false n.
Proof.
  intros Hk h. unfold CarrierDecodeSealedHeader. fold (kind_of w). rewrite Hk. destruct (_ <? _)%nat; [done|].
  rewrite Z.eqb_refl. cbn [negb andb]. destruct (ReadLaneU32 w 1) as [[n ?]|]; [|done]. intros <-%Ok_inj. by exists n.
Qed.

Lemma HandleCarrierFrame_nested host s s' y (l : Link) w r :
  nested s l -> opens s' s -> w ∈ k_log y -> kind_of w <> payload_kind_to_Z SealedReliable ->
  let l' := HandleCarrierFrame host l w r in
  nested s l'
  /\ (sending s (core_link l) y [] -> sending s (core_link l') y [])
  /\ (sending s' y (core_link l) [] -> sending s' y (core_link l') []).
Proof.
  intros Hl Hopens Hin Hnr. cbv zeta. unfold HandleCarrierFrame. destruct (DecodeKind w) as [k|e] eqn:Hkind; [|done].
  assert (Hkw : kind_of w = k) by (destruct w; [done|]; by apply Ok_inj in Hkind).
  destruct (_ || _) eqn:Hlane.
  { apply HandleLaneFrame_nested; try done. apply orb_true_iff in Hlane as [?%Z.eqb_eq|?%Z.eqb_eq]; auto. }
  rewrite (nl_phase _ _ Hl). rewrite bool_decide_true by done. rewrite bool_decide_true by apply (nl_mux _ _ Hl). cbn [andb].
  assert (Hgoes : forall l', nested s l' -> goes_on s (core_link l) (core_link l') ->
    nested s l' /\ (sending s (core_link l) y [] -> sending s (core_link l') y [])
    /\ (sending s' y (core_link l) [] -> sending s' y (core_link l') [])).
  { intros l' Hn [Ho Hi]. split_and!; [done|apply Ho|apply Hi]. }
  destruct (Z.eqb_spec k (payload_kind_to_Z Msh)) as [Hmsh|Hmsh].
  - destruct (DecodeMshType w) as [msh|]; [|done]. case_bool_decide as Hf; [by (cbn [negb]; rewrite andb_false_r)|]. destruct (msh =? _); cbn [andb negb]; [|done].
    destruct (nl_final _ _ Hl) as [|Hfk]; [done|].
    destruct (SendLinkCarrier_goes s l (carrier_final_msh_ l) Hl) as [Hn Hg]; [by split; rewrite Hfk|by rewrite Hfk|]. by apply Hgoes.
  - destruct (Z.eqb_spec k (payload_kind_to_Z Sealed)) as [Hs|Hs].
    + cbn [negb andb]. destruct (DeliverSealed_out s l w Hl) as [Hn _]. apply Hgoes; [done|].
      destruct (CarrierDecodeSealedHeader w) as [h|e] eqn:Hh.
      * destruct (best_effort_header w ltac:(congruence) h Hh) as [n ->]. by apply (DeliverSealed_best_effort s l w n).
      * unfold DeliverSealedCarrierWire. rewrite Hh. by destruct (session_ _).
    + rewrite (proj2 (Z.eqb_neq k (payload_kind_to_Z SealedReliable))) by congruence. by cbn [negb andb].
Qed.

Lemma fold_send (wires : list bytes) (l : Link) log : carrier_ (wire_ l) = Some log ->
  fold_left SendLinkCarrier wires l = l <| wire_ ::= fun x => x <| carrier_ := Some (log ++ wires) |> |>.
Proof.
  revert l log. induction wires as [|w wires IH]; intros l log Hc; cbn [fold_left].
  - rewrite app_nil_r. destruct l as [? ? ? ? ? w0]. cbn in Hc. unfold set_field. cbn. destruct w0. cbn in *. by subst.
  - rewrite (SendLinkCarrier_log l log) by done. rewrite (IH _ (log ++ [w])) by done. by rewrite <- app_assoc.
Qed.

Lemma resends_data lane now : all_data lane ->
  all_data (DueResends lane now).1 /\ Forall (fun w => kind_of w = payload_kind_to_Z LaneData) (DueResends lane now).2
  /\ rx_side (DueResends lane now).1 = rx_side lane /\ peer_speaks_lane_ (DueResends lane now).1 = peer_speaks_lane_ lane.
Proof.
  intros Hd.
  assert (Hone : forall o, kind_of (wire o) = payload_kind_to_Z LaneData ->
    kind_of (wire (resend_frame lane now o).1.1) = payload_kind_to_Z LaneData
    /\ forall w, (resend_frame lane now o).2 = Some w -> kind_of w = payload_kind_to_Z LaneData).
  { intros o Ho. unfold resend_frame. destruct (_ <? _); [done|]. destruct (_ <=? _); [done|]. cbv zeta. cbn [fst snd].
    split; [done|]. by intros w [= <-]. }
  unfold DueResends, all_data in *. cbv zeta. cbn [fst snd]. split_and!; [| |done|done].
  - cbn. rewrite map_map. apply Forall_map. eapply Forall_impl; [exact Hd|]. intros o Ho. by apply Hone.
  - apply Forall_forall. intros w (rr & Hr & Hr2)%list_elem_of_omap. apply list_elem_of_In, in_map_iff in Hr as (o & <- & Ho%list_elem_of_In).
    rewrite Forall_forall in Hd. by apply (Hone o (Hd o Ho)).
Qed.

Lemma TickCarrierLane_nested s (l : Link) now : nested s l ->
  nested s (TickCarrierLane l now) /\ goes_on s (core_link l) (core_link (TickCarrierLane l now)).
Proof.
  intros Hl. destruct (tk_lane _ _ (nl_talks _ _ Hl)) as (lane & Hlane & Hsp & Hdata).
  destruct (tk_carrier _ _ (nl_talks _ _ Hl)) as (log & Hc & Hall). unfold TickCarrierLane. rewrite Hlane, (nl_phase _ _ Hl).
  rewrite bool_decide_true by done. cbn [negb]. destruct (resends_data lane now Hdata) as (Hd' & Hws & Hrx & Hsp').
  destruct (DueResends lane now) as [lane' wires] eqn:Hdue. cbn [fst snd] in *.
  rewrite (fold_send _ _ log) by done. set (l1 := l <| wire_ ::= _ |> <| wire_ ::= _ |>). rewrite Forall_forall in Hws. split.
  - apply (nested_wire s l (wire_ l <| lane_ := Some lane' |> <| carrier_ := Some (log ++ wires) |>)); [done|].
    split; [|apply (nl_talks _ _ Hl)..|].
    + eexists. split; [done|]. intros u [Hu|Hu]%elem_of_app; [by apply Hall|by rewrite (Hws u Hu)].
    + exists lane'. split; [done|]. split; [congruence|done].
  - split.
    + intros y todo Hs Hlt. assert (E : k_lane (core_link l) = lane) by (unfold core_link, core_of; cbn; by rewrite Hlane).
      apply (dir_resend _ (core_link l) _ _ _ now); [by apply Hs| |done|done|]; rewrite E, Hdue; [done|].
      unfold core_link, core_of. cbn. by rewrite Hc.
    + intros s' y todo Hs Hlt. apply (dir_receiver _ _ (core_link l)); [by apply Hs| |done|done|].
      * unfold core_link, core_of. cbn. by rewrite Hlane.
      * unfold core_link, core_of. cbn. rewrite Hc. cbn. intros u [Hu|Hu]%elem_of_app; [by left|right]. by rewrite (Hws u Hu).
Qed.

(** ** The two ends and the network between them

    What either end's carrier took may reach the other at any time, any number of
    times, in any order, or never; either end's multiplexer is used in any way;
    clocks and the lane's timer go as they like. *)

Inductive acts (a b : Link) : Link -> Prop :=
  | act_mux m f : mux_ a = Some m -> (forall m, via_transport m (f m)) -> acts a b (with_mux a m (fun m => (f m, tt))).1
  | act_clock now : acts a b (a <| wire_ ::= fun w => w <| lw_now := now |> |>)
  | act_tick now : acts a b (TickCarrierLane a now)
  | act_frame host log w r : carrier_ (wire_ b) = Some log -> w ∈ log -> acts a b (HandleCarrierFrame host a w r).
Inductive nested_step : Link * Link -> Link * Link -> Prop :=
  | step_left a b a' : acts a b a' -> nested_step (a, b) (a', b)
  | step_right a b b' : acts b a b' -> nested_step (a, b) (a, b').

Lemma acts_pair s s' a b a' : opens s' s -> nested s a -> nested s' b -> acts a b a' ->
  nested s a'
  /\ (sending s (core_link a) (core_link b) [] -> sending s (core_link a') (core_link b) [])
  /\ (sending s' (core_link b) (core_link a) [] -> sending s' (core_link b) (core_link a') []).
Proof.
  intros Hopens Ha Hb Hact.
  assert (Hgoes : forall l, nested s l /\ goes_on s (core_link a) (core_link l) ->
    nested s l /\ (sending s (core_link a) (core_link b) [] -> sending s (core_link l) (core_link b) [])
    /\ (sending s' (core_link b) (core_link a) [] -> sending s' (core_link b) (core_link l) [])).
  { intros l [Hn [Ho Hi]]. split_and!; [done|apply Ho|apply Hi]. }
  destruct Hact as [m f Hm Hf|now|now|host log w r Hlog Hin].
  - apply Hgoes, with_mux_goes; done.
  - split; [|done]. apply (nested_wire s a (wire_ a <| lw_now := now |>)); [done|]. destruct (nl_talks _ _ Ha) as [J1 J2 J3 J4]. by split.
  - by apply Hgoes, TickCarrierLane_nested.
  - destruct (tk_carrier _ _ (nl_talks _ _ Hb)) as (log' & Hlog' & Hall). rewrite Hlog in Hlog'. injection Hlog' as <-.
    apply HandleCarrierFrame_nested; [done|done| |by apply Hall]. unfold core_link. by rewrite (core_of_log _ _ _ _ log).
Qed.

(** A link just come up over a carrier: its session made, nothing reliable sent
    or received, the lane unused and known to be spoken by the peer; of what its
    carrier took, handshake messages and probes. *)
Record fresh_link (s : Session) (l : Link) : Prop := {
  fl_nested : nested s l;
  fl_lane : lane_ (wire_ l) = Some (NotePeerSpeaksLane (CarrierLane_new CarrierLaneConfig_default));
  fl_tx : carrier_tx_rel_ (wire_ l) = 0;
  fl_window : carrier_rx_rel_ l = ReplayWindow_new kCarrierReliableReplayWindow true;
  fl_sent : sent_reliable (mlog l) = [];
  fl_opened : opened_reliable (link_log l) = [];
  fl_wires : forall log w, carrier_ (wire_ l) = Some log -> w ∈ log -> mute w;
}.

Lemma fresh_sending s s' x y : fresh_link s x -> fresh_link s' y -> sending s (core_link x) (core_link y) [].
Proof.
  intros [J1 J2 J3 J4 J5 J6 J7] [K1 K2 K3 K4 K5 K6 K7] _.
  destruct (tk_carrier _ _ (nl_talks _ _ J1)) as (log & Hc & _). destruct (tk_carrier _ _ (nl_talks _ _ K1)) as (log' & Hc' & _).
  set (probe := EncodeLaneAck LaneAckFields_default). set (c := CarrierLaneConfig_default).
  assert (Hnet : net_inv c c (MkLaneNet (CarrierLane_new c) (CarrierLane_new c) [] [] [probe] [])).
  { apply net_reach_inv. apply rtc_once. apply (net_probe _ _ _ _ []). }
  unfold core_link, core_of. rewrite J2, J3, K2, K4, J5, K6, Hc, Hc'. split; [cbn; lia|].
  exists [], [], [], [], [probe]. split_and!; cbn; try done.
  - constructor.
  - by apply (net_inv_sides _ _ (CarrierLane_new c) (CarrierLane_new c)).
  - intros w Hw Hk. by destruct (J7 log w Hc Hw).
  - intros w Hw Hk. destruct (K7 log' w Hc' Hw) as [_ ->]; [by left|done].
Qed.

Definition pair_inv (s s' : Session) (a b : Link) : Prop :=
  nested s a /\ nested s' b /\ sending s (core_link a) (core_link b) [] /\ sending s' (core_link b) (core_link a) [].

Lemma pair_reach s s' a b a' b' : opens s s' -> opens s' s -> pair_inv s s' a b ->
  rtc nested_step (a, b) (a', b') -> pair_inv s s' a' b'.
Proof.
  intros Ho Ho' Hi Hr. remember (a, b) as p eqn:Hp. remember (a', b') as p' eqn:Hp'. revert a b Hp Hi.
  induction Hr as [p|p q p' Hstep _ IH]; intros a b -> (Ha & Hb & Hs & Hs'); [by injection Hp' as <- <-|].
  inversion Hstep as [? ? a1 Hact|? ? b1 Hact]; subst.
  - destruct (acts_pair s s' a b a1 Ho' Ha Hb Hact) as (Hn & H1' & H2'). apply (IH eq_refl a1 b eq_refl). split_and!; auto.
  - destruct (acts_pair s' s b a b1 Ho Hb Ha Hact) as (Hn & H1' & H2'). apply (IH eq_refl a b1 eq_refl). split_and!; auto.
Qed.

(** What the direction's state says of the frames. *)
Lemma dir_prefix s x y : dir s x y [] ->
  k_opened y `prefix_of` k_sent x /\ (outstanding_ (k_lane x) = [] -> k_opened y = k_sent x).
Proof.
  intros [_ (pk & given & done & data & acks & D1 & _ & _ & D4 & D5 & _ & _ & D8 & _)]. rewrite D4, D8. split.
  - exists (map snd (drop (length done) pk)). by rewrite <- map_app, take_drop.
  - intros Hout. pose proof (drained_received _ _ _ D5 Hout) as Hg. cbn in Hg. rewrite app_nil_r in Hg.
    rewrite Hg, take_ge; [done|]. by rewrite (Forall2_length _ _ _ D1).
Qed.

(** C9: two links nested over a carrier deliver in order.  Both up over a carrier
    with the sessions of one handshake, in one epoch, whatever the relays between
    lose, repeat and reorder of what either end sent, however both ends' layers
    above use them and whenever their timers run: the reliable frames one end has
    opened and handed to its multiplexer are at any time a prefix of those the
    other end's multiplexer sent, each once, and all of them when the sender's
    lane has nothing outstanding; the links stay up.  (Short of the last numbers
    of a packet, which are 32 bits wide.) *)
Theorem nested_reliable_in_order `{!KdfLaws} (ikm th : bytes) (i : bool) (sa sb : Session) (a b a' b' : Link) :
  session_run ikm th i sa -> session_run ikm th (negb i) sb ->
  session_epoch (material_ sa) = session_epoch (material_ sb) ->
  fresh_link sa a -> fresh_link sb b -> rtc nested_step (a, b) (a', b') ->
  phase_ a' = Connected /\ phase_ b' = Connected
  /\ (carrier_tx_rel_ (wire_ a') < kNumbers ->
      opened_reliable (link_log b') `prefix_of` sent_reliable (mlog a')
      /\ forall lane, lane_ (wire_ a') = Some lane -> outstanding_ lane = [] ->
           opened_reliable (link_log b') = sent_reliable (mlog a')).
Proof.
  intros Ha Hb He Hfa Hfb Hr. apply session_run_wf in Ha, Hb; [|done..].
  assert (Hab : opens sa sb) by (intros ? ? ? ? ? ?; by apply (same_epoch_opens ikm th i)).
  assert (Hba : opens sb sa).
  { intros ? ? ? ? ? ?. apply (same_epoch_opens ikm th (negb i)); [done| |done]. by rewrite negb_involutive. }
  destruct (pair_reach sa sb a b a' b' Hab Hba) as (Hna & Hnb & Hs & _); [|done|].
  { split_and!; [apply Hfa|apply Hfb|by apply (fresh_sending sa sb)|by apply (fresh_sending sb sa)]. }
  split_and!; [apply Hna|apply Hnb|]. intros Hlt. destruct (dir_prefix _ _ _ (Hs Hlt)) as [Hp Hall]. split; [exact Hp|].
  intros lane Hl Hout. apply Hall. unfold core_link, core_of. cbn. by rewrite Hl.
Qed.
End Nested.

(** ** Witness *)

Section Witness.
#[local] Existing Instance toy_sodium.
#[local] Existing Instance toy_aead.
#[local] Existing Instance toy_aead_laws.
#[local] Existing Instance toy_kdf.
#[local] Existing Instance toy_kdf_laws.
#[local] Existing Instance toy_kem.
#[local] Existing Instance toy_dsa.
#[local] Existing Instance toy_io.
#[local] Existing Instance toy_hash.

Abbreviation ToyNested := (PeerLink (Connection Session ToyIo) (list bytes)).
Definition no_draw : Draw := MkDraw [] [] [].

(** Established over a carrier, and told of the lane by the other's probe. *)
Definition up (i : bool) : ToyNested :=
  let l := FinishEstablishment toy_ports (PeerLink_carrier "join" "" i [] (toy_identity 3)) (toy_established i [1; 255]) in
  HandleCarrierFrame toy_ports l (EncodeLaneAck LaneAckFields_default) no_draw.

Lemma up_fresh i : fresh_link (toy_session i) (up i).
Proof.
  assert (Hw : wire_ (up i) = MkLinkWire i 0 None (Some [EncodeLaneAck LaneAckFields_default])
    (Some (NotePeerSpeaksLane (CarrierLane_new CarrierLaneConfig_default))) (Some (toy_session i)) 0 0 0 0) by (destruct i; vm_compute; reflexivity).
  split; rewrite ?Hw; [|by destruct i; vm_compute..|].
  - split; rewrite ?Hw; [by destruct i; vm_compute|destruct i; vm_compute; by eexists| |by destruct i; vm_compute|left; by destruct i; vm_compute].
    split.
    + eexists. split; [reflexivity|]. intros u ->%list_elem_of_singleton. done.
    + reflexivity.
    + change (0 <= 0 < 2 ^ 32). lia.
    + eexists. split; [reflexivity|]. split; [reflexivity|constructor].
  - intros log w [= <-] ->%list_elem_of_singleton. by split.
Qed.

(** One frame sent, and the packet it goes in received. *)
Definition sent_one : ToyNested :=
  match mux_ (up true) with
  | Some m => (with_mux (up true) m (fun m => ((ChannelMux.SendWire m 5 Reliable [1; 2; 3]).1, tt))).1
  | None => up true
  end.
Definition received_one : ToyNested :=
  match carrier_ (wire_ sent_one) with
  | Some log => HandleCarrierFrame toy_ports (up false) (default [] (last log)) no_draw
  | None => up false
  end.

Theorem nested_reliable_in_order_witness :
  sent_reliable (mlog sent_one) = [[1; 2; 3]] /\ opened_reliable (link_log received_one) = [[1; 2; 3]]
  /\ opened_reliable (link_log received_one) `prefix_of` sent_reliable (mlog sent_one).
Proof.
  split; [by vm_compute|]. split; [by vm_compute|].
  assert (Hrun : rtc nested_step (up true, up false) (sent_one, received_one)).
  { destruct (mux_ (up true)) as [m|] eqn:Hm; [|by vm_compute in Hm].
    eapply rtc_l; [apply step_left|apply rtc_once, step_right].
    - assert (E : sent_one = (with_mux (up true) m (fun m => ((ChannelMux.SendWire m 5 Reliable [1; 2; 3]).1, tt))).1) by (unfold sent_one; by rewrite Hm).
      rewrite E. apply (act_mux _ _ m (fun m => (ChannelMux.SendWire m 5 Reliable [1; 2; 3]).1) Hm). intros m'. apply SendWire_via.
    - unfold received_one. destruct (carrier_ (wire_ sent_one)) as [log|] eqn:Hc; [|by vm_compute in Hc].
      apply (act_frame _ _ toy_ports log); [done|]. apply (bool_decide_eq_true_1 _). assert (E : Some log = carrier_ (wire_ sent_one)) by done.
      vm_compute in E. injection E as ->. vm_compute. reflexivity. }
  destruct (nested_reliable_in_order toy_ikm toy_th true (toy_session true) (toy_session false) (up true) (up false) sent_one received_one
    (toy_session_run true) (toy_session_run false) ltac:(vm_compute; reflexivity) (up_fresh true) (up_fresh false) Hrun) as (_ & _ & Hp).
  apply Hp. by vm_compute.
Defined.
End Witness.
