(* ===== verification/AdpLink.v ===== *)
(** * Two links over an association

    A link over UDP end to end: the multiplexer's frames go through the link to a
    connection of L1, sealed and numbered, over a network that may lose, repeat,
    reorder, delay and inject; the peer's connection hands what it opens to its
    link, and that to its multiplexer.  The theorem composes [ReliableChannel],
    [ChannelRuns], [Session] and [PeerLink]: a channel of two links delivers what
    it was given, in order, and short of the association's end all of it. *)

From S2P Require Import Prelude L1Types Toy ReplayWindow Connection ConnectionFacts ConnectionSender ReliableChannel ConnectionProps ConnectionMail L2Types ToyCrypto SessionControl SessionKeys SessionCrypto Session ChannelWire ChannelPolicy MessageReassembly ChannelMux ChannelMuxFacts MuxReach ChannelMuxProps ChannelRuns MshMessages MshHandshake AmpAdpCarrier CarrierLane MshAdpHandshake LinkPolicy LinkWire PeerLink PeerLinkProps.

Section Adp.
Context {Io C : Type} `{DatagramIo Io} `{CarrierSession C} `{Sodium} `{!SodiumLaws} `{GenericHash} `{Kdf} `{MlKem} `{MlDsa}.
Context `{Aead} {in_use : bytes -> Prop} `{!AeadLaws in_use}.
Context (host : PeerLinkHostPorts (Connection Session Io) C).
#[local] Instance run_sound : Sound Session := Session_sound in_use.
#[local] Instance run_protection_laws : PacketProtectionLaws Session := Session_protection_laws.
Abbreviation Conn := (Connection Session Io).
Abbreviation Link := (PeerLink Conn C).
Abbreviation Wire := (LinkWire Conn C).
Abbreviation Mux := (ChannelMux Wire).

(** ** What happens at one end *)

Inductive link_op :=
  | LnMux (o : mux_op Wire)
  | LnConn (o : op Session Io)
  | LnDatagram (from : IpEndpoint) (d : bytes) (now : Z) (r : Draw)
  | LnRekey (s : Session)
  | LnClock (now : Z).

(** A call of the multiplexer through the link, as the multiplexer sees it. *)
Definition calls (l : Link) (o : mux_op Wire) : list (mux_op Wire) := [OpTransport (wire_ l); OpClock (NowMs l); o].
Definition call_mux (l : Link) (o : mux_op Wire) : Link :=
  match mux_ l with
  | Some m => (with_mux l m (fun m => run_mux_op m o)).1
  | None => l
  end.

Definition put_connection (c : Conn) (l : Link) : Link := l <| wire_ ::= fun w => w <| connection_ := Some c |> |>.

(** The link is the handler of its connection: it takes the messages a datagram
    brings, in their order. *)
Definition take_message (r : Draw) (lt : Link * list (mux_op Wire)) (m : Message) : Link * list (mux_op Wire) :=
  (OnConnectionMessage host lt.1 m r, lt.2 ++ if m_sealed m then calls lt.1 (OpInbound (m_payload m)) else []).

(** The link after, and what its multiplexer saw: a call of the multiplexer by
    what is above; the connection's timer, and other calls of it; a datagram; new
    keys; the clock. *)
Definition act (l : Link) (o : link_op) : Link * list (mux_op Wire) :=
  match o, connection_ (wire_ l) with
  | LnMux o, _ => (call_mux l o, calls l o)
  | LnConn o, Some c => (put_connection (run_op c o) l, [])
  | LnDatagram from d now r, Some c =>
      let c' := HandleDatagram c from d now in
      fold_left (take_message r) (drop (length (messages c)) (messages c')) (put_connection c' l, [])
  | LnRekey s, _ => (l <| wire_ ::= share_session s |>, [])
  | LnClock now, _ => (l <| wire_ ::= fun w => w <| lw_now := now |> |>, [])
  | _, None => (l, [])
  end.

(** Of the multiplexer's operations, those of what is above. *)
Definition client_op (o : mux_op Wire) : Prop :=
  match o with OpTransport _ | OpClock _ | OpFrameBudget _ | OpInbound _ => False | _ => mux_op_ok o end.
Definition link_op_ok (l peer : Link) (o : link_op) : Prop :=
  match o with
  | LnMux o => client_op o
  | LnConn o => plain_op o \/ exists now, o = ReliableChannel.OpTick now
  | LnDatagram from d now _ =>
      exists me other, connection_ (wire_ l) = Some me /\ connection_ (wire_ peer) = Some other
      /\ allowed me other (OpDatagram from d now)
  | LnRekey s => sound s
  | LnClock _ => True
  end.

(** ** Both ends *)

Fixpoint play (a b : Link) (ops : list (bool * link_op)) : Link * Link * (list (mux_op Wire) * list (mux_op Wire)) :=
  match ops with
  | [] => (a, b, ([], []))
  | (true, o) :: ops =>
      let '(a, seen) := act a o in
      let '(a, b, (sa, sb)) := play a b ops in (a, b, (seen ++ sa, sb))
  | (false, o) :: ops =>
      let '(b, seen) := act b o in
      let '(a, b, (sa, sb)) := play a b ops in (a, b, (sa, seen ++ sb))
  end.
Fixpoint pair_run (a b : Link) (ops : list (bool * link_op)) : Prop :=
  match ops with
  | [] => True
  | (true, o) :: ops => link_op_ok a b o /\ pair_run (act a o).1 b ops
  | (false, o) :: ops => link_op_ok b a o /\ pair_run a (act b o).1 ops
  end.

(** *** A link that is up over a connection *)

Record on_adp (w : Wire) (c : Conn) : Prop := {
  oa_connection : connection_ w = Some c;
  oa_carrier : carrier_ w = None;
  oa_lane : lane_ w = None;
}.
(** The connection has keys, and nothing from before them held back. *)
Definition keyed_up (c : Conn) : Prop := Sealing c = true /\ sealed_hold c.
Record joined (l : Link) (c : Conn) (m : Mux) : Prop := {
  jn_phase : phase_ l = Connected;
  jn_mux : mux_ l = Some m;
  jn_wire : on_adp (wire_ l) c;
  jn_keyed : keyed_up c;
}.

(** ** One direction

    What the left end's multiplexer tried to send, what the connection took of it,
    and what the right end's multiplexer heard. *)

Definition tried (log : list mux_event) : list bytes :=
  omap (fun e => match e with EvSend Reliable w _ => Some w | _ => None end) log.
Definition offered (log : list mux_event) : list bytes :=
  omap (fun e => match e with EvSend BestEffort w _ => Some w | _ => None end) log.
Lemma tried_app log log' : tried (log ++ log') = tried log ++ tried log'.
Proof. apply omap_app. Qed.
Lemma offered_app log log' : offered (log ++ log') = offered log ++ offered log'.
Proof. apply omap_app. Qed.
Definition fits (w : bytes) : Prop := size w <= kMaxSealedPayload.
#[local] Instance fits_dec w : Decision (fits w) := Z_le_dec _ _.

(** [ins] are the payloads of [rel], between others of [be]. *)
Inductive heard (be : list bytes) : list bytes -> list bytes -> Prop :=
  | heard_nil : heard be [] []
  | heard_reliable p rel ins : heard be rel ins -> heard be (p :: rel) (p :: ins)
  | heard_best p rel ins : p ∈ be -> heard be rel ins -> heard be rel (p :: ins).

Lemma heard_app be be' rel rel' ins ins' : be ⊆ be' -> heard be rel ins -> heard be' rel' ins' -> heard be' (rel ++ rel') (ins ++ ins').
Proof. intros Hbe Hh Hh'. induction Hh; cbn; [done|by constructor|constructor; auto]. Qed.
Lemma heard_mono be be' rel ins : be ⊆ be' -> heard be rel ins -> heard be' rel ins.
Proof. intros Hbe Hh. induction Hh; constructor; auto. Qed.
Lemma heard_same be rel : heard be rel rel.
Proof. induction rel; by constructor. Qed.

(** From one state of the two connections to a later one. *)
Record carried (s s' : Sys (P := Session) (Io := Io)) (log : list mux_event) (ins : list bytes) : Prop := {
  cr_final : final (side_a s) -> sent_a s' = sent_a s /\ final (side_a s');
  cr_sent : exists tk, sent_a s' = sent_a s ++ tk /\ tk `prefix_of` filter fits (tried log)
              /\ (tk = filter fits (tried log) \/ final (side_a s'));
  cr_best : best_a s ⊆ best_a s' /\ forall p, p ∈ best_a s' -> p ∈ best_a s \/ p ∈ offered log;
  cr_heard : exists rel, (delivered_log (side_b s')).*2 = (delivered_log (side_b s)).*2 ++ rel /\ heard (best_a s') rel ins;
}.

Lemma carried_refl s : carried s s [] [].
Proof.
  split; [done| | |].
  - exists []. rewrite app_nil_r. split_and!; [done|done|by left].
  - split; [done|by left].
  - exists []. rewrite app_nil_r. split; [done|constructor].
Qed.

Lemma carried_trans s1 s2 s3 log1 log2 ins1 ins2 :
  carried s1 s2 log1 ins1 -> carried s2 s3 log2 ins2 -> carried s1 s3 (log1 ++ log2) (ins1 ++ ins2).
Proof.
  intros [F1 (t1 & E1 & P1 & D1) [B1 O1] (r1 & L1 & H1')] [F2 (t2 & E2 & P2 & D2) [B2 O2] (r2 & L2 & H2')].
  split.
  - intros Hf. destruct (F1 Hf) as [<- Hf2]. by apply F2.
  - exists (t1 ++ t2). rewrite tried_app, filter_app. split; [by rewrite E2, E1, app_assoc|]. destruct D1 as [->|Hf].
    + split; [by apply prefix_app|]. destruct D2 as [->|]; [by left|by right].
    + destruct (F2 Hf) as [Hs Hf3]. rewrite Hs in E2. assert (t2 = []) as ->.
      { apply (f_equal length) in E2. rewrite length_app in E2. destruct t2; [done|cbn in E2; lia]. }
      rewrite app_nil_r. split; [by apply prefix_app_r|by right].
  - split; [by etrans|]. intros p Hp. rewrite offered_app, elem_of_app. destruct (O2 p Hp) as [Hp'|]; [|by right; right].
    destruct (O1 p Hp'); [by left|by right; left].
  - exists (r1 ++ r2). rewrite L2, L1, app_assoc. split; [done|]. by eapply heard_app.
Qed.

(** An event that sends nothing. *)
Lemma carried_other s s' log ins e : ~ is_send e -> carried s s' log ins -> carried s s' (log ++ [e]) ins.
Proof.
  intros He [F E B L].
  assert (Ht : tried (log ++ [e]) = tried log) by (rewrite tried_app; destruct e; cbn; try apply app_nil_r; by destruct He).
  assert (Ho : offered (log ++ [e]) = offered log) by (rewrite offered_app; destruct e; cbn; try apply app_nil_r; by destruct He).
  split; [done|by rewrite Ht|by rewrite Ho|done].
Qed.

(** *** The two ends changed round *)

Definition swap (s : Sys (P := Session) (Io := Io)) : Sys :=
  MkSys (side_b s) (side_a s) (sent_b s) (sent_a s) (best_b s) (best_a s).
Lemma swap_swap s : swap (swap s) = s.
Proof. by destruct s. Qed.
Lemma reachable_swap s : reachable s -> reachable (swap s).
Proof.
  induction 1 as [ca cb Ha Hb|s s' _ IH Hs]; [by apply reach_init|]. eapply reach_step; [exact IH|].
  destruct Hs as [s o Ho|s o Ho]; [by apply (step_b (swap s) o)|by apply (step_a (swap s) o)].
Qed.

(** What a step at the left end does to both directions. *)
Record advanced (s s' : Sys) (log : list mux_event) (ins : list bytes) : Prop := {
  ad_reach : reachable s';
  ad_peer : side_b s' = side_b s;
  ad_out : carried s s' log [];
  ad_in : carried (swap s) (swap s') [] ins;
  ad_bytes : Forall bytes_ok ins;
  ad_keyed : keyed_up (side_a s) -> keyed_up (side_a s');
}.
Lemma advanced_refl s : reachable s -> advanced s s [] [].
Proof. intros Hr. split; [done|done|apply carried_refl..|constructor|done]. Qed.
Lemma advanced_trans s1 s2 s3 log1 log2 ins1 ins2 :
  advanced s1 s2 log1 ins1 -> advanced s2 s3 log2 ins2 -> advanced s1 s3 (log1 ++ log2) (ins1 ++ ins2).
Proof.
  intros [J1 J2 J3 J4 J5 J6] [K1 K2 K3 K4 K5 K6]. split; [done|congruence| | |by apply Forall_app|auto].
  - apply (carried_trans s1 s2 s3 _ _ [] [] J3 K3).
  - apply (carried_trans _ _ _ [] [] _ _ J4 K4).
Qed.

(** ** The steps of a connection *)

Definition after (s : Sys) (o : op Session Io) : Sys :=
  MkSys (run_op (side_a s) o) (side_b s) (note_sent (side_a s) o (sent_a s)) (sent_b s) (note_best o (best_a s)) (best_b s).
Lemma after_reachable s o : reachable s -> allowed (side_a s) (side_b s) o -> reachable (after s o).
Proof. intros Hr Ho. eapply reach_step; [exact Hr|]. by apply step_a. Qed.

Lemma final_kept s o : reachable s -> allowed (side_a s) (side_b s) o -> final (side_a s) ->
  sent_a (after s o) = sent_a s /\ final (side_a (after s o)).
Proof.
  intros Hr Ho Hf. assert (Hsent : sent_a (after s o) = sent_a s).
  { cbn. unfold note_sent. destruct o as [[] p| | | | | | | | | | | | | |]; try done.
    assert (run_op (side_a s) (OpSend Reliable p) = side_a s) as ->; [|by rewrite Z.eqb_refl].
    cbn. unfold Send, SendReliable. destruct Hf as [->| ->]; [done|]. destruct (closed_ _); [done|]. destruct (_ <? _); [done|].
    cbv zeta. by destruct (_ <=? _). }
  split; [done|]. destruct Hf as [Hc|Hs]; [left; by apply closed_op|right].
  pose proof (reachable_inv _ (after_reachable s o Hr Ho)) as [[_ Htx' _ _] _ _ _].
  pose proof (reachable_inv _ Hr) as [[_ Htx _ _] _ _ _].
  rewrite (txi_seq _ _ Htx'), Hsent, <- (txi_seq _ _ Htx). exact Hs.
Qed.

Lemma unsent_carried s o : reachable s -> allowed (side_a s) (side_b s) o ->
  sent_a (after s o) = sent_a s -> best_a (after s o) = best_a s -> carried s (after s o) [] [].
Proof.
  intros Hr Ha Hs Hb. split.
  - by apply final_kept.
  - exists []. rewrite app_nil_r. split_and!; [done|done|by left].
  - rewrite Hb. split; [done|by left].
  - exists []. rewrite app_nil_r. split; [done|constructor].
Qed.

(** Nothing sent by the left end, and this heard at the left from the right. *)
Lemma heard_carried s o rel ins :
  (delivered_log (run_op (side_a s) o)).*2 = (delivered_log (side_a s)).*2 ++ rel -> heard (best_b s) rel ins ->
  carried (swap s) (swap (after s o)) [] ins.
Proof.
  intros Hd Hh. split; cbn.
  - done.
  - exists []. rewrite app_nil_r. split_and!; [done|done|by left].
  - split; [done|by left].
  - exists rel. done.
Qed.

Lemma keyed_up_view (c c' : Conn) : rx_view c' = rx_view c -> id_view c' = id_view c -> keyed_up c -> keyed_up c'.
Proof. intros [= _ _ Hh _ _ _] [= _ Hp]. unfold keyed_up, Sealing, sealed_hold. by rewrite Hh, Hp. Qed.

Lemma local_in s o : reachable s -> local_op o ->
  carried (swap s) (swap (after s o)) [] [] /\ (keyed_up (side_a s) -> keyed_up (side_a (after s o))).
Proof.
  intros Hr Ho. pose proof (reachable_inv _ Hr) as [[Hk Htx _ _] _ _ _].
  destruct (local_op_views _ (side_a s) o Hk Htx Ho) as [Hrx Hid]. split; [|by apply keyed_up_view].
  apply (heard_carried s o []); [|constructor]. injection Hrx as _ _ _ _ _ Hd. by rewrite Hd, app_nil_r.
Qed.

Lemma quiet_advanced s o : reachable s -> allowed (side_a s) (side_b s) o -> plain_op o \/ (exists now, o = ReliableChannel.OpTick now) ->
  advanced s (after s o) [] [].
Proof.
  intros Hr Ha Ho. assert (Hl : local_op o) by (destruct Ho as [Ho|[now ->]]; [by destruct o|done]).
  destruct (local_in s o Hr Hl) as [Hin Hk]. split; [by apply after_reachable|done| |done|constructor|done].
  apply unsent_carried; [done..| |]; destruct Ho as [Ho|[now ->]]; try done; by destruct o as [[] ?| | | | | | | | | | | | | |].
Qed.
Lemma rekey_advanced s p : reachable s -> sound p -> advanced s (after s (OpSetProtection (Some p))) [] [].
Proof.
  intros Hr Hp. split; [by apply after_reachable|done|by apply unsent_carried| |constructor|].
  - apply (heard_carried s (OpSetProtection (Some p)) []); [by rewrite app_nil_r|constructor].
  - by intros [_ Hh].
Qed.

(** A frame given to the connection: a reliable one is taken, as there is credit
    and if it fits, unless the association has come to its end. *)
Lemma taken_or_final s w : reachable s -> keyed_up (side_a s) -> 0 < ReliableCreditsRemaining (side_a s) -> fits w ->
  sent_a (after s (OpSend Reliable w)) = sent_a s ++ [w] \/ final (side_a s).
Proof.
  intros Hr [Hseal _] Hcredit Hfit. pose proof (reachable_inv _ Hr) as [[Hk Htx _ _] _ _ _].
  destruct (closed_ (side_a s)) eqn:Hc; [by right; left|].
  destruct (decide (tx_seq_rel_ (side_a s) = 4294967295)) as [Hmax|Hmax]; [by right; right|left].
  cbn. unfold Send. rewrite Hc, Hseal. unfold fits in Hfit. rewrite (proj2 (Z.ltb_ge _ _)) by done. cbv zeta.
  assert (Hwin : reliable_window (params_ (side_a s)) <=? size (Connection.outstanding_ (side_a s)) = false).
  { unfold ReliableCreditsRemaining in Hcredit. by destruct (_ <=? _). }
  destruct (SendReliable_post (sent_a s) (side_a s) w (clock_ (endpoint_ (side_a s))) Htx Hk) as [[He _]|(Hseq & _)].
  - exfalso. apply (f_equal tx_seq_rel_) in He. unfold SendReliable in He. rewrite Hwin, (proj2 (Z.eqb_neq _ _) Hmax) in He. cbv zeta in He.
    match type of He with context [SendPacket ?c1 ?t ?s ?p ?now ?k] =>
      pose proof (f_equal (fun v => v.1.1.1) (proj1 (proj2 (SendPacket_views c1 t s p now k)))) as Hs; cbn [fst tx_view] in Hs;
      destruct (SendPacket c1 t s p now k) as [c2 [u|e2]] end;
      cbn [fst] in *; try destruct (peer_unreachable_ c2); cbn [fst] in He; rewrite Hs in He; cbn in He;
      pose proof (txi_u32 _ _ Htx); pose proof (txi_seq _ _ Htx); pose proof (size_nonneg (sent_a s));
      rewrite u32_id in He by (unfold is_u32; lia); lia.
  - rewrite Hseq. rewrite (proj2 (Z.eqb_neq _ _)) by lia. done.
Qed.
Lemma refused_too_large s w : Sealing (side_a s) = true -> ~ fits w -> sent_a (after s (OpSend Reliable w)) = sent_a s.
Proof.
  intros Hs Hf. cbn. assert ((Send (side_a s) Reliable w).1 = side_a s) as ->; [|by rewrite Z.eqb_refl].
  unfold Send. destruct (closed_ _); [done|]. rewrite Hs. unfold fits in Hf. by rewrite (proj2 (Z.ltb_lt _ _)) by lia.
Qed.

Lemma send_advanced s q w r : reachable s -> keyed_up (side_a s) -> (q = Reliable -> 0 < ReliableCreditsRemaining (side_a s)) ->
  advanced s (after s (OpSend q w)) [EvSend q w r] [].
Proof.
  intros Hr Hk Hcredit. destruct (local_in s (OpSend q w) Hr Logic.I) as [Hin Hku].
  split; [by apply after_reachable|done| |done|constructor|done]. split.
  - by apply final_kept.
  - destruct q; [exists []; rewrite app_nil_r; split_and!; [done|done|by left]|].
    change (tried _) with [w]. rewrite filter_cons. destruct (decide (fits w)) as [Hf|Hf].
    + destruct (taken_or_final s w Hr Hk (Hcredit eq_refl) Hf) as [Ht|Hfinal]; [exists [w]; split_and!; [done|done|by left]|].
      destruct (final_kept s (OpSend Reliable w) Hr Logic.I Hfinal) as [Hs Hf']. exists []. rewrite app_nil_r.
      split_and!; [done|apply prefix_nil|by right].
    + exists []. rewrite app_nil_r. split_and!; [|done|by left]. by apply refused_too_large; [apply Hk|].
  - destruct q; cbn; (split; [set_solver|]); intros p Hp; [|by left]. apply elem_of_app in Hp. set_solver.
  - exists []. rewrite app_nil_r. split; [done|constructor].
Qed.

(** A datagram: sealed messages handed up, of what the other end was given. *)
Lemma numbered_in_order new : in_order new -> (omap numbered new).*2 = m_payload <$> new.
Proof.
  induction 1 as [|m new [_ Hq] _ IH]; [done|]. cbn. unfold numbered at 1. rewrite decide_True by done. cbn. by f_equal.
Qed.

Lemma datagram_advanced s from d now : reachable s -> keyed_up (side_a s) ->
  allowed (side_a s) (side_b s) (OpDatagram from d now) ->
  let s' := after s (OpDatagram from d now) in
  exists new, messages (side_a s') = messages (side_a s) ++ new /\ Forall (fun m => m_sealed m = true) new
    /\ keyed_up (side_a s') /\ advanced s s' [] (m_payload <$> new).
Proof.
  intros Hr [Hseal Hhold] Ha. cbv zeta. pose proof (reachable_inv _ Hr) as [Ia Ib _ _].
  pose proof (after_reachable s _ Hr Ha) as Hr'. pose proof (reachable_inv _ Hr') as [[_ _ Hrx' _] _ _ _]. destruct Ha as [Hd Hauth].
  destruct (HandleDatagram_hands (side_a s) from d now Hseal Hhold) as (Hprot & Hhold' & new & Hnew & Hcase).
  assert (Hk' : keyed_up (side_a (after s (OpDatagram from d now)))).
  { split; [|done]. cbn. unfold Sealing in *. by rewrite Hprot. }
  exists new. split; [done|].
  assert (Hpart : forall rel, (omap numbered new).*2 = rel -> heard (best_b s) rel (m_payload <$> new) -> Forall bytes_ok (m_payload <$> new) ->
    advanced s (after s (OpDatagram from d now)) [] (m_payload <$> new)).
  { intros rel Hrel Hh Hb. split; [done|done|by apply unsent_carried| |done|done].
    apply (heard_carried s _ rel); [|done]. cbn. by rewrite !delivered_messages, Hnew, omap_app, fmap_app, Hrel. }
  destruct Hcase as [Hin|(m & -> & Hsealed & Hq & b & pkt & HE & Ht & Hp)].
  - split_and!; [eapply Forall_impl; [exact Hin|]; by intros m []|done|].
    rewrite <- (numbered_in_order new Hin) in Hpart |- *. apply (Hpart _ eq_refl); [apply heard_same|].
    assert (Hgot : Forall (fun '(i, p) => received (sent_b s) i p) (omap numbered new)).
    { pose proof (rxi_delivered _ _ Hrx') as Hall. cbn in Hall. rewrite delivered_messages, Hnew, omap_app in Hall. by apply Forall_app in Hall as [_ ?]. }
    apply Forall_fmap. eapply Forall_impl; [exact Hgot|]. by intros [i p] [_ Hp].
  - split_and!; [by constructor|done|]. apply (Hpart []); cbn; unfold numbered.
    + rewrite decide_False by (by rewrite Hq). done.
    + rewrite Hp. constructor; [|constructor].
      pose proof (received_packet _ (side_a s) (side_b s) _ _ d now b pkt (si_id _ _ _ _ Ia) Ib (Hauth ltac:(by rewrite HE)) HE) as Hsaid.
      destruct Hsaid as [[Hrel _]|[(_ & Hdata & _)|(_ & _ & _ & Hbe)]]; [by rewrite Ht in Hrel|by rewrite Ht in Hdata|done].
    + rewrite Hp. constructor; [|done]. by apply (Extract_bytes _ _ _ _ _ Hd HE).
Qed.

(** ** The steps of a link *)

(** The left end: the link's connection is the system's. *)
Lemma mux_advanced {A} s (l : Link) m (f : Mux -> Mux * A) :
  reachable s -> joined l (side_a s) m -> (forall m, via_transport m (f m).1) ->
  exists s' log, joined (with_mux l m f).1 (side_a s') (f (m <| transport := wire_ l |> <| clock_now := NowMs l |>)).1
    /\ mux_log (f (m <| transport := wire_ l |> <| clock_now := NowMs l |>)).1 = mux_log m ++ log
    /\ advanced s s' log [].
Proof.
  intros Hr [Jp Jm Jw Jk] Hf. unfold with_mux. set (m0 := m <| transport := _ |> <| clock_now := _ |>). specialize (Hf m0).
  destruct (f m0) as [m1 a]. cbn [fst] in *.
  destruct (via_ind (fun t l1 => exists s' log, l1 = mux_log m ++ log /\ advanced s s' log [] /\ on_adp t (side_a s')) m0 m1)
    as [(s' & log & Hlog & Hadv & Hon) _]; [| |done| |].
  - intros t l1 q w t' r (s' & log & -> & Hadv & [Oc Ok Ol]) Hcredit Hsend. pose proof (ad_keyed _ _ _ _ Hadv Jk) as Hk'.
    exists (after s' (OpSend q w)), (log ++ [EvSend q w (ok r)]). split; [by rewrite app_assoc|]. split.
    + apply (advanced_trans s s' _ _ _ [] []); [done|]. apply send_advanced; [by apply Hadv|done|].
      intros Hq. specialize (Hcredit Hq). unfold has_credit in Hcredit. cbn in Hcredit. unfold LinkCredits, CarrierLaneActive, IsCarrierBacked in Hcredit.
      rewrite Ol, Ok, Oc in Hcredit. rewrite bool_decide_false in Hcredit by (by intros [? ?]). cbn in Hcredit. lia.
    + cbn in Hsend. unfold LinkTransport, IsCarrierBacked, SendAdp, SendAdpLink in Hsend. rewrite Ok, Oc in Hsend.
      rewrite bool_decide_false in Hsend by (by intros [? ?]). cbn in Hsend.
      destruct (Connection.Send (side_a s') q w) as [c' res] eqn:Hs. injection Hsend as <- _. split; cbn; [by rewrite Hs|done|done].
  - intros t l1 e (s' & log & -> & Hadv & Hon) He. exists s', (log ++ [e]). split; [by rewrite app_assoc|]. split; [|done].
    destruct Hadv as [J1 J2 J3 J4 J5 J6]. split; try done. by apply carried_other.
  - exists s, []. rewrite app_nil_r. split; [done|]. split; [by apply advanced_refl|done].
  - exists s', log. split; [|done]. split; [done|done|done|by apply Hadv].
Qed.

(** What the trace of a link's operation is made of. *)
Definition trace_op (o : mux_op Wire) : Prop := mux_op_ok o /\ forall B, mux_op_budget B o.
Lemma calls_trace (l : Link) o : trace_op o -> Forall trace_op (calls l o).
Proof. intros Ho. by constructor; [split|constructor; [split|constructor]]. Qed.

Lemma call_advanced s (l : Link) m o : reachable s -> joined l (side_a s) m -> mux_op_ok o ->
  match o with OpTransport _ | OpFrameBudget _ => False | _ => True end ->
  exists s' log, joined (call_mux l o) (side_a s') (run_mux m (calls l o)) /\ Forall trace_op (calls l o)
    /\ mux_log (run_mux m (calls l o)) = mux_log m ++ log /\ advanced s s' log [].
Proof.
  intros Hr Hj Hok Ho. unfold call_mux. rewrite (jn_mux _ _ _ Hj).
  destruct (mux_advanced s l m (fun m => run_mux_op m o) Hr Hj ltac:(intros; by apply run_mux_op_via)) as (s' & log & Hj' & Hlog & Hadv).
  exists s', log. split_and!; [exact Hj'| |exact Hlog|exact Hadv].
  apply calls_trace. split; [done|]. by destruct o.
Qed.

Lemma run_mux_app (m : Mux) ops ops' : run_mux m (ops ++ ops') = run_mux (run_mux m ops) ops'.
Proof. apply fold_left_app. Qed.
Lemma inbound_app (ops ops' : list (mux_op Wire)) : inbound (ops ++ ops') = inbound ops ++ inbound ops'.
Proof. apply omap_app. Qed.

(** Sealed messages go to the multiplexer, in their order. *)
Lemma take_advanced r new : forall s (l : Link) m tr, reachable s -> joined l (side_a s) m ->
  Forall (fun m => m_sealed m = true) new -> Forall bytes_ok (m_payload <$> new) ->
  exists s' log l' tr', fold_left (take_message r) new (l, tr) = (l', tr ++ tr')
    /\ joined l' (side_a s') (run_mux m tr') /\ Forall trace_op tr' /\ inbound tr' = m_payload <$> new
    /\ mux_log (run_mux m tr') = mux_log m ++ log /\ advanced s s' log [].
Proof.
  induction new as [|msg new IH]; intros s l m tr Hr Hj Hs Hb.
  { exists s, [], l, []. rewrite !app_nil_r. split_and!; [done..|by constructor|done|done|by apply advanced_refl]. }
  apply Forall_cons in Hs as [Hseal Hs]. cbn in Hb. apply Forall_cons in Hb as [Hp Hb].
  destruct (call_advanced s l m (OpInbound (m_payload msg)) Hr Hj Hp Logic.I) as (s1 & log1 & Hj1 & Ht1 & Hl1 & Ha1).
  set (w := m_payload msg) in *.
  assert (Hone : take_message r (l, tr) msg = (call_mux l (OpInbound w), tr ++ calls l (OpInbound w))).
  { unfold take_message, OnConnectionMessage, DeliverFrame, call_mux. cbn [fst snd]. rewrite Hseal, (jn_phase _ _ _ Hj), (jn_mux _ _ _ Hj). done. }
  cbn [fold_left]. rewrite Hone.
  destruct (IH s1 _ _ (tr ++ calls l (OpInbound w)) (ad_reach _ _ _ _ Ha1) Hj1 Hs Hb) as (s2 & log2 & l' & tr' & Hf & Hj2 & Ht2 & Hi2 & Hl2 & Ha2).
  exists s2, (log1 ++ log2), l', (calls l (OpInbound w) ++ tr'). rewrite run_mux_app, inbound_app, Hi2. split_and!.
  - by rewrite Hf, <- app_assoc.
  - exact Hj2.
  - by apply Forall_app.
  - done.
  - by rewrite Hl2, Hl1, app_assoc.
  - apply (advanced_trans s s1 s2 log1 log2 [] []); done.
Qed.

Lemma client_inbound (l : Link) o : client_op o -> inbound (calls l o) = [].
Proof. by destruct o. Qed.

(** Any operation of the left link. *)
Lemma act_advanced s (l peer : Link) m o : reachable s -> joined l (side_a s) m -> connection_ (wire_ peer) = Some (side_b s) ->
  link_op_ok l peer o ->
  exists s' log, joined (act l o).1 (side_a s') (run_mux m (act l o).2) /\ Forall trace_op (act l o).2
    /\ mux_log (run_mux m (act l o).2) = mux_log m ++ log /\ advanced s s' log (inbound (act l o).2).
Proof.
  intros Hr Hj Hpeer Hok. pose proof Hj as [Jp Jm [Oc Ok Ol] Jk].
  assert (Hquiet : forall s' (w : Wire), on_adp w (side_a s') -> advanced s s' [] [] ->
    exists s' log, joined (l <| wire_ := w |>) (side_a s') m /\ Forall trace_op [] /\ mux_log m = mux_log m ++ log /\ advanced s s' log []).
  { intros s' w Hw Ha. exists s', []. rewrite app_nil_r. split_and!; [|done..]. split; [done|done|done|by apply Ha]. }
  destruct o as [o|o|from d now r|p|now]; cbn in Hok; unfold act; rewrite ?Oc.
  - destruct (call_advanced s l m o Hr Hj) as (s' & log & ? & ? & ? & ?); [by destruct o|by destruct o|].
    exists s', log. cbn [fst snd]. by rewrite client_inbound.
  - apply (Hquiet (after s o) (wire_ l <| connection_ := Some (run_op (side_a s) o) |>)); [done|].
    apply quiet_advanced; [done| |done]. destruct Hok as [Ho|[now ->]]; [by destruct o|done].
  - destruct Hok as (me & other & Hme & Hother & Ha). rewrite Oc in Hme. injection Hme as <-. rewrite Hpeer in Hother. injection Hother as <-.
    destruct (datagram_advanced s from d now Hr Jk Ha) as (new & Hnew & Hseal & Hk1 & Ha1). set (s1 := after s _) in *. cbv zeta.
    change (HandleDatagram (side_a s) from d now) with (side_a s1). rewrite Hnew, drop_app_length.
    destruct (take_advanced r new s1 (put_connection (side_a s1) l) m [] (ad_reach _ _ _ _ Ha1)) as (s2 & log & l' & tr & -> & Hj2 & Ht2 & Hi2 & Hl2 & Ha2);
      [by split|done|apply (ad_bytes _ _ _ _ Ha1)|].
    exists s2, log. cbn [fst snd app]. rewrite Hi2. split_and!; [done..|]. rewrite <- (app_nil_r (m_payload <$> new)). by apply (advanced_trans s s1 s2 [] log).
  - apply (Hquiet (after s (OpSetProtection (Some p))) (share_session p (wire_ l))); [|by apply rekey_advanced].
    unfold share_session. split; cbn; [by rewrite Oc|done|done].
  - apply (Hquiet s (wire_ l <| lw_now := now |>)); [done|by apply advanced_refl].
Qed.

(** *** Both ends, over a run *)

Lemma play_carried : forall ops s (a b : Link) ma mb a' b' ta tb,
  reachable s -> joined a (side_a s) ma -> joined b (side_b s) mb -> pair_run a b ops -> play a b ops = (a', b', (ta, tb)) ->
  exists s' log, reachable s' /\ joined a' (side_a s') (run_mux ma ta) /\ joined b' (side_b s') (run_mux mb tb)
    /\ Forall trace_op ta /\ Forall trace_op tb
    /\ mux_log (run_mux ma ta) = mux_log ma ++ log /\ carried s s' log (inbound tb).
Proof.
  induction ops as [|[[] o] ops IH]; intros s a b ma mb a' b' ta tb Hr Ha Hb Hrun Hplay; cbn in Hplay, Hrun.
  - injection Hplay as <- <- <- <-. exists s, []. rewrite app_nil_r. split_and!; [done|done|done|constructor|constructor|done|apply carried_refl].
  - destruct Hrun as [Hok Hrun].
    destruct (act_advanced s a b ma o Hr Ha (oa_connection _ _ (jn_wire _ _ _ Hb)) Hok) as (s1 & log1 & Ha1 & Ht1 & Hl1 & Hadv).
    destruct (act a o) as [a1 t1]. cbn [fst snd] in *. destruct (play a1 b ops) as [[a2 b2] [ta2 tb2]] eqn:Hp.
    injection Hplay as <- <- <- <-. destruct Hadv as [Hr1 Hpeer Hout _ _ _]. rewrite <- Hpeer in Hb.
    destruct (IH s1 a1 b _ mb _ _ _ _ Hr1 Ha1 Hb Hrun Hp) as (s2 & log2 & Hr2 & Ha2 & Hb2 & Hta & Htb & Hl2 & Hc2).
    exists s2, (log1 ++ log2). rewrite run_mux_app. split_and!; [done|done|done|by apply Forall_app|done|by rewrite Hl2, Hl1, app_assoc|].
    by apply (carried_trans s s1 s2 log1 log2 []).
  - destruct Hrun as [Hok Hrun].
    destruct (act_advanced (swap s) b a mb o (reachable_swap s Hr) Hb (oa_connection _ _ (jn_wire _ _ _ Ha)) Hok) as (s1 & log1 & Hb1 & Ht1 & Hl1 & Hadv).
    destruct (act b o) as [b1 t1]. cbn [fst snd] in *. destruct (play a b1 ops) as [[a2 b2] [ta2 tb2]] eqn:Hp.
    injection Hplay as <- <- <- <-. destruct Hadv as [Hr1 Hpeer _ Hin _ _]. rewrite swap_swap in Hin. cbn in Hpeer. rewrite <- Hpeer in Ha.
    destruct (IH (swap s1) a b1 ma _ _ _ _ _ (reachable_swap s1 Hr1) Ha Hb1 Hrun Hp) as (s2 & log2 & Hr2 & Ha2 & Hb2 & Hta & Htb & Hl2 & Hc2).
    exists s2, log2. rewrite run_mux_app, inbound_app. split_and!; [done|done|done|done|by apply Forall_app|done|].
    by apply (carried_trans s (swap s1) s2 [] log2).
Qed.

(** *** The frames of a channel *)

Lemma own_channel c w : own c w = true -> wire_channel w = c.
Proof.
  unfold own. destruct (DecodeFrame w) as [f|] eqn:Hd; [|done]. intros Hc%Z.eqb_eq. rewrite <- Hc. clear Hc.
  unfold DecodeFrame in Hd. destruct (Z.ltb_spec (size w) (Z.of_nat kChannelHeaderBytes)) as [|Hl]; [done|].
  unfold size, kChannelHeaderBytes in Hl. destruct w as [|x0 [|x1 [|x2 [|x3 [|x4 w]]]]]; try (cbn in Hl; lia). clear Hl.
  assert (Hch : channel_id (fr_header f) = Z.lor (Z.lor (Z.lor x1 (Z.shiftl x2 8)) (Z.shiftl x3 16)) (Z.shiftl x4 24)).
  { cbv zeta in Hd. destruct (frame_type _) in Hd.
    - destruct (DecodeOpen _); [|done]. by apply Ok_inj in Hd as <-.
    - destruct (drop _ _); [done|]. destruct (ChannelWire.ExpectEmpty _); [|done]. by apply Ok_inj in Hd as <-.
    - by apply Ok_inj in Hd as <-.
    - destruct (DecodeClose _); [|done]. by apply Ok_inj in Hd as <-.
    - destruct (ReadU32 _) as [[code rest]|]; [|done]. cbn [mbind result_bind] in Hd. destruct (ChannelWire.ExpectEmpty _); [|done]. by apply Ok_inj in Hd as <-.
    - destruct (DecodeFrag _); [|done]. by apply Ok_inj in Hd as <-.
    - done. }
  by rewrite Hch, or_u32_le.
Qed.

(** Handed over for the channel: among what was tried, and nothing else of it. *)
Lemma its_tried c log : forall wires, omap (handed_of c) log = reliably wires ->
  Forall (fun w => own c w = true /\ size w <= kMaxSealedPayload) wires ->
  its c (filter fits (tried log)) = wires /\ its c (offered log) = [].
Proof.
  assert (Hno : forall w, wire_channel w <> c -> own c w <> true) by (intros w Hw Ho; by apply Hw, own_channel).
  induction log as [|e log IH]; intros wires Hh Hw; [by destruct wires|].
  destruct e as [q w sent| | |]; try by apply IH. cbn in Hh. destruct (Z.eqb_spec (wire_channel w) c) as [Hc|Hc].
  - destruct wires as [|w' wires]; [done|]. injection Hh as -> <- Hh. apply Forall_cons in Hw as [[Hown Hfit] Hw].
    destruct (IH wires Hh Hw) as [E1 E2]. split; [|exact E2].
    change (tried _) with (w :: tried log). rewrite filter_cons_True by done. unfold its. rewrite filter_cons_True by done. by f_equal.
  - destruct (IH wires Hh Hw) as [E1 E2]. destruct q.
    + split; [exact E1|]. change (offered _) with (w :: offered log). unfold its. rewrite filter_cons_False by auto. exact E2.
    + split; [|exact E2]. change (tried _) with (w :: tried log). rewrite filter_cons.
      destruct (decide (fits w)); [|done]. unfold its. rewrite filter_cons_False by auto. exact E1.
Qed.

Lemma its_nil c l : its c l = [] <-> forall w, w ∈ l -> own c w <> true.
Proof.
  unfold its. split.
  - intros Hn w Hw Ho. assert (w ∈ filter (fun w => own c w = true) l) as Hin by by apply list_elem_of_filter.
    rewrite Hn in Hin. by apply not_elem_of_nil in Hin.
  - intros Hno. apply elem_of_nil_inv. intros w [Ho Hw]%list_elem_of_filter. by apply (Hno w).
Qed.
Lemma its_app c l k : its c (l ++ k) = its c l ++ its c k.
Proof. apply filter_app. Qed.
Lemma its_prefix c l k : l `prefix_of` k -> its c l `prefix_of` its c k.
Proof. intros [r ->]. rewrite its_app. by apply prefix_app_r. Qed.
Lemma its_heard c be rel ins : its c be = [] -> heard be rel ins -> its c ins = its c rel.
Proof.
  intros Hb Hh. pose proof (proj1 (its_nil c be) Hb) as Hno. induction Hh as [|p rel ins _ IH|p rel ins Hp _ IH]; [done| |].
  - change (p :: ins) with ([p] ++ ins). change (p :: rel) with ([p] ++ rel). by rewrite !its_app, IH.
  - unfold its. rewrite filter_cons_False by auto. exact IH.
Qed.

(** *** A channel between the two *)

(** The channel as its sender has it: nothing of it queued, and the frame budget
    one that a sealed packet holds. *)
Record sender (c : Z) (m : Mux) (ch : ChannelRecord) : Prop := {
  sd_inv : mux_inv m;
  sd_id : is_u32 c;
  sd_channel : channels_ m !! c = Some ch;
  sd_number : is_u32 (tx_seq ch);
  sd_pending : pending_open_data_ m !! c = None;
  sd_queue : queued c m = [];
  sd_budget : max_frame_bytes_ m <= kMaxSealedPayload;
}.

(** Nothing of the channel is under way. *)
Definition clear_of (c : Z) (s : Sys (P := Session) (Io := Io)) : Prop :=
  its c (drop (length (delivered_log (side_b s))) (sent_a s)) = [] /\ its c (best_a s) = [].

(** The frames of the channel that come in are the first of those handed over,
    and all of them once the association has delivered all it took. *)
Lemma channel_carried c s s' log ins wires :
  reachable s -> reachable s' -> carried s s' log ins -> clear_of c s ->
  omap (handed_of c) log = reliably wires -> Forall (fun w => own c w = true /\ size w <= kMaxSealedPayload) wires ->
  its c ins `prefix_of` wires
  /\ (~ final (side_a s') -> st_reliable_lost (Connection.stats_ (side_a s')) = 0 -> Connection.outstanding_ (side_a s') = [] ->
      its c ins = wires).
Proof.
  intros Hr Hr' [_ (tk & Hsent & Hpre & Hall) [_ Hbest] (rel & Hdel & Hh)] [Hclear Hbe] Hlog Hw.
  destruct (its_tried c log wires Hlog Hw) as [Htried Hoff].
  pose proof (reachable_inv _ Hr) as [_ Ib _ _]. pose proof (reachable_inv _ Hr') as [_ Ib' _ _].
  destruct (side_delivered _ _ _ _ Ib) as [D _]. destruct (side_delivered _ _ _ _ Ib') as [D' _].
  set (n := length (delivered_log (side_b s))) in *.
  assert (Hn : (n <= length (sent_a s))%nat).
  { pose proof (f_equal length D) as Hl. rewrite length_fmap, length_take in Hl. fold n in Hl. lia. }
  assert (Hrel : rel `prefix_of` drop n (sent_a s) ++ tk).
  { assert (Hp : (delivered_log (side_b s')).*2 `prefix_of` sent_a s') by (rewrite D'; apply prefix_take).
    rewrite Hdel, Hsent, D, <- (take_drop n (sent_a s)), take_app_le, take_ge, <- app_assoc in Hp by (rewrite length_take; lia).
    by apply prefix_app_inv in Hp. }
  assert (Hno : its c (best_a s') = []).
  { apply its_nil. intros w Hin. rewrite its_nil in Hbe, Hoff. destruct (Hbest w Hin); auto. }
  rewrite (its_heard c _ rel ins Hno Hh). split.
  - apply (its_prefix c) in Hrel. rewrite its_app, Hclear in Hrel. etrans; [exact Hrel|]. cbn. rewrite <- Htried. by apply its_prefix.
  - intros Hf Hlost Hout. destruct (drained_delivered s' Hr' Hlost Hout) as [Hd _]. destruct Hall as [->|]; [|done].
    rewrite Hd, Hsent, D in Hdel. rewrite <- (take_drop n (sent_a s)) in Hdel at 1. rewrite <- app_assoc in Hdel. apply app_inv_head in Hdel.
    by rewrite <- Hdel, its_app, Hclear, Htried.
Qed.

(** C7: a channel of two links over an association.  Both links up, the
    association in any state it can have come to, and from there on any calls of
    either end's multiplexer, ticks, datagrams — lost, repeated, out of order,
    forged —, keepalives, changes of path and keys of the run: the links stay up,
    and what is delivered on a reliable channel is a prefix of what was given to
    it, in order and whole; all of it once the sender's queue and its connection's
    are empty, unless that gave packets up, closed or ran out of numbers. *)
Theorem link_delivers_in_order (s : Sys) (a b a' b' : Link) (ma mb : Mux) (ops : list (bool * link_op))
    (ta tb : list (mux_op Wire)) (c rmax : Z) (h : nat) (ch : ChannelRecord) :
  reachable s -> joined a (side_a s) ma -> joined b (side_b s) mb ->
  pair_run a b ops -> play a b ops = (a', b', (ta, tb)) ->
  clear_of c s -> sender c ma ch -> channel_run c ma ta -> Forall (fun payload => size payload <= rmax) (given c ta) ->
  reading c rmax h (tx_seq ch) None mb -> reader_run c mb tb ->
  exists s' ma' mb' got, reachable s' /\ joined a' (side_a s') ma' /\ joined b' (side_b s') mb'
    /\ delivered c mb' = delivered c mb ++ got /\ got `prefix_of` given c ta
    /\ (~ final (side_a s') -> st_reliable_lost (Connection.stats_ (side_a s')) = 0 ->
        Connection.outstanding_ (side_a s') = [] -> queued c ma' = [] -> got = given c ta).
Proof.
  intros Hr Ha Hb Hrun Hplay Hclear [J1 J2 J3 J4 J5 J6 J7] Hchan Hsz Hread Hrrun.
  destruct (play_carried ops s a b ma mb a' b' ta tb Hr Ha Hb Hrun Hplay) as (s' & log & Hr' & Ha' & Hb' & Hta & Htb & Hlog & Hcar).
  assert (Hoks : forall t, Forall trace_op t -> Forall mux_op_ok t) by (intros t Ht; eapply Forall_impl; [exact Ht|]; by intros o []).
  assert (Hbs : Forall (mux_op_budget kMaxSealedPayload) ta) by (eapply Forall_impl; [exact Hta|]; by intros o [_ Ho]).
  destruct (run_handed c kMaxSealedPayload ma ch ta J1 J2 J5 J3 J4 J6 (Hoks _ Hta) Hchan) as (msgs & wires & Hgiven & Hok & Hh & Hfr & Hfit).
  specialize (Hfit J7 Hbs). unfold handed in Hh. rewrite Hlog, omap_app in Hh. apply app_inv_head in Hh.
  destruct (channel_carried c s s' log (inbound tb) wires Hr Hr' Hcar Hclear Hh Hfit) as [Hpre Hall].
  assert (Hsz' : Forall (fun x : framed => size x.2 <= rmax) msgs) by (apply (Forall_fmap snd (fun p => size p <= rmax)); by rewrite Hgiven).
  destruct (read_frames c rmax h tb (tx_seq ch) msgs 0 mb J2 Hok Hsz' (Hoks _ Htb)) as (read & rest & -> & Hdel & Hrest);
    [by apply at_frame_start|done|rewrite drop_0, Hfr; etrans; [exact Hpre|by apply prefix_app_r]|].
  exists s', (run_mux ma ta), (run_mux mb tb), read.*2. split_and!; [done..|rewrite <- Hgiven, fmap_app; by apply prefix_app_r|].
  intros Hf Hlost Hout Hq. rewrite <- Hgiven, Hrest, app_nil_r; [done|]. by rewrite drop_0, Hfr, Hall, Hq, app_nil_r.
Qed.

(** What a link does on a message of the session control is of these operations:
    its answer is a call of the multiplexer, and then the new keys. *)
Lemma control_acts (l : Link) m session payload :
  phase_ l = Connected -> mux_ l = Some m -> session_ (wire_ l) = Some session ->
  exists ops, Forall (fun o => (exists p, o = LnMux (OpSendData kCapabilityChannelId p))
                               \/ exists epoch, o = LnRekey (ApplyRekey session epoch (NowMs l)).1) ops
    /\ let l' := fold_left (fun l o => (act l o).1) ops l in
       let r := HandleSessionControl l payload in (phase_ r, wire_ r, mux_ r) = (phase_ l', wire_ l', mux_ l').
Proof.
  intros Hp Hm Hs. unfold HandleSessionControl. rewrite Hp, Hm, Hs. destruct (DecodeRekey payload) as [d|]; [|by exists []].
  cbv zeta. destruct (negb _); [by exists []|]. destruct (SessionControl.kind d).
  - destruct (EncodeRekey _) as [encoded|].
    + exists [LnMux (OpSendData kCapabilityChannelId encoded); LnRekey (ApplyRekey session (target_epoch d) (NowMs l)).1].
      split; [constructor; [left; eauto|constructor; [right; eauto|constructor]]|]. cbn [fold_left act fst]. unfold call_mux. by rewrite Hm.
    + exists [LnRekey (ApplyRekey session (target_epoch d) (NowMs l)).1].
      split; [constructor; [right; eauto|constructor]|done].
  - destruct (ApplyRekey session (target_epoch d) (NowMs l)) as [s' applied] eqn:Ha.
    exists [LnRekey s']. split; [constructor; [right; exists (target_epoch d); by rewrite Ha|constructor]|].
    cbn. unfold finish_rekey. by destruct (rekey_cb_ _).
Qed.
End Adp.

(** ** Witness *)

Section Witness.
#[local] Existing Instance toy_sodium.
#[local] Existing Instance toy_sodium_laws.
#[local] Existing Instance toy_aead.
#[local] Existing Instance toy_aead_laws.
#[local] Existing Instance toy_kdf.
#[local] Existing Instance toy_kem.
#[local] Existing Instance toy_dsa.
#[local] Existing Instance toy_io.
#[local] Existing Instance toy_hash.
#[local] Instance toy_run_sound : Sound Session := Session_sound (fun _ => True).

Abbreviation ToyConn := (Connection Session ToyIo).
Abbreviation ToyAdp := (PeerLink ToyConn (list bytes)).

(** A link established over a connection to the other end's port, with a channel. *)
Definition new_conn (i : bool) : ToyConn := Connection_new toy_host (toy_params (if i then 20 else 10)).
Definition adp_mux (i : bool) : ChannelMux (LinkWire ToyConn (list bytes)) :=
  default (ChannelMux_new i (wire_ (PeerLink_adp "dial" "" i (new_conn i) (toy_identity 3))))
    (mux_ (FinishEstablishment toy_ports (PeerLink_adp "dial" "" i (new_conn i) (toy_identity 3)) (toy_established i [1; 255])))
  <| channels_ := {[1 := channel_example]} |>.
Definition adp_up (i : bool) : ToyAdp :=
  FinishEstablishment toy_ports (PeerLink_adp "dial" "" i (new_conn i) (toy_identity 3)) (toy_established i [1; 255])
    <| mux_ := Some (adp_mux i) |>.

(** The two connections as that leaves them. *)
Definition adp_keys (i : bool) : list (bool * script_op (P := Session) (Io := ToyIo)) :=
  [(i, Local (OpUpgradeBinder (AssocKey (toy_session i)))); (i, Local (OpSetProtection (Some (toy_session i))))].
Definition adp_start : Sys (P := Session) (Io := ToyIo) :=
  MkSys (new_conn true <| on_message_ := true |>) (new_conn false <| on_message_ := true |>) [] [] [] [].
Definition adp_sys : Sys := default adp_start (run_script adp_start (adp_keys true ++ adp_keys false)).

Lemma adp_reachable : reachable adp_sys.
Proof.
  assert (Hs : forall p : Session, sound p) by (intros p; split_and!; done).
  apply (run_script_reachable (adp_keys true ++ adp_keys false) adp_start adp_sys Hs); [|vm_compute; reflexivity].
  apply reach_init; [exists toy_host, (toy_params 20)|exists toy_host, (toy_params 10)]; (split; [done|]); split; [by split|done|by split|done].
Qed.

(** Two messages, the second arriving first; the acknowledgements; a tick. *)
Definition no_random : Draw := MkDraw [] [] [].
Definition sent_by (l : ToyAdp) (i : nat) : bytes :=
  match connection_ (wire_ l) with Some c => default [] (sent_log c !! i) | None => [] end.
Definition acts (l : ToyAdp) (ops : list link_op) : ToyAdp := fold_left (fun l o => (act toy_ports l o).1) ops l.
Definition give_two : list (link_op (Io := ToyIo) (C := list bytes)) :=
  [LnMux (OpSendData 1 [5; 6]); LnMux (OpSendData 1 long_example)].
Definition take_two : list (link_op (Io := ToyIo) (C := list bytes)) :=
  let a := acts (adp_up true) give_two in
  [LnDatagram (IpEndpoint_V4 127 0 0 1 10) (sent_by a 1) 1000 no_random; LnDatagram (IpEndpoint_V4 127 0 0 1 10) (sent_by a 0) 1001 no_random].
Definition take_acks : list (link_op (Io := ToyIo) (C := list bytes)) :=
  let b := acts (adp_up false) take_two in
  [LnDatagram (IpEndpoint_V4 127 0 0 1 20) (sent_by b 0) 1002 no_random; LnDatagram (IpEndpoint_V4 127 0 0 1 20) (sent_by b 1) 1003 no_random;
   LnConn (ReliableChannel.OpTick 1004)].
Definition adp_ops : list (bool * link_op (Io := ToyIo) (C := list bytes)) :=
  map (pair true) give_two ++ map (pair false) take_two ++ map (pair true) take_acks.
Definition adp_played := play toy_ports (adp_up true) (adp_up false) adp_ops.

Lemma adp_mux_started i : exists w, adp_mux i = started i w <| channels_ := {[1 := channel_example]} |>.
Proof. destruct i; eexists; vm_compute; reflexivity. Qed.
Lemma adp_mux_inv i : mux_inv (adp_mux i).
Proof.
  destruct (adp_mux_started i) as [w ->]. split; simpl; try done; try lia; [|by destruct i].
  intros id ch [<- <-]%lookup_singleton_Some. by split.
Qed.

Lemma adp_joined i : joined (adp_up i) (if i then side_a adp_sys else side_b adp_sys) (adp_mux i).
Proof.
  split; [by destruct i; vm_compute|done|by destruct i; split; vm_compute|].
  split; [by destruct i; vm_compute|]. assert (rx_rel_hold_ (if i then side_a adp_sys else side_b adp_sys) = ∅) as E by (by destruct i; vm_compute).
  unfold sealed_hold. rewrite E. apply map_Forall_empty.
Qed.

Definition deliverb (l peer : ToyAdp) (d : bytes) : bool :=
  match connection_ (wire_ l), connection_ (wire_ peer) with
  | Some _, Some other => bytes_okb d && bool_decide (d ∈ sent_log other)
  | _, _ => false
  end.
Lemma deliverb_ok (l peer : ToyAdp) from d now r : deliverb l peer d = true -> link_op_ok (in_use := fun _ => True) l peer (LnDatagram from d now r).
Proof.
  unfold deliverb, link_op_ok. destruct (connection_ (wire_ l)) as [me|], (connection_ (wire_ peer)) as [other|]; try done.
  intros [Hb Hd]%andb_true_iff. exists me, other. split_and!; [done|done|]. split; [by apply bytes_okb_ok|]. intros _. by apply bool_decide_eq_true in Hd.
Qed.

Lemma adp_pair_run : pair_run (in_use := fun _ => True) toy_ports (adp_up true) (adp_up false) adp_ops.
Proof.
  unfold adp_ops, give_two, take_two, take_acks. cbn [map app pair_run].
  repeat (split; [first [done | by right; eexists | apply deliverb_ok; vm_compute; reflexivity]|]). done.
Qed.

Lemma adp_sender_run : channel_run 1 (adp_mux true) adp_played.2.1.
Proof. apply channel_runb_ok. vm_compute. reflexivity. Qed.
Lemma adp_reader_run : reader_run 1 (adp_mux false) adp_played.2.2.
Proof. vm_compute. repeat split. Qed.
Lemma adp_reading : reading 1 kMaxBulkFrameBytes 7 1 None (adp_mux false).
Proof.
  split; [apply adp_mux_inv|]. destruct (adp_mux_started false) as [w ->]. split; [done|]. exists channel_example. split; [done|].
  split_and!; try done; by exists 0 || apply new_inv.
Qed.
Lemma adp_sender : sender 1 (adp_mux true) channel_example.
Proof. split; [apply adp_mux_inv|done..|by vm_compute]. Qed.

(** How the run ends. *)
Lemma adp_given : given 1 adp_played.2.1 = [[5; 6]; long_example].
Proof. by vm_compute. Qed.
Lemma adp_drained : exists c m, connection_ (wire_ adp_played.1.1) = Some c /\ mux_ adp_played.1.1 = Some m
  /\ closed_ c = false /\ tx_seq_rel_ c = 2 /\ st_reliable_lost (Connection.stats_ c) = 0 /\ Connection.outstanding_ c = [] /\ queued 1 m = [].
Proof. do 2 eexists. split; [vm_compute; reflexivity|]. split; [vm_compute; reflexivity|]. split_and!; vm_compute; reflexivity. Qed.

Lemma adp_run_is : play toy_ports (adp_up true) (adp_up false) adp_ops = (adp_played.1.1, adp_played.1.2, (adp_played.2.1, adp_played.2.2)).
Proof. unfold adp_played. by destruct (play toy_ports _ _ _) as [[? ?] [? ?]]. Qed.
Lemma adp_clear : clear_of 1 adp_sys.
Proof. split; by vm_compute. Qed.
Lemma adp_unread : delivered 1 (adp_mux false) = [].
Proof. by destruct (adp_mux_started false) as [w ->]. Qed.

Theorem link_delivers_in_order_witness :
  exists m, mux_ adp_played.1.2 = Some m /\ delivered 1 m = [[5; 6]; long_example].
Proof.
  destruct (link_delivers_in_order (in_use := fun _ => True) toy_ports adp_sys (adp_up true) (adp_up false) _ _ _ _ adp_ops
    _ _ 1 kMaxBulkFrameBytes 7 channel_example adp_reachable (adp_joined true) (adp_joined false) adp_pair_run adp_run_is
    adp_clear adp_sender adp_sender_run) as (s' & ma & mb & got & _ & Ja & Jb & Hdel & _ & Hall); [|apply adp_reading|apply adp_reader_run|].
  - rewrite adp_given. repeat (constructor; [by vm_compute|]). constructor.
  - exists mb. split; [apply (jn_mux _ _ _ Jb)|].
    destruct adp_drained as (ca & m & Hc & Hm & Hopen & Hseq & Hlost & Hout & Hq).
    rewrite (oa_connection _ _ (jn_wire _ _ _ Ja)) in Hc. injection Hc as <-. rewrite (jn_mux _ _ _ Ja) in Hm. injection Hm as <-.
    rewrite Hdel, adp_unread, Hall, adp_given; [done|by intros [Hf|Hf]; [rewrite Hopen in Hf|rewrite Hseq in Hf]|done|done|done].
Defined.
End Witness.
