(* ===== verification/LinkTable.v ===== *)
(** * The table of links (src/link/LinkTable.cpp, include/amp/link/LinkTable.h)

    The owner of the links, by their ids, with two indexes: the dial keys and the
    presence of peers.  A link is a state with the interface [TableLink], which
    [PeerLink] implements; what others do to a link through its pointer is
    [Update].  The order in which a hash table is walked is not specified: it is a
    parameter, any order of the entries. *)

From S2P Require Import Prelude L1Types L2Types SessionKeys SessionCrypto Session ChannelWire ChannelMux LinkPolicy LinkWire PeerLink.

(** What the table asks of a link. *)
Class TableLink (L : Type) := {
  tl_handle : L -> LinkHandle;
  tl_key : L -> string;
  tl_peer : L -> string;
  tl_phase : L -> PeerLinkPhase;
  tl_transport : L -> TransportClass;
  tl_set_identity : L -> Z -> Z -> L;
  tl_rebind : L -> string -> L;
}.
Class TableLinkLaws (L : Type) `{TableLink L} := {
  tl_set_handle l id g : tl_handle (tl_set_identity l id g) = MkLinkHandle id g;
  tl_set_key l id g : tl_key (tl_set_identity l id g) = tl_key l;
  tl_rebind_key l key : tl_key (tl_rebind l key) = key;
  tl_rebind_handle l key : tl_handle (tl_rebind l key) = tl_handle l;
}.

#[export] Instance PeerLink_table {N C} : TableLink (PeerLink N C) := {|
  tl_handle := Handle;
  tl_key := fun l => peer_key_ l;
  tl_peer := fun l => remote_peer_id_ l;
  tl_phase := fun l => phase_ l;
  tl_transport := fun l => if link_carrier_backed l then Carrier else Adp;
  tl_set_identity := SetLinkIdentity;
  tl_rebind := RebindDialKey;
|}.
#[export] Instance PeerLink_table_laws {N C} : TableLinkLaws (PeerLink N C).
Proof. by split. Qed.

(** At most one link of either transport per peer. *)
Record PeerPresence := MkPeerPresence {
  pp_adp : option Z;
  pp_carrier : option Z;
}.
Definition PeerPresence_none : PeerPresence := MkPeerPresence None None.
#[export] Instance PeerPresence_fields : Fields PeerPresence := fun p => MkPeerPresence (pp_adp p) (pp_carrier p).

Record LinkTable (L : Type) := MkLinkTable {
  next_id_ : Z;
  next_generation_ : Z;
  by_id_ : gmap Z L;
  by_dial_key_ : gmap string Z;
  by_peer_ : gmap string PeerPresence;
}.
Arguments MkLinkTable {L}. Arguments next_id_ {L}. Arguments next_generation_ {L}. Arguments by_id_ {L}.
Arguments by_dial_key_ {L}. Arguments by_peer_ {L}.
#[export] Instance LinkTable_fields {L} : Fields (LinkTable L) := fun t =>
  MkLinkTable (next_id_ t) (next_generation_ t) (by_id_ t) (by_dial_key_ t) (by_peer_ t).
Definition LinkTable_new {L} : LinkTable L := MkLinkTable 0 0 ∅ ∅ ∅.

Section LinkTable.
Context {L : Type} `{TableLink L}.
Abbreviation Table := (LinkTable L).

Definition AllocId (t : Table) : Table * Z := (t <| next_id_ ::= fun n => u64 (n + 1) |>, u64 (next_id_ t + 1)).
Definition NextGeneration (t : Table) : Table * Z :=
  (t <| next_generation_ ::= fun n => u32 (n + 1) |>, u32 (next_generation_ t + 1)).

(** ** Finding *)

Definition FindById (t : Table) (id : Z) : option L := by_id_ t !! id.
Definition FindByDialKey (t : Table) (key : string) : option L := id ← by_dial_key_ t !! key; FindById t id.
Definition FindLive (t : Table) (handle : LinkHandle) : option L :=
  link ← FindById t (lh_id handle);
  if lh_generation (tl_handle link) =? lh_generation handle then Some link else None.
Definition Presence (t : Table) (peer_id : string) : PeerPresence := default PeerPresence_none (by_peer_ t !! peer_id).

Definition pick (t : Table) (id : option Z) : option L :=
  id ← id; link ← FindById t id; if decide (tl_phase link = Connected) then Some link else None.
Definition or_else {A} (x y : option A) : option A := match x with Some _ => x | None => y end.

(** [walk] is the table's entries in the order its iterators give them. *)
Definition FindByPeerId (walk : gmap Z L -> list L) (t : Table) (peer_id : string) (prefer : TransportClass) : option L :=
  if bool_decide (peer_id = "") then None
  else
    let presence := Presence t peer_id in
    let indexed :=
      match prefer with
      | Carrier => or_else (pick t (pp_carrier presence)) (pick t (pp_adp presence))
      | Adp => or_else (pick t (pp_adp presence)) (pick t (pp_carrier presence))
      end in
    or_else indexed
      (head (filter (fun link => tl_phase link = Connected /\ tl_peer link = peer_id) (walk (by_id_ t)))).

Definition ContainsDialKey (t : Table) (key : string) : bool := bool_decide (is_Some (by_dial_key_ t !! key)).
Definition table_size (t : Table) : Z := Z.of_nat (map_size (by_id_ t)).

(** ** Presence *)

Definition SetPresence (t : Table) (peer_id : string) (transport : TransportClass) (id : Z) : Table :=
  if bool_decide (peer_id = "") || negb (LinkId_valid id) then t
  else
    let p := Presence t peer_id in
    let p := match transport with Carrier => p <| pp_carrier := Some id |> | Adp => p <| pp_adp := Some id |> end in
    t <| by_peer_ ::= <[peer_id := p]> |>.

Definition ClearPresence (t : Table) (peer_id : string) (transport : TransportClass) (id : Z) : Table :=
  match by_peer_ t !! peer_id with
  | None => t
  | Some p =>
      let p := match transport with
               | Carrier => if bool_decide (pp_carrier p = Some id) then p <| pp_carrier := None |> else p
               | Adp => if bool_decide (pp_adp p = Some id) then p <| pp_adp := None |> else p
               end in
      if bool_decide (pp_adp p = None) && bool_decide (pp_carrier p = None) then t <| by_peer_ ::= delete peer_id |>
      else t <| by_peer_ ::= <[peer_id := p]> |>
  end.

(** ** Entering and leaving *)

Definition Insert (t : Table) (link : L) : Table * L :=
  let key := tl_key link in
  let '(t, link) :=
    if LinkId_valid (lh_id (tl_handle link)) then (t, link)
    else
      let '(t, id) := AllocId t in
      let '(t, generation) := NextGeneration t in
      (t, tl_set_identity link id generation) in
  let id := lh_id (tl_handle link) in
  (t <| by_id_ ::= <[id := link]> |> <| by_dial_key_ ::= <[key := id]> |>, link).

Definition EraseById (t : Table) (id : Z) : Table :=
  match by_id_ t !! id with
  | None => t
  | Some link =>
      let t := if bool_decide (by_dial_key_ t !! tl_key link = Some id)
               then t <| by_dial_key_ ::= delete (tl_key link) |> else t in
      let t := if bool_decide (tl_peer link = "") then t else ClearPresence t (tl_peer link) (tl_transport link) id in
      t <| by_id_ ::= delete id |>
  end.
Definition EraseByDialKey (t : Table) (key : string) : Table :=
  match by_dial_key_ t !! key with Some id => EraseById t id | None => t end.

Definition BindDialKey (t : Table) (id : Z) (key : string) : Table * bool :=
  match FindById t id with
  | None => (t, false)
  | Some link =>
      let from := tl_key link in
      if bool_decide (from = key) then (t <| by_dial_key_ ::= <[key := id]> |>, true)
      else if match by_dial_key_ t !! key with Some bound => negb (bound =? id) | None => false end then (t, false)
      else
        let t := if bool_decide (by_dial_key_ t !! from = Some id) then t <| by_dial_key_ ::= delete from |> else t in
        (t <| by_id_ ::= <[id := tl_rebind link key]> |> <| by_dial_key_ ::= <[key := id]> |>, true)
  end.
Definition UnbindDialKey (t : Table) (key : string) : Table := t <| by_dial_key_ ::= delete key |>.
Definition TableClear (t : Table) : Table := t <| by_id_ := ∅ |> <| by_dial_key_ := ∅ |> <| by_peer_ := ∅ |>.

(** What is done to a link through its pointer. *)
Definition Update (t : Table) (id : Z) (f : L -> L) : Table := t <| by_id_ ::= alter f id |>.

End LinkTable.

(** ** Runs *)

Section Runs.
Context {L : Type} `{TableLinkLaws L}.
Abbreviation Table := (LinkTable L).

Inductive table_op :=
  | OpInsert (link : L)
  | OpEnter (link : L)
  | OpErase (id : Z)
  | OpEraseKey (key : string)
  | OpBind (id : Z) (key : string)
  | OpUnbind (key : string)
  | OpSetPresence (peer_id : string) (transport : TransportClass) (id : Z)
  | OpClearPresence (peer_id : string) (transport : TransportClass) (id : Z)
  | OpUpdate (id : Z) (f : L -> L)
  | OpClear.
Definition table_step (t : Table) (op : table_op) : Table :=
  match op with
  | OpInsert link => (Insert t link).1
  | OpEnter link =>
      let '(t, id) := AllocId t in
      let '(t, generation) := NextGeneration t in
      (Insert t (tl_set_identity link id generation)).1
  | OpErase id => EraseById t id
  | OpEraseKey key => EraseByDialKey t key
  | OpBind id key => (BindDialKey t id key).1
  | OpUnbind key => UnbindDialKey t key
  | OpSetPresence p tr id => SetPresence t p tr id
  | OpClearPresence p tr id => ClearPresence t p tr id
  | OpUpdate id f => Update t id f
  | OpClear => TableClear t
  end.
(** Links are entered new, given an identity first ([OpEnter]) or not, and nobody
    else gives a link its identity or its key. *)
Definition table_op_ok (op : table_op) : Prop :=
  match op with
  | OpInsert link | OpEnter link => lh_id (tl_handle link) = 0
  | OpUpdate _ f => forall l, tl_handle (f l) = tl_handle l /\ tl_key (f l) = tl_key l
  | _ => True
  end.
Definition table_run (t : Table) (ops : list table_op) : Table := fold_left table_step ops t.

Record table_inv (t : Table) : Prop := {
  ti_next : 0 <= next_id_ t;
  ti_ids : forall id l, by_id_ t !! id = Some l -> lh_id (tl_handle l) = id /\ 0 < id <= next_id_ t;
  ti_keys : forall key id, by_dial_key_ t !! key = Some id -> exists l, by_id_ t !! id = Some l /\ tl_key l = key;
}.

(** What is live after a step was live before, with the same handle, or is new. *)
Definition steps_to (t t' : Table) : Prop :=
  next_id_ t <= next_id_ t' <= next_id_ t + 1
  /\ forall id l', by_id_ t' !! id = Some l' ->
       (exists l, by_id_ t !! id = Some l /\ tl_handle l' = tl_handle l) \/ next_id_ t < id.

Lemma same_links_inv (t t' : Table) :
  table_inv t -> next_id_ t' = next_id_ t -> by_id_ t' = by_id_ t -> by_dial_key_ t' ⊆ by_dial_key_ t ->
  table_inv t' /\ steps_to t t'.
Proof.
  intros [J1 J2 J3] En Ei Hk. split; [split; rewrite ?En, ?Ei; [done|done|]|split; rewrite ?En, ?Ei; [lia|]].
  - intros key id Hkey. apply J3. by eapply lookup_weaken.
  - intros id l Hl. left. by exists l.
Qed.

Lemma ClearPresence_same (t : Table) p tr id :
  next_id_ (ClearPresence t p tr id) = next_id_ t /\ by_id_ (ClearPresence t p tr id) = by_id_ t
  /\ by_dial_key_ (ClearPresence t p tr id) = by_dial_key_ t.
Proof. unfold ClearPresence. destruct (by_peer_ t !! p); [|done]. cbv zeta. by destruct (_ && _). Qed.

Lemma EraseById_inv (t : Table) id : table_inv t -> table_inv (EraseById t id) /\ steps_to t (EraseById t id).
Proof.
  intros Hi. pose proof Hi as [J1 J2 J3]. unfold EraseById. destruct (by_id_ t !! id) as [link|] eqn:Hl; [|by apply same_links_inv].
  cbv zeta. set (t1 := if bool_decide _ then _ else t).
  assert (H1 : next_id_ t1 = next_id_ t /\ by_id_ t1 = by_id_ t
               /\ forall key id', by_dial_key_ t1 !! key = Some id' -> by_dial_key_ t !! key = Some id' /\ id' <> id).
  { unfold t1. case_bool_decide as Hb; (split; [done|split; [done|]]); cbn; intros key id' Hk.
    - apply lookup_delete_Some in Hk as [Hne Hk]. split; [done|]. intros ->. destruct (J3 _ _ Hk) as (l & Hl' & Hkey).
      rewrite Hl in Hl'. injection Hl' as <-. congruence.
    - split; [done|]. intros ->. destruct (J3 _ _ Hk) as (l & Hl' & Hkey). rewrite Hl in Hl'. injection Hl' as <-. congruence. }
  clearbody t1. destruct H1 as (En & Ei & Hk). set (t2 := if bool_decide _ then t1 else _).
  assert (H2 : next_id_ t2 = next_id_ t1 /\ by_id_ t2 = by_id_ t1 /\ by_dial_key_ t2 = by_dial_key_ t1).
  { unfold t2. case_bool_decide; [done|apply ClearPresence_same]. }
  clearbody t2. destruct H2 as (En2 & Ei2 & Ek2). split; [split|split]; cbn; rewrite ?En2, ?En, ?Ei2, ?Ei, ?Ek2.
  - done.
  - intros id' l Hl'. apply lookup_delete_Some in Hl' as [_ Hl']. by apply J2.
  - intros key id' Hkey. destruct (Hk _ _ Hkey) as [Hkey' Hne]. destruct (J3 _ _ Hkey') as (l & Hl' & Hkl).
    exists l. by rewrite lookup_delete_ne.
  - lia.
  - intros id' l Hl'. apply lookup_delete_Some in Hl' as [_ Hl']. left. by exists l.
Qed.

Lemma alter_inv (t : Table) id f (keys : gmap string Z) : table_inv t ->
  (forall l, by_id_ t !! id = Some l -> tl_handle (f l) = tl_handle l) ->
  (forall key id', keys !! key = Some id' -> exists l, alter f id (by_id_ t) !! id' = Some l /\ tl_key l = key) ->
  let t' := t <| by_id_ ::= alter f id |> <| by_dial_key_ := keys |> in
  table_inv t' /\ steps_to t t'.
Proof.
  intros [J1 J2 J3] Hf Hkeys. cbv zeta. split; [split|split]; cbn.
  - done.
  - intros id' l Hl. apply lookup_alter_Some in Hl as [(<- & l0 & Hl0 & ->)|[_ Hl]]; [|by apply J2].
    rewrite Hf by done. by apply J2.
  - done.
  - lia.
  - intros id' l Hl. left. apply lookup_alter_Some in Hl as [(<- & l0 & Hl0 & ->)|[_ Hl]]; [|by exists l].
    exists l0. split; [done|by apply Hf].
Qed.

Lemma is_enter (op : table_op) : (exists link, op = OpEnter link) \/ forall link, op <> OpEnter link.
Proof. destruct op; try (right; done). left. eauto. Qed.
Lemma enter_insert (t : Table) link : lh_id (tl_handle link) = 0 -> 0 <= next_id_ t < 2 ^ 64 - 1 ->
  table_step t (OpEnter link) = table_step t (OpInsert link).
Proof.
  intros Hz Ht. cbn [table_step]. unfold Insert. rewrite Hz. change (LinkId_valid 0) with false. cbv iota. unfold AllocId, NextGeneration.
  cbv beta iota zeta. cbn [fst]. rewrite tl_set_handle. cbn [lh_id].
  replace (LinkId_valid (u64 (next_id_ t + 1))) with true; [cbv iota beta zeta; cbn [fst]; by rewrite tl_set_handle, tl_set_key|].
  rewrite u64_id by (unfold is_u64; lia). unfold LinkId_valid. symmetry. apply negb_true_iff, Z.eqb_neq. lia.
Qed.

Lemma table_step_inv (t : Table) op : table_op_ok op -> next_id_ t < 2 ^ 64 - 1 -> table_inv t ->
  table_inv (table_step t op) /\ steps_to t (table_step t op).
Proof.
  intros Hop Hmax Hi. assert (Hop' : exists op', table_op_ok op' /\ table_step t op = table_step t op' /\ forall l, op' <> OpEnter l).
  { destruct (is_enter op) as [[link ->]|Hne]; [|by exists op]. exists (OpInsert link). split; [done|]. split; [|done].
    apply enter_insert; [exact Hop|]. pose proof (ti_next _ Hi). lia. }
  destruct Hop' as (op' & Hop' & -> & Hnot). clear Hop op. rename Hop' into Hop, op' into op.
  pose proof Hi as [J1 J2 J3]. destruct op as [link|link|id|key|id key|key|p tr id|p tr id|id f|]; cbn [table_step table_op_ok] in *.
  - unfold Insert, AllocId, NextGeneration. rewrite Hop. cbn [LinkId_valid negb]. change (LinkId_valid 0) with false. cbv iota beta zeta. cbn [fst].
    rewrite tl_set_handle. cbn [lh_id]. rewrite u64_id by (unfold is_u64; lia). set (id := next_id_ t + 1).
    assert (Hnew : by_id_ t !! id = None).
    { destruct (by_id_ t !! id) as [l|] eqn:Hl; [|done]. destruct (J2 _ _ Hl) as [_ ?]. unfold id in *. lia. }
    split; [split|split]; cbn; rewrite ?u64_id by (unfold is_u64; lia).
    + lia.
    + intros id' l Hl. apply lookup_insert_Some in Hl as [[<- <-]|[_ Hl]]; [rewrite tl_set_handle; cbn; unfold id; lia|].
      destruct (J2 _ _ Hl). lia.
    + intros key id' Hk. apply lookup_insert_Some in Hk as [[<- <-]|[Hne Hk]].
      * eexists. rewrite lookup_insert_eq. split; [done|]. apply tl_set_key.
      * destruct (J3 _ _ Hk) as (l & Hl & Hkl). exists l. rewrite lookup_insert_ne; [done|]. congruence.
    + lia.
    + intros id' l Hl. apply lookup_insert_Some in Hl as [[<- <-]|[_ Hl]]; [right; unfold id; lia|left; by exists l].
  - by destruct (Hnot link).
  - by apply EraseById_inv.
  - unfold EraseByDialKey. destruct (by_dial_key_ t !! key); [by apply EraseById_inv|by apply same_links_inv].
  - unfold BindDialKey, FindById. destruct (by_id_ t !! id) as [link|] eqn:Hl; [|by apply same_links_inv].
    cbv zeta. case_bool_decide as Hkey.
    { cbn [fst]. split; [split|split]; cbn; [done|done| |lia|intros id' l Hl'; left; by exists l].
      intros key' id' Hk. apply lookup_insert_Some in Hk as [[<- <-]|[_ Hk]]; [|by apply J3]. by exists link. }
    destruct (match _ with Some _ => _ | None => false end) eqn:Hb; [by apply same_links_inv|]. cbn [fst].
    set (t1 := if bool_decide _ then _ else t).
    assert (H1 : next_id_ t1 = next_id_ t /\ by_id_ t1 = by_id_ t /\ next_generation_ t1 = next_generation_ t /\ by_peer_ t1 = by_peer_ t
                 /\ forall key id', by_dial_key_ t1 !! key = Some id' -> by_dial_key_ t !! key = Some id' /\ (id' = id -> key <> tl_key link)).
    { unfold t1. case_bool_decide as Hf; (split_and!; [done..|]); cbn; intros key' id' Hk.
      - apply lookup_delete_Some in Hk as [Hne Hk]. split; [done|congruence].
      - split; [done|]. intros -> ->. done. }
    clearbody t1. destruct H1 as (E1 & E2 & E3 & E4 & Hk1).
    assert (E : t1 <| by_id_ ::= <[id := tl_rebind link key]> |> <| by_dial_key_ ::= <[key := id]> |>
                = t <| by_id_ ::= alter (fun l => tl_rebind l key) id |> <| by_dial_key_ := <[key := id]> (by_dial_key_ t1) |>).
    { unfold set_field. cbn. rewrite E1, E2, E3, E4. f_equal. apply map_eq. intros id'. destruct (decide (id' = id)) as [->|Hne].
      - by rewrite lookup_insert_eq, lookup_alter_eq, Hl.
      - by rewrite lookup_insert_ne, lookup_alter_ne. }
    rewrite E. apply alter_inv; [done|intros; apply tl_rebind_handle|].
    intros key' id' Hk. apply lookup_insert_Some in Hk as [[<- <-]|[Hne Hk]].
    + exists (tl_rebind link key). rewrite lookup_alter_eq, Hl. split; [done|apply tl_rebind_key].
    + destruct (Hk1 _ _ Hk) as [Hk' Hid]. destruct (J3 _ _ Hk') as (l & Hl' & Hkl).
      destruct (decide (id' = id)) as [->|Hne']; [rewrite Hl in Hl'; injection Hl' as <-; by destruct (Hid eq_refl)|].
      exists l. by rewrite lookup_alter_ne.
  - apply same_links_inv; [done..|]. apply delete_subseteq.
  - unfold SetPresence. destruct (_ || _); [by apply same_links_inv|]. by apply same_links_inv.
  - destruct (ClearPresence_same t p tr id) as (E1 & E2 & E3). apply same_links_inv; [done..|by rewrite E3].
  - apply (alter_inv t id f (by_dial_key_ t) Hi); [intros; apply Hop|].
    intros key id' Hk. destruct (J3 _ _ Hk) as (l & Hl & Hkl). destruct (decide (id' = id)) as [->|Hne].
    + exists (f l). rewrite lookup_alter_eq, Hl. split; [done|]. by rewrite (proj2 (Hop l)).
    + exists l. by rewrite lookup_alter_ne.
  - split; [split|split]; cbn; [done|done|done|lia|done].
Qed.

Lemma table_run_inv (t : Table) ops : Forall table_op_ok ops -> next_id_ t + size ops < 2 ^ 64 -> table_inv t ->
  let t' := table_run t ops in
  table_inv t' /\ next_id_ t <= next_id_ t' <= next_id_ t + size ops
  /\ forall id l', by_id_ t' !! id = Some l' -> (exists l, by_id_ t !! id = Some l /\ tl_handle l' = tl_handle l) \/ next_id_ t < id.
Proof.
  cbv zeta. intros Hops. revert t. induction Hops as [|op ops Hop _ IH]; intros t Hmax Hi.
  - change (table_run t []) with t. split_and!; [done|lia|unfold size; simpl; lia|]. intros id l Hl. left. by exists l.
  - rewrite size_cons in *. pose proof (size_nonneg ops). destruct (table_step_inv t op Hop ltac:(lia) Hi) as [Hi1 [Hn Hlater]].
    destruct (IH (table_step t op) ltac:(lia) Hi1) as (Hi2 & Hn2 & Hlater2). cbn [table_run fold_left]. fold (table_run (table_step t op) ops).
    split_and!; [done|lia|lia|]. intros id l2 Hl2. destruct (Hlater2 id l2 Hl2) as [(l1 & Hl1 & E1)|]; [|right; lia].
    destruct (Hlater id l1 Hl1) as [(l & Hl & E)|]; [left; exists l; split; [done|congruence]|right; lia].
Qed.

Lemma table_new_inv : table_inv (LinkTable_new : Table).
Proof. by split. Qed.

(** The link [id] is marked present as the peer's. *)
Definition marked (t : Table) (p : string) (id : Z) : Prop := pp_adp (Presence t p) = Some id \/ pp_carrier (Presence t p) = Some id.
Lemma pick_none t o : pick t o = None -> forall id l, o = Some id -> FindById t id = Some l -> tl_phase l <> Connected.
Proof. intros Hp id l -> Hl Hc. unfold pick in Hp. cbn [mbind option_bind] in Hp. rewrite Hl in Hp. cbn [mbind option_bind] in Hp. by rewrite decide_True in Hp. Qed.
Lemma pick_some t o l : table_inv t -> pick t o = Some l ->
  o = Some (lh_id (tl_handle l)) /\ tl_phase l = Connected /\ FindById t (lh_id (tl_handle l)) = Some l.
Proof.
  intros [_ J2 _]. destruct o as [id|]; [|done]. unfold pick. cbn [mbind option_bind]. destruct (FindById t id) as [l'|] eqn:Hl; [|done]. cbn [mbind option_bind].
  case_decide; [|done]. intros [= <-]. by destruct (J2 id l' Hl) as [-> _].
Qed.

(** C28: what the table finds is what was asked for.  Whatever links were entered,
    dropped, rebound and marked present: a link found by a dial key has that key
    and is live; a handle finds only the link that holds it; a link found by a
    peer id is live and Connected, and it is the one marked present as the peer's
    or, when no link so marked is Connected, a link of that very peer; and one is
    found if any Connected link is the peer's. *)
Theorem link_table_sound (walk : gmap Z L -> list L) (ops : list table_op) :
  Forall table_op_ok ops -> size ops < 2 ^ 64 -> (forall m l, l ∈ walk m <-> exists id, m !! id = Some l) ->
  let t := table_run LinkTable_new ops in
  (forall key l, FindByDialKey t key = Some l -> tl_key l = key /\ FindById t (lh_id (tl_handle l)) = Some l)
  /\ (forall h l, FindLive t h = Some l -> tl_handle l = h /\ FindById t (lh_id h) = Some l)
  /\ (forall p prefer l, FindByPeerId walk t p prefer = Some l ->
        (tl_phase l = Connected /\ FindById t (lh_id (tl_handle l)) = Some l)
        /\ (marked t p (lh_id (tl_handle l))
            \/ tl_peer l = p /\ forall id l', marked t p id -> FindById t id = Some l' -> tl_phase l' <> Connected))
  /\ (forall p prefer id l, p <> ""%string -> FindById t id = Some l -> tl_phase l = Connected -> tl_peer l = p ->
        is_Some (FindByPeerId walk t p prefer)).
Proof.
  intros Hops Hmax Hwalk. cbv zeta.
  destruct (table_run_inv LinkTable_new ops Hops Hmax table_new_inv) as (Hinv & _). pose proof Hinv as [J1 J2 J3]. set (t := table_run LinkTable_new ops) in *.
  assert (Hlive : forall id l, FindById t id = Some l -> FindById t (lh_id (tl_handle l)) = Some l).
  { intros id l Hl. destruct (J2 id l Hl) as [-> _]. done. }
  split_and!.
  - intros key l. unfold FindByDialKey. destruct (by_dial_key_ t !! key) as [id|] eqn:Hk; [|done]. cbn [mbind option_bind]. intros Hl.
    destruct (J3 key id Hk) as (l' & Hl' & Hkey). unfold FindById in Hl. rewrite Hl in Hl'. injection Hl' as <-. split; [done|by apply (Hlive id)].
  - intros [id g] l. unfold FindLive. cbn [lh_id lh_generation]. destruct (FindById t id) as [l'|] eqn:Hl; [|done]. cbn [mbind option_bind].
    destruct (Z.eqb_spec (lh_generation (tl_handle l')) g) as [Hg|]; [|done]. intros [= <-]. split; [|done].
    destruct (J2 id l' Hl) as [Hid _]. destruct (tl_handle l'). cbn in *. by subst.
  - intros p prefer l. unfold FindByPeerId. case_bool_decide; [done|]. cbv zeta.
    pose proof (pick_none t (pp_adp (Presence t p))) as Hadp. pose proof (pick_none t (pp_carrier (Presence t p))) as Hcar.
    pose proof (pick_some t (pp_adp (Presence t p)) l Hinv) as Padp. pose proof (pick_some t (pp_carrier (Presence t p)) l Hinv) as Pcar.
    unfold or_else. destruct (pick t (pp_adp (Presence t p))) as [a|], (pick t (pp_carrier (Presence t p))) as [c|].
    1-3: destruct prefer; intros Hf; first [destruct (Padp Hf) as [? ?]|destruct (Pcar Hf) as [? ?]]; split; try done; left; first [by left|by right].
    intros Hs. assert (Hin : l ∈ filter (fun link => tl_phase link = Connected /\ tl_peer link = p) (walk (by_id_ t))).
    { destruct prefer, (filter _ _); try done; injection Hs as ->; by left. }
    apply list_elem_of_filter in Hin as [[Hc Hpeer] Hin]. apply Hwalk in Hin as [id Hid]. split; [split; [done|by apply (Hlive id)]|]. right. split; [done|].
    intros id' l' [Hm|Hm] Hl'; [by apply (Hadp eq_refl id')|by apply (Hcar eq_refl id')].
  - intros p prefer id l Hp Hl Hc Hpeer. unfold FindByPeerId. rewrite bool_decide_false by done. cbv zeta.
    assert (Hor : forall x y : option L, is_Some y -> is_Some (or_else x y)) by (intros [?|] y; [by eexists|done]).
    apply Hor. assert (Hin : l ∈ filter (fun link => tl_phase link = Connected /\ tl_peer link = p) (walk (by_id_ t))).
    { apply list_elem_of_filter. split; [done|]. apply Hwalk. by exists id. }
    destruct (filter _ _); [by apply not_elem_of_nil in Hin|by eexists].
Qed.

(** A handle of a link that is gone stays dead.  Once a handle that was given
    out finds no link, it never finds one again, whatever is entered after. *)
Theorem stale_handle_stays_dead (ops later : list table_op) (h : LinkHandle) :
  Forall table_op_ok (ops ++ later) -> size ops + size later < 2 ^ 64 ->
  let t := table_run LinkTable_new ops in
  lh_id h <= next_id_ t -> FindLive t h = None -> FindLive (table_run t later) h = None.
Proof.
  intros [Hops Hlater]%Forall_app Hmax. cbv zeta. pose proof (size_nonneg ops). pose proof (size_nonneg later).
  destruct (table_run_inv LinkTable_new ops Hops ltac:(cbn; lia) table_new_inv) as (Hi & Hn & _). set (t := table_run LinkTable_new ops) in *.
  intros Hh Hnone. cbn [next_id_ LinkTable_new] in Hn.
  destruct (table_run_inv t later Hlater ltac:(lia) Hi) as (_ & _ & Hlive). unfold FindLive, FindById in *.
  destruct (by_id_ (table_run t later) !! lh_id h) as [l'|] eqn:Hl'; [|done]. cbn [mbind option_bind].
  destruct (Hlive _ _ Hl') as [(l & Hl & ->)|]; [|lia]. rewrite Hl in Hnone. cbn [mbind option_bind] in Hnone.
  by destruct (_ =? _).
Qed.
End Runs.

(** ** Witnesses *)

Section Witness.
Record ToyTableLink := MkToyTableLink { t_handle : LinkHandle; t_key : string; t_peer : string; t_phase : PeerLinkPhase }.
#[local] Instance toy_table_link : TableLink ToyTableLink := {|
  tl_handle := t_handle; tl_key := t_key; tl_peer := t_peer; tl_phase := t_phase;
  tl_transport := fun _ => Adp;
  tl_set_identity := fun l id g => MkToyTableLink (MkLinkHandle id g) (t_key l) (t_peer l) (t_phase l);
  tl_rebind := fun l key => MkToyTableLink (t_handle l) key (t_peer l) (t_phase l);
|}.
#[local] Instance toy_table_link_laws : TableLinkLaws ToyTableLink.
Proof. by split. Qed.

Definition toy_table_ops : list (table_op (L := ToyTableLink)) :=
  [OpInsert (MkToyTableLink (MkLinkHandle 0 0) "a" "peer" Handshaking); OpInsert (MkToyTableLink (MkLinkHandle 0 0) "a" "peer" Connected);
   OpBind 1 "b"; OpErase 2; OpUpdate 1 (fun l => MkToyTableLink (t_handle l) (t_key l) (t_peer l) Connected)].
Definition toy_walk (m : gmap Z ToyTableLink) : list ToyTableLink := (map_to_list m).*2.

Theorem link_table_sound_witness :
  let t := table_run LinkTable_new toy_table_ops in
  FindByDialKey t "b" = Some (MkToyTableLink (MkLinkHandle 1 1) "b" "peer" Connected) /\ FindByDialKey t "a" = None
  /\ is_Some (FindByPeerId toy_walk t "peer" Carrier).
Proof.
  split; [by vm_compute|]. split; [by vm_compute|].
  apply (link_table_sound toy_walk toy_table_ops) with (id := 1) (l := MkToyTableLink (MkLinkHandle 1 1) "b" "peer" Connected);
    [by repeat constructor|done| |done|by vm_compute|done|done].
  intros m l. unfold toy_walk. rewrite list_elem_of_fmap. split.
  - intros ([id l'] & -> & Hin%elem_of_map_to_list). by exists id.
  - intros [id Hl]. exists (id, l). split; [done|]. by apply elem_of_map_to_list.
Defined.

Theorem stale_handle_stays_dead_witness :
  FindLive (table_run (table_run LinkTable_new toy_table_ops) [OpInsert (MkToyTableLink (MkLinkHandle 0 0) "a" "peer" Handshaking)])
    (MkLinkHandle 2 2) = None.
Proof.
  apply (stale_handle_stays_dead toy_table_ops); [by repeat constructor|done|by vm_compute|by vm_compute].
Defined.
End Witness.

