(* ===== verification/DialBook.v ===== *)
(** * The dial book (src/link/DialBook.cpp, include/amp/link/DialBook.h)

    The addresses of peers by dial key, best first, the addresses hostnames
    resolved to, the backoff of keys whose dials failed, and the count of dials
    running.  Times of the steady clock are in nanoseconds and arguments of what
    reads it, durations of the configuration in milliseconds.  The jitter of the
    backoff is the function the random draw gives, from a duration to the
    truncated product.  The order a hash table is walked in is a parameter. *)

From S2P Require Import Prelude L1Types AdpMultiaddr LinkPolicy.

Definition kMaxCandidatesPerKey : nat := 16.
Definition kNsPerMs : Z := 1000000.

Record EndpointRecord := MkEndpointRecord {
  er_multiaddr : string;
  er_endpoint : IpEndpoint;
  er_peer_id : string;
  er_candidates : list string;
  er_dial_index : nat;
  er_hostname : string;
  er_host_family : HostFamily;
  er_resolved : bool;
}.
#[export] Instance EndpointRecord_fields : Fields EndpointRecord := fun r =>
  MkEndpointRecord (er_multiaddr r) (er_endpoint r) (er_peer_id r) (er_candidates r) (er_dial_index r)
    (er_hostname r) (er_host_family r) (er_resolved r).
Definition EndpointRecord_default : EndpointRecord := MkEndpointRecord "" IpEndpoint_default "" [] 0 "" HostAny true.

Record Resolution := MkResolution { rs_endpoint : IpEndpoint; rs_at : Z }.

Record DialBook := MkDialBook {
  resolutions_ : gmap string Resolution;
  book_config_ : PeerLinkConfig;
  endpoints_ : gmap string EndpointRecord;
  dial_failed_until_ : gmap string Z;
  dial_failures_ : gmap string Z;
  concurrent_dials_ : Z;
}.
#[export] Instance DialBook_fields : Fields DialBook := fun b =>
  MkDialBook (resolutions_ b) (book_config_ b) (endpoints_ b) (dial_failed_until_ b) (dial_failures_ b) (concurrent_dials_ b).
Definition DialBook_new (config : PeerLinkConfig) : DialBook := MkDialBook ∅ config ∅ ∅ ∅ 0.

Section DialBook.
Context `{Inet6}.

Definition InsertCandidateFront (candidates : list string) (ma : string) : list string :=
  take kMaxCandidatesPerKey (ma :: filter (fun c => c <> ma) candidates).

Definition BookFind (b : DialBook) (peer_key : string) : option EndpointRecord := endpoints_ b !! peer_key.
Definition put_record (b : DialBook) (peer_key : string) (rec : EndpointRecord) : DialBook :=
  b <| endpoints_ ::= <[peer_key := rec]> |>.

(** ** Hostnames *)

(** [now - at >= host_resolution_ttl]. *)
Definition resolution_expired (b : DialBook) (now : Z) (r : Resolution) : bool :=
  host_resolution_ttl (book_config_ b) * kNsPerMs <=? now - rs_at r.

Definition ApplyAddress (b : DialBook) (now : Z) (rec : EndpointRecord) (multiaddr : string) (parsed : ParsedAdpMultiaddr)
    : EndpointRecord :=
  let rec := rec <| er_multiaddr := multiaddr |> <| er_hostname := pa_hostname parsed |>
                 <| er_host_family := pa_host_family parsed |> <| er_endpoint := pa_endpoint parsed |>
                 <| er_resolved := negb (IsHostname parsed) |> in
  if IsHostname parsed then
    match resolutions_ b !! multiaddr with
    | Some r => if resolution_expired b now r then rec
                else rec <| er_endpoint := rs_endpoint r |> <| er_resolved := true |>
    | None => rec
    end
  else rec.

Definition NeedsResolution (b : DialBook) (now : Z) (peer_key : string) : bool :=
  match BookFind b peer_key with
  | Some rec =>
      if bool_decide (er_hostname rec = "") then false
      else negb (er_resolved rec)
           || match resolutions_ b !! er_multiaddr rec with Some r => resolution_expired b now r | None => true end
  | None => false
  end.

Definition SetResolution (b : DialBook) (now : Z) (multiaddr : string) (endpoint : IpEndpoint) : DialBook :=
  let b := b <| resolutions_ ::= filter (fun kr => resolution_expired b now kr.2 = false) |> in
  let b := b <| resolutions_ ::= <[multiaddr := MkResolution endpoint now]> |> in
  b <| endpoints_ ::= fmap (fun rec =>
         if bool_decide (er_multiaddr rec = multiaddr) then rec <| er_endpoint := endpoint |> <| er_resolved := true |> else rec) |>.

Definition ForgetResolution (b : DialBook) (peer_key : string) : DialBook :=
  match BookFind b peer_key with
  | Some rec =>
      if bool_decide (er_hostname rec = "") then b
      else put_record (b <| resolutions_ ::= delete (er_multiaddr rec) |>) peer_key (rec <| er_resolved := false |>)
  | None => b
  end.

(** Not called by the code. *)
Definition ApplyParsed (b : DialBook) (now : Z) (rec : EndpointRecord) (multiaddr peer_key : string) : EndpointRecord * bool :=
  match ParseAdpMultiaddr multiaddr with
  | Fail _ => (rec, false)
  | Ok parsed =>
      (ApplyAddress b now rec multiaddr parsed <| er_peer_id := if bool_decide (pa_peer_id parsed = "") then peer_key else pa_peer_id parsed |>, true)
  end.

(** ** Candidates *)

Definition parsed_peer_id (parsed : ParsedAdpMultiaddr) (otherwise : string) : string :=
  if bool_decide (pa_peer_id parsed = "") then otherwise else pa_peer_id parsed.

Definition SyncActiveFromIndex (b : DialBook) (now : Z) (rec : EndpointRecord) : EndpointRecord :=
  if bool_decide (er_candidates rec = []) then rec
  else
    let rec := if (length (er_candidates rec) <=? er_dial_index rec)%nat then rec <| er_dial_index := O |> else rec in
    let active := nth (er_dial_index rec) (er_candidates rec) ""%string in
    match ParseAdpMultiaddr active with
    | Fail _ => rec
    | Ok parsed =>
        let rec := ApplyAddress b now rec active parsed in
        rec <| er_peer_id := parsed_peer_id parsed (er_peer_id rec) |>
    end.

Definition ClearBackoff (b : DialBook) (peer_key : string) : DialBook :=
  b <| dial_failed_until_ ::= delete peer_key |> <| dial_failures_ ::= delete peer_key |>.
Definition ClearAllBackoff (b : DialBook) : DialBook := b <| dial_failed_until_ := ∅ |> <| dial_failures_ := ∅ |>.

(** The record an address is registered in, its peer named. *)
Definition known_record (b : DialBook) (peer_key : string) (parsed : ParsedAdpMultiaddr) : EndpointRecord :=
  match BookFind b peer_key with
  | None => EndpointRecord_default <| er_peer_id := parsed_peer_id parsed peer_key |>
  | Some rec => if bool_decide (er_peer_id rec = "") then rec <| er_peer_id := pa_peer_id parsed |> else rec
  end.
Definition RegisterEndpoint (b : DialBook) (now : Z) (peer_key multiaddr : string) : DialBook * Roe unit :=
  match ParseAdpMultiaddr multiaddr with
  | Fail e => (b, Fail e)
  | Ok parsed =>
      let prev_preferred := match BookFind b peer_key with Some rec => er_multiaddr rec | None => ""%string end in
      let rec := known_record b peer_key parsed <| er_candidates ::= fun c => InsertCandidateFront c multiaddr |> <| er_dial_index := O |> in
      let b := put_record b peer_key (SyncActiveFromIndex b now rec) in
      (if bool_decide (prev_preferred <> multiaddr) then ClearBackoff b peer_key else b, Ok tt)
  end.

Definition UnregisterEndpoint (b : DialBook) (peer_key : string) : DialBook :=
  ClearBackoff (b <| endpoints_ ::= delete peer_key |>) peer_key.

(** The loop that fills the record from the addresses. *)
Fixpoint register_loop (peer_key : string) (multiaddrs : list string) (rec : EndpointRecord) : EndpointRecord :=
  match multiaddrs with
  | [] => rec
  | ma :: multiaddrs =>
      match ParseAdpMultiaddr ma with
      | Fail _ => register_loop peer_key multiaddrs rec
      | Ok parsed =>
          if bool_decide (ma ∈ er_candidates rec) then register_loop peer_key multiaddrs rec
          else
            let rec := if bool_decide (er_peer_id rec = peer_key)
                       then rec <| er_peer_id := parsed_peer_id parsed (er_peer_id rec) |> else rec in
            let rec := rec <| er_candidates ::= fun c => c ++ [ma] |> in
            if (kMaxCandidatesPerKey <=? length (er_candidates rec))%nat then rec else register_loop peer_key multiaddrs rec
      end
  end.

Definition RegisterEndpoints (b : DialBook) (now : Z) (peer_key : string) (multiaddrs : list string) : DialBook * Roe unit :=
  let existing := BookFind b peer_key in
  let prev_preferred := match existing with Some rec => er_multiaddr rec | None => ""%string end in
  let peer_id := match existing with
                 | Some rec => if bool_decide (er_peer_id rec = "") then peer_key else er_peer_id rec
                 | None => peer_key
                 end in
  let rec := register_loop peer_key multiaddrs (EndpointRecord_default <| er_peer_id := peer_id |>) in
  if bool_decide (er_candidates rec = []) then (b, Fail (Err_ "amp dial book: no parseable multiaddrs"))
  else
    let rec := SyncActiveFromIndex b now (rec <| er_dial_index := O |>) in
    let b := put_record b peer_key rec in
    (if bool_decide (prev_preferred <> er_multiaddr rec) then ClearBackoff b peer_key else b, Ok tt).

Definition AdvanceDialCandidate (b : DialBook) (now : Z) (peer_key : string) : DialBook * bool :=
  match BookFind b peer_key with
  | Some rec =>
      if (length (er_candidates rec) <? 2)%nat then (b, false)
      else if (length (er_candidates rec) <=? er_dial_index rec + 1)%nat then (b, false)
      else (put_record b peer_key (SyncActiveFromIndex b now (rec <| er_dial_index ::= S |>)), true)
  | None => (b, false)
  end.

Definition ResetDialIndex (b : DialBook) (now : Z) (peer_key : string) : DialBook :=
  match BookFind b peer_key with
  | Some rec => put_record b peer_key (SyncActiveFromIndex b now (rec <| er_dial_index := O |>))
  | None => b
  end.

Definition PromoteDialWinner (b : DialBook) (now : Z) (peer_key multiaddr : string) : DialBook :=
  match BookFind b peer_key with
  | Some rec =>
      if bool_decide (multiaddr = "") then b
      else
        let rec := rec <| er_candidates ::= fun c => InsertCandidateFront c multiaddr |> <| er_dial_index := O |> in
        put_record b peer_key (SyncActiveFromIndex b now rec)
  | None => b
  end.

Definition PreferredMultiaddr (walk : gmap string EndpointRecord -> list (string * EndpointRecord)) (b : DialBook)
    (peer_id : string) : option string :=
  if bool_decide (peer_id = "") then None
  else (fun kr => er_multiaddr kr.2) <$> head (filter (fun kr => er_peer_id kr.2 = peer_id \/ kr.1 = peer_id) (walk (endpoints_ b))).

(** ** Backoff *)

(** The doubling loop, [n] turns at most. *)
Fixpoint double_backoff (n : nat) (cap backoff : Z) : Z :=
  match n with
  | O => backoff
  | S n => if backoff <? cap then double_backoff n cap (Z.min (backoff * 2) cap) else backoff
  end.
Definition backoff_ms (config : PeerLinkConfig) (failures : Z) : Z :=
  let cap := dial_failure_backoff config in
  double_backoff (Z.to_nat (failures - 1)) cap (Z.min (dial_failure_backoff_initial config) cap).

Definition ArmBackoff (jitter : Z -> Z) (b : DialBook) (now : Z) (peer_key : string) : DialBook :=
  let failures := u32 (default 0 (dial_failures_ b !! peer_key) + 1) in
  b <| dial_failures_ ::= <[peer_key := failures]> |>
    <| dial_failed_until_ ::= <[peer_key := now + jitter (backoff_ms (book_config_ b) failures) * kNsPerMs]> |>.

Definition InBackoff (b : DialBook) (peer_key : string) (now : Z) : bool :=
  match dial_failed_until_ b !! peer_key with Some until => now <? until | None => false end.
Definition BackoffRemaining (b : DialBook) (peer_key : string) (now : Z) : option Z :=
  match dial_failed_until_ b !! peer_key with
  | Some until => if until <=? now then None else Some (Z.quot (until - now) kNsPerMs)
  | None => None
  end.
Definition EraseExpiredBackoff (b : DialBook) (peer_key : string) (now : Z) : DialBook :=
  match dial_failed_until_ b !! peer_key with
  | Some until => if until <=? now then b <| dial_failed_until_ ::= delete peer_key |> else b
  | None => b
  end.

Definition IncConcurrentDials (b : DialBook) : DialBook := b <| concurrent_dials_ ::= fun n => u64 (n + 1) |>.
Definition DecConcurrentDials (b : DialBook) : DialBook :=
  if 0 <? concurrent_dials_ b then b <| concurrent_dials_ ::= fun n => n - 1 |> else b.

(** ** What a peer says of its own addresses *)

Definition IsRemotelyDialable (ep : IpEndpoint) : bool :=
  let a := at_ (addr ep) in
  match family ep with
  | V4 =>
      if (a 0%nat =? 169) && (a 1%nat =? 254) then false
      else negb ((a 0%nat =? 127) || ((a 0%nat =? 0) && (a 1%nat =? 0) && (a 2%nat =? 0) && (a 3%nat =? 0)))
  | V6 =>
      if (a 0%nat =? 254) && (Z.land (a 1%nat) 192 =? 128) then false
      else
        let all_zero := forallb (fun i => a i =? 0) (List.seq 0 15) in
        negb (all_zero && ((a 15%nat =? 0) || (a 15%nat =? 1)))
  end.

(** The loop that adds the addresses worth having. *)
Fixpoint ingest_loop (peer_id : string) (addrs merged : list string) : list string :=
  match addrs with
  | [] => merged
  | ma :: addrs =>
      match ParseAdpMultiaddr ma with
      | Fail _ => ingest_loop peer_id addrs merged
      | Ok parsed =>
          if negb (bool_decide (pa_peer_id parsed = "")) && bool_decide (pa_peer_id parsed <> peer_id)
          then ingest_loop peer_id addrs merged
          else if negb (IsRemotelyDialable (pa_endpoint parsed)) then ingest_loop peer_id addrs merged
          else if bool_decide (ma ∈ merged) then ingest_loop peer_id addrs merged
          else
            let merged := merged ++ [ma] in
            if (kMaxCandidatesPerKey <=? length merged)%nat then merged else ingest_loop peer_id addrs merged
      end
  end.

Definition ingest_key (walk : gmap string EndpointRecord -> list (string * EndpointRecord)) (b : DialBook)
    (peer_id : string) : string :=
  match head (filter (fun kr => er_peer_id kr.2 = peer_id) (walk (endpoints_ b))) with
  | Some kr => kr.1
  | None => peer_id
  end.
Definition IngestRemoteAddrs (walk : gmap string EndpointRecord -> list (string * EndpointRecord)) (b : DialBook) (now : Z)
    (peer_id : string) (addrs : list string) : DialBook :=
  if bool_decide (peer_id = "") then b
  else
    let target_key := ingest_key walk b peer_id in
    let merged := ingest_loop peer_id addrs
                    (match BookFind b target_key with Some rec => er_candidates rec | None => [] end) in
    if bool_decide (merged = []) then b else (RegisterEndpoints b now target_key merged).1.

End DialBook.

(** ** The invariant of the records *)

Section Invariant.
Context `{Inet6}.

Definition parses (ma : string) : Prop := exists p, ParseAdpMultiaddr ma = Ok p.
(** A record dials one of its candidates, of which there are some, none twice, not
    too many, all addresses; and its peer is the one that address names. *)
Record record_ok (rec : EndpointRecord) : Prop := {
  ro_distinct : NoDup (er_candidates rec);
  ro_few : (length (er_candidates rec) <= kMaxCandidatesPerKey)%nat;
  ro_parse : Forall parses (er_candidates rec);
  ro_active : er_candidates rec !! er_dial_index rec = Some (er_multiaddr rec);
  ro_peer : exists p, ParseAdpMultiaddr (er_multiaddr rec) = Ok p /\ er_peer_id rec = parsed_peer_id p (er_peer_id rec);
}.

Definition good_candidates (l : list string) : Prop :=
  NoDup l /\ (length l <= kMaxCandidatesPerKey)%nat /\ Forall parses l /\ l <> [].

Lemma ApplyAddress_fields b now rec ma p :
  er_candidates (ApplyAddress b now rec ma p) = er_candidates rec /\ er_dial_index (ApplyAddress b now rec ma p) = er_dial_index rec
  /\ er_multiaddr (ApplyAddress b now rec ma p) = ma /\ er_peer_id (ApplyAddress b now rec ma p) = er_peer_id rec.
Proof.
  unfold ApplyAddress. cbv zeta. destruct (IsHostname p); [|done]. destruct (resolutions_ b !! ma) as [r|]; [|done].
  by destruct (resolution_expired b now r).
Qed.

Lemma Sync_ok b now rec : good_candidates (er_candidates rec) -> record_ok (SyncActiveFromIndex b now rec).
Proof.
  intros (Hd & Hf & Hp & Hne). unfold SyncActiveFromIndex. rewrite bool_decide_false by done. cbv zeta.
  set (rec1 := if (_ <=? _)%nat then _ else rec).
  assert (H1 : er_candidates rec1 = er_candidates rec /\ (er_dial_index rec1 < length (er_candidates rec))%nat).
  { unfold rec1. destruct (Nat.leb_spec (length (er_candidates rec)) (er_dial_index rec)); [|done].
    split; [done|]. cbn. destruct (er_candidates rec); [done|cbn; lia]. }
  clearbody rec1. destruct H1 as [Hc Hi]. rewrite Hc. destruct (lookup_lt_is_Some_2 _ _ Hi) as [active Ha].
  rewrite (nth_lookup_Some _ _ _ _ Ha). destruct (proj1 (Forall_forall _ _) Hp active (list_elem_of_lookup_2 _ _ _ Ha)) as [p Hparse].
  rewrite Hparse. destruct (ApplyAddress_fields b now rec1 active p) as (E1 & E2 & E3 & E4).
  split; cbn; rewrite ?E1, ?E2, ?E3, ?E4, ?Hc; try done.
  exists p. split; [done|]. unfold parsed_peer_id. by case_bool_decide.
Qed.

Lemma front_good l ma : NoDup l -> Forall parses l -> parses ma -> good_candidates (InsertCandidateFront l ma).
Proof.
  intros Hd Hp Hma. unfold InsertCandidateFront. split_and!.
  - assert (Hd' : NoDup (ma :: filter (fun c => c <> ma) l)).
    { apply NoDup_cons. split; [intros [Hne _]%list_elem_of_filter; by apply Hne|by apply NoDup_filter]. }
    revert Hd'. generalize (ma :: filter (fun c => c <> ma) l). intros l' Hd'.
    rewrite <- (take_drop kMaxCandidatesPerKey l') in Hd'. by apply NoDup_app in Hd' as (Hd' & _ & _).
  - rewrite length_take. lia.
  - apply Forall_take. constructor; [done|]. rewrite Forall_forall in *; intros c [_ Hc]%list_elem_of_filter; by apply Hp.
  - done.
Qed.

Lemma register_loop_good key mas rec : NoDup (er_candidates rec) -> (length (er_candidates rec) < kMaxCandidatesPerKey)%nat ->
  Forall parses (er_candidates rec) ->
  let rec' := register_loop key mas rec in
  NoDup (er_candidates rec') /\ (length (er_candidates rec') <= kMaxCandidatesPerKey)%nat /\ Forall parses (er_candidates rec').
Proof.
  cbv zeta. revert rec. induction mas as [|ma mas IH]; intros rec Hd Hf Hp; cbn [register_loop]; [split_and!; [done|lia|done]|].
  destruct (ParseAdpMultiaddr ma) as [p|] eqn:Hparse; [|by apply IH]. case_bool_decide as Hin; [by apply IH|]. cbv zeta.
  set (rec1 := if bool_decide (er_peer_id rec = key) then _ else rec). assert (Hc : er_candidates rec1 = er_candidates rec) by (unfold rec1; by case_bool_decide).
  clearbody rec1. set (rec2 := rec1 <| er_candidates ::= _ |>).
  assert (H2 : NoDup (er_candidates rec2) /\ length (er_candidates rec2) = S (length (er_candidates rec)) /\ Forall parses (er_candidates rec2)).
  { cbn. rewrite Hc. split_and!; [|rewrite length_app; cbn; lia|apply Forall_app; split; [done|constructor; [by exists p|done]]].
    apply NoDup_app. split_and!; [done|set_solver|apply NoDup_singleton]. }
  clearbody rec2. destruct H2 as (Hd2 & Hl2 & Hp2). destruct (Nat.leb_spec kMaxCandidatesPerKey (length (er_candidates rec2))).
  - split_and!; [done|lia|done].
  - by apply IH.
Qed.

Inductive book_op :=
  | OpRegister (now : Z) (peer_key multiaddr : string)
  | OpRegisterAll (now : Z) (peer_key : string) (multiaddrs : list string)
  | OpUnregister (peer_key : string)
  | OpAdvance (now : Z) (peer_key : string)
  | OpReset (now : Z) (peer_key : string)
  | OpPromote (now : Z) (peer_key multiaddr : string)
  | OpIngest (walk : gmap string EndpointRecord -> list (string * EndpointRecord)) (now : Z) (peer_id : string) (addrs : list string)
  | OpResolved (now : Z) (multiaddr : string) (endpoint : IpEndpoint)
  | OpForget (peer_key : string)
  | OpFailed (jitter : Z -> Z) (now : Z) (peer_key : string)
  | OpExpire (now : Z) (peer_key : string)
  | OpClear (peer_key : option string)
  | OpDials (more : bool).
Definition book_step (b : DialBook) (op : book_op) : DialBook :=
  match op with
  | OpRegister now key ma => (RegisterEndpoint b now key ma).1
  | OpRegisterAll now key mas => (RegisterEndpoints b now key mas).1
  | OpUnregister key => UnregisterEndpoint b key
  | OpAdvance now key => (AdvanceDialCandidate b now key).1
  | OpReset now key => ResetDialIndex b now key
  | OpPromote now key ma => PromoteDialWinner b now key ma
  | OpIngest walk now p addrs => IngestRemoteAddrs walk b now p addrs
  | OpResolved now ma ep => SetResolution b now ma ep
  | OpForget key => ForgetResolution b key
  | OpFailed jitter now key => ArmBackoff jitter b now key
  | OpExpire now key => EraseExpiredBackoff b key now
  | OpClear key => match key with Some key => ClearBackoff b key | None => ClearAllBackoff b end
  | OpDials more => if more then IncConcurrentDials b else DecConcurrentDials b
  end.
(** The winner of a dial is an address. *)
Definition book_op_ok (op : book_op) : Prop := match op with OpPromote _ _ ma => parses ma | _ => True end.
Definition book_run (b : DialBook) (ops : list book_op) : DialBook := fold_left book_step ops b.

Definition book_ok (b : DialBook) : Prop := map_Forall (fun _ => record_ok) (endpoints_ b).

Lemma put_ok b key rec : book_ok b -> record_ok rec -> book_ok (put_record b key rec).
Proof. intros Hb Hr. by apply map_Forall_insert_2. Qed.
Lemma find_good b key rec : book_ok b -> BookFind b key = Some rec -> record_ok rec.
Proof. intros Hb Hf. apply (Hb key rec Hf). Qed.
Lemma ok_good rec : record_ok rec -> good_candidates (er_candidates rec).
Proof. intros [J1 J2 J3 J4 _]. split_and!; try done. intros Hnil. by rewrite Hnil in J4. Qed.

Lemma RegisterEndpoints_ok b now key mas : book_ok b -> book_ok (RegisterEndpoints b now key mas).1.
Proof.
  intros Hb. unfold RegisterEndpoints. cbv zeta. set (rec0 := EndpointRecord_default <| er_peer_id := _ |>).
  pose proof (register_loop_good key mas rec0 ltac:(constructor) ltac:(unfold kMaxCandidatesPerKey; cbn; lia) ltac:(constructor)) as (Hd & Hf & Hp).
  set (rec1 := register_loop key mas rec0) in *. clearbody rec1. case_bool_decide as Hne; [done|]. cbn [fst].
  set (rec2 := SyncActiveFromIndex b now _). assert (H2 : record_ok rec2) by (by apply Sync_ok).
  pose proof (put_ok b key rec2 Hb H2) as Hput. by case_bool_decide.
Qed.

Lemma book_step_ok b op : book_op_ok op -> book_ok b -> book_ok (book_step b op).
Proof.
  intros Hop Hb. destruct op as [now key ma|now key mas|key|now key|now key|now key ma|walk now p addrs|now ma ep|key|jit now key|now key|key|more]; cbn [book_step].
  - unfold RegisterEndpoint. destruct (ParseAdpMultiaddr ma) as [p|] eqn:Hp; [|done]. cbv zeta. cbn [fst].
    set (rec0 := known_record b key p). assert (H0' : NoDup (er_candidates rec0) /\ Forall parses (er_candidates rec0)).
    { unfold rec0, known_record. destruct (BookFind b key) as [rec|] eqn:Hf; [|by split; constructor].
      destruct (find_good b key rec Hb Hf). by case_bool_decide. }
    clearbody rec0. destruct H0' as [Hd Hps]. set (rec1 := SyncActiveFromIndex b now _).
    assert (H1 : record_ok rec1) by (apply Sync_ok, front_good; [done|done|by exists p]).
    pose proof (put_ok b key rec1 Hb H1) as Hput. by case_bool_decide.
  - by apply RegisterEndpoints_ok.
  - by apply map_Forall_delete.
  - unfold AdvanceDialCandidate. destruct (BookFind b key) as [rec|] eqn:Hf; [|done]. destruct (_ <? _)%nat; [done|]. destruct (_ <=? _)%nat; [done|].
    apply put_ok; [done|]. apply Sync_ok. apply (ok_good rec), (find_good b key); done.
  - unfold ResetDialIndex. destruct (BookFind b key) as [rec|] eqn:Hf; [|done]. apply put_ok; [done|]. apply Sync_ok. apply (ok_good rec), (find_good b key); done.
  - unfold PromoteDialWinner. destruct (BookFind b key) as [rec|] eqn:Hf; [|done]. case_bool_decide; [done|]. apply put_ok; [done|].
    destruct (find_good b key rec Hb Hf). by apply Sync_ok, front_good.
  - unfold IngestRemoteAddrs. case_bool_decide; [done|]. cbv zeta. case_bool_decide; [done|]. by apply RegisterEndpoints_ok.
  - intros key rec Hrec. unfold SetResolution in Hrec. cbn in Hrec. apply lookup_fmap_Some in Hrec as (r & <- & Hr).
    destruct (Hb key r Hr). case_bool_decide; by split.
  - unfold ForgetResolution. destruct (BookFind b key) as [rec|] eqn:Hf; [|done]. case_bool_decide; [done|]. apply put_ok; [done|].
    destruct (find_good b key rec Hb Hf). by split.
  - done.
  - unfold EraseExpiredBackoff. destruct (_ !! key); [|done]. by destruct (_ <=? _).
  - by destruct key.
  - destruct more; [done|]. unfold DecConcurrentDials. by destruct (_ <? _).
Qed.

Lemma book_run_ok config ops : Forall book_op_ok ops -> book_ok (book_run (DialBook_new config) ops).
Proof.
  intros Hops. assert (H0' : book_ok (DialBook_new config)) by apply map_Forall_empty. revert H0'. unfold book_run. generalize (DialBook_new config).
  induction Hops as [|op ops Hop _ IH]; intros b Hb; [done|]. apply IH. by apply book_step_ok.
Qed.

(** C31: the records of a dial book are sound, whatever is registered, dialed,
    resolved, promoted or told by peers: each has some candidates, none twice, at
    most [kMaxCandidatesPerKey], all of them addresses; the one it dials is one of
    them, that of its index; and its peer id is the one that address names. *)
Theorem dial_book_sound (config : PeerLinkConfig) (ops : list book_op) (key : string) (rec : EndpointRecord) :
  Forall book_op_ok ops -> BookFind (book_run (DialBook_new config) ops) key = Some rec ->
  record_ok rec /\ er_candidates rec <> [].
Proof.
  intros Hops Hf. pose proof (book_run_ok config ops Hops) as Hb.
  pose proof (find_good _ _ _ Hb Hf) as Hr. split; [done|]. by apply ok_good.
Qed.

(** ** What a peer says of its own addresses *)

(** The addresses kept of those a peer said: its own, that can be dialed from here. *)
Definition worth_having (peer_id : string) (addrs : list string) (ma : string) : Prop :=
  ma ∈ addrs /\ exists p, ParseAdpMultiaddr ma = Ok p /\ pa_peer_id p = peer_id /\ IsRemotelyDialable (pa_endpoint p) = true.

Lemma ingest_loop_adds peer_id addrs merged : NoDup merged ->
  exists added, ingest_loop peer_id addrs merged = merged ++ added /\ NoDup (merged ++ added)
    /\ Forall (worth_having peer_id addrs) added.
Proof.
  revert merged. induction addrs as [|ma addrs IH]; intros merged Hd; cbn [ingest_loop].
  { exists []. by rewrite app_nil_r. }
  assert (Hmore : forall merged, NoDup merged -> exists added, ingest_loop peer_id addrs merged = merged ++ added /\ NoDup (merged ++ added)
    /\ Forall (worth_having peer_id (ma :: addrs)) added).
  { intros l Hl. destruct (IH l Hl) as (added & J1 & J2 & J3). exists added. split_and!; [done|done|].
    apply (Forall_impl _ _ _ J3). intros x [Hx Hp]. split; [by right|done]. }
  destruct (ParseAdpMultiaddr ma) as [p|] eqn:Hp; [|by apply Hmore].
  destruct (negb (bool_decide (pa_peer_id p = "")) && bool_decide (pa_peer_id p <> peer_id)) eqn:Hid; [by apply Hmore|].
  destruct (IsRemotelyDialable (pa_endpoint p)) eqn:Hdial; cbn [negb]; [|by apply Hmore].
  assert (Hown : worth_having peer_id (ma :: addrs) ma).
  { split; [by left|]. exists p. split_and!; [done| |done]. rewrite (bool_decide_false _ (parse_names_peer ma p Hp)) in Hid.
    cbn in Hid. by apply bool_decide_eq_false, dec_stable in Hid. }
  clear Hid. case_bool_decide as Hin; [by apply Hmore|]. cbv zeta.
  assert (Hd1 : NoDup (merged ++ [ma])) by (apply NoDup_app; split_and!; [done|set_solver|apply NoDup_singleton]).
  destruct (_ <=? _)%nat.
  - exists [ma]. split_and!; [done|done|by constructor].
  - destruct (Hmore _ Hd1) as (added & J1 & J2 & J3). exists (ma :: added). rewrite J1, <- (assoc_L app) in *. split_and!; [done|done|by constructor].
Qed.

(** Registering addresses all new keeps them, to the limit. *)
Lemma register_loop_all key mas rec : NoDup (er_candidates rec ++ mas) -> Forall parses mas ->
  (length (er_candidates rec) < kMaxCandidatesPerKey)%nat ->
  er_candidates (register_loop key mas rec) = take kMaxCandidatesPerKey (er_candidates rec ++ mas).
Proof.
  revert rec. induction mas as [|ma mas IH]; intros rec Hd Hp Hf; cbn [register_loop].
  { rewrite app_nil_r, take_ge; [done|lia]. }
  apply Forall_cons in Hp as [[p Hp] Hps]. rewrite Hp, bool_decide_false by (apply NoDup_app in Hd as (_ & Hd & _); set_solver). cbv zeta.
  set (rec1 := if bool_decide (er_peer_id rec = key) then _ else rec). assert (Hc : er_candidates rec1 = er_candidates rec) by (unfold rec1; by case_bool_decide).
  clearbody rec1. set (rec2 := rec1 <| er_candidates ::= _ |>). assert (Hc2 : er_candidates rec2 = er_candidates rec ++ [ma]) by (cbn; by rewrite Hc).
  clearbody rec2. assert (Hl : length (er_candidates rec2) = S (length (er_candidates rec))) by (rewrite Hc2, length_app; cbn; lia).
  replace (er_candidates rec ++ ma :: mas) with (er_candidates rec2 ++ mas) in * by (by rewrite Hc2, <- (assoc_L app)).
  destruct (Nat.leb_spec kMaxCandidatesPerKey (length (er_candidates rec2))).
  - rewrite take_app_le, take_ge by lia. done.
  - by apply IH.
Qed.

Lemma Sync_head b now rec ma rest p : er_candidates rec = ma :: rest -> er_dial_index rec = O -> ParseAdpMultiaddr ma = Ok p ->
  let rec' := SyncActiveFromIndex b now rec in
  er_candidates rec' = er_candidates rec /\ er_multiaddr rec' = ma /\ er_peer_id rec' = pa_peer_id p.
Proof.
  intros Hc Hi Hp. cbv zeta. unfold SyncActiveFromIndex. rewrite Hc, Hi. rewrite bool_decide_false by done.
  cbv zeta. change (length (ma :: rest) <=? 0)%nat with false. cbv iota. rewrite Hi, Hc. cbn [nth]. rewrite Hp. cbn.
  destruct (ApplyAddress_fields b now rec ma p) as (-> & _ & -> & _). split_and!; [done|done|].
  unfold parsed_peer_id. rewrite bool_decide_false; [done|]. by apply (parse_names_peer ma).
Qed.

(** Registering new addresses of a record: all of them, the first dialed. *)
Lemma RegisterEndpoints_new b now key mas : NoDup mas -> Forall parses mas -> mas <> [] ->
  let b' := (RegisterEndpoints b now key mas).1 in
  exists rec, endpoints_ b' = <[key := rec]> (endpoints_ b) /\ concurrent_dials_ b' = concurrent_dials_ b
    /\ er_candidates rec = take kMaxCandidatesPerKey mas
    /\ match mas with
       | ma :: _ => forall p, ParseAdpMultiaddr ma = Ok p -> er_multiaddr rec = ma /\ er_peer_id rec = pa_peer_id p
       | [] => True
       end.
Proof.
  intros Hd Hp Hne. cbv zeta. unfold RegisterEndpoints. cbv zeta. set (rec0 := EndpointRecord_default <| er_peer_id := _ |>).
  pose proof (register_loop_all key mas rec0 Hd Hp ltac:(unfold kMaxCandidatesPerKey; cbn; lia)) as Hc. cbn [app er_candidates EndpointRecord_default] in Hc.
  change (er_candidates rec0 ++ mas) with mas in Hc. set (rec1 := register_loop key mas rec0) in *. clearbody rec1.
  destruct mas as [|ma mas]; [done|]. rewrite bool_decide_false by (by rewrite Hc). cbn [fst]. set (rec2 := SyncActiveFromIndex b now _).
  exists rec2. split_and!; [by case_bool_decide|by case_bool_decide| |].
  all: pose proof (proj1 (Forall_cons _ _ _) Hp) as [[p Hma] _];
    edestruct (Sync_head b now (rec1 <| er_dial_index := O |>) ma (take 15 mas) p) as (J1 & J2 & J3); [exact Hc|done|done|]; fold rec2 in J1, J2, J3.
  - by rewrite J1.
  - intros p'. rewrite Hma. intros <-%Ok_inj. done.
Qed.

(** The record a peer's addresses go to: one of the peer's own, or, when it has
    none, that under its id. *)
Lemma ingest_key_own (walk : gmap string EndpointRecord -> list (string * EndpointRecord)) (b : DialBook) (peer_id : string) :
  (forall m, walk m ≡ₚ map_to_list m) ->
  (exists rec, BookFind b (ingest_key walk b peer_id) = Some rec /\ er_peer_id rec = peer_id)
  \/ (ingest_key walk b peer_id = peer_id /\ forall key rec, BookFind b key = Some rec -> er_peer_id rec <> peer_id).
Proof.
  intros Hwalk. unfold ingest_key. set (P := fun kr : string * EndpointRecord => er_peer_id kr.2 = peer_id).
  assert (Hin : forall key rec, (key, rec) ∈ filter P (walk (endpoints_ b)) <-> er_peer_id rec = peer_id /\ BookFind b key = Some rec).
  { intros key rec. rewrite list_elem_of_filter, Hwalk, elem_of_map_to_list. done. }
  destruct (filter P (walk (endpoints_ b))) as [|[key rec] rest]; cbn [head].
  - right. split; [done|]. intros key rec Hf Hp. exact (not_elem_of_nil _ (proj2 (Hin key rec) (conj Hp Hf))).
  - left. exists rec. destruct (proj1 (Hin key rec) ltac:(by left)) as [Hp Hf]. done.
Qed.

(** C30: what a peer says of its own addresses repoints nothing.  They go to one
    record, of this peer, or, when no record is of this peer, under its id.  Any
    other record is left as it was, and so are the dials running.  The
    addresses added to that one were said by the peer, name the peer and can be
    dialed from here; those it had come first, in their order, and with a record
    there it dials what it would after [ResetDialIndex], of the same peer.  A new
    record is the peer's. *)
Theorem ingest_never_repoints (config : PeerLinkConfig) (ops : list book_op)
    (walk : gmap string EndpointRecord -> list (string * EndpointRecord)) (now : Z) (peer_id : string) (addrs : list string) :
  Forall book_op_ok ops -> peer_id <> ""%string -> (forall m, walk m ≡ₚ map_to_list m) ->
  let b := book_run (DialBook_new config) ops in
  let target := ingest_key walk b peer_id in
  let b' := IngestRemoteAddrs walk b now peer_id addrs in
  ((exists rec, BookFind b target = Some rec /\ er_peer_id rec = peer_id)
   \/ (target = peer_id /\ forall key rec, BookFind b key = Some rec -> er_peer_id rec <> peer_id))
  /\ concurrent_dials_ b' = concurrent_dials_ b
  /\ (forall key, key <> target -> BookFind b' key = BookFind b key)
  /\ (forall rec', BookFind b' target = Some rec' -> BookFind b' target <> BookFind b target ->
        let old := match BookFind b target with Some rec => er_candidates rec | None => [] end in
        exists added, er_candidates rec' = take kMaxCandidatesPerKey (old ++ added) /\ Forall (worth_having peer_id addrs) added
          /\ match BookFind (ResetDialIndex b now target) target with
             | Some reset => er_multiaddr rec' = er_multiaddr reset /\ er_peer_id rec' = er_peer_id reset
             | None => er_peer_id rec' = peer_id
             end).
Proof.
  intros Hops Hid Hwalk. cbv zeta. pose proof (book_run_ok config ops Hops) as Hb. set (b := book_run _ _) in *. clearbody b.
  split; [by apply ingest_key_own|]. set (target := ingest_key walk b peer_id). unfold IngestRemoteAddrs. rewrite bool_decide_false by done. cbv zeta. fold target.
  set (old := match BookFind b target with Some rec => er_candidates rec | None => [] end).
  assert (Hold : NoDup old /\ Forall parses old).
  { unfold old. destruct (BookFind b target) as [rec|] eqn:Hf; [|by split; constructor]. by destruct (find_good b target rec Hb Hf). }
  destruct Hold as [Hd Hp]. destruct (ingest_loop_adds peer_id addrs old Hd) as (added & -> & Hda & Hadd).
  case_bool_decide as Hne; [done|].
  assert (Hpa : Forall parses (old ++ added)).
  { apply Forall_app. split; [done|]. apply (Forall_impl _ _ _ Hadd). intros ma (_ & p & Hma & _). by exists p. }
  destruct (RegisterEndpoints_new b now target (old ++ added) Hda Hpa Hne) as (rec' & Hends & Hdials & Hc & Hhead).
  rewrite Hdials. unfold BookFind. rewrite Hends. split_and!; [done|intros key Hk; by rewrite lookup_insert_ne|].
  rewrite lookup_insert_eq. intros rec1 [= <-] _. exists added. split_and!; [done|done|].
  unfold ResetDialIndex. unfold old in *. destruct (BookFind b target) as [rec|] eqn:Hf.
  - destruct (find_good b target rec Hb Hf) as [_ _ Hps Hact _]. destruct (er_candidates rec) as [|ma rest] eqn:Hcs; [done|].
    apply Forall_cons in Hps as [[p Hma] _]. cbn in Hhead. destruct (Hhead p Hma) as [-> ->].
    cbn. rewrite lookup_insert_eq. edestruct (Sync_head b now (rec <| er_dial_index := O |>) ma rest p) as (_ & -> & ->); [exact Hcs|done|done|]. done.
  - unfold BookFind in Hf. rewrite Hf. destruct added as [|ma added]; [done|]. apply Forall_cons in Hadd as [(_ & p & Hma & Hpid & _) _].
    cbn in Hhead. destruct (Hhead p Hma) as [_ ->]. done.
Qed.

(** ** Backoff *)

Lemma double_backoff_pow n cap backoff : 0 < backoff -> 0 < cap ->
  double_backoff n cap (Z.min backoff cap) = Z.min (backoff * 2 ^ Z.of_nat n) cap.
Proof.
  revert backoff. induction n as [|n IH]; intros backoff Hb Hc; [by rewrite Z.mul_1_r|]. cbn [double_backoff].
  rewrite Nat2Z.inj_succ, Z.pow_succ_r by lia. destruct (Z.ltb_spec (Z.min backoff cap) cap).
  - rewrite Z.min_l in * by lia. rewrite IH by lia. f_equal. lia.
  - rewrite Z.min_r by lia. pose proof (Z.pow_pos_nonneg 2 (Z.of_nat n) ltac:(lia) ltac:(lia)). nia.
Qed.

Lemma ArmBackoff_fields jitter b now key : let b' := ArmBackoff jitter b now key in let failures := u32 (default 0 (dial_failures_ b !! key) + 1) in
  dial_failures_ b' = <[key := failures]> (dial_failures_ b) /\ book_config_ b' = book_config_ b
  /\ dial_failed_until_ b' = <[key := now + jitter (backoff_ms (book_config_ b) failures) * kNsPerMs]> (dial_failed_until_ b).
Proof. done. Qed.

(** Dials of a key that failed, one after another. *)
Definition fail_all (b : DialBook) (key : string) (fails : list ((Z -> Z) * Z)) : DialBook :=
  fold_left (fun b fail => ArmBackoff fail.1 b fail.2 key) fails b.
Lemma fail_all_state b key fails : dial_failures_ b !! key = None -> Z.of_nat (length fails) < 2 ^ 32 ->
  default 0 (dial_failures_ (fail_all b key fails) !! key) = Z.of_nat (length fails)
  /\ book_config_ (fail_all b key fails) = book_config_ b
  /\ forall key', key' <> key -> dial_failed_until_ (fail_all b key fails) !! key' = dial_failed_until_ b !! key'.
Proof.
  intros Hnone. induction fails as [|[jit now] fails IH] using rev_ind; [change (fail_all b key []) with b; by rewrite Hnone|]. rewrite length_app. cbn [length].
  intros Hl. destruct IH as (J1 & J2 & J3); [lia|]. unfold fail_all in *. rewrite fold_left_app. cbn [fold_left fst snd].
  set (b' := fold_left _ fails b) in *. destruct (ArmBackoff_fields jit b' now key) as (-> & -> & ->). rewrite J1. split_and!.
  - rewrite lookup_insert_eq. change (u32 (Z.of_nat (length fails) + 1) = Z.of_nat (length fails + 1)). unfold u32. rewrite Z.mod_small; lia.
  - done.
  - intros key' Hk. rewrite lookup_insert_ne by done. by apply J3.
Qed.

(** The backoff of a key doubles with each of its dials in a row that fails, up
    to the limit, with the jitter a fifth to either side: for so long the key is
    not dialed, and after it is again; [BackoffRemaining] says the same.  No other
    key waits for it, and a fresh address ends it and the count of failures. *)
Theorem backoff_doubles (b : DialBook) (key : string) (fails : list ((Z -> Z) * Z)) (jitter : Z -> Z) (now : Z) :
  let initial := dial_failure_backoff_initial (book_config_ b) in
  let cap := dial_failure_backoff (book_config_ b) in
  0 < initial -> 0 < cap -> Z.of_nat (length fails) < 2 ^ 32 - 1 -> dial_failures_ b !! key = None ->
  (forall d, 0 <= d -> 8 * d / 10 - 1 <= jitter d <= 12 * d / 10) ->
  let b' := fail_all b key (fails ++ [(jitter, now)]) in
  let wait := Z.min (initial * 2 ^ Z.of_nat (length fails)) cap in
  (forall t, t < now + (8 * wait / 10 - 1) * kNsPerMs -> InBackoff b' key t = true)
  /\ (forall t, now + 12 * wait / 10 * kNsPerMs <= t -> InBackoff b' key t = false)
  /\ (forall t, InBackoff b' key t = bool_decide (is_Some (BackoffRemaining b' key t)))
  /\ (forall t key', key' <> key -> InBackoff b' key' t = InBackoff b key' t)
  /\ (forall t ma, parses ma -> (forall rec, BookFind b' key = Some rec -> er_multiaddr rec <> ma) ->
        let fresh := (RegisterEndpoint b' now key ma).1 in InBackoff fresh key t = false /\ dial_failures_ fresh !! key = None).
Proof.
  cbv zeta. intros Hi Hc Hl Hnone Hj. set (wait := Z.min _ _).
  destruct (fail_all_state b key (fails ++ [(jitter, now)]) Hnone ltac:(rewrite length_app; cbn [length]; lia)) as (_ & _ & Hothers).
  destruct (fail_all_state b key fails Hnone ltac:(lia)) as (Hcount & Hconf & _).
  assert (Huntil : dial_failed_until_ (fail_all b key (fails ++ [(jitter, now)])) !! key = Some (now + jitter wait * kNsPerMs)).
  { unfold fail_all in *. rewrite fold_left_app. cbn [fold_left fst snd].
    set (b' := fold_left _ fails b) in *. destruct (ArmBackoff_fields jitter b' now key) as (_ & _ & ->). rewrite lookup_insert_eq, Hcount, Hconf.
    unfold u32. rewrite Z.mod_small by lia. unfold backoff_ms. cbv zeta. rewrite double_backoff_pow by done. unfold wait. repeat f_equal. lia. }
  set (b' := fail_all b key (fails ++ [(jitter, now)])) in *. clearbody b'.
  assert (Hw : 0 <= wait) by (unfold wait; pose proof (Z.pow_pos_nonneg 2 (Z.of_nat (length fails)) ltac:(lia) ltac:(lia)); nia).
  specialize (Hj wait Hw). clearbody wait. split_and!.
  - intros t Ht. unfold InBackoff. rewrite Huntil. apply Z.ltb_lt. unfold kNsPerMs in *. nia.
  - intros t Ht. unfold InBackoff. rewrite Huntil. apply Z.ltb_ge. unfold kNsPerMs in *. nia.
  - intros t. unfold InBackoff, BackoffRemaining. rewrite Huntil, Z.leb_antisym. by destruct (t <? _).
  - intros t key' Hk. unfold InBackoff. by rewrite Hothers.
  - intros t ma [p Hp] Hfresh. unfold RegisterEndpoint. rewrite Hp. cbv zeta. cbn [fst]. rewrite bool_decide_true.
    + unfold InBackoff. cbn. by rewrite !lookup_delete_eq.
    + destruct (BookFind b' key) as [rec|]; [by apply Hfresh|]. by intros <-.
Qed.
End Invariant.

(** ** Witnesses *)

Section Witness.
#[local] Existing Instance toy_inet6.

Definition toy_ma : string := "/ip4/10.0.0.7/udp/7777/adp/2/p2p/peer".
Definition toy_ma2 : string := "/ip4/10.0.0.8/udp/7777/adp/2/p2p/peer".
Definition toy_ma_other : string := "/ip4/10.0.0.9/udp/7777/adp/2/p2p/other".
Definition toy_book_ops : list book_op :=
  [OpRegister 0 "key" toy_ma; OpRegister 0 "key" toy_ma2; OpAdvance 0 "key"; OpPromote 0 "key" toy_ma; OpFailed (fun d => d) 5 "key"].
Definition toy_book : DialBook := book_run (DialBook_new PeerLinkConfig_default) toy_book_ops.
Lemma toy_book_ops_ok : Forall book_op_ok toy_book_ops.
Proof. repeat constructor. eexists. by vm_compute. Qed.
Definition toy_book_walk (m : gmap string EndpointRecord) : list (string * EndpointRecord) := map_to_list m.

Theorem dial_book_sound_witness :
  (er_candidates <$> BookFind toy_book "key") = Some [toy_ma; toy_ma2]
  /\ forall rec, BookFind toy_book "key" = Some rec -> record_ok rec /\ er_candidates rec <> [].
Proof.
  split; [by vm_compute|]. intros rec. apply (dial_book_sound PeerLinkConfig_default toy_book_ops "key" rec toy_book_ops_ok).
Defined.

Theorem ingest_never_repoints_witness :
  let addrs := [toy_ma_other; toy_ma; "/ip4/127.0.0.1/udp/1/adp/2/p2p/peer"; "/ip4/10.0.0.6/udp/7/adp/2/p2p/peer"]%string in
  (er_candidates <$> BookFind (IngestRemoteAddrs toy_book_walk toy_book 9 "peer" addrs) "key")
    = Some [toy_ma; toy_ma2; "/ip4/10.0.0.6/udp/7/adp/2/p2p/peer"]%string
  /\ concurrent_dials_ (IngestRemoteAddrs toy_book_walk toy_book 9 "peer" addrs) = concurrent_dials_ toy_book.
Proof.
  cbv zeta. split; [by vm_compute|]. match goal with |- context [IngestRemoteAddrs _ _ _ _ ?said] => set (addrs := said) end.
  destruct (ingest_never_repoints PeerLinkConfig_default toy_book_ops toy_book_walk 9 "peer" addrs toy_book_ops_ok ltac:(done) (fun m => reflexivity _)) as (_ & Hdials & _).
  exact Hdials.
Defined.

Theorem backoff_doubles_witness :
  InBackoff (fail_all toy_book "other" (replicate 2 (fun d => d, 0) ++ [(fun d => d, 100)])) "other" 3000000000 = true
  /\ InBackoff (fail_all toy_book "other" (replicate 2 (fun d => d, 0) ++ [(fun d => d, 100)])) "other" 5000000000 = false.
Proof.
  assert (Hj : forall d, 0 <= d -> 8 * d / 10 - 1 <= d <= 12 * d / 10).
  { intros d Hd. pose proof (Z.div_mod (8 * d) 10). pose proof (Z.div_mod (12 * d) 10). pose proof (Z.mod_pos_bound (8 * d) 10). pose proof (Z.mod_pos_bound (12 * d) 10). lia. }
  destruct (backoff_doubles toy_book "other" (replicate 2 (fun d => d, 0)) (fun d => d) 100 eq_refl eq_refl eq_refl
              ltac:(vm_compute; reflexivity) Hj) as (Hbusy & Hfree & _).
  split; [apply Hbusy|apply Hfree]; vm_compute; congruence.
Defined.
End Witness.
