(* ===== verification/ChannelBridge.v ===== *)
(** * Two channels spliced (src/L3/ChannelBridge.cpp, include/amp/L3/ChannelBridge.h)

    A bridge copies the data of either of two channel sessions to the other until
    one of them ends.  Sessions, multiplexers and what the closures of an [Attach]
    share are objects of a [World]; [w_in] says which multiplexer a session's
    channel is in.  A handler is its identity: those of a bridge say the [Attach]
    they come from and the side they are of.  The callback of an [Attach] is an
    event, of the [Attach] it was given to. *)

From stdpp Require Import functions.
From S2P Require Import Prelude L1Types ChannelWire ChannelPolicy ChannelMux ChannelSession.

Inductive Side := Left | Right.
#[export] Instance Side_eq_dec : EqDecision Side.
Proof. solve_decision. Defined.
Definition other (d : Side) : Side := match d with Left => Right | Right => Left end.

(** What the closures of one [Attach] hold: the sessions, the flags, the callbacks. *)
Record Splice := MkSplice {
  sp_left : option nat;
  sp_right : option nat;
  sp_user_cancel : bool;
  sp_on_closed : option nat;
  sp_cancelled : bool;
  sp_closed_fired : bool;
}.
#[export] Instance Splice_fields : Fields Splice := fun s =>
  MkSplice (sp_left s) (sp_right s) (sp_user_cancel s) (sp_on_closed s) (sp_cancelled s) (sp_closed_fired s).
Definition sp_side (sp : Splice) (d : Side) : option nat := match d with Left => sp_left sp | Right => sp_right sp end.

(** The handlers of the sides of the splice [g], odd; other handlers are even. *)
Definition bridge_handler (g : nat) (d : Side) : nat := (4 * g + match d with Left => 1 | Right => 3 end)%nat.
Definition handler_of (h : nat) : option (nat * Side) :=
  match (h mod 4)%nat with 1%nat => Some (h / 4, Left)%nat | 3%nat => Some (h / 4, Right)%nat | _ => None end.

Record World (T : Type) := MkWorld {
  w_sessions : nat -> ChannelSession;
  w_muxes : nat -> ChannelMux T;
  w_in : nat -> nat;
  w_splices : list Splice;
  w_current : option nat;
  w_forwarded : Z;
  w_closed : list (nat * nat);
}.
Arguments MkWorld {T}. Arguments w_sessions {T}. Arguments w_muxes {T}. Arguments w_in {T}. Arguments w_splices {T}.
Arguments w_current {T}. Arguments w_forwarded {T}. Arguments w_closed {T}.
#[export] Instance World_fields {T} : Fields (World T) := fun w =>
  MkWorld (w_sessions w) (w_muxes w) (w_in w) (w_splices w) (w_current w) (w_forwarded w) (w_closed w).

Section ChannelBridge.
Context {T : Type} `{MuxTransport T}.
Abbreviation Mux := (ChannelMux T).
Abbreviation W := (World T).

Definition mux_at (w : W) (i : nat) : Mux := w_muxes w (w_in w i).
Definition put (w : W) (i : nat) (sm : ChannelSession * Mux) : W :=
  w <| w_sessions ::= <[i := sm.1]> |> <| w_muxes ::= <[w_in w i := sm.2]> |>.
Definition set_splice (w : W) (g : nat) (f : Splice -> Splice) : W := w <| w_splices ::= alter f g |>.

(** [if (side && !side->IsClosed()) side->CloseQuiet()], which calls nothing. *)
Definition close_side (w : W) (side : option nat) : W :=
  match side with
  | Some i => if cs_closed (w_sessions w i) then w else put w i (CloseQuiet (w_sessions w i) (mux_at w i))
  | None => w
  end.
Definition tell_closed (w : W) (g : nat) (sp : Splice) : W :=
  match sp_on_closed sp with Some callback => w <| w_closed ::= fun l => l ++ [(g, callback)] |> | None => w end.

(** The closure that ends a splice. *)
Definition finish (w : W) (g : nat) : W :=
  match w_splices w !! g with
  | None => w
  | Some sp =>
      let w := set_splice w g (fun sp => sp <| sp_cancelled := true |>) in
      if sp_closed_fired sp then w
      else
        let w := set_splice w g (fun sp => sp <| sp_closed_fired := true |>) in
        tell_closed (close_side (close_side w (sp_left sp)) (sp_right sp)) g sp
  end.

(** A session operation, and the closed callback if it called it. *)
Definition run_closed (w : W) (events : list session_event) : W :=
  fold_left (fun w e => match e with
                        | SClosed h _ => match handler_of h with Some (g, _) => finish w g | None => w end
                        | _ => w
                        end) events w.
Definition with_session (w : W) (i : nat) (sm : ChannelSession * Mux) : W :=
  run_closed (put w i sm) (drop (length (cs_log (w_sessions w i))) (cs_log sm.1)).

(** The frame handler of the side [from]: whether to keep the session open.
    [answer] is what the check the application gave says. *)
Definition forward (w : W) (g : nat) (from : Side) (body : Roe bytes) (answer : bool) : W * bool :=
  match w_splices w !! g with
  | None => (w, false)
  | Some sp =>
      if sp_cancelled sp then (w, false)
      else if sp_user_cancel sp && answer then (set_splice w g (fun sp => sp <| sp_cancelled := true |>), false)
      else
        match body, sp_side sp (other from) with
        | Ok body, Some to =>
            if cs_closed (w_sessions w to) then (finish w g, false)
            else
              let '(sm, taken) := EnqueueOutbound (w_sessions w to) (mux_at w to) body in
              let w := with_session w to sm in
              if negb taken then (finish w g, false)
              else (w <| w_forwarded ::= fun n => u64 (n + size body) |>, true)
        | _, _ => (finish w g, false)
        end
  end.

(** Data for the session [i]: the frame handler between the halves of the
    session's own.  [keep_open] is the answer of a handler that is not a bridge's. *)
Definition OnData (w : W) (i : nat) (payload : bytes) (answer keep_open : bool) : W :=
  match DataBegin (w_sessions w i) payload, cs_on_frame (w_sessions w i) with
  | Some s, Some frame =>
      let w := put w i (s, mux_at w i) in
      let '(w, keep_open) :=
        match handler_of frame with
        | Some (g, from) => forward w g from (Ok payload) answer
        | None => (w, keep_open)
        end in
      with_session w i (DataEnd (w_sessions w i) (mux_at w i) keep_open)
  | _, _ => w
  end.

Definition Stop (w : W) : W :=
  match w_current w with
  | None => w
  | Some g => finish w g <| w_current := None |>
  end.

Definition ArmOneWay (w : W) (g : nat) (from : Side) : W :=
  match w_splices w !! g with
  | Some sp =>
      match sp_side sp from, sp_side sp (other from) with
      | Some i, Some _ =>
          let s := SetFrameHandler (w_sessions w i) (Some (bridge_handler g from)) in
          put w i (SetClosedCallback s (Some (bridge_handler g from)), mux_at w i)
      | _, _ => w
      end
  | None => w
  end.
Definition Attach (w : W) (left right : option nat) (is_cancelled : bool) (on_closed : option nat) : W :=
  let w := Stop w in
  let g := length (w_splices w) in
  let w := w <| w_splices ::= fun l => l ++ [MkSplice left right is_cancelled on_closed false false] |> <| w_current := Some g |> in
  ArmOneWay (ArmOneWay w g Left) g Right.

Definition ForwardedBytes (w : W) : Z := w_forwarded w.
End ChannelBridge.

Lemma other_ne d : other d <> d.
Proof. by destruct d. Qed.
Lemma other_other d : other (other d) = d.
Proof. by destruct d. Qed.
Lemma handler_of_bridge g d : handler_of (bridge_handler g d) = Some (g, d).
Proof.
  unfold handler_of, bridge_handler. destruct d.
  - replace (4 * g + 1)%nat with (1 + g * 4)%nat by lia. rewrite Nat.Div0.mod_add, Nat.div_add by lia. done.
  - replace (4 * g + 3)%nat with (3 + g * 4)%nat by lia. rewrite Nat.Div0.mod_add, Nat.div_add by lia. done.
Qed.

(** ** What a splice is, apart from sessions and handlers

    Two multiplexers, open until one refuses a payload. *)
Section Spec.
Context {T : Type} `{MuxTransport T}.
Definition SpliceState : Type := (Side -> ChannelMux T) * bool * Z.
Definition splice_step (channel : Side -> Z) (st : SpliceState) (ev : Side * bytes) : SpliceState :=
  let '(m, open, n) := st in
  let '(from, payload) := ev in
  let to := other from in
  if negb open then st
  else
    let '(mt, sent) := SendData (m to) (channel to) payload in
    let m := <[to := mt]> m in
    let n := u64 (n + size payload) in
    if ok sent then (m, true, n) else (<[from := (CloseChannel (m from) (channel from) []).1]> m, false, n).
End Spec.

Section Refinement.
Context {T : Type} `{MuxTransport T}.
Abbreviation W := (World T).

(** Only the other side is open when a splice ends. *)
Lemma finish_half (w : W) g sp d i j :
  w_splices w !! g = Some sp -> sp_closed_fired sp = false -> sp_side sp d = Some i -> sp_side sp (other d) = Some j ->
  cs_closed (w_sessions w j) = true -> cs_closed (w_sessions w i) = false -> cs_mux (w_sessions w i) = true ->
  let w' := finish w g in
  w_sessions w' = <[i := FinishClosed (w_sessions w i <| cs_closed := true |>) None]> (w_sessions w)
  /\ w_muxes w' = <[w_in w i := (CloseChannel (mux_at w i) (cs_channel_id (w_sessions w i)) []).1]> (w_muxes w)
  /\ w_in w' = w_in w /\ w_forwarded w' = w_forwarded w
  /\ w_splices w' !! g = Some (sp <| sp_cancelled := true |> <| sp_closed_fired := true |>)
  /\ w_closed w' = w_closed w ++ (match sp_on_closed sp with Some callback => [(g, callback)] | None => [] end).
Proof.
  intros Hsp Hfired Hi Hj Hcj Hci Hmi. cbv zeta.
  assert (Hne : i <> j) by congruence.
  assert (Hclose : CloseQuiet (w_sessions w i) (mux_at w i)
                   = (FinishClosed (w_sessions w i <| cs_closed := true |>) None, (CloseChannel (mux_at w i) (cs_channel_id (w_sessions w i)) []).1)).
  { unfold CloseQuiet, CloseWith. by rewrite Hci, Hmi. }
  unfold finish. rewrite Hsp, Hfired. cbv zeta. set (w1 := set_splice _ g _).
  assert (Hw1 : w_splices w1 !! g = Some (sp <| sp_cancelled := true |> <| sp_closed_fired := true |>)).
  { unfold w1, set_splice. cbn. by rewrite !list_lookup_alter_eq, Hsp. }
  change (w_sessions w) with (w_sessions w1) in *. change (mux_at w i) with (mux_at w1 i) in *.
  change (w_in w) with (w_in w1) in *. change (w_forwarded w) with (w_forwarded w1). change (w_closed w) with (w_closed w1).
  change (w_muxes w) with (w_muxes w1) in *. clearbody w1.
  assert (Htell : forall w0 : W, let w2 := tell_closed w0 g sp in
            w_sessions w2 = w_sessions w0 /\ w_muxes w2 = w_muxes w0 /\ w_in w2 = w_in w0 /\ w_forwarded w2 = w_forwarded w0 /\ w_splices w2 = w_splices w0
            /\ w_closed w2 = w_closed w0 ++ (match sp_on_closed sp with Some callback => [(g, callback)] | None => [] end)).
  { intros w0. unfold tell_closed. destruct (sp_on_closed sp); cbn; [done|by rewrite app_nil_r]. }
  assert (Hsides : close_side (close_side w1 (sp_left sp)) (sp_right sp) = put w1 i (CloseQuiet (w_sessions w1 i) (mux_at w1 i))).
  { destruct d; cbn [sp_side other] in Hi, Hj; rewrite Hi, Hj.
    - unfold close_side at 2. rewrite Hci. unfold close_side. cbn. rewrite fn_lookup_insert_ne by done. by rewrite Hcj.
    - unfold close_side at 2. rewrite Hcj. unfold close_side. by rewrite Hci. }
  rewrite Hsides, Hclose. destruct (Htell (put w1 i (FinishClosed (w_sessions w1 i <| cs_closed := true |>) None,
    (CloseChannel (mux_at w1 i) (cs_channel_id (w_sessions w1 i)) []).1))) as (-> & -> & -> & -> & -> & ->). done.
Qed.

Lemma FailOutbound_closed s : cs_closed (FailOutbound s) = true.
Proof. unfold FailOutbound, FinishClosed. cbn. by destruct (cs_on_closed s). Qed.
Lemma with_session_quiet (w : W) i sm : cs_log sm.1 = cs_log (w_sessions w i) -> with_session w i sm = put w i sm.
Proof. intros Hl. unfold with_session. by rewrite Hl, drop_all. Qed.

(** The two sides of a splice, and the state of it they are in. *)
Context (sess : Side -> nat) (channel : Side -> Z).
Record side_open (w : W) (g : nat) (d : Side) : Prop := {
  so_inv : session_inv (w_sessions w (sess d));
  so_closed : cs_closed (w_sessions w (sess d)) = false;
  so_mux : cs_mux (w_sessions w (sess d)) = true;
  so_channel : cs_channel_id (w_sessions w (sess d)) = channel d;
  so_once : read_once (cs_policy (w_sessions w (sess d))) = false;
  so_frame : cs_on_frame (w_sessions w (sess d)) = Some (bridge_handler g d);
  so_notice : cs_on_closed (w_sessions w (sess d)) = Some (bridge_handler g d);
}.
Definition notice_of (g : nat) (on_closed : option nat) : list (nat * nat) :=
  match on_closed with Some callback => [(g, callback)] | None => [] end.
Record splicing (w0 w : W) (g : nat) (cancel : bool) (on_closed : option nat) (st : SpliceState (T := T)) : Prop := {
  sg_in : w_in w = w_in w0;
  sg_mux : forall d, mux_at w (sess d) = st.1.1 d;
  sg_rest : (forall k, (forall d, k <> w_in w (sess d)) -> w_muxes w k = w_muxes w0 k)
            /\ forall k, (forall d, k <> sess d) -> w_sessions w k = w_sessions w0 k;
  sg_count : w_forwarded w = st.2;
  sg_open : st.1.2 = true -> (forall d, side_open w g d) /\ w_closed w = w_closed w0
            /\ w_splices w !! g = Some (MkSplice (Some (sess Left)) (Some (sess Right)) cancel on_closed false false);
  sg_over : st.1.2 = false -> (forall d, cs_closed (w_sessions w (sess d)) = true) /\ w_closed w = w_closed w0 ++ notice_of g on_closed;
}.

Lemma sides_distinct (f : Side -> nat) d : f Left <> f Right -> f (other d) <> f d.
Proof. destruct d; cbn; congruence. Qed.
Lemma side_cases (P : Side -> Prop) d : P d -> P (other d) -> forall d', P d'.
Proof. by destruct d; intros ? ? []. Qed.

Lemma note_inv s h payload : session_inv s -> cs_closed s = false -> session_inv (note (SFrame h payload) s).
Proof.
  intros Hi Ho. destruct (open_log s Hi Ho) as (frames & Hl & Hf). destruct Hi as [J1 J2 J3 _]. split; [done..|].
  exists (frames ++ [SFrame h payload]), []. cbn. rewrite Hl, app_nil_r. split_and!; [done| |by left]. apply Forall_app. split; [done|by repeat constructor].
Qed.

(** [w] is [w0] but for the sessions of the two sides and their multiplexers. *)
Record sides_are (w0 w : W) (d : Side) (si sj : ChannelSession) (mi mj : ChannelMux T) : Prop := {
  sa_in : w_in w = w_in w0;
  sa_session : w_sessions w (sess d) = si;
  sa_session' : w_sessions w (sess (other d)) = sj;
  sa_mux : mux_at w (sess d) = mi;
  sa_mux' : mux_at w (sess (other d)) = mj;
  sa_muxes : forall k, (forall d, k <> w_in w0 (sess d)) -> w_muxes w k = w_muxes w0 k;
  sa_sessions : forall k, (forall d, k <> sess d) -> w_sessions w k = w_sessions w0 k;
}.
Context (w0 : W) (Hsess : sess Left <> sess Right) (Hin : w_in w0 (sess Left) <> w_in w0 (sess Right)).

Lemma sides_set w w' d si sj mi mj s m : sides_are w0 w d si sj mi mj -> w_in w' = w_in w ->
  w_sessions w' = <[sess d := s]> (w_sessions w) -> w_muxes w' = <[w_in w (sess d) := m]> (w_muxes w) -> sides_are w0 w' d s sj m mj.
Proof.
  intros [J1 J2 J3 J4 J5 J6 J7] Hw Hs Hm.
  pose proof (sides_distinct sess d Hsess) as Hne. pose proof (sides_distinct (fun d => w_in w0 (sess d)) d Hin) as Hnm. cbn in Hnm.
  unfold mux_at in *. rewrite J1 in *. split; rewrite ?Hw; unfold mux_at; rewrite ?Hs, ?Hm, ?Hw, ?J1.
  - done.
  - by rewrite fn_lookup_insert.
  - by rewrite fn_lookup_insert_ne.
  - by rewrite fn_lookup_insert.
  - by rewrite fn_lookup_insert_ne by done.
  - intros k Hk. rewrite fn_lookup_insert_ne by (intros ?; by apply (Hk d)). by apply J6.
  - intros k Hk. rewrite fn_lookup_insert_ne by (intros ?; by apply (Hk d)). by apply J7.
Qed.
Lemma sides_flip w d si sj mi mj : sides_are w0 w d si sj mi mj -> sides_are w0 w (other d) sj si mj mi.
Proof. intros [J1 J2 J3 J4 J5 J6 J7]. split; rewrite ?other_other; done. Qed.

(** The handler when the other side takes the payload, and when it does not. *)
Lemma forward_taken w g sp d payload si sj mi mj mt :
  w_splices w !! g = Some sp -> sp_cancelled sp = false -> sp_side sp (other d) = Some (sess (other d)) ->
  sides_are w0 w d si sj mi mj -> cs_closed sj = false -> EnqueueOutbound sj mj payload = (sj, mt, true) ->
  let '(w', keep) := forward w g d (Ok payload) false in
  keep = true /\ sides_are w0 w' d si sj mi mt /\ w_forwarded w' = u64 (w_forwarded w + size payload)
  /\ w_splices w' = w_splices w /\ w_closed w' = w_closed w.
Proof.
  intros Hsp Hc Hto Hw Hj He. unfold forward. rewrite Hsp, Hc, andb_false_r, Hto, (sa_session' _ _ _ _ _ _ _ Hw), Hj, (sa_mux' _ _ _ _ _ _ _ Hw), He.
  rewrite with_session_quiet by (by rewrite (sa_session' _ _ _ _ _ _ _ Hw)). split_and!; try done.
  apply sides_flip in Hw. apply (sides_set w (put w (sess (other d)) (sj, mt)) _ _ _ _ _ sj mt) in Hw; [|done..].
  apply sides_flip in Hw. rewrite other_other in Hw. by destruct Hw.
Qed.
Lemma forward_refused w g sp d payload si sj mi mj mt :
  w_splices w !! g = Some sp -> sp_cancelled sp = false -> sp_closed_fired sp = false -> (forall d, sp_side sp d = Some (sess d)) ->
  sides_are w0 w d si sj mi mj -> cs_closed sj = false -> cs_on_closed sj = Some (bridge_handler g (other d)) ->
  cs_closed si = false -> cs_mux si = true -> EnqueueOutbound sj mj payload = (FailOutbound sj, mt, true) ->
  let '(w', keep) := forward w g d (Ok payload) false in
  keep = true
  /\ sides_are w0 w' d (FinishClosed (si <| cs_closed := true |>) None) (FailOutbound sj) (CloseChannel mi (cs_channel_id si) []).1 mt
  /\ w_forwarded w' = u64 (w_forwarded w + size payload) /\ w_closed w' = w_closed w ++ notice_of g (sp_on_closed sp).
Proof.
  intros Hsp Hc Hf Hsides Hw Hj Hnotice Hi Hmi He. unfold forward.
  rewrite Hsp, Hc, andb_false_r, Hsides, (sa_session' _ _ _ _ _ _ _ Hw), Hj, (sa_mux' _ _ _ _ _ _ _ Hw), He.
  assert (Hlog : cs_log (FailOutbound sj) = cs_log sj ++ [SClosed (bridge_handler g (other d)) "write_failed"]).
  { unfold FailOutbound, FinishClosed. cbn. by rewrite Hnotice. }
  unfold with_session. rewrite (sa_session' _ _ _ _ _ _ _ Hw). cbn [fst]. rewrite Hlog, drop_app_length. cbn [run_closed fold_left].
  rewrite handler_of_bridge. apply sides_flip in Hw. set (w1 := put w _ _). apply (sides_set w w1 _ _ _ _ _ (FailOutbound sj) mt) in Hw; [|done..].
  apply sides_flip in Hw. rewrite other_other in Hw.
  destruct (finish_half w1 g sp d (sess d) (sess (other d))) as (Es & Em & Ei & Ef & _ & Ec); rewrite ?(sa_session _ _ _ _ _ _ _ Hw), ?(sa_session' _ _ _ _ _ _ _ Hw); try done.
  { apply FailOutbound_closed. }
  rewrite (sa_session _ _ _ _ _ _ _ Hw), (sa_mux _ _ _ _ _ _ _ Hw) in *.
  apply (sides_set w1 (finish w1 g) _ _ _ _ _ _ _ Hw Ei Es) in Em. cbn [negb].
  split_and!; [done|by destruct Em|cbn; by rewrite Ef|cbn; by rewrite Ec].
Qed.

Lemma splicing_sides w g cancel on_closed st d : splicing w0 w g cancel on_closed st ->
  sides_are w0 w d (w_sessions w (sess d)) (w_sessions w (sess (other d))) (st.1.1 d) (st.1.1 (other d)).
Proof. intros [J1 J2 [J3 J4] _ _ _]. split; rewrite ?J1 in *; try done; apply J2. Qed.
Lemma sides_mux w d si sj m mt mi : sides_are w0 w d si sj mi mt ->
  mi = m d -> forall d', mux_at w (sess d') = (<[other d := mt]> m) d'.
Proof.
  intros Hw -> d'. revert d'. apply (side_cases _ d).
  - rewrite fn_lookup_insert_ne by apply other_ne. apply (sa_mux _ _ _ _ _ _ _ Hw).
  - rewrite fn_lookup_insert. apply (sa_mux' _ _ _ _ _ _ _ Hw).
Qed.

Lemma DataEnd_closed s (m : ChannelMux T) keep : cs_closed s = true -> DataEnd s m keep = (s, m).
Proof. intros Hc. unfold DataEnd. by rewrite Hc. Qed.

(** A payload, taken or refused on the other side. *)
Lemma splice_simulates w g cancel on_closed st from payload : splicing w0 w g cancel on_closed st ->
  splicing w0 (OnData w (sess from) payload false true) g cancel on_closed (splice_step channel st (from, payload)).
Proof.
  intros Hs. pose proof (splicing_sides _ _ _ _ _ from Hs) as Hw. destruct Hs as [_ Hmux Hrest Hcount Hopen Hover].
  destruct st as [[m open] n]. cbn in *. destruct open; cbn [negb].
  2:{ destruct (Hover eq_refl) as [Hc Hnote]. unfold OnData, DataBegin. rewrite Hc. split; try done. apply Hw. }
  destruct (Hopen eq_refl) as (Hside & Hnote & Hsp). clear Hopen Hover Hmux Hrest.
  set (sp := MkSplice _ _ _ _ _ _) in Hsp. assert (Hsides : forall d, sp_side sp d = Some (sess d)) by (by intros []).
  destruct (Hside from) as [Ii Ci Mi Chi Oi Fi Ni]. destruct (Hside (other from)) as [Ij Cj Mj Chj Oj Fj Nj].
  unfold OnData, DataBegin. rewrite Ci, Fi. cbv zeta. rewrite handler_of_bridge. set (s1 := note _ _).
  assert (Is1 : session_inv s1) by (by apply note_inv).
  set (w1 := put w (sess from) _). apply (sides_set w w1 _ _ _ _ _ s1 (m from)) in Hw; [|done|done|]. 2:{ cbn. by rewrite (sa_mux _ _ _ _ _ _ _ Hw). }
  pose proof (EnqueueOutbound_open _ (m (other from)) payload Ij Cj Mj) as He. rewrite Chj in He.
  destruct (SendData (m (other from)) (channel (other from)) payload) as [mt sent]. destruct (ok sent).
  - pose proof (forward_taken w1 g sp from payload _ _ _ _ mt Hsp eq_refl (Hsides _) Hw Cj He) as Hf.
    destruct (forward w1 g from (Ok payload) false) as [w2 keep]. destruct Hf as (-> & Hw2 & Hn2 & Hsp2 & Hc2).
    unfold DataEnd. rewrite (sa_session _ _ _ _ _ _ _ Hw2). change (cs_closed s1) with (cs_closed (w_sessions w (sess from))).
    change (cs_policy s1) with (cs_policy (w_sessions w (sess from))). rewrite Ci, Oi. cbn [negb andb orb].
    rewrite with_session_quiet by (by rewrite (sa_session _ _ _ _ _ _ _ Hw2)). rewrite (sa_mux _ _ _ _ _ _ _ Hw2).
    set (w3 := put w2 _ _). apply (sides_set w2 w3 _ _ _ _ _ s1 (m from)) in Hw2; [|done..].
    change (w_forwarded w2) with (w_forwarded w3) in Hn2. change (w_closed w2) with (w_closed w3) in Hc2. change (w_splices w2) with (w_splices w3) in Hsp2.
    clearbody w3. split; cbn; try done; try apply Hw2.
    + by apply (sides_mux w3 from s1 _ m mt _ Hw2).
    + split; intros k Hk; [apply (sa_muxes _ _ _ _ _ _ _ Hw2)|by apply (sa_sessions _ _ _ _ _ _ _ Hw2)].
      intros d Hd. apply (Hk d). by rewrite (sa_in _ _ _ _ _ _ _ Hw2).
    + by rewrite Hn2, <- Hcount.
    + intros _. rewrite Hc2, Hsp2. split_and!; [|done|done].
      pose proof (sa_session _ _ _ _ _ _ _ Hw2) as S1. pose proof (sa_session' _ _ _ _ _ _ _ Hw2) as S2.
      apply (side_cases _ from); split; rewrite ?S1, ?S2; done.
  - pose proof (forward_refused w1 g sp from payload _ _ _ _ mt Hsp eq_refl eq_refl Hsides Hw Cj Nj Ci Mi He) as Hf.
    destruct (forward w1 g from (Ok payload) false) as [w2 keep]. destruct Hf as (-> & Hw2 & Hn2 & Hc2).
    rewrite DataEnd_closed by (by rewrite (sa_session _ _ _ _ _ _ _ Hw2)).
    rewrite with_session_quiet by done. rewrite (sa_session _ _ _ _ _ _ _ Hw2), (sa_mux _ _ _ _ _ _ _ Hw2).
    set (s2 := FinishClosed _ None) in *. assert (C2 : cs_closed s2 = true) by done. clearbody s2.
    set (mi := (CloseChannel (m from) _ []).1) in *. set (w3 := put w2 _ _). apply (sides_set w2 w3 _ _ _ _ _ s2 mi) in Hw2; [|done..].
    change (w_forwarded w2) with (w_forwarded w3) in Hn2. change (w_closed w2) with (w_closed w3) in Hc2.
    clearbody w3. split; cbn; try done; try apply Hw2.
    + intros d. rewrite (fn_lookup_insert_ne m (other from) from) by apply other_ne. rewrite <- Chi. change (cs_channel_id (w_sessions w (sess from))) with (cs_channel_id s1).
      fold mi. revert d. apply (side_cases _ from).
      * rewrite fn_lookup_insert. apply Hw2.
      * rewrite fn_lookup_insert_ne by (intros E; by apply (other_ne from)). rewrite fn_lookup_insert. apply Hw2.
    + split; intros k Hk; [apply (sa_muxes _ _ _ _ _ _ _ Hw2)|by apply (sa_sessions _ _ _ _ _ _ _ Hw2)].
      intros d Hd. apply (Hk d). by rewrite (sa_in _ _ _ _ _ _ _ Hw2).
    + by rewrite Hn2, <- Hcount.
    + intros _. split; [|by rewrite Hc2, <- Hnote].
      apply (side_cases _ from); [rewrite (sa_session _ _ _ _ _ _ _ Hw2); done|rewrite (sa_session' _ _ _ _ _ _ _ Hw2); apply FailOutbound_closed].
Qed.

(** Arming a fresh bridge. *)
Lemma Attach_splicing cancel on_closed : w_current w0 = None ->
  (forall d, let s := w_sessions w0 (sess d) in session_inv s /\ cs_closed s = false /\ cs_mux s = true
     /\ cs_channel_id s = channel d /\ read_once (cs_policy s) = false) ->
  splicing w0 (Attach w0 (Some (sess Left)) (Some (sess Right)) cancel on_closed) (length (w_splices w0)) cancel on_closed
    (fun d => mux_at w0 (sess d), true, w_forwarded w0).
Proof.
  intros Hfresh Hopen. unfold Attach, Stop. rewrite Hfresh. cbv zeta. set (g := length (w_splices w0)).
  set (sp := MkSplice _ _ _ _ _ _). set (w1 := w0 <| w_splices ::= _ |> <| w_current := Some g |>).
  assert (Hsp : w_splices w1 !! g = Some sp) by (apply list_lookup_middle; done).
  set (armed := fun d => w_sessions w0 (sess d) <| cs_on_frame := Some (bridge_handler g d) |> <| cs_on_closed := Some (bridge_handler g d) |>).
  assert (H0' : sides_are w0 w1 Left (w_sessions w0 (sess Left)) (w_sessions w0 (sess Right)) (mux_at w0 (sess Left)) (mux_at w0 (sess Right))) by done.
  unfold ArmOneWay at 2. rewrite Hsp. cbn [sp_side sp other sp_left sp_right]. set (w2 := put w1 _ _).
  apply (sides_set w1 w2 _ _ _ _ _ (armed Left) (mux_at w0 (sess Left))) in H0'; [|done..].
  unfold ArmOneWay. change (w_splices w2) with (w_splices w1). rewrite Hsp. cbn [sp_side sp other sp_left sp_right]. set (w3 := put w2 _ _).
  apply sides_flip in H0'. cbn [other] in H0'.
  apply (sides_set w2 w3 _ _ _ _ _ (armed Right) (mux_at w0 (sess Right))) in H0'; [|done| |].
  2:{ cbn. by rewrite (fn_lookup_insert_ne (w_sessions w0) (sess Left) (sess Right)). }
  2:{ unfold w3, put, mux_at. cbn. by rewrite (fn_lookup_insert_ne (w_muxes w0)). }
  assert (Hs : forall d, w_sessions w3 (sess d) = armed d).
  { apply (side_cases _ Right); [apply (sa_session _ _ _ _ _ _ _ H0')|apply (sa_session' _ _ _ _ _ _ _ H0')]. }
  assert (Hc : w_closed w3 = w_closed w0 /\ w_splices w3 !! g = Some sp /\ w_forwarded w3 = w_forwarded w0) by done.
  clearbody w3. destruct Hc as (Hc & Hsp3 & Hn). split; try done; try apply H0'.
  - apply (side_cases _ Right); [apply (sa_mux _ _ _ _ _ _ _ H0')|apply (sa_mux' _ _ _ _ _ _ _ H0')].
  - split; intros k Hk; [apply (sa_muxes _ _ _ _ _ _ _ H0')|by apply (sa_sessions _ _ _ _ _ _ _ H0')].
    intros d Hd. apply (Hk d). by rewrite (sa_in _ _ _ _ _ _ _ H0').
  - intros _. split_and!; [|done|done]. intros d. destruct (Hopen d) as ([J1 J2 J3 J4] & K1 & K2 & K3 & K4).
    split; rewrite Hs; try done.
Qed.
End Refinement.

(** C27: a bridge copies.  A fresh bridge attached to two open sessions of two
    multiplexers, whatever data comes to either, in whatever order: each payload
    goes to the channel of the other side whole, once, in the order it came, and
    is counted; the first that is refused there ends the splice: both sessions are
    closed, the closed callback is called once, and nothing is copied after.  No
    other session or multiplexer is touched. *)
Theorem bridge_copies {T : Type} `{MuxTransport T} (w : World T) (sess : Side -> nat) (cancel : bool) (on_closed : option nat)
    (events : list (Side * bytes)) :
  sess Left <> sess Right -> w_in w (sess Left) <> w_in w (sess Right) -> w_current w = None ->
  (forall d, let s := w_sessions w (sess d) in
     session_inv s /\ cs_closed s = false /\ cs_mux s = true /\ read_once (cs_policy s) = false) ->
  let w' := fold_left (fun w ev => OnData w (sess ev.1) ev.2 false true) events
              (Attach w (Some (sess Left)) (Some (sess Right)) cancel on_closed) in
  let '(m, open, n) := fold_left (splice_step (fun d => cs_channel_id (w_sessions w (sess d)))) events
                         (fun d => mux_at w (sess d), true, w_forwarded w) in
  (forall d, mux_at w' (sess d) = m d /\ cs_closed (w_sessions w' (sess d)) = negb open)
  /\ ForwardedBytes w' = n
  /\ w_closed w' = w_closed w ++ (if open then [] else notice_of (length (w_splices w)) on_closed)
  /\ (forall k, (forall d, k <> w_in w (sess d)) -> w_muxes w' k = w_muxes w k)
  /\ forall k, (forall d, k <> sess d) -> w_sessions w' k = w_sessions w k.
Proof.
  intros Hsess Hin Hfresh Hopen. cbv zeta. set (channel := fun d => cs_channel_id (w_sessions w (sess d))).
  pose proof (Attach_splicing sess channel w Hsess Hin cancel on_closed Hfresh) as Ha.
  specialize (Ha ltac:(intros d; by destruct (Hopen d) as (?&?&?&?))). revert Ha.
  generalize (Attach w (Some (sess Left)) (Some (sess Right)) cancel on_closed), (fun d => mux_at w (sess d), true, w_forwarded w).
  induction events as [|[from payload] events IH]; intros w1 st Hst; cbn [fold_left fst snd].
  - destruct st as [[m open] n]. destruct Hst as [J1 J2 [J3 J4] J5 J6 J7]. cbn in *. rewrite J1 in J3. destruct open; cbn.
    + destruct (J6 eq_refl) as (Hside & -> & _). split_and!; try done; [intros d; split; [done|apply (Hside d)]|by rewrite app_nil_r].
    + destruct (J7 eq_refl) as [Hc ->]. split_and!; try done.
  - apply IH. by apply splice_simulates.
Qed.

(** ** Witness: a transport that keeps what it is given, until told to refuse *)

Section Witness.
#[local] Instance toy_bridge_transport : MuxTransport (list bytes) := {|
  transport_send := fun sent _ wire => (sent ++ [wire], Ok tt);
  transport_credits := fun _ => Some 10;
|}.
Definition toy_bridge_channel : ChannelRecord :=
  ChannelRecord_default <| ch_id := 1 |> <| policy := MakeBulkChannelPolicy |> <| state := ChannelOpen |>
    <| reassembly := ReassemblyFor MakeBulkChannelPolicy |>.
Definition toy_bridge_mux : ChannelMux (list bytes) :=
  ChannelMux_new true [] <| transport_set := true |> <| channels_ := {[1 := toy_bridge_channel]} |>.
Definition toy_bridge_bound : ChannelSession * ChannelMux (list bytes) :=
  Bind 0 ChannelSession_new toy_bridge_mux 1 MakeBulkChannelPolicy None None.
Definition toy_bridge_world : World (list bytes) :=
  MkWorld (fun _ => toy_bridge_bound.1) (fun _ => toy_bridge_bound.2) (fun i => i) [] None 0 [].
Definition toy_bridge_sides (d : Side) : nat := match d with Left => 0 | Right => 1 end.
(** The right channel is gone when the second payload comes: what is left after
    is not copied. *)
Definition toy_bridge_gone : World (list bytes) :=
  toy_bridge_world <| w_muxes ::= <[1%nat := toy_bridge_bound.2 <| channels_ := ∅ |>]> |>.

Theorem bridge_copies_witness :
  let run w := fold_left (fun w ev => OnData w (toy_bridge_sides ev.1) ev.2 false true) [(Left, [1; 2]); (Right, [3]); (Left, [4])]
                 (Attach w (Some 0%nat) (Some 1%nat) false (Some 9%nat)) in
  (ForwardedBytes (run toy_bridge_world) = 4 /\ length (transport (mux_at (run toy_bridge_world) 1)) = 2%nat)
  /\ w_closed (run toy_bridge_gone) = [(0, 9)]%nat /\ cs_closed (w_sessions (run toy_bridge_gone) 0) = true.
Proof.
  split; [by vm_compute|].
  assert (Hopen : forall d, let s := w_sessions toy_bridge_gone (toy_bridge_sides d) in
     session_inv s /\ cs_closed s = false /\ cs_mux s = true /\ read_once (cs_policy s) = false).
  { intros d. split; [by apply Bind_inv|done]. }
  destruct (bridge_copies toy_bridge_gone toy_bridge_sides false (Some 9%nat) [(Left, [1; 2]); (Right, [3]); (Left, [4])]
              ltac:(done) ltac:(done) eq_refl Hopen) as (Hsides & _ & Hclosed & _).
  split; [exact Hclosed|exact (proj2 (Hsides Left))].
Defined.
End Witness.
