(* ===== verification/ManagedLink.v ===== *)
(** * What the manager of links works on (include/amp/link/LinkEvents.h, PeerLinkManager.h, PeerLink.h)

    The events and the errors of the manager, and the interface it asks of a
    link: what it reads of one, what it does to one ([LinkAction]), and the calls
    that may end an establishment ([LinkCall]), which give back the callback that
    was called and with what.  A link is owned by the manager's table and is
    changed by its own connection as well: to the manager, any change that keeps
    the laws. *)

From S2P Require Import Prelude L1Types Connection ChannelWire Capability ChannelPolicy ChannelMux MshAdpHandshake LinkPolicy LinkWire LinkTable.

(** ** Events *)

Inductive LinkDropReason :=
  | DropUnknown | ConnectionClosed | ConnectionDead | DropCarrierClosed | DropDualDialLost | DropHandshakeFailed
  | HandshakeTimeout | DropTransportFailed | DialAborted | Displaced | Requested | NetworkChanged | LocalShutdown
  | IdleEvicted | Unresponsive | DropVersionMismatch.
#[export] Instance LinkDropReason_eq_dec : EqDecision LinkDropReason.
Proof. solve_decision. Defined.
Definition LinkDropReasonName (reason : LinkDropReason) : string :=
  match reason with
  | IdleEvicted => "idle-evicted"
  | Unresponsive => "unresponsive"
  | DropVersionMismatch => "version-mismatch"
  | DropUnknown => "unknown"
  | ConnectionClosed => "connection-closed"
  | ConnectionDead => "connection-dead"
  | DropCarrierClosed => "carrier-closed"
  | DropDualDialLost => "dual-dial-lost"
  | DropHandshakeFailed => "handshake-failed"
  | HandshakeTimeout => "handshake-timeout"
  | DropTransportFailed => "transport-failed"
  | DialAborted => "dial-aborted"
  | Displaced => "displaced"
  | Requested => "requested"
  | NetworkChanged => "network-changed"
  | LocalShutdown => "local-shutdown"
  end.

Inductive LinkPathKind := Direct | Punched | PathCarrier.
Inductive LinkEventKind := EventConnected | EventDropped | PathChanged | DialFailed.
#[export] Instance LinkEventKind_eq_dec : EqDecision LinkEventKind.
Proof. solve_decision. Defined.
Definition LinkEventKindName (kind : LinkEventKind) : string :=
  match kind with
  | EventConnected => "connected"
  | EventDropped => "dropped"
  | PathChanged => "path-changed"
  | DialFailed => "dial-failed"
  end.

Record LinkEvent := MkLinkEvent {
  le_kind : LinkEventKind;
  le_handle : LinkHandle;
  le_dial_key : string;
  le_peer_id : string;
  le_transport : TransportClass;
  le_path_kind : LinkPathKind;
  le_outbound : bool;
  le_remote : option IpEndpoint;
  le_previous_remote : option IpEndpoint;
  le_reason : LinkDropReason;
  le_was_connected : bool;
  le_last_rx_age_ms : Z;
  le_keepalive_interval_ms : Z;
}.
#[export] Instance LinkEvent_fields : Fields LinkEvent := fun e =>
  MkLinkEvent (le_kind e) (le_handle e) (le_dial_key e) (le_peer_id e) (le_transport e) (le_path_kind e) (le_outbound e)
    (le_remote e) (le_previous_remote e) (le_reason e) (le_was_connected e) (le_last_rx_age_ms e) (le_keepalive_interval_ms e).
Definition LinkEvent_default : LinkEvent :=
  MkLinkEvent EventConnected (MkLinkHandle 0 0) "" "" Adp Direct false None None DropUnknown false (-1) 0.

(** ** Errors *)

Inductive ManagerErr :=
  | EndpointNotRegistered | DialInBackoff | TooManyConcurrentDials | MaxLinksReached | AssociationNotReady | LinkNotFound
  | NestedCarrierIncomplete | MgrDialTimeout | MgrHandshakeFailed | MgrTransportFailed | MgrDualDialLost
  | ChannelOpenFailed | MgrVersionMismatch | MgrGeneric.
#[export] Instance ManagerErr_eq_dec : EqDecision ManagerErr.
Proof. solve_decision. Defined.
Record ManagerFailure := MgrOf { mf_code : ManagerErr; mf_message : string }.
Abbreviation MgrRoe := (Result ManagerFailure unit).

Definition WrapPeerLinkFailure (child : LinkFailure) : ManagerFailure :=
  let wrap code detail := MgrOf code (AppendFrom detail "link" (lf_message child)) in
  match lf_code child with
  | LinkWire.DialTimeout => wrap MgrDialTimeout "amp link manager: dial timeout"%string
  | LinkWire.DualDialLost => wrap MgrDualDialLost "amp link manager: dual-dial lost"%string
  | LinkWire.VersionMismatch => wrap MgrVersionMismatch "amp link manager: version mismatch"%string
  | LinkWire.HandshakeFailed => wrap MgrHandshakeFailed "amp link manager: handshake failed"%string
  | LinkWire.TransportUnavailable => wrap MgrTransportFailed "amp link manager: transport unavailable"%string
  | LinkWire.TransportFailed | LinkWire.NoConnection | LinkWire.CarrierClosed | LinkWire.CarrierEnqueueFailed =>
      wrap MgrTransportFailed "amp link manager: transport failed"%string
  | LinkWire.NotConnected => wrap AssociationNotReady "amp link manager: association not ready"%string
  | _ => wrap MgrGeneric "amp link manager: link error"%string
  end.
Definition WrapPeerLinkResult (child : LinkRoe) : MgrRoe :=
  match child with Ok _ => Ok tt | Fail e => Fail (WrapPeerLinkFailure e) end.

Definition DropReasonFor (failure : ManagerFailure) : LinkDropReason :=
  match mf_code failure with
  | MgrDialTimeout => HandshakeTimeout
  | MgrDualDialLost => DropDualDialLost
  | MgrHandshakeFailed => DropHandshakeFailed
  | MgrTransportFailed => DropTransportFailed
  | MgrVersionMismatch => DropVersionMismatch
  | _ => DropUnknown
  end.
Definition IsAssociationNotReady (failure : ManagerFailure) : bool := bool_decide (mf_code failure = AssociationNotReady).

(** ** The interface of a link *)

(** The callbacks a manager gives to [StartOutboundHandshake] and
    [StartInboundHandshake]: of a dial, of an accepted link, of a nested one. *)
Inductive EstablishCb :=
  | OnDial (peer_key : string) (handle : LinkHandle)
  | OnInbound (handle : LinkHandle)
  | OnNested (peer_key : string) (handle : LinkHandle).

(** The UDP association of a link, as the manager reads it. *)
Record ConnView := MkConnView {
  cv_closed : bool;
  cv_peer_closed : bool;
  cv_unreachable : bool;
  cv_version_mismatch : bool;
  cv_wire_versions : list Z;
  cv_last_rx : Z;
  cv_alive : Z -> bool;
  cv_local_keepalive : Z;
  cv_peer_keepalive : Z;
  cv_peer : IpEndpoint;
  cv_stats : ConnectionStats;
}.
(** The carrier of a nested link; [cr_mux] is the link whose multiplexer it is in. *)
Record CarrierView := MkCarrierView {
  cr_closed : bool;
  cr_mux : option Z;
}.

(** A handler of a protocol: the application's, or the manager's own that accepts
    carriers.  On one link it captures the link and its peer. *)
Inductive HandlerRef := AppHandler (handler : nat) | NestedAccept.
Record ProtocolClosure := MkProtocolClosure {
  pc_handle : LinkHandle;
  pc_remote : string;
  pc_handler : option HandlerRef;
}.

Inductive LinkAction :=
  (* of the link *)
  | ActMarkPunched | ActMarkWarm | ActMarkHot | ActClearWarm | ActStopKeepaliveIfUnheld
  | ActSendKeepalive (now_ms interval_ms : Z) | ActSendProbe (now_ms : Z)
  | ActMarkSuspect (now_ms : Z) | ActMarkVerifying (now_ms : Z) | ActClearSuspect | ActDemote
  | ActApplyCapability (payload : CapabilityPayload) | ActApplyExtension (extension : CapabilityExtension)
  | ActMarkExtensionSent | ActMarkExchangeStarted | ActMarkOfferSent | ActSessionControl (payload : bytes)
  (* of its connection *)
  | ActWatchPath (on : bool) | ActOffMessage | ActCloseConnection
  (* of its carrier *)
  | ActReleaseCarrier | ActOrphanCarrier
  (* of its multiplexer *)
  | ActSetTuning (tuning : MuxTuning) | ActClearProtocolHandlers
  | ActSetProtocolHandler (protocol : bytes) (closure : option ProtocolClosure) | ActRefuseUnhandled (refuse : bool)
  | ActCapabilityHandler (peer_key : string) | ActSendData (channel : Z) (payload : bytes)
  | ActCapabilityOffer (offer : CapabilityPayload) | ActMuxTick (now_ms : Z) | ActDetachChannels
  | ActBind (channel : Z) (policy : ChannelPolicy) (on_frame on_closed : option nat).

Inductive LinkCall :=
  | CallStart (cb : EstablishCb) (draw : Draw)
  | CallStartInbound (cb : EstablishCb)
  | CallFailTimeout
  | CallFailRefused
  | CallFailVersion (versions : list Z)
  | CallTickHandshake (now_ms : Z)
  | CallTickLane (now_ms : Z).

Class ManagedLink (L K C : Type) `{TableLink L} := {
  ml_outbound : L -> bool;
  ml_punched : L -> bool;
  ml_conn : L -> option ConnView;
  ml_carrier : L -> option CarrierView;
  ml_lane_failed : L -> bool;
  ml_started_ms : L -> Z;
  ml_tier : L -> KeepaliveTier;
  ml_last_keepalive_tx : L -> Z;
  ml_suspect_since : L -> Z;
  ml_suspect_from_verify : L -> bool;
  ml_last_probe : L -> Z;
  ml_capability : L -> option CapabilityPayload;
  ml_extension : L -> option CapabilityExtension;
  ml_extension_sent : L -> bool;
  ml_exchange_started : L -> bool;
  ml_offer_sent : L -> bool;
  ml_has_mux : L -> bool;
  ml_channel : L -> Z -> ChannelState;
  ml_in_use : L -> bool;
  ml_open_channels : L -> gmap bytes nat -> gmap bytes nat;
  ml_do : LinkAction -> L -> L;
  ml_call : LinkCall -> L -> L * option (EstablishCb * LinkRoe);
  ml_open : L -> bytes -> ChannelPolicy -> L * Roe Z;
  (* [PeerLink]'s constructors, over a connection and over a carrier *)
  ml_adp : string -> string -> bool -> K -> L;
  ml_nested : string -> string -> bool -> C -> L;
  (* a session bound to a channel of this link, to be a carrier *)
  ml_bind_carrier : L -> Z -> ChannelPolicy -> L * C;
}.
Section ManagedLink.
Context {L K C : Type} `{ManagedLink L K C}.
Definition ml_backed (l : L) : bool := bool_decide (tl_transport l = Carrier).
Definition link_id (l : L) : Z := lh_id (tl_handle l).
Definition is_phase (p : PeerLinkPhase) (l : L) : bool := bool_decide (tl_phase l = p).
(** A handshake runs, or is about to. *)
Definition dialing (l : L) : bool := is_phase Handshaking l || is_phase Dialing l.
(** The association is closed: the link is left for the tick to drop. *)
Definition conn_gone (l : L) : bool :=
  match ml_conn l with Some conn => negb (ml_backed l) && cv_closed conn | None => false end.

(** What a change of a link keeps, but for a start: no association comes back, and
    no handshake starts. *)
Record keeps (l l' : L) : Prop := {
  kp_transport : tl_transport l' = tl_transport l;
  kp_outbound : ml_outbound l' = ml_outbound l;
  kp_gone : conn_gone l = true -> conn_gone l' = true;
  kp_phase : tl_phase l' = tl_phase l \/ dialing l' = false;
  kp_started : ml_started_ms l' = ml_started_ms l;
}.
#[export] Instance keeps_preorder : PreOrder keeps.
Proof.
  split; [by split; auto|]. intros l1 l2 l3 [T1 O1 G1 P1 S1] [T2 O2 G2 P2 S2]. split; [congruence|congruence|auto| |congruence].
  destruct P2 as [E|]; [|by right]. destruct P1 as [E1|D]; [left; congruence|right].
  unfold dialing, is_phase in *. by rewrite E.
Qed.
End ManagedLink.
Definition starts (c : LinkCall) : bool := match c with CallStart _ _ | CallStartInbound _ => true | _ => false end.
Definition fails (c : LinkCall) : bool := match c with CallFailTimeout | CallFailRefused | CallFailVersion _ => true | _ => false end.

(** What the manager relies on: nothing it does to a link changes its handle and key
    but what is there for it; only a start begins a handshake; a demotion and the
    failing calls end it; a close closes. *)
Class ManagedLinkLaws (L K C : Type) `{ManagedLink L K C} := {
  ml_table_laws :: TableLinkLaws L;
  ml_do_handle a l : tl_handle (ml_do a l) = tl_handle l;
  ml_do_key a l : tl_key (ml_do a l) = tl_key l;
  ml_do_peer a l : tl_peer (ml_do a l) = tl_peer l;
  ml_do_keeps a l : keeps l (ml_do a l);
  ml_do_phase a l : a <> ActDemote -> tl_phase (ml_do a l) = tl_phase l;
  ml_demote_phase l : tl_phase (ml_do ActDemote l) <> Connected /\ dialing (ml_do ActDemote l) = false;
  ml_close_gone l : ml_backed l = false -> is_Some (ml_conn l) -> conn_gone (ml_do ActCloseConnection l) = true;
  ml_call_handle c l : tl_handle (ml_call c l).1 = tl_handle l;
  ml_call_key c l : tl_key (ml_call c l).1 = tl_key l;
  ml_call_same c l : tl_transport (ml_call c l).1 = tl_transport l /\ ml_outbound (ml_call c l).1 = ml_outbound l;
  ml_call_keeps c l : starts c = false -> keeps l (ml_call c l).1;
  ml_call_fails c l : fails c = true -> dialing (ml_call c l).1 = false;
  ml_open_handle l p q : tl_handle (ml_open l p q).1 = tl_handle l;
  ml_open_key l p q : tl_key (ml_open l p q).1 = tl_key l;
  ml_open_keeps l p q : keeps l (ml_open l p q).1;
  ml_bind_handle l c q : tl_handle (ml_bind_carrier l c q).1 = tl_handle l;
  ml_bind_key l c q : tl_key (ml_bind_carrier l c q).1 = tl_key l;
  ml_bind_keeps l c q : keeps l (ml_bind_carrier l c q).1;
  ml_rebind_keeps l key : keeps l (tl_rebind l key);
  ml_identity_same l id g : tl_transport (tl_set_identity l id g) = tl_transport l /\ ml_outbound (tl_set_identity l id g) = ml_outbound l;
  ml_adp_new key peer out k : let l := ml_adp key peer out k in
    link_id l = 0 /\ tl_transport l = Adp /\ ml_outbound l = out;
  ml_nested_new key peer out c : let l := ml_nested key peer out c in
    link_id l = 0 /\ tl_transport l = Carrier /\ ml_outbound l = out;
}.

(** The socket a manager dials from: [SetTuning] and [SetAcceptKey], and [Open] with
    the id to mint. *)
Class DialEndpoint (E K : Type) := {
  ep_configure : E -> AdpTuning -> PeerKey -> E;
  ep_open : E -> OpenParams -> AssocId -> E * Roe K;
  ep_conn_id : K -> AssocId;
}.
