(* ===== verification/PeerLinkManager.v ===== *)
(** * The manager of links (src/link/PeerLinkManager.cpp, include/amp/link/PeerLinkManager.h)

    Dials, accepts, adopts and drops the links of a node.  Links are objects of the
    table, with the interface [ManagedLink]; a [PeerLink*] of the code is a link as
    it is read, and what is done to it goes through the table by its id.  [amp_now]
    is the endpoint's clock, in milliseconds, [steady_now] the steady clock, in
    nanoseconds.  Callbacks of the application are their identities; calls of them
    and completions posted are events of [mgr_log], and a posted completion runs
    as a later operation ([RunLinkCb]).  The order of hash tables is that of [walk]. *)

From Stdlib Require Import Ascii.
From stdpp Require Import pretty.
From S2P Require Import Prelude L1Types Connection ChannelWire Capability SessionControl ChannelPolicy ChannelMux MshAdpHandshake AdpMultiaddr LinkPolicy LinkWire LinkTable DialBook ManagedLink.

Definition kMinIdleForEvictionMs : Z := 1000.
Definition kAmpCircuitCarrierProtocolId : bytes := bytes_of_string "/pp-amp/circuit-carrier/1.0.0".
Definition string_of_bytes (b : bytes) : string := String.string_of_list_ascii (map (fun z => ascii_of_N (Z.to_N z)) b).

(** ** State *)

(** A callback that waits for an association: the application's, or the closure of
    an [OpenChannel] that dials first. *)
Inductive LinkCb :=
  | AppCb (cb : option nat)
  | OpenChannelCb (peer_key : string) (protocol_id : bytes) (policy : ChannelPolicy) (cb : option nat).

Record ChannelOpenWaiter := MkChannelOpenWaiter {
  cw_key : string;
  cw_link : LinkHandle;
  cw_channel_id : Z;
  cw_deadline_ms : Z;
  cw_done : option nat;
}.

Inductive mgr_event :=
  | MgCall (cb : nat) (result : MgrRoe)
  | MgChannel (cb : nat) (result : Result ManagerFailure Z)
  | MgPostWaiters (waiters : list LinkCb) (result : MgrRoe)
  | MgPostVerify (waiters : list nat) (alive : bool)
  | MgPostChannelOpen (cb : nat) (open : bool)
  | MgPostPeerConnected (listeners : list nat) (peer_id : string)
  | MgPostEvent (listeners : list nat) (event : LinkEvent)
  | MgCapability (handle : LinkHandle) (peer_id : string) (payload : CapabilityPayload)
  | MgResolve (host : string) (family : HostFamily) (port : Z) (peer_key multiaddr : string)
  | MgProtocol (handler : nat) (handle : LinkHandle) (remote : string) (channel : Z)
  | MgChannelNotices (handle : LinkHandle).

Record Manager (L E : Type) := MkManager {
  endpoint_ : E;
  amp_now : Z;
  steady_now : Z;
  local_peer_id_ : string;
  book_ : DialBook;
  table_ : LinkTable L;
  local_listen_multiaddrs_ : list bytes;
  advertised_protocols_ : list bytes;
  advertised_node_version_ : bytes;
  advertised_features_ : list bytes;
  capability_handler_ : bool;
  listen_addr_disclosure_ : option (string -> bool);
  peer_connected_listeners_ : gmap Z nat;
  next_peer_connected_listener_id_ : Z;
  link_event_listeners_ : gmap Z nat;
  next_link_event_listener_id_ : Z;
  connected_link_ids_ : gset Z;
  pending_keepalive_tiers_ : gmap string KeepaliveTier;
  nested_carrier_accept_ : bool;
  nested_carrier_protocol_id_ : bytes;
  protocol_handlers_ : gmap bytes (option HandlerRef);
  mgr_refuse_unhandled_opens_ : bool;
  inflight_associations_ : gmap string (list LinkCb);
  nested_waiters_ : gmap Z (list LinkCb);
  verify_waiters_ : gmap Z (list nat);
  last_error_ : gmap string ManagerFailure;
  suppress_dial_backoff_ : gset string;
  pending_drops_ : list (LinkHandle * LinkDropReason);
  pending_candidate_retry_ : list string;
  host_resolver_ : bool;
  resolving_ : gset string;
  pending_alias_adopt_ : list (string * string);
  channel_open_waiters_ : list ChannelOpenWaiter;
  mgr_log : list mgr_event;
}.
Arguments MkManager {L E}.
Arguments endpoint_ {L E}. Arguments amp_now {L E}. Arguments steady_now {L E}. Arguments local_peer_id_ {L E}.
Arguments book_ {L E}. Arguments table_ {L E}. Arguments local_listen_multiaddrs_ {L E}.
Arguments advertised_protocols_ {L E}. Arguments advertised_node_version_ {L E}.
Arguments advertised_features_ {L E}. Arguments capability_handler_ {L E}. Arguments listen_addr_disclosure_ {L E}.
Arguments peer_connected_listeners_ {L E}. Arguments next_peer_connected_listener_id_ {L E}.
Arguments link_event_listeners_ {L E}. Arguments next_link_event_listener_id_ {L E}.
Arguments connected_link_ids_ {L E}. Arguments pending_keepalive_tiers_ {L E}.
Arguments nested_carrier_accept_ {L E}. Arguments nested_carrier_protocol_id_ {L E}.
Arguments protocol_handlers_ {L E}. Arguments mgr_refuse_unhandled_opens_ {L E}.
Arguments inflight_associations_ {L E}. Arguments nested_waiters_ {L E}. Arguments verify_waiters_ {L E}.
Arguments last_error_ {L E}. Arguments suppress_dial_backoff_ {L E}. Arguments pending_drops_ {L E}.
Arguments pending_candidate_retry_ {L E}. Arguments host_resolver_ {L E}. Arguments resolving_ {L E}.
Arguments pending_alias_adopt_ {L E}. Arguments channel_open_waiters_ {L E}. Arguments mgr_log {L E}.
#[export] Instance Manager_fields {L E} : Fields (Manager L E) := fun m =>
  MkManager (endpoint_ m) (amp_now m) (steady_now m) (local_peer_id_ m) (book_ m) (table_ m)
    (local_listen_multiaddrs_ m) (advertised_protocols_ m) (advertised_node_version_ m) (advertised_features_ m)
    (capability_handler_ m) (listen_addr_disclosure_ m) (peer_connected_listeners_ m)
    (next_peer_connected_listener_id_ m) (link_event_listeners_ m) (next_link_event_listener_id_ m)
    (connected_link_ids_ m) (pending_keepalive_tiers_ m) (nested_carrier_accept_ m) (nested_carrier_protocol_id_ m)
    (protocol_handlers_ m) (mgr_refuse_unhandled_opens_ m) (inflight_associations_ m) (nested_waiters_ m)
    (verify_waiters_ m) (last_error_ m) (suppress_dial_backoff_ m) (pending_drops_ m) (pending_candidate_retry_ m)
    (host_resolver_ m) (resolving_ m) (pending_alias_adopt_ m) (channel_open_waiters_ m) (mgr_log m).

(** The randomness of a dial: two ids to mint, and the handshake's. *)
Record DialDraw := MkDialDraw { dd_id : AssocId; dd_remint : AssocId; dd_draw : Draw }.

(** What a snapshot of a link tells. *)
Record PeerLinkSnapshot := MkPeerLinkSnapshot {
  sn_phase : PeerLinkPhase;
  sn_backoff_remaining : Z;
  sn_detail : string;
  sn_has_endpoint : bool;
  sn_carrier_backed : bool;
  sn_multiaddr : string;
}.
#[export] Instance PeerLinkSnapshot_fields : Fields PeerLinkSnapshot := fun s =>
  MkPeerLinkSnapshot (sn_phase s) (sn_backoff_remaining s) (sn_detail s) (sn_has_endpoint s) (sn_carrier_backed s) (sn_multiaddr s).
Definition PeerLinkSnapshot_default : PeerLinkSnapshot := MkPeerLinkSnapshot Unavailable 0 "" false false "".

Record LinkSnapshotEx := MkLinkSnapshotEx {
  sx_base : PeerLinkSnapshot;
  sx_handle : LinkHandle;
  sx_dial_key : string;
  sx_peer_id : string;
  sx_transport : TransportClass;
  sx_path_kind : LinkPathKind;
  sx_remote : option IpEndpoint;
  sx_last_rx_age_ms : Z;
}.

Section PeerLinkManager.
Context {L K C E : Type} `{ManagedLink L K C} `{DialEndpoint E K} `{Inet6} `{GenericHash}.
Context (walk_ids : forall A, gmap Z A -> list (Z * A)) (walk_keys : forall A, gmap string A -> list (string * A)).
Context (walk_protocols : gmap bytes (option HandlerRef) -> list (bytes * option HandlerRef)).
Context (jitter : Z -> Z).
Abbreviation M := (Manager L E).

Definition Manager_new (endpoint : E) (local_peer_id : string) (config : PeerLinkConfig) : M :=
  MkManager (ep_configure endpoint (adp config) PreSessionPeerKey) 0 0 local_peer_id (DialBook_new config) LinkTable_new
    [] [] [] [] false None ∅ 1 ∅ 1 ∅ ∅ false [] ∅ false ∅ ∅ ∅ ∅ ∅ [] [] false ∅ [] [] [].

Definition config_ (m : M) : PeerLinkConfig := book_config_ (book_ m).
Definition log (e : mgr_event) (m : M) : M := m <| mgr_log ::= fun l => l ++ [e] |>.
Definition walk_links (t : gmap Z L) : list L := (walk_ids L t).*2.
Definition links (m : M) : list L := walk_links (by_id_ (table_ m)).
(** The first link [ForEach] meets that satisfies [p]. *)
Definition find_link (p : L -> bool) (m : M) : option L := head (filter (fun l => p l = true) (links m)).

(** What is done to a link through its pointer. *)
Definition act (m : M) (id : Z) (a : LinkAction) : M := m <| table_ ::= fun t => Update t id (ml_do a) |>.
Definition acts (m : M) (id : Z) (l : list LinkAction) : M := fold_left (fun m a => act m id a) l m.
(** [ForEach], over the links there are when it starts. *)
Definition each (f : M -> L -> M) (m : M) : M :=
  fold_left (fun m l => match FindById (table_ m) (link_id l) with Some l => f m l | None => m end) (links m) m.

(** ** Finding links *)

Definition FindLink (m : M) (peer_key : string) : option L :=
  or_else (FindByDialKey (table_ m) peer_key) (FindByPeerId walk_links (table_ m) peer_key Adp).
Definition FindLinkByPeerId (m : M) (peer_id : string) : option L := FindByPeerId walk_links (table_ m) peer_id Adp.

Definition FindAdpLinkForKey (m : M) (key : string) : option L :=
  let scan := find_link (fun l => negb (ml_backed l) && bool_decide (tl_key l = key)) m in
  match FindByDialKey (table_ m) key with
  | Some occupant => if negb (ml_backed occupant) then Some occupant else scan
  | None => scan
  end.
Definition FindNestedLinkForKey (m : M) (key : string) : option L :=
  let scan := find_link (fun l => ml_backed l && bool_decide (tl_key l = key)) m in
  match FindByDialKey (table_ m) key with
  | Some occupant => if ml_backed occupant then Some occupant else scan
  | None => scan
  end.

Definition FindConnectedLinkByPeerId (m : M) (peer_id : string) (transport : TransportClass) : option L :=
  if bool_decide (peer_id = "") then None
  else find_link (fun l => is_phase Connected l && bool_decide (tl_transport l = transport) && bool_decide (tl_peer l = peer_id)) m.
Definition FindConnectedLinkForPeerId (m : M) (peer_id : string) : option L :=
  match FindByPeerId walk_links (table_ m) peer_id Adp with
  | Some l => if is_phase Connected l then Some l else None
  | None => None
  end.
Definition FindAnyConnectedLinkForRemotePeerId (m : M) (remote_peer_id : string) : option L :=
  if bool_decide (remote_peer_id = "") then None
  else find_link (fun l => is_phase Connected l && bool_decide (tl_peer l = remote_peer_id)) m.
Definition FindConnectedInboundLink (m : M) : option L :=
  find_link (fun l => negb (ml_outbound l) && is_phase Connected l) m.

Definition PeerIdForKeyLocked (m : M) (peer_key : string) : string :=
  let by_book := match BookFind (book_ m) peer_key with
                 | Some ep => if bool_decide (er_peer_id ep = "") then peer_key else er_peer_id ep
                 | None => peer_key
                 end in
  match FindByDialKey (table_ m) peer_key with
  | Some occupant => if bool_decide (tl_peer occupant = "") then by_book else tl_peer occupant
  | None => by_book
  end.

Definition ResolveConnectedLink (m : M) (peer_key : string) : option L :=
  if bool_decide (peer_key = "") then None
  else
    let best :=
      let peer_id := PeerIdForKeyLocked m peer_key in
      let pick_of backed := find_link (fun l => is_phase Connected l && bool_decide (tl_peer l = peer_id) && Bool.eqb (ml_backed l) backed) m in
      or_else (pick_of false) (pick_of true) in
    match FindByDialKey (table_ m) peer_key with
    | Some occupant => if is_phase Connected occupant then Some occupant else best
    | None => best
    end.
Definition ResolveLinkLocked (m : M) (peer_key : string) : option L :=
  or_else (ResolveConnectedLink m peer_key) (FindLink m peer_key).

Definition CountConnectedLinksForPeerId (m : M) (peer_id : string) : Z :=
  if bool_decide (peer_id = "") then 0
  else size (filter (fun l => tl_phase l = Connected /\ tl_peer l = peer_id) (links m)).
Definition CountLinks (m : M) : Z := table_size (table_ m).
Definition IsConnected (m : M) (peer_key : string) : bool := bool_decide (is_Some (ResolveConnectedLink m peer_key)).

Definition live_connected (m : M) (id : option Z) : bool :=
  match id with
  | Some id => match FindById (table_ m) id with Some l => is_phase Connected l | None => false end
  | None => false
  end.
Definition IsConnectedToPeerId (m : M) (peer_id : string) : bool :=
  if bool_decide (peer_id = "") then false
  else match pp_adp (Presence (table_ m) peer_id) with
  | Some id => match FindById (table_ m) id with Some l => is_phase Connected l && negb (ml_backed l) | None => false end
  | None => false
  end.
Definition IsReachable (m : M) (peer_id : string) : bool :=
  if bool_decide (peer_id = "") then false
  else
    let presence := Presence (table_ m) peer_id in
    live_connected m (pp_adp presence) || live_connected m (pp_carrier presence)
    || bool_decide (is_Some (FindConnectedLinkForPeerId m peer_id)).

Definition ElectDualDialWinner (m : M) (ex cand : L) : Elected :=
  Elect (MkLinkView (ml_outbound ex) (tl_peer ex)) (MkLinkView (ml_outbound cand) (tl_peer cand)) (local_peer_id_ m).

(** ** Events *)

Definition PathKindOf (l : L) : LinkPathKind :=
  if ml_backed l then PathCarrier else if ml_punched l then Punched else Direct.
Definition MakeLinkEvent (kind : LinkEventKind) (l : L) : LinkEvent :=
  let event := LinkEvent_default <| le_kind := kind |> <| le_handle := tl_handle l |> <| le_dial_key := tl_key l |>
    <| le_peer_id := tl_peer l |> <| le_transport := tl_transport l |> <| le_path_kind := PathKindOf l |>
    <| le_outbound := ml_outbound l |> in
  match ml_conn l with
  | Some conn => if ml_backed l then event else event <| le_remote := Some (cv_peer conn) |>
  | None => event
  end.
Definition EmitLinkEvent (m : M) (event : LinkEvent) : M :=
  match (walk_ids nat (link_event_listeners_ m)).*2 with
  | [] => m
  | listeners => log (MgPostEvent listeners event) m
  end.
Definition AnswerVerifyWaiters (m : M) (id : Z) (alive : bool) : M :=
  match verify_waiters_ m !! id with
  | None => m
  | Some waiters => log (MgPostVerify waiters alive) (m <| verify_waiters_ ::= delete id |>)
  end.

(** The callback of the connection's path. *)
Definition OnPathChange (m : M) (handle : LinkHandle) (from to : IpEndpoint) : M :=
  match FindLive (table_ m) handle with
  | None => m
  | Some live => EmitLinkEvent m (MakeLinkEvent PathChanged live <| le_previous_remote := Some from |> <| le_remote := Some to |>)
  end.
Definition WatchPathChanges (m : M) (id : Z) : M :=
  match FindById (table_ m) id with
  | Some l => if bool_decide (ml_conn l = None) || ml_backed l then m else act m id (ActWatchPath true)
  | None => m
  end.

Definition HasBurstDialFor (m : M) (peer_id : string) : bool :=
  negb (bool_decide (peer_id = ""))
  && existsb (fun '(key, record) => IsEphemeralDialKey key && bool_decide (er_peer_id record = peer_id))
       (walk_keys _ (endpoints_ (book_ m))).

(** ** Dropping links *)

Definition LinkCb_error (code : ManagerErr) (message : string) : MgrRoe := Fail (MgrOf code message).

(** What the event of a drop says of the association. *)
Definition dropped_event (m : M) (l : L) (reason : LinkDropReason) : LinkEvent :=
  let event := MakeLinkEvent EventDropped l <| le_reason := reason |>
                 <| le_was_connected := bool_decide (link_id l ∈ connected_link_ids_ m) |> in
  match ml_conn l with
  | Some conn =>
      if ml_backed l then event
      else
        let event := if 0 <? cv_last_rx conn then event <| le_last_rx_age_ms := amp_now m - cv_last_rx conn |> else event in
        event <| le_keepalive_interval_ms := Z.max (cv_local_keepalive conn) (cv_peer_keepalive conn) |>
  | None => event
  end.

(** The carriers of other links in the multiplexer that dies. *)
Definition orphan_carriers (m : M) (id : Z) : M :=
  each (fun m other =>
          if link_id other =? id then m
          else match ml_carrier other with
          | Some carrier => if bool_decide (cr_mux carrier = Some id) then act m (link_id other) ActOrphanCarrier else m
          | None => m
          end) m.

Definition DropLinkNow (m : M) (live : L) (reason : LinkDropReason) : M :=
  let id := link_id live in
  let dropped := dropped_event m live reason in
  let m := m <| connected_link_ids_ ::= fun ids => ids ∖ {[id]} |> in
  let m := match ml_conn live with
           | Some conn =>
               if ml_backed live then m
               else acts m id ([ActWatchPath false; ActOffMessage] ++ (if cv_closed conn then [] else [ActCloseConnection]))
           | None => m
           end in
  let m := match ml_carrier live with Some _ => act m id ActReleaseCarrier | None => m end in
  let m := if ml_has_mux live then acts (orphan_carriers m id) id [ActClearProtocolHandlers; ActDetachChannels] else m in
  let m := m <| table_ ::= fun t => EraseById t id |> in
  let m := if ml_has_mux live then log (MgChannelNotices (tl_handle live)) m else m in
  let m := match nested_waiters_ m !! id with
           | Some waiters => log (MgPostWaiters waiters (LinkCb_error MgrTransportFailed "amp link: nested link dropped"))
                               (m <| nested_waiters_ ::= delete id |>)
           | None => m
           end in
  AnswerVerifyWaiters (EmitLinkEvent m dropped) id false.

Definition DropLink (m : M) (peer_key : string) (reason : LinkDropReason) : M :=
  match FindByDialKey (table_ m) peer_key with Some l => DropLinkNow m l reason | None => m end.
Definition DropLinkByHandle (m : M) (handle : LinkHandle) (reason : LinkDropReason) : M :=
  match FindLive (table_ m) handle with Some l => DropLinkNow m l reason | None => m end.
Definition ScheduleDropHandle (m : M) (handle : LinkHandle) (reason : LinkDropReason) : M :=
  m <| pending_drops_ ::= fun l => l ++ [(handle, reason)] |>.
Definition ScheduleDropLink (m : M) (peer_key : string) (reason : LinkDropReason) : M :=
  match FindByDialKey (table_ m) peer_key with Some l => ScheduleDropHandle m (tl_handle l) reason | None => m end.
Definition ScheduleAdoptDialAlias (m : M) (remote_peer_id dial_alias : string) : M :=
  if bool_decide (remote_peer_id = "") || bool_decide (dial_alias = "") then m
  else m <| pending_alias_adopt_ ::= fun l => l ++ [(remote_peer_id, dial_alias)] |>.

Definition RequestDropLink (m : M) (peer_key : string) : M * Z :=
  let note (keys : list string) (l : option L) :=
    match l with
    | Some l => if ml_backed l then keys else if bool_decide (tl_key l ∈ keys) then keys else keys ++ [tl_key l]
    | None => keys
    end in
  let keys := note (note [] (FindLink m peer_key)) (FindLinkByPeerId m peer_key) in
  (fold_left (fun m key => ScheduleDropLink m key Requested) keys m, size keys).

Definition CloseAllLinks (m : M) : M * Z :=
  let handles backed := map tl_handle (filter (fun l => ml_backed l = backed) (links m)) in
  let todo := handles true ++ handles false in
  let m := m <| pending_drops_ := [] |> in
  fold_left (fun '(m, dropped) handle =>
               match FindLive (table_ m) handle with
               | Some l => (DropLinkNow m l LocalShutdown, dropped + 1)
               | None => (m, dropped)
               end) todo (m, 0).

(** ** Capacity *)

Definition AtLinkCapacityLocked (m : M) : bool :=
  let closed := size (filter (fun l => conn_gone l = true) (links m)) in
  max_links (config_ m) <=? table_size (table_ m) - closed.

(** An inbound link that may be evicted, and when it was last heard. *)
Definition evictable (m : M) (l : L) : option Z :=
  match ml_conn l with
  | Some conn =>
      if ml_outbound l || ml_backed l || negb (is_phase Connected l) || cv_closed conn || negb (bool_decide (ml_tier l = TierNone))
      then None
      else if ml_has_mux l && ml_in_use l then None
      else if amp_now m - cv_last_rx conn <? kMinIdleForEvictionMs then None
      else Some (cv_last_rx conn)
  | None => None
  end.
Definition oldest_idle (m : M) : option (L * Z) :=
  fold_left (fun oldest l =>
               match evictable m l with
               | Some rx => match oldest with
                            | Some (_, oldest_rx) => if rx <? oldest_rx then Some (l, rx) else oldest
                            | None => Some (l, rx)
                            end
               | None => oldest
               end) (links m) None.
Definition EvictIdleInboundLocked (m : M) : M * bool :=
  match oldest_idle m with
  | None => (m, false)
  | Some (oldest, _) => (ScheduleDropHandle (act m (link_id oldest) ActCloseConnection) (tl_handle oldest) IdleEvicted, true)
  end.

(** ** Identities and aliases *)

Definition AssignLinkIdentity (m : M) (l : L) : M * L :=
  if LinkId_valid (link_id l) then (m, l)
  else
    let '(t, id) := AllocId (table_ m) in
    let '(t, generation) := NextGeneration t in
    (m <| table_ := t |>, tl_set_identity l id generation).
Definition insert_link (m : M) (l : L) : M * L :=
  let '(m, l) := AssignLinkIdentity m l in
  let '(t, l) := Insert (table_ m) l in
  (m <| table_ := t |>, l).

(** A link of the table has its identity already. *)
Definition ApplyProtocolHandlers (m : M) (id : Z) : M :=
  match FindById (table_ m) id with
  | Some l =>
      if negb (ml_has_mux l) then m
      else acts m id ([ActRefuseUnhandled (mgr_refuse_unhandled_opens_ m); ActClearProtocolHandlers]
                      ++ map (fun '(protocol, handler) => ActSetProtocolHandler protocol
                                (Some (MkProtocolClosure (tl_handle l) (tl_peer l) handler)))
                           (walk_protocols (protocol_handlers_ m)))
  | None => m
  end.
Definition RefreshPresence (m : M) (id : Z) : M :=
  match FindById (table_ m) id with
  | Some l =>
      if bool_decide (tl_peer l = "") || negb (is_phase Connected l) then m
      else m <| table_ ::= fun t => SetPresence t (tl_peer l) (tl_transport l) id |>
  | None => m
  end.

Definition BindDialAlias (m : M) (id : Z) (to_key : string) : M :=
  match FindById (table_ m) id with
  | None => m
  | Some link =>
      if bool_decide (tl_key link = to_key) then m
      else
        let bind m :=
          let '(t, bound) := BindDialKey (table_ m) id to_key in
          let m := m <| table_ := t |> in
          if negb bound then m else ApplyProtocolHandlers m id in
        if ContainsDialKey (table_ m) to_key then
          match FindByDialKey (table_ m) to_key with
          | Some occupant =>
              if negb (is_phase Connected occupant) && negb (link_id occupant =? id)
              then bind (DropLink m to_key Displaced)
              else if negb (link_id occupant =? id) then m
              else bind m
          | None => bind m
          end
        else bind m
  end.

(** The dial alias the book has for the peer of an accepted link. *)
Definition free_alias (m : M) (remote : string) (except : option string) : option string :=
  fst <$> head (filter (fun '(alias, rec) => er_peer_id rec = remote /\ IsEphemeralDialKey alias = false
                          /\ ContainsDialKey (table_ m) alias = false /\ Some alias <> except)
                  (walk_keys _ (endpoints_ (book_ m)))).
Definition adopt_alias (m : M) (l : L) (except : option string) : M :=
  if ml_outbound l then m
  else match free_alias m (tl_peer l) except with Some alias => BindDialAlias m (link_id l) alias | None => m end.

(** Another Connected link to the peer of [candidate], the first there is. *)
Definition find_duplicate (m : M) (cand : L) : option L :=
  find_link (fun l => negb (link_id l =? link_id cand) && is_phase Connected l && bool_decide (tl_peer l = tl_peer cand)) m.

Definition AdoptInboundOrDropDuplicate (m : M) (cand : L) : M * bool :=
  if bool_decide (tl_peer cand = "") then (m, true)
  else
    match find_duplicate m cand with
    | None => (adopt_alias m cand None, true)
    | Some ex =>
        if negb (Bool.eqb (ml_backed ex) (ml_backed cand)) then (m, true)
        else
          match ElectDualDialWinner m ex cand with
          | existing => (m, false)
          | candidate =>
              let m := acts m (link_id ex) ((if ml_has_mux ex then [ActClearProtocolHandlers] else []) ++ [ActDemote]) in
              let m := ScheduleDropLink m (tl_key ex) DropDualDialLost in
              (adopt_alias m cand (Some (tl_key cand)), true)
          end
    end.

(** ** Capabilities *)

Definition LocalCapability (m : M) : CapabilityPayload :=
  MkCapabilityPayload (bytes_of_string (local_peer_id_ m)) (local_listen_multiaddrs_ m) (advertised_protocols_ m).
Definition CapabilityFor (m : M) (l : L) : CapabilityPayload :=
  let payload := LocalCapability m in
  match listen_addr_disclosure_ m with
  | Some disclose => if disclose (tl_peer l) then payload
                     else MkCapabilityPayload (Capability.local_peer_id payload) [] (protocols payload)
  | None => payload
  end.

Definition SendCapabilityExtension (m : M) (id : Z) : M :=
  match FindById (table_ m) id with
  | Some l =>
      if ml_extension_sent l || negb (ml_has_mux l) || negb (bool_decide (ml_channel l kCapabilityChannelId = ChannelOpen)) then m
      else
        match EncodeExtension (MkCapabilityExtension kWireVersion (advertised_node_version_ m) (advertised_features_ m)) with
        | Ok encoded => acts m id [ActMarkExtensionSent; ActSendData kCapabilityChannelId encoded]
        | Fail _ => m
        end
  | None => m
  end.

Definition StartCapabilityExchange (m : M) (id : Z) : M :=
  match FindById (table_ m) id with
  | Some l =>
      if negb (ml_has_mux l) then m
      else
        let m := act m id (ActCapabilityHandler (tl_key l)) in
        if ml_exchange_started l then m
        else
          let m := act m id ActMarkExchangeStarted in
          if negb (ml_outbound l) then m
          else acts m id [ActMarkOfferSent; ActCapabilityOffer (CapabilityFor m l)]
  | None => m
  end.

Definition IngestRemoteCapabilityAddrs (m : M) (l : L) (remote : CapabilityPayload) : M :=
  let peer_id := if bool_decide (tl_peer l = "") then string_of_bytes (Capability.local_peer_id remote) else tl_peer l in
  if bool_decide (peer_id = "") then m
  else m <| book_ ::= fun b => IngestRemoteAddrs (walk_keys EndpointRecord) b (steady_now m) peer_id
                                 (map string_of_bytes (listen_multiaddrs remote)) |>.

Definition OnCapabilityData (m : M) (peer_key : string) (payload : bytes) : M :=
  match FindLink m peer_key with
  | None => m
  | Some l =>
      let id := link_id l in
      if negb (ml_has_mux l) then m
      else if IsExtension payload then
        match DecodeExtension payload with
        | Ok extension => act m id (ActApplyExtension extension)
        | Fail _ => m
        end
      else
        match DecodeCapability payload with
        | Fail _ => m
        | Ok decoded =>
            let first := bool_decide (ml_capability l = None) in
            let m := act m id (ActApplyCapability decoded) in
            let m :=
              if ml_offer_sent l then m
              else
                let m := act m id ActMarkOfferSent in
                match EncodeCapability (CapabilityFor m l) with
                | Ok encoded => if bool_decide (ml_channel l kCapabilityChannelId = ChannelOpen)
                                then act m id (ActSendData kCapabilityChannelId encoded) else m
                | Fail _ => m
                end in
            let m := SendCapabilityExtension m id in
            if first then
              let m := IngestRemoteCapabilityAddrs m l decoded in
              if capability_handler_ m then log (MgCapability (tl_handle l) (tl_peer l) decoded) m else m
            else m
        end
  end.
Definition OnCh0Data (m : M) (peer_key : string) (payload : bytes) : M :=
  if LooksLike payload then
    match FindLink m peer_key with Some l => act m (link_id l) (ActSessionControl payload) | None => m end
  else OnCapabilityData m peer_key payload.

Definition RemoteCapabilityExtension (m : M) (peer_id : string) : option CapabilityExtension :=
  match FindByPeerId walk_links (table_ m) peer_id Adp with
  | Some l => if is_phase Connected l then ml_extension l else None
  | None => None
  end.

(** ** Keeping alive *)

Definition ManagerMarkWarm (m : M) (peer_key : string) : M :=
  match FindLink m peer_key with
  | Some l => act m (link_id l) ActMarkWarm
  | None =>
      let pending := default TierNone (pending_keepalive_tiers_ m !! peer_key) in
      m <| pending_keepalive_tiers_ ::= <[peer_key := if bool_decide (pending = TierHot) then TierHot else TierWarm]> |>
  end.
Definition ManagerMarkHot (m : M) (peer_key : string) : M :=
  match FindLink m peer_key with
  | Some l => act m (link_id l) ActMarkHot
  | None => m <| pending_keepalive_tiers_ ::= <[peer_key := TierHot]> |>
  end.
Definition ManagerClearWarm (m : M) (peer_key : string) : M :=
  let m := m <| pending_keepalive_tiers_ ::= delete peer_key |> in
  match FindLink m peer_key with Some l => act m (link_id l) ActClearWarm | None => m end.

Definition ApplyPendingKeepaliveTier (m : M) (id : Z) : M :=
  match FindById (table_ m) id with
  | Some l =>
      let take_key '(m, tier) key :=
        if bool_decide (key = ""%string) then (m, tier)
        else match pending_keepalive_tiers_ m !! key with
        | Some t => (m <| pending_keepalive_tiers_ ::= delete key |>, tier_max tier t)
        | None => (m, tier)
        end in
      let '(m, tier) := fold_left take_key [tl_key l; tl_peer l] (m, TierNone) in
      match tier with
      | TierHot => act m id ActMarkHot
      | TierWarm => if bool_decide (ml_tier l = TierNone) then act m id ActMarkWarm else m
      | TierNone => m
      end
  | None => m
  end.

Definition MaybeSendKeepalives (m : M) (now_ms : Z) : M :=
  each (fun m l =>
          if negb (is_phase Connected l) || ml_backed l then m
          else match ml_tier l with
          | TierNone => act m (link_id l) ActStopKeepaliveIfUnheld
          | tier =>
              let interval_ms := if bool_decide (tier = TierHot) then keepalive_hot_interval (config_ m)
                                 else keepalive_warm_interval (config_ m) in
              if interval_ms <=? 0 then m
              else if negb (ml_last_keepalive_tx l =? 0) && (now_ms - ml_last_keepalive_tx l <? interval_ms) then m
              else act m (link_id l) (ActSendKeepalive now_ms (u32 interval_ms))
          end) m.

Definition OnNetworkChanged (m : M) : M * Z :=
  let now := amp_now m in
  let judged l := is_phase Connected l && negb (ml_backed l) && negb (bool_decide (ml_conn l = None)) in
  let probed := size (filter (fun l => judged l = true) (links m)) in
  let m := m <| book_ ::= ClearAllBackoff |> in
  (each (fun m l => if judged l then acts m (link_id l) [ActMarkSuspect now; ActSendProbe now] else m) m, probed).

(** [done] is set. *)
Definition VerifyLink (m : M) (peer_key : string) (heard_within : Z) (done : nat) : M :=
  let answer alive := log (MgPostVerify [done] alive) m in
  match ResolveConnectedLink m peer_key with
  | None => answer false
  | Some l =>
      match ml_backed l, ml_conn l with
      | false, Some conn =>
          let now := amp_now m in
          if (0 <? cv_last_rx conn) && (now - cv_last_rx conn <=? heard_within) then answer true
          else
            let m := m <| verify_waiters_ ::= partial_alter (fun w => Some (default [] w ++ [done])) (link_id l) |> in
            if ml_suspect_since l =? 0 then acts m (link_id l) [ActMarkVerifying now; ActSendProbe now] else m
      | _, _ => answer true
      end
  end.

(** ** Establishment *)

Definition DeriveRemotePeerId (m : M) (identity_public_key : bytes) : string :=
  match peer_id_from_identity (config_ m) with
  | Some f => f identity_public_key
  | None => IdentityPublicKeyFingerprint identity_public_key
  end.

Definition PostPeerConnected (m : M) (peer_id : string) : M :=
  if bool_decide (peer_id = "") then m
  else match (walk_ids nat (peer_connected_listeners_ m)).*2 with
  | [] => m
  | listeners => log (MgPostPeerConnected listeners peer_id) m
  end.

(** [on_established] of the link [id]: whether it is kept. *)
Definition OnLinkEstablished (m : M) (id : Z) : M * bool :=
  match FindById (table_ m) id with
  | None => (m, false)
  | Some l =>
      let m := if ml_has_mux l then act m id (ActSetTuning (mux (config_ m))) else m in
      let m := if negb (ml_backed l)
                  && (IsEphemeralDialKey (tl_key l) || (negb (ml_outbound l) && HasBurstDialFor m (tl_peer l)))
               then act m id ActMarkPunched else m in
      let '(m, kept) := AdoptInboundOrDropDuplicate m l in
      if negb kept then (if ml_has_mux l then act m id ActClearProtocolHandlers else m, false)
      else
        let m := ApplyProtocolHandlers m id in
        let m := RefreshPresence m id in
        let m := m <| connected_link_ids_ ::= fun ids => {[id]} ∪ ids |> in
        let m := ApplyPendingKeepaliveTier m id in
        let m := WatchPathChanges m id in
        let m := match FindById (table_ m) id with Some l => EmitLinkEvent m (MakeLinkEvent EventConnected l) | None => m end in
        let m := if ml_backed l then m else StartCapabilityExchange m id in
        (PostPeerConnected m (tl_peer l), true)
  end.

(** ** Channels *)

Definition tell_channel (m : M) (cb : option nat) (result : Result ManagerFailure Z) : M :=
  match cb with Some cb => log (MgChannel cb result) m | None => m end.

Definition OpenChannelOnLink (m : M) (l : L) (protocol_id : bytes) (policy : ChannelPolicy) (on_complete : option nat) : M :=
  if negb (is_phase Connected l) || negb (ml_has_mux l)
  then tell_channel m on_complete (Fail (MgrOf AssociationNotReady "amp link: association not ready"))
  else
    let channel_id := (ml_open l protocol_id policy).2 in
    let m := m <| table_ ::= fun t => Update t (link_id l) (fun l => (ml_open l protocol_id policy).1) |> in
    tell_channel m on_complete
      (match channel_id with Ok id => Ok id | Fail e => Fail (MgrOf ChannelOpenFailed (error_message e)) end).

(** A waiter of an association runs, with the outcome. *)
Definition RunLinkCb (m : M) (cb : LinkCb) (result : MgrRoe) : M :=
  match cb with
  | AppCb (Some cb) => log (MgCall cb result) m
  | AppCb None => m
  | OpenChannelCb peer_key protocol_id policy cb =>
      match result with
      | Fail e => tell_channel m cb (Fail e)
      | Ok _ =>
          match ResolveConnectedLink m peer_key with
          | None => tell_channel m cb (Fail (MgrOf AssociationNotReady "amp link: association not ready"))
          | Some l => OpenChannelOnLink m l protocol_id policy cb
          end
      end
  end.

Definition SetMgrProtocolHandler (m : M) (protocol_id : bytes) (handler : option HandlerRef) : M :=
  each (fun m l => ApplyProtocolHandlers m (link_id l)) (m <| protocol_handlers_ ::= <[protocol_id := handler]> |>).
Definition SetMgrRefuseUnhandledOpens (m : M) (refuse : bool) : M :=
  each (fun m l => if ml_has_mux l then act m (link_id l) (ActRefuseUnhandled refuse) else m)
    (m <| mgr_refuse_unhandled_opens_ := refuse |>).
Definition RemoveProtocolHandler (m : M) (protocol_id : bytes) : M :=
  each (fun m l => if ml_has_mux l then act m (link_id l) (ActSetProtocolHandler protocol_id None) else m)
    (m <| protocol_handlers_ ::= delete protocol_id |>).
Definition MgrClearProtocolHandlers (m : M) : M :=
  each (fun m l => if ml_has_mux l then act m (link_id l) ActClearProtocolHandlers else m)
    (m <| protocol_handlers_ := ∅ |>).

Definition WhenChannelOpen (m : M) (peer_key : string) (channel_id deadline_ms : Z) (done : option nat) : M :=
  let pinned := match ResolveConnectedLink m peer_key with Some live => tl_handle live | None => MkLinkHandle 0 0 end in
  m <| channel_open_waiters_ ::= fun l => l ++ [MkChannelOpenWaiter peer_key pinned channel_id deadline_ms done] |>.
Definition WhenChannelOpenOnLink (m : M) (link : LinkHandle) (channel_id deadline_ms : Z) (done : option nat) : M :=
  m <| channel_open_waiters_ ::= fun l => l ++ [MkChannelOpenWaiter "" link channel_id deadline_ms done] |>.
Definition WhenChannelOpenIn (m : M) (peer_key : string) (channel_id remaining : Z) (done : option nat) : M :=
  WhenChannelOpen m peer_key channel_id (amp_now m + (if remaining <? 0 then 0 else remaining)) done.

(** The session bound is the application's: whether there is one. *)
Definition BindChannel (m : M) (peer_key : string) (channel_id : Z) (policy : ChannelPolicy) (on_frame on_closed : option nat)
    : M * bool :=
  match ResolveConnectedLink m peer_key with
  | Some l => if ml_has_mux l then (act m (link_id l) (ActBind channel_id policy on_frame on_closed), true) else (m, false)
  | None => (m, false)
  end.
Definition BindChannelOnLink (m : M) (link : LinkHandle) (channel_id : Z) (policy : ChannelPolicy)
    (on_frame on_closed : option nat) : M * bool :=
  match FindLive (table_ m) link with
  | Some l => if is_phase Connected l && ml_has_mux l
              then (act m (link_id l) (ActBind channel_id policy on_frame on_closed), true) else (m, false)
  | None => (m, false)
  end.

(** ** Waiters of a dial *)

Definition push_waiter (m : M) (peer_key : string) (cb : LinkCb) : M :=
  m <| inflight_associations_ ::= partial_alter (fun w => Some (default [] w ++ [cb])) peer_key |>.
Definition waiters_of (m : M) (peer_key : string) : list LinkCb := default [] (inflight_associations_ m !! peer_key).
Definition forget_waiters (m : M) (peer_key : string) : M := m <| inflight_associations_ ::= delete peer_key |>.
(** The waiters of a key are taken, and told off the stack. *)
Definition answer_waiters (m : M) (peer_key : string) (result : MgrRoe) : M :=
  log (MgPostWaiters (waiters_of m peer_key) result) (forget_waiters m peer_key).

(** ** The end of an establishment *)

Definition DialFailedEvent (m : M) (peer_key : string) (handle : LinkHandle) (reason : LinkDropReason) : LinkEvent :=
  LinkEvent_default <| le_kind := DialFailed |> <| le_handle := handle |> <| le_dial_key := peer_key |>
    <| le_peer_id := match BookFind (book_ m) peer_key with Some rec => er_peer_id rec | None => ""%string end |>
    <| le_outbound := true |> <| le_reason := reason |>.

Definition FinishDial (m : M) (peer_key : string) (handle : LinkHandle) (result : MgrRoe) : M :=
  let m := m <| book_ ::= DecConcurrentDials |> in
  let suppress_backoff := bool_decide (peer_key ∈ suppress_dial_backoff_ m) in
  let m := m <| suppress_dial_backoff_ ::= fun s => s ∖ {[peer_key]} |> in
  let post m waiters := match waiters with [] => m | _ => log (MgPostWaiters waiters result) m end in
  match result with
  | Fail e =>
      let m := m <| last_error_ ::= <[peer_key := e]> |> <| book_ ::= fun b => ForgetResolution b peer_key |> in
      let reason := if suppress_backoff then DialAborted else DropReasonFor e in
      let '(book, advanced) := if suppress_backoff then (book_ m, false)
                               else AdvanceDialCandidate (book_ m) (steady_now m) peer_key in
      let m := m <| book_ := book |> in
      if advanced then
        ScheduleDropHandle m handle reason <| pending_candidate_retry_ ::= fun l => l ++ [peer_key] |>
      else
        let m := m <| book_ ::= fun b => ResetDialIndex b (steady_now m) peer_key |> in
        let m := if suppress_backoff then m else m <| book_ ::= fun b => ArmBackoff jitter b (steady_now m) peer_key |> in
        let dial_failed := DialFailedEvent m peer_key handle reason in
        let m := ScheduleDropHandle m handle reason in
        let waiters := waiters_of m peer_key in
        let m := forget_waiters m peer_key in
        post (if suppress_backoff then m else EmitLinkEvent m dial_failed) waiters
  | Ok _ =>
      let m := m <| last_error_ ::= delete peer_key |> <| book_ ::= fun b => ClearBackoff b peer_key |> in
      let m := m <| book_ ::= fun b => match BookFind b peer_key with
                                       | Some rec => PromoteDialWinner b (steady_now m) peer_key (er_multiaddr rec)
                                       | None => ResetDialIndex b (steady_now m) peer_key
                                       end |> in
      let m := match FindLive (table_ m) handle with Some l => RefreshPresence m (link_id l) | None => m end in
      let waiters := waiters_of m peer_key in
      post (forget_waiters m peer_key) waiters
  end.

(** The Connected ADP link to a peer, other than the nested link [link]. *)
Definition other_adp (m : M) (link : L) : option L :=
  find_link (fun l => negb (link_id l =? link_id link) && is_phase Connected l && bool_decide (tl_peer l = tl_peer link)
                      && negb (ml_backed l)) m.
Definition FinishNestedCarrier (m : M) (provisional_key : string) (handle : LinkHandle) (result : MgrRoe) : M :=
  let m :=
    match FindLive (table_ m) handle with
    | Some link =>
        let remote := tl_peer link in
        if ok result && negb (bool_decide (remote = "")) && negb (bool_decide (remote = provisional_key))
           && bool_decide (other_adp m link = None) && negb (ContainsDialKey (table_ m) remote)
        then BindDialAlias m (link_id link) remote else m
    | None => m
    end in
  let waiters := default [] (nested_waiters_ m !! lh_id handle) in
  let m := m <| nested_waiters_ ::= delete (lh_id handle) |> in
  let m := match result with
           | Fail e =>
               let reason := DropReasonFor e in
               ScheduleDropHandle (m <| last_error_ ::= <[provisional_key := e]> |>) handle
                 (if bool_decide (reason = DropTransportFailed) then DropCarrierClosed else reason)
           | Ok _ => m
           end in
  fold_left (fun m cb => RunLinkCb m cb result) waiters m.

(** A link calls the callback of its establishment. *)
Definition EstablishCalled (m : M) (cb : EstablishCb) (result : LinkRoe) : M :=
  match cb with
  | OnDial peer_key handle => FinishDial m peer_key handle (WrapPeerLinkResult result)
  | OnInbound handle =>
      match result with
      | Ok _ => m
      | Fail e => ScheduleDropHandle m handle (DropReasonFor (WrapPeerLinkFailure e))
      end
  | OnNested peer_key handle => FinishNestedCarrier m peer_key handle (WrapPeerLinkResult result)
  end.
(** A call of a link that may end its establishment. *)
Definition call (m : M) (id : Z) (c : LinkCall) : M :=
  match FindById (table_ m) id with
  | None => m
  | Some l =>
      let m := m <| table_ ::= fun t => Update t id (fun l => (ml_call c l).1) |> in
      match (ml_call c l).2 with Some (cb, result) => EstablishCalled m cb result | None => m end
  end.

(** ** Dialing *)

Definition too_many_dials (m : M) : bool := max_concurrent_dials (config_ m) <=? concurrent_dials_ (book_ m).
Definition not_registered : MgrRoe := LinkCb_error EndpointNotRegistered "amp link: peer endpoint not registered".
Definition too_many : MgrRoe := LinkCb_error TooManyConcurrentDials "amp link: too many concurrent dials".
Definition links_full : MgrRoe := LinkCb_error MaxLinksReached "amp link: max links reached".

Definition dial_params (m : M) (rec : EndpointRecord) : OpenParams :=
  ApplyTuning (adp (config_ m)) OpenParams_default <| key := PreSessionPeerKey |> <| mint_id := true |>
    <| peer := er_endpoint rec |> <| reduce_rtx_until_authenticated := true |> <| dialer_backoff := true |>.
(** [find(...) != npos]. *)
Definition contains (sub s : string) : bool := bool_decide (is_Some (String.index 0 sub s)).
(** Opening the association, minted again if its id is taken. *)
Definition open_dial (m : M) (rec : EndpointRecord) (draw : DialDraw) : M * Roe K :=
  let params := dial_params m rec in
  let '(e, opened) := ep_open (endpoint_ m) params (dd_id draw) in
  let m := m <| endpoint_ := e |> in
  match opened with
  | Fail error =>
      if contains "assoc already open" (error_message error) then
        let '(e, opened) := ep_open (endpoint_ m) (params <| id := AssocId_zero |>) (dd_remint draw) in
        (m <| endpoint_ := e |>, opened)
      else (m, Fail error)
  | Ok k => (m, Ok k)
  end.

(** The association opened becomes a link, which starts its handshake. *)
Definition start_dial (m : M) (peer_key : string) (rec : EndpointRecord) (connection : K) (draw : DialDraw) : M :=
  let m := m <| book_ ::= IncConcurrentDials |> in
  let '(m, l) := insert_link m (ml_adp peer_key (er_peer_id rec) true connection) in
  call m (link_id l) (CallStart (OnDial peer_key (tl_handle l)) (dd_draw draw)).

Definition FailCandidate_with (dial : M -> string -> M) (m : M) (peer_key message : string) : M :=
  let failed := MgrOf MgrTransportFailed message in
  let m := m <| last_error_ ::= <[peer_key := failed]> |> in
  let '(book, advanced) := AdvanceDialCandidate (book_ m) (steady_now m) peer_key in
  let m := m <| book_ := book |> in
  if advanced then dial m peer_key
  else
    let m := m <| book_ ::= fun b => ArmBackoff jitter (ResetDialIndex b (steady_now m) peer_key) (steady_now m) peer_key |> in
    answer_waiters m peer_key (Fail failed).
Definition StartResolution_with (dial : M -> string -> M) (m : M) (peer_key : string) : M :=
  match BookFind (book_ m) peer_key with
  | None => FailCandidate_with dial m peer_key "amp link: peer endpoint not registered"
  | Some rec =>
      if negb (host_resolver_ m)
      then FailCandidate_with dial m peer_key ("amp link: no host resolver for " ++ er_hostname rec)
      else
        log (MgResolve (er_hostname rec) (er_host_family rec) (port (er_endpoint rec)) peer_key (er_multiaddr rec))
          (m <| resolving_ ::= fun s => {[peer_key]} ∪ s |>)
  end.

Definition dial_step (dial : M -> string -> M) (draw : DialDraw) (m : M) (peer_key : string) : M :=
  let occupied := match FindByDialKey (table_ m) peer_key with Some occupant => is_phase Connected occupant | None => false end in
  if occupied then
    answer_waiters (m <| book_ ::= fun b => ResetDialIndex b (steady_now m) peer_key |>) peer_key (Ok tt)
  else
    match BookFind (book_ m) peer_key with
    | None => answer_waiters m peer_key not_registered
    | Some rec =>
        if too_many_dials m then answer_waiters m peer_key too_many
        else if AtLinkCapacityLocked m then answer_waiters m peer_key links_full
        else if NeedsResolution (book_ m) (steady_now m) peer_key then StartResolution_with dial m peer_key
        else
          let '(m, opened) := open_dial m rec draw in
          match opened with
          | Fail error => answer_waiters m peer_key (LinkCb_error MgrTransportFailed (error_message error))
          | Ok connection => start_dial m peer_key rec connection draw
          end
    end.
(** A dial whose hostname cannot be resolved goes on with the next candidate:
    [fuel] is more than there are candidates left ([dial_fuel]). *)
Fixpoint begin_dial (fuel : nat) (draw : DialDraw) (m : M) (peer_key : string) : M :=
  match fuel with
  | O => m
  | S fuel => dial_step (begin_dial fuel draw) draw m peer_key
  end.
Definition dial_fuel (m : M) (peer_key : string) : nat :=
  S (match BookFind (book_ m) peer_key with Some rec => length (er_candidates rec) | None => O end).
Definition BeginOutboundDialLocked (draw : DialDraw) (m : M) (peer_key : string) : M :=
  begin_dial (dial_fuel m peer_key) draw m peer_key.
Definition StartResolutionLocked (draw : DialDraw) : M -> string -> M := StartResolution_with (BeginOutboundDialLocked draw).
Definition FailCandidateLocked (draw : DialDraw) : M -> string -> string -> M := FailCandidate_with (BeginOutboundDialLocked draw).

Definition OnHostResolved (draw : DialDraw) (m : M) (peer_key multiaddr : string) (result : Roe IpEndpoint) : M :=
  let m := m <| resolving_ ::= fun s => s ∖ {[peer_key]} |> in
  let m := match result with
           | Ok endpoint => m <| book_ ::= fun b => SetResolution b (steady_now m) multiaddr endpoint |>
           | Fail _ => m
           end in
  match BookFind (book_ m) peer_key with
  | None => m
  | Some rec =>
      if bool_decide (waiters_of m peer_key = []) then m
      else if negb (bool_decide (er_multiaddr rec = multiaddr)) then BeginOutboundDialLocked draw m peer_key
      else match result with
      | Fail e => FailCandidateLocked draw m peer_key (error_message e)
      | Ok _ => BeginOutboundDialLocked draw m peer_key
      end
  end.

(** The Connected ADP link to the peer the book has for the key. *)
Definition book_peer_link (m : M) (peer_key : string) : option L :=
  match BookFind (book_ m) peer_key with
  | Some ep =>
      match FindByPeerId walk_links (table_ m) (er_peer_id ep) Adp with
      | Some ex => if is_phase Connected ex && negb (ml_backed ex) then Some ex else None
      | None => None
      end
  | None => None
  end.
(** What is left of [EnsureAssociation] once there is no dial to join. *)
Definition fresh_dial (draw : DialDraw) (m : M) (peer_key : string) (on_complete : LinkCb) : M :=
  if bool_decide (BookFind (book_ m) peer_key = None) then RunLinkCb m on_complete not_registered
  else if InBackoff (book_ m) peer_key (steady_now m)
  then RunLinkCb m on_complete (LinkCb_error DialInBackoff "amp link: dial in backoff")
  else
    let m := m <| book_ ::= fun b => EraseExpiredBackoff b peer_key (steady_now m) |> in
    if too_many_dials m then RunLinkCb m on_complete too_many
    else if AtLinkCapacityLocked m then RunLinkCb m on_complete links_full
    else
      let m := m <| book_ ::= fun b => ResetDialIndex b (steady_now m) peer_key |> in
      BeginOutboundDialLocked draw (push_waiter m peer_key on_complete) peer_key.

Definition EnsureAssociation (draw : DialDraw) (m : M) (peer_key : string) (on_complete : LinkCb) : M :=
  let connected := match FindByDialKey (table_ m) peer_key with Some l => is_phase Connected l | None => false end in
  if connected then RunLinkCb m on_complete (Ok tt)
  else
    match book_peer_link m peer_key with
    | Some ex =>
        let m := if bool_decide (tl_key ex = peer_key) then m else BindDialAlias m (link_id ex) peer_key in
        RunLinkCb m on_complete (Ok tt)
    | None =>
        if bool_decide (peer_key ∈ resolving_ m) then push_waiter m peer_key on_complete
        else
          match FindAdpLinkForKey m peer_key with
          | Some ex =>
              if dialing ex then push_waiter m peer_key on_complete
              else fresh_dial draw (if is_phase Connected ex then m else DropLinkNow m ex Displaced) peer_key on_complete
          | None => fresh_dial draw m peer_key on_complete
          end
    end.

Definition OpenChannel (draw : DialDraw) (m : M) (peer_key : string) (protocol_id : bytes) (policy : ChannelPolicy)
    (on_complete : option nat) : M :=
  match ResolveConnectedLink m peer_key with
  | Some live => OpenChannelOnLink m live protocol_id policy on_complete
  | None => EnsureAssociation draw m peer_key (OpenChannelCb peer_key protocol_id policy on_complete)
  end.

Definition AbortInflightDial (m : M) (peer_key : string) : M :=
  let m := m <| book_ ::= fun b => ClearBackoff b peer_key |> <| last_error_ ::= delete peer_key |>
             <| pending_candidate_retry_ ::= filter (fun key => key <> peer_key) |> in
  let waiters := waiters_of m peer_key in
  let m := forget_waiters m peer_key in
  let suppressed := m <| suppress_dial_backoff_ ::= fun s => {[peer_key]} ∪ s |> in
  let unsuppressed := m <| suppress_dial_backoff_ ::= fun s => s ∖ {[peer_key]} |> in
  let m :=
    match FindAdpLinkForKey m peer_key with
    | Some l =>
        if ml_outbound l && dialing l then call suppressed (link_id l) CallFailTimeout
        else if negb (is_phase Connected l) then ScheduleDropHandle unsuppressed (tl_handle l) DialAborted
        else unsuppressed
    | None => unsuppressed
    end in
  log (MgPostWaiters waiters (LinkCb_error MgrGeneric "amp link: dial aborted")) m.

(** ** Accepting *)

(** What becomes of a connection the endpoint accepted. *)
Inductive ConnFate := Kept | ClosedAtOnce | Abandoned.
Definition hex_id (bytes : bytes) : string :=
  fold_left (fun out byte => (out ++ hex_digit (Z.shiftr byte 4) ++ hex_digit (Z.land byte 15))%string) bytes ""%string.
Definition inbound_key (connection : K) : string := ("inbound:" ++ hex_id (ep_conn_id connection))%string.
Definition pending_inbound (m : M) : Z :=
  size (filter (fun l => ml_outbound l = false /\ tl_phase l = Handshaking) (links m)).

Definition OnInboundConnection (m : M) (connection : K) : M * ConnFate :=
  let '(m, room) := if AtLinkCapacityLocked m then EvictIdleInboundLocked m else (m, true) in
  if negb room then (m, ClosedAtOnce)
  else if max_pending_inbound (config_ m) <=? pending_inbound m then (m, Abandoned)
  else
    let peer_key := inbound_key connection in
    if ContainsDialKey (table_ m) peer_key then (m, ClosedAtOnce)
    else
      let '(m, l) := insert_link m (ml_adp peer_key "" false connection) in
      (call m (link_id l) (CallStartInbound (OnInbound (tl_handle l))), Kept).

(** ** Nested links *)

Definition EstablishNestedOverCarrier (draw : Draw) (m : M) (peer_key : string) (carrier : option C) (initiator : bool)
    (on_complete : LinkCb) : M :=
  match carrier with
  | None => RunLinkCb m on_complete (LinkCb_error NestedCarrierIncomplete "amp link: nested carrier incomplete")
  | Some carrier =>
      if bool_decide (peer_key = "")
      then RunLinkCb m on_complete (LinkCb_error NestedCarrierIncomplete "amp link: nested carrier incomplete")
      else
        let fresh :=
          if AtLinkCapacityLocked m then RunLinkCb m on_complete links_full
          else
            let '(m, l) := insert_link m (ml_nested peer_key peer_key initiator carrier) in
            let handle := tl_handle l in
            let m := m <| nested_waiters_ ::= partial_alter (fun w => Some (default [] w ++ [on_complete])) (lh_id handle) |> in
            call m (link_id l) (if initiator then CallStart (OnNested peer_key handle) draw
                                else CallStartInbound (OnNested peer_key handle)) in
        match FindNestedLinkForKey m peer_key with
        | Some ex =>
            if is_phase Connected ex then RunLinkCb m on_complete (Ok tt)
            else if is_phase Handshaking ex
            then m <| nested_waiters_ ::= partial_alter (fun w => Some (default [] w ++ [on_complete])) (link_id ex) |>
            else fresh
        | None => fresh
        end
  end.

Definition provisional_key (m : M) (via : L) (channel_id : Z) : string :=
  let provisional := ("carrier:" ++ (if bool_decide (tl_peer via = "") then tl_key via else tl_peer via) ++ ":"
                      ++ pretty channel_id)%string in
  if ContainsDialKey (table_ m) provisional then (provisional ++ ":" ++ pretty (table_size (table_ m)))%string else provisional.
Definition HandleInboundCarrierChannel (draw : Draw) (m : M) (via : L) (channel_id : Z) : M :=
  if negb (nested_carrier_accept_ m) || negb (ml_has_mux via) then m
  else
    let policy := CallMediaChannelPolicy 0 in
    let carrier := (ml_bind_carrier via channel_id policy).2 in
    let m := m <| table_ ::= fun t => Update t (link_id via) (fun l => (ml_bind_carrier l channel_id policy).1) |> in
    EstablishNestedOverCarrier draw m (provisional_key m via channel_id) (Some carrier) false (AppCb None).

Definition EnableNestedCarrierAccept (m : M) (enable : bool) (protocol_id : bytes) : M :=
  let m := if bool_decide (nested_carrier_protocol_id_ m = []) then m
           else RemoveProtocolHandler m (nested_carrier_protocol_id_ m) in
  let m := m <| nested_carrier_accept_ := enable |> in
  if enable then
    let protocol_id := if bool_decide (protocol_id = []) then kAmpCircuitCarrierProtocolId else protocol_id in
    SetMgrProtocolHandler (m <| nested_carrier_protocol_id_ := protocol_id |>) protocol_id (Some NestedAccept)
  else m <| nested_carrier_protocol_id_ := [] |>.

(** A peer opened a channel of a protocol: the closure that was set on its link. *)
Definition OnProtocolOpen (draw : Draw) (m : M) (closure : ProtocolClosure) (channel_id : Z) : M :=
  match pc_handler closure, FindLive (table_ m) (pc_handle closure) with
  | Some (AppHandler handler), Some _ => log (MgProtocol handler (pc_handle closure) (pc_remote closure) channel_id) m
  | Some NestedAccept, Some l => HandleInboundCarrierChannel draw m l channel_id
  | _, _ => m
  end.

(** ** Tick *)

Definition tick_drops (m : M) : M :=
  fold_left (fun m '(handle, reason) => DropLinkByHandle m handle reason) (pending_drops_ m) (m <| pending_drops_ := [] |>).
Definition tick_retries (draw : string -> DialDraw) (m : M) : M :=
  fold_left (fun m key => if bool_decide (is_Some (inflight_associations_ m !! key))
                          then BeginOutboundDialLocked (draw key) m key else m)
    (pending_candidate_retry_ m) (m <| pending_candidate_retry_ := [] |>).
Definition tick_aliases (m : M) : M :=
  fold_left (fun m '(remote, alias) =>
               match FindAnyConnectedLinkForRemotePeerId m remote with
               | Some winner => if bool_decide (tl_key winner = alias) then m else BindDialAlias m (link_id winner) alias
               | None => m
               end)
    (pending_alias_adopt_ m) (m <| pending_alias_adopt_ := [] |>).

(** The time a handshake has: a candidate that has not answered gives way to the
    next one sooner. *)
Definition handshake_budget (m : M) (l : L) : Z :=
  let heard := match ml_conn l with Some conn => 0 <? cv_last_rx conn | None => false end in
  match BookFind (book_ m) (tl_key l) with
  | Some rec =>
      if negb (ml_backed l) && negb heard && (er_dial_index rec + 1 <? length (er_candidates rec))%nat
         && (0 <? dial_attempt_timeout (config_ m))
      then Z.min (dial_timeout (config_ m)) (dial_attempt_timeout (config_ m)) else dial_timeout (config_ m)
  | None => dial_timeout (config_ m)
  end.
Definition timed_out (m : M) (l : L) : bool :=
  dialing l && (0 <? ml_started_ms l) && (handshake_budget m l <? amp_now m - ml_started_ms l).
Definition refused (l : L) : bool :=
  ml_outbound l && dialing l && match ml_conn l with Some conn => cv_peer_closed conn | None => false end.
Definition mismatched (l : L) : option (list Z) :=
  match ml_conn l with
  | Some conn => if ml_outbound l && dialing l && cv_version_mismatch conn then Some (cv_wire_versions conn) else None
  | None => None
  end.
Definition call_live (m : M) (handle : LinkHandle) (c : LinkCall) : M :=
  match FindLive (table_ m) handle with Some l => call m (link_id l) c | None => m end.
Definition fail_timed_out (m : M) (handle : LinkHandle) : M :=
  match FindLive (table_ m) handle with
  | Some l =>
      let m := call m (link_id l) CallFailTimeout in
      if ml_outbound l then m else ScheduleDropHandle m handle HandshakeTimeout
  | None => m
  end.
(** The three lists: of the handshakes to fail, timed out as the tick found them. *)
Definition tick_handshakes (m : M) : M :=
  let timed_out_links := map tl_handle (filter (fun l => timed_out m l = true) (links m)) in
  let refused_links := map tl_handle (filter (fun l => refused l = true) (links m)) in
  let m := fold_left (fun m handle => call_live m handle CallFailRefused) refused_links m in
  let mismatched_links := omap (fun l => (fun versions => (tl_handle l, versions)) <$> mismatched l) (links m) in
  let m := fold_left (fun m '(handle, versions) => call_live m handle (CallFailVersion versions)) mismatched_links m in
  fold_left fail_timed_out timed_out_links m.

(** A link that is asked to prove itself: what the tick makes of it. *)
Inductive Suspicion := NotJudged | Answered | Silent (reason : LinkDropReason) | ProbeAgain | StillWaiting.
Definition judge_suspect (m : M) (l : L) : Suspicion :=
  match ml_conn l with
  | Some conn =>
      if is_phase Connected l && negb (ml_suspect_since l =? 0) && negb (cv_closed conn) then
        let now := amp_now m in
        let grace := network_change_grace (config_ m) in
        if ml_suspect_since l <? cv_last_rx conn then Answered
        else if grace <=? now - ml_suspect_since l then Silent (if ml_suspect_from_verify l then Unresponsive else NetworkChanged)
        else if Z.max (Z.quot grace 4) 1 <=? now - ml_last_probe l then ProbeAgain
        else StillWaiting
      else NotJudged
  | None => NotJudged
  end.
(** Why an association is given up, if it is. *)
Definition judge_alive (m : M) (l : L) : option LinkDropReason :=
  match ml_conn l with
  | Some conn =>
      if is_phase Connected l && (cv_closed conn || negb (cv_alive conn (amp_now m)))
      then Some (if cv_closed conn then ConnectionClosed else ConnectionDead)
      else if cv_unreachable conn then Some DropTransportFailed else None
  | None => None
  end.

Definition tick_nested (m : M) (l : L) : M * option LinkDropReason :=
  let id := link_id l in
  let phase := tl_phase l in
  if match ml_carrier l with Some carrier => cr_closed carrier | None => false end && negb (dialing l)
  then (m, Some DropCarrierClosed)
  else
    let m := call m id (CallTickHandshake (amp_now m)) in
    let m := call m id (CallTickLane (amp_now m)) in
    let failed := match FindById (table_ m) id with Some l => ml_lane_failed l | None => false end in
    (m, if bool_decide (phase = Connected) && failed then Some ConnectionDead else None).
Definition tick_adp (m : M) (l : L) : M * option LinkDropReason :=
  let id := link_id l in
  match judge_suspect m l with
  | Silent reason => (m, Some reason)
  | Answered => (AnswerVerifyWaiters (act m id ActClearSuspect) id true, judge_alive m l)
  | ProbeAgain =>
      let m := act m id (ActSendProbe (amp_now m)) in
      (m, match FindById (table_ m) id with Some l => judge_alive m l | None => None end)
  | NotJudged | StillWaiting => (m, judge_alive m l)
  end.
Definition tick_link (m : M) (l : L) : M * option LinkDropReason :=
  let m := if ml_has_mux l then act m (link_id l) (ActMuxTick (amp_now m)) else m in
  match FindById (table_ m) (link_id l) with
  | Some l => if ml_backed l then tick_nested m l else tick_adp m l
  | None => (m, None)
  end.
Definition tick_evict (m : M) : M :=
  let '(m, evict) :=
    fold_left (fun '(m, evict) l =>
                 match FindById (table_ m) (link_id l) with
                 | Some l => let '(m, verdict) := tick_link m l in
                             (m, match verdict with Some reason => evict ++ [(tl_handle l, reason)] | None => evict end)
                 | None => (m, evict)
                 end) (links m) (m, []) in
  fold_left (fun m '(handle, reason) => DropLinkByHandle m handle reason) evict m.

(** A wait for a channel is over: open or not; none while it goes on. *)
Definition channel_verdict (m : M) (waiter : ChannelOpenWaiter) : option bool :=
  let link := if LinkHandle_valid (cw_link waiter) then FindLive (table_ m) (cw_link waiter) else ResolveLinkLocked m (cw_key waiter) in
  let state := match link with
               | Some l => if ml_has_mux l && is_phase Connected l && negb (cw_channel_id waiter =? 0)
                           then Some (ml_channel l (cw_channel_id waiter)) else None
               | None => None
               end in
  let gone := LinkHandle_valid (cw_link waiter) && bool_decide (link = None) in
  let refused := match state with Some s => bool_decide (s = ChannelClosed) | None => gone end in
  if bool_decide (state = Some ChannelOpen) then Some true
  else if refused || ((0 <? cw_deadline_ms waiter) && (cw_deadline_ms waiter <=? amp_now m)) then Some false
  else None.
Definition tick_waiters (m : M) : M :=
  let verdicts := omap (fun w => match channel_verdict m w, cw_done w with
                                 | Some open, Some done => Some (done, open)
                                 | _, _ => None
                                 end) (channel_open_waiters_ m) in
  let m := m <| channel_open_waiters_ ::= filter (fun w => channel_verdict m w = None) |> in
  fold_left (fun m '(done, open) => log (MgPostChannelOpen done open) m) verdicts m.

Definition ManagerTick (draw : string -> DialDraw) (m : M) : M :=
  let m := tick_drops m in
  let m := tick_retries draw m in
  let m := tick_aliases m in
  let m := tick_handshakes m in
  let m := MaybeSendKeepalives m (amp_now m) in
  let m := tick_evict m in
  tick_waiters m.

(** ** What others see *)

Definition GetLinkSnapshot (m : M) (peer_key : string) : PeerLinkSnapshot :=
  let rec := BookFind (book_ m) peer_key in
  let snap := PeerLinkSnapshot_default <| sn_has_endpoint := bool_decide (is_Some rec) |>
                <| sn_multiaddr := match rec with Some rec => er_multiaddr rec | None => ""%string end |> in
  match ResolveConnectedLink m peer_key with
  | Some l => snap <| sn_phase := Connected |> <| sn_carrier_backed := ml_backed l |>
  | None =>
      match rec with
      | None => snap <| sn_phase := Unavailable |>
      | Some _ =>
          let snap := match FindLink m peer_key with
                      | Some l => snap <| sn_phase := tl_phase l |>
                      | None =>
                          match BackoffRemaining (book_ m) peer_key (steady_now m) with
                          | Some remaining => snap <| sn_phase := Backoff |> <| sn_backoff_remaining := remaining |>
                          | None => snap <| sn_phase := Idle |>
                          end
                      end in
          match last_error_ m !! peer_key with Some e => snap <| sn_detail := mf_message e |> | None => snap end
      end
  end.

Definition SnapshotOf (m : M) (link : option L) (dial_key : string) (has_endpoint : bool) (multiaddr : string) : LinkSnapshotEx :=
  let base := PeerLinkSnapshot_default <| sn_has_endpoint := has_endpoint |> <| sn_multiaddr := multiaddr |> in
  match link with
  | None => MkLinkSnapshotEx (base <| sn_phase := if has_endpoint then Idle else Unavailable |>) (MkLinkHandle 0 0) dial_key "" Adp Direct None (-1)
  | Some l =>
      let conn := if ml_backed l then None else ml_conn l in
      MkLinkSnapshotEx (base <| sn_phase := tl_phase l |> <| sn_carrier_backed := ml_backed l |>) (tl_handle l) dial_key (tl_peer l)
        (tl_transport l) (PathKindOf l) (cv_peer <$> conn)
        (match conn with Some conn => if 0 <? cv_last_rx conn then amp_now m - cv_last_rx conn else -1 | None => -1 end)
  end.
Definition snapshot_with_book (m : M) (l : option L) (key : string) : LinkSnapshotEx :=
  let ep := BookFind (book_ m) key in
  SnapshotOf m l key (bool_decide (is_Some ep)) (match ep with Some ep => er_multiaddr ep | None => ""%string end).
Definition GetSnapshotByDialKey (m : M) (key : string) : LinkSnapshotEx := snapshot_with_book m (FindLink m key) key.
Definition GetSnapshotByPeerId (m : M) (peer_id : string) (prefer : TransportClass) : LinkSnapshotEx :=
  let empty := MkLinkSnapshotEx PeerLinkSnapshot_default (MkLinkHandle 0 0) "" peer_id Adp Direct None (-1) in
  if bool_decide (peer_id = "") then empty
  else
    let presence := Presence (table_ m) peer_id in
    let id := match prefer with
              | Carrier => or_else (pp_carrier presence) (pp_adp presence)
              | Adp => or_else (pp_adp presence) (pp_carrier presence)
              end in
    let found := match id with
                 | Some id => if LinkId_valid id then FindById (table_ m) id else FindByPeerId walk_links (table_ m) peer_id Adp
                 | None => FindByPeerId walk_links (table_ m) peer_id Adp
                 end in
    match found with Some l => snapshot_with_book m (Some l) (tl_key l) | None => empty end.

Definition MgrPreferredMultiaddr (m : M) (peer_id : string) : option string :=
  if bool_decide (peer_id = "") then None
  else match BookFind (book_ m) peer_id with
  | Some rec => Some (er_multiaddr rec)
  | None => (fun kr => er_multiaddr kr.2) <$> head (filter (fun kr => er_peer_id kr.2 = peer_id /\ er_multiaddr kr.2 <> ""%string)
                                                   (walk_keys _ (endpoints_ (book_ m))))
  end.

Definition CountOpenChannelsByProtocol (m : M) : gmap bytes nat :=
  fold_left (fun by_protocol l => if ml_has_mux l then ml_open_channels l by_protocol else by_protocol) (links m) ∅.

(** Down the carriers, four links at most. *)
Fixpoint connection_below (depth : nat) (m : M) (link : option L) : option ConnectionStats :=
  match depth, link with
  | S depth, Some l =>
      match ml_conn l with
      | Some conn => Some (cv_stats conn)
      | None =>
          connection_below depth m
            (match ml_carrier l with
             | Some carrier =>
                 match cr_mux carrier with
                 | Some via => find_link (fun cand => negb (link_id cand =? link_id l) && ml_has_mux cand && (link_id cand =? via)) m
                 | None => None
                 end
             | None => None
             end)
      end
  | _, _ => None
  end.
Definition LinkConnectionStats (m : M) (handle : LinkHandle) : option ConnectionStats :=
  connection_below 4 m (FindLive (table_ m) handle).

(** ** The rest of the state *)

Definition SetLocalListenMultiaddrs (m : M) (multiaddrs : list bytes) : M := m <| local_listen_multiaddrs_ := multiaddrs |>.
Definition SetAdvertisedProtocols (m : M) (protocols : list bytes) : M := m <| advertised_protocols_ := protocols |>.
Definition SetAdvertisedNodeInfo (m : M) (node_version : bytes) (features : list bytes) : M :=
  m <| advertised_node_version_ := node_version |> <| advertised_features_ := features |>.
Definition SetCapabilityHandler (m : M) (set : bool) : M := m <| capability_handler_ := set |>.
Definition SetListenAddrDisclosure (m : M) (disclosure : option (string -> bool)) : M := m <| listen_addr_disclosure_ := disclosure |>.
Definition SetHostResolver (m : M) (set : bool) : M := m <| host_resolver_ := set |>.
Definition MgrRegisterEndpoint (m : M) (peer_key multiaddr : string) : M * Roe unit :=
  let '(b, r) := RegisterEndpoint (book_ m) (steady_now m) peer_key multiaddr in (m <| book_ := b |>, r).
Definition MgrRegisterEndpoints (m : M) (peer_key : string) (multiaddrs : list string) : M * Roe unit :=
  let '(b, r) := RegisterEndpoints (book_ m) (steady_now m) peer_key multiaddrs in (m <| book_ := b |>, r).
Definition MgrUnregisterEndpoint (m : M) (peer_key : string) : M := m <| book_ ::= fun b => UnregisterEndpoint b peer_key |>.
Definition ClearDialBackoff (m : M) (peer_key : string) : M := m <| book_ ::= fun b => ClearBackoff b peer_key |>.

(** The listener is set. *)
Definition AddPeerConnectedListener (m : M) (listener : nat) : M * Z :=
  let id := next_peer_connected_listener_id_ m in
  (m <| next_peer_connected_listener_id_ := u64 (id + 1) |> <| peer_connected_listeners_ ::= <[id := listener]> |>, id).
Definition RemovePeerConnectedListener (m : M) (id : Z) : M := m <| peer_connected_listeners_ ::= delete id |>.
Definition ClearPeerConnectedListeners (m : M) : M := m <| peer_connected_listeners_ := ∅ |>.
Definition SetPeerConnectedListener (m : M) (listener : option nat) : M :=
  match listener with
  | Some listener => (AddPeerConnectedListener (ClearPeerConnectedListeners m) listener).1
  | None => ClearPeerConnectedListeners m
  end.
Definition AddLinkEventListener (m : M) (listener : nat) : M * Z :=
  let id := next_link_event_listener_id_ m in
  (m <| next_link_event_listener_id_ := u64 (id + 1) |> <| link_event_listeners_ ::= <[id := listener]> |>, id).
Definition RemoveLinkEventListener (m : M) (id : Z) : M := m <| link_event_listeners_ ::= delete id |>.

(** The destructor. *)
Definition Manager_destroy (m : M) : M :=
  each (fun m l => acts m (link_id l) ((if bool_decide (is_Some (ml_carrier l)) then [ActReleaseCarrier] else [])
                                       ++ (if bool_decide (is_Some (ml_conn l)) then [ActWatchPath false] else []))) m
    <| table_ ::= TableClear |>.
End PeerLinkManager.
