(* ===== verification/ManagerSteps.v ===== *)
(** * What the manager's operations do to the table, and to those who wait

    Two relations between states of a manager.  [quiet] : the table went through
    operations of its own that enter no link, the links changed within [keeps], and
    every completion is where it was (or, with a list, these were added).  [goes]:
    as well, links were entered, each within the limits.  One lemma per operation of
    [PeerLinkManager], in the form that extends a run. *)

From S2P Require Import Prelude L1Types Connection ChannelWire Capability ChannelPolicy ChannelMux MshAdpHandshake AdpMultiaddr LinkPolicy LinkWire LinkTable DialBook ManagedLink PeerLinkManager.

(** ** Links of a table that satisfy a predicate *)

Section Count.
Context {L K C : Type} `{ManagedLinkLaws L K C}.

Definition count (P : L -> bool) (t : LinkTable L) : nat := base.size (filter (fun kv => P kv.2 = true) (by_id_ t)).

Lemma count_dom (P : L -> bool) t : count P t = base.size (dom (filter (fun kv => P kv.2 = true) (by_id_ t)) : gset Z).
Proof. unfold count. by rewrite size_dom. Qed.
Lemma count_elem (P : L -> bool) t id :
  id ∈ (dom (filter (fun kv => P kv.2 = true) (by_id_ t)) : gset Z) <-> exists l, by_id_ t !! id = Some l /\ P l = true.
Proof.
  rewrite elem_of_dom. split.
  - intros [l Hl]. apply map_lookup_filter_Some in Hl. by exists l.
  - intros (l & Hl & HP). exists l. by apply map_lookup_filter_Some.
Qed.
Lemma count_le (P Q : L -> bool) t t' :
  (forall id l', by_id_ t' !! id = Some l' -> P l' = true -> exists l, by_id_ t !! id = Some l /\ Q l = true) ->
  (count P t' <= count Q t)%nat.
Proof.
  intros Hsub. rewrite !count_dom. apply subseteq_size. intros id (l' & Hl' & HP)%count_elem. apply count_elem. eauto.
Qed.
Lemma count_lt (P : L -> bool) t t' gone l :
  by_id_ t !! gone = Some l -> P l = true -> (forall l', by_id_ t' !! gone = Some l' -> P l' = false) ->
  (forall id l', by_id_ t' !! id = Some l' -> P l' = true -> exists l, by_id_ t !! id = Some l /\ P l = true) ->
  (count P t' < count P t)%nat.
Proof.
  intros Hl HPl Hgone Hsub. rewrite !count_dom. apply subset_size. split.
  - intros id (l' & Hl' & HP)%count_elem. apply count_elem. eauto.
  - intros Hback. assert (Hin : gone ∈ (dom (filter (fun kv => P kv.2 = true) (by_id_ t')) : gset Z)) by (apply Hback, count_elem; eauto).
    apply count_elem in Hin as (l' & Hl' & HP). by rewrite (Hgone l') in HP.
Qed.
(** A link is entered. *)
Lemma count_new (P : L -> bool) t t' id :
  (forall id' l', id' <> id -> by_id_ t' !! id' = Some l' -> P l' = true -> exists l, by_id_ t !! id' = Some l /\ P l = true) ->
  (count P t' <= S (count P t))%nat.
Proof.
  intros Hsub. rewrite !count_dom. set (X := dom (filter _ (by_id_ t))). transitivity (base.size ({[id]} ∪ X : gset Z)).
  - apply subseteq_size. intros id' (l' & Hl' & HP)%count_elem. apply elem_of_union. destruct (decide (id' = id)) as [->|Hne]; [left; set_solver|].
    right. apply count_elem. eauto.
  - rewrite size_union_alt, size_singleton. pose proof (subseteq_size (X ∖ {[id]}) X ltac:(set_solver)). lia.
Qed.
(** The table's links in any order. *)
Lemma count_walk (P : L -> bool) (l : list (Z * L)) t :
  l ≡ₚ map_to_list (by_id_ t) -> length (filter (fun x => P x = true) l.*2) = count P t.
Proof.
  intros Hp. unfold count. rewrite map_filter_alt, <- length_map_to_list, map_to_list_to_map.
  - rewrite <- Hp. clear Hp. induction l as [|[i x] l IH]; [done|]. cbn [fmap list_fmap snd]. rewrite !filter_cons. cbn [snd].
    destruct (decide _); cbn [length]; by rewrite IH.
  - eapply (sublist_NoDup _ (map_to_list (by_id_ t)).*1); [apply NoDup_fst_map_to_list|apply fmap_sublist, sublist_filter].
Qed.
Lemma filter_split {A} (p : A -> bool) (l : list A) :
  (length (filter (fun x => p x = true) l) + length (filter (fun x => negb (p x) = true) l) = length l)%nat.
Proof. induction l as [|x l IH]; [done|]. rewrite !filter_cons. destruct (p x); repeat destruct (decide _); try done; cbn [length]; lia. Qed.
End Count.

(** ** Who waits, and who was told *)

Definition cb_of (c : LinkCb) : list nat :=
  match c with
  | AppCb (Some cb) => [cb]
  | OpenChannelCb _ _ _ (Some cb) => [cb]
  | _ => []
  end.
Definition cbs_of (l : list LinkCb) : list nat := l ≫= cb_of.
Definition opt_cb (done_ : option nat) : list nat := match done_ with Some cb => [cb] | None => [] end.
(** The completions of a map's lists, [f] the callbacks of an entry. *)
Definition held_in {I A} `{Countable I} (f : A -> list nat) (g : gmap I (list A)) : list nat := map_to_list g ≫= fun kw => kw.2 ≫= f.
(** The completions an event hands to the poster, or calls. *)
Definition event_cbs (e : mgr_event) : list nat :=
  match e with
  | MgPostWaiters waiters _ => cbs_of waiters
  | MgPostVerify waiters _ => waiters
  | MgPostChannelOpen cb _ => [cb]
  | MgCall cb _ => [cb]
  | MgChannel cb _ => [cb]
  | _ => []
  end.

Lemma cbs_of_app l l' : cbs_of (l ++ l') = cbs_of l ++ cbs_of l'.
Proof. apply bind_app. Qed.
Lemma bind_self {A} (l : list A) : l ≫= (fun x => [x]) = l.
Proof. induction l as [|x l IH]; [done|]. by rewrite bind_cons, IH. Qed.

Section Held.
Context {I A : Type} `{Countable I} (f : A -> list nat).
Lemma held_in_insert (g : gmap I (list A)) i l : g !! i = None -> held_in f (<[i := l]> g) ≡ₚ (l ≫= f) ++ held_in f g.
Proof. intros Hi. unfold held_in. by rewrite map_to_list_insert. Qed.
Lemma held_delete (g : gmap I (list A)) i : held_in f g ≡ₚ (default [] (g !! i) ≫= f) ++ held_in f (delete i g).
Proof.
  destruct (g !! i) as [l|] eqn:Hi; cbn [from_option Datatypes.id].
  - rewrite <- (insert_delete_id g i l Hi) at 1. by rewrite held_in_insert by apply lookup_delete_eq.
  - by rewrite delete_id.
Qed.
Lemma held_push (g : gmap I (list A)) i x :
  held_in f (partial_alter (fun w => Some (default [] w ++ [x])) i g) ≡ₚ f x ++ held_in f g.
Proof.
  rewrite (held_delete (partial_alter _ _ _) i), lookup_partial_alter_eq. cbn [from_option Datatypes.id].
  rewrite bind_app, bind_singleton, (held_delete g i). replace (delete i (partial_alter _ i g)) with (delete i g).
  - rewrite (Permutation_app_comm (_ ≫= f) (f x)). by rewrite app_assoc.
  - apply map_eq. intros j. destruct (decide (i = j)) as [<-|Hne]; [by rewrite !lookup_delete_eq|].
    by rewrite !lookup_delete_ne, lookup_partial_alter_ne.
Qed.
End Held.

(** ** The dial book keeps its configuration *)

Section Book.
Context `{Inet6}.
Lemma reset_config b now k : book_config_ (ResetDialIndex b now k) = book_config_ b.
Proof. unfold ResetDialIndex. by destruct (BookFind b k). Qed.
Lemma advance_config b now k : book_config_ (AdvanceDialCandidate b now k).1 = book_config_ b.
Proof. unfold AdvanceDialCandidate. repeat case_match_goal; done. Qed.
Lemma promote_config b now k ma : book_config_ (PromoteDialWinner b now k ma) = book_config_ b.
Proof. unfold PromoteDialWinner. repeat case_match_goal; done. Qed.
Lemma forget_config b k : book_config_ (ForgetResolution b k) = book_config_ b.
Proof. unfold ForgetResolution. repeat case_match_goal; done. Qed.
Lemma erase_config b k now : book_config_ (EraseExpiredBackoff b k now) = book_config_ b.
Proof. unfold EraseExpiredBackoff. repeat case_match_goal; done. Qed.
Lemma dec_config b : book_config_ (DecConcurrentDials b) = book_config_ b.
Proof. unfold DecConcurrentDials. by destruct (0 <? concurrent_dials_ b). Qed.
Lemma register_config b now k ma : book_config_ (RegisterEndpoint b now k ma).1 = book_config_ b.
Proof. unfold RegisterEndpoint. repeat case_match_goal; done. Qed.
Lemma registers_config b now k mas : book_config_ (RegisterEndpoints b now k mas).1 = book_config_ b.
Proof. unfold RegisterEndpoints. cbv zeta. case_bool_decide; [done|]. cbn [fst]. by case_bool_decide. Qed.
Lemma ingest_config walk b now p addrs : book_config_ (IngestRemoteAddrs walk b now p addrs) = book_config_ b.
Proof. unfold IngestRemoteAddrs. case_bool_decide; [done|]. cbv zeta. case_bool_decide; [done|]. apply registers_config. Qed.
End Book.
Create Rewrite HintDb book.
#[export] Hint Rewrite @reset_config @advance_config @promote_config @forget_config @erase_config @dec_config
  @register_config @registers_config @ingest_config : book.

(** ** Quiet operations *)

Section Steps.
Context {L K C E : Type} `{ManagedLinkLaws L K C} `{DialEndpoint E K} `{Inet6} `{GenericHash}.
Context (walk_ids : forall A, gmap Z A -> list (Z * A)) (walk_keys : forall A, gmap string A -> list (string * A)).
Context (walk_protocols : gmap bytes (option HandlerRef) -> list (bytes * option HandlerRef)).
Context (jitter : Z -> Z).
Abbreviation M := (Manager L E).
Abbreviation Table := (LinkTable L).

(** Those who wait: for an association, a nested link, an answer of a peer, a channel. *)
Definition waiting (m : M) : list nat :=
  held_in cb_of (inflight_associations_ m) ++ held_in cb_of (nested_waiters_ m)
  ++ held_in (fun cb => [cb]) (verify_waiters_ m) ++ (channel_open_waiters_ m ≫= fun w => opt_cb (cw_done w)).
Definition tally (m : M) : list nat := waiting m ++ (mgr_log m ≫= event_cbs).

Definition quiet_op (op : table_op (L := L)) : Prop :=
  match op with
  | OpErase _ | OpBind _ _ | OpSetPresence _ _ _ => True
  | OpUpdate _ f => forall l, (tl_handle (f l) = tl_handle l /\ tl_key (f l) = tl_key l) /\ keeps l (f l)
  | _ => False
  end.
Definition quiet_table (t t' : Table) : Prop := exists ops, Forall quiet_op ops /\ t' = table_run t ops.
#[export] Instance quiet_table_preorder : PreOrder quiet_table.
Proof.
  split; [by exists []|]. intros t1 t2 t3 (ops1 & H1' & ->) (ops2 & H2' & ->). exists (ops1 ++ ops2). split; [by apply Forall_app|].
  unfold table_run. by rewrite fold_left_app.
Qed.
Lemma quiet_table_step t op : quiet_op op -> quiet_table t (table_step t op).
Proof. intros Hop. exists [op]. by split; [apply Forall_singleton|]. Qed.

(** [m] comes from [m0] with [new] brought in, of which [hand] are in hand. *)
Record quiet (new : list nat) (m0 : M) (hand : list nat) (m : M) : Prop := {
  q_table : quiet_table (table_ m0) (table_ m);
  q_config : config_ m = config_ m0;
  q_now : amp_now m = amp_now m0;
  q_log : mgr_log m0 `prefix_of` mgr_log m;
  q_tally : hand ++ tally m ≡ₚ new ++ tally m0;
}.
Lemma quiet_refl k m : quiet k m k m.
Proof. by split. Qed.

Lemma quiet_step_to {new m0} h h' m m' : quiet new m0 h m ->
  quiet_table (table_ m) (table_ m') -> config_ m' = config_ m -> amp_now m' = amp_now m -> mgr_log m `prefix_of` mgr_log m' ->
  h' ++ tally m' ≡ₚ h ++ tally m -> quiet new m0 h' m'.
Proof.
  intros [T1 C1 N1 L1 W1] HT HC HN HL HW. split; [by transitivity (table_ m)|congruence|congruence|by transitivity (mgr_log m)|by rewrite HW, W1].
Qed.
Lemma quiet_set {new m0} h m m' : quiet new m0 h m ->
  table_ m' = table_ m -> config_ m' = config_ m -> inflight_associations_ m' = inflight_associations_ m ->
  nested_waiters_ m' = nested_waiters_ m -> verify_waiters_ m' = verify_waiters_ m -> channel_open_waiters_ m' = channel_open_waiters_ m ->
  mgr_log m' = mgr_log m -> amp_now m' = amp_now m -> quiet new m0 h m'.
Proof.
  intros Hq Et Ec Ei En Ev Eo El Ew. apply (quiet_step_to h _ m); [done|by rewrite Et|done|done|by rewrite El|].
  unfold tally, waiting. by rewrite Ei, En, Ev, Eo, El.
Qed.
Lemma quiet_on_table {new m0} h m (f : Table -> Table) op : quiet new m0 h m ->
  f (table_ m) = table_step (table_ m) op -> quiet_op op -> quiet new m0 h (m <| table_ ::= f |>).
Proof.
  intros Hq Hf Hop. apply (quiet_step_to h _ m); [done| |done..]. cbn. rewrite Hf. by apply quiet_table_step.
Qed.
Lemma tally_log e m : tally (log e m) ≡ₚ event_cbs e ++ tally m.
Proof.
  unfold tally, waiting, log. cbn. rewrite bind_app, bind_singleton, app_assoc. apply Permutation_app_comm.
Qed.
Lemma quiet_log {new m0} h m e : event_cbs e = [] -> quiet new m0 h m -> quiet new m0 h (log e m).
Proof. intros He Hq. apply (quiet_step_to h _ m); [done|done|done|done|by apply prefix_app_r|]. by rewrite tally_log, He. Qed.
Lemma quiet_tell {new m0} h m e : quiet new m0 (event_cbs e ++ h) m -> quiet new m0 h (log e m).
Proof.
  intros Hq. apply (quiet_step_to _ _ m _ Hq); [done|done|done|by apply prefix_app_r|]. rewrite tally_log, !app_assoc. by rewrite (Permutation_app_comm h).
Qed.

Ltac quiet_field m :=
  apply (quiet_set _ m); [|reflexivity|first [reflexivity | unfold config_; cbn; repeat case_match_goal; by autorewrite with book]|reflexivity..].
Ltac quiet_step :=
  match goal with
  | |- quiet _ _ _ (match ?x with _ => _ end) => destruct x eqn:?
  | |- quiet _ _ _ (set_field (@table_ _ _) _ ?m) => fail 1
  | |- quiet _ _ _ (set_field _ _ ?m) => quiet_field m
  | |- quiet _ _ _ (log _ _) => apply quiet_log; [reflexivity|]
  end.
Ltac quiet := auto 60 with quiet nocore.
Create HintDb quiet.
#[local] Hint Constants Opaque : quiet.
#[local] Hint Extern 1 (quiet _ _ _ _) => assumption : quiet.
#[local] Hint Resolve quiet_refl : quiet.
#[local] Hint Extern 3 (quiet _ _ _ _) => quiet_step : quiet.

(** *** Links *)

Lemma quiet_fold {new m0} {A} h (f : M -> A -> M) (xs : list A) m :
  (forall m x, quiet new m0 h m -> quiet new m0 h (f m x)) -> quiet new m0 h m -> quiet new m0 h (fold_left f xs m).
Proof. intros Hf. revert m. induction xs as [|x xs IH]; intros m Hm; [done|]. cbn. apply IH. by apply Hf. Qed.
Lemma quiet_fold_pair {new m0} {A S} h (f : M * S -> A -> M * S) (xs : list A) m s :
  (forall m s x, quiet new m0 h m -> quiet new m0 h (f (m, s) x).1) -> quiet new m0 h m -> quiet new m0 h (fold_left f xs (m, s)).1.
Proof.
  intros Hf. revert m s. induction xs as [|x xs IH]; intros m s Hm; [done|]. cbn [fold_left]. specialize (Hf m s x Hm).
  destruct (f (m, s) x) as [m' s']. by apply IH.
Qed.
#[local] Hint Resolve quiet_fold : quiet.
Lemma quiet_update {new m0} h m id (f : L -> L) : (forall l, tl_handle (f l) = tl_handle l) -> (forall l, tl_key (f l) = tl_key l) ->
  (forall l, keeps l (f l)) -> quiet new m0 h m -> quiet new m0 h (m <| table_ ::= fun t => Update t id f |>).
Proof. intros Hh Hk Hf Hm. apply (quiet_on_table _ m _ (OpUpdate id f)); [done|done|]. by split. Qed.
Lemma quiet_act {new m0} h m id a : quiet new m0 h m -> quiet new m0 h (act m id a).
Proof. intros Hm. apply quiet_update; [apply ml_do_handle|apply ml_do_key|intros l; apply ml_do_keeps|done]. Qed.
#[local] Hint Resolve quiet_act : quiet.
Lemma quiet_acts {new m0} h m id l : quiet new m0 h m -> quiet new m0 h (acts m id l).
Proof. unfold acts. quiet. Qed.
Lemma quiet_each {new m0} h (f : M -> L -> M) m :
  (forall m l, quiet new m0 h m -> quiet new m0 h (f m l)) -> quiet new m0 h m -> quiet new m0 h (each walk_ids f m).
Proof. intros Hf Hm. unfold each. quiet. Qed.
#[local] Hint Resolve quiet_acts quiet_each : quiet.
Lemma quiet_call_link {new m0} h m id c : starts c = false ->
  quiet new m0 h m -> quiet new m0 h (m <| table_ ::= fun t => Update t id (fun l => (ml_call c l).1) |>).
Proof. intros Hc Hm. apply quiet_update; [apply ml_call_handle|apply ml_call_key|intros l; by apply ml_call_keeps|done]. Qed.

Lemma quiet_erase {new m0} h m id : quiet new m0 h m -> quiet new m0 h (m <| table_ ::= fun t => EraseById t id |>).
Proof. intros Hm. by apply (quiet_on_table _ m _ (OpErase id)). Qed.
Lemma quiet_presence {new m0} h m id : quiet new m0 h m -> quiet new m0 h (RefreshPresence m id).
Proof.
  intros Hm. unfold RefreshPresence. destruct (FindById _ _) as [l|]; [|done]. destruct (_ || _); [done|].
  by apply (quiet_on_table _ m _ (OpSetPresence (tl_peer l) (tl_transport l) id)).
Qed.
Lemma quiet_bind {new m0} h m id key t b : quiet new m0 h m -> BindDialKey (table_ m) id key = (t, b) -> quiet new m0 h (m <| table_ := t |>).
Proof. intros Hm Hb. apply (quiet_on_table _ m _ (OpBind id key)); [done| |done]. cbn. by rewrite Hb. Qed.
#[local] Hint Resolve quiet_erase quiet_presence : quiet.
#[local] Hint Extern 2 (quiet _ _ _ (set_field (@table_ _ _) (fun _ => _) _)) => eapply quiet_bind; [|eassumption] : quiet.

Lemma quiet_emit {new m0} h m e : quiet new m0 h m -> quiet new m0 h (EmitLinkEvent walk_ids m e).
Proof. intros Hm. unfold EmitLinkEvent. quiet. Qed.
Lemma quiet_verify {new m0} h m id alive : quiet new m0 h m -> quiet new m0 h (AnswerVerifyWaiters m id alive).
Proof.
  intros Hm. unfold AnswerVerifyWaiters. destruct (verify_waiters_ m !! id) as [ws|] eqn:Hws; [|done].
  apply (quiet_tell h _ (MgPostVerify ws alive)). apply (quiet_step_to h _ m); [done..|]. unfold tally, waiting. cbn.
  rewrite (held_delete (fun cb => [cb]) (verify_waiters_ m) id), Hws. cbn [default from_option Datatypes.id]. rewrite bind_self. solve_Permutation.
Qed.
Lemma quiet_schedule {new m0} h m handle r : quiet new m0 h m -> quiet new m0 h (ScheduleDropHandle m handle r).
Proof. intros Hm. unfold ScheduleDropHandle. quiet. Qed.
#[local] Hint Resolve quiet_emit quiet_verify quiet_schedule : quiet.
Lemma quiet_schedule_key {new m0} h m key r : quiet new m0 h m -> quiet new m0 h (ScheduleDropLink m key r).
Proof. intros Hm. unfold ScheduleDropLink. quiet. Qed.
Lemma quiet_orphan {new m0} h m id : quiet new m0 h m -> quiet new m0 h (orphan_carriers walk_ids m id).
Proof. intros Hm. unfold orphan_carriers. quiet. Qed.
#[local] Hint Resolve quiet_schedule_key quiet_orphan : quiet.

(** *** Waiters *)

Lemma quiet_tell_waiters {new m0} h m ws r : quiet new m0 (cbs_of ws ++ h) m -> quiet new m0 h (log (MgPostWaiters ws r) m).
Proof. apply (quiet_tell h m (MgPostWaiters ws r)). Qed.
Lemma quiet_forget {new m0} h m key : quiet new m0 h m -> quiet new m0 (cbs_of (waiters_of m key) ++ h) (forget_waiters m key).
Proof.
  intros Hm. apply (quiet_step_to h _ m); [done..|]. unfold tally, waiting, forget_waiters, waiters_of. cbn.
  rewrite (held_delete cb_of (inflight_associations_ m) key). solve_Permutation.
Qed.
Lemma quiet_forget_nested {new m0} h m id : quiet new m0 h m ->
  quiet new m0 (cbs_of (default [] (nested_waiters_ m !! id)) ++ h) (m <| nested_waiters_ ::= delete id |>).
Proof.
  intros Hm. apply (quiet_step_to h _ m); [done..|]. unfold tally, waiting. cbn.
  rewrite (held_delete cb_of (nested_waiters_ m) id). solve_Permutation.
Qed.
Lemma quiet_push {new m0} h m key cb : quiet new m0 (cb_of cb ++ h) m -> quiet new m0 h (push_waiter m key cb).
Proof.
  intros Hm. apply (quiet_step_to _ _ m _ Hm); [done..|]. unfold tally, waiting, push_waiter. cbn.
  rewrite held_push. solve_Permutation.
Qed.
Lemma quiet_push_nested {new m0} h m id cb : quiet new m0 (cb_of cb ++ h) m ->
  quiet new m0 h (m <| nested_waiters_ ::= partial_alter (fun w => Some (default [] w ++ [cb])) id |>).
Proof.
  intros Hm. apply (quiet_step_to _ _ m _ Hm); [done..|]. unfold tally, waiting. cbn.
  rewrite held_push. solve_Permutation.
Qed.
Lemma quiet_answer {new m0} h m key r : quiet new m0 h m -> quiet new m0 h (answer_waiters m key r).
Proof. intros Hm. unfold answer_waiters. by apply quiet_tell_waiters, quiet_forget. Qed.
#[local] Hint Resolve quiet_answer quiet_push quiet_push_nested : quiet.
Lemma quiet_tell_channel {new m0} h m cb r : quiet new m0 (match cb with Some cb => [cb] | None => [] end ++ h) m -> quiet new m0 h (tell_channel m cb r).
Proof. intros Hm. unfold tell_channel. destruct cb; [|done]. by apply (quiet_tell h m (MgChannel n r)). Qed.
Lemma quiet_open_on_link {new m0} h m l p q cb :
  quiet new m0 (match cb with Some cb => [cb] | None => [] end ++ h) m -> quiet new m0 h (OpenChannelOnLink m l p q cb).
Proof.
  intros Hm. unfold OpenChannelOnLink. destruct (_ || _); cbv zeta; apply quiet_tell_channel; [done|].
  apply quiet_update; [intros; apply ml_open_handle|intros; apply ml_open_key|intros; apply ml_open_keeps|done].
Qed.
Lemma quiet_run_cb {new m0} h m cb r : quiet new m0 (cb_of cb ++ h) m -> quiet new m0 h (RunLinkCb walk_ids m cb r).
Proof.
  intros Hm. unfold RunLinkCb. destruct cb as [[cb|]|key p q cb]; [by apply (quiet_tell h m (MgCall cb r))|done|].
  destruct r; [destruct (ResolveConnectedLink _ m key)|]; first [apply quiet_open_on_link|apply quiet_tell_channel]; done.
Qed.
#[local] Hint Resolve quiet_tell_channel quiet_open_on_link quiet_run_cb : quiet.
Lemma quiet_run_cbs {new m0} h m ws r : quiet new m0 (cbs_of ws ++ h) m -> quiet new m0 h (fold_left (fun m cb => RunLinkCb walk_ids m cb r) ws m).
Proof.
  revert m. induction ws as [|cb ws IH]; intros m Hm; [done|]. cbn [fold_left]. apply IH, quiet_run_cb. by rewrite app_assoc.
Qed.

(** *** Dropping, binding, adopting *)

Lemma quiet_drop {new m0} h m l r : quiet new m0 h m -> quiet new m0 h (DropLinkNow walk_ids m l r).
Proof.
  intros Hm. unfold DropLinkNow. cbv zeta. apply quiet_verify, quiet_emit. set (m1 := if ml_has_mux l then log _ _ else _).
  assert (H1' : quiet new m0 h m1) by (unfold m1; quiet). clearbody m1. destruct (nested_waiters_ m1 !! link_id l) as [ws|] eqn:Hws; [|done].
  apply quiet_tell_waiters. pose proof (quiet_forget_nested h m1 (link_id l) H1') as Hf. by rewrite Hws in Hf.
Qed.
#[local] Hint Resolve quiet_drop : quiet.
Lemma quiet_drop_key {new m0} h m key r : quiet new m0 h m -> quiet new m0 h (DropLink walk_ids m key r).
Proof. intros Hm. unfold DropLink. quiet. Qed.
Lemma quiet_drop_handle {new m0} h m handle r : quiet new m0 h m -> quiet new m0 h (DropLinkByHandle walk_ids m handle r).
Proof. intros Hm. unfold DropLinkByHandle. quiet. Qed.
Lemma quiet_protocols {new m0} h m id : quiet new m0 h m -> quiet new m0 h (ApplyProtocolHandlers walk_protocols m id).
Proof. intros Hm. unfold ApplyProtocolHandlers. quiet. Qed.
#[local] Hint Resolve quiet_drop_key quiet_drop_handle quiet_protocols : quiet.
Lemma quiet_bind_alias {new m0} h m id key : quiet new m0 h m -> quiet new m0 h (BindDialAlias walk_ids walk_protocols m id key).
Proof.
  intros Hm. unfold BindDialAlias. destruct (FindById _ _) as [l|]; [|done]. case_bool_decide; [done|]. cbv zeta. quiet.
Qed.
#[local] Hint Resolve quiet_bind_alias : quiet.
Lemma quiet_adopt_alias {new m0} h m l x : quiet new m0 h m -> quiet new m0 h (adopt_alias walk_ids walk_keys walk_protocols m l x).
Proof. intros Hm. unfold adopt_alias. quiet. Qed.
#[local] Hint Resolve quiet_adopt_alias : quiet.
Lemma quiet_adopt {new m0} h m l : quiet new m0 h m -> quiet new m0 h (AdoptInboundOrDropDuplicate walk_ids walk_keys walk_protocols m l).1.
Proof.
  intros Hm. unfold AdoptInboundOrDropDuplicate. case_bool_decide; [done|]. destruct (find_duplicate _ _ _) as [ex|]; [|cbn; quiet].
  destruct (negb _); [done|]. destruct (ElectDualDialWinner _ _ _); cbn; quiet.
Qed.
Lemma quiet_request {new m0} h m key : quiet new m0 h m -> quiet new m0 h (RequestDropLink walk_ids m key).1.
Proof. intros Hm. unfold RequestDropLink. cbn [fst]. quiet. Qed.
Lemma quiet_close_all {new m0} h m : quiet new m0 h m -> quiet new m0 h (CloseAllLinks walk_ids m).1.
Proof.
  intros Hm. unfold CloseAllLinks. cbv zeta. set (todo := _ ++ _). clearbody todo. set (m1 := m <| pending_drops_ := [] |>).
  apply quiet_fold_pair; [|unfold m1; quiet]. intros m' n handle Hm'. destruct (FindLive _ _); cbn [fst]; quiet.
Qed.
#[local] Hint Resolve quiet_request quiet_close_all : quiet.

(** *** Capabilities and keeping alive *)

Lemma quiet_extension {new m0} h m id : quiet new m0 h m -> quiet new m0 h (SendCapabilityExtension m id).
Proof. intros Hm. unfold SendCapabilityExtension. quiet. Qed.
Lemma quiet_exchange {new m0} h m id : quiet new m0 h m -> quiet new m0 h (StartCapabilityExchange m id).
Proof. intros Hm. unfold StartCapabilityExchange. cbv zeta. quiet. Qed.
Lemma quiet_ingest {new m0} h m l p : quiet new m0 h m -> quiet new m0 h (IngestRemoteCapabilityAddrs walk_keys m l p).
Proof. intros Hm. unfold IngestRemoteCapabilityAddrs. cbv zeta. quiet. Qed.
#[local] Hint Resolve quiet_extension quiet_exchange quiet_ingest : quiet.
Lemma quiet_capability {new m0} h m key p : quiet new m0 h m -> quiet new m0 h (OnCapabilityData walk_ids walk_keys m key p).
Proof. intros Hm. unfold OnCapabilityData. cbv zeta. quiet. Qed.
#[local] Hint Resolve quiet_capability : quiet.
Lemma quiet_ch0 {new m0} h m key p : quiet new m0 h m -> quiet new m0 h (OnCh0Data walk_ids walk_keys m key p).
Proof. intros Hm. unfold OnCh0Data. quiet. Qed.
Lemma quiet_warm {new m0} h m key : quiet new m0 h m -> quiet new m0 h (ManagerMarkWarm walk_ids m key).
Proof. intros Hm. unfold ManagerMarkWarm. cbv zeta. quiet. Qed.
Lemma quiet_hot {new m0} h m key : quiet new m0 h m -> quiet new m0 h (ManagerMarkHot walk_ids m key).
Proof. intros Hm. unfold ManagerMarkHot. quiet. Qed.
Lemma quiet_clear_warm {new m0} h m key : quiet new m0 h m -> quiet new m0 h (ManagerClearWarm walk_ids m key).
Proof. intros Hm. unfold ManagerClearWarm. cbv zeta. quiet. Qed.
Lemma quiet_take_key {new m0} h m tier key :
  quiet new m0 h m -> quiet new m0 h (if bool_decide (key = ""%string) then (m, tier)
                else match pending_keepalive_tiers_ m !! key with
                     | Some t => (m <| pending_keepalive_tiers_ ::= delete key |>, tier_max tier t)
                     | None => (m, tier)
                     end).1.
Proof. intros Hm. case_bool_decide; [done|]. destruct (_ !! key); cbn [fst]; quiet. Qed.
Lemma quiet_pending_tier {new m0} h m id : quiet new m0 h m -> quiet new m0 h (ApplyPendingKeepaliveTier m id).
Proof.
  intros Hm. unfold ApplyPendingKeepaliveTier. destruct (FindById _ _) as [l|]; [|done]. cbv zeta. cbn [fold_left].
  pose proof (quiet_take_key h m TierNone (tl_key l) Hm) as H1'. destruct (if bool_decide (tl_key l = _) then _ else _) as [m1 t1].
  pose proof (quiet_take_key h m1 t1 (tl_peer l) H1') as H2'. destruct (if bool_decide (tl_peer l = _) then _ else _) as [m2 t2]. cbn [fst] in H2'. quiet.
Qed.
Lemma quiet_keepalives {new m0} h m now : quiet new m0 h m -> quiet new m0 h (MaybeSendKeepalives walk_ids m now).
Proof. intros Hm. unfold MaybeSendKeepalives. cbv zeta. quiet. Qed.
Lemma quiet_network {new m0} h m : quiet new m0 h m -> quiet new m0 h (OnNetworkChanged walk_ids m).1.
Proof. intros Hm. unfold OnNetworkChanged. cbv zeta. cbn [fst]. quiet. Qed.
Lemma quiet_verify_link {new m0} h m key w done_ : quiet new m0 (done_ :: h) m -> quiet new m0 h (VerifyLink walk_ids m key w done_).
Proof.
  intros Hm. unfold VerifyLink. cbv zeta. assert (Hanswer : forall alive, quiet new m0 h (log (MgPostVerify [done_] alive) m)).
  { intros alive. by apply (quiet_tell h m (MgPostVerify [done_] alive)). }
  destruct (ResolveConnectedLink _ m key) as [l|]; [|done]. destruct (ml_backed l), (ml_conn l) as [conn|]; try done.
  destruct (_ && _); [done|]. set (m1 := m <| verify_waiters_ ::= _ |>). assert (H1' : quiet new m0 h m1).
  { apply (quiet_step_to _ _ m _ Hm); [done..|]. unfold tally, waiting. cbn. rewrite held_push. solve_Permutation. }
  clearbody m1. clear Hm Hanswer. quiet.
Qed.
#[local] Hint Resolve quiet_pending_tier quiet_keepalives : quiet.

(** *** Established *)

Lemma quiet_path {new m0} h m handle from to : quiet new m0 h m -> quiet new m0 h (OnPathChange walk_ids m handle from to).
Proof. intros Hm. unfold OnPathChange. quiet. Qed.
Lemma quiet_watch {new m0} h m id : quiet new m0 h m -> quiet new m0 h (WatchPathChanges m id).
Proof. intros Hm. unfold WatchPathChanges. quiet. Qed.
Lemma quiet_post_connected {new m0} h m p : quiet new m0 h m -> quiet new m0 h (PostPeerConnected walk_ids m p).
Proof. intros Hm. unfold PostPeerConnected. quiet. Qed.
#[local] Hint Resolve quiet_watch quiet_post_connected : quiet.
Lemma quiet_established {new m0} h m id : quiet new m0 h m -> quiet new m0 h (OnLinkEstablished walk_ids walk_keys walk_protocols m id).1.
Proof.
  intros Hm. unfold OnLinkEstablished. destruct (FindById _ _) as [l|]; [|done]. cbv zeta.
  set (m1 := if _ && _ then act _ id ActMarkPunched else _). assert (H1' : quiet new m0 h m1) by (unfold m1; quiet). clearbody m1.
  pose proof (quiet_adopt h m1 l H1') as H2'. destruct (AdoptInboundOrDropDuplicate _ _ _ m1 l) as [m2 kept]. cbn [fst] in H2'.
  destruct kept; cbn [negb fst]; quiet.
Qed.

(** *** Channels *)

Lemma quiet_set_handler {new m0} h m p f : quiet new m0 h m -> quiet new m0 h (SetMgrProtocolHandler walk_ids walk_protocols m p f).
Proof. intros Hm. unfold SetMgrProtocolHandler. quiet. Qed.
Lemma quiet_set_refuse {new m0} h m b : quiet new m0 h m -> quiet new m0 h (SetMgrRefuseUnhandledOpens walk_ids m b).
Proof. intros Hm. unfold SetMgrRefuseUnhandledOpens. quiet. Qed.
Lemma quiet_remove_handler {new m0} h m p : quiet new m0 h m -> quiet new m0 h (RemoveProtocolHandler walk_ids m p).
Proof. intros Hm. unfold RemoveProtocolHandler. quiet. Qed.
Lemma quiet_clear_handlers {new m0} h m : quiet new m0 h m -> quiet new m0 h (MgrClearProtocolHandlers walk_ids m).
Proof. intros Hm. unfold MgrClearProtocolHandlers. quiet. Qed.
#[local] Hint Resolve quiet_set_handler quiet_remove_handler : quiet.
Lemma quiet_accept_nested {new m0} h m b p : quiet new m0 h m -> quiet new m0 h (EnableNestedCarrierAccept walk_ids walk_protocols m b p).
Proof. intros Hm. unfold EnableNestedCarrierAccept. cbv zeta. quiet. Qed.
Lemma quiet_wait_channel {new m0} h m w : quiet new m0 (opt_cb (cw_done w) ++ h) m ->
  quiet new m0 h (m <| channel_open_waiters_ ::= fun l => l ++ [w] |>).
Proof.
  intros Hm. apply (quiet_step_to _ _ m _ Hm); [done..|]. unfold tally, waiting. cbn. rewrite bind_app, bind_singleton. solve_Permutation.
Qed.
Lemma quiet_when_open {new m0} h m key ch deadline done_ :
  quiet new m0 (opt_cb done_ ++ h) m -> quiet new m0 h (WhenChannelOpen walk_ids m key ch deadline done_).
Proof. intros Hm. by apply quiet_wait_channel. Qed.
Lemma quiet_when_open_on {new m0} h m handle ch deadline done_ :
  quiet new m0 (opt_cb done_ ++ h) m -> quiet new m0 h (WhenChannelOpenOnLink m handle ch deadline done_).
Proof. intros Hm. by apply quiet_wait_channel. Qed.
Lemma quiet_bind_channel {new m0} h m key ch p f g : quiet new m0 h m -> quiet new m0 h (BindChannel walk_ids m key ch p f g).1.
Proof. intros Hm. unfold BindChannel. destruct (ResolveConnectedLink _ m key) as [l|]; [|done]. destruct (ml_has_mux l); cbn [fst]; quiet. Qed.
Lemma quiet_bind_channel_on {new m0} h m handle ch p f g : quiet new m0 h m -> quiet new m0 h (BindChannelOnLink m handle ch p f g).1.
Proof. intros Hm. unfold BindChannelOnLink. destruct (FindLive _ _) as [l|]; [|done]. destruct (_ && _); cbn [fst]; quiet. Qed.

(** *** The end of an establishment *)

Lemma quiet_finish_dial {new m0} h m key handle r : quiet new m0 h m -> quiet new m0 h (FinishDial walk_ids jitter m key handle r).
Proof.
  intros Hm. unfold FinishDial. cbv zeta.
  set (m1 := (m <| book_ ::= DecConcurrentDials |>) <| suppress_dial_backoff_ ::= _ |>). assert (H1' : quiet new m0 h m1) by (unfold m1; quiet).
  clearbody m1. set (b := bool_decide _). clearbody b. clear Hm.
  assert (Hpost : forall m ws, quiet new m0 (cbs_of ws ++ h) m -> quiet new m0 h (match ws with [] => m | _ => log (MgPostWaiters ws r) m end)).
  { intros m' [|w ws] Hm'; [done|]. by apply quiet_tell_waiters. }
  destruct r as [u|e].
  - apply Hpost, quiet_forget. quiet.
  - set (m2 := (m1 <| last_error_ ::= _ |>) <| book_ ::= _ |>). assert (H2' : quiet new m0 h m2) by (unfold m2; quiet). clearbody m2.
    destruct (if b then _ else _) as [book advanced] eqn:Hadv. assert (Hbook : book_config_ book = config_ m2).
    { destruct b; [by injection Hadv as <- <-|]. change book with (book, advanced).1. rewrite <- Hadv. apply advance_config. }
    assert (H3' : quiet new m0 h (m2 <| book_ := book |>)) by (by apply (quiet_set _ m2)). clear Hadv Hbook. set (m3 := m2 <| book_ := book |>) in *. clearbody m3.
    destruct advanced; [quiet|]. apply Hpost. destruct b; [|apply quiet_emit]; apply quiet_forget; quiet.
Qed.
#[local] Hint Resolve quiet_finish_dial : quiet.
Lemma quiet_finish_nested {new m0} h m key handle r : quiet new m0 h m -> quiet new m0 h (FinishNestedCarrier walk_ids walk_protocols m key handle r).
Proof.
  intros Hm. unfold FinishNestedCarrier. cbv zeta. set (m1 := match FindLive _ _ with Some _ => _ | None => m end).
  assert (H1' : quiet new m0 h m1) by (unfold m1; quiet). clearbody m1. apply quiet_run_cbs.
  pose proof (quiet_forget_nested h m1 (lh_id handle) H1'). set (ws := cbs_of _ ++ h) in *. clearbody ws. quiet.
Qed.
#[local] Hint Resolve quiet_finish_nested : quiet.
Lemma quiet_called {new m0} h m cb r : quiet new m0 h m -> quiet new m0 h (EstablishCalled walk_ids walk_protocols jitter m cb r).
Proof. intros Hm. unfold EstablishCalled. quiet. Qed.
#[local] Hint Resolve quiet_called : quiet.
Lemma quiet_call {new m0} h m id c : starts c = false -> quiet new m0 h m -> quiet new m0 h (call walk_ids walk_protocols jitter m id c).
Proof.
  intros Hc Hm. unfold call. destruct (FindById _ _) as [l|]; [|done]. cbv zeta. pose proof (quiet_call_link h m id c Hc Hm). quiet.
Qed.
#[local] Hint Resolve quiet_call : quiet.
Lemma quiet_call_live {new m0} h m handle c : starts c = false -> quiet new m0 h m -> quiet new m0 h (call_live walk_ids walk_protocols jitter m handle c).
Proof. intros Hc Hm. unfold call_live. destruct (FindLive _ _); [by apply quiet_call|done]. Qed.
Lemma quiet_abort {new m0} h m key : quiet new m0 h m -> quiet new m0 h (AbortInflightDial walk_ids walk_protocols jitter m key).
Proof.
  intros Hm. unfold AbortInflightDial. cbv zeta. apply quiet_tell_waiters.
  set (m1 := ((m <| book_ ::= _ |>) <| last_error_ ::= _ |>) <| pending_candidate_retry_ ::= _ |>).
  assert (H1' : quiet new m0 h m1) by (unfold m1; quiet). clearbody m1. pose proof (quiet_forget h m1 key H1') as H2'.
  set (ws := cbs_of _ ++ h) in *. clearbody ws. set (m2 := forget_waiters m1 key) in *. clearbody m2. clear H1' m1.
  destruct (FindAdpLinkForKey _ m2 key) as [l|]; [|quiet]. destruct (_ && _); [apply quiet_call; [done|]|]; quiet.
Qed.

(** *** The tick *)

Lemma quiet_tick_drops {new m0} h m : quiet new m0 h m -> quiet new m0 h (tick_drops walk_ids m).
Proof. intros Hm. unfold tick_drops. quiet. Qed.
Lemma quiet_tick_aliases {new m0} h m : quiet new m0 h m -> quiet new m0 h (tick_aliases walk_ids walk_protocols m).
Proof. intros Hm. unfold tick_aliases. quiet. Qed.
Lemma quiet_fail_timed_out {new m0} h m handle : quiet new m0 h m -> quiet new m0 h (fail_timed_out walk_ids walk_protocols jitter m handle).
Proof.
  intros Hm. unfold fail_timed_out. destruct (FindLive _ _) as [l|]; [|done].
  pose proof (quiet_call h m (link_id l) CallFailTimeout eq_refl Hm). quiet.
Qed.
Lemma quiet_tick_handshakes {new m0} h m : quiet new m0 h m -> quiet new m0 h (tick_handshakes walk_ids walk_protocols jitter m).
Proof.
  intros Hm. unfold tick_handshakes. cbv zeta. apply quiet_fold.
  { intros m' handle Hm'. by apply quiet_fail_timed_out. }
  apply quiet_fold; [intros m' [handle versions] Hm'; by apply quiet_call_live|].
  apply quiet_fold; [intros m' handle Hm'; by apply quiet_call_live|done].
Qed.
Lemma quiet_tick_nested {new m0} h m l : quiet new m0 h m -> quiet new m0 h (tick_nested walk_ids walk_protocols jitter m l).1.
Proof.
  intros Hm. unfold tick_nested. cbv zeta. destruct (_ && _); [done|]. cbn [fst]. apply quiet_call; [done|]. by apply quiet_call.
Qed.
Lemma quiet_tick_adp {new m0} h m l : quiet new m0 h m -> quiet new m0 h (tick_adp m l).1.
Proof. intros Hm. unfold tick_adp. cbv zeta. destruct (judge_suspect m l); cbn [fst]; quiet. Qed.
Lemma quiet_tick_link {new m0} h m l : quiet new m0 h m -> quiet new m0 h (tick_link walk_ids walk_protocols jitter m l).1.
Proof.
  intros Hm. unfold tick_link. cbv zeta. set (m1 := if ml_has_mux l then _ else m). assert (H1' : quiet new m0 h m1) by (unfold m1; quiet). clearbody m1.
  destruct (FindById _ _) as [l'|]; [|done]. destruct (ml_backed l'); [by apply quiet_tick_nested|by apply quiet_tick_adp].
Qed.
Lemma quiet_tick_evict {new m0} h m : quiet new m0 h m -> quiet new m0 h (tick_evict walk_ids walk_protocols jitter m).
Proof.
  intros Hm. unfold tick_evict. destruct (fold_left _ (links walk_ids m) (m, [])) as [m1 evict] eqn:Hf.
  assert (H1' : quiet new m0 h m1).
  { change m1 with (m1, evict).1. rewrite <- Hf. apply quiet_fold_pair; [|done]. clear m evict m1 Hf Hm. intros m s l Hm.
    destruct (FindById _ _) as [l'|]; [|done]. pose proof (quiet_tick_link h m l' Hm) as H2'. by destruct (tick_link _ _ _ m l') as [m2 v]. }
  quiet.
Qed.
(** The waits that end, and those that go on, whatever ends them. *)
Lemma waits_split (verdict : ChannelOpenWaiter -> option bool) (l : list ChannelOpenWaiter) :
  (l ≫= fun w => opt_cb (cw_done w))
  ≡ₚ (omap (fun w => match verdict w, cw_done w with Some open, Some done_ => Some (done_, open) | _, _ => None end) l).*1
     ++ (filter (fun w => verdict w = None) l ≫= fun w => opt_cb (cw_done w)).
Proof.
  induction l as [|w l IH]; [done|]. rewrite bind_cons, IH, filter_cons. cbn [omap list_omap]. destruct (verdict w) as [open|]; cbn.
  - by destruct (cw_done w).
  - solve_Permutation.
Qed.
Lemma quiet_tell_channels {new m0} h m (verdicts : list (nat * bool)) : quiet new m0 (verdicts.*1 ++ h) m ->
  quiet new m0 h (fold_left (fun m '(done_, open) => log (MgPostChannelOpen done_ open) m) verdicts m).
Proof.
  revert m. induction verdicts as [|[done_ open] verdicts IH]; intros m Hm; [done|]. cbn [fold_left]. apply IH.
  by apply (quiet_tell _ m (MgPostChannelOpen done_ open)).
Qed.
Lemma quiet_tick_waiters {new m0} h m : quiet new m0 h m -> quiet new m0 h (tick_waiters walk_ids m).
Proof.
  intros Hm. unfold tick_waiters. cbv zeta. apply quiet_tell_channels. apply (quiet_step_to h _ m); [done..|]. unfold tally, waiting. cbn.
  rewrite (waits_split (channel_verdict walk_ids m) (channel_open_waiters_ m)). solve_Permutation.
Qed.
#[local] Hint Resolve quiet_tick_drops quiet_tick_aliases quiet_tick_handshakes quiet_tick_evict quiet_tick_waiters : quiet.

(** ** What quiet operations leave of the links *)

(** Links come from links, by changes within [keeps]. *)
Definition comes_from (t t' : Table) : Prop :=
  forall id l', by_id_ t' !! id = Some l' -> exists l, by_id_ t !! id = Some l /\ tl_handle l' = tl_handle l /\ keeps l l'.
#[export] Instance comes_from_preorder : PreOrder comes_from.
Proof.
  split; [by intros t id l Hl; exists l|]. intros t1 t2 t3 H12 H23 id l3 Hl3. destruct (H23 id l3 Hl3) as (l2 & Hl2 & E2 & K2).
  destruct (H12 id l2 Hl2) as (l1 & Hl1 & E1 & K1). exists l1. split_and!; [done|congruence|by transitivity l2].
Qed.
Lemma same_comes_from t t' : by_id_ t' = by_id_ t -> comes_from t t'.
Proof. intros E1 id l Hl. rewrite E1 in Hl. by exists l. Qed.
Lemma erase_ids (t : Table) id : by_id_ (EraseById t id) = delete id (by_id_ t).
Proof.
  unfold EraseById. destruct (by_id_ t !! id) as [link|] eqn:Hl; [|by rewrite delete_id].
  cbv zeta. set (t1 := if bool_decide _ then _ else t). assert (E1 : by_id_ t1 = by_id_ t) by (unfold t1; by case_bool_decide).
  clearbody t1. destruct (ClearPresence_same t1 (tl_peer link) (tl_transport link) id) as (_ & E2 & _). cbn. case_bool_decide; cbn; congruence.
Qed.
Lemma quiet_op_from t op : quiet_op op -> comes_from t (table_step t op).
Proof.
  intros Hop. destruct op as [link|link|id|key|id key|key|p tr id|p tr id|id f|]; try done; cbn [table_step].
  - intros id' l. rewrite erase_ids. intros [_ Hl]%lookup_delete_Some. by exists l.
  - unfold BindDialKey, FindById. destruct (by_id_ t !! id) as [link|] eqn:Hl; [|done]. cbv zeta.
    case_bool_decide; [by apply same_comes_from|]. destruct (match _ with Some _ => _ | None => false end); [done|]. cbn [fst].
    set (t1 := if bool_decide _ then _ else t). assert (E1 : by_id_ t1 = by_id_ t) by (unfold t1; by case_bool_decide). clearbody t1.
    intros id' l. cbn. rewrite E1. intros [[<- <-]|[_ Hl']]%lookup_insert_Some; [|by exists l].
    exists link. split_and!; [done|apply tl_rebind_handle|apply ml_rebind_keeps].
  - apply same_comes_from. unfold SetPresence. by destruct (_ || _).
  - intros id' l'. cbn. intros [(<- & l & Hl & ->)|[_ Hl]]%lookup_alter_Some; [|by exists l']. destruct (Hop l) as [[Hh _] Hk]. by exists l.
Qed.
Lemma quiet_from t t' : quiet_table t t' -> comes_from t t'.
Proof.
  intros (ops & Hops & ->). revert t. induction Hops as [|op ops Hop _ IH]; intros t; [done|].
  transitivity (table_step t op); [by apply quiet_op_from|apply IH].
Qed.
Lemma quiet_op_ok ops : Forall quiet_op ops -> Forall table_op_ok ops.
Proof. intros Hops. eapply Forall_impl; [exact Hops|]. intros op Hop. destruct op; try done. cbn. intros l. apply Hop. Qed.

(** A link is under its own id. *)
Definition keyed (t : Table) : Prop := forall id l, by_id_ t !! id = Some l -> link_id l = id.
Lemma from_keyed t t' : comes_from t t' -> keyed t -> keyed t'.
Proof. intros Hf Hk id l' Hl'. destruct (Hf id l' Hl') as (l & Hl & Eh & _). unfold link_id. rewrite Eh. by apply Hk. Qed.
(** What does not come about by itself does not become more. *)
Definition goes_down (P : L -> bool) : Prop := forall l l', keeps l l' -> P l' = true -> P l = true.
Lemma from_count P t t' : goes_down P -> comes_from t t' -> (count P t' <= count P t)%nat.
Proof. intros HP Hf. apply count_le. intros id l' Hl' HP'. destruct (Hf id l' Hl') as (l & Hl & _ & Hk). exists l. eauto. Qed.

(** The links that hold a slot, and the accepted ones that still shake hands. *)
Definition holds_slot (l : L) : bool := negb (conn_gone l).
Definition pending (l : L) : bool := negb (ml_backed l) && negb (ml_outbound l) && is_phase Handshaking l.
Lemma holds_slot_down : goes_down holds_slot.
Proof.
  intros l l' [_ _ Hg _ _]. unfold holds_slot. intros H'%negb_true_iff. apply negb_true_iff. destruct (conn_gone l); [by rewrite Hg in H'|done].
Qed.
Lemma pending_down : goes_down pending.
Proof.
  intros l l' [Ht Ho _ Hp _] [[Hb Hout]%andb_true_iff Hph]%andb_true_iff. unfold pending, ml_backed in *. rewrite Ht in Hb. rewrite Ho in Hout.
  rewrite Hb, Hout. cbn. destruct Hp as [E1|Hd]; [by unfold is_phase in *; rewrite E1 in Hph|].
  unfold dialing in Hd. by rewrite Hph in Hd.
Qed.

(** ** Operations that enter links *)

Record goes (new : list nat) (m0 : M) (hand : list nat) (m : M) : Prop := {
  g_table : exists ops, Forall table_op_ok ops /\ table_ m = table_run (table_ m0) ops;
  g_config : config_ m = config_ m0;
  g_now : amp_now m = amp_now m0;
  g_log : mgr_log m0 `prefix_of` mgr_log m;
  g_tally : hand ++ tally m ≡ₚ new ++ tally m0;
  g_keyed : keyed (table_ m0) -> keyed (table_ m);
  g_slots : keyed (table_ m0) ->
    (count holds_slot (table_ m) <= count holds_slot (table_ m0) `max` Z.to_nat (max_links (config_ m0)))%nat;
  g_pending : (count pending (table_ m) <= count pending (table_ m0) `max` Z.to_nat (max_pending_inbound (config_ m0)))%nat;
}.
Lemma goes_refl new m : goes new m new m.
Proof. split; auto; [by exists []|lia|lia]. Qed.
Lemma goes_trans k h1 h2 m1 m2 m3 : goes k m1 h1 m2 -> goes h1 m2 h2 m3 -> goes k m1 h2 m3.
Proof.
  intros [(ops1 & O1 & T1) C1 N1 L1 W1 K1 S1 P1] [(ops2 & O2 & T2) C2 N2 L2 W2 K2 S2 P2]. split.
  - exists (ops1 ++ ops2). split; [by apply Forall_app|]. rewrite T2, T1. unfold table_run. by rewrite fold_left_app.
  - congruence.
  - congruence.
  - by transitivity (mgr_log m2).
  - by rewrite W2, W1.
  - auto.
  - intros Hk. specialize (S1 Hk). specialize (S2 (K1 Hk)). rewrite C1 in S2. lia.
  - rewrite C1 in P2. lia.
Qed.
Lemma quiet_goes k h m m' : quiet k m h m' -> goes k m h m'.
Proof.
  intros [T1 C1 N1 L1 W1]. pose proof (quiet_from _ _ T1) as Hf. split; [|done..| | |].
  - destruct T1 as (ops & Hops & E1). exists ops. split; [by apply quiet_op_ok|done].
  - by apply from_keyed.
  - intros _. pose proof (from_count _ _ _ holds_slot_down Hf). lia.
  - pose proof (from_count _ _ _ pending_down Hf). lia.
Qed.
Lemma goes_quiet k m0 h m h' m' : goes k m0 h m -> quiet h m h' m' -> goes k m0 h' m'.
Proof. intros Hg Hq. eapply goes_trans; [exact Hg|by apply quiet_goes]. Qed.

(** *** A link is entered *)

Lemma insert_link_shape (m : M) l m1 l1 : link_id l = 0 -> insert_link m l = (m1, l1) ->
  (exists t, m1 = m <| table_ := t |>) /\ table_ m1 = table_step (table_ m) (OpEnter l)
  /\ (forall id, id <> link_id l1 -> by_id_ (table_ m1) !! id = by_id_ (table_ m) !! id)
  /\ by_id_ (table_ m1) !! link_id l1 = Some l1
  /\ tl_transport l1 = tl_transport l /\ ml_outbound l1 = ml_outbound l.
Proof.
  unfold link_id, insert_link, AssignLinkIdentity. intros Hz. unfold link_id. rewrite Hz. change (LinkId_valid 0) with false. cbv iota.
  cbn [table_step]. destruct (AllocId (table_ m)) as [t1 id] eqn:Ha. destruct (NextGeneration t1) as [t2 g] eqn:Hg.
  assert (E1 : by_id_ t2 = by_id_ (table_ m)) by (injection Ha as <- <-; by injection Hg as <- <-). cbv iota beta zeta. change (table_ (m <| table_ := t2 |>)) with t2.
  unfold Insert. set (la := tl_set_identity l id g). assert (Hla : tl_transport la = tl_transport l /\ ml_outbound la = ml_outbound l) by apply ml_identity_same.
  destruct (LinkId_valid (lh_id (tl_handle la))).
  - intros [= <- <-]. split_and!; [by eexists|done| |by cbn; rewrite lookup_insert_eq|apply Hla|apply Hla].
    intros id' Hid'. cbn. by rewrite lookup_insert_ne, E1.
  - destruct (AllocId t2) as [t3 id2] eqn:Ha2. destruct (NextGeneration t3) as [t4 g2] eqn:Hg2.
    assert (E2 : by_id_ t4 = by_id_ t2) by (injection Ha2 as <- <-; by injection Hg2 as <- <-).
    set (lb := tl_set_identity la id2 g2). assert (Hlb : tl_transport lb = tl_transport la /\ ml_outbound lb = ml_outbound la) by apply ml_identity_same.
    intros [= <- <-]. split_and!; [by eexists|done| |by cbn; rewrite lookup_insert_eq|..]; [|by rewrite (proj1 Hlb), (proj1 Hla)|by rewrite (proj2 Hlb), (proj2 Hla)].
    intros id' Hid'. cbn. by rewrite lookup_insert_ne, E2, E1.
Qed.

Context (walk_perm : forall A (g : gmap Z A), walk_ids A g ≡ₚ map_to_list g).
Lemma links_count (P : L -> bool) (m : M) : length (filter (fun l => P l = true) (links walk_ids m)) = count P (table_ m).
Proof. unfold links, walk_links. apply count_walk, walk_perm. Qed.
Lemma links_elem (m : M) l : l ∈ links walk_ids m -> exists id, by_id_ (table_ m) !! id = Some l.
Proof.
  unfold links, walk_links. rewrite walk_perm, list_elem_of_fmap. intros ([id l'] & -> & Hin%elem_of_map_to_list). by exists id.
Qed.
Lemma room (m : M) : AtLinkCapacityLocked walk_ids m = false -> (S (count holds_slot (table_ m)) <= Z.to_nat (max_links (config_ m)))%nat.
Proof.
  unfold AtLinkCapacityLocked. intros Hroom%Z.leb_gt. unfold size in Hroom. rewrite <- (links_count holds_slot).
  assert (Hs : table_size (table_ m) = Z.of_nat (length (links walk_ids m))).
  { unfold table_size, links, walk_links. by rewrite length_fmap, walk_perm, length_map_to_list. }
  pose proof (filter_split conn_gone (links walk_ids m)) as Hsplit. unfold holds_slot. lia.
Qed.

(** A link is entered with room for it, and starts. *)
Lemma goes_start k m0 h (m : M) l c : goes k m0 h m -> link_id l = 0 ->
  (keyed (table_ m0) ->
   S (count holds_slot (table_ m)) <= count holds_slot (table_ m0) `max` Z.to_nat (max_links (config_ m0)))%nat ->
  (ml_backed l = true \/ ml_outbound l = true
   \/ (S (count pending (table_ m)) <= Z.to_nat (max_pending_inbound (config_ m0)))%nat) ->
  let '(m1, l1) := insert_link m l in
  goes k m0 h (m1 <| table_ ::= fun t => Update t (link_id l1) (fun l => (ml_call c l).1) |>).
Proof.
  intros [(ops & Hops & T0) C0 N0 L0 W0 K0 S0 P0] Hz Hroom Hpend. destruct (insert_link m l) as [m1 l1] eqn:Hi.
  destruct (insert_link_shape m l m1 l1 Hz Hi) as ((t & Em) & Et & Hother & Hl1 & Htr & Hout).
  set (m2 := m1 <| table_ ::= _ |>).
  assert (Hid : forall id, id <> link_id l1 -> by_id_ (table_ m2) !! id = by_id_ (table_ m) !! id).
  { intros id Hne. cbn. by rewrite lookup_alter_ne, Hother. }
  assert (Hnew : by_id_ (table_ m2) !! link_id l1 = Some (ml_call c l1).1) by (cbn; by rewrite lookup_alter_eq, Hl1).
  assert (Hmore : forall P, (count P (table_ m2) <= S (count P (table_ m)))%nat).
  { intros P. apply (count_new P _ _ (link_id l1)). intros id l' Hne Hl' HP. rewrite Hid in Hl' by done. eauto. }
  destruct (ml_call_same c l1) as [Htr' Hout']. split.
  - exists (ops ++ [OpEnter l; OpUpdate (link_id l1) (fun l => (ml_call c l).1)]). split.
    + apply Forall_app. split; [done|]. repeat constructor; [exact Hz|apply ml_call_handle|apply ml_call_key].
    + unfold table_run. rewrite fold_left_app. fold (table_run (table_ m0) ops). rewrite <- T0.
      change (Update (table_ m1) (link_id l1) (fun l => (ml_call c l).1) = Update (table_step (table_ m) (OpEnter l)) (link_id l1) (fun l => (ml_call c l).1)).
      by rewrite Et.
  - by subst m1.
  - by subst m1.
  - by subst m1.
  - by subst m1.
  - intros Hk id l' Hl'. destruct (decide (id = link_id l1)) as [->|Hne].
    + rewrite Hnew in Hl'. injection Hl' as <-. unfold link_id. by rewrite ml_call_handle.
    + rewrite Hid in Hl' by done. by apply K0.
  - intros Hk. specialize (Hroom Hk). pose proof (Hmore holds_slot). lia.
  - destruct Hpend as [Hb|[Ho|Hp]]; [| |pose proof (Hmore pending); lia].
    1,2: transitivity (count pending (table_ m)); [|lia]; apply count_le; intros id l' Hl' HP;
      (destruct (decide (id = link_id l1)) as [->|Hne]; [|rewrite Hid in Hl' by done; by exists l']);
      rewrite Hnew in Hl'; injection Hl' as <-; exfalso; revert HP; unfold pending, ml_backed in *; rewrite Htr', Hout', Htr, Hout.
    + by rewrite Hb.
    + rewrite Ho. by rewrite andb_false_r.
Qed.
(** The link may be given waiters before it starts. *)
Lemma goes_call_start k m0 h m l c m1 l1 h' m2 : goes k m0 h m -> link_id l = 0 ->
  (keyed (table_ m0) ->
   S (count holds_slot (table_ m)) <= count holds_slot (table_ m0) `max` Z.to_nat (max_links (config_ m0)))%nat ->
  (ml_backed l = true \/ ml_outbound l = true
   \/ (S (count pending (table_ m)) <= Z.to_nat (max_pending_inbound (config_ m0)))%nat) ->
  insert_link m l = (m1, l1) -> table_ m2 = table_ m1 ->
  (forall g : Table -> Table, quiet h (m1 <| table_ ::= g |>) h' (m2 <| table_ ::= g |>)) ->
  goes k m0 h' (call walk_ids walk_protocols jitter m2 (link_id l1) c).
Proof.
  intros Hm Hz Hroom Hpend Hi Et Hq. pose proof (goes_start k m0 h m l c Hm Hz Hroom Hpend) as Hs. rewrite Hi in Hs.
  destruct (insert_link_shape m l m1 l1 Hz Hi) as (_ & _ & _ & Hl1 & _).
  pose proof (goes_quiet _ _ _ _ _ _ Hs (Hq _)) as Hg.
  unfold call, FindById. rewrite Et, Hl1. cbv zeta. destruct (ml_call c l1).2 as [[cb r]|]; [|exact Hg].
  eapply goes_quiet; [exact Hg|]. apply quiet_called, quiet_refl.
Qed.

(** *** Dialing and accepting *)

Section Goes.
Context (new : list nat) (m0 : M).
Abbreviation G := (goes new m0).

Lemma goes_by h m h' m' : G h m -> (forall k m1, quiet k m1 h m -> quiet k m1 h' m') -> G h' m'.
Proof. intros Hm Hq. eapply goes_quiet; [exact Hm|]. apply Hq, quiet_refl. Qed.

Lemma goes_start_dial h m key rec connection draw : G h m -> AtLinkCapacityLocked walk_ids m = false ->
  G h (start_dial walk_ids walk_protocols jitter m key rec connection draw).
Proof.
  intros Hm Hroom%room. unfold start_dial. cbv zeta. set (m1 := m <| book_ ::= IncConcurrentDials |>).
  assert (H1' : G h m1) by (eapply goes_by; [exact Hm|]; intros k m' Hq; unfold m1; quiet).
  destruct (ml_adp_new key (er_peer_id rec) true connection) as (Hz & _ & Ho). destruct (insert_link m1 _) as [m2 l2] eqn:Hi.
  apply (goes_call_start _ _ h m1 _ _ m2 l2 h m2 H1' Hz); [|tauto|done|done|].
  { intros _. change (table_ m1) with (table_ m). rewrite (g_config _ _ _ _ Hm) in Hroom. lia. }
  intros g. apply quiet_refl.
Qed.
Lemma goes_fail_candidate h (dial : M -> string -> M) m key message : (forall m, G h m -> G h (dial m key)) ->
  G h m -> G h (FailCandidate_with jitter dial m key message).
Proof.
  intros Hd Hm. unfold FailCandidate_with. cbv zeta. destruct (AdvanceDialCandidate _ _ key) as [book advanced] eqn:Hadv.
  assert (Hbook : book_config_ book = config_ m).
  { change book with (book, advanced).1. rewrite <- Hadv. apply advance_config. }
  set (m1 := (m <| last_error_ ::= _ |>) <| book_ := book |>).
  assert (H1' : G h m1) by (eapply goes_by; [exact Hm|]; intros k m' Hq; by apply (quiet_set _ m)). clearbody m1.
  destruct advanced; [by apply Hd|]. eapply goes_by; [exact H1'|]. intros k m' Hq. quiet.
Qed.
Lemma goes_resolution h (dial : M -> string -> M) m key : (forall m, G h m -> G h (dial m key)) ->
  G h m -> G h (StartResolution_with jitter dial m key).
Proof.
  intros Hd Hm. unfold StartResolution_with. destruct (BookFind _ key) as [rec|]; [|by apply goes_fail_candidate].
  destruct (negb _); [by apply goes_fail_candidate|]. eapply goes_by; [exact Hm|]. intros k m' Hq. quiet.
Qed.
Lemma goes_begin h fuel draw m key : G h m -> G h (begin_dial walk_ids walk_protocols jitter fuel draw m key).
Proof.
  revert m. induction fuel as [|fuel IH]; intros m Hm; [done|]. cbn [begin_dial]. unfold dial_step. cbv zeta.
  destruct (match FindByDialKey _ _ with Some _ => _ | None => false end); [eapply goes_by; [exact Hm|]; intros k m' Hq; quiet|].
  destruct (BookFind _ key) as [rec|]; [|eapply goes_by; [exact Hm|]; intros k m' Hq; quiet].
  destruct (too_many_dials m); [eapply goes_by; [exact Hm|]; intros k m' Hq; quiet|].
  destruct (AtLinkCapacityLocked _ m) eqn:Hroom; [eapply goes_by; [exact Hm|]; intros k m' Hq; quiet|].
  destruct (NeedsResolution _ _ _); [by apply goes_resolution|].
  destruct (open_dial m rec draw) as [m1 opened] eqn:Ho. assert (E1 : exists e, m1 = m <| endpoint_ := e |>).
  { revert Ho. unfold open_dial. cbv zeta. destruct (ep_open _ _ _) as [e [c|er]]; [intros [= <- <-]; by exists e|].
    destruct (contains _ _); [|intros [= <- <-]; by exists e]. destruct (ep_open _ _ _) as [e' o']. intros [= <- <-]. by exists e'. }
  destruct E1 as [e ->]. assert (H1' : G h (m <| endpoint_ := e |>)) by (eapply goes_by; [exact Hm|]; intros k m' Hq; quiet).
  destruct opened; [by apply goes_start_dial|]. apply (goes_by h _ _ _ H1'). intros k m' Hq. by apply quiet_answer.
Qed.
Lemma goes_dial h draw m key : G h m -> G h (BeginOutboundDialLocked walk_ids walk_protocols jitter draw m key).
Proof. apply goes_begin. Qed.
Lemma goes_resolved h draw m key ma r : G h m -> G h (OnHostResolved walk_ids walk_protocols jitter draw m key ma r).
Proof.
  intros Hm. unfold OnHostResolved. cbv zeta. set (m1 := match r with Ok _ => _ | Fail _ => _ end).
  assert (H1' : G h m1) by (eapply goes_by; [exact Hm|]; intros k m' Hq; unfold m1; quiet). clearbody m1.
  destruct (BookFind _ key) as [rec|]; [|done]. case_bool_decide; [done|]. destruct (negb _); [by apply goes_dial|].
  destruct r; [by apply goes_dial|]. apply goes_fail_candidate; [|done]. intros m' Hm'. by apply goes_dial.
Qed.
Lemma goes_fresh h draw m key cb : G (cb_of cb ++ h) m -> G h (fresh_dial walk_ids walk_protocols jitter draw m key cb).
Proof.
  intros Hm. unfold fresh_dial. cbv zeta. case_bool_decide; [eapply goes_by; [exact Hm|]; intros k m' Hq; by apply quiet_run_cb|].
  destruct (InBackoff _ _ _); [eapply goes_by; [exact Hm|]; intros k m' Hq; by apply quiet_run_cb|].
  set (m1 := m <| book_ ::= _ |>). assert (H1' : G (cb_of cb ++ h) m1) by (eapply goes_by; [exact Hm|]; intros k m' Hq; unfold m1; quiet).
  clearbody m1. destruct (too_many_dials m1); [eapply goes_by; [exact H1'|]; intros k m' Hq; by apply quiet_run_cb|].
  destruct (AtLinkCapacityLocked _ m1); [eapply goes_by; [exact H1'|]; intros k m' Hq; by apply quiet_run_cb|].
  apply goes_dial. eapply goes_by; [exact H1'|]. intros k m' Hq. apply quiet_push. quiet.
Qed.
Lemma goes_ensure h draw m key cb : G (cb_of cb ++ h) m -> G h (EnsureAssociation walk_ids walk_protocols jitter draw m key cb).
Proof.
  intros Hm. unfold EnsureAssociation. cbv zeta.
  destruct (match FindByDialKey _ _ with Some _ => _ | None => false end); [eapply goes_by; [exact Hm|]; intros k m' Hq; by apply quiet_run_cb|].
  destruct (book_peer_link _ m key) as [ex|].
  - eapply goes_by; [exact Hm|]. intros k m' Hq. apply quiet_run_cb. quiet.
  - case_bool_decide; [eapply goes_by; [exact Hm|]; intros k m' Hq; by apply quiet_push|].
    destruct (FindAdpLinkForKey _ m key) as [ex|]; [|by apply goes_fresh].
    destruct (dialing ex); [eapply goes_by; [exact Hm|]; intros k m' Hq; by apply quiet_push|].
    apply goes_fresh. destruct (is_phase Connected ex); [done|]. eapply goes_by; [exact Hm|]. intros k m' Hq. by apply quiet_drop.
Qed.
Lemma goes_open_channel h draw m key p q cb : G (match cb with Some cb => [cb] | None => [] end ++ h) m ->
  G h (OpenChannel walk_ids walk_protocols jitter draw m key p q cb).
Proof.
  intros Hm. unfold OpenChannel. destruct (ResolveConnectedLink _ m key) as [l|].
  - eapply goes_by; [exact Hm|]. intros k m' Hq. by apply quiet_open_on_link.
  - apply goes_ensure. by destruct cb.
Qed.

(** The link evicted is closed, so it holds no slot any more. *)
Lemma oldest_idle_in (m : M) l rx : oldest_idle walk_ids m = Some (l, rx) -> l ∈ links walk_ids m /\ evictable m l = Some rx.
Proof.
  unfold oldest_idle. set (f := fun oldest l => _).
  enough (Hall : forall ls acc l rx, fold_left f ls acc = Some (l, rx) ->
            (l ∈ ls /\ evictable m l = Some rx) \/ acc = Some (l, rx)).
  { intros Hf. by destruct (Hall _ _ _ _ Hf) as [|]. }
  clear l rx. induction ls as [|x ls IH]; intros acc l rx Hf; [by right|]. cbn [fold_left] in Hf.
  destruct (IH _ _ _ Hf) as [[Hin He]|Hacc]; [left; split; [by right|done]|]. unfold f in Hacc.
  destruct (evictable m x) as [r|] eqn:Hx; [|by right].
  destruct acc as [[o orx]|]; [destruct (r <? orx)|]; try (injection Hacc as <- <-; left; split; [by left|done]); by right.
Qed.
Lemma evict_frees (m m1 : M) : keyed (table_ m) -> EvictIdleInboundLocked walk_ids m = (m1, true) ->
  (count holds_slot (table_ m1) < count holds_slot (table_ m))%nat.
Proof.
  intros Hk. unfold EvictIdleInboundLocked. destruct (oldest_idle _ m) as [[l rx]|] eqn:Ho; [|done]. intros [= <-].
  destruct (oldest_idle_in m l rx Ho) as [Hin He]. destruct (links_elem m l Hin) as [id Hl]. pose proof (Hk id l Hl) as <-.
  assert (Hopen : ml_backed l = false /\ is_Some (ml_conn l) /\ conn_gone l = false).
  { unfold evictable in He. unfold conn_gone. destruct (ml_conn l) as [conn|] eqn:Hc; [|done].
    destruct (ml_backed l); [by rewrite orb_true_r in He|]. destruct (cv_closed conn); [by rewrite !orb_true_r in He|]. by split_and!. }
  destruct Hopen as (Hb & Hc & Hg). cbn.
  apply (count_lt holds_slot _ _ (link_id l) l Hl); [by unfold holds_slot; rewrite Hg| |].
  - intros l'. cbn. rewrite lookup_alter_eq, Hl. intros [= <-]. unfold holds_slot. by rewrite ml_close_gone.
  - intros id' l'. cbn. intros [(<- & l0 & Hl0 & ->)|[_ Hl']]%lookup_alter_Some HP; [|by exists l'].
    exists l0. split; [done|]. by apply (holds_slot_down l0 _ (ml_do_keeps ActCloseConnection l0)).
Qed.
Lemma quiet_evict {k m1} h m : quiet k m1 h m -> quiet k m1 h (EvictIdleInboundLocked walk_ids m).1.
Proof. intros Hm. unfold EvictIdleInboundLocked. destruct (oldest_idle _ m) as [[l rx]|]; cbn [fst]; quiet. Qed.
Lemma goes_inbound h m connection : G h m -> G h (OnInboundConnection walk_ids walk_protocols jitter m connection).1.
Proof.
  intros Hm. unfold OnInboundConnection. destruct (if AtLinkCapacityLocked _ m then _ else _) as [m1 got] eqn:Hgot.
  assert (H1' : G h m1 /\ (got = true -> keyed (table_ m0) ->
            S (count holds_slot (table_ m1)) <= count holds_slot (table_ m0) `max` Z.to_nat (max_links (config_ m0)))%nat).
  { destruct (AtLinkCapacityLocked walk_ids m) eqn:Hcap.
    - split.
      + change m1 with (m1, got).1. rewrite <- Hgot. eapply goes_by; [exact Hm|]. intros k m' Hq. by apply quiet_evict.
      + intros -> Hk. pose proof (evict_frees m m1 (g_keyed _ _ _ _ Hm Hk) Hgot). pose proof (g_slots _ _ _ _ Hm Hk). lia.
    - injection Hgot as <- <-. split; [done|]. intros _ _. pose proof (room m Hcap) as Hroom. rewrite (g_config _ _ _ _ Hm) in Hroom. lia. }
  clear Hgot Hm m. destruct H1' as [Hm Hroom]. destruct got; cbn [negb]; [|done]. specialize (Hroom eq_refl).
  destruct (_ <=? _) eqn:Hpend; [done|]. cbv zeta. destruct (ContainsDialKey _ _); [done|].
  destruct (ml_adp_new (inbound_key connection) "" false connection) as (Hz & _ & _). destruct (insert_link m1 _) as [m2 l2] eqn:Hi. cbn [fst].
  apply (goes_call_start _ _ h m1 _ _ m2 l2 h m2 Hm Hz Hroom); [|done|done|intros g; apply quiet_refl].
  right. right. apply Z.leb_gt in Hpend. rewrite (g_config _ _ _ _ Hm) in Hpend. unfold pending_inbound, size in Hpend.
  enough (count pending (table_ m1) <= length (filter (fun l => ml_outbound l = false /\ tl_phase l = Handshaking) (links walk_ids m1)))%nat by lia.
  rewrite <- links_count. apply sublist_length. clear. induction (links walk_ids m1) as [|l ls IH]; [done|]. rewrite !filter_cons.
  destruct (decide (pending l = true)) as [Hp|]; [|destruct (decide _); [by apply sublist_cons|done]].
  rewrite decide_True; [by apply sublist_skip|]. unfold pending, is_phase in Hp. rewrite !andb_true_iff, !negb_true_iff, bool_decide_eq_true in Hp. tauto.
Qed.
Lemma goes_nested h draw m key carrier initiator cb : G (cb_of cb ++ h) m ->
  G h (EstablishNestedOverCarrier walk_ids walk_protocols jitter draw m key carrier initiator cb).
Proof.
  intros Hm. assert (Hrun : forall r, G h (RunLinkCb walk_ids m cb r)).
  { intros r. eapply goes_by; [exact Hm|]. intros k m' Hq. by apply quiet_run_cb. }
  unfold EstablishNestedOverCarrier. destruct carrier as [carrier|]; [|done]. case_bool_decide; [done|]. cbv zeta.
  set (fresh := if AtLinkCapacityLocked _ m then _ else _). assert (Hfresh : G h fresh).
  { unfold fresh. destruct (AtLinkCapacityLocked _ m) eqn:Hcap; [done|].
    pose proof (room m Hcap) as Hroom. rewrite (g_config _ _ _ _ Hm) in Hroom.
    destruct (ml_nested_new key key initiator carrier) as (Hz & Ht & _). destruct (insert_link m _) as [m1 l1] eqn:Hi.
    eapply (goes_call_start _ _ (cb_of cb ++ h) m _ _ m1 l1 h _ Hm Hz); [intros _; lia| |done|done|].
    - left. unfold ml_backed. by rewrite Ht.
    - intros g. exact (quiet_push_nested h (m1 <| table_ ::= g |>) (lh_id (tl_handle l1)) cb (quiet_refl _ _)). }
  clearbody fresh. destruct (FindNestedLinkForKey _ m key) as [ex|]; [|done]. destruct (is_phase Connected ex); [done|].
  destruct (is_phase Handshaking ex); [|done]. eapply goes_by; [exact Hm|]. intros k m' Hq. by apply quiet_push_nested.
Qed.
Lemma goes_carrier_channel h draw m l ch : G h m -> G h (HandleInboundCarrierChannel walk_ids walk_protocols jitter draw m l ch).
Proof.
  intros Hm. unfold HandleInboundCarrierChannel. destruct (_ || _); [done|]. cbv zeta. apply goes_nested. cbn [cb_of app].
  eapply goes_by; [exact Hm|]. intros k m' Hq.
  apply quiet_update; [intros; apply ml_bind_handle|intros; apply ml_bind_key|intros; apply ml_bind_keeps|done].
Qed.
Lemma goes_protocol_open h draw m closure ch : G h m -> G h (OnProtocolOpen walk_ids walk_protocols jitter draw m closure ch).
Proof.
  intros Hm. unfold OnProtocolOpen. destruct (pc_handler closure) as [[n|]|], (FindLive (table_ m) (pc_handle closure)) as [l|]; try exact Hm.
  - eapply goes_by; [exact Hm|]. intros k m' Hq. quiet.
  - by apply goes_carrier_channel.
Qed.
Lemma goes_tick h draw m : G h m -> G h (ManagerTick walk_ids walk_protocols jitter draw m).
Proof.
  intros Hm. unfold ManagerTick. cbv zeta. set (m1 := tick_drops walk_ids m).
  assert (H1' : G h m1) by (eapply goes_by; [exact Hm|]; intros k m' Hq; unfold m1; quiet). clearbody m1. clear Hm m.
  set (m2 := tick_retries _ _ _ draw m1). assert (H2' : G h m2).
  { unfold m2, tick_retries. assert (H2' : G h (m1 <| pending_candidate_retry_ := [] |>)) by (eapply goes_by; [exact H1'|]; intros k m' Hq; quiet).
    revert H2'. generalize (pending_candidate_retry_ m1) as keys. intros keys. set (m3 := m1 <| pending_candidate_retry_ := [] |>). clearbody m3.
    revert m3. induction keys as [|key keys IH]; intros m Hm; [exact Hm|]. cbn [fold_left]. apply IH. case_bool_decide; [by apply goes_dial|done]. }
  clearbody m2. eapply goes_by; [exact H2'|]. intros k m' Hq. quiet.
Qed.
End Goes.
End Steps.
