(* ===== verification/ToyLink.v ===== *)
(** * A small link and a small socket, for the witnesses of the manager

    The link does what the manager's laws ask, its association up from the start:
    a start begins a handshake, a failing call ends it with the callback called. *)

From S2P Require Import Prelude L1Types L2Types PeerLinkProps Connection ChannelWire Capability ChannelPolicy ChannelMux MshAdpHandshake AdpMultiaddr LinkPolicy LinkWire LinkTable ManagedLink.

Record ToyLink := MkToyLink {
  y_handle : LinkHandle;
  y_key : string;
  y_peer : string;
  y_phase : PeerLinkPhase;
  y_transport : TransportClass;
  y_outbound : bool;
  y_closed : bool;
  y_started : Z;
  y_cb : option EstablishCb;
  y_punched : bool;
}.
#[export] Instance ToyLink_fields : Fields ToyLink := fun l =>
  MkToyLink (y_handle l) (y_key l) (y_peer l) (y_phase l) (y_transport l) (y_outbound l) (y_closed l) (y_started l) (y_cb l) (y_punched l).
Definition toy_conn_view (closed : bool) : ConnView :=
  MkConnView closed false false false [] 1 (fun _ => true) 0 0 IpEndpoint_default ConnectionStats_zero.
#[export] Instance toy_table_link : TableLink ToyLink := {|
  tl_handle := y_handle; tl_key := y_key; tl_peer := y_peer; tl_phase := y_phase; tl_transport := y_transport;
  tl_set_identity := fun l id g => l <| y_handle := MkLinkHandle id g |>;
  tl_rebind := fun l key => l <| y_key := key |>;
|}.
Definition toy_fail (l : ToyLink) (failure : LinkFailure) : ToyLink * option (EstablishCb * LinkRoe) :=
  (l <| y_phase := Backoff |> <| y_cb := None |>, (fun cb => (cb, Fail failure)) <$> y_cb l).
#[export] Instance toy_managed : ManagedLink ToyLink AssocId unit := {|
  ml_outbound := y_outbound;
  ml_punched := y_punched;
  ml_conn := fun l => match y_transport l with Adp => Some (toy_conn_view (y_closed l)) | Carrier => None end;
  ml_carrier := fun l => match y_transport l with Adp => None | Carrier => Some (MkCarrierView (y_closed l) None) end;
  ml_lane_failed := fun _ => false;
  ml_started_ms := y_started;
  ml_tier := fun _ => TierNone;
  ml_last_keepalive_tx := fun _ => 0;
  ml_suspect_since := fun _ => 0;
  ml_suspect_from_verify := fun _ => false;
  ml_last_probe := fun _ => 0;
  ml_capability := fun _ => None;
  ml_extension := fun _ => None;
  ml_extension_sent := fun _ => false;
  ml_exchange_started := fun _ => false;
  ml_offer_sent := fun _ => false;
  ml_has_mux := fun l => bool_decide (y_phase l = Connected);
  ml_channel := fun _ _ => ChannelOpen;
  ml_in_use := fun _ => false;
  ml_open_channels := fun _ g => g;
  ml_do := fun a l => match a with
                      | ActDemote => l <| y_phase := Backoff |>
                      | ActCloseConnection => l <| y_closed := true |>
                      | ActMarkPunched => l <| y_punched := true |>
                      | _ => l
                      end;
  ml_call := fun c l => match c with
                        | CallStart cb _ | CallStartInbound cb => (l <| y_phase := Handshaking |> <| y_cb := Some cb |>, None)
                        | CallFailTimeout => toy_fail l (LinkOf DialTimeout "timeout")
                        | CallFailRefused => toy_fail l (LinkOf TransportFailed "refused")
                        | CallFailVersion _ => toy_fail l (LinkOf VersionMismatch "version")
                        | CallTickHandshake _ | CallTickLane _ => (l, None)
                        end;
  ml_open := fun l _ _ => (l, Ok 2);
  ml_adp := fun key peer outbound _ => MkToyLink (MkLinkHandle 0 0) key peer Handshaking Adp outbound false 1 None false;
  ml_nested := fun key peer outbound _ => MkToyLink (MkLinkHandle 0 0) key peer Handshaking Carrier outbound false 1 None false;
  ml_bind_carrier := fun l _ _ => (l, tt);
|}.
Lemma toy_keeps (l l' : ToyLink) : y_transport l' = y_transport l -> y_outbound l' = y_outbound l -> y_started l' = y_started l ->
  (y_closed l = true -> y_closed l' = true) -> y_phase l' = y_phase l \/ y_phase l' = Backoff -> keeps l l'.
Proof.
  intros Ht Ho Hs Hc Hp. split; cbn; [done|done| | |done].
  - unfold conn_gone, ml_backed. cbn. rewrite Ht. destruct (y_transport l); [|done]. cbn. by rewrite !bool_decide_false.
  - destruct Hp as [|E1]; [by left|right]. unfold dialing, is_phase. cbn. by rewrite E1.
Qed.
#[export] Instance toy_managed_laws : ManagedLinkLaws ToyLink AssocId unit.
Proof.
  split; [by split|..]; try done.
  - by intros [].
  - by intros [].
  - by intros [].
  - intros [] l; apply toy_keeps; auto.
  - by intros [].
  - intros l Hb Hc. unfold conn_gone, ml_backed in *. cbn in *. destruct (y_transport l); [done|by destruct Hc].
  - by intros [].
  - by intros [].
  - by intros [].
  - intros [] l; try done; intros _; apply toy_keeps; auto.
  - by intros [].
  - intros l key. apply toy_keeps; auto.
Qed.

(** A socket that opens whatever it is asked to, under the id drawn. *)
#[export] Instance toy_dial : DialEndpoint unit AssocId := {|
  ep_configure := fun e _ _ => e;
  ep_open := fun e _ id => (e, Ok id);
  ep_conn_id := fun id => id;
|}.
