(* ===== verification/ManagerRuns.v ===== *)
(** * Runs of the manager

    Every operation of the manager in any order, with what its links and its clock do
    in between, and the completions it posts, of every kind, run one after the other, as
    the poster runs them.  The theorems: no callback is lost and none is called twice; the
    limits on links hold; the table only goes through its own operations; and no
    handshake outlives its time. *)

From S2P Require Import Prelude L1Types L2Types PeerLinkProps Connection ChannelWire Capability ChannelPolicy ChannelMux MshAdpHandshake AdpMultiaddr LinkPolicy LinkWire LinkTable DialBook ManagedLink PeerLinkManager ManagerSteps ToyLink.

Section Runs.
Context {L K C E : Type} `{ManagedLinkLaws L K C} `{DialEndpoint E K} `{Inet6} `{GenericHash}.
Context (walk_ids : forall A, gmap Z A -> list (Z * A)) (walk_keys : forall A, gmap string A -> list (string * A)).
Context (walk_protocols : gmap bytes (option HandlerRef) -> list (bytes * option HandlerRef)).
Context (jitter : Z -> Z).
Abbreviation M := (Manager L E).

(** The operations: of the application, of the endpoint, the links and the resolver,
    and time.  [OpLink] is what a link's own connection does to it. *)
Inductive mgr_op :=
  | OpTime (amp steady : Z)
  | OpTick (draw : string -> DialDraw)
  | OpEnsure (draw : DialDraw) (key : string) (cb : option nat)
  | OpOpenChannel (draw : DialDraw) (key : string) (protocol : bytes) (policy : ChannelPolicy) (cb : option nat)
  | OpOpenOnLink (handle : LinkHandle) (protocol : bytes) (policy : ChannelPolicy) (cb : option nat)
  | OpNested (draw : Draw) (key : string) (carrier : option C) (initiator : bool) (cb : option nat)
  | OpAbort (key : string)
  | OpAccept (connection : K)
  | OpResolved (draw : DialDraw) (key multiaddr : string) (result : Roe IpEndpoint)
  | OpLink (id : Z) (f : L -> L)
  | OpEstablished (id : Z)
  | OpCalled (cb : EstablishCb) (result : LinkRoe)
  | OpScheduleDrop (handle : LinkHandle) (reason : LinkDropReason)
  | OpAdoptAlias (remote alias : string)
  | OpPath (handle : LinkHandle) (from to : IpEndpoint)
  | OpCh0 (key : string) (payload : bytes)
  | OpProtocolOpen (draw : Draw) (closure : ProtocolClosure) (channel : Z)
  | OpAcceptNested (enable : bool) (protocol : bytes)
  | OpSetHandler (protocol : bytes) (handler : option HandlerRef)
  | OpRemoveHandler (protocol : bytes)
  | OpClearHandlers
  | OpRefuse (refuse : bool)
  | OpWhenOpen (key : string) (channel deadline : Z) (done_ : option nat)
  | OpWhenOpenOn (handle : LinkHandle) (channel deadline : Z) (done_ : option nat)
  | OpBindChannel (key : string) (channel : Z) (policy : ChannelPolicy) (on_frame on_closed : option nat)
  | OpBindChannelOn (handle : LinkHandle) (channel : Z) (policy : ChannelPolicy) (on_frame on_closed : option nat)
  | OpWarm (key : string) | OpHot (key : string) | OpClearWarm (key : string)
  | OpNetworkChanged
  | OpVerify (key : string) (heard_within : Z) (done_ : nat)
  | OpRequestDrop (key : string)
  | OpCloseAll
  | OpRegister (key multiaddr : string) | OpRegisters (key : string) (multiaddrs : list string) | OpUnregister (key : string)
  | OpClearBackoff (key : string)
  | OpListen (multiaddrs : list bytes) | OpProtocols (protocols : list bytes) | OpNodeInfo (version : bytes) (features : list bytes)
  | OpCapabilityHandler (on : bool) | OpDisclosure (disclosure : option (string -> bool)) | OpResolver (on : bool)
  | OpAddConnected (listener : nat) | OpRemoveConnected (id : Z) | OpSetConnected (listener : option nat) | OpClearConnected
  | OpAddEvents (listener : nat) | OpRemoveEvents (id : Z).

Definition mgr_step (m : M) (op : mgr_op) : M :=
  match op with
  | OpTime amp steady => m <| amp_now := amp |> <| steady_now := steady |>
  | OpTick draw => ManagerTick walk_ids walk_protocols jitter draw m
  | OpEnsure draw key cb => EnsureAssociation walk_ids walk_protocols jitter draw m key (AppCb cb)
  | OpOpenChannel draw key p q cb => OpenChannel walk_ids walk_protocols jitter draw m key p q cb
  | OpOpenOnLink handle p q cb =>
      match FindLive (table_ m) handle with
      | Some l => OpenChannelOnLink m l p q cb
      | None => tell_channel m cb (Fail (MgrOf LinkNotFound ""))
      end
  | OpNested draw key carrier initiator cb =>
      EstablishNestedOverCarrier walk_ids walk_protocols jitter draw m key carrier initiator (AppCb cb)
  | OpAbort key => AbortInflightDial walk_ids walk_protocols jitter m key
  | OpAccept connection => (OnInboundConnection walk_ids walk_protocols jitter m connection).1
  | OpResolved draw key ma r => OnHostResolved walk_ids walk_protocols jitter draw m key ma r
  | OpLink id f => m <| table_ ::= fun t => Update t id f |>
  | OpEstablished id => (OnLinkEstablished walk_ids walk_keys walk_protocols m id).1
  | OpCalled cb r => EstablishCalled walk_ids walk_protocols jitter m cb r
  | OpScheduleDrop handle reason => ScheduleDropHandle m handle reason
  | OpAdoptAlias remote alias => ScheduleAdoptDialAlias m remote alias
  | OpPath handle from to => OnPathChange walk_ids m handle from to
  | OpCh0 key payload => OnCh0Data walk_ids walk_keys m key payload
  | OpProtocolOpen draw closure ch => OnProtocolOpen walk_ids walk_protocols jitter draw m closure ch
  | OpAcceptNested enable p => EnableNestedCarrierAccept walk_ids walk_protocols m enable p
  | OpSetHandler p handler => SetMgrProtocolHandler walk_ids walk_protocols m p handler
  | OpRemoveHandler p => RemoveProtocolHandler walk_ids m p
  | OpClearHandlers => MgrClearProtocolHandlers walk_ids m
  | OpRefuse refuse => SetMgrRefuseUnhandledOpens walk_ids m refuse
  | OpWhenOpen key ch deadline done_ => WhenChannelOpen walk_ids m key ch deadline done_
  | OpWhenOpenOn handle ch deadline done_ => WhenChannelOpenOnLink m handle ch deadline done_
  | OpBindChannel key ch q f g => (BindChannel walk_ids m key ch q f g).1
  | OpBindChannelOn handle ch q f g => (BindChannelOnLink m handle ch q f g).1
  | OpWarm key => ManagerMarkWarm walk_ids m key
  | OpHot key => ManagerMarkHot walk_ids m key
  | OpClearWarm key => ManagerClearWarm walk_ids m key
  | OpNetworkChanged => (OnNetworkChanged walk_ids m).1
  | OpVerify key w done_ => VerifyLink walk_ids m key w done_
  | OpRequestDrop key => (RequestDropLink walk_ids m key).1
  | OpCloseAll => (CloseAllLinks walk_ids m).1
  | OpRegister key ma => (MgrRegisterEndpoint m key ma).1
  | OpRegisters key mas => (MgrRegisterEndpoints m key mas).1
  | OpUnregister key => MgrUnregisterEndpoint m key
  | OpClearBackoff key => ClearDialBackoff m key
  | OpListen mas => SetLocalListenMultiaddrs m mas
  | OpProtocols ps => SetAdvertisedProtocols m ps
  | OpNodeInfo v fs => SetAdvertisedNodeInfo m v fs
  | OpCapabilityHandler on => SetCapabilityHandler m on
  | OpDisclosure d => SetListenAddrDisclosure m d
  | OpResolver on => SetHostResolver m on
  | OpAddConnected n => (AddPeerConnectedListener m n).1
  | OpRemoveConnected id => RemovePeerConnectedListener m id
  | OpSetConnected n => SetPeerConnectedListener m n
  | OpClearConnected => ClearPeerConnectedListeners m
  | OpAddEvents n => (AddLinkEventListener m n).1
  | OpRemoveEvents id => RemoveLinkEventListener m id
  end.

(** The completions an operation brings. *)
Definition op_cbs (op : mgr_op) : list nat :=
  match op with
  | OpEnsure _ _ cb | OpOpenChannel _ _ _ _ cb | OpOpenOnLink _ _ _ cb | OpNested _ _ _ _ cb
  | OpWhenOpen _ _ _ cb | OpWhenOpenOn _ _ _ cb => opt_cb cb
  | OpVerify _ _ cb => [cb]
  | _ => []
  end.
(** A connection changes its link within [keeps], and not its handle or key. *)
Definition mgr_op_ok (op : mgr_op) : Prop :=
  match op with
  | OpLink _ f => forall l, tl_handle (f l) = tl_handle l /\ tl_key (f l) = tl_key l /\ keeps l (f l)
  | _ => True
  end.

(** *** The completions posted *)

(** A callback the poster is to run, and what it tells it. *)
Inductive Told :=
  | LinkTold (cb : LinkCb) (result : MgrRoe)
  | VerifyTold (cb : nat) (alive : bool)
  | ChannelTold (cb : nat) (open : bool)
  | PeerTold (listener : nat) (peer_id : string)
  | EventTold (listener : nat) (event : LinkEvent).
(** The callbacks of a closure, in the order it runs them. *)
Definition posted_of (e : mgr_event) : list Told :=
  match e with
  | MgPostWaiters waiters r => map (fun cb => LinkTold cb r) waiters
  | MgPostVerify waiters alive => map (fun cb => VerifyTold cb alive) waiters
  | MgPostChannelOpen cb open => [ChannelTold cb open]
  | MgPostPeerConnected listeners peer_id => map (fun n => PeerTold n peer_id) listeners
  | MgPostEvent listeners event => map (fun n => EventTold n event) listeners
  | _ => []
  end.
Definition posted (m : M) : list Told := mgr_log m ≫= posted_of.
(** The completions given to the manager that it tells: through [RunLinkCb], which
    logs the call or opens a channel first, or at once. *)
Definition link_cbs (t : Told) : list nat := match t with LinkTold cb _ => cb_of cb | _ => [] end.
Definition direct_cbs (t : Told) : list nat := match t with VerifyTold cb _ | ChannelTold cb _ => [cb] | _ => [] end.
Definition told_cbs (t : Told) : list nat := link_cbs t ++ direct_cbs t.
(** The manager works when a callback of its own runs. *)
Definition run_told (m : M) (t : Told) : M := match t with LinkTold cb r => RunLinkCb walk_ids m cb r | _ => m end.
(** The application's callbacks the manager called. *)
Definition called_of (e : mgr_event) : list nat :=
  match e with MgCall cb _ | MgChannel cb _ => [cb] | _ => [] end.

(** A manager, and how many of the completions it posted have run. *)
Record World := MkWorld { w_mgr : M; w_run : nat }.
Inductive world_op := Do (op : mgr_op) | RunPosted.
Definition world_step (w : World) (op : world_op) : World :=
  match op with
  | Do op => MkWorld (mgr_step (w_mgr w) op) (w_run w)
  | RunPosted =>
      match posted (w_mgr w) !! w_run w with
      | Some t => MkWorld (run_told (w_mgr w) t) (S (w_run w))
      | None => w
      end
  end.
Definition world_run (w : World) (ops : list world_op) : World := fold_left world_step ops w.
Definition world_op_cbs (op : world_op) : list nat := match op with Do op => op_cbs op | RunPosted => [] end.
Definition world_op_ok (op : world_op) : Prop := match op with Do op => mgr_op_ok op | RunPosted => True end.
Definition World_new (endpoint : E) (local_peer_id : string) (config : PeerLinkConfig) : World :=
  MkWorld (Manager_new endpoint local_peer_id config) 0.
(** The completions still in the poster's queue, and those that were called. *)
Definition queued (w : World) : list nat := drop (w_run w) (posted (w_mgr w)) ≫= told_cbs.
Definition called (w : World) : list nat :=
  (mgr_log (w_mgr w) ≫= called_of) ++ (take (w_run w) (posted (w_mgr w)) ≫= direct_cbs).

(** ** One step *)

Context (walk_perm : forall A (g : gmap Z A), walk_ids A g ≡ₚ map_to_list g).

Lemma register_quiet {k m0} h (m : M) b (r : Roe unit) : book_config_ b = config_ m -> quiet k m0 h m -> quiet k m0 h (m <| book_ := b |>, r).1.
Proof. intros Hb Hm. by apply (quiet_set _ m). Qed.
Lemma mgr_step_goes (m : M) op : mgr_op_ok op -> (forall a s, op <> OpTime a s) -> goes (op_cbs op) m [] (mgr_step m op).
Proof.
  intros Hop Htime. pose proof (goes_refl (op_cbs op) m) as Hg. pose proof (quiet_refl (op_cbs op) m) as Hq.
  destruct op; cbn [op_cbs mgr_step] in *; try (by apply quiet_goes; first [exact Hq | by apply (quiet_set _ m)]).
  - by destruct (Htime amp steady).
  - by apply goes_tick.
  - apply goes_ensure; [done|]. by destruct cb.
  - apply goes_open_channel; [done|]. by destruct cb.
  - apply quiet_goes. destruct (FindLive _ _); [apply quiet_open_on_link|apply quiet_tell_channel]; by destruct cb.
  - apply goes_nested; [done|]. by destruct cb.
  - by apply quiet_goes, quiet_abort.
  - by apply goes_inbound.
  - by apply goes_resolved.
  - apply quiet_goes, quiet_update; [intros l; apply Hop..|exact Hq].
  - by apply quiet_goes, quiet_established.
  - by apply quiet_goes, quiet_called.
  - apply quiet_goes. unfold ScheduleAdoptDialAlias. destruct (_ || _); [exact Hq|]. by apply (quiet_set _ m).
  - by apply quiet_goes, quiet_path.
  - by apply quiet_goes, quiet_ch0.
  - by apply goes_protocol_open.
  - by apply quiet_goes, quiet_accept_nested.
  - by apply quiet_goes, quiet_set_handler.
  - by apply quiet_goes, quiet_remove_handler.
  - by apply quiet_goes, quiet_clear_handlers.
  - by apply quiet_goes, quiet_set_refuse.
  - apply quiet_goes, quiet_when_open. by rewrite app_nil_r.
  - apply quiet_goes, quiet_when_open_on. by rewrite app_nil_r.
  - by apply quiet_goes, quiet_bind_channel.
  - by apply quiet_goes, quiet_bind_channel_on.
  - by apply quiet_goes, quiet_warm.
  - by apply quiet_goes, quiet_hot.
  - by apply quiet_goes, quiet_clear_warm.
  - by apply quiet_goes, quiet_network.
  - by apply quiet_goes, quiet_verify_link.
  - by apply quiet_goes, quiet_request.
  - by apply quiet_goes, quiet_close_all.
  - apply quiet_goes. unfold MgrRegisterEndpoint. pose proof (register_config (book_ m) (steady_now m) key multiaddr) as Hb.
    destruct (RegisterEndpoint _ _ _ _) as [b r]. by apply register_quiet.
  - apply quiet_goes. unfold MgrRegisterEndpoints. pose proof (registers_config (book_ m) (steady_now m) key multiaddrs) as Hb.
    destruct (RegisterEndpoints _ _ _ _) as [b r]. by apply register_quiet.
  - apply quiet_goes. destruct listener; by apply (quiet_set _ m).
Qed.

(** ** Runs *)

Lemma told_split (l : list Told) : l ≫= told_cbs ≡ₚ (l ≫= link_cbs) ++ (l ≫= direct_cbs).
Proof. induction l as [|t l IH]; [done|]. rewrite !bind_cons, IH. unfold told_cbs. solve_Permutation. Qed.
Lemma bind_map {A B D} (f : A -> B) (g : B -> list D) l : map f l ≫= g = l ≫= fun x => g (f x).
Proof. induction l as [|x l IH]; [done|]. cbn [map]. by rewrite !bind_cons, IH. Qed.
Lemma bind_none {A B} (l : list A) : (l ≫= fun _ => []) = @nil B.
Proof. by induction l. Qed.
Lemma event_cbs_split (l : list mgr_event) : l ≫= event_cbs ≡ₚ ((l ≫= posted_of) ≫= told_cbs) ++ (l ≫= called_of).
Proof.
  induction l as [|e l IH]; [done|]. rewrite !bind_cons, bind_app, IH.
  assert (He : event_cbs e = (posted_of e ≫= told_cbs) ++ called_of e).
  { unfold told_cbs. destruct e; try done; cbn [event_cbs posted_of called_of]; rewrite app_nil_r, ?bind_map; cbn; rewrite ?bind_self, ?bind_none; try done.
    induction waiters as [|cb cbs IHc]; [done|]. rewrite bind_cons, app_nil_r, <- IHc. done. }
  rewrite He. solve_Permutation.
Qed.

Record world_inv (config : PeerLinkConfig) (given : list nat) (w : World) : Prop := {
  wi_tally : given ++ (take (w_run w) (posted (w_mgr w)) ≫= link_cbs) ≡ₚ tally (w_mgr w);
  wi_run : (w_run w <= length (posted (w_mgr w)))%nat;
  wi_config : config_ (w_mgr w) = config;
  wi_table : exists ops, Forall table_op_ok ops /\ table_ (w_mgr w) = table_run LinkTable_new ops;
  wi_keyed : keyed (table_ (w_mgr w));
  wi_slots : (count holds_slot (table_ (w_mgr w)) <= Z.to_nat (max_links config))%nat;
  wi_pending : (count pending (table_ (w_mgr w)) <= Z.to_nat (max_pending_inbound config))%nat;
}.
Lemma posted_grows (m m' : M) : mgr_log m `prefix_of` mgr_log m' -> exists more, posted m' = posted m ++ more.
Proof. intros [more E1]. exists (more ≫= posted_of). unfold posted. by rewrite E1, bind_app. Qed.
(** An operation, [fresh] its completions; or completions already run, [ran]. *)
Lemma goes_inv config given w k m' run fresh ran :
  world_inv config given w -> goes k (w_mgr w) [] m' -> k = fresh ++ (ran ≫= link_cbs) ->
  (forall more, posted m' = posted (w_mgr w) ++ more -> take run (posted m') = take (w_run w) (posted (w_mgr w)) ++ ran) ->
  (run <= length (posted m'))%nat -> world_inv config (given ++ fresh) (MkWorld m' run).
Proof.
  intros [J1 J2 J3 (ops & Hops & J4) J5 J6 J7] [(ops' & Hops' & T) C0 _ Hlog W0 K0 S0 P0] -> Hrun Hle. cbn [w_mgr w_run].
  destruct (posted_grows _ _ Hlog) as [more Hmore]. rewrite J3 in *. split; cbn [w_mgr w_run]; [| |done| |by apply K0|specialize (S0 J5); lia|lia].
  - rewrite (Hrun more Hmore), bind_app. cbn [app] in W0. rewrite W0, <- J1. solve_Permutation.
  - done.
  - exists (ops ++ ops'). split; [by apply Forall_app|]. rewrite T, J4. unfold table_run. by rewrite fold_left_app.
Qed.
Lemma world_step_inv config given w op : world_op_ok op -> world_inv config given w ->
  world_inv config (given ++ world_op_cbs op) (world_step w op).
Proof.
  intros Hop Hw. destruct op as [op|]; cbn [world_step world_op_cbs].
  - assert (Ht : (exists a s, op = OpTime a s) \/ forall a s, op <> OpTime a s) by (destruct op; eauto). destruct Ht as [(a & s & ->)|Ht].
    { cbn [op_cbs mgr_step]. rewrite app_nil_r. by destruct Hw. }
    pose proof (mgr_step_goes (w_mgr w) op Hop Ht) as Hg. destruct (posted_grows _ _ (g_log _ _ _ _ Hg)) as [more Hmore].
    apply (goes_inv config given w _ _ _ (op_cbs op) [] Hw Hg); [by rewrite app_nil_r| |].
    + intros more' E1. rewrite E1, take_app_le, app_nil_r; [done|]. apply (wi_run _ _ _ Hw).
    + rewrite Hmore, length_app. pose proof (wi_run _ _ _ Hw). lia.
  - rewrite app_nil_r. destruct (posted (w_mgr w) !! w_run w) as [t|] eqn:Hl; [|done].
    assert (Hg : goes (link_cbs t) (w_mgr w) [] (run_told (w_mgr w) t)).
    { apply quiet_goes. destruct t; try apply quiet_refl. apply quiet_run_cb. rewrite app_nil_r. apply quiet_refl. }
    destruct (posted_grows _ _ (g_log _ _ _ _ Hg)) as [more Hmore]. pose proof (lookup_lt_Some _ _ _ Hl) as Hlt.
    rewrite <- (app_nil_r given). apply (goes_inv config given w _ _ _ [] [t] Hw Hg).
    + by rewrite bind_singleton.
    + intros more' E1. rewrite E1, take_app_le by lia. by apply take_S_r.
    + rewrite Hmore, length_app. lia.
Qed.
Lemma world_run_inv config given w ops : Forall world_op_ok ops -> world_inv config given w ->
  world_inv config (given ++ (ops ≫= world_op_cbs)) (world_run w ops).
Proof.
  intros Hops. revert given w. induction Hops as [|op ops Hop _ IH]; intros given w Hw; [by rewrite app_nil_r|].
  cbn [world_run fold_left]. rewrite bind_cons, app_assoc. by apply IH, world_step_inv.
Qed.
Lemma world_new_inv endpoint local_peer_id config : world_inv config [] (World_new endpoint local_peer_id config).
Proof.
  split; cbn; [done|lia|done|by exists []| | |].
  - by intros id l Hl.
  - unfold count. cbn. rewrite map_filter_empty, map_size_empty. lia.
  - unfold count. cbn. rewrite map_filter_empty, map_size_empty. lia.
Qed.
Lemma world_inv_of endpoint local_peer_id config ops : Forall world_op_ok ops ->
  world_inv config (ops ≫= world_op_cbs) (world_run (World_new endpoint local_peer_id config) ops).
Proof. intros Hops. apply (world_run_inv config [] _ ops Hops), world_new_inv. Qed.

(** ** The theorems *)

(** C2: no completion is lost and none is called twice.  Whatever happens to a
    manager, its links and its poster: the callbacks given to it, for an association,
    a nested link, a channel to open, the answer of a peer or the wait for a channel,
    are each exactly once waiting in it, posted but not yet run, or called; so if they
    are distinct, each has been called at most once, and none that was called waits
    any more. *)
Theorem completions_exactly_once (endpoint : E) (local_peer_id : string) (config : PeerLinkConfig) (ops : list world_op) :
  Forall world_op_ok ops ->
  let w := world_run (World_new endpoint local_peer_id config) ops in
  let given := ops ≫= world_op_cbs in
  given ≡ₚ waiting (w_mgr w) ++ queued w ++ called w
  /\ (NoDup given -> NoDup (called w) /\ forall cb, cb ∈ called w -> cb ∉ waiting (w_mgr w) /\ cb ∉ queued w).
Proof.
  intros Hops. cbv zeta. pose proof (world_inv_of endpoint local_peer_id config ops Hops) as [Hw _ _ _ _ _ _].
  set (w := world_run _ ops) in *. set (given := ops ≫= world_op_cbs) in *.
  assert (Hall : given ≡ₚ waiting (w_mgr w) ++ queued w ++ called w).
  { unfold tally in Hw. rewrite event_cbs_split in Hw. fold (posted (w_mgr w)) in Hw.
    assert (Hp : (posted (w_mgr w) ≫= told_cbs) ≡ₚ (take (w_run w) (posted (w_mgr w)) ≫= told_cbs) ++ queued w).
    { unfold queued. by rewrite <- bind_app, take_drop. }
    rewrite Hp, told_split in Hw. clear Hp. unfold called. revert Hw. set (T := take _ _ ≫= link_cbs). intros Hw.
    apply (Permutation_app_inv_r T). rewrite Hw. solve_Permutation. }
  split; [done|]. intros Hnd. rewrite Hall in Hnd. apply NoDup_app in Hnd as (Hw1 & Hx & Hnd). apply NoDup_app in Hnd as (_ & Hy & Hc).
  split; [done|]. intros cb Hcb. split; intros Hin; [by apply (Hx cb Hin), elem_of_app; right|by apply (Hy cb Hin)].
Qed.

(** C3: the limits on links hold.  Whatever happens to a manager: the links whose
    association is not closed are at most [max_links], and the accepted associations
    still in their handshake at most [max_pending_inbound]. *)
Theorem link_limits_hold (endpoint : E) (local_peer_id : string) (config : PeerLinkConfig) (ops : list world_op) :
  Forall world_op_ok ops ->
  let m := w_mgr (world_run (World_new endpoint local_peer_id config) ops) in
  Z.of_nat (length (filter (fun l => conn_gone l = false) (links walk_ids m))) <= Z.max 0 (max_links config)
  /\ Z.of_nat (length (filter (fun l => tl_transport l = Adp /\ ml_outbound l = false /\ tl_phase l = Handshaking) (links walk_ids m)))
     <= Z.max 0 (max_pending_inbound config).
Proof.
  intros Hops. cbv zeta. pose proof (world_inv_of endpoint local_peer_id config ops Hops) as [_ _ _ _ _ Hs Hp].
  set (m := w_mgr _) in *. rewrite <- (links_count walk_ids walk_perm) in Hs, Hp. split.
  - rewrite (list_filter_iff _ (fun l => holds_slot l = true)); [lia|]. intros l. unfold holds_slot. by destruct (conn_gone l).
  - rewrite (list_filter_iff _ (fun l => pending l = true)); [lia|]. intros l. unfold pending, ml_backed, is_phase.
    rewrite !andb_true_iff, !negb_true_iff, bool_decide_eq_true, bool_decide_eq_false. destruct (tl_transport l); intuition done.
Qed.

(** The manager uses the table as the table is meant to be used.  Whatever happens
    to it, its table is the one its own operations lead to: links entered new, and
    nobody but the table giving a link its handle or its key. *)
Theorem manager_table_refines (endpoint : E) (local_peer_id : string) (config : PeerLinkConfig) (ops : list world_op) :
  Forall world_op_ok ops ->
  let m := w_mgr (world_run (World_new endpoint local_peer_id config) ops) in
  exists table_ops, Forall table_op_ok table_ops /\ table_ m = table_run LinkTable_new table_ops.
Proof. intros Hops. apply (world_inv_of endpoint local_peer_id config ops Hops). Qed.

(** ** Handshakes end *)

Abbreviation fails_one := (fail_timed_out walk_ids walk_protocols jitter).
Lemma fails_one_quiet (m : M) handle : quiet [] m [] (fails_one m handle).
Proof. apply quiet_fail_timed_out, quiet_refl. Qed.
Lemma fails_one_stops (m : M) handle l' : keyed (table_ m) ->
  by_id_ (table_ (fails_one m handle)) !! lh_id handle = Some l' -> tl_handle l' = handle -> dialing l' = false.
Proof.
  intros Hk. unfold fail_timed_out. destruct (FindLive (table_ m) handle) as [l|] eqn:Hlive.
  - unfold FindLive in Hlive. destruct (FindById (table_ m) (lh_id handle)) as [l0|] eqn:Hf; cbn in Hlive; [|done].
    destruct (_ =? _) in Hlive; [|done]. injection Hlive as ->. pose proof (Hk _ _ Hf) as Hid. cbv zeta. intros Hl' _.
    set (m1 := m <| table_ ::= fun t => Update t (link_id l) (fun l => (ml_call CallFailTimeout l).1) |>).
    assert (Hfrom : comes_from (table_ m1) (table_ (call walk_ids walk_protocols jitter m (link_id l) CallFailTimeout))).
    { unfold call. rewrite Hid, Hf. cbv zeta. rewrite <- Hid. fold m1. destruct (ml_call CallFailTimeout l).2 as [[cb r]|]; [|done].
      apply quiet_from, (q_table [] m1 []). apply quiet_called, quiet_refl. }
    assert (Hl'' : by_id_ (table_ (call walk_ids walk_protocols jitter m (link_id l) CallFailTimeout)) !! link_id l = Some l').
    { rewrite Hid in Hl' |- *. by destruct (ml_outbound l). }
    destruct (Hfrom _ _ Hl'') as (l1 & Hl1 & _ & [_ _ _ Hph _]). unfold m1 in Hl1. cbn in Hl1. rewrite lookup_alter_eq in Hl1.
    unfold FindById in Hf. rewrite Hid, Hf in Hl1. injection Hl1 as <-. pose proof (ml_call_fails CallFailTimeout l eq_refl) as Hd.
    destruct Hph as [E1|]; [|done]. unfold dialing, is_phase in *. by rewrite E1.
  - intros Hl' Hh. unfold FindLive, FindById in Hlive. rewrite Hl' in Hlive. cbn [mbind option_bind] in Hlive.
    by rewrite Hh, Z.eqb_refl in Hlive.
Qed.
Lemma fails_all_stop (handles : list LinkHandle) (m : M) handle l' : keyed (table_ m) -> handle ∈ handles ->
  by_id_ (table_ (fold_left fails_one handles m)) !! lh_id handle = Some l' -> tl_handle l' = handle -> dialing l' = false.
Proof.
  revert m. induction handles as [|x handles IH]; intros m Hk Hin; [by apply not_elem_of_nil in Hin|]. cbn [fold_left].
  pose proof (quiet_from _ _ (q_table _ _ _ _ (fails_one_quiet m x))) as Hfrom.
  destruct (decide (handle ∈ handles)) as [Hlater|Hno]; [apply IH; [by apply (from_keyed _ _ Hfrom)|done]|].
  apply elem_of_cons in Hin as [->|]; [|done]. intros Hl' Hh.
  assert (Hrest : comes_from (table_ (fails_one m x)) (table_ (fold_left fails_one handles (fails_one m x)))).
  { apply quiet_from, (q_table [] (fails_one m x) []). generalize (fails_one m x). intros m2.
    apply quiet_fold; [|apply quiet_refl]. intros m1 h Hm1. by apply quiet_fail_timed_out. }
  destruct (Hrest _ _ Hl') as (l1 & Hl1 & Eh & [_ _ _ Hph _]).
  pose proof (fails_one_stops m x l1 Hk Hl1 ltac:(congruence)) as Hd. destruct Hph as [E1|]; [|done]. unfold dialing, is_phase in *. by rewrite E1.
Qed.

Lemma handshakes_in_time (m : M) id l' : keyed (table_ m) ->
  by_id_ (table_ (tick_handshakes walk_ids walk_protocols jitter m)) !! id = Some l' -> dialing l' = true ->
  exists l, dialing l = true /\ timed_out m l = false /\ ml_started_ms l' = ml_started_ms l.
Proof.
  intros Hk Hl' Hd. pose proof (quiet_from _ _ (q_table _ _ _ _ (quiet_tick_handshakes walk_ids walk_protocols jitter [] m (quiet_refl [] m)))) as Hfrom.
  destruct (Hfrom id l' Hl') as (l & Hl & Eh & [_ _ _ Hph Hst]). exists l. split; [|split; [|done]].
  - destruct Hph as [E1|]; [|congruence]. unfold dialing, is_phase in *. by rewrite <- E1.
  - apply not_true_iff_false. intros Hover. enough (dialing l' = false) by congruence. clear Hd Hph Hst.
    unfold tick_handshakes in Hl'. cbv zeta in Hl'. revert Hl'.
    set (m1 := fold_left _ (map tl_handle (filter (fun l => refused l = true) _)) m).
    assert (H1' : quiet [] m [] m1).
    { unfold m1. apply quiet_fold; [|apply quiet_refl]. intros m' h Hm'. by apply quiet_call_live. }
    clearbody m1. set (m2 := fold_left _ (omap _ _) m1). assert (H2' : quiet [] m [] m2).
    { unfold m2. apply quiet_fold; [|done]. intros m' [h v] Hm'. by apply quiet_call_live. }
    clearbody m2. intros Hl'. rewrite <- (Hk id l Hl) in Hl'. unfold link_id in Hl'. rewrite <- Eh in Hl'.
    apply (fails_all_stop _ m2 (tl_handle l') l') in Hl'; [done| | |done].
    + by apply (from_keyed _ _ (quiet_from _ _ (q_table _ _ _ _ H2'))).
    + rewrite Eh. apply list_elem_of_In, in_map, list_elem_of_In, list_elem_of_filter. split; [done|].
      unfold links, walk_links. rewrite walk_perm. apply list_elem_of_fmap. exists (id, l). split; [done|]. by apply elem_of_map_to_list.
Qed.

(** C22: no handshake outlives its time.  Whatever happened before, when a tick of the
    manager ends, every link of the table that is still shaking hands has been at
    it for at most [dial_timeout]. *)
Theorem tick_ends_handshakes (endpoint : E) (local_peer_id : string) (config : PeerLinkConfig) (ops : list world_op)
    (draw : string -> DialDraw) (id : Z) (l : L) :
  Forall world_op_ok ops ->
  let m := w_mgr (world_run (World_new endpoint local_peer_id config) ops) in
  FindById (table_ (ManagerTick walk_ids walk_protocols jitter draw m)) id = Some l ->
  dialing l = true -> 0 < ml_started_ms l -> amp_now m - ml_started_ms l <= dial_timeout config.
Proof.
  intros Hops. cbv zeta. destruct (world_inv_of endpoint local_peer_id config ops Hops) as [_ _ Hconf _ Hk _ _].
  set (m := w_mgr _) in *. clearbody m. unfold ManagerTick. cbv zeta. set (m1 := tick_aliases _ _ _).
  assert (H1' : goes [] m [] m1).
  { unfold m1. eapply goes_by; [|intros k m' Hq; by apply quiet_tick_aliases]. unfold tick_retries. 
    set (m2 := tick_drops _ m). assert (H2' : goes [] m [] (m2 <| pending_candidate_retry_ := [] |>)).
    { apply quiet_goes. apply (quiet_set _ m2); [|done..]. apply quiet_tick_drops, quiet_refl. }
    revert H2'. set (m3 := m2 <| pending_candidate_retry_ := [] |>). clearbody m3. generalize (pending_candidate_retry_ m2) as keys.
    intros keys. revert m3. induction keys as [|key keys IH]; intros m3 H3'; [exact H3'|]. cbn [fold_left]. apply IH.
    case_bool_decide; [by apply goes_dial|done]. }
  clearbody m1. set (m2 := tick_handshakes _ _ _ m1). set (m3 := tick_waiters _ _). intros Hl Hd Hpos.
  assert (H3' : quiet [] m2 [] m3).
  { unfold m3. apply quiet_tick_waiters, quiet_tick_evict, quiet_keepalives, quiet_refl. }
  destruct (quiet_from _ _ (q_table _ _ _ _ H3') id l Hl) as (l2 & Hl2 & _ & [_ _ _ Hph Hst]).
  assert (Hd2 : dialing l2 = true) by (destruct Hph as [E1|]; [unfold dialing, is_phase in *; by rewrite <- E1|congruence]).
  destruct (handshakes_in_time m1 id l2 (g_keyed _ _ _ _ H1' Hk) Hl2 Hd2) as (l1 & Hd1 & Hin & Hst1).
  rewrite Hst, Hst1 in Hpos |- *. unfold timed_out in Hin. rewrite Hd1 in Hin. cbn [andb] in Hin.
  rewrite (proj2 (Z.ltb_lt _ _) Hpos) in Hin. cbn [andb] in Hin. apply Z.ltb_ge in Hin.
  rewrite (g_now _ _ _ _ H1') in Hin. unfold handshake_budget in Hin. rewrite (g_config _ _ _ _ H1'), Hconf in Hin.
  repeat case_match; lia.
Qed.
End Runs.

(** ** Witnesses *)

Section Witness.
#[local] Existing Instance toy_inet6.
#[local] Existing Instance toy_hash.

Definition toy_walk_ids (A : Type) (m : gmap Z A) : list (Z * A) := map_to_list m.
Definition toy_walk_keys (A : Type) (m : gmap string A) : list (string * A) := map_to_list m.
Definition toy_walk_protocols (m : gmap bytes (option HandlerRef)) : list (bytes * option HandlerRef) := map_to_list m.
Definition toy_dial_draw : DialDraw := MkDialDraw [1] [2] (MkDraw [] [] []).
Abbreviation toy_run := (world_run (E := unit) toy_walk_ids toy_walk_keys toy_walk_protocols (fun d => d)).
Abbreviation toy_world := (World_new (L := ToyLink) tt "local" (PeerLinkConfig_default <| max_links := 2 |> <| max_pending_inbound := 1 |>)).

(** Two callers wait for a dial that times out; the first completion has run. *)
Definition toy_world_ops : list (world_op (L := ToyLink) (K := AssocId) (C := unit)) :=
  [Do (OpRegister "key" toy_ma); Do (OpEnsure toy_dial_draw "key" (Some 7%nat)); Do (OpEnsure toy_dial_draw "key" (Some 8%nat));
   Do (OpAccept [3]); Do (OpAccept [4]); Do (OpTime 9000 0); Do (OpTick (fun _ => toy_dial_draw)); RunPosted;
   Do (OpEnsure toy_dial_draw "none" (Some 9%nat))].
Lemma toy_world_ops_ok : Forall world_op_ok toy_world_ops.
Proof. by repeat constructor. Qed.

(** Waits for channels and answers: a link that is up is asked to prove itself and
    dropped, one wait for a channel ends at its deadline, another goes on. *)
Definition toy_connect (l : ToyLink) : ToyLink := if bool_decide (y_phase l = Handshaking) then l <| y_phase := Connected |> else l.
Definition toy_told_ops : list (world_op (L := ToyLink) (K := AssocId) (C := unit)) :=
  [Do (OpRegister "key" toy_ma); Do (OpEnsure toy_dial_draw "key" (Some 7%nat)); Do (OpLink 1 toy_connect);
   Do (OpEnsure toy_dial_draw "none" (Some 9%nat)); Do (OpTime 100 0); Do (OpVerify "key" 0 10); Do (OpVerify "none" 0 11);
   Do (OpWhenOpen "none" 2 9500 (Some 12%nat)); Do (OpWhenOpen "none" 2 0 (Some 13%nat)); RunPosted;
   Do (OpRequestDrop "key"); Do (OpTime 9500 0); Do (OpTick (fun _ => toy_dial_draw))].
Lemma toy_connect_ok id : mgr_op_ok (K := AssocId) (C := unit) (OpLink id toy_connect).
Proof.
  intros l. unfold toy_connect. case_bool_decide as Hp; [|by split_and!]. split_and!; [done..|].
  split; cbn; [done|done|by unfold conn_gone| |done]. by right.
Qed.
Lemma toy_told_ops_ok n : Forall world_op_ok (toy_told_ops ++ replicate n RunPosted).
Proof. repeat (apply Forall_cons; split; [first [exact (toy_connect_ok 1)|done]|]). by apply Forall_replicate. Qed.

Theorem completions_exactly_once_witness :
  (let w := toy_run toy_world (take 10 toy_told_ops) in called w = [9; 11]%nat /\ waiting (w_mgr w) = [7; 10; 12; 13]%nat)
  /\ (let w := toy_run toy_world toy_told_ops in queued w = [10; 12]%nat /\ waiting (w_mgr w) = [7; 13]%nat)
  /\ let w := toy_run toy_world (toy_told_ops ++ replicate 2 RunPosted) in called w = [9; 11; 10; 12]%nat /\ NoDup (called w).
Proof.
  cbv zeta. split_and!; [by vm_compute..|].
  destruct (completions_exactly_once toy_walk_ids toy_walk_keys toy_walk_protocols (fun d => d) (fun A g => reflexivity _)
              tt "local" (PeerLinkConfig_default <| max_links := 2 |> <| max_pending_inbound := 1 |>) _ (toy_told_ops_ok 2)) as [_ Hnd].
  apply Hnd. apply (bool_decide_eq_true_1 _). by vm_compute.
Defined.

Theorem link_limits_hold_witness :
  length (links toy_walk_ids (w_mgr (toy_run toy_world (take 5 toy_world_ops)))) = 2%nat
  /\ Z.of_nat (length (filter (fun l => conn_gone l = false) (links toy_walk_ids (w_mgr (toy_run toy_world (take 5 toy_world_ops)))))) <= 2.
Proof.
  split; [by vm_compute|].
  destruct (link_limits_hold toy_walk_ids toy_walk_keys toy_walk_protocols (fun d => d) (fun A g => reflexivity _)
              tt "local" (PeerLinkConfig_default <| max_links := 2 |> <| max_pending_inbound := 1 |>) (take 5 toy_world_ops)
              ltac:(by repeat constructor)) as [Hl _].
  exact Hl.
Defined.

Theorem manager_table_refines_witness :
  exists table_ops, Forall table_op_ok table_ops
    /\ table_ (w_mgr (toy_run toy_world toy_world_ops)) = table_run LinkTable_new table_ops.
Proof.
  exact (manager_table_refines toy_walk_ids toy_walk_keys toy_walk_protocols (fun d => d) (fun A g => reflexivity _)
           tt "local" (PeerLinkConfig_default <| max_links := 2 |> <| max_pending_inbound := 1 |>) toy_world_ops toy_world_ops_ok).
Defined.

Theorem tick_ends_handshakes_witness :
  let m := w_mgr (toy_run toy_world (take 5 toy_world_ops ++ [Do (OpTime 8001 0)])) in
  let m' := ManagerTick toy_walk_ids toy_walk_protocols (fun d => d) (fun _ => toy_dial_draw) m in
  exists l, FindById (table_ m') 1 = Some l /\ amp_now m - ml_started_ms l <= 8000.
Proof.
  cbv zeta. set (m' := ManagerTick _ _ _ _ _). destruct (FindById (table_ m') 1) as [l|] eqn:Hl; [|by vm_compute in Hl].
  exists l. split; [done|].
  pose proof (tick_ends_handshakes toy_walk_ids toy_walk_keys toy_walk_protocols (fun d => d) (fun A g => reflexivity _)
           tt "local" (PeerLinkConfig_default <| max_links := 2 |> <| max_pending_inbound := 1 |>) (take 5 toy_world_ops ++ [Do (OpTime 8001 0)])
           (fun _ => toy_dial_draw) 1 l ltac:(by repeat constructor) Hl) as Ht.
  clear -Ht Hl. revert Hl Ht. vm_compute. intros [= <-] Ht. by apply Ht.
Defined.
End Witness.
