(* ===== verification/ManagerProps.v ===== *)
(** * Single operations of the manager

    The dial that moves from candidate to candidate ends, the end of a dial tells
    those who wait and arms or clears the backoff, a drop takes away everything
    that names the link, and the election leaves one session per peer, but for two cases
    evaluated here: a nested link met first, and a loser its dial key no longer
    names. *)

From S2P Require Import Prelude L1Types L2Types PeerLinkProps Connection ChannelWire Capability ChannelPolicy ChannelMux MshAdpHandshake AdpMultiaddr LinkPolicy LinkWire LinkTable DialBook ManagedLink PeerLinkManager ManagerSteps ToyLink ManagerRuns.

(** ** The dial ends *)

Section Dial.
Context {L K C E : Type} `{ManagedLink L K C} `{DialEndpoint E K} `{Inet6} `{GenericHash}.
Context (walk_ids : forall A, gmap Z A -> list (Z * A)).
Context (walk_protocols : gmap bytes (option HandlerRef) -> list (bytes * option HandlerRef)).
Context (jitter : Z -> Z).
Abbreviation M := (Manager L E).

(** The candidates of a key that were not dialed yet. *)
Definition left_in (b : DialBook) (key : string) : nat :=
  match BookFind b key with Some rec => length (er_candidates rec) - S (er_dial_index rec) | None => 0 end.

Lemma sync_same b now rec : (er_dial_index rec < length (er_candidates rec))%nat ->
  er_candidates (SyncActiveFromIndex b now rec) = er_candidates rec /\ er_dial_index (SyncActiveFromIndex b now rec) = er_dial_index rec.
Proof.
  intros Hi. unfold SyncActiveFromIndex. case_bool_decide; [done|]. cbv zeta. rewrite (proj2 (Nat.leb_gt _ _) Hi).
  destruct (ParseAdpMultiaddr _) as [p|]; [|done]. cbn. destruct (ApplyAddress_fields b now rec (nth (er_dial_index rec) (er_candidates rec) "") p) as (-> & -> & _). done.
Qed.
Lemma advance_spec b now key b' : AdvanceDialCandidate b now key = (b', true) ->
  exists rec rec', BookFind b key = Some rec /\ BookFind b' key = Some rec' /\ er_candidates rec' = er_candidates rec
    /\ er_dial_index rec' = S (er_dial_index rec) /\ (S (er_dial_index rec) < length (er_candidates rec))%nat.
Proof.
  unfold AdvanceDialCandidate. destruct (BookFind b key) as [rec|] eqn:Hf; [|done]. destruct (_ <? 2)%nat; [done|].
  destruct (Nat.leb_spec (length (er_candidates rec)) (er_dial_index rec + 1)) as [|Hlt]; [done|]. intros [= <-].
  set (rec1 := rec <| er_dial_index ::= S |>).
  destruct (sync_same b now rec1) as [Ec Ei]; [cbn; lia|]. exists rec, (SyncActiveFromIndex b now rec1).
  unfold BookFind, put_record. cbn. rewrite lookup_insert_eq. split_and!; [done|done|by rewrite Ec|by rewrite Ei|lia].
Qed.
Lemma advance_left b now key b' : AdvanceDialCandidate b now key = (b', true) -> (left_in b' key < left_in b key)%nat.
Proof. intros (rec & rec' & Hf & Hf' & Hc & Hi & Hlt)%advance_spec. unfold left_in. rewrite Hf, Hf', Hc, Hi. lia. Qed.

(** A step of the dial calls the next one for fewer candidates. *)
Lemma dial_step_ext (dial1 dial2 : M -> string -> M) draw (m : M) key :
  (forall m', (left_in (book_ m') key < left_in (book_ m) key)%nat -> dial1 m' key = dial2 m' key) ->
  dial_step walk_ids walk_protocols jitter dial1 draw m key = dial_step walk_ids walk_protocols jitter dial2 draw m key.
Proof.
  intros Hd. assert (Hfail : forall message, FailCandidate_with jitter dial1 m key message = FailCandidate_with jitter dial2 m key message).
  { intros message. unfold FailCandidate_with. cbv zeta. destruct (AdvanceDialCandidate _ _ key) as [b advanced] eqn:Ha.
    destruct advanced; [|done]. apply Hd. exact (advance_left _ _ _ _ Ha). }
  unfold dial_step. cbv zeta. destruct (match FindByDialKey _ _ with Some _ => _ | None => false end); [done|].
  destruct (BookFind _ key) as [rec|] eqn:Hf; [|done]. destruct (too_many_dials m); [done|]. destruct (AtLinkCapacityLocked _ m); [done|].
  destruct (NeedsResolution _ _ _); [|done]. unfold StartResolution_with. rewrite Hf. by destruct (negb _).
Qed.
Lemma begin_dial_enough draw key fuel1 : forall fuel2 (m : M), (left_in (book_ m) key < fuel1)%nat -> (left_in (book_ m) key < fuel2)%nat ->
  begin_dial walk_ids walk_protocols jitter fuel1 draw m key = begin_dial walk_ids walk_protocols jitter fuel2 draw m key.
Proof.
  induction fuel1 as [|fuel1 IH]; intros fuel2 m H1' H2'; [lia|]. destruct fuel2 as [|fuel2]; [lia|]. cbn [begin_dial].
  apply dial_step_ext. intros m' Hless. apply IH; lia.
Qed.
Lemma fuel_enough (m : M) key : (left_in (book_ m) key < dial_fuel m key)%nat.
Proof. unfold left_in, dial_fuel. destruct (BookFind _ key); lia. Qed.

(** C19: the dial ends.  The recursion of [BeginOutboundDialLocked] through
    [StartResolutionLocked] and [FailCandidateLocked] comes to its end, as each turn
    leaves fewer candidates: the bound put on it is never met (more of it changes
    nothing), and the function is the one the code's equations define. *)
Theorem dial_terminates (draw : DialDraw) (m : M) (key : string) :
  (forall fuel, (dial_fuel m key <= fuel)%nat ->
     begin_dial walk_ids walk_protocols jitter fuel draw m key = BeginOutboundDialLocked walk_ids walk_protocols jitter draw m key)
  /\ BeginOutboundDialLocked walk_ids walk_protocols jitter draw m key
     = dial_step walk_ids walk_protocols jitter (BeginOutboundDialLocked walk_ids walk_protocols jitter draw) draw m key.
Proof.
  pose proof (fuel_enough m key) as Hf. split.
  - intros fuel Hle. apply begin_dial_enough; lia.
  - unfold BeginOutboundDialLocked at 1. destruct (dial_fuel m key) as [|fuel] eqn:Hfuel; [lia|]. cbn [begin_dial].
    apply dial_step_ext. intros m' Hless. apply begin_dial_enough; [lia|]. apply fuel_enough.
Qed.
End Dial.

(** ** The end of a dial *)

Section Finish.
Context {L K C E : Type} `{ManagedLink L K C} `{DialEndpoint E K} `{Inet6} `{GenericHash}.
Context (walk_ids : forall A, gmap Z A -> list (Z * A)) (jitter : Z -> Z).
Abbreviation M := (Manager L E).

Lemma forget_same b key rec : BookFind b key = Some rec ->
  exists rec', BookFind (ForgetResolution b key) key = Some rec' /\ er_candidates rec' = er_candidates rec /\ er_dial_index rec' = er_dial_index rec.
Proof.
  intros Hf. unfold ForgetResolution. rewrite Hf. case_bool_decide; [by exists rec|]. unfold BookFind, put_record. cbn.
  rewrite lookup_insert_eq. by eexists.
Qed.
Lemma advance_more b now key rec : BookFind b key = Some rec -> (S (er_dial_index rec) < length (er_candidates rec))%nat ->
  exists b', AdvanceDialCandidate b now key = (b', true).
Proof.
  intros Hf Hlt. unfold AdvanceDialCandidate. rewrite Hf. rewrite (proj2 (Nat.ltb_ge _ _)), (proj2 (Nat.leb_gt _ _)) by lia. by eexists.
Qed.
(** What an operation of the book leaves of the backoffs and the count of dials. *)
Definition same_backoffs (b b' : DialBook) : Prop :=
  dial_failed_until_ b' = dial_failed_until_ b /\ dial_failures_ b' = dial_failures_ b /\ concurrent_dials_ b' = concurrent_dials_ b
  /\ book_config_ b' = book_config_ b.
#[local] Instance same_backoffs_preorder : PreOrder same_backoffs.
Proof. split; [done|]. intros x y z (A1 & A2 & A3 & A4) (B1 & B2 & B3 & B4). unfold same_backoffs. by rewrite B1, B2, B3, B4. Qed.
Lemma forget_backoffs b key : same_backoffs b (ForgetResolution b key).
Proof. unfold ForgetResolution. repeat case_match_goal; done. Qed.
Lemma advance_backoffs b now key : same_backoffs b (AdvanceDialCandidate b now key).1.
Proof. unfold AdvanceDialCandidate. repeat case_match_goal; done. Qed.
Lemma reset_backoffs b now key : same_backoffs b (ResetDialIndex b now key).
Proof. unfold ResetDialIndex. by destruct (BookFind b key). Qed.
Lemma promote_backoffs b now key ma : same_backoffs b (PromoteDialWinner b now key ma).
Proof. unfold PromoteDialWinner. repeat case_match_goal; done. Qed.

(** The waiters of the key were told the outcome, last of all, and are forgotten. *)
Definition told (m m' : M) (key : string) (result : MgrRoe) : Prop :=
  inflight_associations_ m' = delete key (inflight_associations_ m)
  /\ (waiters_of m key <> [] -> last (mgr_log m') = Some (MgPostWaiters (waiters_of m key) result)).
Definition has_more (b : DialBook) (key : string) : Prop :=
  exists rec, BookFind b key = Some rec /\ (S (er_dial_index rec) < length (er_candidates rec))%nat.
Definition one_less (n : Z) : Z := if 0 <? n then n - 1 else n.

Lemma told_post (m m1 : M) key r ws : ws = waiters_of m key ->
  inflight_associations_ m1 = delete key (inflight_associations_ m) ->
  told m (match ws with [] => m1 | _ => log (MgPostWaiters ws r) m1 end) key r.
Proof.
  intros -> E1. split; [by destruct (waiters_of m key)|]. intros Hne. destruct (waiters_of m key) eqn:Hw; [done|]. cbn. apply last_snoc.
Qed.
(** The post changes nothing but the log. *)
Lemma post_same {A} (p : M -> A) (m : M) ws r : (forall m e, p (log e m) = p m) ->
  p (match ws with [] => m | _ => log (MgPostWaiters ws r) m end) = p m.
Proof. intros Hp. destruct ws; [done|apply Hp]. Qed.
Lemma emit_same {A} (p : M -> A) (m : M) e : (forall m e, p (log e m) = p m) -> p (EmitLinkEvent walk_ids m e) = p m.
Proof. intros Hp. unfold EmitLinkEvent. destruct (walk_ids _ _).*2; [done|apply Hp]. Qed.

Lemma refresh_same {A} (p : M -> A) (m : M) id : (forall m f, p (m <| table_ ::= f |>) = p m) -> p (RefreshPresence m id) = p m.
Proof. intros Hp. unfold RefreshPresence. destruct (FindById _ _); [|done]. destruct (_ || _); [done|apply Hp]. Qed.
Lemma dec_count b : concurrent_dials_ (DecConcurrentDials b) = one_less (concurrent_dials_ b).
Proof. unfold DecConcurrentDials, one_less. by destruct (0 <? concurrent_dials_ b). Qed.
Lemma promote_first b now key rec : BookFind b key = Some rec -> er_multiaddr rec <> ""%string ->
  exists rec', BookFind (PromoteDialWinner b now key (er_multiaddr rec)) key = Some rec' /\ head (er_candidates rec') = Some (er_multiaddr rec).
Proof.
  intros Hf Hne. unfold PromoteDialWinner. rewrite Hf, bool_decide_false by done. cbv zeta.
  eexists. split; [apply lookup_insert_eq|]. set (rec1 := _ <| er_dial_index := O |>). destruct (sync_same b now rec1) as [-> _]; [|done].
  cbn. unfold InsertCandidateFront. cbn. lia.
Qed.

Lemma finish_failed (m : M) (key : string) (handle : LinkHandle) (e : ManagerFailure) :
  let m' := FinishDial walk_ids jitter m key handle (Fail e) in
  let b := book_ m in
  let b' := book_ m' in
  concurrent_dials_ b' = one_less (concurrent_dials_ b)
  /\ suppress_dial_backoff_ m' = suppress_dial_backoff_ m ∖ {[key]}
  /\ last_error_ m' !! key = Some e /\ (exists reason, pending_drops_ m' = pending_drops_ m ++ [(handle, reason)])
  /\ (key ∈ suppress_dial_backoff_ m -> told m m' key (Fail e) /\ dial_failed_until_ b' = dial_failed_until_ b)
  /\ (key ∉ suppress_dial_backoff_ m -> has_more b key ->
        inflight_associations_ m' = inflight_associations_ m /\ mgr_log m' = mgr_log m
        /\ pending_candidate_retry_ m' = pending_candidate_retry_ m ++ [key] /\ dial_failed_until_ b' = dial_failed_until_ b
        /\ exists rec rec', BookFind b key = Some rec /\ BookFind b' key = Some rec'
             /\ er_candidates rec' = er_candidates rec /\ er_dial_index rec' = S (er_dial_index rec))
  /\ (key ∉ suppress_dial_backoff_ m -> ~ has_more b key ->
        told m m' key (Fail e)
        /\ dial_failures_ b' !! key = Some (u32 (default 0 (dial_failures_ b !! key) + 1))
        /\ dial_failed_until_ b' !! key
           = Some (steady_now m + jitter (backoff_ms (book_config_ b) (u32 (default 0 (dial_failures_ b !! key) + 1))) * kNsPerMs)).
Proof.
  cbv zeta. unfold FinishDial. cbv zeta. set (m1 := (m <| book_ ::= DecConcurrentDials |>) <| suppress_dial_backoff_ ::= _ |>).
  set (m2 := (m1 <| last_error_ ::= _ |>) <| book_ ::= _ |>).
  assert (Hdec : forall b, same_backoffs b (DecConcurrentDials b <| concurrent_dials_ := concurrent_dials_ b |>)
             /\ endpoints_ (DecConcurrentDials b) = endpoints_ b) by (intros b; unfold DecConcurrentDials; by destruct (0 <? _)).
  destruct (Hdec (book_ m)) as [(D1 & D2 & _ & D4) D5]. cbn in D1, D2, D4.
  destruct (forget_backoffs (book_ m1) key) as (F1 & F2 & F3 & F4).
  assert (Hb2 : dial_failed_until_ (book_ m2) = dial_failed_until_ (book_ m) /\ dial_failures_ (book_ m2) = dial_failures_ (book_ m)
           /\ concurrent_dials_ (book_ m2) = one_less (concurrent_dials_ (book_ m)) /\ book_config_ (book_ m2) = book_config_ (book_ m)).
  { unfold m2. cbn. cbn in F1, F2, F3, F4. rewrite F1, F2, F3, F4. split_and!; [done|done|apply dec_count|done]. }
  clear F1 F2 F3 F4 D1 D2 D4 Hdec. destruct Hb2 as (B1 & B2 & B3 & B4).
  assert (Hmore : has_more (book_ m) key <-> exists b', AdvanceDialCandidate (book_ m2) (steady_now m2) key = (b', true)).
  { assert (Hrec : forall rec, BookFind (book_ m) key = Some rec -> exists rec', BookFind (book_ m2) key = Some rec'
                     /\ er_candidates rec' = er_candidates rec /\ er_dial_index rec' = er_dial_index rec).
    { intros rec Hf. apply forget_same. unfold BookFind, m1. cbn. by rewrite D5. }
    assert (Hback : forall rec', BookFind (book_ m2) key = Some rec' -> exists rec, BookFind (book_ m) key = Some rec).
    { intros rec'. unfold m2. cbn. unfold ForgetResolution. destruct (BookFind (DecConcurrentDials (book_ m)) key) as [rec|] eqn:Hf; [|congruence].
      intros _. exists rec. unfold BookFind in *. by rewrite D5 in Hf. }
    split.
    - intros (rec & Hf & Hlt). destruct (Hrec rec Hf) as (rec' & Hf' & Hc & Hi). apply (advance_more _ _ _ rec'); [done|]. by rewrite Hc, Hi.
    - intros [b' (rec' & _ & Hf' & _ & _ & _ & Hlt)%advance_spec]. destruct (Hback rec' Hf') as [rec Hf]. exists rec. split; [done|].
      destruct (Hrec rec Hf) as (rec2 & Hf2 & <- & <-). congruence. }
  change (suppress_dial_backoff_ (m <| book_ ::= DecConcurrentDials |>)) with (suppress_dial_backoff_ m).
  destruct (bool_decide (key ∈ suppress_dial_backoff_ m)) eqn:Hs; [apply bool_decide_eq_true in Hs|apply bool_decide_eq_false in Hs].
  - destruct (reset_backoffs (book_ m2) (steady_now m2) key) as (R1 & R2 & R3 & _).
    match goal with |- context [waiters_of ?x key] => set (ws := waiters_of x key) end.
    set (m' := match ws with [] => _ | _ => _ end).
    assert (H' : forall A (p : M -> A), (forall m e, p (log e m) = p m) -> p m' = p _) by (intros A p; apply post_same).
    rewrite (H' _ book_), (H' _ suppress_dial_backoff_), (H' _ last_error_), (H' _ pending_drops_) by done. cbn.
    cbn in R1, R3, B1, B3. rewrite R1, R3, B1, B3. split_and!; [done|done|by apply lookup_insert_eq|by eexists| |done|done].
    intros _. split; [by apply told_post|done].
  - destruct (AdvanceDialCandidate (book_ m2) (steady_now m2) key) as [book advanced] eqn:Hadv. destruct advanced.
    + pose proof (advance_backoffs (book_ m2) (steady_now m2) key) as (A1 & A2 & A3 & _). rewrite Hadv in A1, A2, A3. cbn [fst] in A1, A2, A3.
      cbn. rewrite A1, A3, B1, B3. split_and!; [done|done|by apply lookup_insert_eq|by eexists|done| |].
      * intros _ (rec & Hf & _). split_and!; [done..|].
        destruct (forget_same (book_ m1) key rec) as (rec2 & Hf2 & Hc2 & Hi2); [unfold BookFind, m1; cbn; by rewrite D5|].
        destruct (advance_spec _ _ _ _ Hadv) as (rec3 & rec' & Hf3 & Hf' & Hc & Hi & _). exists rec, rec'.
        assert (rec3 = rec2) as -> by (cbn in Hf2, Hf3; congruence). split_and!; [done|done|congruence|congruence].
      * intros _ []. apply Hmore. by eexists.
    + assert (Hno : ~ has_more (book_ m) key) by (intros [b' Hb']%Hmore; congruence).
      pose proof (advance_backoffs (book_ m2) (steady_now m2) key) as (A1 & A2 & A3 & A4). rewrite Hadv in A1, A2, A3, A4. cbn [fst] in A1, A2, A3, A4.
      destruct (reset_backoffs book (steady_now m2) key) as (R1 & R2 & R3 & R4).
      match goal with |- context [waiters_of ?x key] => set (ws := waiters_of x key) end.
      set (m4 := EmitLinkEvent _ _ _). set (m' := match ws with [] => _ | _ => _ end).
      assert (H' : forall A (p : M -> A), (forall m e, p (log e m) = p m) -> p m' = p m4) by (intros A p; apply post_same).
      assert (H4' : forall A (p : M -> A), (forall m e, p (log e m) = p m) -> p m4 = p _) by (intros A p; apply emit_same).
      rewrite (H' _ book_), (H' _ suppress_dial_backoff_), (H' _ last_error_), (H' _ pending_drops_) by done.
      rewrite (H4' _ book_), (H4' _ suppress_dial_backoff_), (H4' _ last_error_), (H4' _ pending_drops_) by done. cbn.
      cbn in R1, R2, R3, R4. rewrite R2, R3, R4, A2, A3, A4, B2, B3, B4, !lookup_insert_eq.
      split_and!; [done|done|done|by eexists|done|done|]. intros _ _. split_and!; [|done|done].
      apply told_post; [done|]. by rewrite (H4' _ inflight_associations_).
Qed.

(** C24: what the end of a dial does.  One dial less runs and its abort is spent.  A
    dial that came up ends the backoff and the error of its key, puts the address
    that answered first, and tells those who wait.  One that failed leaves its error
    and its link to be dropped; then: an aborted one arms no backoff and tells those
    who wait; one with candidates left goes on with the next at the next tick, and
    those who wait go on waiting; the last one starts over, arms the backoff and
    tells those who wait. *)
Theorem finish_dial_outcome (m : M) (key : string) (handle : LinkHandle) (result : MgrRoe) :
  let m' := FinishDial walk_ids jitter m key handle result in
  let b := book_ m in
  let b' := book_ m' in
  concurrent_dials_ b' = one_less (concurrent_dials_ b)
  /\ suppress_dial_backoff_ m' = suppress_dial_backoff_ m ∖ {[key]}
  /\ match result with
     | Ok _ =>
         told m m' key result /\ last_error_ m' !! key = None
         /\ dial_failed_until_ b' !! key = None /\ dial_failures_ b' !! key = None
         /\ forall rec, BookFind b key = Some rec -> er_multiaddr rec <> ""%string ->
              exists rec', BookFind b' key = Some rec' /\ head (er_candidates rec') = Some (er_multiaddr rec)
     | Fail e =>
         last_error_ m' !! key = Some e /\ (exists reason, pending_drops_ m' = pending_drops_ m ++ [(handle, reason)])
         /\ (key ∈ suppress_dial_backoff_ m -> told m m' key result /\ dial_failed_until_ b' = dial_failed_until_ b)
         /\ (key ∉ suppress_dial_backoff_ m -> has_more b key ->
               inflight_associations_ m' = inflight_associations_ m /\ mgr_log m' = mgr_log m
               /\ pending_candidate_retry_ m' = pending_candidate_retry_ m ++ [key] /\ dial_failed_until_ b' = dial_failed_until_ b
               /\ exists rec rec', BookFind b key = Some rec /\ BookFind b' key = Some rec'
                    /\ er_candidates rec' = er_candidates rec /\ er_dial_index rec' = S (er_dial_index rec))
         /\ (key ∉ suppress_dial_backoff_ m -> ~ has_more b key ->
               told m m' key result
               /\ dial_failures_ b' !! key = Some (u32 (default 0 (dial_failures_ b !! key) + 1))
               /\ dial_failed_until_ b' !! key
                  = Some (steady_now m + jitter (backoff_ms (book_config_ b) (u32 (default 0 (dial_failures_ b !! key) + 1))) * kNsPerMs))
     end.
Proof.
  cbv zeta. destruct result as [u|e].
  - unfold FinishDial. cbv zeta. set (m1 := (m <| book_ ::= DecConcurrentDials |>) <| suppress_dial_backoff_ ::= _ |>).
    set (m2 := (m1 <| last_error_ ::= _ |>) <| book_ ::= _ |>). set (m3 := m2 <| book_ ::= _ |>).
    set (m4 := match FindLive _ _ with Some _ => _ | None => m3 end). set (m' := match waiters_of m4 key with [] => _ | _ => _ end).
    assert (H4' : forall A (p : M -> A), (forall m f, p (m <| table_ ::= f |>) = p m) -> p m4 = p m3).
    { intros A p Hp. unfold m4. destruct (FindLive _ _); [by apply refresh_same|done]. }
    assert (H' : forall A (p : M -> A), (forall m e, p (log e m) = p m) -> p m' = p (forget_waiters m4 key)) by (intros A p; apply post_same).
    assert (Hb : book_ m' = book_ m3) by (rewrite (H' _ book_) by done; exact (H4' _ book_ (fun _ _ => eq_refl))).
    assert (Hbook : same_backoffs (book_ m2) (book_ m3)).
    { unfold m3. cbn. destruct (BookFind _ key); [apply promote_backoffs|apply reset_backoffs]. }
    destruct Hbook as (B1 & B2 & B3 & _). rewrite Hb, B1, B2, B3. split_and!.
    + apply dec_count.
    + rewrite (H' _ suppress_dial_backoff_) by done. exact (H4' _ suppress_dial_backoff_ (fun _ _ => eq_refl)).
    + apply told_post; [unfold waiters_of|cbn]; by rewrite (H4' _ inflight_associations_ (fun _ _ => eq_refl)).
    + rewrite (H' _ last_error_) by done. cbn. rewrite (H4' _ last_error_ (fun _ _ => eq_refl)). cbn. by apply lookup_delete_eq.
    + cbn. by apply lookup_delete_eq.
    + cbn. by apply lookup_delete_eq.
    + intros rec Hf Hne. assert (Hf2 : BookFind (book_ m2) key = Some rec) by (cbn; unfold DecConcurrentDials; by destruct (0 <? _)).
      unfold m3. cbn [book_ set_field]. change (exists rec', BookFind (match BookFind (book_ m2) key with
        | Some rec => PromoteDialWinner (book_ m2) (steady_now m2) key (er_multiaddr rec) | None => ResetDialIndex (book_ m2) (steady_now m2) key end) key = Some rec'
        /\ head (er_candidates rec') = Some (er_multiaddr rec)). rewrite Hf2. by apply promote_first.
  - apply finish_failed.
Qed.
End Finish.

(** ** Dropping a link *)

Section Drop.
Context {L K C E : Type} `{ManagedLinkLaws L K C} `{DialEndpoint E K} `{Inet6} `{GenericHash}.
Context (walk_ids : forall A, gmap Z A -> list (Z * A)).
Context (walk_perm : forall A (g : gmap Z A), walk_ids A g ≡ₚ map_to_list g).
Abbreviation M := (Manager L E).

(** What is done to one link leaves the others and the indexes. *)
Lemma act_ids (m : M) id a id' : by_id_ (table_ (act m id a)) !! id' = (if decide (id' = id) then ml_do a <$> by_id_ (table_ m) !! id' else by_id_ (table_ m) !! id').
Proof. cbn. case_decide as Hd; [subst; apply lookup_alter_eq|by apply lookup_alter_ne]. Qed.
Definition do_all (l : list LinkAction) (x : L) : L := fold_left (fun x a => ml_do a x) l x.
Lemma acts_ids (m : M) id l id' :
  by_id_ (table_ (acts m id l)) !! id' = (if decide (id' = id) then do_all l <$> by_id_ (table_ m) !! id' else by_id_ (table_ m) !! id').
Proof.
  unfold acts. revert m. induction l as [|a l IH]; intros m; [case_decide; [by destruct (_ !! id')|done]|]. cbn [fold_left].
  rewrite IH, act_ids. case_decide; [by destruct (_ !! id')|done].
Qed.
Lemma do_all_keeps l x : tl_handle (do_all l x) = tl_handle x /\ tl_key (do_all l x) = tl_key x /\ tl_peer (do_all l x) = tl_peer x
  /\ tl_transport (do_all l x) = tl_transport x.
Proof.
  unfold do_all. revert x. induction l as [|a l IH]; intros x; [done|]. cbn [fold_left]. destruct (IH (ml_do a x)) as (-> & -> & -> & ->).
  rewrite ml_do_handle, ml_do_key, ml_do_peer. by rewrite (kp_transport _ _ (ml_do_keeps a x)).
Qed.

(** What is done to each link that satisfies [p]. *)
Lemma fold_each_ids (p : L -> bool) a (ls : list L) (m : M) id :
  keyed (table_ m) -> NoDup (map link_id ls) ->
  by_id_ (table_ (fold_left (fun m l => match FindById (table_ m) (link_id l) with
                                        | Some l => if p l then act m (link_id l) a else m
                                        | None => m end) ls m)) !! id
  = (fun l => if bool_decide (id ∈ map link_id ls) && p l then ml_do a l else l) <$> by_id_ (table_ m) !! id.
Proof.
  revert m. induction ls as [|x ls IH]; intros m Hk Hnd; [by destruct (_ !! id)|]. cbn [fold_left map] in *. apply NoDup_cons in Hnd as [Hx Hnd].
  set (m1 := match FindById _ _ with Some _ => _ | None => m end).
  assert (Hm1 : forall id', by_id_ (table_ m1) !! id' = (fun l => if bool_decide (id' = link_id x) && p l then ml_do a l else l) <$> by_id_ (table_ m) !! id').
  { intros id'. unfold m1, FindById. destruct (by_id_ (table_ m) !! link_id x) as [l|] eqn:Hl.
    - pose proof (Hk _ _ Hl) as Hid. destruct (p l) eqn:Hp.
      + rewrite act_ids, Hid. destruct (decide (id' = link_id x)) as [->|Hd]; [rewrite Hl; cbn; by rewrite bool_decide_true, Hp|]. rewrite bool_decide_false by done. by destruct (_ !! id').
      + destruct (decide (id' = link_id x)) as [->|Hd]; [rewrite Hl; cbn; by rewrite Hp, andb_false_r|]. rewrite bool_decide_false by done. by destruct (_ !! id').
    - destruct (decide (id' = link_id x)) as [->|Hd]; [by rewrite Hl|]. rewrite bool_decide_false by done. by destruct (_ !! id'). }
  rewrite IH; [|intros id' l'; rewrite Hm1; intros (l & Hl & ->)%fmap_Some; pose proof (Hk _ _ Hl);
                by destruct (_ && _); [unfold link_id; rewrite ml_do_handle|]|done].
  - rewrite Hm1. destruct (by_id_ (table_ m) !! id) as [l|] eqn:Hl; [|done]. cbn. f_equal. destruct (decide (id = link_id x)) as [->|Hd].
    + rewrite (bool_decide_true (link_id x = link_id x)) by done. rewrite (bool_decide_false (link_id x ∈ map link_id ls)) by done.
      rewrite bool_decide_true by (by left). done.
    + rewrite (bool_decide_false (id = link_id x)) by done. cbn.
      rewrite (bool_decide_ext (id ∈ link_id x :: map link_id ls) (id ∈ map link_id ls)); [done|]. rewrite elem_of_cons. tauto.
Qed.

Definition orphaned (id : Z) (l : L) : bool :=
  match ml_carrier l with Some carrier => bool_decide (cr_mux carrier = Some id) | None => false end.
Lemma orphan_fold (m : M) id : orphan_carriers walk_ids m id
  = fold_left (fun m l => match FindById (table_ m) (link_id l) with
                          | Some l => if negb (link_id l =? id) && orphaned id l then act m (link_id l) ActOrphanCarrier else m
                          | None => m end) (links walk_ids m) m.
Proof.
  unfold orphan_carriers, each. generalize (links walk_ids m). intros ls. revert m. induction ls as [|x ls IH]; intros m; [done|]. cbn [fold_left].
  rewrite IH. f_equal. destruct (FindById _ _) as [l|]; [|done]. unfold orphaned. destruct (link_id l =? id); [done|]. by destruct (ml_carrier l).
Qed.
Lemma links_ids (m : M) : keyed (table_ m) -> map link_id (links walk_ids m) ≡ₚ (map_to_list (by_id_ (table_ m))).*1.
Proof.
  intros Hk. unfold links, walk_links. rewrite walk_perm.
  enough (map link_id (map_to_list (by_id_ (table_ m))).*2 = (map_to_list (by_id_ (table_ m))).*1) as -> by done.
  assert (Hall : Forall (fun x => link_id x.2 = x.1) (map_to_list (by_id_ (table_ m)))).
  { apply Forall_forall. intros [i l] Hin%elem_of_map_to_list. by apply Hk. }
  induction Hall as [|x xs Hx _ IH]; [done|]. cbn. by rewrite Hx, IH.
Qed.
Lemma orphan_ids (m : M) id id' : keyed (table_ m) -> by_id_ (table_ (orphan_carriers walk_ids m id)) !! id'
  = (fun l => if negb (id' =? id) && orphaned id l then ml_do ActOrphanCarrier l else l) <$> by_id_ (table_ m) !! id'.
Proof.
  intros Hk. rewrite orphan_fold, (fold_each_ids (fun l => negb (link_id l =? id) && orphaned id l)); [|done|].
  - destruct (by_id_ (table_ m) !! id') as [l|] eqn:Hl; [|done]. cbn. rewrite (Hk _ _ Hl), bool_decide_true; [done|].
    rewrite links_ids by done. apply list_elem_of_fmap. exists (id', l). split; [done|]. by apply elem_of_map_to_list.
  - rewrite links_ids by done. apply NoDup_fst_map_to_list.
Qed.
Lemma orphan_same {A} (p : M -> A) m id : (forall m id a, p (act m id a) = p m) -> p (orphan_carriers walk_ids m id) = p m.
Proof.
  intros Hp. rewrite orphan_fold. generalize (links walk_ids m). intros ls. revert m. induction ls as [|x ls IH]; intros m; [done|].
  cbn [fold_left]. rewrite IH. destruct (FindById _ _); [|done]. destruct (_ && _); [apply Hp|done].
Qed.
Lemma acts_same {A} (p : M -> A) m id l : (forall m id a, p (act m id a) = p m) -> p (acts m id l) = p m.
Proof. intros Hp. unfold acts. revert m. induction l as [|a l IH]; intros m; [done|]. cbn [fold_left]. by rewrite IH, Hp. Qed.

(** Up to the erasure of the link, only links change. *)
Definition before_erase (m : M) (l : L) : M :=
  let id := link_id l in
  let m := m <| connected_link_ids_ ::= fun ids => ids ∖ {[id]} |> in
  let m := match ml_conn l with
           | Some conn => if ml_backed l then m
                          else acts m id ([ActWatchPath false; ActOffMessage] ++ (if cv_closed conn then [] else [ActCloseConnection]))
           | None => m
           end in
  let m := match ml_carrier l with Some _ => act m id ActReleaseCarrier | None => m end in
  if ml_has_mux l then acts (orphan_carriers walk_ids m id) id [ActClearProtocolHandlers; ActDetachChannels] else m.
Definition after_erase (m : M) (l : L) (reason : LinkDropReason) : M :=
  let id := link_id l in
  let m' := before_erase m l <| table_ ::= fun t => EraseById t id |> in
  let m' := if ml_has_mux l then log (MgChannelNotices (tl_handle l)) m' else m' in
  let m' := match nested_waiters_ m' !! id with
            | Some waiters => log (MgPostWaiters waiters (LinkCb_error MgrTransportFailed "amp link: nested link dropped"))
                                (m' <| nested_waiters_ ::= delete id |>)
            | None => m'
            end in
  AnswerVerifyWaiters (EmitLinkEvent walk_ids m' (dropped_event m l reason)) id false.
Lemma drop_split (m : M) l reason : DropLinkNow walk_ids m l reason = after_erase m l reason.
Proof. reflexivity. Qed.

Lemma before_same {A} (p : M -> A) (m : M) l : (forall m id a, p (act m id a) = p m) ->
  p (before_erase m l) = p (m <| connected_link_ids_ ::= fun ids => ids ∖ {[link_id l]} |>).
Proof.
  intros Hp. unfold before_erase. cbv zeta. set (m1 := m <| connected_link_ids_ ::= _ |>). set (m2 := match ml_conn l with Some _ => _ | None => m1 end).
  assert (E2 : p m2 = p m1) by (unfold m2; destruct (ml_conn l); [|done]; destruct (ml_backed l); [done|by apply acts_same]).
  set (m3 := match ml_carrier l with Some _ => _ | None => m2 end). assert (E3 : p m3 = p m2) by (unfold m3; destruct (ml_carrier l); [apply Hp|done]).
  destruct (ml_has_mux l); [rewrite acts_same, orphan_same by done|]; congruence.
Qed.
Lemma before_ids (m : M) l id' : keyed (table_ m) -> by_id_ (table_ m) !! link_id l = Some l ->
  exists l', tl_key l' = tl_key l /\ tl_peer l' = tl_peer l /\ tl_transport l' = tl_transport l
    /\ by_id_ (table_ (before_erase m l)) !! id'
       = if decide (id' = link_id l) then Some l'
         else (fun x => if ml_has_mux l && orphaned (link_id l) x then ml_do ActOrphanCarrier x else x) <$> by_id_ (table_ m) !! id'.
Proof.
  intros Hk Hl. unfold before_erase. cbv zeta. set (m1 := m <| connected_link_ids_ ::= _ |>). set (m2 := match ml_conn l with Some _ => _ | None => m1 end).
  assert (H2' : exists l1, (tl_handle l1 = tl_handle l /\ tl_key l1 = tl_key l /\ tl_peer l1 = tl_peer l /\ tl_transport l1 = tl_transport l)
            /\ forall i, by_id_ (table_ m2) !! i = if decide (i = link_id l) then Some l1 else by_id_ (table_ m) !! i).
  { assert (Hsame : forall i, by_id_ (table_ m1) !! i = if decide (i = link_id l) then Some l else by_id_ (table_ m) !! i).
    { intros i. case_decide as Hd; [by subst i|done]. }
    unfold m2. destruct (ml_conn l) as [conn|]; [|by exists l]. destruct (ml_backed l); [by exists l|]. set (todo := _ ++ _).
    exists (do_all todo l). split; [apply do_all_keeps|]. intros i. rewrite acts_ids, Hsame. by case_decide. }
  clearbody m2. destruct H2' as (l1 & Hl1 & Hm2). set (m3 := match ml_carrier l with Some _ => _ | None => m2 end).
  assert (H3' : exists l2, (tl_handle l2 = tl_handle l /\ tl_key l2 = tl_key l /\ tl_peer l2 = tl_peer l /\ tl_transport l2 = tl_transport l)
            /\ forall i, by_id_ (table_ m3) !! i = if decide (i = link_id l) then Some l2 else by_id_ (table_ m) !! i).
  { unfold m3. destruct (ml_carrier l); [|by exists l1]. exists (ml_do ActReleaseCarrier l1). destruct Hl1 as (E1 & E2 & E3 & E4).
    rewrite ml_do_handle, ml_do_key, ml_do_peer, (kp_transport _ _ (ml_do_keeps ActReleaseCarrier l1)). split; [done|].
    intros i. rewrite act_ids, Hm2. by case_decide. }
  clearbody m3. clear m2 Hm2 l1 Hl1. destruct H3' as (l2 & (E1 & E2 & E3 & E4) & Hm3).
  assert (Hk3 : keyed (table_ m3)).
  { intros i x. rewrite Hm3. case_decide as Hd; [intros [= <-]; unfold link_id in *; congruence|apply Hk]. }
  destruct (ml_has_mux l); cbn [andb].
  - set (l3 := do_all [ActClearProtocolHandlers; ActDetachChannels] l2). exists l3.
    destruct (do_all_keeps [ActClearProtocolHandlers; ActDetachChannels] l2) as (_ & F2 & F3 & F4). fold l3 in F2, F3, F4.
    split_and!; [congruence..|].
    rewrite acts_ids, orphan_ids by done. rewrite Hm3. destruct (decide (id' = link_id l)) as [->|Hd].
    + cbn. by rewrite Z.eqb_refl.
    + by rewrite (proj2 (Z.eqb_neq _ _) Hd).
  - exists l2. split_and!; [done..|]. rewrite Hm3. case_decide; [done|]. by destruct (_ !! id').
Qed.
Lemma verify_same {A} (p : M -> A) (m : M) id alive : (forall m e, p (log e m) = p m) ->
  (forall m, p (m <| verify_waiters_ ::= delete id |>) = p m) -> p (AnswerVerifyWaiters m id alive) = p m.
Proof. intros Hl Hv. unfold AnswerVerifyWaiters. destruct (_ !! id); [by rewrite Hl, Hv|done]. Qed.
(** After it, neither table nor book nor dials change. *)
Lemma after_same {A} (p : M -> A) (m : M) l reason : (forall m e, p (log e m) = p m) ->
  (forall m f, p (m <| verify_waiters_ ::= f |>) = p m) -> (forall m f, p (m <| nested_waiters_ ::= f |>) = p m) ->
  p (after_erase m l reason) = p (before_erase m l <| table_ ::= fun t => EraseById t (link_id l) |>).
Proof.
  intros Hl Hv Hn. unfold after_erase. cbv zeta. rewrite verify_same by auto. rewrite emit_same by done.
  set (m1 := if ml_has_mux l then _ else _). assert (E1 : p m1 = p (before_erase m l <| table_ ::= fun t => EraseById t (link_id l) |>)).
  { unfold m1. destruct (ml_has_mux l); [apply Hl|done]. }
  destruct (_ !! link_id l); [by rewrite Hl, Hn|done].
Qed.

Lemma erase_indexes (t : LinkTable L) id l : by_id_ t !! id = Some l ->
  (forall key id', by_dial_key_ t !! key = Some id' -> exists x, by_id_ t !! id' = Some x /\ tl_key x = key) ->
  (forall key, by_dial_key_ (EraseById t id) !! key <> Some id)
  /\ (tl_peer l <> ""%string -> match tl_transport l with
                               | Adp => pp_adp (Presence (EraseById t id) (tl_peer l)) <> Some id
                               | Carrier => pp_carrier (Presence (EraseById t id) (tl_peer l)) <> Some id
                               end).
Proof.
  intros Hl Hkeys. unfold EraseById. rewrite Hl. cbv zeta. set (t1 := if bool_decide _ then _ else t).
  assert (H1' : by_peer_ t1 = by_peer_ t /\ forall key, by_dial_key_ t1 !! key <> Some id).
  { unfold t1. case_bool_decide as Hb; split; try done; cbn; intros key Hkey.
    - apply lookup_delete_Some in Hkey as [Hne Hkey]. destruct (Hkeys _ _ Hkey) as (x & Hx & Hxk). congruence.
    - destruct (Hkeys _ _ Hkey) as (x & Hx & Hxk). congruence. }
  clearbody t1. destruct H1' as [Ep Hk]. set (t2 := if bool_decide _ then t1 else _). split.
  - intros key. cbn. unfold t2. case_bool_decide; [apply Hk|]. destruct (ClearPresence_same t1 (tl_peer l) (tl_transport l) id) as (_ & _ & ->). apply Hk.
  - intros Hp. cbn. unfold t2. rewrite bool_decide_false by done. unfold ClearPresence, Presence. cbn.
    destruct (by_peer_ t1 !! tl_peer l) as [p|] eqn:Hpres.
    + set (p' := match tl_transport l with
                 | Carrier => if bool_decide (pp_carrier p = Some id) then p <| pp_carrier := None |> else p
                 | Adp => if bool_decide (pp_adp p = Some id) then p <| pp_adp := None |> else p
                 end).
      assert (Hp' : match tl_transport l with Adp => pp_adp p' <> Some id | Carrier => pp_carrier p' <> Some id end).
      { unfold p'. destruct (tl_transport l); case_bool_decide; done. }
      cbv zeta. destruct (_ && _); cbn; [rewrite lookup_delete_eq|rewrite lookup_insert_eq; done]. by destruct (tl_transport l).
    + rewrite Hpres. by destruct (tl_transport l).
Qed.

(** What became of those who waited for the link. *)
Definition posts_to (m m' : M) (id : Z) : Prop :=
  nested_waiters_ m' !! id = None /\ verify_waiters_ m' !! id = None
  /\ (forall ws, nested_waiters_ m !! id = Some ws ->
        MgPostWaiters ws (LinkCb_error MgrTransportFailed "amp link: nested link dropped") ∈ mgr_log m')
  /\ (forall ws, verify_waiters_ m !! id = Some ws -> MgPostVerify ws false ∈ mgr_log m').
Lemma after_posts (m : M) l reason : posts_to m (after_erase m l reason) (link_id l).
Proof.
  set (id := link_id l). set (m0 := before_erase m l <| table_ ::= fun t => EraseById t id |>).
  assert (E0 : forall A (p : M -> A), (forall m id a, p (act m id a) = p m) -> (forall m f, p (m <| table_ ::= f |>) = p m)
             -> (forall m f, p (m <| connected_link_ids_ ::= f |>) = p m) -> p m0 = p m).
  { intros A p P1 P2 P3. unfold m0. by rewrite P2, before_same. }
  pose proof (E0 _ nested_waiters_ ltac:(done) ltac:(done) ltac:(done)) as En.
  pose proof (E0 _ verify_waiters_ ltac:(done) ltac:(done) ltac:(done)) as Ev.
  unfold after_erase. cbv zeta. fold id. fold m0. set (m1 := if ml_has_mux l then _ else m0).
  assert (E1 : nested_waiters_ m1 = nested_waiters_ m /\ verify_waiters_ m1 = verify_waiters_ m) by (unfold m1; by destruct (ml_has_mux l)).
  clearbody m1. clear m0 E0 En Ev. destruct E1 as [En Ev]. set (m2 := match nested_waiters_ m1 !! id with Some _ => _ | None => m1 end).
  assert (E2 : verify_waiters_ m2 = verify_waiters_ m /\ nested_waiters_ m2 !! id = None
            /\ forall ws, nested_waiters_ m !! id = Some ws ->
                 MgPostWaiters ws (LinkCb_error MgrTransportFailed "amp link: nested link dropped") ∈ mgr_log m2).
  { unfold m2. rewrite En. destruct (nested_waiters_ m !! id) as [ws|] eqn:Hn; [|by rewrite En].
    split_and!; [done|cbn; by apply lookup_delete_eq|]. intros ws' [= <-]. cbn. apply elem_of_app. right. by left. }
  clearbody m2. destruct E2 as (E2v & E2n & E2l). unfold posts_to. rewrite <- E2v.
  set (m3 := EmitLinkEvent walk_ids m2 _). assert (E3 : nested_waiters_ m3 = nested_waiters_ m2 /\ verify_waiters_ m3 = verify_waiters_ m2
             /\ mgr_log m2 `prefix_of` mgr_log m3).
  { unfold m3, EmitLinkEvent. destruct (walk_ids _ _).*2; [done|]. split_and!; [done|done|]. by eexists. }
  clearbody m3. destruct E3 as (E3n & E3v & more & E3l). rewrite <- E3v. unfold AnswerVerifyWaiters.
  destruct (verify_waiters_ m3 !! id) as [ws|] eqn:Hv.
  - cbn. split_and!; [by rewrite E3n|by apply lookup_delete_eq| |].
    + intros ws' Hws. rewrite E3l. apply elem_of_app. left. apply elem_of_app. left. by apply E2l.
    + intros ws' [= <-]. apply elem_of_app. right. by left.
  - split_and!; [by rewrite E3n|done| |done]. intros ws' Hws. rewrite E3l. apply elem_of_app. left. by apply E2l.
Qed.
Lemma EraseById_ids (t : LinkTable L) id id' : by_id_ (EraseById t id) !! id' = if decide (id' = id) then None else by_id_ t !! id'.
Proof.
  unfold EraseById. destruct (by_id_ t !! id) as [l|] eqn:Hl; cbv zeta.
  - set (t1 := if bool_decide _ then _ else t). assert (E1 : by_id_ t1 = by_id_ t) by (unfold t1; by case_bool_decide).
    set (t2 := if bool_decide _ then t1 else _). assert (E2 : by_id_ t2 = by_id_ t).
    { unfold t2. case_bool_decide; [done|]. by destruct (ClearPresence_same t1 (tl_peer l) (tl_transport l) id) as (_ & -> & _). }
    cbn. rewrite E2. case_decide as Hd; [subst; apply lookup_delete_eq|by apply lookup_delete_ne].
  - case_decide; [by subst|done].
Qed.

(** C23: dropping a link takes away what names it, and only that.  The link goes from
    the table: no id and no dial key finds it, its peer's presence forgets it, and
    nobody is left to wait for it: who waited for a nested link is told it failed,
    and who asked whether it is alive is told it is not.  The other links are as
    they were, but for the carriers in its multiplexer, which learn that it is
    gone.  But a dial it was the link of is not ended: the callbacks that wait for
    the key and the count of dials under way stay as they were. *)
Theorem drop_link_now (m : M) (l : L) (reason : LinkDropReason) :
  keyed (table_ m) -> by_id_ (table_ m) !! link_id l = Some l ->
  (forall key id, by_dial_key_ (table_ m) !! key = Some id -> exists x, by_id_ (table_ m) !! id = Some x /\ tl_key x = key) ->
  let m' := DropLinkNow walk_ids m l reason in
  let t' := table_ m' in
  by_id_ t' !! link_id l = None /\ (forall key, by_dial_key_ t' !! key <> Some (link_id l))
  /\ (tl_peer l <> ""%string -> match tl_transport l with
                               | Adp => pp_adp (Presence t' (tl_peer l)) <> Some (link_id l)
                               | Carrier => pp_carrier (Presence t' (tl_peer l)) <> Some (link_id l)
                               end)
  /\ (forall id, id <> link_id l -> by_id_ t' !! id
        = (fun x => if ml_has_mux l && orphaned (link_id l) x then ml_do ActOrphanCarrier x else x) <$> by_id_ (table_ m) !! id)
  /\ link_id l ∉ connected_link_ids_ m' /\ posts_to m m' (link_id l)
  /\ inflight_associations_ m' = inflight_associations_ m /\ concurrent_dials_ (book_ m') = concurrent_dials_ (book_ m).
Proof.
  intros Hk Hl Hkeys. cbv zeta. rewrite drop_split.
  assert (Et : table_ (after_erase m l reason) = EraseById (table_ (before_erase m l)) (link_id l)) by (by rewrite (after_same table_)).
  assert (Es : forall A (p : M -> A), (forall m e, p (log e m) = p m) -> (forall m f, p (m <| verify_waiters_ ::= f |>) = p m) ->
             (forall m f, p (m <| nested_waiters_ ::= f |>) = p m) -> (forall m f, p (m <| table_ ::= f |>) = p m) ->
             (forall m id a, p (act m id a) = p m) ->
             p (after_erase m l reason) = p (m <| connected_link_ids_ ::= fun ids => ids ∖ {[link_id l]} |>)).
  { intros A p P1 P2 P3 P4 P5. by rewrite (after_same p), P4, (before_same p). }
  assert (Ed : by_dial_key_ (table_ (before_erase m l)) = by_dial_key_ (table_ m)) by (by rewrite (before_same (fun m => by_dial_key_ (table_ m)))).
  destruct (before_ids m l (link_id l) Hk Hl) as (l' & Ek & Ep & Etr & Hl'). rewrite decide_True in Hl' by done.
  destruct (erase_indexes (table_ (before_erase m l)) (link_id l) l' Hl') as [Hnokey Hnopeer].
  { intros key id. rewrite Ed. intros (x & Hx & Hxk)%Hkeys. destruct (before_ids m l id Hk Hl) as (l2 & Ek2 & _ & _ & Hid).
    case_decide as Hd; [subst id; exists l2; split; [done|congruence]|]. rewrite Hid, Hx. eexists. split; [done|].
    destruct (_ && _); [by rewrite ml_do_key|done]. }
  rewrite Et, Ep, Etr in *. split_and!; [by rewrite EraseById_ids, decide_True|exact Hnokey|exact Hnopeer| | |apply after_posts| |].
  - intros id Hd. rewrite EraseById_ids, decide_False by done. destruct (before_ids m l id Hk Hl) as (x & _ & _ & _ & ->). by rewrite decide_False.
  - rewrite (Es _ connected_link_ids_) by done. cbn. set_solver.
  - by rewrite (Es _ inflight_associations_).
  - by rewrite (Es _ book_).
Qed.
End Drop.

(** ** One session to a peer *)

Section Election.
Context {L K C E : Type} `{ManagedLinkLaws L K C} `{DialEndpoint E K} `{Inet6} `{GenericHash}.
Context (walk_ids : forall A, gmap Z A -> list (Z * A)) (walk_keys : forall A, gmap string A -> list (string * A)).
Context (walk_protocols : gmap bytes (option HandlerRef) -> list (bytes * option HandlerRef)).
Context (walk_perm : forall A (g : gmap Z A), walk_ids A g ≡ₚ map_to_list g).
Abbreviation M := (Manager L E).

Lemma find_link_in (p : L -> bool) (m : M) l : keyed (table_ m) -> find_link walk_ids p m = Some l ->
  by_id_ (table_ m) !! link_id l = Some l /\ p l = true.
Proof.
  unfold find_link. intros Hk Hl.
  assert (Hin : l ∈ filter (fun l => p l = true) (links walk_ids m)).
  { destruct (filter _ _) as [|x xs]; [done|]. injection Hl as ->. by left. }
  apply list_elem_of_filter in Hin as [Hp Hin]. split; [|done]. unfold links, walk_links in Hin. rewrite walk_perm in Hin.
  apply list_elem_of_fmap in Hin as ([id x] & E1 & Hin%elem_of_map_to_list). cbn in E1. subst x. by rewrite (Hk _ _ Hin).
Qed.
Lemma free_alias_free (m : M) remote x alias : free_alias walk_keys m remote x = Some alias -> ContainsDialKey (table_ m) alias = false.
Proof.
  unfold free_alias. intros Ha. destruct (filter _ _) as [|[a r] rest] eqn:Hf; [done|]. injection Ha as ->.
  assert (Hin : (alias, r) ∈ (alias, r) :: rest) by (by left). rewrite <- Hf in Hin. apply list_elem_of_filter in Hin. tauto.
Qed.
Lemma apply_handlers_same {A} (p : M -> A) (m : M) id : (forall m a, p (act m id a) = p m) -> p (ApplyProtocolHandlers walk_protocols m id) = p m.
Proof.
  intros Hp. unfold ApplyProtocolHandlers. destruct (FindById _ _); [|done]. destruct (negb _); [done|]. unfold acts.
  generalize (([ActRefuseUnhandled (mgr_refuse_unhandled_opens_ m); ActClearProtocolHandlers]
    ++ map (fun '(protocol, handler) => ActSetProtocolHandler protocol (Some (MkProtocolClosure (tl_handle l) (tl_peer l) handler)))
         (walk_protocols (protocol_handlers_ m)))). intros todo. revert m. induction todo as [|a todo IH]; intros m; [done|].
  cbn [fold_left]. by rewrite IH.
Qed.
(** A free alias is bound with no link dropped: only the link it is bound to changes. *)
Lemma adopt_alias_same {A} (p : M -> A) (m : M) l x : (forall m a, p (act m (link_id l) a) = p m) ->
  (forall m key, p (m <| table_ := (BindDialKey (table_ m) (link_id l) key).1 |>) = p m) ->
  p (adopt_alias walk_ids walk_keys walk_protocols m l x) = p m.
Proof.
  intros Ha Hb. unfold adopt_alias. destruct (ml_outbound l); [done|]. destruct (free_alias walk_keys m (tl_peer l) x) as [alias|] eqn:Hf; [|done].
  unfold BindDialAlias. destruct (FindById _ _) as [link|]; [|done]. case_bool_decide; [done|]. cbv zeta.
  rewrite (free_alias_free _ _ _ _ Hf). specialize (Hb m alias). destruct (BindDialKey _ _ _) as [t bound].
  destruct (negb bound); [exact Hb|]. by rewrite apply_handlers_same.
Qed.
Lemma act_others (m : M) id a id' : id' <> id -> by_id_ (table_ (act m id a)) !! id' = by_id_ (table_ m) !! id'.
Proof. intros Hd. by rewrite act_ids, decide_False. Qed.
Lemma bind_others (t : LinkTable L) id key id' : id' <> id -> by_id_ (BindDialKey t id key).1 !! id' = by_id_ t !! id'.
Proof.
  intros Hd. unfold BindDialKey. repeat case_match_goal; try done; cbn; by rewrite lookup_insert_ne.
Qed.

(** A drop by key is the drop of the link, when the key names it. *)
Lemma named_drop (m : M) (ex : L) (drops : list (LinkHandle * LinkDropReason)) :
  FindById (table_ m) (link_id ex) = Some ex ->
  drops = pending_drops_ m ++ match FindByDialKey (table_ m) (tl_key ex) with Some x => [(tl_handle x, DropDualDialLost)] | None => [] end ->
  (by_dial_key_ (table_ m) !! tl_key ex = Some (link_id ex) -> drops = pending_drops_ m ++ [(tl_handle ex, DropDualDialLost)])
  /\ drops = pending_drops_ m ++ match FindByDialKey (table_ m) (tl_key ex) with Some x => [(tl_handle x, DropDualDialLost)] | None => [] end.
Proof. intros Hex ->. split; [|done]. intros Hkey. unfold FindByDialKey. by rewrite Hkey; cbn; rewrite Hex. Qed.

(** C25: one session to a peer is kept.  When the link the manager meets, of those
    connected to the same peer, is of the class of the new one, one of the two goes.
    Either the new one is refused and nothing changes; or it is kept, and the other
    is demoted, neither connected nor shaking hands, and no third link changes.  The
    drop that follows goes by dial key, as in the code: while the key of the demoted
    link still names it, that link is scheduled to be dropped; if the key names
    another link, that one is; and if it names none, no drop is scheduled and the
    demoted link stays in the table (see [stranded_loser]). *)
Theorem election_leaves_one (m : M) (cand ex : L) :
  keyed (table_ m) -> tl_peer cand <> ""%string -> find_duplicate walk_ids m cand = Some ex -> ml_backed ex = ml_backed cand ->
  let m' := (AdoptInboundOrDropDuplicate walk_ids walk_keys walk_protocols m cand).1 in
  let kept := (AdoptInboundOrDropDuplicate walk_ids walk_keys walk_protocols m cand).2 in
  kept = match ElectDualDialWinner m ex cand with existing => false | candidate => true end
  /\ (kept = false -> m' = m)
  /\ (kept = true ->
        (exists ex', FindById (table_ m') (link_id ex) = Some ex' /\ tl_handle ex' = tl_handle ex
           /\ tl_phase ex' <> Connected /\ dialing ex' = false)
        /\ (forall id, id <> link_id ex -> id <> link_id cand -> FindById (table_ m') id = FindById (table_ m) id)
        /\ (by_dial_key_ (table_ m) !! tl_key ex = Some (link_id ex) ->
            pending_drops_ m' = pending_drops_ m ++ [(tl_handle ex, DropDualDialLost)])
        /\ pending_drops_ m' = pending_drops_ m ++ match FindByDialKey (table_ m) (tl_key ex) with
                                                  | Some x => [(tl_handle x, DropDualDialLost)]
                                                  | None => []
                                                  end).
Proof.
  intros Hk Hp Hdup Hb. cbv zeta. unfold AdoptInboundOrDropDuplicate. rewrite bool_decide_false by done. rewrite Hdup, Hb.
  rewrite Bool.eqb_reflx. cbn [negb]. unfold find_duplicate in Hdup. destruct (find_link_in _ _ _ Hk Hdup) as [Hex Hpred].
  apply andb_true_iff in Hpred as [[Hne%negb_true_iff%Z.eqb_neq _]%andb_true_iff _].
  destruct (ElectDualDialWinner m ex cand); [done|]. cbn [fst snd]. split; [done|]. split; [done|]. intros _.
  set (todo := _ ++ [ActDemote]). set (m1 := acts m (link_id ex) todo). set (m2 := ScheduleDropLink m1 (tl_key ex) DropDualDialLost).
  assert (Hids : forall id, by_id_ (table_ m2) !! id = by_id_ (table_ m1) !! id) by (intros id; unfold m2, ScheduleDropLink; by destruct (FindByDialKey _ _)).
  split; [|split; [|apply named_drop; [by unfold FindById; rewrite Hex|]]].
  - assert (Hend : exists l0, do_all todo ex = ml_do ActDemote l0).
    { unfold todo, do_all. rewrite fold_left_app. cbn [fold_left]. by eexists. }
    destruct Hend as [l0 Hend]. destruct (ml_demote_phase l0) as [Hnc Hnd]. exists (do_all todo ex). unfold FindById.
    rewrite (adopt_alias_same (fun m => by_id_ (table_ m) !! link_id ex)).
    + rewrite Hids. unfold m1. rewrite acts_ids, decide_True, Hex by done. split; [done|]. split; [apply do_all_keeps|]. by rewrite Hend.
    + intros m3 a. by apply act_others.
    + intros m3 key. by apply bind_others.
  - intros id Hd1 Hd2. unfold FindById. rewrite (adopt_alias_same (fun m => by_id_ (table_ m) !! id)).
    + rewrite Hids. unfold m1. by rewrite acts_ids, decide_False.
    + intros m3 a. by apply act_others.
    + intros m3 key. by apply bind_others.
  - rewrite (adopt_alias_same pending_drops_) by done. unfold m2, ScheduleDropLink.
    assert (Hd1 : pending_drops_ m1 = pending_drops_ m) by (unfold m1; by apply (acts_same pending_drops_)).
    assert (Hk1 : by_dial_key_ (table_ m1) = by_dial_key_ (table_ m)) by (unfold m1; by apply (acts_same (fun m => by_dial_key_ (table_ m)))).
    assert (Hm1 : forall id, tl_handle <$> by_id_ (table_ m1) !! id = tl_handle <$> by_id_ (table_ m) !! id).
    { intros id. unfold m1. rewrite acts_ids. case_decide; [|done]. destruct (_ !! id) as [x|]; [|done]. cbn. f_equal. apply do_all_keeps. }
    clearbody m1. unfold FindByDialKey, FindById. rewrite Hk1. destruct (by_dial_key_ (table_ m) !! tl_key ex) as [id|]; cbn; [|by rewrite app_nil_r].
    specialize (Hm1 id). destruct (by_id_ (table_ m1) !! id) as [x1|], (by_id_ (table_ m) !! id) as [x|]; try discriminate; cbn; rewrite Hd1.
    + by injection Hm1 as ->.
    + by rewrite app_nil_r.
Qed.
End Election.

(** ** Witnesses *)

Section Witness.
#[local] Existing Instance toy_inet6.
#[local] Existing Instance toy_hash.
Abbreviation toy_run := (world_run (E := unit) toy_walk_ids toy_walk_keys toy_walk_protocols (fun d => d)).
Abbreviation toy_start := (World_new (L := ToyLink) tt "local" PeerLinkConfig_default).
Definition toy_up (l : ToyLink) : ToyLink := l <| y_phase := Connected |> <| y_peer := "peer" |>.

(** The ADP links to a peer that are up, as the table holds them after a tick. *)
Definition adp_sessions (m : Manager ToyLink unit) (peer : string) : list Z :=
  map link_id (filter (fun l => tl_phase l = Connected /\ tl_transport l = Adp /\ tl_peer l = peer) (links toy_walk_ids m)).
Definition three_links : list (world_op (L := ToyLink) (K := AssocId) (C := unit)) :=
  [Do (OpAccept [3]); Do (OpAccept [4]); Do (OpNested (dd_draw toy_dial_draw) "key" (Some tt) true None);
   Do (OpLink 3 toy_up); Do (OpEstablished 3); Do (OpLink 1 toy_up); Do (OpEstablished 1); Do (OpLink 2 toy_up); Do (OpEstablished 2);
   Do (OpTick (fun _ => toy_dial_draw))].
Definition no_nested (op : world_op (L := ToyLink) (K := AssocId) (C := unit)) : bool :=
  match op with Do (OpNested _ _ _ _ _) => false | _ => true end.
(** Two links over ADP to one peer can stay up.  Two links are accepted, both
    from one peer to which a nested link is up.  Without the nested link the second
    to come up is elected against the first, and one of them goes; with it, the
    manager meets the nested link first, and looks no further: both links over ADP
    stay connected and are told to the application, and the tick drops neither. *)
Theorem second_adp_session_kept :
  Forall world_op_ok three_links
  /\ adp_sessions (w_mgr (toy_run toy_start three_links)) "peer" = [2; 1]
  /\ connected_link_ids_ (w_mgr (toy_run toy_start three_links)) = {[1; 2; 3]}
  /\ adp_sessions (w_mgr (toy_run toy_start (filter (fun op => no_nested op = true) three_links))) "peer" = [2].
Proof. split_and!; [by repeat constructor|by vm_compute|by vm_compute|by vm_compute]. Qed.

(** Both links accepted, the first up and kept, the second up but not elected yet. *)
Definition toy_two : Manager ToyLink unit :=
  w_mgr (toy_run toy_start [Do (OpAccept [3]); Do (OpAccept [4]); Do (OpLink 1 toy_up); Do (OpEstablished 1); Do (OpLink 2 toy_up)]).
Definition all_pairs {A B} (f : A -> B -> bool) (l : list (A * B)) : bool := forallb (fun '(a, b) => f a b) l.
Lemma all_pairs_in {A B} (f : A -> B -> bool) l a b : all_pairs f l = true -> (a, b) ∈ l -> f a b = true.
Proof. unfold all_pairs. rewrite forallb_forall. intros Hall Hin%list_elem_of_In. exact (Hall _ Hin). Qed.
Lemma keyed_by_all (t : LinkTable ToyLink) : all_pairs (fun id l => link_id l =? id) (map_to_list (by_id_ t)) = true -> keyed t.
Proof. intros Hall id l Hl%elem_of_map_to_list. by apply (all_pairs_in _ _ _ _ Hall), Z.eqb_eq in Hl. Qed.
Definition names_at (t : LinkTable ToyLink) (key : string) (id : Z) : bool :=
  match by_id_ t !! id with Some x => bool_decide (tl_key x = key) | None => false end.
Lemma names_by_all (t : LinkTable ToyLink) : all_pairs (names_at t) (map_to_list (by_dial_key_ t)) = true ->
  forall key id, by_dial_key_ t !! key = Some id -> exists x, by_id_ t !! id = Some x /\ tl_key x = key.
Proof.
  intros Hall key id Hk%elem_of_map_to_list. apply (all_pairs_in _ _ _ _ Hall) in Hk. unfold names_at in Hk.
  destruct (by_id_ t !! id) as [x|]; [|done]. exists x. split; [done|]. by apply bool_decide_eq_true in Hk.
Qed.
(** A loser no one drops.  A link is dialed and comes up; a nested link is made
    under the same dial key, takes the key, and is dropped, with which the key names
    no link.  A second link to the peer then comes up, wins, and takes the key: the
    first is demoted, no drop is scheduled, and the next tick, a minute later, finds
    it where it was, in the table, in [Backoff], and still told to the application. *)
Definition stranding : list (world_op (L := ToyLink) (K := AssocId) (C := unit)) :=
  [Do (OpRegister "key" toy_ma); Do (OpEnsure toy_dial_draw "key" None); Do (OpLink 1 toy_up); Do (OpEstablished 1);
   Do (OpNested (dd_draw toy_dial_draw) "key" (Some tt) true None); Do (OpScheduleDrop (MkLinkHandle 2 2) DropTransportFailed);
   Do (OpTick (fun _ => toy_dial_draw)); Do (OpAccept [4]); Do (OpLink 3 toy_up); Do (OpEstablished 3)].
Definition phase_of (m : Manager ToyLink unit) (id : Z) : option PeerLinkPhase := tl_phase <$> FindById (table_ m) id.
Theorem stranded_loser :
  let elected := w_mgr (toy_run toy_start stranding) in
  let later := w_mgr (toy_run toy_start (stranding ++ [Do (OpTime 90000 90000); Do (OpTick (fun _ => toy_dial_draw))])) in
  Forall world_op_ok stranding
  /\ (phase_of elected 1 = Some Backoff /\ phase_of elected 3 = Some Connected /\ pending_drops_ elected = [])
  /\ phase_of later 1 = Some Backoff /\ 1 ∈ connected_link_ids_ later.
Proof. cbv zeta. split_and!; [by repeat constructor|by vm_compute..]. Qed.

Theorem election_leaves_one_witness :
  exists cand ex, FindById (table_ toy_two) 2 = Some cand /\ find_duplicate toy_walk_ids toy_two cand = Some ex
    /\ exists ex', FindById (table_ (AdoptInboundOrDropDuplicate toy_walk_ids toy_walk_keys toy_walk_protocols toy_two cand).1) 1 = Some ex'
         /\ tl_phase ex' <> Connected.
Proof.
  destruct (FindById (table_ toy_two) 2) as [cand|] eqn:Hc; [|by vm_compute in Hc].
  destruct (find_duplicate toy_walk_ids toy_two cand) as [ex|] eqn:He; [|by vm_compute in Hc; injection Hc as <-; vm_compute in He].
  exists cand, ex. split; [done|]. split; [done|].
  assert (Hids : tl_peer cand <> ""%string /\ ml_backed ex = ml_backed cand /\ link_id ex = 1
            /\ (AdoptInboundOrDropDuplicate toy_walk_ids toy_walk_keys toy_walk_protocols toy_two cand).2 = true).
  { vm_compute in Hc. injection Hc as <-. vm_compute in He. injection He as <-. by vm_compute. }
  destruct Hids as (Hp & Hb & H1' & Hkept).
  destruct (election_leaves_one toy_walk_ids toy_walk_keys toy_walk_protocols (fun A g => reflexivity _) toy_two cand ex
              ltac:(apply keyed_by_all; by vm_compute) Hp He Hb) as (_ & _ & Hk).
  destruct (Hk Hkept) as ((ex' & Hex & _ & Hph & _) & _). rewrite H1' in Hex. exists ex'. split; [exact Hex|exact Hph].
Defined.

(** A dial under way, one caller waiting. *)
Definition toy_dialing : Manager ToyLink unit :=
  w_mgr (toy_run toy_start [Do (OpRegister "key" toy_ma); Do (OpEnsure toy_dial_draw "key" (Some 7%nat))]).
Theorem drop_link_now_witness :
  exists l, FindById (table_ toy_dialing) 1 = Some l /\
    let m' := DropLinkNow toy_walk_ids toy_dialing l Requested in
    FindById (table_ m') 1 = None /\ inflight_associations_ m' !! "key"%string = Some [AppCb (Some 7%nat)]
    /\ concurrent_dials_ (book_ m') = 1.
Proof.
  destruct (FindById (table_ toy_dialing) 1) as [l|] eqn:Hl; [|by vm_compute in Hl]. exists l. split; [done|]. cbv zeta.
  assert (H1' : link_id l = 1) by (vm_compute in Hl; by injection Hl as <-).
  destruct (drop_link_now toy_walk_ids (fun A g => reflexivity _) toy_dialing l Requested) as (Hgone & _ & _ & _ & _ & _ & Hw & Hd).
  - apply keyed_by_all. by vm_compute.
  - by rewrite H1'.
  - apply names_by_all. by vm_compute.
  - rewrite H1' in Hgone. split; [done|]. rewrite Hw, Hd. by vm_compute.
Defined.
End Witness.
