(* ===== verification/MeshRuntime.v ===== *)
(** * The runtime of a node (src/link/MeshRuntime.cpp, MeshPump.cpp, AmpStack.cpp)

    One thread at a time drives the runtime: it runs the ticks the application
    added, the tasks posted, the socket and the manager of links, the deferred
    tasks and the timers.  A task is a closure: of the application, by its number
    ([app] says which calls of the runtime it makes), of the manager (a completion
    posted to be run later), or of a burst of dials.  A method is atomic, as each
    holds the lock; a task that drives is refused (RuntimeProps), so that it is
    no call of [rt_op].  The endpoint's pump and tick are the calls they make into
    the manager and its links ([pumped], [ticked]).  What a callback of the
    application does is a later operation; the resolver is a thread whose answer
    is posted ([RtResolved]). *)

From stdpp Require Import pretty.
From S2P Require Import Prelude L1Types Connection ChannelMux MshAdpHandshake AdpMultiaddr LinkPolicy LinkWire LinkTable DialBook ManagedLink PeerLinkManager ManagerSteps ManagerRuns.

(** ** State *)

Record BurstDialResult := MkBurstDialResult { bd_ok : bool; bd_dialed : string; bd_error : string }.

Inductive IoTask :=
  | AppTask (n : nat)
  | Completion (e : mgr_event)
  | NetworkTask
  | ResolvedTask (draw : DialDraw) (key multiaddr : string) (result : Roe IpEndpoint)
  | BurstPoll (b : nat)
  | BurstWindow (b : nat)
  | BurstSettle (result : BurstDialResult) (done_ : nat) (job : option (list string * list string)).

Record TimerEntry := MkTimerEntry { te_id : Z; te_deadline : Z; te_task : IoTask }.

(** What the closures of one burst share. *)
Record BurstState := MkBurstState {
  bs_settled : bool;
  bs_keys : list string;
  bs_peer_ids : list string;
  bs_multiaddrs : list string;
  bs_last_error : string;
  bs_done : nat;
}.
#[export] Instance BurstState_fields : Fields BurstState := fun s =>
  MkBurstState (bs_settled s) (bs_keys s) (bs_peer_ids s) (bs_multiaddrs s) (bs_last_error s) (bs_done s).

Inductive rt_event :=
  | RtRan (task : IoTask)
  | RtTicked (tick : nat)
  | RtPumped
  | RtLinksTicked
  | RtArmed (timer : TimerEntry)
  | RtCancelled (id : Z)
  | RtFired (timer : TimerEntry) (now : Z)
  | RtBurst (done_ : nat)
  | RtBurstDone (done_ : nat) (result : BurstDialResult).

Record Runtime (L E : Type) := MkRuntime {
  links_ : Manager L E;
  io_queue_ : list IoTask;
  deferred_queue_ : list IoTask;
  timers_ : list TimerEntry;
  io_ticks_ : list (Z * nat);
  next_io_tick_id_ : Z;
  next_timer_id_ : Z;
  started_ : bool;
  driving_ : bool;
  driving_thread_ : option Z;
  claimed_driver_ : option Z;
  refused_drives_ : Z;
  io_alive_ : bool;
  running_and_waiting_ : list Z;
  bursts_ : list BurstState;
  rt_log : list rt_event;
}.
Arguments MkRuntime {L E}. Arguments links_ {L E}. Arguments io_queue_ {L E}. Arguments deferred_queue_ {L E}.
Arguments timers_ {L E}. Arguments io_ticks_ {L E}. Arguments next_io_tick_id_ {L E}. Arguments next_timer_id_ {L E}.
Arguments started_ {L E}. Arguments driving_ {L E}. Arguments driving_thread_ {L E}. Arguments claimed_driver_ {L E}.
Arguments refused_drives_ {L E}. Arguments io_alive_ {L E}. Arguments running_and_waiting_ {L E}. Arguments bursts_ {L E}.
Arguments rt_log {L E}.
#[export] Instance Runtime_fields {L E} : Fields (Runtime L E) := fun r =>
  MkRuntime (links_ r) (io_queue_ r) (deferred_queue_ r) (timers_ r) (io_ticks_ r) (next_io_tick_id_ r) (next_timer_id_ r)
    (started_ r) (driving_ r) (driving_thread_ r) (claimed_driver_ r) (refused_drives_ r) (io_alive_ r)
    (running_and_waiting_ r) (bursts_ r) (rt_log r).

Section MeshRuntime.
Context {L K C E : Type} `{ManagedLink L K C} `{DialEndpoint E K} `{Inet6} `{GenericHash}.
Context (walk_ids : forall A, gmap Z A -> list (Z * A)) (walk_keys : forall A, gmap string A -> list (string * A)).
Context (walk_protocols : gmap bytes (option HandlerRef) -> list (bytes * option HandlerRef)).
Context (jitter : Z -> Z).
Abbreviation M := (Manager L E).
Abbreviation R := (Runtime L E).
Abbreviation op := (mgr_op (L := L) (K := K) (C := C)).

(** The calls of the runtime an application makes, from any thread or in a task. *)
Inductive rt_op :=
  | RtPost (task : option nat)
  | RtDefer (task : option nat)
  | RtAfter (delay : Z) (task : option nat)
  | RtAt (deadline : Z) (task : option nat)
  | RtCancel (id : Z)
  | RtAddTick (tick : option nat)
  | RtRemoveTick (id : Z)
  | RtLink (op : op)
  | RtBurstDial (draws : nat -> DialDraw) (multiaddrs : list string) (window : Z) (done_ : option nat)
  | RtNetworkChanged
  | RtResolved (draw : DialDraw) (key multiaddr : string) (result : Roe IpEndpoint)
  | RtStart
  | RtStop
  | RtClaim (self : Z)
  | RtRelease.

Context (pumped ticked : M -> list op).
Context (app : nat -> R -> list rt_op).

Definition MeshRuntime_new (endpoint : E) (local_peer_id : string) (config : PeerLinkConfig) : R :=
  MkRuntime (SetHostResolver (Manager_new endpoint local_peer_id config) true) [] [] [] [] 1 1 false false None None 0 true [] [] [].
Definition MeshRuntime_destroy (r : R) : R := r <| io_alive_ := false |>.
Definition rt_note (e : rt_event) (r : R) : R := r <| rt_log ::= fun l => l ++ [e] |>.

(** ** What the manager posts *)

Definition posts (e : mgr_event) : bool :=
  match e with
  | MgPostWaiters _ _ | MgPostVerify _ _ | MgPostChannelOpen _ _ | MgPostPeerConnected _ _ | MgPostEvent _ _ => true
  | _ => false
  end.
(** The callbacks of the application are even, that of burst [b] is [burst_cb b]. *)
Definition burst_cb (b : nat) : nat := S (2 * b).
Definition burst_of (cb : nat) : option nat := if Nat.odd cb then Some (Nat.div2 cb) else None.
Definition burst_failed (s : BurstState) (message : string) : BurstState :=
  if bs_settled s then s else s <| bs_last_error := message |>.
Definition burst_told (r : R) (e : mgr_event) : R :=
  match e with
  | MgCall cb (Fail failure) =>
      match burst_of cb with
      | Some b => r <| bursts_ ::= alter (fun s => burst_failed s (mf_message failure)) b |>
      | None => r
      end
  | _ => r
  end.
(** The manager works; what it posts is queued, and the callbacks of bursts it calls run. *)
Definition links_do (f : M -> M) (r : R) : R :=
  let m := f (links_ r) in
  let new := drop (length (mgr_log (links_ r))) (mgr_log m) in
  fold_left burst_told new (r <| links_ := m |> <| io_queue_ ::= fun q => q ++ map Completion (filter (fun e => posts e = true) new) |>).
Definition links_op (r : R) (op : op) : R :=
  links_do (fun m => mgr_step walk_ids walk_keys walk_protocols jitter m op) r.
Definition now_ms (r : R) : Z := amp_now (links_ r).

(** ** Posting *)

Definition PostToIo (r : R) (task : option IoTask) : R :=
  match task with Some task => r <| io_queue_ ::= fun q => q ++ [task] |> | None => r end.
Definition PostDeferred (r : R) (task : option IoTask) : R :=
  match task with Some task => r <| deferred_queue_ ::= fun q => q ++ [task] |> | None => r end.
(** The counter of an id skips 0. *)
Definition next_id (n : Z) : Z := let n := u64 (n + 1) in if n =? 0 then 1 else n.
Definition ArmTimerLocked (r : R) (deadline : Z) (task : option IoTask) : R * Z :=
  match task with
  | None => (r, 0)
  | Some task =>
      let timer := MkTimerEntry (next_timer_id_ r) deadline task in
      (rt_note (RtArmed timer) (r <| next_timer_id_ ::= next_id |> <| timers_ ::= fun l => l ++ [timer] |>), next_timer_id_ r)
  end.
Definition PostAfter (r : R) (delay : Z) (task : option IoTask) : R * Z :=
  ArmTimerLocked r (now_ms r + Z.max 0 delay) task.
Definition PostAt (r : R) (deadline : Z) (task : option IoTask) : R * Z := ArmTimerLocked r deadline task.
(** The first entry with the id goes. *)
Fixpoint erase_first {A} (p : A -> bool) (l : list A) : list A :=
  match l with
  | [] => []
  | x :: l => if p x then l else x :: erase_first p l
  end.
Definition CancelTimer (r : R) (id : Z) : R :=
  if id =? 0 then r else rt_note (RtCancelled id) (r <| timers_ ::= erase_first (fun t => te_id t =? id) |>).
Definition AddIoTick (r : R) (tick : option nat) : R * Z :=
  match tick with
  | None => (r, 0)
  | Some tick => (r <| next_io_tick_id_ ::= next_id |> <| io_ticks_ ::= fun l => l ++ [(next_io_tick_id_ r, tick)] |>, next_io_tick_id_ r)
  end.
Definition RemoveIoTick (r : R) (id : Z) : R :=
  if id =? 0 then r else r <| io_ticks_ ::= erase_first (fun t => t.1 =? id) |>.

Definition NotifyNetworkChanged (r : R) : R := PostToIo r (Some NetworkTask).
Definition Start (r : R) : R := r <| started_ := true |>.
Definition Stop (r : R) : R :=
  links_op r OpCloseAll <| started_ := false |> <| claimed_driver_ := None |> <| io_queue_ := [] |> <| deferred_queue_ := [] |>
    <| timers_ := [] |> <| io_ticks_ := [] |>.
Definition ClaimDriver (r : R) (self : Z) : R := r <| claimed_driver_ := Some self |>.
Definition ReleaseDriver (r : R) : R := r <| claimed_driver_ := None |>.
Definition OnDriverThread (r : R) (self : Z) : bool :=
  match claimed_driver_ r with
  | Some claimed => claimed =? self
  | None => bool_decide (driving_thread_ r = Some self)
  end.

(** ** Bursts of dials *)

Definition kMaxAddrs : nat := 8.
(** The addresses a burst dials: those that parse, once each, eight at most. *)
Definition burst_addrs (multiaddrs : list string) : list string :=
  fold_left (fun addrs ma =>
               if (kMaxAddrs <=? length addrs)%nat then addrs
               else if bool_decide (ma = "") || negb (ok (ParseAdpMultiaddr ma)) then addrs
               else if bool_decide (ma ∈ addrs) then addrs else addrs ++ [ma]) multiaddrs [].
(** [static_cast<int>]. *)
Definition s32 (z : Z) : Z := let n := u32 z in if n <? 2 ^ 31 then n else n - 2 ^ 32.
Definition burst_key (i : nat) (peer_id : string) : string :=
  (kBurstDialKeyPrefix ++ pretty i ++ ":" ++ String.substring 0 12 peer_id)%string.
Definition burst_won (ma : string) : BurstDialResult := MkBurstDialResult true ma "".

Definition burst_finish (r : R) (b : nat) (result : BurstDialResult) : R :=
  match bursts_ r !! b with
  | Some s =>
      if bs_settled s then r
      else PostDeferred (r <| bursts_ ::= alter (fun s => s <| bs_settled := true |>) b |>)
             (Some (BurstSettle result (bs_done s) (Some (bs_keys s, bs_peer_ids s))))
  | None => r
  end.
Definition burst_error (r : R) (b : nat) (message : string) : R :=
  r <| bursts_ ::= alter (fun s => s <| bs_last_error := message |>) b |>.

(** One address of a burst: [false] when the burst is over. *)
Definition burst_dial_one (draw : DialDraw) (r : R) (b i : nat) (ma : string) : R * bool :=
  match ParseAdpMultiaddr ma with
  | Fail _ => (burst_error r b "peer addr is not an ADP multiaddr", true)
  | Ok parsed =>
      let peer_id := pa_peer_id parsed in
      if IsConnectedToPeerId (links_ r) peer_id then (burst_finish r b (burst_won ma), false)
      else
        let key := burst_key i peer_id in
        let registered := (MgrRegisterEndpoint (links_ r) key ma).2 in
        let r := links_op r (OpRegister key ma) in
        match registered with
        | Fail e =>
            if IsConnectedToPeerId (links_ r) peer_id then (burst_finish r b (burst_won ma), false)
            else (burst_error r b (error_message e), true)
        | Ok _ =>
            let r := r <| bursts_ ::= alter (fun s => s <| bs_keys ::= fun l => l ++ [key] |> <| bs_peer_ids ::= fun l => l ++ [peer_id] |>
                                                     <| bs_multiaddrs ::= fun l => l ++ [ma] |>) b |> in
            (links_op r (OpEnsure draw key (Some (burst_cb b))), true)
        end
  end.
Fixpoint burst_dial_all (draws : nat -> DialDraw) (r : R) (b i : nat) (addrs : list string) : R * bool :=
  match addrs with
  | [] => (r, true)
  | ma :: addrs =>
      let '(r, go_on) := burst_dial_one (draws i) r b i ma in
      if go_on then burst_dial_all draws r b (S i) addrs else (r, false)
  end.
Definition or_message (s : option BurstState) (message : string) : string :=
  match s with Some s => if bool_decide (bs_last_error s = "") then message else bs_last_error s | None => message end.

Definition BurstDial (draws : nat -> DialDraw) (r : R) (multiaddrs : list string) (window : Z) (on_done : option nat) : R :=
  match on_done with
  | None => r
  | Some on_done =>
      let r := rt_note (RtBurst on_done) r in
      let addrs := burst_addrs multiaddrs in
      if bool_decide (addrs = []) then PostDeferred r (Some (BurstSettle (MkBurstDialResult false "" "no peer_addrs") on_done None))
      else
        let b := length (bursts_ r) in
        let r := r <| bursts_ ::= fun l => l ++ [MkBurstState false [] [] [] "" on_done] |> in
        let '(r, go_on) := burst_dial_all draws r b 0 addrs in
        if negb go_on then r
        else if match bursts_ r !! b with Some s => bool_decide (bs_keys s = []) | None => false end
        then burst_finish r b (MkBurstDialResult false "" (or_message (bursts_ r !! b) "no peer_addrs"))
        else
          let window_ms := if 0 <? window then s32 window else 2000 in
          PostToIo (PostAfter r window_ms (Some (BurstWindow b))).1 (Some (BurstPoll b))
  end.

(** The window of a burst is over. *)
Definition burst_expire (r : R) (b : nat) : R :=
  match bursts_ r !! b with
  | Some s =>
      if bs_settled s then r
      else burst_finish r b (MkBurstDialResult false (default "" (last (bs_multiaddrs s))) (or_message (Some s) "punch burst window expired"))
  | None => r
  end.
(** A turn of the poll: the first peer that is connected wins. *)
Definition burst_poll (r : R) (b : nat) : R :=
  match bursts_ r !! b with
  | Some s =>
      if bs_settled s then r
      else
        match head (filter (fun pm => IsConnectedToPeerId (links_ r) pm.1 = true) (zip (bs_peer_ids s) (bs_multiaddrs s))) with
        | Some (_, ma) => burst_finish r b (burst_won ma)
        | None => PostToIo r (Some (BurstPoll b))
        end
  | None => r
  end.
(** The dials of a burst that did not win are aborted, and its keys forgotten. *)
Definition burst_keeps (r : R) (result : BurstDialResult) (key peer_id : string) : bool :=
  bd_ok result
  && (IsConnectedToPeerId (links_ r) peer_id
      || (let snap := GetSnapshotByDialKey walk_ids (links_ r) key in
          bool_decide (sn_phase (sx_base snap) = Connected) && bool_decide (sx_transport snap = Adp))).
Definition burst_settle (r : R) (result : BurstDialResult) (on_done : nat) (job : option (list string * list string)) : R :=
  let r :=
    match job with
    | Some (keys, peer_ids) =>
        let r := fold_left (fun r '(key, peer_id) => if burst_keeps r result key peer_id then r else links_op r (OpAbort key))
                   (zip keys peer_ids) r in
        fold_left (fun r key => links_op r (OpUnregister key)) keys r
    | None => r
    end in
  rt_note (RtBurstDone on_done result) r.

(** ** Calls and tasks *)

Definition rt_do (r : R) (o : rt_op) : R :=
  match o with
  | RtPost task => PostToIo r (AppTask <$> task)
  | RtDefer task => PostDeferred r (AppTask <$> task)
  | RtAfter delay task => (PostAfter r delay (AppTask <$> task)).1
  | RtAt deadline task => (PostAt r deadline (AppTask <$> task)).1
  | RtCancel id => CancelTimer r id
  | RtAddTick tick => (AddIoTick r tick).1
  | RtRemoveTick id => RemoveIoTick r id
  | RtLink op => links_op r op
  | RtBurstDial draws multiaddrs window done_ => BurstDial draws r multiaddrs window done_
  | RtNetworkChanged => NotifyNetworkChanged r
  | RtResolved draw key ma result => PostToIo r (Some (ResolvedTask draw key ma result))
  | RtStart => Start r
  | RtStop => Stop r
  | RtClaim self => ClaimDriver r self
  | RtRelease => ReleaseDriver r
  end.
Definition app_run (n : nat) (r : R) : R := fold_left rt_do (app n r) r.

Definition task_body (task : IoTask) (r : R) : R :=
  match task with
  | AppTask n => app_run n r
  | Completion (MgPostWaiters waiters result) =>
      links_do (fun m => fold_left (fun m cb => RunLinkCb walk_ids m cb result) waiters m) r
  | Completion _ => r
  | NetworkTask => links_op r OpNetworkChanged
  | ResolvedTask draw key ma result => links_op r (OpResolved draw key ma result)
  | BurstPoll b => burst_poll r b
  | BurstWindow b => burst_expire r b
  | BurstSettle result on_done job => burst_settle r result on_done job
  end.
Definition run_task (r : R) (task : IoTask) : R := task_body task (rt_note (RtRan task) r).

(** ** Driving *)

Definition BeginDriveLocked (r : R) (self : Z) : R * bool :=
  if driving_ r then (r, false)
  else if match claimed_driver_ r with Some claimed => negb (claimed =? self) | None => false end
  then (r <| refused_drives_ ::= fun n => u64 (n + 1) |>, false)
  else (r <| driving_ := true |> <| driving_thread_ := Some self |>, true).
Definition EndDriveLocked (r : R) : R := r <| driving_thread_ := None |> <| driving_ := false |>.

(** [MeshPump::Pump] and [MeshPump::Tick]. *)
Definition pump_Pump (r : R) : R := fold_left links_op (pumped (links_ r)) (rt_note RtPumped r).
Definition pump_Tick (draw : string -> DialDraw) (r : R) : R :=
  links_op (fold_left links_op (ticked (links_ r)) (rt_note RtLinksTicked r)) (OpTick draw).

(** The budget is 32 tasks. *)
Fixpoint drain_posted (budget : nat) (r : R) : R :=
  match budget, io_queue_ r with
  | S budget, task :: queue => drain_posted budget (run_task (r <| io_queue_ := queue |>) task)
  | _, _ => r
  end.
Definition DrainPostedIoLocked (r : R) : R := drain_posted 32 r.
(** Batches, until no task was deferred; [fuel] bounds the batches. *)
Fixpoint drain_deferred (fuel : nat) (r : R) : option R :=
  match deferred_queue_ r with
  | [] => Some r
  | batch =>
      match fuel with
      | O => None
      | S fuel => drain_deferred fuel (fold_left run_task batch (r <| deferred_queue_ := [] |>))
      end
  end.
Definition due (now : Z) (t : TimerEntry) : bool := te_deadline t <=? now.
Definition FireTimersLocked (r : R) : R :=
  let now := now_ms r in
  let fired := filter (fun t => due now t = true) (timers_ r) in
  let r := r <| timers_ := filter (fun t => due now t = false) (timers_ r) |>
             <| rt_log ::= fun l => l ++ map (fun t => RtFired t now) fired |> in
  fold_left run_task (map te_task fired) r.
(** The ticks there are when the pump starts, if they are still there. *)
Definition run_tick (r : R) (id : Z) : R :=
  match head (filter (fun t => t.1 = id) (io_ticks_ r)) with
  | Some (_, tick) => app_run tick (rt_note (RtTicked tick) r)
  | None => r
  end.
Definition PumpLocked (r : R) : R :=
  pump_Pump (DrainPostedIoLocked (fold_left run_tick (io_ticks_ r).*1 r)).
Definition TickLocked (draw : string -> DialDraw) (r : R) : R := pump_Tick draw r.

(** The end of a turn: deferred tasks, timers, what they deferred. *)
Definition finish_turn (fuel : nat) (r : R) : option R :=
  r ← drain_deferred fuel (DrainPostedIoLocked r);
  r ← drain_deferred fuel (FireTimersLocked r);
  Some (EndDriveLocked r).
Definition Pump (fuel : nat) (self : Z) (r : R) : option R :=
  let '(r, go) := BeginDriveLocked r self in
  if negb go then Some r
  else r ← drain_deferred fuel (PumpLocked r); Some (EndDriveLocked r).
Definition Tick (fuel : nat) (self : Z) (draw : string -> DialDraw) (r : R) : option R :=
  let '(r, go) := BeginDriveLocked r self in
  if negb go then Some r else finish_turn fuel (TickLocked draw r).
Definition Drive (fuel : nat) (self : Z) (draw : string -> DialDraw) (r : R) : option R :=
  let '(r, go) := BeginDriveLocked r self in
  if negb go then Some r else finish_turn fuel (TickLocked draw (PumpLocked r)).

(** ** The runtime as an executor *)

Definition ExecPost (r : R) (task : option nat) : R := if io_alive_ r then PostToIo r (AppTask <$> task) else r.
Definition ExecRunsTasksOnCurrentThread (r : R) (self : Z) : bool :=
  io_alive_ r && (OnDriverThread r self || bool_decide (self ∈ running_and_waiting_ r)).
Definition ExecPostAfter (r : R) (delay : Z) (task : option nat) : R * Z :=
  if io_alive_ r then PostAfter r delay (AppTask <$> task) else (r, 0).
Definition ExecCancelTimer (r : R) (id : Z) : R := if io_alive_ r then CancelTimer r id else r.
(** On the caller, under the lock; a runtime that is gone has no lane to run it on. *)
Definition ExecRunAndWait (r : R) (self : Z) (task : option nat) : R :=
  match task with
  | None => r
  | Some task =>
      if io_alive_ r
      then app_run task (rt_note (RtRan (AppTask task)) (r <| running_and_waiting_ ::= fun l => self :: l |>))
             <| running_and_waiting_ := running_and_waiting_ r |>
      else rt_note (RtRan (AppTask task)) r
  end.

(** ** AmpStack *)

Record AmpStack := MkAmpStack { as_local_peer_id : string; as_runtime : option R }.
#[export] Instance AmpStack_fields : Fields AmpStack := fun s => MkAmpStack (as_local_peer_id s) (as_runtime s).
(** [io] is the endpoint the stack makes of the socket and the clock it is given. *)
Definition AmpStack_Create (io : option E) (clock : bool) (local_peer_id : string) (config : PeerLinkConfig) : Roe AmpStack :=
  match io with
  | Some endpoint =>
      if negb clock then Fail (Err_ "amp stack: io and clock required")
      else if bool_decide (local_peer_id = "") then Fail (Err_ "amp stack: local_peer_id required")
      else match ValidatePeerLinkConfig config with
      | Fail e => Fail e
      | Ok _ => Ok (MkAmpStack local_peer_id (Some (MeshRuntime_new endpoint local_peer_id config)))
      end
  | None => Fail (Err_ "amp stack: io and clock required")
  end.
Definition as_update (s : AmpStack) (f : R -> R) : AmpStack := s <| as_runtime ::= fmap f |>.
Definition AmpStack_Start (s : AmpStack) : AmpStack := as_update s Start.
Definition AmpStack_Stop (s : AmpStack) : AmpStack := as_update s Stop.
Definition AmpStack_PostToIo (s : AmpStack) (task : option IoTask) : AmpStack := as_update s (fun r => PostToIo r task).
Definition AmpStack_IsStarted (s : AmpStack) : bool := match as_runtime s with Some r => started_ r | None => false end.
Definition AmpStack_Pump (fuel : nat) (self : Z) (s : AmpStack) : option AmpStack :=
  match as_runtime s with
  | Some r => r ← Pump fuel self r; Some (s <| as_runtime := Some r |>)
  | None => Some s
  end.
Definition AmpStack_Tick (fuel : nat) (self : Z) (draw : string -> DialDraw) (s : AmpStack) : option AmpStack :=
  match as_runtime s with
  | Some r => r ← Tick fuel self draw r; Some (s <| as_runtime := Some r |>)
  | None => Some s
  end.
End MeshRuntime.
