(* ===== verification/RuntimeProps.v ===== *)
(** * Theorems of the runtime

    Every change a call, a task or a turn makes is made of a few small steps
    ([prim]); what the steps keep, a turn keeps ([Drive_inv]), the tasks taken off
    a queue being in the hand of the driver.  With it: the runtime runs the manager
    as [ManagerRuns] does, all it posts in the order posted; a burst tells its
    outcome once; a timer fires once, not before its time, and in the turn that finds
    it due; a turn ends, one driver at a time, with no deferred task left. *)

From S2P Require Import Prelude L1Types L2Types PeerLinkProps Connection ChannelMux MshAdpHandshake AdpMultiaddr LinkPolicy LinkWire LinkTable DialBook ManagedLink PeerLinkManager ManagerSteps ToyLink ManagerRuns MeshRuntime.

Section Runtime.
Context {L K C E : Type} `{ManagedLinkLaws L K C} `{DialEndpoint E K} `{Inet6} `{GenericHash}.
Context (walk_ids : forall A, gmap Z A -> list (Z * A)) (walk_keys : forall A, gmap string A -> list (string * A)).
Context (walk_protocols : gmap bytes (option HandlerRef) -> list (bytes * option HandlerRef)).
Context (jitter : Z -> Z).
Context (walk_perm : forall A (g : gmap Z A), walk_ids A g ≡ₚ map_to_list g).
Abbreviation M := (Manager L E).
Abbreviation R := (Runtime L E).
Abbreviation op := (mgr_op (L := L) (K := K) (C := C)).
Context (pumped ticked : M -> list op).
Context (app : nat -> R -> list (rt_op (L := L) (K := K) (C := C))).
Abbreviation links_op := (links_op (C := C) walk_ids walk_keys walk_protocols jitter).
Abbreviation rt_do := (rt_do (C := C) walk_ids walk_keys walk_protocols jitter).
Abbreviation run_task := (run_task (C := C) walk_ids walk_keys walk_protocols jitter app).
Abbreviation Drive := (Drive (C := C) walk_ids walk_keys walk_protocols jitter pumped ticked app).
Abbreviation Pump := (Pump (C := C) walk_ids walk_keys walk_protocols jitter pumped app).
Abbreviation Tick := (Tick (C := C) walk_ids walk_keys walk_protocols jitter ticked app).

(** ** The small steps *)

Definition keeps_outcome (f : BurstState -> BurstState) : Prop := forall s, bs_settled (f s) = bs_settled s /\ bs_done (f s) = bs_done s.
(** Tasks that neither complete a call of the manager nor settle a burst. *)
Definition plain (t : IoTask) : Prop := match t with Completion _ | BurstSettle _ _ _ => False | _ => True end.

(** Proper operations that set the clock, if they do, to a time [clock] admits. *)
Definition op_at (clock : Z -> Prop) (op : op) : Prop := mgr_op_ok op /\ match op with OpTime now _ => clock now | _ => True end.
Definition any_clock (now : Z) : Prop := True.
Definition rt_op_at (clock : Z -> Prop) (stops : bool) (o : rt_op (L := L) (K := K) (C := C)) : Prop :=
  match o with
  | RtStop => stops = true
  | RtLink op => op_at clock op
  | _ => True
  end.

Section Steps.
Context {clock : Z -> Prop}.
Inductive prim0 (defers stops : bool) (r : R) : R -> Prop :=
  | prim_links op : op_at clock op -> prim0 defers stops r (links_op r op)
  | prim_post t : plain t -> prim0 defers stops r (PostToIo r (Some t))
  | prim_defer n : defers = true -> prim0 defers stops r (PostDeferred r (Some (AppTask n)))
  | prim_arm deadline t : plain t -> prim0 defers stops r (ArmTimerLocked r deadline (Some t)).1
  | prim_cancel id : prim0 defers stops r (CancelTimer r id)
  | prim_ticks next ticks : prim0 defers stops r (r <| next_io_tick_id_ := next |> <| io_ticks_ := ticks |>)
  | prim_burst_none d : prim0 defers stops r (PostDeferred (rt_note (RtBurst d) r) (Some (BurstSettle (MkBurstDialResult false "" "no peer_addrs") d None)))
  | prim_burst_new d : prim0 defers stops r (rt_note (RtBurst d) r <| bursts_ ::= fun l => l ++ [MkBurstState false [] [] [] "" d] |>)
  | prim_burst_note b f : keeps_outcome f -> prim0 defers stops r (r <| bursts_ ::= alter f b |>)
  | prim_burst_finish b result : prim0 defers stops r (burst_finish r b result)
  | prim_start : prim0 defers stops r (Start r)
  | prim_stop : stops = true -> prim0 defers stops r (Stop (C := C) walk_ids walk_keys walk_protocols jitter r)
  | prim_claim self : prim0 defers stops r (r <| claimed_driver_ := self |>)
  | prim_lane alive running : prim0 defers stops r (r <| io_alive_ := alive |> <| running_and_waiting_ := running |>).
Definition prims0 (defers stops : bool) : R -> R -> Prop := rtc (prim0 defers stops).

Lemma prims_links {defers} stops r op : op_at clock op -> prims0 defers stops r (links_op r op).
Proof. intros Hop. by apply rtc_once, prim_links. Qed.
Lemma prims_fold {A defers} stops (f : R -> A -> R) (l : list A) (r : R) : (forall r x, prims0 defers stops r (f r x)) -> prims0 defers stops r (fold_left f l r).
Proof. intros Hf. revert r. induction l as [|x l IH]; intros r; [done|]. cbn [fold_left]. etrans; [apply Hf|apply IH]. Qed.
Lemma prims_burst_note {defers} stops r b f : keeps_outcome f -> prims0 defers stops r (r <| bursts_ ::= alter f b |>).
Proof. intros Hf. by apply rtc_once, prim_burst_note. Qed.
Lemma prims_burst_finish {defers} stops r b result : prims0 defers stops r (burst_finish r b result).
Proof. apply rtc_once, prim_burst_finish. Qed.

Lemma prims_burst_one {defers} stops draw r b i ma :
  prims0 defers stops r (burst_dial_one (C := C) walk_ids walk_keys walk_protocols jitter draw r b i ma).1.
Proof.
  unfold burst_dial_one. destruct (ParseAdpMultiaddr ma) as [parsed|e]; [|by apply prims_burst_note].
  cbv zeta. destruct (IsConnectedToPeerId _ _); [apply prims_burst_finish|].
  set (r1 := MeshRuntime.links_op _ _ _ _ r (OpRegister _ ma)). assert (H1' : prims0 defers stops r r1) by (by apply prims_links). etrans; [exact H1'|].
  destruct (MgrRegisterEndpoint _ _ _).2.
  - etrans; [apply prims_burst_note|by apply prims_links]. done.
  - destruct (IsConnectedToPeerId _ _); [apply prims_burst_finish|by apply prims_burst_note].
Qed.
Lemma prims_burst_all {defers} stops draws r b i addrs :
  prims0 defers stops r (burst_dial_all (C := C) walk_ids walk_keys walk_protocols jitter draws r b i addrs).1.
Proof.
  revert r i. induction addrs as [|ma addrs IH]; intros r i; [done|]. cbn [burst_dial_all].
  pose proof (prims_burst_one (defers := defers) stops (draws i) r b i ma) as H1'. destruct (burst_dial_one _ _ _ _ _ _ _ _ _) as [r1 go_on]. cbn [fst] in H1'.
  destruct go_on; [|done]. etrans; [exact H1'|apply IH].
Qed.
Lemma prims_burst {defers} stops draws r multiaddrs window d :
  prims0 defers stops r (BurstDial (C := C) walk_ids walk_keys walk_protocols jitter draws r multiaddrs window d).
Proof.
  unfold BurstDial. destruct d as [d|]; [|done]. cbv zeta. case_bool_decide; [apply rtc_once, prim_burst_none|].
  match goal with |- context [rt_note (RtBurst d) r <| bursts_ ::= ?f |>] => set (r0 := rt_note (RtBurst d) r <| bursts_ ::= f |>) end.
  assert (H0' : prims0 defers stops r r0) by (apply rtc_once, prim_burst_new). etrans; [exact H0'|]. clearbody r0. clear H0'.
  match goal with |- context [burst_dial_all _ _ _ _ _ _ ?b _ ?a] =>
    pose proof (prims_burst_all (defers := defers) stops draws r0 b 0 a) as H1'; destruct (burst_dial_all _ _ _ _ _ _ b _ a) as [r1 go_on]; cbn [fst] in H1' end.
  etrans; [exact H1'|]. destruct (negb go_on); [done|]. destruct (match _ with Some _ => _ | None => false end); [apply prims_burst_finish|].
  etrans; [|apply rtc_once, prim_post; done]. unfold PostAfter. by apply rtc_once, prim_arm.
Qed.

Lemma rt_do_prims0 {defers} stops r o : (forall n, o = RtDefer (Some n) -> defers = true) -> rt_op_at clock stops o -> prims0 defers stops r (rt_do r o).
Proof.
  intros Hd Ho. destruct o; cbn [MeshRuntime.rt_do rt_op_at] in *.
  - destruct task; [|done]. by apply rtc_once, prim_post.
  - destruct task; [|done]. apply rtc_once, prim_defer. by eapply Hd.
  - destruct task; [|done]. by apply rtc_once, prim_arm.
  - destruct task; [|done]. by apply rtc_once, prim_arm.
  - apply rtc_once, prim_cancel.
  - destruct tick; [|done]. apply rtc_once. exact (prim_ticks defers stops r _ _).
  - unfold RemoveIoTick. destruct (id =? 0); [done|]. apply rtc_once. exact (prim_ticks defers stops r (next_io_tick_id_ r) _).
  - by apply prims_links.
  - apply prims_burst.
  - by apply rtc_once, prim_post.
  - by apply rtc_once, prim_post.
  - apply rtc_once, prim_start.
  - by apply rtc_once, prim_stop.
  - exact (rtc_once _ _ (prim_claim defers stops r (Some self))).
  - exact (rtc_once _ _ (prim_claim defers stops r None)).
Qed.
Lemma rt_do_prims stops r o : rt_op_at clock stops o -> prims0 true stops r (rt_do r o).
Proof. by apply rt_do_prims0. Qed.

(** ** What the steps keep, a turn keeps *)

(** A task of the manager or of a burst, but for what completes or settles. *)
Lemma app_run_prims stops n r : Forall (rt_op_at clock stops) (app n r) ->
  prims0 true stops r (app_run (C := C) walk_ids walk_keys walk_protocols jitter app n r).
Proof.
  intros Happ. unfold app_run. revert Happ. generalize (app n r) as ops. intros ops Hops. revert r.
  induction Hops as [|o ops Ho _ IH]; intros r; [done|]. cbn [fold_left]. etrans; [by apply rt_do_prims|apply IH].
Qed.
Lemma own_task_prims {defers} stops r t : plain t -> (forall n, t <> AppTask n) -> prims0 defers stops (rt_note (RtRan t) r) (run_task r t).
Proof.
  intros Ht Hn. unfold MeshRuntime.run_task. set (r1 := rt_note _ r). clearbody r1. destruct t; try done; cbn [task_body].
  - by destruct (Hn n).
  - by apply prims_links.
  - by apply prims_links.
  - unfold burst_poll. destruct (bursts_ r1 !! b) as [s|]; [|done]. destruct (bs_settled s); [done|].
    destruct (head _) as [[p ma]|]; [apply prims_burst_finish|by apply rtc_once, prim_post].
  - unfold burst_expire. destruct (bursts_ r1 !! b) as [s|]; [|done]. destruct (bs_settled s); [done|apply prims_burst_finish].
Qed.
Lemma task_prims stops r t : (forall n, Forall (rt_op_at clock stops) (app n (rt_note (RtRan t) r))) ->
  plain t -> prims0 true stops (rt_note (RtRan t) r) (run_task r t).
Proof.
  intros Happ Ht. assert (Hn : (exists n, t = AppTask n) \/ forall n, t <> AppTask n) by (destruct t; eauto).
  destruct Hn as [[n ->]|Hn]; [by apply app_run_prims|by apply own_task_prims].
Qed.
Lemma settle_prims {defers} stops r result d job : exists r1, prims0 defers stops r r1
  /\ burst_settle (C := C) walk_ids walk_keys walk_protocols jitter r result d job = rt_note (RtBurstDone d result) r1.
Proof.
  unfold burst_settle. destruct job as [[keys peer_ids]|]; cbv zeta; [|by exists r]. eexists. split; [|done].
  etrans; [|by apply prims_fold; intros; apply prims_links]. apply prims_fold. intros r1 [key peer_id]. destruct (burst_keeps _ _ _ _ _); [done|by apply prims_links].
Qed.

End Steps.
Arguments prim0 clock defers stops r _ : clear implicits.
Arguments prims0 clock defers stops _ _ : clear implicits.
Abbreviation prim := (prim0 any_clock true).
Abbreviation prims := (prims0 any_clock true).
Definition rt_op_ok (stops : bool) (o : rt_op (L := L) (K := K) (C := C)) : Prop :=
  match o with
  | RtStop => stops = true
  | RtLink op => mgr_op_ok op
  | _ => True
  end.
Lemma op_any op : mgr_op_ok op -> op_at any_clock op.
Proof. intros Hop. split; [done|by destruct op]. Qed.
Lemma rt_op_any stops o : rt_op_ok stops o -> rt_op_at any_clock stops o.
Proof. destruct o; try done. apply op_any. Qed.
Lemma ops_any ops : Forall mgr_op_ok ops -> Forall (op_at any_clock) ops.
Proof. intros Hops. eapply Forall_impl; [exact Hops|apply op_any]. Qed.
Lemma rt_ops_any stops ops : Forall (rt_op_ok stops) ops -> Forall (rt_op_at any_clock stops) ops.
Proof. intros Hops. eapply Forall_impl; [exact Hops|apply rt_op_any]. Qed.

(** An invariant of the tasks of a turn: of those in hand and the state. *)
Record task_inv (clock : Z -> Prop) (stops : bool) (I : list IoTask -> R -> Prop) : Prop := {
  ti_prim hand r r' : prim0 clock true stops r r' -> I hand r -> I hand r';
  ti_note hand r e : match e with RtRan (Completion _) => False | RtRan _ | RtTicked _ | RtPumped | RtLinksTicked => True | _ => False end ->
    I hand r -> I hand (rt_note e r);
  ti_plain hand r t : plain t -> I (t :: hand) r -> I hand r;
  ti_completion hand r e : I (Completion e :: hand) r ->
    I hand (run_task r (Completion e));
  ti_settle hand r result d job : I (BurstSettle result d job :: hand) r -> I hand (rt_note (RtBurstDone d result) r);
  ti_pop r t q : io_queue_ r = t :: q -> I [] r -> I [t] (r <| io_queue_ := q |>);
  ti_take r : I [] r -> I (deferred_queue_ r) (r <| deferred_queue_ := [] |>);
  ti_driver hand r refused d th : I hand r -> I hand (r <| refused_drives_ := refused |> <| driving_ := d |> <| driving_thread_ := th |>);
}.
(** An invariant of whole turns: it survives the timers too. *)
Record turn_inv (stops : bool) (I : list IoTask -> R -> Prop) : Prop := {
  ti_tasks : task_inv any_clock stops I;
  ti_fire r : I [] r ->
    I (map te_task (filter (fun t => due (now_ms r) t = true) (timers_ r)))
      (r <| timers_ := filter (fun t => due (now_ms r) t = false) (timers_ r) |>
         <| rt_log ::= fun l => l ++ map (fun t => RtFired t (now_ms r)) (filter (fun t => due (now_ms r) t = true) (timers_ r)) |>);
}.

Section Turn.
Context (clock : Z -> Prop) (stops : bool) (I : list IoTask -> R -> Prop) (HI : task_inv clock stops I).
Context (app_ok : forall n hand r, I hand r -> Forall (rt_op_at clock stops) (app n r)).
Context (pumped_ok : forall r, I [] r -> Forall (op_at clock) (pumped (links_ r))) (ticked_ok : forall r, I [] r -> Forall (op_at clock) (ticked (links_ r))).

Lemma prims_inv hand r r' : prims0 clock true stops r r' -> I hand r -> I hand r'.
Proof. induction 1 as [|r r1 r' Hr _ IH]; [done|]. intros Hi. apply IH. by apply (ti_prim _ _ _ HI _ r). Qed.
Lemma run_task_inv hand r t : I (t :: hand) r -> I hand (run_task r t).
Proof.
  intros Hi. assert (Ht : plain t \/ (exists e, t = Completion e) \/ exists result d job, t = BurstSettle result d job) by (destruct t; naive_solver).
  destruct Ht as [Ht|[[e ->]|(result & d & job & ->)]].
  - apply (ti_note _ _ _ HI _ _ (RtRan t)) in Hi; [|by destruct t]. apply (prims_inv _ (rt_note (RtRan t) r)); [|by apply (ti_plain _ _ _ HI _ _ t)].
    apply task_prims; [|done]. intros n. by apply (app_ok _ (t :: hand)).
  - by apply (ti_completion _ _ _ HI).
  - apply (ti_note _ _ _ HI _ _ (RtRan (BurstSettle result d job))) in Hi; [|done].
    unfold MeshRuntime.run_task. cbn [task_body]. destruct (settle_prims (clock := clock) (defers := true) stops (rt_note (RtRan (BurstSettle result d job)) r) result d job) as (r1 & Hr1 & ->).
    apply (ti_settle _ _ _ HI _ _ result d job). by apply (prims_inv _ _ _ Hr1).
Qed.
Lemma run_tasks_inv hand r : I hand r -> I [] (fold_left run_task hand r).
Proof. revert r. induction hand as [|t hand IH]; intros r Hi; [done|]. cbn [fold_left]. by apply IH, run_task_inv. Qed.
Lemma links_ops_inv ops r : Forall (op_at clock) ops -> I [] r -> I [] (fold_left links_op ops r).
Proof.
  intros Hops. revert r. induction Hops as [|o ops Ho _ IH]; intros r Hi; [done|]. cbn [fold_left]. apply IH.
  apply (prims_inv _ r); [by apply prims_links|done].
Qed.
Lemma drain_posted_inv budget r : I [] r -> I [] (drain_posted (C := C) walk_ids walk_keys walk_protocols jitter app budget r).
Proof.
  revert r. induction budget as [|budget IH]; intros r Hi; [done|]. cbn [drain_posted]. destruct (io_queue_ r) as [|t q] eqn:Hq; [done|].
  apply IH, run_task_inv. by apply (ti_pop _ _ _ HI).
Qed.
Lemma drain_deferred_inv fuel r r' : I [] r ->
  drain_deferred (C := C) walk_ids walk_keys walk_protocols jitter app fuel r = Some r' -> I [] r' /\ deferred_queue_ r' = [].
Proof.
  revert r. induction fuel as [|fuel IH]; intros r Hi; cbn [drain_deferred]; destruct (deferred_queue_ r) as [|t batch] eqn:Hq; try discriminate.
  - by intros [= <-].
  - by intros [= <-].
  - apply IH. apply (run_tasks_inv (t :: batch)). rewrite <- Hq. by apply (ti_take _ _ _ HI).
Qed.
Lemma pump_inv r : I [] r -> I [] (PumpLocked (C := C) walk_ids walk_keys walk_protocols jitter pumped app r).
Proof.
  intros Hi. unfold PumpLocked, pump_Pump. set (r1 := DrainPostedIoLocked _ _ _ _ _ _). enough (Hi1 : I [] r1).
  { apply links_ops_inv; [by apply pumped_ok|by apply (ti_note _ _ _ HI)]. }
  apply drain_posted_inv. clear r1. generalize (io_ticks_ r).*1 as ids. intros ids. revert r Hi. induction ids as [|id ids IH]; intros r Hi; [done|]. cbn [fold_left]. apply IH.
  unfold run_tick. destruct (head _) as [[i tick]|]; [|done]. assert (Hn : I [] (rt_note (RtTicked tick) r)) by (by apply (ti_note _ _ _ HI)).
  apply (prims_inv _ (rt_note (RtTicked tick) r)); [by apply app_run_prims, (app_ok _ [])|done].
Qed.
Lemma tick_inv draw r : I [] r -> I [] (TickLocked (C := C) walk_ids walk_keys walk_protocols jitter ticked draw r).
Proof.
  intros Hi. unfold TickLocked, pump_Tick. apply (prims_inv _ _ _ (prims_links _ _ (OpTick draw) (conj Logic.I Logic.I))).
  apply links_ops_inv; [by apply ticked_ok|]. by apply (ti_note _ _ _ HI).
Qed.
Lemma begin_inv r self : I [] r -> I [] (BeginDriveLocked r self).1.
Proof.
  intros Hi. unfold BeginDriveLocked. destruct (driving_ r) eqn:Hd; [done|]. destruct (match _ with Some _ => _ | None => false end).
  - pose proof (ti_driver _ _ _ HI [] r (u64 (refused_drives_ r + 1)) (driving_ r) (driving_thread_ r) Hi) as Hi'. by destruct r.
  - pose proof (ti_driver _ _ _ HI [] r (refused_drives_ r) true (Some self) Hi) as Hi'. by destruct r.
Qed.
Lemma Pump_inv fuel self r r' : I [] r -> Pump fuel self r = Some r' -> I [] r'.
Proof.
  intros Hi. unfold MeshRuntime.Pump. pose proof (begin_inv r self Hi) as Hb. destruct (BeginDriveLocked r self) as [r1 go].
  cbn [fst] in Hb. destruct (negb go); [by intros [= <-]|]. destruct (drain_deferred _ _ _ _ _ fuel _) as [r2|] eqn:H2'; [|done].
  cbn [mbind option_bind]. apply drain_deferred_inv in H2' as [Hi2 _]; [|by apply pump_inv]. intros [= <-].
  exact (ti_driver _ _ _ HI _ r2 (refused_drives_ r2) false None Hi2).
Qed.
Lemma wait_inv r self task : I [] r -> I [] (ExecRunAndWait (C := C) walk_ids walk_keys walk_protocols jitter app r self task).
Proof.
  intros Hi. unfold ExecRunAndWait. destruct task as [task|]; [|done]. destruct (io_alive_ r) eqn:Ha; [|by apply (ti_note _ _ _ HI)].
  set (r1 := rt_note _ _). assert (Hi1 : I [] r1).
  { apply (ti_note _ _ _ HI); [done|]. pose proof (ti_prim _ _ _ HI _ _ _ (prim_lane (clock := clock) true stops r (io_alive_ r) (self :: running_and_waiting_ r)) Hi) as Hi'.
    by destruct r. }
  set (r2 := app_run _ _ _ _ _ _ r1). assert (Hi2 : I [] r2) by (apply (prims_inv _ r1); [by apply app_run_prims, (app_ok _ [])|done]).
  pose proof (ti_prim _ _ _ HI _ _ _ (prim_lane (clock := clock) true stops r2 (io_alive_ r2) (running_and_waiting_ r)) Hi2) as Hi'. by destruct r2.
Qed.
End Turn.


(** The timers fire. *)
Section Fire.
Context (stops : bool) (I : list IoTask -> R -> Prop) (HI : turn_inv stops I).
Abbreviation tasks := (ti_tasks _ _ HI).
Context (app_ok : forall n r, Forall (rt_op_ok stops) (app n r)).
Context (pumped_ok : forall m, Forall mgr_op_ok (pumped m)) (ticked_ok : forall m, Forall mgr_op_ok (ticked m)).
#[local] Lemma app_any n (hand : list IoTask) r : I hand r -> Forall (rt_op_at any_clock stops) (app n r).
Proof. intros _. apply rt_ops_any, app_ok. Qed.
#[local] Lemma pumped_any r : I [] r -> Forall (op_at any_clock) (pumped (links_ r)).
Proof. intros _. apply ops_any, pumped_ok. Qed.
#[local] Lemma ticked_any r : I [] r -> Forall (op_at any_clock) (ticked (links_ r)).
Proof. intros _. apply ops_any, ticked_ok. Qed.
Lemma fire_inv r : I [] r -> I [] (FireTimersLocked (C := C) walk_ids walk_keys walk_protocols jitter app r).
Proof. intros Hi. unfold FireTimersLocked. cbv zeta. by apply (run_tasks_inv _ _ _ tasks app_any), (ti_fire _ _ HI). Qed.
Lemma finish_turn_inv fuel r r' : I [] r ->
  finish_turn (C := C) walk_ids walk_keys walk_protocols jitter app fuel r = Some r' -> I [] r'.
Proof.
  intros Hi. unfold finish_turn. destruct (drain_deferred _ _ _ _ _ fuel _) as [r1|] eqn:H1'; [|done]. cbn [mbind option_bind].
  apply (drain_deferred_inv _ _ _ tasks app_any) in H1' as [Hi1 _]; [|by apply (drain_posted_inv _ _ _ tasks app_any)].
  destruct (drain_deferred _ _ _ _ _ fuel (FireTimersLocked _ _ _ _ _ r1)) as [r2|] eqn:H2'; [|done]. cbn [mbind option_bind].
  apply (drain_deferred_inv _ _ _ tasks app_any) in H2' as [Hi2 _]; [|by apply fire_inv]. intros [= <-]. exact (ti_driver _ _ _ tasks _ r2 (refused_drives_ r2) false None Hi2).
Qed.
Lemma Drive_inv fuel self draw r r' : I [] r -> Drive fuel self draw r = Some r' -> I [] r'.
Proof.
  intros Hi. unfold MeshRuntime.Drive. pose proof (begin_inv _ _ _ tasks r self Hi) as Hb. destruct (BeginDriveLocked r self) as [r1 go].
  cbn [fst] in Hb. destruct (negb go); [by intros [= <-]|]. apply finish_turn_inv, (tick_inv _ _ _ tasks ticked_any).
  by apply (pump_inv _ _ _ tasks app_any pumped_any).
Qed.
Lemma Tick_inv fuel self draw r r' : I [] r -> Tick fuel self draw r = Some r' -> I [] r'.
Proof.
  intros Hi. unfold MeshRuntime.Tick. pose proof (begin_inv _ _ _ tasks r self Hi) as Hb. destruct (BeginDriveLocked r self) as [r1 go].
  cbn [fst] in Hb. destruct (negb go); [by intros [= <-]|]. by apply finish_turn_inv, (tick_inv _ _ _ tasks ticked_any).
Qed.
End Fire.

(** ** Runs *)

(** What may happen next: a call from any thread, a turn, a task another thread
    runs on the lane. *)
Inductive rt_step (stops : bool) (r : R) : R -> Prop :=
  | step_do o : rt_op_ok stops o -> rt_step stops r (rt_do r o)
  | step_drive fuel self draw r' : Drive fuel self draw r = Some r' -> rt_step stops r r'
  | step_pump fuel self r' : Pump fuel self r = Some r' -> rt_step stops r r'
  | step_tick fuel self draw r' : Tick fuel self draw r = Some r' -> rt_step stops r r'
  | step_wait self task : rt_step stops r (ExecRunAndWait (C := C) walk_ids walk_keys walk_protocols jitter app r self task).
Definition rt_reach (stops : bool) : R -> R -> Prop := rtc (rt_step stops).
(** What is asked of the application and of the endpoint: their calls are proper. *)
Record calls_ok (stops : bool) : Prop := {
  co_app n r : Forall (rt_op_ok stops) (app n r);
  co_pumped m : Forall mgr_op_ok (pumped m);
  co_ticked m : Forall mgr_op_ok (ticked m);
}.
Lemma reach_inv stops I r r' : turn_inv stops I -> calls_ok stops -> rt_reach stops r r' -> I [] r -> I [] r'.
Proof.
  intros HI [Ha Hp Ht]. pose proof (ti_tasks _ _ HI) as HT. induction 1 as [|r r1 r' Hr _ IH]; [done|]. intros Hi. apply IH.
  destruct Hr as [o Ho|fuel self draw r1 Hd|fuel self r1 Hd|fuel self draw r1 Hd|self task].
  - apply (prims_inv _ stops I HT _ r); [by apply rt_do_prims, rt_op_any|done].
  - by apply (Drive_inv stops I HI Ha Hp Ht _ _ _ _ _ Hi) in Hd.
  - by apply (Pump_inv _ stops I HT (app_any _ _ Ha) (pumped_any _ Hp) _ _ _ _ Hi) in Hd.
  - by apply (Tick_inv stops I HI Ha Ht _ _ _ _ _ Hi) in Hd.
  - by apply (wait_inv _ stops I HT (app_any _ _ Ha)).
Qed.

(** *** What the manager's work changes of a runtime *)

Definition outcome (s : BurstState) : bool * nat := (bs_settled s, bs_done s).
Definition posted_tasks (m m' : M) : list IoTask :=
  map Completion (filter (fun e => posts e = true) (drop (length (mgr_log m)) (mgr_log m'))).
Lemma alter_outcome (f : BurstState -> BurstState) b l : keeps_outcome f -> map outcome (alter f b l) = map outcome l.
Proof.
  intros Hf. revert b. induction l as [|s l IH]; intros [|b]; cbn; [done|done| |by f_equal; apply IH].
  f_equal. unfold outcome. by destruct (Hf s) as [-> ->].
Qed.
Lemma links_do_spec (f : M -> M) (r : R) : exists bursts, map outcome bursts = map outcome (bursts_ r)
  /\ links_do f r = r <| links_ := f (links_ r) |> <| io_queue_ := io_queue_ r ++ posted_tasks (links_ r) (f (links_ r)) |> <| bursts_ := bursts |>.
Proof.
  unfold links_do. cbv zeta. fold (posted_tasks (links_ r) (f (links_ r))). generalize (drop (length (mgr_log (links_ r))) (mgr_log (f (links_ r)))) as new.
  intros new. set (r0 := r <| links_ := _ |> <| io_queue_ ::= _ |>).
  assert (Hr0 : r0 = r <| links_ := f (links_ r) |> <| io_queue_ := io_queue_ r ++ posted_tasks (links_ r) (f (links_ r)) |> <| bursts_ := bursts_ r |>) by (by destruct r).
  rewrite Hr0. clear r0 Hr0. set (r1 := r <| links_ := _ |> <| io_queue_ := _ |>). clearbody r1. generalize (bursts_ r) as bursts.
  induction new as [|e new IH]; intros bursts; [by exists bursts|]. cbn [fold_left].
  set (bursts' := match e with
                  | MgCall cb (Fail failure) => match burst_of cb with Some b => alter (fun s => burst_failed s (mf_message failure)) b bursts | None => bursts end
                  | _ => bursts
                  end).
  assert (Ho : map outcome bursts' = map outcome bursts).
  { unfold bursts'. destruct e; try done. destruct result; [done|]. destruct (burst_of _); [|done]. apply alter_outcome. intros s. unfold burst_failed. by destruct (bs_settled s) eqn:Hs. }
  assert (Hb : burst_told (r1 <| bursts_ := bursts |>) e = r1 <| bursts_ := bursts' |>).
  { unfold bursts'. destruct e; try done. cbn [burst_told]. destruct result; [done|]. by destruct (burst_of _). }
  rewrite Hb. destruct (IH bursts') as (b' & Hb' & ->). exists b'. by rewrite Hb', Ho.
Qed.

(** ** The manager in the runtime *)

Definition posted_of_task (t : IoTask) : list Told := match t with Completion e => posted_of e | _ => [] end.
(** What the completions that ran told, in the order they ran. *)
Definition ran_of (e : rt_event) : list Told := match e with RtRan t => posted_of_task t | _ => [] end.
Definition ran (r : R) : list Told := rt_log r ≫= ran_of.
Lemma plain_posts t : plain t -> posted_of_task t = [].
Proof. by destruct t. Qed.
Lemma posted_tasks_of (l : list mgr_event) : map Completion (filter (fun e => posts e = true) l) ≫= posted_of_task = l ≫= posted_of.
Proof.
  induction l as [|e l IH]; [done|]. rewrite bind_cons, filter_cons. case_decide as Hp.
  - cbn [map]. by rewrite bind_cons, IH.
  - rewrite IH. by destruct e.
Qed.

Abbreviation world_run := (world_run walk_ids walk_keys walk_protocols jitter).
(** The manager as a run of [ManagerRuns] leaves it, the completions it posted and
    that did not run waiting in the hand and the queue, the others run. *)
Definition runs_as (w0 : World) (hand : list IoTask) (r : R) : Prop :=
  (exists wops run, Forall world_op_ok wops /\ world_run w0 wops = MkWorld (links_ r) run
     /\ (run <= length (posted (links_ r)))%nat /\ drop run (posted (links_ r)) = (hand ++ io_queue_ r) ≫= posted_of_task
     /\ take run (posted (links_ r)) = ran r)
  /\ Forall (fun t => posted_of_task t = []) (deferred_queue_ r ++ map te_task (timers_ r)).

Lemma step_log_prefix (m : M) op : mgr_op_ok op -> mgr_log m `prefix_of` mgr_log (mgr_step walk_ids walk_keys walk_protocols jitter m op).
Proof.
  intros Hop. assert (Ht : (exists a s, op = OpTime a s) \/ forall a s, op <> OpTime a s) by (destruct op; eauto).
  destruct Ht as [(a & s & ->)|Ht]; [done|].
  exact (g_log _ _ _ _ (mgr_step_goes walk_ids walk_keys walk_protocols jitter walk_perm m op Hop Ht)).
Qed.
Abbreviation run_told := (run_told walk_ids).
Lemma told_log_prefix (m : M) ts : mgr_log m `prefix_of` mgr_log (fold_left run_told ts m).
Proof.
  revert m. induction ts as [|t ts IH]; intros m; [done|]. cbn [fold_left]. etrans; [|apply IH]. destruct t; try done.
  apply (q_log (cb_of cb) m []). apply quiet_run_cb. rewrite app_nil_r. split; by try reflexivity.
Qed.
Lemma posted_step (m m' : M) : mgr_log m `prefix_of` mgr_log m' -> posted m' = posted m ++ posted_tasks m m' ≫= posted_of_task.
Proof.
  intros [more E1]. unfold posted, posted_tasks. rewrite posted_tasks_of, E1, bind_app, drop_app_length. done.
Qed.
(** The completions of a task run one by one, as the world runs them. *)
Lemma run_posted_all (m : M) run ts rest : (run <= length (posted m))%nat -> drop run (posted m) = ts ++ rest ->
  world_run (MkWorld m run) (replicate (length ts) RunPosted) = MkWorld (fold_left run_told ts m) (run + length ts).
Proof.
  revert m run rest. induction ts as [|t ts IH]; intros m run rest Hle Hd; [cbn; by rewrite Nat.add_0_r|]. cbn [length replicate].
  unfold ManagerRuns.world_run. cbn [fold_left world_step w_mgr w_run].
  assert (Hl : posted m !! run = Some t) by (rewrite <- (Nat.add_0_r run), <- lookup_drop, Hd; done). rewrite Hl.
  set (m1 := run_told m t). pose proof (told_log_prefix m [t]) as Hp. cbn [fold_left] in Hp. fold m1 in Hp.
  apply posted_step in Hp. pose proof (lookup_lt_Some _ _ _ Hl) as Hlt.
  assert (Hd1 : drop (S run) (posted m1) = ts ++ rest ++ posted_tasks m m1 ≫= posted_of_task).
  { rewrite Hp, drop_app_le by lia. replace (S run) with (run + 1)%nat by lia. rewrite <- drop_drop, Hd. cbn. by rewrite app_assoc. }
  specialize (IH m1 (S run) (rest ++ posted_tasks m m1 ≫= posted_of_task)). rewrite Nat.add_succ_r. rewrite <- Nat.add_succ_l. unfold ManagerRuns.world_run in IH. apply IH.
  - rewrite Hp, length_app. lia.
  - exact Hd1.
Qed.

Lemma runs_frame w0 hand hand' (r r' : R) : runs_as w0 hand r -> links_ r' = links_ r ->
  (hand' ++ io_queue_ r') ≫= posted_of_task = (hand ++ io_queue_ r) ≫= posted_of_task ->
  Forall (fun t => posted_of_task t = []) (deferred_queue_ r' ++ map te_task (timers_ r')) -> ran r' = ran r -> runs_as w0 hand' r'.
Proof. intros [(wops & run & Hok & Hw & Hle & Hd & Hr) _] El Eq Hf Er. split; [|done]. exists wops, run. by rewrite El, Eq, Er. Qed.
Lemma ran_note (r : R) e : ran_of e = [] -> ran (rt_note e r) = ran r.
Proof. intros He. unfold ran. cbn. by rewrite bind_app, bind_singleton, He, app_nil_r. Qed.
(** Work of the manager that a world does as well, [ts] the completions it runs. *)
Lemma runs_work w0 hand hand' (r rf : R) wops' ts :
  runs_as w0 (hand' ++ hand) r -> Forall world_op_ok wops' -> hand' ≫= posted_of_task = ts ->
  (forall run rest, (run <= length (posted (links_ r)))%nat -> drop run (posted (links_ r)) = ts ++ rest ->
     world_run (MkWorld (links_ r) run) wops' = MkWorld (links_ rf) (run + length ts)) ->
  mgr_log (links_ r) `prefix_of` mgr_log (links_ rf) ->
  io_queue_ rf = io_queue_ r ++ posted_tasks (links_ r) (links_ rf) -> deferred_queue_ rf = deferred_queue_ r ->
  timers_ rf = timers_ r -> ran rf = ran r ++ ts -> runs_as w0 hand rf.
Proof.
  intros [(wops & run & Hok & Hw & Hle & Hd & Hr) Hf] Hok' Hts Hrun Hp Eq Ed Et Er. split; [|by rewrite Ed, Et].
  apply posted_step in Hp. rewrite <- app_assoc, bind_app, Hts in Hd.
  assert (Hlen : length (drop run (posted (links_ r))) = (length (posted (links_ r)) - run)%nat) by apply length_drop.
  rewrite Hd, length_app in Hlen. exists (wops ++ wops'), (run + length ts)%nat. split_and!.
  - by apply Forall_app.
  - unfold ManagerRuns.world_run in *. rewrite fold_left_app, Hw. by apply (Hrun run ((hand ++ io_queue_ r) ≫= posted_of_task)).
  - rewrite Hp, length_app. lia.
  - rewrite Hp, drop_app_le by lia. rewrite <- drop_drop, Hd, drop_app_length, Eq. by rewrite !bind_app, app_assoc.
  - rewrite Hp, take_app_le by lia. rewrite Er, <- Hr, <- (take_drop run (posted (links_ r))) at 1. rewrite Hd, app_assoc.
    apply take_app_length'. rewrite length_app, length_take. lia.
Qed.
Lemma runs_links w0 hand (r : R) op : mgr_op_ok op -> runs_as w0 hand r -> runs_as w0 hand (links_op r op).
Proof.
  intros Hop Hi. unfold MeshRuntime.links_op. destruct (links_do_spec (fun m => mgr_step walk_ids walk_keys walk_protocols jitter m op) r) as (bursts & _ & ->).
  apply (runs_work w0 hand [] r _ [Do op] [] Hi); [by apply Forall_singleton|done| |by apply step_log_prefix|done..|by rewrite app_nil_r].
  intros run rest _ _. by rewrite Nat.add_0_r.
Qed.
(** A closure of the poster runs its callbacks, and logs that it did. *)
Lemma completion_work e (r : R) : let rf := run_task r (Completion e) in
  links_ rf = fold_left run_told (posted_of e) (links_ r) /\ io_queue_ rf = io_queue_ r ++ posted_tasks (links_ r) (links_ rf)
  /\ deferred_queue_ rf = deferred_queue_ r /\ timers_ rf = timers_ r /\ ran rf = ran r ++ posted_of e.
Proof.
  assert (Er : ran (rt_note (RtRan (Completion e)) r) = ran r ++ posted_of e) by (unfold ran; cbn; by rewrite bind_app, bind_singleton).
  assert (Hrest : forall ts, Forall (fun t => match t with LinkTold _ _ => False | _ => True end) ts -> fold_left run_told ts (links_ r) = links_ r).
  { intros ts. generalize (links_ r) as m. induction ts as [|t ts IH]; intros m Hts; [done|]. apply Forall_cons in Hts as [Ht Hts]. cbn [fold_left].
    destruct t; by try apply IH. }
  assert (Hsame : posted_tasks (links_ r) (links_ r) = []) by (unfold posted_tasks; by rewrite drop_all).
  unfold MeshRuntime.run_task. destruct e as [| |waiters result|waiters alive|cb open|ls p|ls event| | | |]; cbn [task_body]; cbv zeta;
    try (split_and!; cbn [links_ rt_note set_field]; [rewrite Hrest; [done|]|by rewrite Hsame, app_nil_r|done|done|exact Er];
         cbn [posted_of]; repeat constructor; apply Forall_forall; intros t Hin; by apply list_elem_of_fmap in Hin as (? & -> & _)).
  destruct (links_do_spec (fun m => fold_left (fun m cb => RunLinkCb walk_ids m cb result) waiters m) (rt_note (RtRan (Completion (MgPostWaiters waiters result))) r))
    as (bursts & _ & ->). split_and!; [|done..|exact Er]. cbn. generalize (links_ r) as m. clear. induction waiters as [|cb ws IH]; intros m; [done|]. apply IH.
Qed.
Lemma Forall_snoc_app {A} (P : A -> Prop) l x k : Forall P (l ++ k) -> P x -> Forall P ((l ++ [x]) ++ k).
Proof. rewrite !Forall_app. intros [? ?] ?. repeat split; auto. Qed.
Lemma erase_first_Forall {A B} (P : B -> Prop) (f : A -> B) (p : A -> bool) l : Forall P (map f l) -> Forall P (map f (erase_first p l)).
Proof. induction l as [|x l IH]; [done|]. cbn. intros [Hx Hl]%Forall_cons. destruct (p x); [done|]. cbn. apply Forall_cons. auto. Qed.
Lemma filter_Forall {A B} (P : B -> Prop) (f : A -> B) (Q : A -> Prop) `{forall x, Decision (Q x)} l : Forall P (map f l) -> Forall P (map f (filter Q l)).
Proof. induction l as [|x l IH]; [done|]. cbn [map]. intros [Hx Hl]%Forall_cons. rewrite filter_cons. case_decide; [cbn; apply Forall_cons; split|]; auto. Qed.
Lemma none_posted l : Forall (fun t => posted_of_task t = []) l -> l ≫= posted_of_task = [].
Proof. induction 1 as [|t l Ht _ IH]; [done|]. by rewrite bind_cons, Ht, IH. Qed.
Lemma fired_ran (l : list TimerEntry) now : map (fun t => RtFired t now) l ≫= ran_of = [].
Proof. induction l as [|t l IH]; [done|]. exact IH. Qed.

Ltac ran_same := unfold ran; cbn; rewrite ?bind_app; cbn; by rewrite ?app_nil_r.
Lemma runs_prim w0 hand r r' : prim false r r' -> runs_as w0 hand r -> runs_as w0 hand r'.
Proof.
  intros Hr Hi. pose proof Hi as [_ Hf]. pose proof Hf as [Hd Ht]%Forall_app.
  destruct Hr as [op Hop|t Ht'|n _|deadline t Ht'|id|next ticks|d|d|b f Hkeep|b result| |?|self|alive running];
    try (by apply (runs_frame w0 hand hand r)); try done.
  - apply runs_links; [apply Hop|done].
  - apply (runs_frame w0 hand hand r); [done|done| |done|done]. cbn. rewrite !bind_app. cbn. by rewrite (plain_posts t Ht'), !app_nil_r.
  - apply (runs_frame w0 hand hand r); [done|done|done| |done]. by apply Forall_snoc_app.
  - apply (runs_frame w0 hand hand r); [done|done|done| |ran_same]. cbn. rewrite map_app. apply Forall_app. split; [done|].
    apply Forall_app. split; [done|]. apply Forall_singleton. by apply plain_posts.
  - unfold CancelTimer. destruct (id =? 0); [done|]. apply (runs_frame w0 hand hand r); [done|done|done| |ran_same]. cbn. apply Forall_app. split; [done|].
    by apply erase_first_Forall.
  - apply (runs_frame w0 hand hand r); [done|done|done| |ran_same]. by apply Forall_snoc_app.
  - apply (runs_frame w0 hand hand r); [done|done|done|done|ran_same].
  - unfold burst_finish. destruct (bursts_ r !! b) as [s|]; [|done]. destruct (bs_settled s); [done|].
    apply (runs_frame w0 hand hand r); [done|done|done| |done]. by apply Forall_snoc_app.
Qed.
Lemma runs_inv w0 : turn_inv false (runs_as w0).
Proof.
  split; [split|].
  - intros hand r r'. apply runs_prim.
  - intros hand r e He Hi. apply (runs_frame w0 hand hand r); [done..|apply Hi|]. apply ran_note. destruct e as [[]| | | | | | | |]; done.
  - intros hand r t Ht Hi. apply (runs_frame w0 (t :: hand) hand r); [done|done| |apply Hi|done]. by rewrite <- app_comm_cons, bind_cons, (plain_posts t Ht).
  - intros hand r e Hi. destruct (completion_work e r) as (El & Eq & Ed & Et & Er).
    apply (runs_work w0 hand [Completion e] r _ (replicate (length (posted_of e)) RunPosted) (posted_of e) Hi); [by apply Forall_replicate|cbn; by rewrite app_nil_r| | |done..].
    + intros run rest Hle Hd. rewrite El. by apply (run_posted_all _ _ _ rest).
    + rewrite El. apply told_log_prefix.
  - intros hand r result d job Hi. apply (runs_frame w0 (BurstSettle result d job :: hand) hand r); [done|done|done|apply Hi|by apply ran_note].
  - intros r t q Hq Hi. apply (runs_frame w0 [] [t] r); [done|done| |apply Hi|done]. cbn. by rewrite Hq.
  - intros r Hi. pose proof Hi as [_ [Hd Ht]%Forall_app]. apply (runs_frame w0 [] (deferred_queue_ r) r); [done|done| |done|done].
    cbn. by rewrite bind_app, none_posted.
  - intros hand r n d th Hi. by apply (runs_frame w0 hand hand r); try done; apply Hi.
  - intros r Hi. pose proof Hi as [_ [Hd Ht]%Forall_app]. eapply (runs_frame w0 [] _ r); [done|done| | |].
    + cbn. rewrite bind_app, none_posted; [done|]. by apply filter_Forall.
    + cbn. apply Forall_app. split; [done|]. by apply filter_Forall.
    + unfold ran. cbn. by rewrite bind_app, fired_ran, app_nil_r.
Qed.

(** C4: the runtime runs the manager as it is meant to be run.  Whatever the
    application, the endpoint and the threads do short of a stop, the manager in the
    runtime is one that a run of its own operations leads to; of all the callbacks it
    posted, of waiters, listeners, answers and waits for channels, those that ran are
    the first, each once and in the order posted, and the others are those the queue
    of the runtime holds, in that order. *)
Theorem runtime_refines_world (endpoint : E) (local_peer_id : string) (config : PeerLinkConfig) (r : R) :
  calls_ok false -> rt_reach false (MeshRuntime_new endpoint local_peer_id config) r ->
  exists wops, Forall world_op_ok wops
    /\ let w := world_run (World_new endpoint local_peer_id config) wops in
       w_mgr w = links_ r /\ take (w_run w) (posted (w_mgr w)) = ran r
       /\ drop (w_run w) (posted (w_mgr w)) = io_queue_ r ≫= posted_of_task.
Proof.
  intros Hok Hr. destruct (reach_inv _ _ _ _ (runs_inv (World_new endpoint local_peer_id config)) Hok Hr) as [(wops & run & Hw & Hrun & _ & Hd & Ht) _].
  { split; [|done]. exists [Do (OpResolver true)], O. split_and!; [by apply Forall_singleton|done|cbn; lia|done|done]. }
  exists wops. split; [done|]. cbv zeta. by rewrite Hrun.
Qed.

(** ** Bursts *)

Definition bursts_of (e : rt_event) : list nat := match e with RtBurst d => [d] | _ => [] end.
Definition told_of (e : rt_event) : list nat := match e with RtBurstDone d _ => [d] | _ => [] end.
Definition settling_of (t : IoTask) : list nat := match t with BurstSettle _ d _ => [d] | _ => [] end.
Definition open_of (o : bool * nat) : list nat := if o.1 then [] else [o.2].
(** The bursts asked for, by their callbacks; those told; and those that are open or settling. *)
Definition asked_bursts (r : R) : list nat := rt_log r ≫= bursts_of.
Definition told_bursts (r : R) : list nat := rt_log r ≫= told_of.
Definition rt_tasks (r : R) : list IoTask := io_queue_ r ++ deferred_queue_ r.
Definition open_bursts (r : R) : list nat := map outcome (bursts_ r) ≫= open_of.

Definition bursts_kept (stops : bool) (hand : list IoTask) (r : R) : Prop :=
  Forall (fun t => settling_of t = []) (map te_task (timers_ r))
  /\ exists lost : list nat, (stops = false -> lost = [])
    /\ asked_bursts r ≡ₚ told_bursts r ++ ((hand ++ rt_tasks r) ≫= settling_of) ++ open_bursts r ++ lost.

Lemma plain_settles t : plain t -> settling_of t = [].
Proof. by destruct t. Qed.
Lemma none_settles l : Forall (fun t => settling_of t = []) l -> l ≫= settling_of = [].
Proof. induction 1 as [|t l Ht _ IH]; [done|]. by rewrite bind_cons, Ht, IH. Qed.
Lemma completions_settle (l : list mgr_event) : map Completion l ≫= settling_of = [].
Proof. induction l as [|e l IH]; [done|]. cbn [map]. by rewrite bind_cons, IH. Qed.
Lemma bursts_frame stops hand hand' (r r' : R) : bursts_kept stops hand r ->
  Forall (fun t => settling_of t = []) (map te_task (timers_ r')) ->
  asked_bursts r' = asked_bursts r -> told_bursts r' = told_bursts r -> open_bursts r' = open_bursts r ->
  (hand' ++ rt_tasks r') ≫= settling_of ≡ₚ (hand ++ rt_tasks r) ≫= settling_of -> bursts_kept stops hand' r'.
Proof. intros (_ & lost & Hl & Hb) Ht E1 E2 E3 E4. split; [done|]. exists lost. split; [done|]. by rewrite E1, E2, E3, E4. Qed.
Lemma open_settled l b s : l !! b = Some s -> bs_settled s = false ->
  map outcome l ≫= open_of ≡ₚ bs_done s :: map outcome (alter (fun s => s <| bs_settled := true |>) b l) ≫= open_of.
Proof.
  revert b. induction l as [|x l IH]; intros [|b] Hb Hs; try done.
  - injection Hb as ->. cbn [map alter list_alter]. rewrite !bind_cons. unfold outcome at 1. unfold open_of at 1. cbn. by rewrite Hs.
  - cbn [map alter list_alter]. rewrite !bind_cons, (IH b Hb Hs). by rewrite Permutation_middle.
Qed.
Ltac settle_perm := unfold rt_tasks; cbn; rewrite ?bind_app, ?completions_settle; cbn; rewrite ?app_nil_r; solve_Permutation.

Lemma bursts_links stops hand (f : M -> M) (r : R) : bursts_kept stops hand r -> bursts_kept stops hand (links_do f r).
Proof.
  intros Hi. destruct (links_do_spec f r) as (bursts & Ho & ->). apply (bursts_frame stops hand hand r _ Hi); [apply Hi|done|done| |].
  - unfold open_bursts. cbn. by rewrite Ho.
  - unfold posted_tasks. settle_perm.
Qed.
Lemma bursts_ran stops hand r e : match e with RtBurst _ | RtBurstDone _ _ => False | _ => True end ->
  bursts_kept stops hand r -> bursts_kept stops hand (rt_note e r).
Proof.
  intros He Hi. apply (bursts_frame stops hand hand r _ Hi); [apply Hi| | |done|done].
  - unfold asked_bursts. cbn. rewrite bind_app. destruct e; try done; cbn; by rewrite app_nil_r.
  - unfold told_bursts. cbn. rewrite bind_app. destruct e; try done; cbn; by rewrite app_nil_r.
Qed.
Lemma bursts_inv stops : turn_inv stops (bursts_kept stops).
Proof.
  split; [split|].
  - intros hand r r' Hr Hi. pose proof Hi as [Ht _].
    destruct Hr as [op Hop|t Ht'|n _|deadline t Ht'|id|next ticks|d|d|b f Hkeep|b result| |Hstop|self|alive running];
      try (by apply (bursts_frame stops hand hand r)).
    + by apply bursts_links.
    + apply (bursts_frame stops hand hand r _ Hi); [done..|]. unfold rt_tasks. cbn. rewrite !bind_app. cbn. rewrite (plain_settles t Ht'). solve_Permutation.
    + apply (bursts_frame stops hand hand r _ Hi); [done..|]. settle_perm.
    + apply (bursts_frame stops hand hand r _ Hi); [| | |done|done].
      * cbn. rewrite map_app. apply Forall_app. split; [done|]. apply Forall_singleton. by apply plain_settles.
      * unfold asked_bursts. cbn. by rewrite bind_app, app_nil_r.
      * unfold told_bursts. cbn. by rewrite bind_app, app_nil_r.
    + unfold CancelTimer. destruct (id =? 0); [done|]. apply (bursts_frame stops hand hand r _ Hi); [by apply erase_first_Forall| | |done|done].
      * unfold asked_bursts. cbn. by rewrite bind_app, app_nil_r.
      * unfold told_bursts. cbn. by rewrite bind_app, app_nil_r.
    + destruct Hi as (_ & lost & Hl & Hb). split; [done|]. exists lost. split; [done|]. unfold asked_bursts, told_bursts in *. cbn.
      rewrite !bind_app. cbn. rewrite app_nil_r, Hb. settle_perm.
    + destruct Hi as (_ & lost & Hl & Hb). split; [done|]. exists lost. split; [done|]. unfold asked_bursts, told_bursts, open_bursts in *. cbn.
      rewrite map_app, !bind_app. cbn. rewrite app_nil_r, Hb. settle_perm.
    + apply (bursts_frame stops hand hand r _ Hi); [done..| |done]. unfold open_bursts. cbn. by rewrite alter_outcome.
    + unfold burst_finish. destruct (bursts_ r !! b) as [s|] eqn:Hs; [|done]. destruct (bs_settled s) eqn:Hset; [done|].
      destruct Hi as (_ & lost & Hl & Hb). split; [done|]. exists lost. split; [done|]. unfold open_bursts in *.
      rewrite (open_settled _ _ _ Hs Hset) in Hb. change (asked_bursts r ≡ₚ ?x) with (asked_bursts r ≡ₚ x). etrans; [exact Hb|]. settle_perm.
    + subst stops. pose proof (bursts_links true hand (fun m => mgr_step walk_ids walk_keys walk_protocols jitter m OpCloseAll) r Hi) as (_ & lost & _ & Hb).
      unfold Stop. set (r1 := MeshRuntime.links_op _ _ _ _ r OpCloseAll) in *. change (links_do _ r) with r1 in Hb. split; [by constructor|].
      exists ((rt_tasks r1 ≫= settling_of) ++ lost). split; [done|]. etrans; [exact Hb|]. unfold rt_tasks. cbn.
      change (told_bursts (r1 <| started_ := false |> <| claimed_driver_ := None |> <| io_queue_ := [] |> <| deferred_queue_ := [] |> <| timers_ := [] |> <| io_ticks_ := [] |>)) with (told_bursts r1).
      change (open_bursts (r1 <| started_ := false |> <| claimed_driver_ := None |> <| io_queue_ := [] |> <| deferred_queue_ := [] |> <| timers_ := [] |> <| io_ticks_ := [] |>)) with (open_bursts r1).
      rewrite !bind_app. cbn. rewrite app_nil_r. solve_Permutation.
  - intros hand r e He Hi. apply bursts_ran; [by destruct e as [[]| | | | | | | |]|done].
  - intros hand r t Ht Hi. apply (bursts_frame stops (t :: hand) hand r _ Hi); [apply Hi|done..|]. rewrite <- app_comm_cons, bind_cons. by rewrite (plain_settles t Ht).
  - intros hand r e Hi. assert (Hi' : bursts_kept stops hand (rt_note (RtRan (Completion e)) r)) by (apply bursts_ran; [done|]; by apply (bursts_frame stops (Completion e :: hand) hand r _ Hi); [apply Hi|..]).
    unfold MeshRuntime.run_task. destruct e; try exact Hi'. by apply bursts_links.
  - intros hand r result d job (Ht & lost & Hl & Hb). split; [done|]. exists lost. split; [done|]. unfold asked_bursts, told_bursts in *. cbn.
    rewrite !bind_app. cbn. rewrite app_nil_r, Hb. settle_perm.
  - intros r t q Hq Hi. apply (bursts_frame stops [] [t] r _ Hi); [apply Hi|done..|]. unfold rt_tasks. cbn. by rewrite Hq.
  - intros r Hi. apply (bursts_frame stops [] (deferred_queue_ r) r _ Hi); [apply Hi|done..|]. settle_perm.
  - intros hand r n d th Hi. by apply (bursts_frame stops hand hand r _ Hi); [apply Hi|..].
  - intros r Hi. pose proof Hi as [Ht _]. eapply (bursts_frame stops [] _ r _ Hi).
    + cbn. by apply filter_Forall.
    + unfold asked_bursts. cbn. rewrite bind_app. generalize (filter (fun t => due (now_ms r) t = true) (timers_ r)) as l. intros l.
      enough (map (fun t => RtFired t (now_ms r)) l ≫= bursts_of = []) as -> by apply app_nil_r. by induction l.
    + unfold told_bursts. cbn. rewrite bind_app. generalize (filter (fun t => due (now_ms r) t = true) (timers_ r)) as l. intros l.
      enough (map (fun t => RtFired t (now_ms r)) l ≫= told_of = []) as -> by apply app_nil_r. by induction l.
    + done.
    + rewrite !bind_app. rewrite (none_settles (map te_task _)) by (by apply filter_Forall). done.
Qed.

(** What is once true of a burst stays: its callback, and that it is settled. *)
Definition outcome_at (r : R) (b : nat) : option (bool * nat) := map outcome (bursts_ r) !! b.
Definition outcome_le (o o' : bool * nat) : Prop := o'.2 = o.2 /\ (o.1 = true -> o'.1 = true).
Definition grows (r r' : R) : Prop :=
  rt_log r `prefix_of` rt_log r' /\ forall b o, outcome_at r b = Some o -> exists o', outcome_at r' b = Some o' /\ outcome_le o o'.
#[local] Instance grows_preorder : PreOrder grows.
Proof.
  split; [by intros r; split; [|intros b o Ho; exists o]|]. intros r1 r2 r3 [L1 O1] [L2 O2]. split; [by trans (rt_log r2)|].
  intros b o (o2 & H2' & E2 & S2)%O1. destruct (O2 b o2 H2') as (o3 & H3' & E3 & S3). exists o3. split; [done|]. split; [congruence|auto].
Qed.
Lemma grows_same (r r' : R) : rt_log r `prefix_of` rt_log r' -> map outcome (bursts_ r') = map outcome (bursts_ r) -> grows r r'.
Proof. intros Hl Ho. split; [done|]. intros b o. unfold outcome_at. rewrite Ho. intros Hb. by exists o. Qed.
Lemma grows_links (f : M -> M) (r : R) : grows r (links_do f r).
Proof. destruct (links_do_spec f r) as (bursts & Ho & ->). by apply grows_same. Qed.
Lemma map_as_fmap {A B} (f : A -> B) l : map f l = f <$> l.
Proof. done. Qed.
Lemma settle_outcome l b b' : map outcome (alter (fun s => s <| bs_settled := true |>) b l) !! b'
  = if decide (b' = b) then (fun o => (true, o.2)) <$> map outcome l !! b' else map outcome l !! b'.
Proof.
  rewrite !map_as_fmap, !list_lookup_fmap. case_decide as Hd; [subst b'; rewrite list_lookup_alter_eq; by destruct (l !! b)|].
  by rewrite list_lookup_alter_ne.
Qed.
Lemma finish_outcome (r : R) b result b' : outcome_at (burst_finish r b result) b'
  = if decide (b' = b) then (fun o => (true, o.2)) <$> outcome_at r b' else outcome_at r b'.
Proof.
  unfold burst_finish, outcome_at. destruct (bursts_ r !! b) as [s|] eqn:Hs.
  - destruct (bs_settled s) eqn:Hset; [|apply settle_outcome]. case_decide as Hd; [|done]. subst b'.
    rewrite map_as_fmap, list_lookup_fmap, Hs. cbn. unfold outcome. by rewrite Hset.
  - case_decide as Hd; [|done]. subst b'. by rewrite map_as_fmap, list_lookup_fmap, Hs.
Qed.
Lemma prim_grows stops r r' : prim stops r r' -> grows r r'.
Proof.
  intros [op Hop|t Ht|n _|deadline t Ht|id|next ticks|d|d|b f Hkeep|b result| |Hstop|self|alive running]; try (by apply grows_same).
  - apply grows_links.
  - apply grows_same; [by apply prefix_app_r|done].
  - unfold CancelTimer. destruct (id =? 0); [done|]. apply grows_same; [by apply prefix_app_r|done].
  - apply grows_same; [by apply prefix_app_r|done].
  - split; [by apply prefix_app_r|]. intros b o Ho. exists o. split; [|done]. unfold outcome_at in *. cbn. rewrite map_app.
    by apply lookup_app_l_Some.
  - apply grows_same; [done|]. by apply alter_outcome.
  - split; [|intros b' o Ho; rewrite finish_outcome, Ho; case_decide; by eexists].
    unfold burst_finish. destruct (bursts_ r !! b) as [s|]; [by destruct (bs_settled s)|done].
  - unfold Stop. pose proof (grows_links (fun m => mgr_step walk_ids walk_keys walk_protocols jitter m OpCloseAll) r) as Hg.
    etrans; [exact Hg|]. apply grows_same; reflexivity.
Qed.
Lemma prims_grow stops r r' : prims stops r r' -> grows r r'.
Proof. induction 1 as [|r r1 r' Hr _ IH]; [done|]. etrans; [by eapply prim_grows|done]. Qed.
Lemma note_grows (r : R) e : grows r (rt_note e r).
Proof. apply grows_same; [by apply prefix_app_r|done]. Qed.

Section Fires.
Context (stops : bool) (Hok : calls_ok stops).
Lemma run_task_grows r t : grows (rt_note (RtRan t) r) (run_task r t).
Proof.
  assert (Ht : plain t \/ (exists e, t = Completion e) \/ exists result d job, t = BurstSettle result d job) by (destruct t; naive_solver).
  destruct Ht as [Ht|[[e ->]|(result & d & job & ->)]].
  - apply (prims_grow stops). apply task_prims; [|done]. intros n. apply rt_ops_any, Hok.
  - unfold MeshRuntime.run_task. destruct e; try done. apply grows_links.
  - unfold MeshRuntime.run_task. cbn [task_body]. destruct (settle_prims (clock := any_clock) (defers := true) stops (rt_note (RtRan (BurstSettle result d job)) r) result d job) as (r1 & Hr1 & ->).
    etrans; [by eapply prims_grow|apply note_grows].
Qed.
Lemma run_tasks_grow ts r : grows r (fold_left run_task ts r).
Proof. revert r. induction ts as [|t ts IH]; intros r; [done|]. cbn [fold_left]. etrans; [apply note_grows|]. etrans; [apply run_task_grows|apply IH]. Qed.
Lemma run_tasks_ran ts r t : t ∈ ts -> exists l, rt_log (fold_left run_task ts r) = rt_log r ++ l /\ RtRan t ∈ l.
Proof.
  revert r. induction ts as [|x ts IH]; intros r Hin; [by apply not_elem_of_nil in Hin|]. cbn [fold_left].
  destruct (run_task_grows r x) as [[l2 E2] _]. cbn in E2. apply elem_of_cons in Hin as [<-|Hin].
  - destruct (run_tasks_grow ts (run_task r t)) as [[l1 E1] _]. exists ([RtRan t] ++ l2 ++ l1). rewrite E1, E2, <- !app_assoc. split; [done|]. by left.
  - destruct (IH (run_task r x) Hin) as (l & E1 & Hl). exists ([RtRan x] ++ l2 ++ l). rewrite E1, E2, <- !app_assoc. split; [done|].
    rewrite !elem_of_app. by right; right.
Qed.
Lemma drain_grows fuel r r' : drain_deferred (C := C) walk_ids walk_keys walk_protocols jitter app fuel r = Some r' -> grows r r'.
Proof.
  revert r. induction fuel as [|fuel IH]; intros r; cbn [drain_deferred]; destruct (deferred_queue_ r) as [|t batch] eqn:Hq; try discriminate.
  - by intros [= <-].
  - by intros [= <-].
  - intros Hd. etrans; [|by apply IH]. etrans; [|apply run_tasks_grow]. by apply grows_same.
Qed.
(** The timers that are due fire, and their tasks run. *)
Lemma fire_fires r t : t ∈ timers_ r -> te_deadline t <= now_ms r ->
  exists l, rt_log (FireTimersLocked (C := C) walk_ids walk_keys walk_protocols jitter app r) = rt_log r ++ l
    /\ RtFired t (now_ms r) ∈ l /\ RtRan (te_task t) ∈ l.
Proof.
  intros Hin Hdue. unfold FireTimersLocked. cbv zeta. set (l := filter (fun t => due (now_ms r) t = true) (timers_ r)).
  assert (Hl : t ∈ l) by (apply list_elem_of_filter; split; [by apply Z.leb_le|done]).
  destruct (run_tasks_ran (map te_task l) (r <| timers_ := filter (fun t => due (now_ms r) t = false) (timers_ r) |>
              <| rt_log ::= fun log => log ++ map (fun t => RtFired t (now_ms r)) l |>) (te_task t)) as (more & Em & Hm).
  { apply list_elem_of_fmap. by exists t. }
  eexists. split; [rewrite Em; cbn; by rewrite <- app_assoc|]. rewrite !elem_of_app. split; [left|by right].
  apply list_elem_of_fmap. by exists t.
Qed.
Lemma window_settles r b o : outcome_at r b = Some o -> outcome_at (run_task r (BurstWindow b)) b = Some (true, o.2).
Proof.
  intros Ho. unfold MeshRuntime.run_task. cbn [task_body]. set (r1 := rt_note _ r). change (outcome_at r1 b = Some o) in Ho. clearbody r1.
  unfold burst_expire. pose proof Ho as Ho'. unfold outcome_at in Ho'. rewrite map_as_fmap, list_lookup_fmap in Ho'.
  destruct (bursts_ r1 !! b) as [s|]; [|done]. injection Ho' as <-. destruct (bs_settled s) eqn:Hs.
  - rewrite Ho. unfold outcome. by rewrite Hs.
  - by rewrite finish_outcome, decide_True, Ho.
Qed.
Lemma windows_settle ts r b o : BurstWindow b ∈ ts -> outcome_at r b = Some o ->
  outcome_at (fold_left run_task ts r) b = Some (true, o.2).
Proof.
  revert r o. induction ts as [|x ts IH]; intros r o Hin Ho; [by apply not_elem_of_nil in Hin|]. cbn [fold_left].
  apply elem_of_cons in Hin as [<-|Hin].
  - apply (window_settles r) in Ho. destruct (run_tasks_grow ts (run_task r (BurstWindow b))) as [_ Hg].
    destruct (Hg _ _ Ho) as ([x y] & Ho' & Ed & Hs). cbn in Ed, Hs. rewrite Ho', Ed, Hs; done.
  - destruct (run_task_grows r x) as [_ Hg]. destruct (Hg b o Ho) as (o' & Ho' & Ed & _). rewrite <- Ed. by apply IH.
Qed.
End Fires.

(** A burst that starts is settled at once or has its window. *)
Lemma one_settles draw r b i ma o : outcome_at r b = Some o ->
  (burst_dial_one (C := C) walk_ids walk_keys walk_protocols jitter draw r b i ma).2 = false ->
  outcome_at (burst_dial_one (C := C) walk_ids walk_keys walk_protocols jitter draw r b i ma).1 b = Some (true, o.2).
Proof.
  intros Ho. unfold burst_dial_one. destruct (ParseAdpMultiaddr ma) as [parsed|e]; [|done]. cbv zeta.
  destruct (IsConnectedToPeerId _ _); [intros _; cbn [fst]; by rewrite finish_outcome, decide_True, Ho|].
  set (r1 := MeshRuntime.links_op _ _ _ _ r _). assert (H1' : grows r r1) by apply grows_links.
  destruct H1' as [_ Hg]. destruct (Hg b o Ho) as (o1 & Ho1 & Ed & _). destruct (MgrRegisterEndpoint _ _ _).2; [done|].
  destruct (IsConnectedToPeerId _ _); [|done]. intros _. cbn [fst]. rewrite finish_outcome, decide_True, Ho1 by done. cbn. by rewrite Ed.
Qed.
Lemma all_settles draws r b i addrs o : outcome_at r b = Some o ->
  (burst_dial_all (C := C) walk_ids walk_keys walk_protocols jitter draws r b i addrs).2 = false ->
  outcome_at (burst_dial_all (C := C) walk_ids walk_keys walk_protocols jitter draws r b i addrs).1 b = Some (true, o.2).
Proof.
  revert r i o. induction addrs as [|ma addrs IH]; intros r i o Ho; [done|]. cbn [burst_dial_all].
  pose proof (one_settles (draws i) r b i ma o Ho) as H1'. pose proof (prims_burst_one (clock := any_clock) (defers := true) false (draws i) r b i ma) as H2'.
  destruct (burst_dial_one _ _ _ _ _ _ _ _ _) as [r1 go_on]. cbn [fst snd] in *. destruct go_on; [|intros _; by apply H1'].
  destruct (prims_grow _ _ _ H2') as [_ Hg]. destruct (Hg b o Ho) as (o1 & Ho1 & Ed & _). rewrite <- Ed. by apply IH.
Qed.
Definition window_ms (window : Z) : Z := if 0 <? window then s32 window else 2000.
Lemma burst_starts draws r multiaddrs window d : burst_addrs multiaddrs <> [] ->
  let r' := BurstDial (C := C) walk_ids walk_keys walk_protocols jitter draws r multiaddrs window (Some d) in
  exists settled, outcome_at r' (length (bursts_ r)) = Some (settled, d)
    /\ (settled = true \/ exists id, MkTimerEntry id (now_ms r' + Z.max 0 (window_ms window)) (BurstWindow (length (bursts_ r))) ∈ timers_ r').
Proof.
  intros Ha. cbv zeta. unfold BurstDial. rewrite bool_decide_false by done. change (length (bursts_ (rt_note (RtBurst d) r))) with (length (bursts_ r)).
  set (b := length (bursts_ r)). set (r0 := rt_note (RtBurst d) r <| bursts_ ::= _ |>).
  assert (Ho : outcome_at r0 b = Some (false, d)) by (unfold outcome_at; cbn; rewrite map_app; apply list_lookup_middle; by rewrite length_map).
  clearbody r0. pose proof (all_settles draws r0 b 0 (burst_addrs multiaddrs) _ Ho) as H1'.
  pose proof (prims_burst_all (clock := any_clock) (defers := true) false draws r0 b 0 (burst_addrs multiaddrs)) as H2'. destruct (burst_dial_all _ _ _ _ _ _ _ _ _) as [r1 go_on].
  cbn [fst snd] in *. destruct (prims_grow _ _ _ H2') as [_ Hg]. destruct (Hg b _ Ho) as ([x y] & Ho1 & Ed & _). cbn in Ed. subst y.
  destruct go_on; cbn [negb]; [|exists true; split; [by apply H1'|by left]]. destruct (match bursts_ r1 !! b with Some _ => _ | None => false end).
  - exists true. split; [|by left]. rewrite finish_outcome, decide_True by done. cbn. by rewrite Ho1.
  - exists x. split; [exact Ho1|]. right. exists (next_timer_id_ r1). unfold window_ms. cbn. apply elem_of_app. right. apply list_elem_of_singleton. done.
Qed.

(** C5: a burst tells its outcome once.  Over any run, a stop or not, each burst is
    told at most once: those asked for are, one by one, told, about to be told, open,
    or lost, and lost only to a stop.  One that starts is settled in the call itself
    or has a timer at the end of its window; when that timer fires the burst is
    settled, whatever became of its dials. *)
Theorem burst_told_once (stops : bool) (endpoint : E) (local_peer_id : string) (config : PeerLinkConfig) (r : R) :
  calls_ok stops -> rt_reach stops (MeshRuntime_new endpoint local_peer_id config) r ->
  (exists lost : list nat, (stops = false -> lost = [])
     /\ asked_bursts r ≡ₚ told_bursts r ++ (rt_tasks r ≫= settling_of) ++ open_bursts r ++ lost)
  /\ (NoDup (asked_bursts r) -> NoDup (told_bursts r))
  /\ (forall draws multiaddrs window d, burst_addrs multiaddrs <> [] ->
        let r' := BurstDial (C := C) walk_ids walk_keys walk_protocols jitter draws r multiaddrs window (Some d) in
        exists settled, outcome_at r' (length (bursts_ r)) = Some (settled, d)
          /\ (settled = true \/ exists id, MkTimerEntry id (now_ms r' + Z.max 0 (window_ms window)) (BurstWindow (length (bursts_ r))) ∈ timers_ r'))
  /\ (forall b o id deadline, MkTimerEntry id deadline (BurstWindow b) ∈ timers_ r -> deadline <= now_ms r -> outcome_at r b = Some o ->
        outcome_at (FireTimersLocked (C := C) walk_ids walk_keys walk_protocols jitter app r) b = Some (true, o.2)).
Proof.
  intros Hok Hr. destruct (reach_inv _ _ _ _ (bursts_inv stops) Hok Hr) as (_ & lost & Hl & Hb).
  { split; [by constructor|]. exists []. split; [done|]. unfold asked_bursts, told_bursts, open_bursts. cbn. done. }
  split_and!.
  - by exists lost.
  - intros Hnd. rewrite Hb in Hnd. by apply NoDup_app in Hnd as (Hnd & _).
  - intros draws multiaddrs window d. apply burst_starts.
  - intros b o id deadline Ht Hd Ho. unfold FireTimersLocked. apply (windows_settle stops Hok); [|exact Ho].
    apply list_elem_of_fmap. exists (MkTimerEntry id deadline (BurstWindow b)). split; [done|]. apply list_elem_of_filter.
    split; [|done]. unfold due. cbn. by apply Z.leb_le.
Qed.

(** ** Timers *)

Definition armed_of (e : rt_event) : list TimerEntry := match e with RtArmed t => [t] | _ => [] end.
Definition fired_of (e : rt_event) : list TimerEntry := match e with RtFired t _ => [t] | _ => [] end.
Definition armed_timers (r : R) : list TimerEntry := rt_log r ≫= armed_of.
Definition fired_timers (r : R) : list TimerEntry := rt_log r ≫= fired_of.
Record timers_kept (hand : list IoTask) (r : R) : Prop := {
  tk_sub : fired_timers r ++ timers_ r ⊆+ armed_timers r;
  tk_time t now : RtFired t now ∈ rt_log r -> te_deadline t <= now;
  tk_ids : size (armed_timers r) < 2 ^ 64 - 1 ->
    map te_id (armed_timers r) = seqZ 1 (size (armed_timers r)) /\ next_timer_id_ r = 1 + size (armed_timers r);
}.
Lemma timers_frame hand hand' (r r' : R) : timers_kept hand r -> armed_timers r' = armed_timers r -> fired_timers r' = fired_timers r ->
  timers_ r' ⊆+ timers_ r -> (forall t now, RtFired t now ∈ rt_log r' -> RtFired t now ∈ rt_log r) -> next_timer_id_ r' = next_timer_id_ r ->
  timers_kept hand' r'.
Proof.
  intros [Hs Ht Hi] Ea Ef Es El En. split; [|by intros t now Hin%El; apply Ht|by rewrite Ea, En]. rewrite Ea, Ef. etrans; [|exact Hs]. by apply submseteq_skips_l.
Qed.
(** A note of the log that is about no timer. *)
Lemma timers_note hand hand' (r : R) e : match e with RtArmed _ | RtFired _ _ => False | _ => True end ->
  timers_kept hand r -> timers_kept hand' (rt_note e r).
Proof.
  intros He Hi. apply (timers_frame hand hand' r _ Hi); try done.
  - unfold armed_timers. cbn. rewrite bind_app. destruct e; try done; cbn; by rewrite app_nil_r.
  - unfold fired_timers. cbn. rewrite bind_app. destruct e; try done; cbn; by rewrite app_nil_r.
  - intros t now. cbn. rewrite elem_of_app, list_elem_of_singleton. intros [|<-]; done.
Qed.
Lemma timers_links hand hand' (f : M -> M) (r : R) : timers_kept hand r -> timers_kept hand' (links_do f r).
Proof. intros Hi. destruct (links_do_spec f r) as (bursts & _ & ->). by apply (timers_frame hand hand' r _ Hi). Qed.
Lemma erase_first_sub {A} (p : A -> bool) l : erase_first p l ⊆+ l.
Proof. induction l as [|x l IH]; [done|]. cbn. destruct (p x); [by apply submseteq_cons|by apply submseteq_skip]. Qed.
Lemma filter_partition {A} (p : A -> bool) (l : list A) : filter (fun x => p x = true) l ++ filter (fun x => p x = false) l ≡ₚ l.
Proof.
  induction l as [|x l IH]; [done|]. rewrite !filter_cons. destruct (p x).
  - rewrite decide_True, decide_False, <- app_comm_cons by done. by rewrite IH.
  - rewrite decide_False, decide_True by done. by rewrite <- Permutation_middle, IH.
Qed.
Lemma fired_log (l : list TimerEntry) now : map (fun t => RtFired t now) l ≫= fired_of = l /\ map (fun t => RtFired t now) l ≫= armed_of = [].
Proof. induction l as [|t l [IH1 IH2]]; [done|]. cbn [map]. rewrite !bind_cons, IH1, IH2. done. Qed.

Lemma timers_inv stops : turn_inv stops timers_kept.
Proof.
  split; [split|].
  - intros hand r r' Hr Hi. destruct Hr as [op Hop|t Ht'|n _|deadline t Ht'|id|next ticks|d|d|b f Hkeep|b result| |Hstop|self|alive running];
      try (by apply (timers_frame hand hand r)).
    + by apply (timers_links hand).
    + destruct Hi as [Hs Ht Hi]. cbn [ArmTimerLocked fst]. set (timer := MkTimerEntry _ deadline t).
      assert (Ea : armed_timers (rt_note (RtArmed timer) (r <| next_timer_id_ ::= next_id |> <| timers_ ::= fun l => l ++ [timer] |>)) = armed_timers r ++ [timer])
        by (unfold armed_timers; cbn; by rewrite bind_app).
      assert (Ef : fired_timers (rt_note (RtArmed timer) (r <| next_timer_id_ ::= next_id |> <| timers_ ::= fun l => l ++ [timer] |>)) = fired_timers r)
        by (unfold fired_timers; cbn; by rewrite bind_app, app_nil_r).
      split; rewrite ?Ea, ?Ef; cbn.
      * rewrite app_assoc. by apply submseteq_skips_r.
      * intros t0 now. rewrite elem_of_app, list_elem_of_singleton. intros [Hin|]; [by apply Ht|done].
      * assert (Hlen : size (armed_timers r ++ [timer]) = size (armed_timers r) + 1) by (unfold size; rewrite length_app; cbn; lia).
        rewrite Hlen. intros Hmax. pose proof (size_nonneg (armed_timers r)) as Hpos. destruct (Hi ltac:(lia)) as [Hids Hn]. rewrite map_app, Hids. cbn. rewrite Hn. split.
        -- rewrite seqZ_app by lia. cbn. by rewrite (seqZ_cons (1 + size (armed_timers r)) 1) by lia.
        -- unfold next_id, u64. rewrite Z.mod_small by lia. destruct (Z.eqb_spec (1 + size (armed_timers r) + 1) 0); lia.
    + unfold CancelTimer. destruct (id =? 0); [done|]. apply (timers_note hand); [done|].
      apply (timers_frame hand hand r _ Hi); try done. cbn. apply erase_first_sub.
    + pose proof (timers_note hand hand r (RtBurst d) Logic.I Hi) as Hi'. by apply (timers_frame hand hand _ _ Hi').
    + pose proof (timers_note hand hand r (RtBurst d) Logic.I Hi) as Hi'. by apply (timers_frame hand hand _ _ Hi').
    + unfold burst_finish. destruct (bursts_ r !! b) as [s|]; [|done]. destruct (bs_settled s); [done|]. by apply (timers_frame hand hand r).
    + unfold Stop. apply (timers_links hand hand (fun m => mgr_step walk_ids walk_keys walk_protocols jitter m OpCloseAll)) in Hi.
      set (r1 := links_do _ r) in Hi. change (MeshRuntime.links_op _ _ _ _ r OpCloseAll) with r1. clearbody r1. apply (timers_frame hand hand r1 _ Hi); try done.
      apply submseteq_nil_l.
  - intros hand r e He Hi. apply (timers_note hand); [by destruct e|done].
  - intros hand r t _ Hi. by apply (timers_frame (t :: hand) hand r _ Hi).
  - intros hand r e Hi. apply (timers_note _ hand _ (RtRan (Completion e))) in Hi; [|done]. unfold MeshRuntime.run_task.
    destruct e; try exact Hi. by apply (timers_links hand).
  - intros hand r result d job Hi. by apply (timers_note (BurstSettle result d job :: hand)).
  - intros r t q _ Hi. by apply (timers_frame [] [t] r _ Hi).
  - intros r Hi. by apply (timers_frame [] (deferred_queue_ r) r _ Hi).
  - intros hand r n d th Hi. by apply (timers_frame hand hand r _ Hi).
  - intros r [Hs Ht Hi]. set (l := filter (fun t => due (now_ms r) t = true) (timers_ r)). destruct (fired_log l (now_ms r)) as [F1 F2].
    split; unfold armed_timers, fired_timers in *; cbn; rewrite ?bind_app, ?F1, ?F2, ?app_nil_r; [|  |exact Hi].
    + rewrite <- app_assoc. unfold l. by rewrite filter_partition.
    + intros t now. rewrite elem_of_app. intros [Hin|Hin]; [by apply Ht|]. apply list_elem_of_fmap in Hin as (t' & [= -> ->] & Hin).
      apply list_elem_of_filter in Hin as [Hdue _]. by apply Z.leb_le in Hdue.
Qed.

(** *** Timers due when a turn starts *)

(** In a turn that started at [r0], of a clock that shows [start] at least: the
    timers there were wait, or were cancelled. *)
Definition timers_wait (start : Z) (r0 : R) (hand : list IoTask) (r : R) : Prop :=
  start <= now_ms r /\ exists l, rt_log r = rt_log r0 ++ l
    /\ forall t, t ∈ timers_ r0 -> t ∈ timers_ r \/ RtCancelled (te_id t) ∈ l.
Lemma wait_frame start r0 hand hand' (r r' : R) l : timers_wait start r0 hand r -> now_ms r <= now_ms r' -> rt_log r' = rt_log r ++ l ->
  (forall t, t ∈ timers_ r -> t ∈ timers_ r' \/ RtCancelled (te_id t) ∈ l) -> timers_wait start r0 hand' r'.
Proof.
  intros (Hs & l0 & El & Ht) Hn El' Ht'. split; [lia|]. exists (l0 ++ l). split; [by rewrite El', El, app_assoc|].
  intros t [Hin|Hc]%Ht; [|right; by apply elem_of_app; left]. destruct (Ht' t Hin) as [|Hc]; [by left|right; by apply elem_of_app; right].
Qed.
Lemma wait_same start r0 hand hand' (r r' : R) : timers_wait start r0 hand r -> now_ms r <= now_ms r' -> rt_log r' = rt_log r ->
  (forall t, t ∈ timers_ r -> t ∈ timers_ r') -> timers_wait start r0 hand' r'.
Proof. intros Hw Hn El Ht. apply (wait_frame start r0 hand hand' r r' [] Hw); [done|by rewrite app_nil_r|]. intros t Hin. left. by apply Ht. Qed.
Lemma wait_note start r0 hand hand' (r : R) e : timers_wait start r0 hand r -> timers_wait start r0 hand' (rt_note e r).
Proof. intros Hw. apply (wait_frame start r0 hand hand' r _ [e] Hw); [done|done|]. intros t Hin. by left. Qed.
Lemma wait_links start r0 hand hand' (f : M -> M) (r : R) : timers_wait start r0 hand r -> start <= amp_now (f (links_ r)) ->
  timers_wait start r0 hand' (links_do f r).
Proof.
  intros (Hs & l0 & El & Ht) Hn. destruct (links_do_spec f r) as (bursts & _ & ->). split; [exact Hn|]. by exists l0.
Qed.
Lemma step_time (m : M) op now : op_at (fun t => now <= t) op -> now <= amp_now m ->
  now <= amp_now (mgr_step walk_ids walk_keys walk_protocols jitter m op).
Proof.
  intros [Hop Hc] Hm. assert (Ht : (exists a s, op = OpTime a s) \/ forall a s, op <> OpTime a s) by (destruct op; eauto).
  destruct Ht as [(a & s & ->)|Ht]; [exact Hc|].
  by rewrite (g_now _ _ _ _ (mgr_step_goes walk_ids walk_keys walk_protocols jitter walk_perm m op Hop Ht)).
Qed.
Lemma erase_first_elem {A} (p : A -> bool) l x : x ∈ l -> x ∈ erase_first p l \/ p x = true.
Proof.
  induction 1 as [x l|x y l _ [IH|IH]]; cbn; [|destruct (p y); [|left; by right]|by right].
  - destruct (p x) eqn:Hp; [by right|left; by left].
  - left. revert IH. clear. induction l as [|z l IHl]; cbn; [done|]. destruct (p z); [by right|].
    rewrite !elem_of_cons. intros [|]; [by left|right; auto].
Qed.
Lemma wait_prim start r0 hand (r r' : R) : prim0 (fun t => start <= t) true false r r' -> timers_wait start r0 hand r -> timers_wait start r0 hand r'.
Proof.
  intros Hr Hw. destruct Hr as [op Hop|t Ht|n _|deadline t Ht|id|next ticks|d|d|b f Hkeep|b result| |?|self|alive running];
    try (by apply (wait_same start r0 hand hand r _ Hw)); try done.
  - apply (wait_links start r0 hand); [done|]. apply step_time; [done|]. apply Hw.
  - apply (wait_note start r0 hand). apply (wait_same start r0 hand hand r _ Hw); [done|done|]. intros t' Hin. cbn. apply elem_of_app. by left.
  - unfold CancelTimer. destruct (id =? 0); [done|]. apply (wait_frame start r0 hand hand r _ [RtCancelled id] Hw); [done|done|].
    intros t Hin. destruct (erase_first_elem (fun t => te_id t =? id) _ _ Hin) as [|Hid]; [by left|right]. apply Z.eqb_eq in Hid as ->. by left.
  - apply (wait_note start r0 hand hand _ (RtBurst d)) in Hw. by apply (wait_same start r0 hand hand _ _ Hw).
  - apply (wait_note start r0 hand hand _ (RtBurst d)) in Hw. by apply (wait_same start r0 hand hand _ _ Hw).
  - unfold burst_finish. destruct (bursts_ r !! b) as [s|]; [|done]. destruct (bs_settled s); [done|]. by apply (wait_same start r0 hand hand r _ Hw).
Qed.
Lemma timers_wait_inv start r0 : task_inv (fun t => start <= t) false (timers_wait start r0).
Proof.
  split.
  - intros hand r r'. apply wait_prim.
  - intros hand r e _. apply wait_note.
  - intros hand r t _ Hw. by apply (wait_same start r0 (t :: hand) hand r _ Hw).
  - intros hand r e Hw. apply (wait_note start r0 _ hand _ (RtRan (Completion e))) in Hw. unfold MeshRuntime.run_task.
    destruct e; try exact Hw. apply (wait_links start r0 hand); [done|].
    assert (Hq : quiet (cbs_of waiters) (links_ r) [] (fold_left (fun m cb => RunLinkCb walk_ids m cb result) waiters (links_ r))).
    { apply quiet_run_cbs. rewrite app_nil_r. apply quiet_refl. }
    cbn. rewrite (q_now _ _ _ _ Hq). apply Hw.
  - intros hand r result d job Hw. by apply (wait_note start r0 (BurstSettle result d job :: hand)).
  - intros r t q _ Hw. by apply (wait_same start r0 [] [t] r _ Hw).
  - intros r Hw. by apply (wait_same start r0 [] (deferred_queue_ r) r _ Hw).
  - intros hand r n d th Hw. by apply (wait_same start r0 hand hand r _ Hw).
Qed.

(** No call sets the clock back before [start]. *)
Record clock_forward (start : Z) : Prop := {
  cf_app n r : start <= now_ms r -> Forall (rt_op_at (fun t => start <= t) false) (app n r);
  cf_pumped m : start <= amp_now m -> Forall (op_at (fun t => start <= t)) (pumped m);
  cf_ticked m : start <= amp_now m -> Forall (op_at (fun t => start <= t)) (ticked m);
}.
(** In the turn from [r0] to [r], [t] fired and its task ran, or it was cancelled. *)
Definition served (r0 r : R) (t : TimerEntry) : Prop :=
  exists l, rt_log r = rt_log r0 ++ l
    /\ (RtCancelled (te_id t) ∈ l \/ exists now, RtFired t now ∈ l /\ RtRan (te_task t) ∈ l).

Section Served.
Context (stops : bool) (Hok : calls_ok stops) (r0 : R) (Hclock : clock_forward (now_ms r0)).
Abbreviation waits := (timers_wait (now_ms r0) r0).
Lemma turn_app n hand r : waits hand r -> Forall (rt_op_at (fun t => now_ms r0 <= t) false) (app n r).
Proof. intros [Hn _]. by apply (cf_app _ Hclock). Qed.
Lemma turn_pumped r : waits [] r -> Forall (op_at (fun t => now_ms r0 <= t)) (pumped (links_ r)).
Proof. intros [Hn _]. by apply (cf_pumped _ Hclock). Qed.
Lemma turn_ticked r : waits [] r -> Forall (op_at (fun t => now_ms r0 <= t)) (ticked (links_ r)).
Proof. intros [Hn _]. by apply (cf_ticked _ Hclock). Qed.
Lemma finish_serves fuel r r' t : waits [] r -> finish_turn (C := C) walk_ids walk_keys walk_protocols jitter app fuel r = Some r' ->
  t ∈ timers_ r0 -> te_deadline t <= now_ms r0 -> served r0 r' t.
Proof.
  intros Hw. unfold finish_turn. destruct (drain_deferred _ _ _ _ _ fuel _) as [r1|] eqn:H1'; [|done]. cbn [mbind option_bind].
  apply (drain_deferred_inv _ _ _ (timers_wait_inv _ r0) turn_app) in H1' as [(Hn & l1 & E1 & Hw1) _];
    [|by apply (drain_posted_inv _ _ _ (timers_wait_inv _ r0) turn_app)].
  destruct (drain_deferred _ _ _ _ _ fuel (FireTimersLocked _ _ _ _ _ r1)) as [r2|] eqn:H2'; [|done]. cbn [mbind option_bind].
  intros [= <-] Hin Hdue. apply (drain_grows stops Hok) in H2' as [[l2 E2] _].
  pose proof (run_tasks_grow stops Hok) as Hgrow. destruct (Hw1 t Hin) as [Hwait|Hcancel].
  - destruct (fire_fires stops Hok r1 t Hwait ltac:(lia)) as (l & El & Hf & Hr). exists (l1 ++ l ++ l2). cbn.
    rewrite E2, El, E1, <- !app_assoc. split; [done|]. right. exists (now_ms r1). by rewrite !elem_of_app; auto.
  - assert (Hl : exists l, rt_log (FireTimersLocked (C := C) walk_ids walk_keys walk_protocols jitter app r1) = rt_log r1 ++ l).
    { unfold FireTimersLocked. cbv zeta. edestruct Hgrow as [[l El] _]. rewrite El. cbn. rewrite <- app_assoc. by eexists. }
    destruct Hl as [l El]. exists (l1 ++ l ++ l2). cbn. rewrite E2, El, E1, <- !app_assoc. split; [done|]. left. by rewrite !elem_of_app; auto.
Qed.
(** A turn that is not refused starts as it finds the runtime. *)
Lemma begin_waits self r1 : BeginDriveLocked r0 self = (r1, true) -> waits [] r1.
Proof.
  intros Hb. assert (Hw : waits [] r0) by (split; [done|]; exists []; split; [by rewrite app_nil_r|by left]).
  change r1 with (r1, true).1. rewrite <- Hb. by apply (begin_inv _ _ _ (timers_wait_inv _ r0)).
Qed.
Lemma turns_serve fuel self draw r' t : driving_ r0 = false -> claimed_driver_ r0 = None \/ claimed_driver_ r0 = Some self ->
  Drive fuel self draw r0 = Some r' \/ Tick fuel self draw r0 = Some r' -> t ∈ timers_ r0 -> te_deadline t <= now_ms r0 -> served r0 r' t.
Proof.
  intros Hd Hc. assert (Hb : exists r1, BeginDriveLocked r0 self = (r1, true)).
  { unfold BeginDriveLocked. rewrite Hd. destruct Hc as [->|Hc]; [by eexists|]. rewrite Hc, Z.eqb_refl. by eexists. }
  destruct Hb as (r1 & Hb). pose proof (begin_waits self r1 Hb) as Hw. unfold MeshRuntime.Drive, MeshRuntime.Tick. rewrite Hb. cbn [negb].
  intros [Hf|Hf]; refine (finish_serves _ _ _ t _ Hf); apply (tick_inv _ _ _ (timers_wait_inv _ r0) turn_ticked); [|done].
  by apply (pump_inv _ _ _ (timers_wait_inv _ r0) turn_app turn_pumped).
Qed.
End Served.


(** ** A turn ends *)

Definition settles (t : IoTask) : Prop := match t with BurstSettle _ _ _ => True | _ => False end.
(** What a step defers of itself is the end of a burst. *)
Lemma prim_defers stops r r' : prim0 any_clock false stops r r' ->
  driving_ r' = driving_ r /\ forall t, t ∈ deferred_queue_ r' -> t ∈ deferred_queue_ r \/ settles t.
Proof.
  intros [op Hop|t Ht|n Hno|deadline t Ht|id|next ticks|d|d|b f Hkeep|b result| |Hstop|self|alive running]; try (split; [done|by left]); try done.
  - unfold MeshRuntime.links_op. destruct (links_do_spec (fun m => mgr_step walk_ids walk_keys walk_protocols jitter m op) r) as (bursts & _ & ->). split; [done|by left].
  - unfold CancelTimer. destruct (id =? 0); split; (done || by left).
  - split; [done|]. intros t. cbn. rewrite elem_of_app, list_elem_of_singleton. intros [Hin| ->]; [by left|by right].
  - unfold burst_finish. destruct (bursts_ r !! b) as [s|]; [|split; [done|by left]]. destruct (bs_settled s); [split; [done|by left]|].
    split; [done|]. intros t. cbn. rewrite elem_of_app, list_elem_of_singleton. intros [Hin| ->]; [by left|by right].
  - unfold Stop, MeshRuntime.links_op. destruct (links_do_spec (fun m => mgr_step walk_ids walk_keys walk_protocols jitter m OpCloseAll) r) as (bursts & _ & ->).
    split; [done|]. by intros t Hin%not_elem_of_nil.
Qed.
Lemma prims_defer stops r r' : prims0 any_clock false stops r r' ->
  driving_ r' = driving_ r /\ forall t, t ∈ deferred_queue_ r' -> t ∈ deferred_queue_ r \/ settles t.
Proof.
  induction 1 as [r|r r1 r' Hr _ [IHd IH]]; [split; [done|by left]|]. apply prim_defers in Hr as [Hd Hr].
  split; [congruence|]. intros t [Hin|]%IH; [by apply Hr|by right].
Qed.
Lemma links_defers (f : M -> M) (r : R) : driving_ (links_do f r) = driving_ r /\ deferred_queue_ (links_do f r) = deferred_queue_ r.
Proof. by destruct (links_do_spec f r) as (bursts & _ & ->). Qed.
Lemma settle_defers r result d job :
  let r' := burst_settle (C := C) walk_ids walk_keys walk_protocols jitter r result d job in
  driving_ r' = driving_ r /\ deferred_queue_ r' = deferred_queue_ r.
Proof.
  unfold burst_settle. destruct job as [[keys peer_ids]|]; cbv zeta; [|done].
  assert (Hfold : forall A (l : list A) (f : R -> A -> R) (r : R), (forall r x, driving_ (f r x) = driving_ r /\ deferred_queue_ (f r x) = deferred_queue_ r) ->
    driving_ (fold_left f l r) = driving_ r /\ deferred_queue_ (fold_left f l r) = deferred_queue_ r).
  { intros A l f r0 Hf. revert r0. induction l as [|x l IH]; intros r0; [done|]. cbn [fold_left]. destruct (IH (f r0 x)) as [-> ->]. apply Hf. }
  cbn. destruct (Hfold _ keys (fun r key => links_op r (OpUnregister key))
    (fold_left (fun r '(key, peer_id) => if burst_keeps (C := C) walk_ids r result key peer_id then r else links_op r (OpAbort key)) (zip keys peer_ids) r)) as [-> ->];
    [intros; apply links_defers|].
  apply Hfold. intros r0 [key peer_id]. destruct (burst_keeps _ _ _ _ _); [done|apply links_defers].
Qed.

Section Ends.
Context (stops : bool) (Hok : calls_ok stops) (rank : nat -> nat).
Context (Hrank : forall n r k, RtDefer (Some k) ∈ app n r -> (rank k < rank n)%nat).
(** A task defers only tasks of lower rank. *)
Definition task_rank (t : IoTask) : nat :=
  match t with
  | AppTask n => S (rank n)
  | BurstSettle _ _ _ => 0
  | _ => 1
  end.
Definition defers_below (m : nat) (r r' : R) : Prop :=
  driving_ r' = driving_ r /\ forall t, t ∈ deferred_queue_ r' -> t ∈ deferred_queue_ r \/ (task_rank t < m)%nat.
Lemma below_trans m (r1 r2 r3 : R) : defers_below m r1 r2 -> defers_below m r2 r3 -> defers_below m r1 r3.
Proof. intros [D1 B1] [D2 B2]. split; [congruence|]. intros t [Hin|]%B2; [by apply B1|by right]. Qed.
Lemma below_prims m r r' : (0 < m)%nat -> prims0 any_clock false stops r r' -> defers_below m r r'.
Proof. intros Hm [Hd Hp]%prims_defer. split; [done|]. intros t [|Ht]%Hp; [by left|right; by destruct t]. Qed.
Lemma below_note m r r' e : defers_below m (rt_note e r) r' -> defers_below m r r'.
Proof. by intros [Hd Hb]. Qed.
Lemma app_run_below n r : defers_below (S (rank n)) r (app_run (C := C) walk_ids walk_keys walk_protocols jitter app n r).
Proof.
  unfold app_run. pose proof (co_app _ Hok n r) as Hops. pose proof (Hrank n r) as Hdefers. revert Hops Hdefers. generalize (app n r) as ops.
  intros ops Hops Hdefers. revert r. induction Hops as [|o ops Ho _ IH]; intros r; [split; [done|by left]|]. cbn [fold_left].
  apply (below_trans _ _ (rt_do r o)); [|apply IH; intros k Hk; apply Hdefers; by right].
  assert (Hn : (exists k, o = RtDefer (Some k)) \/ forall k, o <> RtDefer (Some k)) by (destruct o; try (by right); destruct task; [left; eauto|by right]).
  destruct Hn as [[k ->]|Hn]; [|apply below_prims; [lia|]; apply rt_do_prims0; [intros k Hk; by destruct (Hn k)|by apply rt_op_any]].
  split; [done|]. intros t. cbn. rewrite elem_of_app, list_elem_of_singleton. intros [Hin| ->]; [by left|right]. cbn.
  pose proof (Hdefers k ltac:(by left)). lia.
Qed.
Lemma run_task_below r t : defers_below (task_rank t) r (run_task r t).
Proof.
  apply (below_note _ _ _ (RtRan t)). destruct t as [n|e| | | | |result d job]; try (apply below_prims; [cbn; lia|by apply own_task_prims]).
  - apply app_run_below.
  - unfold MeshRuntime.run_task. destruct e; try (split; [done|by left]). cbn [task_body].
    destruct (links_defers (fun m => fold_left (fun m cb => RunLinkCb walk_ids m cb result) waiters m) (rt_note (RtRan (Completion (MgPostWaiters waiters result))) r)) as [D Q].
    split; [by rewrite D|]. intros t. rewrite Q. by left.
  - destruct (settle_defers (rt_note (RtRan (BurstSettle result d job)) r) result d job) as [D Q]. split; [exact D|].
    intros t Hin. left. unfold MeshRuntime.run_task in Hin. cbn [task_body] in Hin. by rewrite Q in Hin.
Qed.
Lemma run_tasks_below m ts r : Forall (fun t => (task_rank t <= m)%nat) ts -> defers_below m r (fold_left run_task ts r).
Proof.
  intros Hts. revert r. induction Hts as [|t ts Ht _ IH]; intros r; [split; [done|by left]|]. cbn [fold_left].
  apply (below_trans _ _ (run_task r t)); [|apply IH]. destruct (run_task_below r t) as [D B]. split; [done|].
  intros t' [|]%B; [by left|right; lia].
Qed.
(** As many batches as ranks are enough. *)
Lemma drain_returns m r : Forall (fun t => (task_rank t < m)%nat) (deferred_queue_ r) ->
  exists r', driving_ r' = driving_ r /\ deferred_queue_ r' = []
    /\ forall fuel, (m <= fuel)%nat -> drain_deferred (C := C) walk_ids walk_keys walk_protocols jitter app fuel r = Some r'.
Proof.
  revert r. induction m as [|m IH]; intros r Hall.
  - assert (Hq : deferred_queue_ r = []) by (destruct Hall; [done|lia]). exists r. split_and!; [done..|].
    intros [|fuel] _; cbn [drain_deferred]; by rewrite Hq.
  - destruct (deferred_queue_ r) as [|t batch] eqn:Hq; [exists r; split_and!; [done..|]; intros [|fuel] _; cbn [drain_deferred]; by rewrite Hq|].
    set (r1 := fold_left run_task (t :: batch) (r <| deferred_queue_ := [] |>)).
    assert (Hb : defers_below m (r <| deferred_queue_ := [] |>) r1).
    { apply run_tasks_below. eapply Forall_impl; [exact Hall|]. cbn. lia. }
    destruct Hb as [D B]. destruct (IH r1) as (r' & D' & Q' & Hr').
    { apply Forall_forall. intros t' [Hin|]%B; [by apply not_elem_of_nil in Hin|done]. }
    exists r'. split_and!; [by rewrite D'|done|]. intros [|fuel] Hf; [lia|]. cbn [drain_deferred]. rewrite Hq. apply Hr'. lia.
Qed.
Lemma drain_ends r : exists m r', driving_ r' = driving_ r /\ deferred_queue_ r' = []
  /\ forall fuel, (m <= fuel)%nat -> drain_deferred (C := C) walk_ids walk_keys walk_protocols jitter app fuel r = Some r'.
Proof.
  exists (S (max_list (map task_rank (deferred_queue_ r)))). apply drain_returns. apply Forall_forall. intros t Hin.
  enough (task_rank t <= max_list (map task_rank (deferred_queue_ r)))%nat by lia. apply max_list_elem_of_le. by apply list_elem_of_fmap_2.
Qed.
Lemma finish_ends r : exists m r', driving_ r' = false /\ driving_thread_ r' = None /\ deferred_queue_ r' = []
  /\ forall fuel, (m <= fuel)%nat -> finish_turn (C := C) walk_ids walk_keys walk_protocols jitter app fuel r = Some r'.
Proof.
  destruct (drain_ends (DrainPostedIoLocked (C := C) walk_ids walk_keys walk_protocols jitter app r)) as (m1 & r1 & _ & _ & H1').
  destruct (drain_ends (FireTimersLocked (C := C) walk_ids walk_keys walk_protocols jitter app r1)) as (m2 & r2 & _ & Q2 & H2').
  exists (m1 + m2)%nat, (EndDriveLocked r2). split_and!; [done|done|done|]. intros fuel Hf. unfold finish_turn.
  rewrite H1' by lia. cbn [mbind option_bind]. rewrite H2' by lia. done.
Qed.
End Ends.

(** C20: one driver at a time, and each turn ends.  While a turn runs, a task's drive
    is refused and changes nothing; a thread other than the one that claimed the
    runtime is refused, and only counted.  A turn that begins ends, as long as no
    task of the application defers itself again without end, and leaves no driver
    and no deferred task; and no task of the turn ends it early. *)
Theorem turn_ends (stops : bool) (rank : nat -> nat) (self : Z) (draw : string -> DialDraw) (r : R) :
  calls_ok stops -> (forall n r k, RtDefer (Some k) ∈ app n r -> (rank k < rank n)%nat) ->
  let ended f := exists m r', driving_ r' = false /\ driving_thread_ r' = None /\ deferred_queue_ r' = [] /\ forall fuel, (m <= fuel)%nat -> f fuel = Some r' in
  let turns := [fun fuel => Pump fuel self r; fun fuel => Tick fuel self draw r; fun fuel => Drive fuel self draw r] in
  (driving_ r = true -> Forall (fun f => forall fuel, f fuel = Some r) turns)
  /\ (forall claimed, driving_ r = false -> claimed_driver_ r = Some claimed -> claimed <> self ->
        Forall (fun f => forall fuel, f fuel = Some (r <| refused_drives_ ::= fun n => u64 (n + 1) |>)) turns)
  /\ (driving_ r = false -> claimed_driver_ r = None \/ claimed_driver_ r = Some self -> Forall ended turns)
  /\ (forall t, driving_ (run_task r t) = driving_ r).
Proof.
  intros Hok Hrank ended turns. unfold turns, ended, MeshRuntime.Pump, MeshRuntime.Tick, MeshRuntime.Drive. split_and!.
  - intros Hd. rewrite !Forall_cons, Forall_nil. unfold BeginDriveLocked. rewrite Hd. done.
  - intros claimed Hd Hc Hn. rewrite !Forall_cons, Forall_nil. unfold BeginDriveLocked. rewrite Hd, Hc. by rewrite (proj2 (Z.eqb_neq _ _) Hn).
  - intros Hd Hc. assert (Hb : exists r1, BeginDriveLocked r self = (r1, true)).
    { unfold BeginDriveLocked. rewrite Hd. destruct Hc as [->|Hc]; [by eexists|]. rewrite Hc, Z.eqb_refl. by eexists. }
    destruct Hb as (r1 & ->). rewrite !Forall_cons, Forall_nil. split_and!; [|by apply (finish_ends stops Hok rank Hrank)..|done].
    cbn. match goal with |- context [drain_deferred _ _ _ _ _ _ ?x] => destruct (drain_ends stops Hok rank Hrank x) as (m & r2 & _ & Q & H2') end.
    exists m, (EndDriveLocked r2). split_and!; [done|done|done|]. intros fuel Hf. by rewrite H2'.
  - intros t. apply (run_task_below stops Hok rank Hrank).
Qed.
End Runtime.

(** ** Witnesses *)

Section Witness.
#[local] Existing Instance toy_inet6.
#[local] Existing Instance toy_hash.
Abbreviation toy_op := (rt_op (L := ToyLink) (K := AssocId) (C := unit)).
Abbreviation toy_Runtime := (Runtime ToyLink unit).
Definition toy_pumped (m : Manager ToyLink unit) : list (mgr_op (L := ToyLink) (K := AssocId) (C := unit)) := [OpAccept [3]].
Definition toy_ticked (m : Manager ToyLink unit) : list (mgr_op (L := ToyLink) (K := AssocId) (C := unit)) := [].
(** Task 0 defers a task, which defers another; task 3 asks for a burst. *)
Definition toy_app (n : nat) (r : toy_Runtime) : list toy_op :=
  match n with
  | 0%nat => [RtDefer (Some 1%nat); RtLink (OpRegister "key" toy_ma); RtLink (OpEnsure toy_dial_draw "none" (Some 8%nat))]
  | 1%nat => [RtDefer (Some 2%nat); RtAfter 50 (Some 4%nat)]
  | 2%nat => [RtCancel 1]
  | 3%nat => [RtBurstDial (fun _ => toy_dial_draw) [toy_ma; "no address"; toy_ma] 500 (Some 5%nat)]
  | _ => []
  end.
Lemma toy_calls_ok stops : calls_ok toy_pumped toy_ticked toy_app stops.
Proof. split; [intros [|[|[|[|n]]]] r|intros m|intros m]; by repeat constructor. Qed.
Abbreviation toy_drive := (Drive toy_walk_ids toy_walk_keys toy_walk_protocols (fun d => d) toy_pumped toy_ticked toy_app).
Abbreviation toy_do := (rt_do toy_walk_ids toy_walk_keys toy_walk_protocols (fun d => d)).
Abbreviation toy_reach := (rt_reach toy_walk_ids toy_walk_keys toy_walk_protocols (fun d => d) toy_pumped toy_ticked toy_app).

(** Calls, and turns of the driver with their fuel. *)
Fixpoint toy_play (script : list (toy_op + nat)) (r : toy_Runtime) : toy_Runtime :=
  match script with
  | [] => r
  | inl o :: script => toy_play script (toy_do r o)
  | inr fuel :: script => toy_play script (default r (toy_drive fuel 1 (fun _ => toy_dial_draw) r))
  end.
Lemma toy_play_app script more r : toy_play (script ++ more) r = toy_play more (toy_play script r).
Proof. revert r. induction script as [|[o|fuel] script IH]; intros r; [done|apply IH|apply IH]. Qed.
Lemma toy_play_reach script r : Forall (fun o => match o with inl o => rt_op_ok false o | inr _ => True end) script -> toy_reach false r (toy_play script r).
Proof.
  intros Hs. revert r. induction Hs as [|o script Ho _ IH]; intros r; [done|]. destruct o as [o|fuel]; cbn [toy_play].
  - etrans; [apply rtc_once; by apply step_do|apply IH].
  - destruct (toy_drive fuel 1 (fun _ => toy_dial_draw) r) as [r'|] eqn:Hd; [|apply IH]. etrans; [apply rtc_once; by eapply step_drive|apply IH].
Qed.
Abbreviation toy_start := (MeshRuntime_new (L := ToyLink) tt "local" PeerLinkConfig_default).
(** A turn with the burst open, then, its window over, another. *)
Definition toy_script : list (toy_op + nat) :=
  [inl RtStart; inl (RtClaim 1); inl (RtPost (Some 0%nat)); inl (RtPost (Some 3%nat)); inl (RtAfter 100 (Some 9%nat)); inr 4%nat; inl (RtLink (OpTime 600 0))].
Lemma toy_script_ok : Forall (fun o => match o with inl o => rt_op_ok false o | inr _ => True end) toy_script.
Proof. by repeat constructor. Qed.
Definition ok_turn (r : option toy_Runtime) : bool := match r with Some _ => true | None => false end.
Definition toy_now : toy_Runtime := toy_play toy_script toy_start.
Definition toy_then : toy_Runtime := toy_play (toy_script ++ [inr 4%nat]) toy_start.
Lemma toy_then_play : toy_then = toy_play [inr 4%nat] toy_now.
Proof. exact (toy_play_app toy_script [inr 4%nat] toy_start). Qed.
Lemma toy_play_drive fuel r : ok_turn (toy_drive fuel 1 (fun _ => toy_dial_draw) r) = true ->
  toy_drive fuel 1 (fun _ => toy_dial_draw) r = Some (toy_play [inr fuel] r).
Proof. cbn [toy_play]. by destruct (toy_drive fuel 1 _ r). Qed.
Lemma toy_drive_ends : ok_turn (toy_drive 4 1 (fun _ => toy_dial_draw) toy_now) = true.
Proof. by vm_compute. Qed.
Lemma toy_drives : toy_drive 4 1 (fun _ => toy_dial_draw) toy_now = Some toy_then.
Proof. exact (eq_trans (toy_play_drive 4 toy_now toy_drive_ends) (f_equal Some (eq_sym toy_then_play))). Qed.

Theorem runtime_refines_world_witness :
  map te_task (timers_ toy_now) = [BurstWindow 0; AppTask 4]
  /\ exists wops, Forall world_op_ok wops
    /\ let w := ManagerRuns.world_run toy_walk_ids toy_walk_keys toy_walk_protocols (fun d => d) (World_new (L := ToyLink) tt "local" PeerLinkConfig_default) wops in
       w_mgr w = links_ toy_now /\ take (w_run w) (posted (w_mgr w)) = ran toy_now
       /\ drop (w_run w) (posted (w_mgr w)) = io_queue_ toy_now ≫= posted_of_task.
Proof.
  split; [by vm_compute|].
  exact (runtime_refines_world toy_walk_ids toy_walk_keys toy_walk_protocols (fun d => d) (fun A g => reflexivity _) toy_pumped toy_ticked toy_app
           tt "local" PeerLinkConfig_default toy_now (toy_calls_ok false) (toy_play_reach _ _ toy_script_ok)).
Defined.

Theorem burst_told_once_witness :
  open_bursts toy_now = [5]%nat /\ told_bursts toy_now = [] /\ told_bursts toy_then = [5]%nat /\ NoDup (told_bursts toy_then)
  /\ outcome_at (FireTimersLocked toy_walk_ids toy_walk_keys toy_walk_protocols (fun d => d) toy_app toy_now) 0 = Some (true, 5%nat).
Proof.
  split_and!; [by vm_compute..| |].
  - destruct (burst_told_once toy_walk_ids toy_walk_keys toy_walk_protocols (fun d => d) toy_pumped toy_ticked toy_app false
      tt "local" PeerLinkConfig_default toy_then (toy_calls_ok false)
      (toy_play_reach (toy_script ++ [inr 4%nat]) toy_start ltac:(by repeat constructor))) as (_ & Hnd & _).
    apply Hnd. apply (bool_decide_eq_true_1 _). by vm_compute.
  - destruct (burst_told_once toy_walk_ids toy_walk_keys toy_walk_protocols (fun d => d) toy_pumped toy_ticked toy_app false
      tt "local" PeerLinkConfig_default toy_now (toy_calls_ok false) (toy_play_reach _ _ toy_script_ok)) as (_ & _ & _ & Hf).
    apply (Hf 0%nat (false, 5%nat) 2 500); [apply (list_elem_of_lookup_2 _ 0%nat); by vm_compute|by vm_compute|by vm_compute].
Defined.

Lemma toy_clock_forward start : clock_forward toy_pumped toy_ticked toy_app start.
Proof. split; [intros [|[|[|[|n]]]] r _|intros m _|intros m _]; by repeat constructor. Qed.

(** A task of rank 3 defers one of rank 2, which defers one of rank 1. *)
Theorem turn_ends_witness :
  toy_drive 4 2 (fun _ => toy_dial_draw) toy_now = Some (toy_now <| refused_drives_ := 1 |>)
  /\ exists m r', driving_ r' = false /\ deferred_queue_ r' = []
       /\ forall fuel, (m <= fuel)%nat -> toy_drive fuel 1 (fun _ => toy_dial_draw) (toy_do toy_now (RtDefer (Some 0%nat))) = Some r'.
Proof.
  assert (Hrank : forall n r k, RtDefer (Some k) ∈ toy_app n r -> (3 - k < 3 - n)%nat).
  { intros [|[|[|[|n]]]] r k Hin; cbn in Hin; repeat (apply elem_of_cons in Hin as [E1|Hin]; [first [discriminate E1|injection E1 as ->; lia]|]); by apply not_elem_of_nil in Hin. }
  pose proof (turn_ends toy_walk_ids toy_walk_keys toy_walk_protocols (fun d => d) toy_pumped toy_ticked toy_app false (fun n => 3 - n)%nat) as Hends.
  split.
  - destruct (Hends 2 (fun _ => toy_dial_draw) toy_now (toy_calls_ok false) Hrank) as (_ & Hc & _).
    specialize (Hc 1 ltac:(by vm_compute) ltac:(by vm_compute) ltac:(done)). rewrite !Forall_cons in Hc. destruct Hc as (_ & _ & Hc & _).
    rewrite (Hc 4%nat). by vm_compute.
  - destruct (Hends 1 (fun _ => toy_dial_draw) (toy_do toy_now (RtDefer (Some 0%nat))) (toy_calls_ok false) Hrank) as (_ & _ & He & _).
    specialize (He ltac:(by vm_compute) ltac:(right; by vm_compute)). rewrite !Forall_cons in He. destruct He as (_ & _ & (m & r' & Hd & _ & Q & Hr') & _).
    exists m, r'. split; [exact Hd|]. split; [exact Q|exact Hr'].
Defined.
End Witness.
