(* ===== verification/OsUdp.v ===== *)
(** * The socket of a node (src/L1/OsUdpDatagramIo.cpp)

    [OsUdpDatagramIo] on Linux, over the calls of the system it makes: they are a
    class ([Kernel]) with what POSIX and Linux say of them ([KernelLaws]): which
    descriptors are open, which capabilities the thread has.  It implements the
    interface [DatagramIo] of the endpoint ([OsUdp_DatagramIo]).  Theorems: an
    address goes through a [sockaddr] and back; whatever is done with a socket, and
    whatever fails, no descriptor leaks and the capabilities of the thread are
    those it had; the errors of a send and of a receive. *)

From stdpp Require Import pretty.
From S2P Require Import Prelude L1Types.

(** ** The system *)

Inductive AddrFamily := AF_INET | AF_INET6.
#[export] Instance AddrFamily_eq_dec : EqDecision AddrFamily.
Proof. solve_decision. Defined.
(** A [sockaddr_in] or [sockaddr_in6]: port in network order, 4 or 16 bytes of address. *)
Record SockAddr := MkSockAddr { sa_family : AddrFamily; sa_port : Z; sa_addr : bytes; sa_scope : Z }.
Inductive SockOpt := SO_RCVBUF | SO_SNDBUF | SO_RCVBUFFORCE | SO_SNDBUFFORCE | SO_RXQ_OVFL | IPV6_V6ONLY.
Record CapWord := MkCapWord { cap_effective : Z; cap_permitted : Z; cap_inheritable : Z }.

(** The calls, [S] the state of the system and of the thread: a result below 0, or
    none, is a failure whose number [errno] then is. *)
Class Kernel (S : Type) := {
  errno : S -> Z;
  sys_socket : S -> AddrFamily -> S * Z;
  sys_nonblock : S -> Z -> S;
  sys_setsockopt : S -> Z -> SockOpt -> Z -> S * Z;
  sys_getsockopt : S -> Z -> SockOpt -> S * option Z;
  sys_bind : S -> Z -> SockAddr -> S * Z;
  sys_getsockname : S -> Z -> S * option SockAddr;
  sys_close : S -> Z -> S;
  sys_sendto : S -> Z -> bytes -> SockAddr -> S * Z;
  sys_recvmsg : S -> Z -> Z -> S * option (bytes * SockAddr * list Z);
  sys_capget : S -> S * option (list CapWord);
  sys_capset : S -> list CapWord -> S * Z;
  inet_ntop : AddrFamily -> bytes -> option string;
}.

Definition EAGAIN : Z := 11.
Definition ENETDOWN : Z := 100.
Definition ENETUNREACH : Z := 101.
Definition EHOSTDOWN : Z := 112.
Definition EHOSTUNREACH : Z := 113.
Definition CAP_NET_ADMIN_index : nat := 0.
Definition CAP_NET_ADMIN_mask : Z := 2 ^ 12.
Definition INT32_MAX : Z := 2 ^ 31 - 1.

(** ** Addresses *)

Definition htons (port : Z) : Z := le_value (rev (le_bytes 2 port)).
Definition AF_of (f : Family) : AddrFamily := match f with V4 => AF_INET | V6 => AF_INET6 end.
Definition ToSockAddr (ep : IpEndpoint) : SockAddr :=
  match family ep with
  | V4 => MkSockAddr AF_INET (htons (port ep)) (take 4 (addr ep)) 0
  | V6 => MkSockAddr AF_INET6 (htons (port ep)) (addr ep) (scope_id ep)
  end.
Definition v4_mapped_prefix : bytes := zeros 10 ++ [255; 255].
(** [IN6_IS_ADDR_V4MAPPED]. *)
Definition v4_mapped (a : bytes) : bool := bool_decide (take 12 a = v4_mapped_prefix).
Definition FromSockAddr (ss : SockAddr) : IpEndpoint :=
  match sa_family ss with
  | AF_INET => IpEndpoint_V4 (at_ (sa_addr ss) 0) (at_ (sa_addr ss) 1) (at_ (sa_addr ss) 2) (at_ (sa_addr ss) 3) (htons (sa_port ss))
  | AF_INET6 =>
      if v4_mapped (sa_addr ss)
      then IpEndpoint_V4 (at_ (sa_addr ss) 12) (at_ (sa_addr ss) 13) (at_ (sa_addr ss) 14) (at_ (sa_addr ss) 15) (htons (sa_port ss))
      else MkIpEndpoint V6 (sa_addr ss) (htons (sa_port ss)) (sa_scope ss)
  end.
(** Where a datagram goes: a socket of both stacks is given no [sockaddr_in]. *)
Definition dest_addr (local peer : IpEndpoint) : SockAddr :=
  if bool_decide (family local = V6) && bool_decide (family peer = V4)
  then MkSockAddr AF_INET6 (htons (port peer)) (v4_mapped_prefix ++ take 4 (addr peer)) 0
  else ToSockAddr peer.

(** ** OsUdpDatagramIo *)

Record UdpSocketOptions := MkUdpSocketOptions { receive_buffer_bytes : Z; send_buffer_bytes : Z }.
Record DatagramIoStats := MkDatagramIoStats { st_receive_buffer_bytes : Z; st_send_buffer_bytes : Z; st_receive_drops : option Z }.
Record OsUdpDatagramIo := MkOsUdp { fd_ : Z; local_ : IpEndpoint; options_ : UdpSocketOptions; recv_scratch_ : Z; receive_drops_ : Z }.
#[export] Instance OsUdp_fields : Fields OsUdpDatagramIo := fun u =>
  MkOsUdp (fd_ u) (local_ u) (options_ u) (recv_scratch_ u) (receive_drops_ u).

Section OsUdp.
Context {S : Type} `{Kernel S}.

Definition IoErr (s : S) (what : string) : Error := Err_ ("adp udp: " ++ what ++ " errno=" ++ pretty (errno s)).
Definition EndpointLabel (ep : IpEndpoint) : string :=
  (default "?" (inet_ntop (AF_of (family ep)) (take (addr_bytes (family ep)) (addr ep))) ++ ":" ++ pretty (port ep))%string.

Definition CloseSocket (s : S) (u : OsUdpDatagramIo) : S * OsUdpDatagramIo :=
  if 0 <=? fd_ u then (sys_close s (fd_ u), u <| fd_ := -1 |>) else (s, u).
Definition OsUdp_destroy (s : S) (u : OsUdpDatagramIo) : S := (CloseSocket s u).1.

(** [ScopedNetAdmin]: what it saved, if it raised the capability. *)
Definition ScopedNetAdmin (s : S) : S * option (list CapWord) :=
  let '(s, got) := sys_capget s in
  match got with
  | None => (s, None)
  | Some saved =>
      match saved !! CAP_NET_ADMIN_index with
      | None => (s, None)
      | Some word =>
          if (Z.land (cap_permitted word) CAP_NET_ADMIN_mask =? 0) || negb (Z.land (cap_effective word) CAP_NET_ADMIN_mask =? 0) then (s, None)
          else
            let raised := <[CAP_NET_ADMIN_index :=
                              MkCapWord (Z.lor (cap_effective word) CAP_NET_ADMIN_mask) (cap_permitted word) (cap_inheritable word)]> saved in
            let '(s, rc) := sys_capset s raised in
            (s, if rc =? 0 then Some saved else None)
      end
  end.
Definition ScopedNetAdmin_leave (s : S) (saved : option (list CapWord)) : S :=
  match saved with Some saved => (sys_capset s saved).1 | None => s end.

Definition SetBuffer (s : S) (fd : Z) (option_ force_option : SockOpt) (bytes_ : Z) : S :=
  if bytes_ =? 0 then s
  else
    let value := Z.min bytes_ (INT32_MAX / 2) in
    let '(s, saved) := ScopedNetAdmin s in
    let '(s, forced) := sys_setsockopt s fd force_option value in
    let s := ScopedNetAdmin_leave s saved in
    if forced =? 0 then s else (sys_setsockopt s fd option_ value).1.
(** Linux reports twice what it grants. *)
Definition GetBuffer (s : S) (fd : Z) (option_ : SockOpt) : S * Z :=
  let '(s, got) := sys_getsockopt s fd option_ in
  (s, match got with Some value => Z.max 0 (Z.quot value 2) | None => 0 end).

Definition OpenSocket (s : S) (local : IpEndpoint) (options : UdpSocketOptions) : S * Roe (Z * IpEndpoint) :=
  let '(s, fd) := sys_socket s (AF_of (family local)) in
  if fd <? 0 then (s, Fail (IoErr s "socket"))
  else
    let s := sys_nonblock s fd in
    let s := SetBuffer s fd SO_RCVBUF SO_RCVBUFFORCE (receive_buffer_bytes options) in
    let s := SetBuffer s fd SO_SNDBUF SO_SNDBUFFORCE (send_buffer_bytes options) in
    let s := (sys_setsockopt s fd SO_RXQ_OVFL 1).1 in
    let s := match family local with V6 => (sys_setsockopt s fd IPV6_V6ONLY 0).1 | V4 => s end in
    let '(s, rc) := sys_bind s fd (ToSockAddr local) in
    if negb (rc =? 0) then let s := sys_close s fd in (s, Fail (IoErr s "bind"))
    else
      let '(s, bound) := sys_getsockname s fd in
      match bound with
      | None => let s := sys_close s fd in (s, Fail (IoErr s "getsockname"))
      | Some bound => (s, Ok (fd, FromSockAddr bound))
      end.
Definition Bind (s : S) (local : IpEndpoint) (options : UdpSocketOptions) : S * Roe OsUdpDatagramIo :=
  let '(s, opened) := OpenSocket s local options in
  (s, match opened with Ok (fd, bound) => Ok (MkOsUdp fd bound options 0 (-1)) | Fail e => Fail e end).
Definition Reopen (s : S) (u : OsUdpDatagramIo) : S * OsUdpDatagramIo * Roe unit :=
  let '(s, u) := CloseSocket s u in
  let '(s, opened) := OpenSocket s (local_ u) (options_ u) in
  match opened with
  | Fail e => (s, u, Fail e)
  | Ok (fd, _) => (s, u <| fd_ := fd |> <| receive_drops_ := -1 |>, Ok tt)
  end.

Definition unreachable_errno (err : Z) : bool :=
  (err =? EHOSTUNREACH) || (err =? ENETUNREACH) || (err =? EHOSTDOWN) || (err =? ENETDOWN).
Definition OsUdp_SendTo (s : S) (u : OsUdpDatagramIo) (peer : IpEndpoint) (datagram : bytes) : S * Roe unit :=
  if fd_ u <? 0 then (s, Fail (Err_ "adp udp: no socket (a reopen failed)"))
  else
    let '(s, n) := sys_sendto s (fd_ u) datagram (dest_addr (local_ u) peer) in
    if (n <? 0) || negb (n =? size datagram)
    then (s, Fail (MkError (if unreachable_errno (errno s) then kDatagramSendUnreachable else 0)
                     ("adp udp: sendto dst=" ++ EndpointLabel peer ++ " src=" ++ EndpointLabel (local_ u) ++ " errno=" ++ pretty (errno s))))
    else (s, Ok tt).
Definition OsUdp_Stats (s : S) (u : OsUdpDatagramIo) : S * DatagramIoStats :=
  let '(s, receive) := GetBuffer s (fd_ u) SO_RCVBUF in
  let '(s, send) := GetBuffer s (fd_ u) SO_SNDBUF in
  (s, MkDatagramIoStats receive send (if 0 <=? receive_drops_ u then Some (receive_drops_ u) else None)).
(** The kernel's counts of drops that came with a datagram. *)
Definition note_drops (u : OsUdpDatagramIo) (counts : list Z) : OsUdpDatagramIo :=
  let u := u <| receive_drops_ ::= fun d => default d (last (map u32 counts)) |> in
  if receive_drops_ u <? 0 then u <| receive_drops_ := 0 |> else u.
Definition OsUdp_RecvFrom (s : S) (u : OsUdpDatagramIo) : S * OsUdpDatagramIo * Roe (option (IpEndpoint * bytes)) :=
  if fd_ u <? 0 then (s, u, Fail (Err_ "adp udp: no socket (a reopen failed)"))
  else
    let u := u <| recv_scratch_ ::= Z.max 2048 |> in
    let '(s, got) := sys_recvmsg s (fd_ u) (recv_scratch_ u) in
    match got with
    | Some (buf, from, counts) => (s, note_drops u counts, Ok (Some (FromSockAddr from, buf)))
    | None => if errno s =? EAGAIN then (s, u, Ok None) else (s, u, Fail (IoErr s "recvfrom"))
    end.

(** The interface of the endpoint. *)
#[export] Instance OsUdp_DatagramIo : DatagramIo (S * OsUdpDatagramIo) := {|
  SendTo := fun io peer datagram => let '(s, r) := OsUdp_SendTo io.1 io.2 peer datagram in ((s, io.2), r);
  RecvFrom := fun io => OsUdp_RecvFrom io.1 io.2;
|}.
End OsUdp.

(** ** What the system says of its calls *)

Definition caps_within (w : CapWord) : Prop := Z.land (cap_effective w) (cap_permitted w) = cap_effective w.
(** A thread may set any effective capabilities among those permitted. *)
Definition caps_may (old new : CapWord) : Prop :=
  cap_permitted new = cap_permitted old /\ cap_inheritable new = cap_inheritable old /\ caps_within new.

(** The descriptors open in the process, and the capabilities of the thread. *)
Class KernelView (S : Type) := {
  open_fds : S -> gset Z;
  thread_caps : S -> list CapWord;
}.
Definition same_process {S} `{KernelView S} (s s' : S) : Prop := open_fds s' = open_fds s /\ thread_caps s' = thread_caps s.
#[export] Instance same_process_preorder {S} `{KernelView S} : PreOrder same_process.
Proof. split; [by intros s|]. intros s1 s2 s3 [O1 C1] [O2 C2]. split; congruence. Qed.
Class KernelLaws (S : Type) `{Kernel S, KernelView S} := {
  law_socket s f : let '(s', fd) := sys_socket s f in
    thread_caps s' = thread_caps s
    /\ if fd <? 0 then open_fds s' = open_fds s else fd ∉ open_fds s /\ open_fds s' = {[fd]} ∪ open_fds s;
  law_close s fd : open_fds (sys_close s fd) = open_fds s ∖ {[fd]} /\ thread_caps (sys_close s fd) = thread_caps s;
  law_nonblock s fd : same_process s (sys_nonblock s fd);
  law_setsockopt s fd o v : same_process s (sys_setsockopt s fd o v).1;
  law_getsockopt s fd o : same_process s (sys_getsockopt s fd o).1;
  law_bind s fd a : same_process s (sys_bind s fd a).1;
  law_getsockname s fd : same_process s (sys_getsockname s fd).1;
  law_sendto s fd d a : same_process s (sys_sendto s fd d a).1;
  law_recvmsg s fd n : same_process s (sys_recvmsg s fd n).1;
  law_capget s : same_process s (sys_capget s).1 /\ forall c, (sys_capget s).2 = Some c -> c = thread_caps s;
  law_capset s c : open_fds (sys_capset s c).1 = open_fds s
    /\ thread_caps (sys_capset s c).1 = if (sys_capset s c).2 =? 0 then c else thread_caps s;
  law_caps s : Forall caps_within (thread_caps s);
  law_caps_may s c : Forall2 caps_may (thread_caps s) c -> (sys_capset s c).2 = 0;
}.

Section Laws.
Context {S : Type} `{KernelLaws S}.

(** The capability is given back, whatever was done with it in between. *)
Lemma net_admin_restored (s : S) (f : S -> S) : (forall s, same_process s (f s)) ->
  let '(s1, saved) := ScopedNetAdmin s in same_process s (ScopedNetAdmin_leave (f s1) saved).
Proof.
  intros Hf. unfold ScopedNetAdmin. pose proof (law_capget s) as [Hg Hc]. destruct (sys_capget s) as [s1 got]. cbn [fst snd] in *.
  destruct got as [saved|]; [|etrans; [exact Hg|apply Hf]]. specialize (Hc saved eq_refl).
  destruct (saved !! CAP_NET_ADMIN_index) as [word|] eqn:Hw; [|etrans; [exact Hg|apply Hf]].
  destruct (_ || _); [etrans; [exact Hg|apply Hf]|]. set (raised := <[_ := _]> saved).
  pose proof (law_capset s1 raised) as [O1 C1]. destruct (sys_capset s1 raised) as [s2 rc]. cbn [fst snd] in *. destruct Hg as [O0 C0].
  destruct (Hf s2) as [O2 C2]. destruct (rc =? 0); cbn [ScopedNetAdmin_leave]; [|split; congruence].
  pose proof (law_capset (f s2) saved) as [O3 C3]. rewrite (law_caps_may (f s2) saved) in C3.
  - split; [by rewrite O3, O2, O1, O0|by rewrite C3, Hc].
  - rewrite C2, C1. pose proof (law_caps s) as Hin. rewrite <- Hc in Hin. clear -Hw Hin. subst raised. revert Hw.
    unfold CAP_NET_ADMIN_index. destruct Hin as [|w ws Hw' Hin]; [done|]. intros [= ->]. cbn. constructor; [done|].
    clear Hw'. induction Hin; constructor; done.
Qed.
Lemma SetBuffer_keeps (s : S) fd o fo n : same_process s (SetBuffer s fd o fo n).
Proof.
  unfold SetBuffer. destruct (n =? 0); [done|]. cbv zeta. set (value := Z.min _ _).
  pose proof (net_admin_restored s (fun s => (sys_setsockopt s fd fo value).1) (fun s => law_setsockopt s fd fo value)) as Hr.
  destruct (ScopedNetAdmin s) as [s1 saved]. destruct (sys_setsockopt s1 fd fo value) as [s2 forced]. cbn [fst] in Hr.
  destruct (forced =? 0); [done|]. etrans; [exact Hr|apply law_setsockopt].
Qed.

(** The socket that is opened, or none. *)
Definition opened_one (s s' : S) (fd : Z) : Prop :=
  thread_caps s' = thread_caps s /\ 0 <= fd /\ fd ∉ open_fds s /\ open_fds s' = {[fd]} ∪ open_fds s.
Lemma opened_then (s s1 s2 : S) fd : opened_one s s1 fd -> same_process s1 s2 -> opened_one s s2 fd.
Proof. intros (C1 & Hfd & Hn & O1) [O2 C2]. split_and!; congruence. Qed.
Lemma opened_closed (s s1 : S) fd : opened_one s s1 fd -> same_process s (sys_close s1 fd).
Proof. intros (C1 & _ & Hn & O1). destruct (law_close s1 fd) as [O2 C2]. split; [rewrite O2, O1; set_solver|congruence]. Qed.
Lemma OpenSocket_opens (s : S) local options :
  let '(s', r) := OpenSocket s local options in
  match r with Ok (fd, _) => opened_one s s' fd | Fail _ => same_process s s' end.
Proof.
  unfold OpenSocket. pose proof (law_socket s (AF_of (family local))) as Hs. destruct (sys_socket s _) as [s1 fd].
  destruct Hs as [C1 Hs]. destruct (Z.ltb_spec fd 0) as [|Hfd]; [done|]. destruct Hs as [Hn O1]. cbv zeta.
  assert (Hi : opened_one s s1 fd) by done. clear C1 Hn O1.
  pose proof (opened_then _ _ _ _ Hi (law_nonblock s1 fd)) as H2'.
  pose proof (opened_then _ _ _ _ H2' (SetBuffer_keeps _ fd SO_RCVBUF SO_RCVBUFFORCE (receive_buffer_bytes options))) as H3'.
  pose proof (opened_then _ _ _ _ H3' (SetBuffer_keeps _ fd SO_SNDBUF SO_SNDBUFFORCE (send_buffer_bytes options))) as H4'.
  pose proof (opened_then _ _ _ _ H4' (law_setsockopt _ fd SO_RXQ_OVFL 1)) as H5'. set (s5 := (sys_setsockopt _ fd SO_RXQ_OVFL 1).1) in *.
  set (s6 := match family local with V4 => s5 | V6 => _ end).
  assert (H6' : opened_one s s6 fd) by (unfold s6; destruct (family local); [done|by apply (opened_then _ _ _ _ H5'), law_setsockopt]).
  clearbody s6. pose proof (opened_then _ _ _ _ H6' (law_bind s6 fd (ToSockAddr local))) as H7'. destruct (sys_bind s6 fd _) as [s7 rc]. cbn [fst] in H7'.
  destruct (negb (rc =? 0)); [by apply opened_closed|].
  pose proof (opened_then _ _ _ _ H7' (law_getsockname s7 fd)) as H8'. destruct (sys_getsockname s7 fd) as [s8 [bound|]]; [done|]. by apply opened_closed.
Qed.

(** ** Runs of a socket *)

Inductive udp_op := UdpSend (peer : IpEndpoint) (datagram : bytes) | UdpRecv | UdpReopen | UdpStats.
Definition udp_step (io : S * OsUdpDatagramIo) (o : udp_op) : S * OsUdpDatagramIo :=
  match o with
  | UdpSend peer datagram => (SendTo io peer datagram).1
  | UdpRecv => (RecvFrom io).1
  | UdpReopen => (Reopen io.1 io.2).1
  | UdpStats => ((OsUdp_Stats io.1 io.2).1, io.2)
  end.
(** Of the sockets of the process, the object has its own and no other. *)
Definition owns (u : OsUdpDatagramIo) : gset Z := if 0 <=? fd_ u then {[fd_ u]} else ∅.
Record holds_one (s0 : S) (io : S * OsUdpDatagramIo) : Prop := {
  ho_caps : thread_caps io.1 = thread_caps s0;
  ho_open : open_fds io.1 = owns io.2 ∪ open_fds s0;
  ho_new : owns io.2 ## open_fds s0;
}.
Lemma holds_same s0 s s' u u' : holds_one s0 (s, u) -> same_process s s' -> fd_ u' = fd_ u -> holds_one s0 (s', u').
Proof. intros [Hc Ho Hn] [O C] Ef. unfold owns in *. split; cbn in *; unfold owns; rewrite ?Ef, ?O, ?C; done. Qed.
Lemma CloseSocket_closes s0 s u : holds_one s0 (s, u) ->
  let '(s', u') := CloseSocket s u in same_process s0 s' /\ fd_ u' < 0 /\ local_ u' = local_ u /\ options_ u' = options_ u.
Proof.
  intros [Hc Ho Hn]. cbn in *. unfold CloseSocket, owns in *. destruct (Z.leb_spec 0 (fd_ u)).
  - destruct (law_close s (fd_ u)) as [O C]. split_and!; try done. split; [rewrite O, Ho; set_solver|congruence].
  - split_and!; try done. split; [rewrite Ho; set_solver|done].
Qed.
Lemma opened_holds s0 s fd u : opened_one s0 s fd -> fd_ u = fd -> holds_one s0 (s, u).
Proof.
  intros (Hc & Hfd & Hn & Ho) Ef. unfold owns. split; cbn; unfold owns; rewrite ?Ef, ?(proj2 (Z.leb_le 0 fd) Hfd); [done|done|set_solver].
Qed.
Lemma GetBuffer_keeps (s : S) fd o : same_process s (GetBuffer s fd o).1.
Proof. unfold GetBuffer. pose proof (law_getsockopt s fd o) as Hs. by destruct (sys_getsockopt s fd o). Qed.
Lemma Reopen_holds s0 s u : holds_one s0 (s, u) -> holds_one s0 (Reopen s u).1.
Proof.
  intros Hi. unfold Reopen. apply CloseSocket_closes in Hi. destruct (CloseSocket s u) as [s1 u1]. destruct Hi as (Hs & Hfd & _ & _).
  pose proof (OpenSocket_opens s1 (local_ u1) (options_ u1)) as Ho. destruct (OpenSocket s1 _ _) as [s2 [[fd bound]|e]]; cbn [fst].
  - destruct Ho as (Hc & Hpos & Hn & Ho). destruct Hs as [O1 C1]. apply (opened_holds _ _ fd); [split_and!; congruence|done].
  - assert (Hs' : same_process s0 s2) by (by etrans). destruct Hs' as [O C].
    split; cbn; unfold owns; rewrite ?(proj2 (Z.leb_gt 0 (fd_ u1)) Hfd); [done|rewrite O; set_solver|set_solver].
Qed.
Lemma udp_step_holds s0 io o : holds_one s0 io -> holds_one s0 (udp_step io o).
Proof.
  destruct io as [s u]. intros Hi. destruct o; cbn [udp_step fst snd].
  - cbn. unfold OsUdp_SendTo. destruct (fd_ u <? 0); [done|]. pose proof (law_sendto s (fd_ u) datagram (dest_addr (local_ u) peer)) as Hs.
    destruct (sys_sendto s _ _ _) as [s1 n]. destruct (_ || _); by apply (holds_same s0 s _ u).
  - cbn. unfold OsUdp_RecvFrom. destruct (fd_ u <? 0); [done|]. cbv zeta. set (u1 := u <| recv_scratch_ ::= _ |>).
    pose proof (law_recvmsg s (fd_ u1) (recv_scratch_ u1)) as Hs. destruct (sys_recvmsg s _ _) as [s1 [[[buf from] counts]|]].
    + apply (holds_same s0 s _ u); [done|done|]. unfold note_drops. cbv zeta. by destruct (_ <? 0).
    + destruct (errno s1 =? EAGAIN); by apply (holds_same s0 s _ u).
  - by apply Reopen_holds.
  - apply (holds_same s0 s _ u); [done| |done]. unfold OsUdp_Stats. pose proof (GetBuffer_keeps s (fd_ u) SO_RCVBUF) as H1'.
    destruct (GetBuffer s _ _) as [s1 n1]. pose proof (GetBuffer_keeps s1 (fd_ u) SO_SNDBUF) as H2'. destruct (GetBuffer s1 _ _) as [s2 n2]. by etrans.
Qed.

(** C29: no socket leaks, and no capability stays raised.  From the moment a socket is
    bound, whatever is sent, received, reopened, and whatever the system refuses, the
    descriptors open in the process are those open before and the one the object
    names, if it names one; when the object goes they are those open before.  A bind
    that fails, at whatever call, leaves none.  The thread has at any time the
    capabilities it had. *)
Theorem sockets_never_leak (s : S) (local : IpEndpoint) (options : UdpSocketOptions) (ops : list udp_op) :
  let '(s1, bound) := Bind s local options in
  match bound with
  | Fail _ => open_fds s1 = open_fds s /\ thread_caps s1 = thread_caps s
  | Ok u =>
      let '(s2, u2) := fold_left udp_step ops (s1, u) in
      open_fds s2 = owns u2 ∪ open_fds s /\ owns u2 ## open_fds s /\ thread_caps s2 = thread_caps s
      /\ open_fds (OsUdp_destroy s2 u2) = open_fds s
  end.
Proof.
  unfold Bind. pose proof (OpenSocket_opens s local options) as Ho. destruct (OpenSocket s local options) as [s1 [[fd bound]|e]]; [|done].
  assert (Hi : forall ops io, holds_one s io -> holds_one s (fold_left udp_step ops io)).
  { intros l. induction l as [|o l IH]; intros io Hio; [done|]. cbn [fold_left]. by apply IH, udp_step_holds. }
  specialize (Hi ops (s1, MkOsUdp fd bound options 0 (-1)) (opened_holds _ _ fd (MkOsUdp fd bound options 0 (-1)) Ho eq_refl)). destruct (fold_left _ _ _) as [s2 u2].
  pose proof (CloseSocket_closes _ _ _ Hi) as Hc. destruct Hi as [C O D]. split_and!; [done|done|done|].
  unfold OsUdp_destroy. destruct (CloseSocket s2 u2) as [s3 u3]. apply Hc.
Qed.
End Laws.

(** ** Addresses, there and back *)

Record endpoint_proper (ep : IpEndpoint) : Prop := {
  ep_addr : length (addr ep) = 16%nat;
  ep_port : 0 <= port ep < 2 ^ 16;
}.
(** A [sockaddr] that is no IPv4 address in IPv6 form. *)
Record sockaddr_plain (ss : SockAddr) : Prop := {
  sp_port : 0 <= sa_port ss < 2 ^ 16;
  sp_addr : length (sa_addr ss) = addr_bytes (match sa_family ss with AF_INET => V4 | AF_INET6 => V6 end);
  sp_scope : sa_family ss = AF_INET -> sa_scope ss = 0;
  sp_mapped : sa_family ss = AF_INET6 -> v4_mapped (sa_addr ss) = false;
}.
(** The form the dial book keeps. *)
Definition unmapped (ep : IpEndpoint) : IpEndpoint :=
  if bool_decide (family ep = V6) && v4_mapped (addr ep)
  then IpEndpoint_V4 (at_ (addr ep) 12) (at_ (addr ep) 13) (at_ (addr ep) 14) (at_ (addr ep) 15) (port ep) else ep.

Lemma htons_twice p : 0 <= p < 2 ^ 16 -> htons (htons p) = p.
Proof.
  intros Hp. unfold htons. set (l := le_bytes 2 p). assert (Hl : bytes_ok (rev l)) by (apply Forall_rev, le_bytes_ok).
  change 2%nat with (length (rev l)). rewrite (le_bytes_value _ Hl), rev_involutive. unfold l. rewrite le_value_bytes. by apply Z.mod_small.
Qed.
Lemma v4_eqb a b c d p rest scope : endpoint_eqb (IpEndpoint_V4 a b c d p) (MkIpEndpoint V4 (a :: b :: c :: d :: rest) p scope) = true.
Proof. unfold endpoint_eqb. cbn. rewrite Z.eqb_refl. by apply bool_decide_eq_true. Qed.
Lemma endpoint_eqb_refl ep : endpoint_eqb ep ep = true.
Proof. unfold endpoint_eqb. rewrite (bool_decide_true (family ep = family ep)), !Z.eqb_refl, andb_false_r by done. by apply bool_decide_eq_true. Qed.
Lemma sent_to_peer (local peer : IpEndpoint) : endpoint_proper peer ->
  endpoint_eqb (FromSockAddr (dest_addr local peer)) (unmapped peer) = true.
Proof.
  intros [Ha Hp]. destruct peer as [[] a p scope]; cbn in Ha, Hp.
  - do 4 (destruct a as [|? a]; [discriminate|]). unfold unmapped, dest_addr. cbn [family]. rewrite (bool_decide_false (V4 = V6)) by done.
    rewrite (bool_decide_true (V4 = V4)) by done. destruct (bool_decide (family local = V6)); cbn [andb].
    + unfold FromSockAddr. cbn [sa_family sa_addr sa_port port]. unfold v4_mapped. rewrite bool_decide_true by done. rewrite htons_twice by done. apply v4_eqb.
    + unfold FromSockAddr, ToSockAddr. cbn [sa_family sa_addr sa_port family port]. rewrite htons_twice by done. apply v4_eqb.
  - unfold unmapped, dest_addr. cbn [family]. rewrite (bool_decide_false (V6 = V4)) by done. rewrite andb_false_r, (bool_decide_true (V6 = V6)) by done.
    unfold ToSockAddr, FromSockAddr. cbn [andb family port addr scope_id sa_family sa_addr sa_port sa_scope]. rewrite htons_twice by done.
    destruct (v4_mapped a); apply endpoint_eqb_refl.
Qed.

(** An address goes to the system and back.  The [sockaddr] a datagram is sent to
    reads back as the peer it was meant for (an IPv4 peer whichever the socket; one
    in IPv6 form as the IPv4 peer it is), a socket of both stacks being given IPv6
    addresses only; and the address of a datagram received is, as a destination,
    the [sockaddr] it came from. *)
Theorem sockaddr_roundtrip (local peer : IpEndpoint) (ss : SockAddr) :
  endpoint_proper peer -> sockaddr_plain ss ->
  endpoint_eqb (FromSockAddr (dest_addr local peer)) (unmapped peer) = true
  /\ (family local = V6 -> sa_family (dest_addr local peer) = AF_INET6)
  /\ ToSockAddr (FromSockAddr ss) = ss.
Proof.
  intros Hpeer [Hsp Hsa Hss Hsm]. split_and!.
  - by apply sent_to_peer.
  - intros Hl. unfold dest_addr, ToSockAddr. rewrite Hl. by destruct (family peer).
  - destruct ss as [[] p a scope]; cbn in Hsp, Hsa, Hss, Hsm.
    + rewrite (Hss eq_refl). do 4 (destruct a as [|? a]; [discriminate|]). destruct a; [|discriminate].
      unfold FromSockAddr, ToSockAddr. cbn -[htons]. by rewrite htons_twice.
    + unfold FromSockAddr. cbn [sa_family sa_addr]. rewrite Hsm by done. unfold ToSockAddr. cbn -[htons]. by rewrite htons_twice.
Qed.

(** ** What a send and a receive answer *)

Section Answers.
Context {S : Type} `{Kernel S}.

Lemma noted_drops u counts :
  fd_ (note_drops u counts) = fd_ u /\ receive_drops_ (note_drops u counts) = default (Z.max 0 (receive_drops_ u)) (last (map u32 counts))
  /\ 0 <= receive_drops_ (note_drops u counts).
Proof.
  unfold note_drops. cbv zeta. cbn [receive_drops_ set_field]. destruct (last (map u32 counts)) as [c|] eqn:Hc; cbn [default from_option]; unfold Datatypes.id.
  - assert (Hpos : 0 <= c). { apply last_Some_elem_of, list_elem_of_fmap in Hc as (x & -> & _). apply u32_range. }
    rewrite (proj2 (Z.ltb_ge c 0)) by lia. done.
  - destruct (Z.ltb_spec (receive_drops_ u) 0); cbn; split_and!; try done; lia.
Qed.
Lemma stats_drops (s : S) u : st_receive_drops (OsUdp_Stats s u).2 = if 0 <=? receive_drops_ u then Some (receive_drops_ u) else None.
Proof. unfold OsUdp_Stats. destruct (GetBuffer s _ _) as [s1 n1]. by destruct (GetBuffer s1 _ _) as [s2 n2]. Qed.

(** A send and a receive, on every branch.  Without a socket both fail and the
    system is not called.  A send succeeds if the system took the whole datagram;
    else it fails, as unreachable exactly when the error is one of the four that say
    the host or the network cannot be reached.  A receive gives the datagram and its
    sender, nothing when there is none, or the error; what it tells of drops is the
    last count that came, 0 when none ever did. *)
Theorem udp_answers (s : S) (u : OsUdpDatagramIo) (peer : IpEndpoint) (datagram : bytes) :
  (fd_ u < 0 -> OsUdp_SendTo s u peer datagram = (s, Fail (Err_ "adp udp: no socket (a reopen failed)"))
     /\ OsUdp_RecvFrom s u = (s, u, Fail (Err_ "adp udp: no socket (a reopen failed)")))
  /\ (0 <= fd_ u ->
      let '(s1, n) := sys_sendto s (fd_ u) datagram (dest_addr (local_ u) peer) in
      (OsUdp_SendTo s u peer datagram).1 = s1
      /\ match (OsUdp_SendTo s u peer datagram).2 with
         | Ok _ => n = size datagram
         | Fail e => n <> size datagram
             /\ (IsUnreachableSendError e = true <-> errno s1 ∈ [EHOSTUNREACH; ENETUNREACH; EHOSTDOWN; ENETDOWN])
         end)
  /\ (0 <= fd_ u ->
      let '(s1, got) := sys_recvmsg s (fd_ u) (Z.max 2048 (recv_scratch_ u)) in
      let '(s2, u2, r) := OsUdp_RecvFrom s u in
      s2 = s1 /\ fd_ u2 = fd_ u
      /\ match got with
         | Some (buf, from, counts) => r = Ok (Some (FromSockAddr from, buf))
             /\ st_receive_drops (OsUdp_Stats s2 u2).2 = Some (default (Z.max 0 (receive_drops_ u)) (last (map u32 counts)))
         | None => if errno s1 =? EAGAIN then r = Ok None else r = Fail (IoErr s1 "recvfrom")
         end).
Proof.
  split_and!.
  - intros Hfd. unfold OsUdp_SendTo, OsUdp_RecvFrom. by rewrite (proj2 (Z.ltb_lt _ _) Hfd).
  - intros Hfd. unfold OsUdp_SendTo. rewrite (proj2 (Z.ltb_ge _ _) Hfd). destruct (sys_sendto _ _ _ _) as [s1 n].
    pose proof (size_nonneg datagram) as Hsz. destruct (Z.ltb_spec n 0); [|destruct (Z.eqb_spec n (size datagram))]; cbn [orb negb fst snd]; [|done|];
      (split; [done|]; split; [lia|]); unfold IsUnreachableSendError; cbn [error_code]; unfold unreachable_errno;
      rewrite !elem_of_cons, elem_of_nil; destruct (Z.eqb_spec (errno s1) EHOSTUNREACH), (Z.eqb_spec (errno s1) ENETUNREACH),
        (Z.eqb_spec (errno s1) EHOSTDOWN), (Z.eqb_spec (errno s1) ENETDOWN); cbn; naive_solver.
  - intros Hfd. unfold OsUdp_RecvFrom. rewrite (proj2 (Z.ltb_ge _ _) Hfd). cbv zeta. cbn [recv_scratch_ fd_ set_field].
    destruct (sys_recvmsg s _ _) as [s1 [[[buf from] counts]|]]; [|by destruct (errno s1 =? EAGAIN)].
    destruct (noted_drops (u <| recv_scratch_ ::= Z.max 2048 |>) counts) as (Hf & Hd & Hpos). split_and!; [done|exact Hf|done|].
    rewrite stats_drops, (proj2 (Z.leb_le _ _) Hpos). by rewrite Hd.
Qed.
End Answers.

(** ** Witnesses *)

(** A small system: port 7 is taken, port 80 not to be reached, and a buffer forced
    by a thread that has the capability only. *)
Record ToyKernel := MkToyKernel { tk_open : list Z; tk_caps : list CapWord; tk_errno : Z }.
#[export] Instance ToyKernel_fields : Fields ToyKernel := fun k => MkToyKernel (tk_open k) (tk_caps k) (tk_errno k).
Definition clip (w : CapWord) : CapWord := MkCapWord (Z.land (cap_effective w) (cap_permitted w)) (cap_permitted w) (cap_inheritable w).
Definition toy_caps (k : ToyKernel) : list CapWord := map clip (tk_caps k).
Definition toy_fresh (k : ToyKernel) : Z := 1 + foldr Z.max 2 (tk_open k).
#[local] Instance caps_within_dec w : Decision (caps_within w) := ltac:(unfold caps_within; apply _).
#[local] Instance caps_may_dec old new : Decision (caps_may old new) := ltac:(unfold caps_may; apply _).
Definition toy_capset (k : ToyKernel) (c : list CapWord) : ToyKernel * Z :=
  if bool_decide (Forall2 caps_may (toy_caps k) c) then (k <| tk_caps := c |>, 0) else (k <| tk_errno := 1 |>, -1).
Definition toy_may_force (k : ToyKernel) : bool :=
  match toy_caps k with w :: _ => negb (Z.land (cap_effective w) CAP_NET_ADMIN_mask =? 0) | [] => false end.
Definition toy_kernel : Kernel ToyKernel := {|
  errno := tk_errno;
  sys_socket := fun k _ => (k <| tk_open ::= cons (toy_fresh k) |>, toy_fresh k);
  sys_nonblock := fun k _ => k;
  sys_setsockopt := fun k _ o _ => match o with
                                   | SO_RCVBUFFORCE | SO_SNDBUFFORCE => (k, if toy_may_force k then 0 else -1)
                                   | _ => (k, 0)
                                   end;
  sys_getsockopt := fun k _ _ => (k, Some 4096);
  sys_bind := fun k _ a => if sa_port a =? htons 7 then (k <| tk_errno := 98 |>, -1) else (k, 0);
  sys_getsockname := fun k _ => (k, Some (MkSockAddr AF_INET (htons 7777) [127; 0; 0; 1] 0));
  sys_close := fun k fd => k <| tk_open ::= filter (fun x => x <> fd) |>;
  sys_sendto := fun k _ d a => if sa_port a =? htons 80 then (k <| tk_errno := ENETUNREACH |>, -1) else (k, size d);
  sys_recvmsg := fun k _ _ => (k <| tk_errno := EAGAIN |>, None);
  sys_capget := fun k => (k, Some (toy_caps k));
  sys_capset := toy_capset;
  inet_ntop := fun _ _ => None;
|}.
#[export] Instance toy_kernel_view : KernelView ToyKernel := {| open_fds := fun k => list_to_set (tk_open k); thread_caps := toy_caps |}.
Lemma clip_within w : caps_within (clip w).
Proof. unfold caps_within, clip. cbn. by rewrite <- Z.land_assoc, Z.land_diag. Qed.
Lemma clip_id c : Forall caps_within c -> map clip c = c.
Proof. induction 1 as [|[e p i] c Hw _ IH]; [done|]. cbn [map]. rewrite IH. unfold caps_within, clip in *. cbn in *. by rewrite Hw. Qed.
Lemma may_within old new : Forall2 caps_may old new -> Forall caps_within new.
Proof. induction 1 as [|x y old new (_ & _ & Hw) _ IH]; by constructor. Qed.
Lemma toy_fresh_new k : toy_fresh k ∉ tk_open k.
Proof.
  unfold toy_fresh. enough (Hmax : forall x, x ∈ tk_open k -> x <= foldr Z.max 2 (tk_open k)) by (intros Hin; apply Hmax in Hin; lia).
  induction (tk_open k) as [|y l IH]; intros x Hin; [by apply not_elem_of_nil in Hin|]. cbn. apply elem_of_cons in Hin as [->|Hin]; [lia|]. apply IH in Hin. lia.
Qed.
Lemma toy_kernel_laws : @KernelLaws ToyKernel toy_kernel toy_kernel_view.
Proof.
  split; cbn; try done.
  - intros k _. split; [done|]. assert (Hpos : 0 <= toy_fresh k).
    { unfold toy_fresh. enough (2 <= foldr Z.max 2 (tk_open k)) by lia. induction (tk_open k); cbn; lia. }
    rewrite (proj2 (Z.ltb_ge _ 0) Hpos). split; [|done]. rewrite elem_of_list_to_set. apply toy_fresh_new.
  - intros k fd. split; [|done]. apply set_eq. intros x. rewrite elem_of_difference, elem_of_singleton, !elem_of_list_to_set, list_elem_of_filter. naive_solver.
  - intros k fd [] v; done.
  - intros k fd a. by destruct (_ =? _).
  - intros k fd d a. by destruct (_ =? _).
  - intros k. split; [done|]. by intros c [= <-].
  - intros k c. unfold toy_capset. case_bool_decide as Hc; [|done]. split; [done|]. unfold toy_caps. cbn. by apply clip_id, (may_within _ _ Hc).
  - intros k. unfold toy_caps. induction (tk_caps k); constructor; [apply clip_within|done].
  - intros k c Hc. unfold toy_capset. by rewrite bool_decide_true.
Qed.

Section Witness.
#[local] Existing Instance toy_kernel.
#[local] Existing Instance toy_kernel_laws.
(** A process with three descriptors, that may raise the capability. *)
Definition toy_process : ToyKernel := MkToyKernel [0; 1; 2] [MkCapWord 0 CAP_NET_ADMIN_mask 0; MkCapWord 0 0 0] 0.
Definition toy_options : UdpSocketOptions := MkUdpSocketOptions 4194304 0.
Definition toy_socket_ops : list udp_op :=
  [UdpSend (IpEndpoint_V4 10 0 0 7 80) [1; 2]; UdpRecv; UdpReopen; UdpStats].
Theorem sockets_never_leak_witness :
  tk_open (Bind toy_process (IpEndpoint_V4 0 0 0 0 0) toy_options).1 = [3; 0; 1; 2]
  /\ (let '(s1, bound) := Bind toy_process (IpEndpoint_V4 0 0 0 0 0) toy_options in
      match bound with
      | Fail _ => False
      | Ok u => let '(s2, u2) := fold_left udp_step toy_socket_ops (s1, u) in
          fd_ u2 = 3 /\ open_fds (OsUdp_destroy s2 u2) = open_fds toy_process /\ thread_caps s2 = thread_caps toy_process
      end)
  /\ open_fds (Bind toy_process (IpEndpoint_V4 0 0 0 0 7) toy_options).1 = open_fds toy_process.
Proof.
  split; [by vm_compute|]. split.
  - pose proof (sockets_never_leak toy_process (IpEndpoint_V4 0 0 0 0 0) toy_options toy_socket_ops) as Hn.
    destruct (Bind _ _ _) as [s1 [u|e]] eqn:Hb; [|by vm_compute in Hb]. destruct (fold_left _ _ _) as [s2 u2] eqn:Hf.
    destruct Hn as (_ & _ & Hc & Ho). split; [|done]. clear Hc Ho. vm_compute in Hb. injection Hb as <- <-. vm_compute in Hf. by injection Hf as _ <-.
  - pose proof (sockets_never_leak toy_process (IpEndpoint_V4 0 0 0 0 7) toy_options []) as Hn.
    destruct (Bind _ _ _) as [s1 [u|e]] eqn:Hb; [by vm_compute in Hb|]. apply Hn.
Defined.

Theorem sockaddr_roundtrip_witness :
  endpoint_eqb (FromSockAddr (dest_addr (IpEndpoint_V6 (zeros 16) 1 0) (IpEndpoint_V4 10 0 0 7 7777))) (IpEndpoint_V4 10 0 0 7 7777) = true
  /\ ToSockAddr (FromSockAddr (MkSockAddr AF_INET6 (htons 443) (254 :: 128 :: zeros 13 ++ [1]) 3)) = MkSockAddr AF_INET6 (htons 443) (254 :: 128 :: zeros 13 ++ [1]) 3.
Proof.
  destruct (sockaddr_roundtrip (IpEndpoint_V6 (zeros 16) 1 0) (IpEndpoint_V4 10 0 0 7 7777) (MkSockAddr AF_INET6 (htons 443) (254 :: 128 :: zeros 13 ++ [1]) 3)) as (Hp & _ & Hs).
  - by split.
  - split; [by vm_compute|done|done|by vm_compute].
  - split; [exact Hp|exact Hs].
Defined.
End Witness.
