(* ===== verification/HostResolver.v ===== *)
(** * Host names (src/link/HostResolver.cpp)

    [ResolveHostNow] over what the system's [getaddrinfo] answers, and the resolver
    that runs a lookup per thread: a thread is a lookup that has not ended, it ends
    at any time and in any order, and hands its answer on unless the resolver is
    gone by then. *)

From S2P Require Import Prelude L1Types AdpMultiaddr OsUdp.

(** ** One lookup *)

(** [addrinfo]: a family that is neither of the two is none. *)
Record AddrInfo := MkAddrInfo { ai_family : option AddrFamily; ai_addrlen : Z; ai_addr : SockAddr }.
(** [getaddrinfo] at the time of the call: its code, and the list it gives. *)
Definition GetAddrInfo : Type := string -> option AddrFamily -> Z * list AddrInfo.

Definition sizeof_sockaddr_in : Z := 16.
Definition sizeof_sockaddr_in6 : Z := 28.
Definition hint_of (family : HostFamily) : option AddrFamily :=
  match family with HostV4 => Some AF_INET | HostV6 => Some AF_INET6 | HostAny => None end.
(** A C string ends at its first NUL. *)
Fixpoint c_str (s : string) : string :=
  match s with
  | String c s => if bool_decide (c = Ascii.zero) then EmptyString else String c (c_str s)
  | EmptyString => EmptyString
  end.
(** The endpoint an entry gives, if it is usable. *)
Definition usable (port : Z) (ai : AddrInfo) : option IpEndpoint :=
  match ai_family ai with
  | Some AF_INET => if sizeof_sockaddr_in <=? ai_addrlen ai then Some (MkIpEndpoint V4 (take 4 (sa_addr (ai_addr ai)) ++ zeros 12) port 0) else None
  | Some AF_INET6 => if sizeof_sockaddr_in6 <=? ai_addrlen ai then Some (MkIpEndpoint V6 (sa_addr (ai_addr ai)) port (u32 (sa_scope (ai_addr ai)))) else None
  | None => None
  end.
Fixpoint first_usable (port : Z) (results : list AddrInfo) : option IpEndpoint :=
  match results with
  | [] => None
  | ai :: results => match usable port ai with Some ep => Some ep | None => first_usable port results end
  end.
Definition ResolveHostNow (net : GetAddrInfo) (host : string) (family : HostFamily) (port : Z) : Roe IpEndpoint :=
  let '(rc, results) := net (c_str host) (hint_of family) in
  if negb (rc =? 0) || bool_decide (results = []) then Fail (Err_ ("amp addr: cannot resolve " ++ host))
  else match first_usable port results with
  | Some ep => Ok ep
  | None => Fail (Err_ ("amp addr: " ++ host ++ " has no usable address"))
  end.

(** ** The resolver *)

Record LookupJob := MkLookupJob { lj_host : string; lj_family : HostFamily; lj_port : Z; lj_done : nat }.
#[export] Instance LookupJob_eq_dec : EqDecision LookupJob.
Proof. solve_decision. Defined.
Definition Lookup : Type := GetAddrInfo -> string -> HostFamily -> Z -> Roe IpEndpoint.
Record HostResolver := MkHostResolver {
  hr_post : bool;                            (* sink_->post is set *)
  hr_lookup : Lookup;
  hr_threads : list LookupJob;
  hr_posted : list (nat * Roe IpEndpoint);   (* what was handed to post, in order *)
}.
#[export] Instance HostResolver_fields : Fields HostResolver := fun r =>
  MkHostResolver (hr_post r) (hr_lookup r) (hr_threads r) (hr_posted r).
Definition HostResolver_new (lookup : option Lookup) : HostResolver :=
  MkHostResolver true (default ResolveHostNow lookup) [] [].
Definition HostResolver_destroy (r : HostResolver) : HostResolver := r <| hr_post := false |>.
Definition Resolve (r : HostResolver) (host : string) (family : HostFamily) (port : Z) (done_ : nat) : HostResolver :=
  r <| hr_threads ::= fun l => l ++ [MkLookupJob host family port done_] |>.
(** The thread at [i] ends, the network being as it is then. *)
Definition thread_ends (net : GetAddrInfo) (r : HostResolver) (i : nat) : HostResolver :=
  match hr_threads r !! i with
  | Some job =>
      let result := hr_lookup r net (lj_host job) (lj_family job) (lj_port job) in
      let r := r <| hr_threads ::= delete i |> in
      if hr_post r then r <| hr_posted ::= fun l => l ++ [(lj_done job, result)] |> else r
  | None => r
  end.

Inductive resolver_op :=
  | OpResolve (host : string) (family : HostFamily) (port : Z) (done_ : nat)
  | OpThreadEnds (net : GetAddrInfo) (i : nat)
  | OpDestroy.
Definition resolver_step (r : HostResolver) (o : resolver_op) : HostResolver :=
  match o with
  | OpResolve host family port done_ => Resolve r host family port done_
  | OpThreadEnds net i => thread_ends net r i
  | OpDestroy => HostResolver_destroy r
  end.
Definition resolver_run : list resolver_op -> HostResolver -> HostResolver := fun ops r => fold_left resolver_step ops r.
Definition job_of (o : resolver_op) : list LookupJob :=
  match o with OpResolve host family port done_ => [MkLookupJob host family port done_] | _ => [] end.
Definition asked_jobs (ops : list resolver_op) : list LookupJob := ops ≫= job_of.

(** ** Theorems *)

(** The answer is the first entry of the list that is an address, with the port asked
    for and of the shape the rest of the program keeps addresses in; there is none
    when the lookup fails or no entry is one. *)
Theorem resolve_first_usable (net : GetAddrInfo) (host : string) (family : HostFamily) (port : Z) :
  (forall f, Forall (fun ai => length (sa_addr (ai_addr ai)) = addr_bytes (match ai_family ai with Some AF_INET6 => V6 | _ => V4 end)) (net (c_str host) f).2) ->
  0 <= port < 2 ^ 16 ->
  match ResolveHostNow net host family port with
  | Ok ep => endpoint_proper ep /\ L1Types.port ep = port /\ (net (c_str host) (hint_of family)).1 = 0
      /\ exists before ai after, (net (c_str host) (hint_of family)).2 = before ++ ai :: after
           /\ Forall (fun ai => usable port ai = None) before /\ usable port ai = Some ep
  | Fail _ => (net (c_str host) (hint_of family)).1 <> 0 \/ Forall (fun ai => usable port ai = None) (net (c_str host) (hint_of family)).2
  end.
Proof.
  intros Hlen Hport. specialize (Hlen (hint_of family)). unfold ResolveHostNow. destruct (net _ _) as [rc results]. cbn [fst snd] in *.
  destruct (Z.eqb_spec rc 0); cbn [negb orb]; [|by left]. case_bool_decide as Hr; [subst; right; by constructor|].
  assert (Hf : match first_usable port results with
               | Some ep => exists before ai after, results = before ++ ai :: after /\ Forall (fun ai => usable port ai = None) before /\ usable port ai = Some ep
               | None => Forall (fun ai => usable port ai = None) results
               end).
  { clear. induction results as [|ai results IH]; [by constructor|]. cbn. destruct (usable port ai) as [ep|] eqn:Hu; [by exists [], ai, results|].
    destruct (first_usable port results) as [ep|]; [|by constructor]. destruct IH as (before & ai' & after & -> & Hb & Hu').
    exists (ai :: before), ai', after. split_and!; [done|by constructor|done]. }
  destruct (first_usable port results) as [ep|]; [|by right]. destruct Hf as (before & ai & after & -> & Hb & Hu).
  apply Forall_app in Hlen as [_ [Hai _]%Forall_cons]. assert (Hep : endpoint_proper ep /\ L1Types.port ep = port); [|split_and!; naive_solver].
  unfold usable in Hu. destruct (ai_family ai) as [[]|]; [| |done]; destruct (_ <=? _); try done; injection Hu as <-; (split; [split; cbn|done]); try done.
  rewrite length_app, length_take, Hai. done.
Qed.

Definition answer_of (lookup : Lookup) (job : LookupJob) (p : nat * Roe IpEndpoint) : Prop :=
  p.1 = lj_done job /\ exists net, p.2 = lookup net (lj_host job) (lj_family job) (lj_port job).
Record resolver_inv (lookup : Lookup) (asked : list LookupJob) (r : HostResolver) : Prop := {
  ri_lookup : hr_lookup r = lookup;
  ri_jobs : exists told lost, asked ≡ₚ hr_threads r ++ told ++ lost /\ Forall2 (answer_of lookup) told (hr_posted r) /\ (hr_post r = true -> lost = []);
}.
Lemma resolver_step_inv lookup asked r o : resolver_inv lookup asked r -> resolver_inv lookup (asked ++ job_of o) (resolver_step r o).
Proof.
  intros [Hl (told & lost & Hp & Ht & Hal)]. destruct o as [host family port done_|net i|]; cbn [resolver_step job_of].
  - split; [done|]. exists told, lost. split_and!; [|done|done]. cbn. rewrite Hp. solve_Permutation.
  - rewrite app_nil_r. unfold thread_ends. destruct (hr_threads r !! i) as [job|] eqn:Hi; [|split; [done|by exists told, lost]].
    pose proof (delete_Permutation _ _ _ Hi) as Hd. rewrite Hd in Hp. cbv zeta. cbn [hr_post set_field]. destruct (hr_post r) eqn:Hpost.
    + split; [done|]. exists (told ++ [job]), lost. split_and!; [|apply Forall2_app; [done|]|intros _; by apply Hal].
      * cbn. rewrite Hp. solve_Permutation.
      * constructor; [|constructor]. split; [done|]. exists net. cbn. by rewrite Hl.
    + split; [done|]. exists told, (job :: lost). split_and!; [|done|cbn; congruence]. cbn. rewrite Hp. solve_Permutation.
  - rewrite app_nil_r. split; [done|]. by exists told, lost.
Qed.

(** A lookup answers once, and not to one that is gone.  Over any run, in whatever
    order the threads end, each lookup asked for is running, answered or lost; each
    answer is the one of its own lookup, and none is lost but to the end of the
    resolver; once that has come nothing more is handed on. *)
Theorem lookups_answered_once (lookup : option Lookup) (ops : list resolver_op) :
  let r := resolver_run ops (HostResolver_new lookup) in
  (exists told lost, asked_jobs ops ≡ₚ hr_threads r ++ told ++ lost
     /\ Forall2 (answer_of (default ResolveHostNow lookup)) told (hr_posted r) /\ (hr_post r = true -> lost = []))
  /\ (forall more, hr_post r = false -> hr_posted (resolver_run more r) = hr_posted r)
  /\ (forall net i job, hr_post r = true -> hr_threads r !! i = Some job ->
        hr_posted (thread_ends net r i) = hr_posted r ++ [(lj_done job, default ResolveHostNow lookup net (lj_host job) (lj_family job) (lj_port job))]).
Proof.
  cbv zeta. set (l := default ResolveHostNow lookup).
  assert (Hi : forall ops asked r, resolver_inv l asked r -> resolver_inv l (asked ++ asked_jobs ops) (resolver_run ops r)).
  { intros l'. induction l' as [|o l' IH]; intros asked r Hr; [unfold asked_jobs; cbn; by rewrite app_nil_r|].
    unfold resolver_run, asked_jobs in *. cbn [fold_left]. rewrite bind_cons, app_assoc. by apply IH, resolver_step_inv. }
  specialize (Hi ops [] (HostResolver_new lookup)). cbn [app] in Hi.
  destruct Hi as [Hl Hj]; [split; [done|]; exists [], []; by split_and!|]. set (r := resolver_run ops _) in *. clearbody r. split_and!.
  - exact Hj.
  - intros more. clear -more. revert r. induction more as [|o more IH]; intros r Hp; [done|]. unfold resolver_run in *. cbn [fold_left].
    assert (Ho : hr_posted (resolver_step r o) = hr_posted r /\ hr_post (resolver_step r o) = false).
    { destruct o as [| net i|]; [done| |done]. cbn [resolver_step]. unfold thread_ends. destruct (hr_threads r !! i); [|done]. cbv zeta. cbn [hr_post set_field]. by rewrite Hp. }
    destruct Ho as [<- Ho]. by apply IH.
  - intros net i job Hp Ht. unfold thread_ends. rewrite Ht. cbv zeta. cbn [hr_post set_field]. rewrite Hp. cbn. by rewrite Hl.
Qed.
