(* ===== verification/TestNet.v ===== *)
(** * The network of the tests (src/L1/MemoryDatagramIo.cpp, LossyDatagramIo.cpp, include/amp/L1/Clock.h)

    A hub with a queue of datagrams per address, sockets on it that lose, repeat and
    reorder what is sent, the same as a wrapper of any other socket, and the clock
    the tests set.  Both sockets implement [DatagramIo].  The random generator is a
    class ([Rng]).  Theorems: what is in the network is what was sent, each datagram
    as many times as its faults say, and nothing else; a flush hands on all that is
    held, in order. *)

From S2P Require Import Prelude L1Types Endpoint.

(** [std::mt19937] and its distributions: [dist(rng) < rate], and a number from 0 to [n]. *)
Class Rng (G Rate : Type) := {
  rng_seed : Z -> G;
  rng_below : G -> Rate -> G * bool;
  rng_upto : G -> nat -> G * nat;
  rate_zero : Rate;
  rate_positive : Rate -> bool;
}.
Class RngLaws (G Rate : Type) `{Rng G Rate} := {
  rng_upto_le g n : ((rng_upto g n).2 <= n)%nat;
  rate_zero_not : rate_positive rate_zero = false;
}.

(** [VirtualClock]. *)
Record VirtualClock := MkVirtualClock { now_ms_ : Z }.
Definition NowMs (c : VirtualClock) : Z := now_ms_ c.
Definition Advance (c : VirtualClock) (delta_ms : Z) : VirtualClock := MkVirtualClock (now_ms_ c + delta_ms).
Definition ClockSet (c : VirtualClock) (now_ms : Z) : VirtualClock := MkVirtualClock now_ms.

(** ** The hub *)

(** Tables by address, compared as addresses are. *)
Abbreviation table A := (list (IpEndpoint * A)).
Fixpoint at_addr {A} (k : IpEndpoint) (t : table A) : option A :=
  match t with
  | [] => None
  | (k', v) :: t => if endpoint_eqb k' k then Some v else at_addr k t
  end.
Fixpoint put_addr {A} (k : IpEndpoint) (v : A) (t : table A) : table A :=
  match t with
  | [] => [(k, v)]
  | (k', v') :: t => if endpoint_eqb k' k then (k', v) :: t else (k', v') :: put_addr k v t
  end.
Definition erase_addr {A} (k : IpEndpoint) (t : table A) : table A := filter (fun e => endpoint_eqb e.1 k = false) t.

Record MemoryDatagramHub := MkHub { ios_ : table nat; queues_ : table (list (IpEndpoint * bytes)) }.
#[export] Instance Hub_fields : Fields MemoryDatagramHub := fun h => MkHub (ios_ h) (queues_ h).
Definition MakeHub : MemoryDatagramHub := MkHub [] [].
Definition Register (h : MemoryDatagramHub) (local : IpEndpoint) (io : nat) : MemoryDatagramHub := h <| ios_ ::= put_addr local io |>.
Definition Unregister (h : MemoryDatagramHub) (local : IpEndpoint) : MemoryDatagramHub :=
  h <| ios_ ::= erase_addr local |> <| queues_ ::= erase_addr local |>.
Definition Enqueue (h : MemoryDatagramHub) (to from : IpEndpoint) (datagram : bytes) : MemoryDatagramHub :=
  h <| queues_ ::= fun t => put_addr to (default [] (at_addr to t) ++ [(from, datagram)]) t |>.
Definition HubDeliver (h : MemoryDatagramHub) (from to : IpEndpoint) (datagram : bytes) : MemoryDatagramHub := Enqueue h to from datagram.
Definition Pop (h : MemoryDatagramHub) (local : IpEndpoint) : MemoryDatagramHub * option (IpEndpoint * bytes) :=
  match at_addr local (queues_ h) with
  | Some (pkt :: rest) => (h <| queues_ ::= put_addr local rest |>, Some pkt)
  | _ => (h, None)
  end.

(** ** The faults *)

Record Faults (G Rate : Type) := MkFaults {
  drop_rate_ : Rate; dup_rate_ : Rate; reorder_window_ : nat; drop_next_ : nat;
  rng_ : G; pending_reorder_ : list (IpEndpoint * bytes);
}.
Arguments MkFaults {G Rate}. Arguments drop_rate_ {G Rate}. Arguments dup_rate_ {G Rate}. Arguments reorder_window_ {G Rate}.
Arguments drop_next_ {G Rate}. Arguments rng_ {G Rate}. Arguments pending_reorder_ {G Rate}.
#[export] Instance Faults_fields {G Rate} : Fields (Faults G Rate) := fun f =>
  MkFaults (drop_rate_ f) (dup_rate_ f) (reorder_window_ f) (drop_next_ f) (rng_ f) (pending_reorder_ f).

Section Net.
Context {G Rate : Type} `{Rng G Rate}.
Abbreviation F := (Faults G Rate).
Definition SetDropRate (f : F) (rate : Rate) : F := f <| drop_rate_ := rate |>.
Definition SetDupRate (f : F) (rate : Rate) : F := f <| dup_rate_ := rate |>.
Definition SetReorderWindow (f : F) (n : nat) : F := f <| reorder_window_ := n |>.
Definition SetRngSeed (f : F) (seed : Z) : F := f <| rng_ := rng_seed seed |>.
Definition DropNext (f : F) (n : nat) : F := f <| drop_next_ := n |>.
Definition Faults_new : F := MkFaults rate_zero rate_zero 0 0 (rng_seed 1) [].

(** What is sent now, of the datagrams held and the new one. *)
Definition hold (f : F) (peer : IpEndpoint) (buf : bytes) : F * option (IpEndpoint * bytes) :=
  if (0 <? reorder_window_ f)%nat then
    let f := f <| pending_reorder_ ::= fun l => l ++ [(peer, buf)] |> in
    let held := pending_reorder_ f in
    if (reorder_window_ f <? length held)%nat then
      let '(g, idx) := rng_upto (rng_ f) (length held - 1) in
      (f <| rng_ := g |> <| pending_reorder_ ::= delete idx |>, held !! idx)
    else (f, None)
  else (f, Some (peer, buf)).
(** [rate > 0 && dist(rng) < rate]. *)
Definition strikes (f : F) (rate : Rate) : F * bool :=
  if rate_positive rate then let '(g, hit) := rng_below (rng_ f) rate in (f <| rng_ := g |>, hit) else (f, false).

(** *** MemoryDatagramIo *)

Record MemoryDatagramIo := MkMemoryIo { mio_local : IpEndpoint; mio_faults : F; fail_next_ : nat; unreachable_ : list IpEndpoint }.
#[export] Instance MemoryIo_fields : Fields MemoryDatagramIo := fun m => MkMemoryIo (mio_local m) (mio_faults m) (fail_next_ m) (unreachable_ m).
Definition FailNextSends (m : MemoryDatagramIo) (n : nat) : MemoryDatagramIo := m <| fail_next_ := n |>.
Definition MemoryIo_new (h : MemoryDatagramHub) (local : IpEndpoint) (io : nat) : MemoryDatagramHub * MemoryDatagramIo :=
  (Register h local io, MkMemoryIo local Faults_new 0 []).
Definition MemoryFlushReorder (h : MemoryDatagramHub) (m : MemoryDatagramIo) : MemoryDatagramHub * MemoryDatagramIo :=
  (fold_left (fun h '(peer, buf) => HubDeliver h (mio_local m) peer buf) (pending_reorder_ (mio_faults m)) h,
   m <| mio_faults ::= fun f => f <| pending_reorder_ := [] |> |>).
Definition MemoryIo_destroy (h : MemoryDatagramHub) (m : MemoryDatagramIo) : MemoryDatagramHub :=
  let '(h, m) := MemoryFlushReorder h m in Unregister h (mio_local m).
Definition Rebind (h : MemoryDatagramHub) (m : MemoryDatagramIo) (io : nat) (new_local : IpEndpoint) : MemoryDatagramHub * MemoryDatagramIo :=
  let '(h, m) := MemoryFlushReorder h m in
  (Register (Unregister h (mio_local m)) new_local io, m <| mio_local := new_local |>).
Definition SetUnreachable (m : MemoryDatagramIo) (peer : IpEndpoint) (unreachable : bool) : MemoryDatagramIo :=
  m <| unreachable_ ::= fun l => filter (fun e => endpoint_eqb e peer = false) l ++ (if unreachable then [peer] else []) |>.
Definition memory_deliver (h : MemoryDatagramHub) (m : MemoryDatagramIo) (peer : IpEndpoint) (buf : bytes) : MemoryDatagramHub * MemoryDatagramIo :=
  let '(f, out) := hold (mio_faults m) peer buf in
  (match out with Some (to, d) => HubDeliver h (mio_local m) to d | None => h end, m <| mio_faults := f |>).
Definition MemorySendTo (h : MemoryDatagramHub) (m : MemoryDatagramIo) (peer : IpEndpoint) (datagram : bytes)
    : MemoryDatagramHub * MemoryDatagramIo * Roe unit :=
  if existsb (fun e => endpoint_eqb e peer) (unreachable_ m)
  then (h, m, Fail (MkError kDatagramSendUnreachable "memory datagram io: peer unreachable"))
  else if (0 <? fail_next_ m)%nat
  then (h, m <| fail_next_ ::= pred |>, Fail (MkError 0 "memory datagram io: simulated transient send failure"))
  else if (0 <? drop_next_ (mio_faults m))%nat
  then (h, m <| mio_faults ::= fun f => f <| drop_next_ ::= pred |> |>, Ok tt)
  else
    let '(f, dropped) := strikes (mio_faults m) (drop_rate_ (mio_faults m)) in
    let m := m <| mio_faults := f |> in
    if dropped then (h, m, Ok tt)
    else
      let '(h, m) := memory_deliver h m peer datagram in
      let '(f, again) := strikes (mio_faults m) (dup_rate_ (mio_faults m)) in
      let m := m <| mio_faults := f |> in
      let '(h, m) := if again then memory_deliver h m peer datagram else (h, m) in
      (h, m, Ok tt).
#[export] Instance Memory_DatagramIo : DatagramIo (MemoryDatagramHub * MemoryDatagramIo) := {|
  SendTo := fun io peer datagram => MemorySendTo io.1 io.2 peer datagram;
  RecvFrom := fun io => let '(h, got) := Pop io.1 (mio_local io.2) in ((h, io.2), Ok got);
|}.

(** *** LossyDatagramIo *)

Context {Io : Type} `{DatagramIo Io}.
Record LossyDatagramIo := MkLossy { inner_ : Io; lossy_faults : F }.
#[export] Instance Lossy_fields : Fields LossyDatagramIo := fun l => MkLossy (inner_ l) (lossy_faults l).
Definition Lossy_new (inner : Io) : LossyDatagramIo := MkLossy inner Faults_new.
Definition LossyFlushReorder (l : LossyDatagramIo) : LossyDatagramIo :=
  MkLossy (fold_left (fun io '(peer, buf) => (SendTo io peer buf).1) (pending_reorder_ (lossy_faults l)) (inner_ l))
    (lossy_faults l <| pending_reorder_ := [] |>).
Definition LossyDeliver (l : LossyDatagramIo) (peer : IpEndpoint) (buf : bytes) : LossyDatagramIo * Roe unit :=
  let '(f, out) := hold (lossy_faults l) peer buf in
  match out with
  | Some (to, d) => let '(io, r) := SendTo (inner_ l) to d in (MkLossy io f, r)
  | None => (l <| lossy_faults := f |>, Ok tt)
  end.
Definition LossySendTo (l : LossyDatagramIo) (peer : IpEndpoint) (datagram : bytes) : LossyDatagramIo * Roe unit :=
  if (0 <? drop_next_ (lossy_faults l))%nat then (l <| lossy_faults ::= fun f => f <| drop_next_ ::= pred |> |>, Ok tt)
  else
    let '(f, dropped) := strikes (lossy_faults l) (drop_rate_ (lossy_faults l)) in
    let l := l <| lossy_faults := f |> in
    if dropped then (l, Ok tt)
    else
      let '(l, sent) := LossyDeliver l peer datagram in
      match sent with
      | Fail e => (l, Fail e)
      | Ok _ =>
          let '(f, again) := strikes (lossy_faults l) (dup_rate_ (lossy_faults l)) in
          let l := l <| lossy_faults := f |> in
          if again then LossyDeliver l peer datagram else (l, Ok tt)
      end.
#[export] Instance Lossy_DatagramIo : DatagramIo LossyDatagramIo := {|
  SendTo := LossySendTo;
  RecvFrom := fun l => let '(io, r) := RecvFrom (inner_ l) in (l <| inner_ := io |>, r);
|}.
End Net.
Arguments MemoryDatagramIo G Rate : clear implicits.
Arguments LossyDatagramIo G Rate Io : clear implicits.

(** ** What is in the network *)

#[export] Instance endpoint_eqb_proper : Proper (endpoint_equiv ==> endpoint_equiv ==> eq) endpoint_eqb.
Proof. intros a a' Ha b b' Hb. apply eq_true_iff_eq. fold (endpoint_equiv a b) (endpoint_equiv a' b'). by rewrite Ha, Hb. Qed.
Lemma eqb_same a b c : endpoint_equiv a b -> endpoint_eqb a c = endpoint_eqb b c.
Proof. by intros ->. Qed.
Lemma not_same a b c : endpoint_eqb a b = true -> endpoint_eqb a c = true -> endpoint_eqb b c = false -> False.
Proof. fold (endpoint_equiv a b). intros Hab Hac. by rewrite <- Hab, Hac. Qed.
Lemma eqb_sym a b : endpoint_eqb a b = endpoint_eqb b a.
Proof. apply eq_true_iff_eq. fold (endpoint_equiv a b) (endpoint_equiv b a). by split. Qed.
Lemma at_put {A} k (v : A) t a : at_addr a (put_addr k v t) = if endpoint_eqb k a then Some v else at_addr a t.
Proof.
  induction t as [|[k' v'] t IH]; [done|]. cbn. destruct (endpoint_eqb k' k) eqn:Hk; cbn.
  - rewrite (eqb_same _ _ a Hk). by destruct (endpoint_eqb k a).
  - destruct (endpoint_eqb k' a) eqn:Ha; [|apply IH]. destruct (endpoint_eqb k a) eqn:Hka; [|done].
    rewrite eqb_sym in Ha, Hka. destruct (not_same a k' k Ha Hka Hk).
Qed.
Lemma at_erase {A} k (t : table A) a : at_addr a (erase_addr k t) = if endpoint_eqb k a then None else at_addr a t.
Proof.
  unfold erase_addr. induction t as [|[k' v'] t IH]; [by destruct (endpoint_eqb k a)|]. rewrite filter_cons. case_decide as Hk; cbn [fst] in Hk; cbn [at_addr].
  - rewrite IH. destruct (endpoint_eqb k' a) eqn:Ha; [|done]. destruct (endpoint_eqb k a) eqn:Hka; [|done].
    rewrite eqb_sym in Ha, Hka. destruct (not_same a k' k Ha Hka Hk).
  - apply not_false_is_true in Hk. rewrite IH, (eqb_same _ _ a Hk). by destruct (endpoint_eqb k a).
Qed.

Section Facts.
Context {G Rate : Type} `{RngLaws G Rate}.
Abbreviation M := (MemoryDatagramIo G Rate).

Definition queue_of (h : MemoryDatagramHub) (a : IpEndpoint) : list (IpEndpoint * bytes) := default [] (at_addr a (queues_ h)).
(** What a socket holds back for an address. *)
Definition held_for (m : M) (a : IpEndpoint) : list (IpEndpoint * bytes) :=
  map (fun pd => (mio_local m, pd.2)) (filter (fun pd => endpoint_eqb pd.1 a = true) (pending_reorder_ (mio_faults m))).
Definition bound_for (h : MemoryDatagramHub) (m : M) (a : IpEndpoint) : list (IpEndpoint * bytes) := queue_of h a ++ held_for m a.

Lemma queue_deliver h from to d a : queue_of (HubDeliver h from to d) a = queue_of h a ++ (if endpoint_eqb to a then [(from, d)] else []).
Proof.
  unfold queue_of, HubDeliver, Enqueue. cbn. rewrite at_put. destruct (endpoint_eqb to a) eqn:Ha; [|by rewrite app_nil_r]. cbn. f_equal.
  induction (queues_ h) as [|[k v] t IH]; [done|]. cbn. destruct (endpoint_eqb k to) eqn:Hk, (endpoint_eqb k a) eqn:Hka; try done.
  - rewrite (eqb_same _ _ a Hk) in Hka. congruence.
  - rewrite eqb_sym in Hka, Ha. destruct (not_same a k to Hka Ha Hk).
Qed.
Lemma hold_keeps (f : Faults G Rate) peer buf :
  pending_reorder_ (hold f peer buf).1 ++ option_list (hold f peer buf).2 ≡ₚ pending_reorder_ f ++ [(peer, buf)]
  /\ drop_rate_ (hold f peer buf).1 = drop_rate_ f /\ dup_rate_ (hold f peer buf).1 = dup_rate_ f.
Proof.
  unfold hold. destruct (0 <? _)%nat; [|done]. cbv zeta. cbn [pending_reorder_ reorder_window_ rng_ set_field]. set (held := _ ++ [_]).
  destruct (_ <? _)%nat eqn:Hlt; [|by rewrite app_nil_r]. apply Nat.ltb_lt in Hlt. pose proof (rng_upto_le (rng_ f) (length held - 1)) as Hle.
  destruct (rng_upto _ _) as [g idx]. cbn [fst snd] in *. split; [|done].
  destruct (lookup_lt_is_Some_2 held idx) as [x Hx]; [lia|]. cbn. rewrite Hx. cbn. by rewrite (delete_Permutation _ _ _ Hx), Permutation_app_comm.
Qed.
Lemma deliver_bound h (m : M) peer buf a :
  let '(h', m') := memory_deliver h m peer buf in
  mio_local m' = mio_local m /\ dup_rate_ (mio_faults m') = dup_rate_ (mio_faults m)
  /\ bound_for h' m' a ≡ₚ bound_for h m a ++ (if endpoint_eqb peer a then [(mio_local m, buf)] else []).
Proof.
  unfold memory_deliver. pose proof (hold_keeps (mio_faults m) peer buf) as (Hp & _ & Hd). destruct (hold _ _ _) as [f out]. cbn [fst snd] in *.
  split_and!; [done|done|]. unfold bound_for, held_for. cbn [mio_faults mio_local set_field].
  set (sel := fun l => map (fun pd : IpEndpoint * bytes => (mio_local m, pd.2)) (filter (fun pd => endpoint_eqb pd.1 a = true) l)).
  assert (Hsel : sel (pending_reorder_ f) ++ sel (option_list out) ≡ₚ sel (pending_reorder_ (mio_faults m)) ++ sel [(peer, buf)]).
  { unfold sel. rewrite <- !map_app, <- !filter_app. apply Permutation_map. by rewrite Hp. }
  assert (Hone : forall to d, sel [(to, d)] = if endpoint_eqb to a then [(mio_local m, d)] else []).
  { intros to d. unfold sel. rewrite filter_cons. cbn. by destruct (endpoint_eqb to a). }
  rewrite Hone in Hsel. fold (sel (pending_reorder_ f)). fold (sel (pending_reorder_ (mio_faults m))). rewrite <- app_assoc, <- Hsel.
  destruct out as [[to d]|]; cbn [option_list]; [|by rewrite app_nil_r]. rewrite queue_deliver, <- Hone. cbn [option_list]. solve_Permutation.
Qed.
Lemma strikes_bound (m : M) rate : let '(f, hit) := strikes (mio_faults m) rate in
  pending_reorder_ f = pending_reorder_ (mio_faults m) /\ dup_rate_ f = dup_rate_ (mio_faults m) /\ (rate_positive rate = false -> hit = false).
Proof. unfold strikes. destruct (rate_positive rate); [|done]. by destruct (rng_below _ _). Qed.
Lemma bound_faults h (m : M) f a : pending_reorder_ f = pending_reorder_ (mio_faults m) -> bound_for h (m <| mio_faults := f |>) a = bound_for h m a.
Proof. intros Hf. unfold bound_for, held_for. cbn. by rewrite Hf. Qed.

(** What is in the network of the tests is what was sent.  A send adds, for its
    address, the datagram as many times as its faults say, twice at most, not at all
    if it fails, and once when no fault is set; for other addresses it changes nothing,
    and it takes nothing away.  A flush holds nothing back any more, and hands on what
    was held in order.  A receive takes the first of its own queue. *)
Theorem network_keeps (h : MemoryDatagramHub) (m : M) (peer : IpEndpoint) (datagram : bytes) :
  (let '(h', m', r) := MemorySendTo h m peer datagram in
   exists copies, (copies <= 2)%nat
     /\ (forall a, bound_for h' m' a ≡ₚ bound_for h m a ++ (if endpoint_eqb peer a then replicate copies (mio_local m, datagram) else []))
     /\ match r with
        | Fail _ => copies = 0%nat
        | Ok _ => drop_next_ (mio_faults m) = 0%nat -> rate_positive (drop_rate_ (mio_faults m)) = false ->
                  rate_positive (dup_rate_ (mio_faults m)) = false -> copies = 1%nat
        end)
  /\ (let '(h', m') := MemoryFlushReorder h m in
      pending_reorder_ (mio_faults m') = [] /\ forall a, queue_of h' a = queue_of h a ++ held_for m a)
  /\ (let '(h', got) := Pop h (mio_local m) in
      queue_of h (mio_local m) = option_list got ++ queue_of h' (mio_local m)
      /\ forall a, endpoint_eqb (mio_local m) a = false -> queue_of h' a = queue_of h a).
Proof.
  split_and!.
  - unfold MemorySendTo. destruct (existsb _ _); [exists 0%nat; split_and!; [lia| |done]; intros a; destruct (endpoint_eqb peer a); cbn; by rewrite app_nil_r|].
    destruct (0 <? fail_next_ m)%nat; [exists 0%nat; split_and!; [lia| |done]; intros a; destruct (endpoint_eqb peer a); cbn; by rewrite app_nil_r|].
    destruct (0 <? drop_next_ _)%nat eqn:Hdn.
    { apply Nat.ltb_lt in Hdn. exists 0%nat. split_and!; [lia| |intros; lia]. intros a. destruct (endpoint_eqb peer a); cbn; by rewrite app_nil_r. }
    pose proof (strikes_bound m (drop_rate_ (mio_faults m))) as Hs. destruct (strikes _ _) as [f1 dropped]. destruct Hs as (Hf1 & Hd1 & Hnd).
    cbv zeta. destruct dropped.
    { exists 0%nat. split_and!; [lia| |intros _ Hr; by specialize (Hnd Hr)]. intros a. rewrite bound_faults by done. destruct (endpoint_eqb peer a); cbn; by rewrite app_nil_r. }
    set (m1 := m <| mio_faults := f1 |>). pose proof (deliver_bound h m1 peer datagram) as Hd. destruct (memory_deliver h m1 peer datagram) as [h2 m2].
    destruct (Hd peer) as (Hl2 & Hr2 & _).
    pose proof (strikes_bound m2 (dup_rate_ (mio_faults m2))) as Hs. destruct (strikes _ _) as [f3 again]. destruct Hs as (Hf3 & _ & Hna).
    set (m3 := m2 <| mio_faults := f3 |>). assert (H3' : forall a, bound_for h2 m3 a ≡ₚ bound_for h m a ++ (if endpoint_eqb peer a then [(mio_local m, datagram)] else [])).
    { intros a. unfold m3. rewrite bound_faults by done. destruct (Hd a) as (_ & _ & ->). unfold m1. by rewrite bound_faults. }
    destruct again.
    + pose proof (deliver_bound h2 m3 peer datagram) as Hd4. destruct (memory_deliver h2 m3 peer datagram) as [h4 m4]. exists 2%nat. split_and!; [lia| |].
      * intros a. destruct (Hd4 a) as (_ & _ & ->). rewrite H3', <- app_assoc. change (mio_local m3) with (mio_local m2). rewrite Hl2. by destruct (endpoint_eqb peer a).
      * intros _ _ Hr. rewrite Hr2 in Hna. unfold m1 in Hna. cbn in Hna. rewrite Hd1 in Hna. by specialize (Hna Hr).
    + exists 1%nat. split_and!; [lia|done|done].
  - unfold MemoryFlushReorder. split; [done|]. intros a. unfold held_for. generalize (pending_reorder_ (mio_faults m)) as l. intros l. revert h.
    induction l as [|[to d] l IH]; intros h; [cbn; by rewrite app_nil_r|]. cbn [fold_left]. rewrite IH, queue_deliver, filter_cons. cbn [fst].
    destruct (endpoint_eqb to a); cbn; [by rewrite <- app_assoc|by rewrite app_nil_r].
  - unfold Pop, queue_of. destruct (at_addr (mio_local m) (queues_ h)) as [[|pkt rest]|] eqn:Hq; cbn; rewrite ?Hq; try done. split.
    + rewrite at_put. by rewrite (proj2 (endpoint_eqb_spec (mio_local m) (mio_local m))).
    + intros a Ha. by rewrite at_put, Ha.
Qed.

(** A datagram sent to the address a socket left is not dropped: it waits there, and
    the socket has it when it comes back. *)
Lemma left_address_keeps h (m : M) io new_local from d : endpoint_eqb new_local (mio_local m) = false -> pending_reorder_ (mio_faults m) = [] ->
  let '(h', m') := Rebind h m io new_local in
  let '(h'', m'') := Rebind (HubDeliver h' from (mio_local m) d) m' io (mio_local m) in
  (Pop h'' (mio_local m'')).2 = Some (from, d).
Proof.
  intros Hne Hp. unfold Rebind, MemoryFlushReorder. rewrite Hp. cbn [fold_left mio_faults mio_local set_field pending_reorder_].
  unfold Pop, Register, Unregister, HubDeliver, Enqueue. cbn [queues_ ios_ set_field mio_local snd].
  set (old := mio_local m) in *. assert (Hold : endpoint_eqb old old = true) by (by apply endpoint_eqb_spec).
  by rewrite at_erase, Hne, at_put, Hold, at_erase, Hold.
Qed.
End Facts.

(** The wrapper loses and repeats in the same way: the datagrams it gave to the socket
    below, and those it holds back, are those sent, each twice at most. *)
Section Lossy.
Context {G Rate Io : Type} `{RngLaws G Rate} `{DatagramIo Io}.
(** The socket below, and what it was given. *)
Abbreviation Logged := (Io * list (IpEndpoint * bytes))%type.
#[local] Instance Logged_io : DatagramIo Logged := {|
  SendTo := fun io peer d => let '(i, r) := SendTo io.1 peer d in ((i, io.2 ++ [(peer, d)]), r);
  RecvFrom := fun io => let '(i, r) := RecvFrom io.1 in ((i, io.2), r);
|}.
Abbreviation Lossy := (LossyDatagramIo G Rate Logged).
Definition given (l : Lossy) : list (IpEndpoint * bytes) := (inner_ l).2 ++ pending_reorder_ (lossy_faults l).
Lemma lossy_deliver_given (l : Lossy) peer d :
  given (LossyDeliver l peer d).1 ≡ₚ given l ++ [(peer, d)] /\ dup_rate_ (lossy_faults (LossyDeliver l peer d).1) = dup_rate_ (lossy_faults l).
Proof.
  unfold LossyDeliver, given. pose proof (hold_keeps (lossy_faults l) peer d) as (Hp & _ & Hd). destruct (hold _ _ _) as [f [[to buf]|]]; cbn [fst snd option_list] in *.
  - cbn. destruct (SendTo (inner_ l).1 to buf) as [i r]. cbn. split; [|done]. rewrite <- !app_assoc, <- Hp. solve_Permutation.
  - cbn. split; [|done]. by rewrite <- app_assoc, <- Hp, app_nil_r.
Qed.
Theorem lossy_keeps (l : Lossy) (peer : IpEndpoint) (datagram : bytes) :
  exists copies, (copies <= 2)%nat
    /\ given (LossySendTo l peer datagram).1 ≡ₚ given l ++ replicate copies (peer, datagram)
    /\ (drop_next_ (lossy_faults l) = 0%nat -> rate_positive (drop_rate_ (lossy_faults l)) = false ->
        rate_positive (dup_rate_ (lossy_faults l)) = false -> copies = 1%nat).
Proof.
  unfold LossySendTo. destruct (0 <? drop_next_ _)%nat eqn:Hdn.
  { apply Nat.ltb_lt in Hdn. exists 0%nat. split_and!; [lia|cbn; by rewrite app_nil_r|intros; lia]. }
  unfold strikes. destruct (rate_positive (drop_rate_ (lossy_faults l))) eqn:Hdr.
  - destruct (rng_below _ _) as [g dropped]. cbv zeta. set (l1 := l <| lossy_faults := _ |>). destruct dropped.
    { exists 0%nat. split_and!; [lia|cbn; by rewrite app_nil_r|done]. }
    pose proof (lossy_deliver_given l1 peer datagram) as [Hg _]. destruct (LossyDeliver l1 peer datagram) as [l2 [|e]]; [|by exists 1%nat; split_and!; [lia|..]].
    destruct (rate_positive (dup_rate_ (lossy_faults l2))); [|by exists 1%nat; split_and!; [lia|..]]. destruct (rng_below _ _) as [g3 []]; [|by exists 1%nat; split_and!; [lia|..]].
    set (l3 := l2 <| lossy_faults := _ |>). destruct (lossy_deliver_given l3 peer datagram) as [Hg3 _]. exists 2%nat. split_and!; [lia| |done].
    rewrite Hg3. change (given l3) with (given l2). cbn [fst] in Hg. rewrite Hg. by rewrite <- app_assoc.
  - set (l1 := l <| lossy_faults := _ |>). pose proof (lossy_deliver_given l1 peer datagram) as [Hg Hd].
    destruct (LossyDeliver l1 peer datagram) as [l2 [|e]]; [|by exists 1%nat; split_and!; [lia|..]]. cbn [fst] in *. rewrite Hd.
    change (dup_rate_ (lossy_faults l1)) with (dup_rate_ (lossy_faults l)).
    destruct (rate_positive (dup_rate_ (lossy_faults l))); [|by exists 1%nat; split_and!; [lia|..]]. destruct (rng_below _ _) as [g3 []]; [|by exists 1%nat; split_and!; [lia|..]].
    set (l3 := l2 <| lossy_faults := _ |>). destruct (lossy_deliver_given l3 peer datagram) as [Hg3 _]. exists 2%nat. split_and!; [lia| |done].
    rewrite Hg3. change (given l3) with (given l2). rewrite Hg. by rewrite <- app_assoc.
Qed.
End Lossy.

(** A generator that counts: the laws can hold. *)
Definition toy_rng : Rng nat bool := {|
  rng_seed := Z.to_nat;
  rng_below := fun g rate => (S g, rate && Nat.odd g);
  rng_upto := fun g n => (S g, Nat.min g n);
  rate_zero := false;
  rate_positive := fun rate => rate;
|}.
Lemma toy_rng_laws : @RngLaws nat bool toy_rng.
Proof. split; [intros g n; cbn; lia|done]. Qed.
